(* ===== verification/_CoqProject ===== *)
-Q . S2P
Prelude.v
PyStr.v
PyJson.v
PyStrFacts.v
PyValue.v
JobModel.v
JobService.v
JobFacts.v
JobExec.v
JobClaims.v
JobGuarantees.v
JobRaces.v
JobRuntime.v
RuntimeClaims.v
TenantAccess.v
Entities.v
JobsApi.v
DateTime.v
JobMigration.v
RetroStore.v
RetroEmit.v
RetroQuery.v
RetroClaims.v
RetroExport.v
RetroFeatures.v
DataLifecycle.v
LifecycleClaims.v
WorkflowEngine.v
WorkflowClaims.v
LayerBoundaries.v
EntityMerge.v
TenantQuotas.v
ApiKeyScopes.v
DomainScope.v
CircuitBreaker.v
UnionFind.v
Blocking.v
Cache.v
CacheSpec.v
CacheSims.v
Normalize.v
AuthorityCache.v
CacheClaims.v
Auth.v
AuthUsers.v
AuthClaims.v
AuthorityJobs.v
AuthorityJobsClaims.v
Transform.v
TransformClaims.v
Harmonization.v
HarmonizationClaims.v
Organizations.v
OrgClaims.v
AuthorityReview.v
AuthorityReviewClaims.v
AuthorityAutoConfirm.v
Graph.v
GraphPaths.v
GraphComponents.v
NameKey.v
Coauthor.v
CoauthorClaims.v
CoauthorIdentity.v
CoauthorReview.v
Enrichment.v
EnrichmentQueue.v
EnrichmentClaims.v
EnrichmentQueueClaims.v
EnrichmentViews.v
AuditTrail.v
AuditClaims.v
Notifications.v
NotificationClaims.v
EntityCatalog.v
EntityCatalogClaims.v
Portals.v
PortalClaims.v
