(* ===== verification/Prelude.v ===== *)
(** * Universal Knowledge Intelligence Platform: verified core of the backend

    The backend under [src/backend] is a FastAPI service over SQLAlchemy. This
    library models the parts that carry its own logic (tenancy, the durable job
    queue, the append-only retrospective layer, data lifecycle, automation,
    authentication, caching, entity resolution and its review, harmonization, the
    relationship and coauthorship graphs, enrichment, the entity catalogue and its
    portals, the audit trail, notifications) and proves what they promise each other.

    ** Conventions

    - A Python call that can raise is a [res]: [Ok] a value or [Raise] an
      exception ([exn] holds the class name and [str(exc)], or the status and
      detail of an [HTTPException]).
    - A call that uses a database session is in the monad [M] of this file: the
      state is a [Session], what the session sees with its uncommitted writes
      ([sess_db]) and the last committed state ([sess_base]). [commit],
      [rollback] and [mtry] (try/except) are the session's; a raise keeps the
      writes made before it. [interfere] lets other sessions commit between two
      statements, which is how races are stated; an interleaving of whole calls
      is a list of calls.
    - The program's sessions do not flush before a query (database.py). Objects
      of the session are seen with their pending changes, so this shows only
      where a query filters on a pending column or looks for a pending row;
      there the model passes the rows of the last flush ([AuthorityReview]).
    - A table is a list of rows in id order with its sequence; unique constraints
      are the check an insert makes (NULLs are distinct). A dict is an
      association list in insertion order. sorted is [sort_by], a
      stable insertion sort; ORDER BY is the same over the rows in the order the
      database reads them, which is a parameter where pages are compared
      ([EntityCatalog]) and table order elsewhere.
    - Clock readings, uuids, environment variables, HTTP responses, the vector
      store, sha256, Fernet and similarity ratios are parameters of the
      definitions that use them.
    - Text is Latin-1 ([PyStr]): case mapping and whitespace classes are those of
      CPython below code point 256. JSON numbers are integers ([PyJson]).

    ** Files

    - [Prelude]: the above, dict and table lemmas, the tactic [mrun] that runs
      the statements whose outcome is known. [PyStr], [PyJson], [PyValue],
      [DateTime]: the language and standard library the program relies on;
      [PyJson] proves that [loads] inverts [dumps] (parser fuel: twice the length
      of the text, which the proof shows to be enough), [PyValue] that what it
      reads has no key twice, [DateTime] that isoformat is injective.
    - Durable jobs. [JobModel] (jobs/states.py and the tables of
      models.py), [JobService] (jobs/service.py), [JobRuntime] (jobs/runtime.py,
      jobs/metrics.py), [JobMigration] (jobs/migration.py, jobs/handlers.py),
      [JobsApi] (routers/jobs.py). [JobFacts] and [JobExec] describe a service as
      a function on the committed table and prove the row invariant [job_wf].
      A service gets a row as its caller loaded it, which other transactions may
      have overtaken. Theorems: [JobClaims] (every reachable table keeps its keys
      and statuses, and is well formed if no instance was overtaken, every call
      moves rows along the state machine only, terminal rows are frozen),
      [JobGuarantees] (no attempt is handed out twice under any interleaving,
      the claim takes a least due job, recovery and replay are exact),
      [JobRaces] (enqueue is idempotent for a tenant, also when raced; cancel is
      not a compare-and-set), [RuntimeClaims] (deliveries are bounded by the
      budget, the outcome of one unit of work, exhaustion of a failing job, exact
      health), [JobMigration] (the cutover never repeats a side effect),
      [JobsApi] (a cross-tenant request performs no transition).
    - Tenancy and access. [TenantAccess] (tenant_access.py), [TenantQuotas]
      (tenant_quotas.py), [ApiKeyScopes] (api_key_scopes.py), [DomainScope]
      (domain_scope.py): scoped queries return what the caller may see, the quota
      gate and the quota report agree, the scope table fails closed.
    - Retrospective layer. [RetroStore] (retrospective/registry.py, writer.py,
      with a class [Governed] for what the two record types share and [Stored]
      for where the database keeps them), [RetroEmit] (emit.py),
      [RetroQuery] (query.py, metrics.py), [RetroExport] (export.py, with the
      class [Exported] the two exports implement), [RetroFeatures]
      (features.py). [RetroClaims]: history is governed, append-only and
      idempotent; point-in-time reads and cohorts reconstruct the past; exports
      are exact and repeatable, and training rows never leak the future.
    - Lifecycle and automation. [DataLifecycle] (services/data_lifecycle.py) with
      [LifecycleClaims]: the retention purge deletes exactly what is past its own
      tenant's cutoff, erasure is complete for its surfaces and confined.
      [WorkflowEngine] (workflow_engine.py, over a session that a failed statement
      or flush puts out of order and nobody rolls back) with [WorkflowClaims]: a
      run is recorded to its end unless the database refused something, triggers
      stay in the tenant. [LayerBoundaries]
      (services/layer_boundaries.py).
    - Resilience and clustering. [CircuitBreaker] (circuit_breaker.py,
      authority/resilience.py): load on a failing service is bounded.
      [UnionFind], [Blocking] (clustering/union_find.py, blocking.py): clusters
      are the classes generated by the matching pairs; the loops of the forest
      run on fuel, the number of elements, which the rank invariant shows to be
      enough. [EntityMerge] (entity_linker.py and the two merge endpoints).
    - Cache. [Cache] (cache/): the interface as a class, the in-process and the
      Redis backend as modules over an expiring store, the factory; [CacheSpec]
      the laws a store promises, [CacheSims] the simulations of the backends by
      one abstract cache. [AuthorityCache] (authority/cache.py, thresholds.py).
      [CacheClaims]: either backend refines the abstract cache, a lookup answers
      the truth of its key under any interleaving, and where the backends differ.
    - Authentication. [Auth] (tables, auth.py, principal.py,
      routers/api_keys.py), [AuthUsers] (routers/auth_users.py). [AuthClaims]:
      who authenticates was issued a credential, revocation is final, lockout
      bounds guessing, one-time secrets are spent once, a super admin remains.
    - Organisations. [Organizations] (routers/organizations.py), [OrgClaims]:
      ownership and uniqueness are invariant, access follows membership.
    - Entities and their cleaning. [Entities] (rows and scoping), [PyStrFacts] (text
      lemmas). [Transform] (transformations/engine.py), [TransformClaims]: a
      validated expression never raises and means what it prints.
      [Harmonization] (routers/harmonization.py, transformations.py),
      [HarmonizationClaims]: undo and redo are exact, an apply does what its
      preview shows, no call leaves the caller's scope.
    - Authority. [Normalize] (authority/normalize.py), [AuthorityJobs]
      (auto_enqueue.py, batch_resolution.py, batch_worker.py,
      hierarchical_fallback.py), and the batch route of routers/authority.py;
      [AuthorityJobsClaims]: one open job per field beside the batches asked for, a
      run is exact and confined to its tenant, the queue drains.
      [AuthorityReview] (routers/authority_records.py, the two write-backs,
      feedback.py), [AuthorityReviewClaims]: no history of reviews takes
      anything from an entity, a reviewer stays in his organisation;
      [AuthorityAutoConfirm]: auto-confirm takes a best candidate per value.
    - Relationship graph. [Graph] (graph_analytics.py, routers/relationships.py)
      over abstract floats; [GraphPaths]: a path that is found is a shortest one
      and the subgraph of an entity is its neighbourhood up to the cap;
      [GraphComponents]: components are the connectivity classes, communities
      refine them, the table stays a simple graph. Queues run on fuel that counts
      the edges (adjacencies) and is proved to be enough.
    - Coauthorship graph. [NameKey] (the name keys of coauthorship/identity.py),
      [Coauthor] (identity, suggestions, recompute and migration of coauthorship/,
      the writer of enrichment_worker.py, routers/coauthorship.py).
      [CoauthorClaims]: the weight of an edge is what the contribution log
      accounts for; [CoauthorIdentity]: writing a work again adds nothing;
      [CoauthorReview]: suggestions and merges are exact.
    - Enrichment. [Enrichment] (one record: the cascade of sources behind their
      breakers, what a match writes, the scrapers, failures), [EnrichmentQueue]
      (the worker's claim and batches, the scheduler of
      services/enrichment_scheduler.py, the endpoints that queue records),
      [EnrichmentViews] (their counters and dashboards). [EnrichmentClaims]: the
      first source with an answer is used, every outcome the database takes is
      recorded, attributes survive; [EnrichmentQueueClaims]: a record has one
      worker but for writes that do not ask, a drained batch is announced once, a
      run stays within its budget.
    - Entity catalogue. [EntityCatalog] (services/entity_service.py, work_type.py,
      quality_scorer.py, the endpoints of routers/entities.py that read, edit and
      delete); [EntityCatalogClaims]: the number beside a facet value is what the
      list shows for it, pages of an order without ties partition the list, edits
      stay in the scope.
    - Catalogue portals. [Portals] (routers/catalogs.py) over the catalogue's
      tables; [PortalClaims]: after any history of portals in which the public ones
      have an organisation, a visitor sees rows of his own or of the portal's only, what is listed can be opened,
      facets count what picking them shows, a view is read as it was saved.
    - Audit trail. [AuditTrail] (audit.py, read_audit.py, routers/audit_log.py,
      the notification centre of routers/notifications.py); [AuditClaims]: a
      request leaves at most one row, which names who acted and no query value,
      and what a user has read stays read.
    - Outbound notifications. [Notifications] (notifications/, the dispatch of
      routers/deps.py, routers/alert_channels.py, webhooks.py and the mail
      settings); [NotificationClaims]: an event reaches the subscribers of
      its organisation (and those of others), once, a delivery records what the
      server answered, and the three workers of an event may run in any order.
    - Files named after a component with [Claims] end with the lemmas on where
      the code parts from what it says, on concrete tables.

    ** Not modelled

    Float arithmetic (similarity scores, percentages, averages, the feedback prior;
    quality scores are in ten-thousandths, which their four decimals are: snapshots.py, clustering/algorithms.py, scoring.py,
    analyzers), text outside Latin-1, typographic dashes and ellipses in messages
    (written as hyphens and a full stop), icons, logging, threads' start and sleep, network clients, file formats
    and rendering. JSON numbers are integers, except in entity attributes, whose
    JSON functions are parameters. html.unescape, Unicode decomposition, LIKE,
    the collation of the database, bcrypt, the token codec, HMAC, form encoding,
    SMTP, ipaddress and the order of a Python set are parameters with the laws that are used as hypotheses.
    Exception messages of the JSON decoder are abbreviated. The database is taken
    to run statements that do not violate a declared unique constraint or
    reference; where another refusal (a value it cannot store or compare, a lost
    connection) matters it is a parameter: [WorkflowEngine.Store],
    [Enrichment.Database], [Notifications.Network], [DataLifecycle].

    ** Plan

    Next: the threshold and link endpoints of the authority routers, scheduled
    imports and reports, field correspondences, ingest, graph
    materialisation, the clustering algorithms with their scores as parameters. *)
From stdpp Require Export base tactics list sorting strings gmap.
From Stdlib Require Export ZArith Lia.

Declare Scope py_scope.
Delimit Scope py_scope with py.

(** * Python exceptions and fallible results *)

(** An exception value: the class name and [str(exc)], or FastAPI's
    [HTTPException] with its status code. *)
Inductive exn :=
  | Exn (exc_type exc_msg : string)
  | HTTPException (status_code : Z) (detail : string).

#[export] Instance exn_eq_dec : EqDecision exn.
Proof. solve_decision. Defined.

Definition exn_name (e : exn) : string :=
  match e with Exn t _ => t | HTTPException _ _ => "HTTPException" end.

Inductive res (A : Type) :=
  | Ok (a : A)
  | Raise (e : exn).
Arguments Ok {A} a.
Arguments Raise {A} e.

#[export] Instance res_eq_dec {A} `{EqDecision A} : EqDecision (res A).
Proof. solve_decision. Defined.

Definition res_bind {A B} (c : res A) (k : A -> res B) : res B :=
  match c with Ok a => k a | Raise e => Raise e end.

Notation "'let?' x ':=' c 'in' k" := (res_bind c (fun x => k))
  (at level 10, x pattern, c at level 100, k at level 200) : py_scope.

Definition is_ok {A} (r : res A) : bool :=
  match r with Ok _ => true | Raise _ => false end.

(** * Database sessions *)

(** A SQLAlchemy session: [sess_db] is what the session sees (its flushed,
    uncommitted writes included), [sess_base] is the last committed state. *)
Record Session (D : Type) := mkSession { sess_db : D; sess_base : D }.
Arguments mkSession {D} _ _.
Arguments sess_db {D} _.
Arguments sess_base {D} _.

(** A computation in a session: it may raise, and its writes stay. *)
Definition M (D A : Type) : Type := Session D -> res A * Session D.

Definition mret {D A} (a : A) : M D A := fun s => (Ok a, s).
Definition mraise {D A} (e : exn) : M D A := fun s => (Raise e, s).
Definition mbind {D A B} (c : M D A) (k : A -> M D B) : M D B :=
  fun s => match c s with
           | (Ok a, s') => k a s'
           | (Raise e, s') => (Raise e, s')
           end.
Definition mlift {D A} (r : res A) : M D A := fun s => (r, s).
Definition mget {D} : M D D := fun s => (Ok (sess_db s), s).
Definition mmodify {D} (f : D -> D) : M D unit :=
  fun s => (Ok tt, mkSession (f (sess_db s)) (sess_base s)).
(** [try: c except Exception as e: h e] *)
Definition mtry {D A} (c : M D A) (h : exn -> M D A) : M D A :=
  fun s => match c s with
           | (Ok a, s') => (Ok a, s')
           | (Raise e, s') => h e s'
           end.
Definition commit {D} : M D unit :=
  fun s => (Ok tt, mkSession (sess_db s) (sess_db s)).
Definition rollback {D} : M D unit :=
  fun s => (Ok tt, mkSession (sess_base s) (sess_base s)).
(** What other sessions commit while this one is between two statements. *)
Definition interfere {D} (others : D -> D) : M D unit :=
  fun s => (Ok tt, mkSession (others (sess_db s)) (others (sess_base s))).

Notation "'do!' x '<-' c ';' k" := (mbind c (fun x => k))
  (at level 10, x pattern, c at level 100, k at level 200) : py_scope.
Notation "'run!' c ';' k" := (mbind c (fun _ => k))
  (at level 10, c at level 100, k at level 200) : py_scope.

(** Running one statement: the equations of the monad. *)
Section monad_equations.
Context {D A B : Type}.
Implicit Types (s : Session D) (k : A -> M D B).

Lemma run_ret (a : A) k s : mbind (mret a) k s = k a s.
Proof. done. Qed.
Lemma run_lift_ok (a : A) k s : mbind (mlift (Ok a)) k s = k a s.
Proof. done. Qed.
Lemma run_lift_raise e k s : mbind (mlift (Raise e)) k s = (Raise e, s).
Proof. done. Qed.
Lemma run_raise e k s : mbind (mraise e) k s = (Raise e, s).
Proof. done. Qed.
Lemma run_get (k : D -> M D B) s : mbind mget k s = k (sess_db s) s.
Proof. done. Qed.
Lemma run_modify (f : D -> D) (k : unit -> M D B) s :
  mbind (mmodify f) k s = k tt (mkSession (f (sess_db s)) (sess_base s)).
Proof. done. Qed.
Lemma run_commit (k : unit -> M D B) s :
  mbind commit k s = k tt (mkSession (sess_db s) (sess_db s)).
Proof. done. Qed.
Lemma run_rollback (k : unit -> M D B) s :
  mbind rollback k s = k tt (mkSession (sess_base s) (sess_base s)).
Proof. done. Qed.
Lemma run_interfere (f : D -> D) (k : unit -> M D B) s :
  mbind (interfere f) k s = k tt (mkSession (f (sess_db s)) (f (sess_base s))).
Proof. done. Qed.
(** When the outcome of the first statement is known. *)
Lemma run_ok (c : M D A) k s a s' : c s = (Ok a, s') -> mbind c k s = k a s'.
Proof. unfold mbind. by intros ->. Qed.
Lemma run_fails (c : M D A) k s e s' : c s = (Raise e, s') -> mbind c k s = (Raise e, s').
Proof. unfold mbind. by intros ->. Qed.
Lemma try_ok (c : M D A) h s a s' : c s = (Ok a, s') -> mtry c h s = (Ok a, s').
Proof. unfold mtry. by intros ->. Qed.
Lemma try_fails (c : M D A) h s e s' : c s = (Raise e, s') -> mtry c h s = h e s'.
Proof. unfold mtry. by intros ->. Qed.
End monad_equations.

Create HintDb py.
#[export] Hint Rewrite @run_ret @run_lift_ok @run_lift_raise @run_raise @run_get @run_modify
  @run_commit @run_rollback @run_interfere : py.
(** Run the statements whose outcome is syntactically known. *)
Ltac mrun := repeat (progress (autorewrite with py; cbn [sess_db sess_base])).

(** A session with nothing pending. *)
Definition clean {D} (d : D) : Session D := mkSession d d.

(** * Rows, tables and Python dictionaries *)

Definition update_where {A} (p : A -> bool) (f : A -> A) (l : list A) : list A :=
  map (fun r => if p r then f r else r) l.

Definition count_where {A} (p : A -> bool) (l : list A) : Z :=
  Z.of_nat (length (List.filter p l)).

(** A Python dict: keys in insertion order. *)
Section dict.
Context {K V : Type} `{EqDecision K}.
Fixpoint dict_get (k : K) (d : list (K * V)) : option V :=
  match d with
  | [] => None
  | (k', v) :: d' => if decide (k = k') then Some v else dict_get k d'
  end.
(** [d[k] = v]: in place when the key exists, appended otherwise. *)
Fixpoint dict_set (k : K) (v : V) (d : list (K * V)) : list (K * V) :=
  match d with
  | [] => [(k, v)]
  | (k', v') :: d' =>
      if decide (k = k') then (k', v) :: d' else (k', v') :: dict_set k v d'
  end.
Definition dict_keys (d : list (K * V)) : list K := map fst d.
Definition dict_pop (k : K) (d : list (K * V)) : list (K * V) :=
  List.filter (fun kv => negb (bool_decide (kv.1 = k))) d.
(** [d.update(e)] *)
Definition dict_update (d e : list (K * V)) : list (K * V) :=
  fold_left (fun acc kv => dict_set kv.1 kv.2 acc) e d.
End dict.

(** * Ordering: a stable insertion sort for [ORDER BY] and [sorted] *)
Section isort.
Context {A : Type} (le : A -> A -> bool).
Fixpoint insert_by (x : A) (l : list A) : list A :=
  match l with
  | [] => [x]
  | y :: l' => if le x y then x :: l else y :: insert_by x l'
  end.
Definition sort_by (l : list A) : list A := foldr insert_by [] l.
End isort.

Section dict_lemmas.
Context {K V : Type} `{EqDecision K}.
Implicit Types d e : list (K * V).

Lemma dict_get_set_eq k v d : dict_get k (dict_set k v d) = Some v.
Proof.
  induction d as [|[k' v'] d IH]; simpl.
  - by rewrite decide_True.
  - case_decide as E; simpl; [by rewrite decide_True|by rewrite decide_False].
Qed.
Lemma dict_get_set_ne k k' v d : k <> k' -> dict_get k (dict_set k' v d) = dict_get k d.
Proof.
  intros Hne. induction d as [|[j w] d IH]; simpl.
  - by rewrite decide_False.
  - case_decide as E; simpl; subst; repeat case_decide; congruence.
Qed.
Lemma dict_get_Some_elem k v d : dict_get k d = Some v -> (k, v) ∈ d.
Proof.
  induction d as [|[j w] d IH]; simpl; [done|].
  case_decide; intros; simplify_eq; [by left|right; auto].
Qed.
Lemma dict_get_None k d : dict_get k d = None <-> k ∉ dict_keys d.
Proof.
  unfold dict_keys. induction d as [|[j w] d IH]; simpl; [split; [by inversion 2|done]|].
  case_decide; rewrite ?not_elem_of_cons; naive_solver.
Qed.
Lemma dict_keys_set k v d :
  dict_keys (dict_set k v d)
  = if decide (k ∈ dict_keys d) then dict_keys d else dict_keys d ++ [k].
Proof.
  unfold dict_keys. induction d as [|[j w] d IH]; simpl; [done|].
  destruct (decide (k = j)) as [->|Hne]; simpl.
  - rewrite decide_True; [done|by left].
  - rewrite IH. destruct (decide (k ∈ map fst d)) as [Hi|Hi].
    + rewrite decide_True; [done|by right].
    + rewrite decide_False; [done|]. by rewrite not_elem_of_cons.
Qed.
Lemma dict_set_fresh k v d : k ∉ dict_keys d -> dict_set k v d = d ++ [(k, v)].
Proof.
  unfold dict_keys. induction d as [|[j w] d IH]; simpl; [done|].
  rewrite not_elem_of_cons. intros [Hne Hn]. rewrite decide_False by done. by rewrite IH.
Qed.
Lemma dict_update_fresh e d :
  NoDup (dict_keys (d ++ e)) -> dict_update d e = d ++ e.
Proof.
  unfold dict_update, dict_keys. revert d. induction e as [|[k v] e IH]; intros d Hnd; simpl.
  - by rewrite app_nil_r.
  - rewrite dict_set_fresh.
    + rewrite IH; rewrite <-?(assoc_L (++)); [done|]. done.
    + unfold dict_keys. rewrite map_app in Hnd. simpl in Hnd.
      apply NoDup_app in Hnd as (_ & Hd & _). intros Hk. apply (Hd k Hk). by left.
Qed.
End dict_lemmas.

(** * Lemmas on tables *)
Section table_lemmas.
Context {A B : Type}.
Implicit Types (l : list A) (p : A -> bool) (f : A -> A).

Lemma update_where_ext p f f' l :
  (forall r, In r l -> p r = true -> f r = f' r) -> update_where p f l = update_where p f' l.
Proof.
  intros H. apply map_ext_in. intros r Hr. destruct (p r) eqn:E; auto.
Qed.
Lemma update_where_id p f l :
  (forall r, In r l -> p r = true -> f r = r) -> update_where p f l = l.
Proof.
  intros H. unfold update_where. rewrite <- (map_id l) at 2. apply map_ext_in.
  intros r Hr. destruct (p r) eqn:E; auto.
Qed.
Lemma update_where_map (k : A -> B) p f l :
  (forall r, k (f r) = k r) -> map k (update_where p f l) = map k l.
Proof.
  intros H. unfold update_where. rewrite map_map. apply map_ext. intros r. by destruct (p r).
Qed.
Lemma update_where_twice p f f' l :
  (forall r, p r = true -> p (f r) = true) ->
  update_where p f' (update_where p f l) = update_where p (fun r => f' (f r)) l.
Proof.
  intros H. unfold update_where. rewrite map_map. apply map_ext. intros r.
  destruct (p r) eqn:E; [by rewrite H|by rewrite E].
Qed.
Lemma in_update_where p f l r' :
  In r' (update_where p f l) ->
  exists r, In r l /\ ((p r = true /\ r' = f r) \/ (p r = false /\ r' = r)).
Proof.
  unfold update_where. rewrite in_map_iff. intros (r & <- & Hr).
  exists r. split; [done|]. destruct (p r); auto.
Qed.
Lemma update_where_in p f l r :
  In r l -> In (if p r then f r else r) (update_where p f l).
Proof. intros H. apply in_map_iff. eauto. Qed.

Lemma NoDup_map_inj (k : A -> B) l x y :
  NoDup (map k l) -> In x l -> In y l -> k x = k y -> x = y.
Proof.
  intros Hnd. induction l as [|a l IH]; simpl in *; [done|].
  apply NoDup_cons in Hnd as [Ha Hnd].
  intros [->|Hx] [->|Hy] E; auto.
  - exfalso. apply Ha. rewrite E. apply list_elem_of_In. by apply in_map.
  - exfalso. apply Ha. rewrite <- E. apply list_elem_of_In. by apply in_map.
Qed.
Lemma find_unique (k : A -> B) p l x :
  NoDup (map k l) -> In x l -> p x = true -> (forall y, p y = true -> k y = k x) ->
  List.find p l = Some x.
Proof.
  intros Hnd Hx Hp Hk. destruct (List.find p l) as [y|] eqn:E.
  - apply find_some in E as [Hy Hpy]. f_equal. apply (NoDup_map_inj k l); auto.
  - exfalso. pose proof (find_none _ _ E x Hx). congruence.
Qed.
Lemma count_where_unique (k : A -> B) p l x :
  NoDup (map k l) -> In x l -> p x = true -> (forall y, p y = true -> k y = k x) ->
  count_where p l = 1%Z.
Proof.
  intros Hnd Hx Hp Hk. unfold count_where. enough (List.filter p l = [x]) as -> by done.
  induction l as [|a l IH]; simpl in *; [done|].
  apply NoDup_cons in Hnd as [Ha Hnd]. destruct Hx as [->|Hx].
  - rewrite Hp. f_equal. clear IH Hnd. induction l as [|y l IH]; simpl in *; [done|].
    apply not_elem_of_cons in Ha as [Hne Ha].
    destruct (p y) eqn:E; [|auto]. by rewrite (Hk y E) in Hne.
  - destruct (p a) eqn:E; [|auto]. exfalso. apply Ha.
    rewrite (Hk a E). apply list_elem_of_In. by apply in_map.
Qed.
Lemma count_where_0 p l : count_where p l = 0%Z <-> (forall x, In x l -> p x = false).
Proof.
  unfold count_where. split.
  - intros H x Hx. destruct (p x) eqn:E; [|done].
    assert (Hin : In x (List.filter p l)) by (apply filter_In; auto).
    destruct (List.filter p l); [done|simpl in H; lia].
  - intros H. induction l as [|a l IH]; simpl; [done|].
    rewrite H by (by left). apply IH. intros; apply H. by right.
Qed.
Lemma NoDup_map_filter (k : A -> B) p l : NoDup (map k l) -> NoDup (map k (List.filter p l)).
Proof.
  induction l as [|a l IH]; simpl; [done|]. intros [Ha Hnd]%NoDup_cons.
  destruct (p a); simpl; [|auto]. constructor; [|auto].
  rewrite list_elem_of_In, in_map_iff in *. intros (y & E & [Hy _]%filter_In).
  apply Ha. eauto.
Qed.
End table_lemmas.

(** Sorting keeps the elements, and puts a least one first. *)
Section isort_lemmas.
Context {A : Type} (le : A -> A -> bool).
Lemma insert_by_in x y l : In y (insert_by le x l) <-> y = x \/ In y l.
Proof.
  induction l as [|z l IH]; simpl; [naive_solver|].
  destruct (le x z); simpl; rewrite ?IH; naive_solver.
Qed.
Lemma sort_by_in y l : In y (sort_by le l) <-> In y l.
Proof.
  induction l as [|z l IH]; simpl; [done|]. rewrite insert_by_in, IH. naive_solver.
Qed.
Lemma insert_by_perm x l : insert_by le x l ≡ₚ x :: l.
Proof.
  induction l as [|y l IH]; simpl; [done|]. destruct (le x y); [done|].
  rewrite IH. constructor.
Qed.
Lemma sort_by_perm l : sort_by le l ≡ₚ l.
Proof. induction l as [|x l IH]; simpl; [done|]. by rewrite insert_by_perm, IH. Qed.

Definition total_le : Prop := forall x y, le x y = true \/ le y x = true.
Definition trans_le : Prop := forall x y z, le x y = true -> le y z = true -> le x z = true.

Lemma insert_by_sorted x l :
  total_le -> trans_le ->
  StronglySorted (fun a b => le a b = true) l ->
  StronglySorted (fun a b => le a b = true) (insert_by le x l).
Proof.
  intros Htot Htr. induction 1 as [|y l Hs IH Hy]; simpl.
  - repeat constructor.
  - destruct (le x y) eqn:E.
    + constructor; [by constructor|]. constructor; [done|].
      rewrite Forall_forall in *. intros z Hz. eauto.
    + constructor; [done|]. rewrite Forall_forall in *. intros z Hz.
      apply list_elem_of_In, insert_by_in in Hz as [->|Hz].
      * destruct (Htot x y); congruence.
      * apply Hy. by apply list_elem_of_In.
Qed.
Lemma sort_by_sorted l :
  total_le -> trans_le -> StronglySorted (fun a b => le a b = true) (sort_by le l).
Proof. intros. induction l; simpl; [constructor|by apply insert_by_sorted]. Qed.

(** Without ties the order the elements came in does not matter. *)
Lemma sort_by_unique l l' :
  total_le -> trans_le -> l ≡ₚ l' -> (forall x y, In x l -> In y l -> le x y = true -> le y x = true -> x = y) ->
  sort_by le l = sort_by le l'.
Proof.
  intros Htot Htr Hp Ha. apply (StronglySorted_unique_strong (fun a b => le a b = true)); [|by apply sort_by_sorted|by apply sort_by_sorted|by rewrite !sort_by_perm].
  intros x y Hx Hy. apply Ha.
  - by apply sort_by_in, list_elem_of_In.
  - apply list_elem_of_In. rewrite Hp. rewrite <- (sort_by_perm l'). done.
Qed.

Lemma hd_sort_by_least l x :
  total_le -> trans_le -> hd_error (sort_by le l) = Some x ->
  In x l /\ (forall y, In y l -> y = x \/ le x y = true).
Proof.
  intros Htot Htr Hhd. pose proof (sort_by_sorted l Htot Htr) as Hs.
  pose proof (fun y => sort_by_in y l) as Hin.
  destruct (sort_by le l) as [|z l']; simpl in *; [done|]. injection Hhd as ->.
  split; [apply Hin; by left|]. intros y Hy. apply Hin in Hy as [->|Hy]; [by left|right].
  apply StronglySorted_inv in Hs as [_ Hf]. rewrite Forall_forall in Hf.
  apply Hf. by apply list_elem_of_In.
Qed.
Lemma hd_sort_by_None l : hd_error (sort_by le l) = None -> l = [].
Proof.
  intros H. pose proof (sort_by_perm l) as Hp. destruct (sort_by le l); [|done].
  by apply Permutation_nil in Hp.
Qed.
End isort_lemmas.

(** ** Counting *)
Lemma count_where_cons {A} (p : A -> bool) x l : count_where p (x :: l) = ((if p x then 1 else 0) + count_where p l)%Z.
Proof. unfold count_where. cbn [List.filter]. destruct (p x); cbn [List.length]; lia. Qed.
Lemma count_where_app {A} (p : A -> bool) l l' : count_where p (l ++ l') = (count_where p l + count_where p l')%Z.
Proof. unfold count_where. rewrite List.filter_app, length_app. lia. Qed.
Lemma count_where_nonneg {A} (p : A -> bool) l : (0 <= count_where p l)%Z.
Proof. unfold count_where. lia. Qed.
Lemma count_where_pos {A} (p : A -> bool) l x : In x l -> p x = true -> (1 <= count_where p l)%Z.
Proof.
  intros Hx Hp. induction l as [|y l IH]; [done|]. rewrite count_where_cons. pose proof (count_where_nonneg p l).
  destruct Hx as [->|Hx]; [rewrite Hp; lia|]. specialize (IH Hx). destruct (p y); lia.
Qed.
(** The groups of a key count every element once. *)
Lemma counted_over {A K} `{EqDecision K} (key : A -> K) ks l :
  NoDup ks -> (forall r, In r l -> key r ∈ ks) ->
  (fold_right Z.add 0 (map (fun k => count_where (fun r => bool_decide (key r = k)) l) ks) = Z.of_nat (List.length l))%Z.
Proof.
  intros Hnd. induction l as [|r l IH]; intros Hk.
  - clear. induction ks as [|k ks IH]; cbn; [done|]. by rewrite IH.
  - assert (E : forall ks', NoDup ks' -> (fold_right Z.add 0 (map (fun k => count_where (fun r => bool_decide (key r = k)) (r :: l)) ks')
        = (if bool_decide (key r ∈ ks') then 1 else 0) + fold_right Z.add 0 (map (fun k => count_where (fun r => bool_decide (key r = k)) l) ks'))%Z).
    { induction 1 as [|k ks' Hn _ IHk]; [done|]. cbn [map fold_right]. rewrite IHk. unfold count_where at 1. cbn [List.filter].
      destruct (decide (key r = k)) as [->|Hd].
      - rewrite (bool_decide_eq_true_2 (k = k)), (bool_decide_eq_false_2 (k ∈ ks')), bool_decide_eq_true_2 by (done || by left).
        cbn [List.length]. unfold count_where at 2. lia.
      - rewrite (bool_decide_eq_false_2 (key r = k)) by done. fold (count_where (fun r => bool_decide (key r = k)) l).
        rewrite (bool_decide_ext (key r ∈ k :: ks') (key r ∈ ks')); [lia|]. split; [|by right].
        intros Hi. by inversion Hi. }
    rewrite E, IH by (done || (intros; apply Hk; by right)). rewrite bool_decide_eq_true_2 by (apply Hk; by left). cbn [List.length]. lia.
Qed.

(** * Invariants of sessions

    [preserves P c]: a computation keeps [P] on what the session sees and on
    what is committed. One lemma per construct of the monad, and a tactic that
    walks a handler. *)
Definition preserves {D A} (P : D -> Prop) (c : M D A) : Prop :=
  forall s, P (sess_db s) -> P (sess_base s) -> P (sess_db (snd (c s))) /\ P (sess_base (snd (c s))).

Section rules.
Context {D : Type} (P : D -> Prop).

Lemma preserves_ret {A} (a : A) : preserves P (mret a).
Proof. done. Qed.
Lemma preserves_raise {A} e : preserves P (mraise e : M D A).
Proof. done. Qed.
Lemma preserves_lift {A} (r : res A) : preserves P (mlift r).
Proof. done. Qed.
Lemma preserves_get : preserves P (mget (D := D)).
Proof. done. Qed.
Lemma preserves_modify f : (forall d, P d -> P (f d)) -> preserves P (mmodify f).
Proof. intros Hf s Hd Hb. split; [by apply Hf|done]. Qed.
Lemma preserves_commit : preserves P (commit (D := D)).
Proof. done. Qed.
Lemma preserves_rollback : preserves P (rollback (D := D)).
Proof. done. Qed.
Lemma preserves_bind {A B} (c : M D A) (k : A -> M D B) :
  preserves P c -> (forall a, preserves P (k a)) -> preserves P (mbind c k).
Proof.
  intros Hc Hk s Hd Hb. unfold mbind. specialize (Hc s Hd Hb).
  destruct (c s) as [[a|e] s1]; simpl in *; destruct Hc as [H1 H2]; [exact (Hk a s1 H1 H2)|done].
Qed.
(** What is read satisfies the invariant. *)
Lemma preserves_bind_get {B} (k : D -> M D B) :
  (forall d, P d -> preserves P (k d)) -> preserves P (mbind mget k).
Proof. intros Hk s Hd Hb. exact (Hk (sess_db s) Hd s Hd Hb). Qed.
Lemma preserves_lift_ok {A B} (a : A) (k : A -> M D B) : preserves P (k a) -> preserves P (mbind (mlift (Ok a)) k).
Proof. done. Qed.
Lemma preserves_lift_raise {A B} e (k : A -> M D B) : preserves P (mbind (mlift (Raise e)) k).
Proof. done. Qed.
Lemma preserves_try {A} (c : M D A) h : preserves P c -> (forall e, preserves P (h e)) -> preserves P (mtry c h).
Proof.
  intros Hc Hh s Hd Hb. unfold mtry. specialize (Hc s Hd Hb).
  destruct (c s) as [[a|e] s1]; simpl in *; destruct Hc as [H1 H2]; [done|exact (Hh e s1 H1 H2)].
Qed.
End rules.

Create HintDb preserve.
#[export] Hint Resolve preserves_ret preserves_raise preserves_lift preserves_get preserves_commit preserves_rollback : preserve.

(** Walk a handler: binds, reads, cases; what is left are its own calls. *)
Ltac preserve_step :=
  match goal with
  | |- preserves _ (mbind mget _) => apply preserves_bind_get; intros ? ?
  | |- preserves _ (mbind _ _) => apply preserves_bind; [|intros ?]
  | |- preserves _ (mtry _ _) => apply preserves_try; [|intros ?]
  | |- preserves _ (match ?x with _ => _ end) => destruct x
  | |- preserves _ (mmodify _) => apply preserves_modify; intros ? ?
  | |- preserves _ _ => solve [eauto with preserve]
  end.
Ltac preserve := repeat preserve_step.
