(* ===== verification/PyStr.v ===== *)
(** Python [str] on code points below 256 (Latin-1): the methods the modelled
    modules call ([strip], [lower], [upper], [startswith], [split], [join],
    [splitlines], slicing, [str(int)]), each with the exact character classes
    of CPython on that range. *)
From S2P Require Import Prelude.
From Stdlib Require Import Ascii String DecimalString DecimalZ.
From Stdlib Require DecimalFacts.
Open Scope string_scope.
Open Scope list_scope.

#[global] Arguments String.append !_ _ / : simpl nomatch.

Abbreviation chars := String.list_ascii_of_string.
Abbreviation of_chars := String.string_of_list_ascii.

Definition code (c : ascii) : N := N_of_ascii c.

(** [str.isspace] below 256: TAB..CR, FS..US, SPACE, NEL, NBSP. *)
Definition is_space (c : ascii) : bool :=
  let n := code c in
  ((9 <=? n) && (n <=? 13) || (28 <=? n) && (n <=? 32) || (n =? 133) || (n =? 160))%N.

(** [str.lower]: A-Z and the Latin-1 capitals (not the multiplication sign). *)
Definition lower_char (c : ascii) : ascii :=
  let n := code c in
  if ((65 <=? n) && (n <=? 90) || (192 <=? n) && (n <=? 222) && negb (n =? 215))%N
  then ascii_of_N (n + 32) else c.

(** [str.upper] where it stays below 256 (not for the micro sign, the sharp s
    and the y with diaeresis, whose capitals leave the range). *)
Definition upper_char (c : ascii) : ascii :=
  let n := code c in
  if ((97 <=? n) && (n <=? 122) || (224 <=? n) && (n <=? 254) && negb (n =? 247))%N
  then ascii_of_N (n - 32) else c.

Definition on_chars (f : list ascii -> list ascii) (s : string) : string :=
  of_chars (f (chars s)).

Definition lower (s : string) : string := on_chars (map lower_char) s.
Definition upper (s : string) : string := on_chars (map upper_char) s.

Fixpoint drop_while (p : ascii -> bool) (l : list ascii) : list ascii :=
  match l with
  | [] => []
  | c :: l' => if p c then drop_while p l' else l
  end.
Fixpoint take_while (p : ascii -> bool) (l : list ascii) : list ascii :=
  match l with
  | [] => []
  | c :: l' => if p c then c :: take_while p l' else []
  end.
Definition rdrop_while (p : ascii -> bool) (l : list ascii) : list ascii :=
  rev (drop_while p (rev l)).

Definition strip (s : string) : string :=
  on_chars (fun l => rdrop_while is_space (drop_while is_space l)) s.
Definition rstrip (s : string) : string := on_chars (rdrop_while is_space) s.
Definition strip_chars (cs s : string) : string :=
  let p c := bool_decide (c ∈ chars cs) in
  on_chars (fun l => rdrop_while p (drop_while p l)) s.

Definition startswith (s pre : string) : bool := String.prefix pre s.
Definition endswith (s suf : string) : bool :=
  String.prefix (of_chars (rev (chars suf))) (of_chars (rev (chars s))).

(** [needle in hay] *)
Fixpoint contains (needle hay : string) : bool :=
  String.prefix needle hay ||
  match hay with
  | EmptyString => false
  | String _ h => contains needle h
  end.

(** [s[n:]] and [s[:n]] for [n >= 0]. *)
Fixpoint drop_str (n : nat) (s : string) : string :=
  match n, s with
  | O, _ => s
  | S n', String _ s' => drop_str n' s'
  | S _, EmptyString => EmptyString
  end.
Fixpoint take_str (n : nat) (s : string) : string :=
  match n, s with
  | S n', String c s' => String c (take_str n' s')
  | _, _ => EmptyString
  end.

(** [sep.join(parts)] *)
Fixpoint join (sep : string) (parts : list string) : string :=
  match parts with
  | [] => ""
  | [p] => p
  | p :: ps => p ++ sep ++ join sep ps
  end%string.

(** [s.split(sep)] for a non-empty [sep]: [skip] counts the characters of a
    matched separator still to be passed over, [acc] is the current piece. *)
Fixpoint split_go (sep : string) (skip : nat) (acc : list ascii) (s : string)
  : list string :=
  match s with
  | EmptyString => [of_chars (rev acc)]
  | String c s' =>
      match skip with
      | S k => split_go sep k acc s'
      | O => if String.prefix sep s
             then of_chars (rev acc) :: split_go sep (String.length sep - 1) [] s'
             else split_go sep O (c :: acc) s'
      end
  end.
Definition split_on (sep s : string) : list string := split_go sep O [] s.

(** [s.split()]: runs of whitespace separate the tokens. *)
Fixpoint split_ws (acc : list ascii) (s : list ascii) : list string :=
  match s with
  | [] => match acc with [] => [] | _ => [of_chars (rev acc)] end
  | c :: s' =>
      if is_space c then match acc with [] => split_ws [] s' | _ => of_chars (rev acc) :: split_ws [] s' end
      else split_ws (c :: acc) s'
  end.
Definition tokens_of (s : string) : list string := split_ws [] (chars s).

(** [s.replace(old, new)]: an empty [old] matches around every character. *)
Definition replace_all (old new s : string) : string :=
  if bool_decide (old = "") then (new ++ String.concat "" (map (fun c => String c new) (chars s)))%string
  else join new (split_on old s).

(** Slicing, [l[i:j]]: negative bounds count from the end, others are clipped. *)
Definition slice_bound (len i : Z) : nat := Z.to_nat (Z.max 0 (Z.min len (if (i <? 0)%Z then (len + i)%Z else i))).
Definition slice {A} (i : Z) (j : option Z) (l : list A) : list A :=
  let len := Z.of_nat (List.length l) in
  let hi := match j with Some j => slice_bound len j | None => List.length l end in
  skipn (slice_bound len i) (firstn hi l).
(** Subscription, [l[i]]: None is an IndexError. *)
Definition nth_item {A} (i : Z) (l : list A) : option A :=
  let len := Z.of_nat (List.length l) in
  let i := if (i <? 0)%Z then (len + i)%Z else i in
  if (i <? 0)%Z then None else nth_error l (Z.to_nat i).

(** [str(n)] for an integer. *)
Definition str_of_Z (z : Z) : string := NilZero.string_of_int (Z.to_int z).

(** Truthiness of a [str]. *)
Definition truthy (s : string) : bool := negb (bool_decide (s = "")).

Lemma int_of_str_of_Z z : NilZero.int_of_string (str_of_Z z) = Some (Z.to_int z).
Proof.
  unfold str_of_Z. rewrite NilZero.isi; [done|..];
    destruct z as [|p|p]; simpl; try congruence;
    intros E; injection E; apply DecimalPos.Unsigned.to_uint_nonnil.
Qed.

Lemma str_of_Z_inj z1 z2 : str_of_Z z1 = str_of_Z z2 -> z1 = z2.
Proof.
  intros H. pose proof (int_of_str_of_Z z1) as H1.
  rewrite H, int_of_str_of_Z in H1. injection H1 as H1.
  rewrite <- (DecimalZ.of_to z1), <- (DecimalZ.of_to z2). by rewrite H1.
Qed.

Lemma str_length_app (s t : string) :
  String.length (s ++ t) = (String.length s + String.length t)%nat.
Proof. induction s as [|c s IH]; simpl; [done|]. by rewrite IH. Qed.

(** The order [sorted] uses on strings. *)
Definition str_le (a b : string) : bool := String.leb a b.

(** ** Characters that do not occur *)
Fixpoint no_char (c : ascii) (s : string) : bool :=
  match s with
  | EmptyString => true
  | String x s' => negb (bool_decide (x = c)) && no_char c s'
  end.

Lemma no_char_app c s t : no_char c (s ++ t)%string = no_char c s && no_char c t.
Proof. induction s as [|x s IH]; simpl; [done|]. by rewrite IH, andb_assoc. Qed.

(** Two strings cut at the first [c] agree on both sides. *)
Lemma app_sep_inj c s s' t t' :
  no_char c s = true -> no_char c s' = true ->
  (s ++ String c t = s' ++ String c t')%string -> s = s' /\ t = t'.
Proof.
  revert s'. induction s as [|x s IH]; intros [|x' s']; simpl.
  - intros _ _ [= <-]. done.
  - intros _ H [= <- _]. by rewrite bool_decide_true in H.
  - intros H _ [= -> _]. by rewrite bool_decide_true in H.
  - intros [_ H]%andb_prop [_ H']%andb_prop [= <- E]. destruct (IH s' H H' E) as [-> ->]. done.
Qed.

Lemma no_char_uint c d : negb (existsb (fun x => bool_decide (x = c)) (chars "0123456789")) = true ->
  no_char c (NilEmpty.string_of_uint d) = true.
Proof.
  intros H. simpl in H. rewrite !negb_orb in H. rewrite !andb_true_iff in H.
  destruct H as (H0 & H1 & H2 & H3 & H4 & H5 & H6 & H7 & H8 & H9 & _).
  induction d; simpl; rewrite ?IHd, ?H0, ?H1, ?H2, ?H3, ?H4, ?H5, ?H6, ?H7, ?H8, ?H9; done.
Qed.
Lemma no_char_str_of_Z c z :
  negb (existsb (fun x => bool_decide (x = c)) (chars "-0123456789")) = true ->
  no_char c (str_of_Z z) = true.
Proof.
  intros H. assert (H' := H). cbn [chars existsb] in H'.
  assert (Hm : negb (bool_decide ("-"%char = c)) = true).
  { simpl in H. rewrite negb_orb in H. by apply andb_prop in H as [H _]. }
  assert (Hd : negb (existsb (fun x => bool_decide (x = c)) (chars "0123456789")) = true).
  { simpl in H. rewrite negb_orb in H. by apply andb_prop in H as [_ H]. }
  unfold str_of_Z, NilZero.string_of_int. destruct (Z.to_int z) as [d|d]; simpl.
  - unfold NilZero.string_of_uint. destruct d; try (by apply no_char_uint).
    simpl. simpl in Hd. rewrite negb_orb in Hd. by apply andb_prop in Hd as [-> _].
  - rewrite Hm. unfold NilZero.string_of_uint. destruct d; try (by apply no_char_uint).
    simpl. simpl in Hd. rewrite negb_orb in Hd. by apply andb_prop in Hd as [-> _].
Qed.

Lemma str_le_total : total_le str_le.
Proof. intros a b. unfold str_le. apply String.leb_total. Qed.

Lemma ascii_lt_trans (a b c : ascii) :
  Ascii.compare a b = Lt -> Ascii.compare b c = Lt -> Ascii.compare a c = Lt.
Proof. unfold Ascii.compare. rewrite !N.compare_lt_iff. lia. Qed.

Lemma ascii_compare_refl (a : ascii) : Ascii.compare a a = Eq.
Proof. unfold Ascii.compare. apply N.compare_refl. Qed.

Lemma str_lt_trans a b c :
  String.compare a b = Lt -> String.compare b c = Lt -> String.compare a c = Lt.
Proof.
  revert b c. induction a as [|x a IH]; intros [|y b] [|z c]; simpl; try done.
  destruct (Ascii.compare x y) eqn:E1; [| |done]; destruct (Ascii.compare y z) eqn:E2; try done.
  - apply Ascii.compare_eq_iff in E1 as ->, E2 as ->. rewrite ascii_compare_refl.
    apply IH.
  - apply Ascii.compare_eq_iff in E1 as ->. by rewrite E2.
  - apply Ascii.compare_eq_iff in E2 as ->. by rewrite E1.
  - by rewrite (ascii_lt_trans x y z E1 E2).
Qed.

Lemma str_le_trans : trans_le str_le.
Proof.
  intros a b c. unfold str_le, String.leb.
  destruct (String.compare a b) eqn:E1; [| |done]; destruct (String.compare b c) eqn:E2; try done;
    intros _ _.
  - apply String.compare_eq_iff in E1 as ->. by rewrite E2.
  - apply String.compare_eq_iff in E1 as ->. by rewrite E2.
  - apply String.compare_eq_iff in E2 as ->. by rewrite E1.
  - by rewrite (str_lt_trans a b c E1 E2).
Qed.
