(* ===== verification/PyJson.v ===== *)
(** Python's [json] module on the values the platform stores as JSON text
    columns: [dumps] (both separator styles, [sort_keys], [ensure_ascii]) and
    [loads], with the round trip between them.  Numbers are integers: the
    columns modelled here hold ids, counters, labels and flags. *)
From S2P Require Import Prelude PyStr.
From Stdlib Require Import Ascii String.
Open Scope string_scope.
Open Scope list_scope.

Inductive json :=
  | JNull
  | JBool (b : bool)
  | JInt (z : Z)
  | JStr (s : string)
  | JArr (l : list json)
  | JObj (m : list (string * json)).

Section json_induction.
Variable P : json -> Prop.
Hypothesis Hnull : P JNull.
Hypothesis Hbool : forall b, P (JBool b).
Hypothesis Hint : forall z, P (JInt z).
Hypothesis Hstr : forall s, P (JStr s).
Hypothesis Harr : forall l, Forall P l -> P (JArr l).
Hypothesis Hobj : forall m, Forall (fun kv => P kv.2) m -> P (JObj m).
Fixpoint json_ind' (v : json) : P v :=
  match v with
  | JNull => Hnull
  | JBool b => Hbool b
  | JInt z => Hint z
  | JStr s => Hstr s
  | JArr l =>
      Harr l ((fix go l : Forall P l :=
                 match l with
                 | [] => Forall_nil_2 P
                 | x :: l' => Forall_cons_2 P x l' (json_ind' x) (go l')
                 end) l)
  | JObj m =>
      Hobj m ((fix go m : Forall (fun kv => P kv.2) m :=
                 match m with
                 | [] => Forall_nil_2 _
                 | kv :: m' => Forall_cons_2 _ kv m' (json_ind' kv.2) (go m')
                 end) m)
  end.
End json_induction.

#[export] Instance json_eq_dec : EqDecision json.
Proof.
  refine (fix go (x y : json) : Decision (x = y) :=
    match x, y with
    | JNull, JNull => left eq_refl
    | JBool a, JBool b => cast_if (decide (a = b))
    | JInt a, JInt b => cast_if (decide (a = b))
    | JStr a, JStr b => cast_if (decide (a = b))
    | JArr a, JArr b => cast_if (@list_eq_dec json go a b)
    | JObj a, JObj b =>
        cast_if (@list_eq_dec _ (@prod_eq_dec string _ json go) a b)
    | _, _ => right _
    end); abstract congruence.
Defined.

(** [v.get(k)] on a decoded object ([None] when [v] is no object). *)
Definition jget (k : string) (v : json) : option json :=
  match v with JObj m => dict_get k m | _ => None end.

(** * dumps *)

Definition hex_digit (n : N) : ascii := ascii_of_N (if n <? 10 then 48 + n else 87 + n)%N.

(** [ESCAPE_ASCII]: everything outside SPACE..TILDE, the quote and the
    backslash. *)
Definition escape_char (c : ascii) : string :=
  let n := code c in
  if (n =? 34)%N then "\" ++ String c ""
  else if (n =? 92)%N then "\\"
  else if (n =? 10)%N then "\n"
  else if (n =? 13)%N then "\r"
  else if (n =? 9)%N then "\t"
  else if (n =? 12)%N then "\f"
  else if (n =? 8)%N then "\b"
  else if ((32 <=? n) && (n <=? 126))%N then String c ""
  else "\u00" ++ String (hex_digit (n / 16)) (String (hex_digit (n mod 16)) "").

Fixpoint escape (s : string) : string :=
  match s with
  | EmptyString => ""
  | String c s' => (escape_char c ++ escape s')%string
  end.

Definition dquote : ascii := ascii_of_N 34.
Definition quote (s : string) : string := String dquote (escape s ++ String dquote "")%string.

Section dumps.
(** [compact]: [separators=(",", ":")]; otherwise the default [", "], [": "]. *)
Variable compact : bool.
Definition item_sep : string := if compact then "," else ", ".
Definition key_sep : string := if compact then ":" else ": ".

Fixpoint dumps (v : json) : string :=
  match v with
  | JNull => "null"
  | JBool true => "true"
  | JBool false => "false"
  | JInt z => str_of_Z z
  | JStr s => quote s
  | JArr l => ("[" ++ join item_sep (map dumps l) ++ "]")%string
  | JObj m =>
      ("{" ++ join item_sep
                (map (fun kv => quote kv.1 ++ key_sep ++ dumps kv.2) m)
           ++ "}")%string
  end.
End dumps.

(** [sort_keys=True]: keys in code-point order, at every level. *)
Definition str_leb (a b : string) : bool :=
  match String.compare a b with Gt => false | _ => true end.
Fixpoint sort_keys (v : json) : json :=
  match v with
  | JArr l => JArr (map sort_keys l)
  | JObj m => JObj (sort_by (fun a b => str_leb a.1 b.1)
                            (map (fun kv => (kv.1, sort_keys kv.2)) m))
  | _ => v
  end.

(** * loads *)

Definition is_ws (c : ascii) : bool :=
  let n := code c in ((n =? 32) || (n =? 9) || (n =? 10) || (n =? 13))%N.
Fixpoint skip_ws (s : string) : string :=
  match s with
  | String c s' => if is_ws c then skip_ws s' else s
  | EmptyString => EmptyString
  end.

Definition unhex (c : ascii) : option N :=
  let n := code c in
  if ((48 <=? n) && (n <=? 57))%N then Some (n - 48)%N
  else if ((97 <=? n) && (n <=? 102))%N then Some (n - 87)%N
  else if ((65 <=? n) && (n <=? 70))%N then Some (n - 55)%N
  else None.

Definition unescape (c : ascii) : option ascii :=
  let n := code c in
  if ((n =? 34) || (n =? 92) || (n =? 47))%N then Some c
  else if (n =? 98)%N then Some (ascii_of_N 8)
  else if (n =? 102)%N then Some (ascii_of_N 12)
  else if (n =? 110)%N then Some (ascii_of_N 10)
  else if (n =? 114)%N then Some (ascii_of_N 13)
  else if (n =? 116)%N then Some (ascii_of_N 9)
  else None.

Definition cons_fst (c : ascii) (o : option (string * string)) : option (string * string) :=
  match o with Some (t, r) => Some (String c t, r) | None => None end.

(** The text after an opening quote: contents and what follows the closing
    one.  Escapes of code points above 255 are outside this model. *)
Fixpoint parse_str (s : string) : option (string * string) :=
  match s with
  | EmptyString => None
  | String c r =>
      if (code c =? 34)%N then Some ("", r)
      else if (code c =? 92)%N then
        match r with
        | EmptyString => None
        | String e r' =>
            if (code e =? 117)%N then
              match r' with
              | String a (String b (String x (String y r''))) =>
                  match unhex a, unhex b, unhex x, unhex y with
                  | Some 0%N, Some 0%N, Some h, Some l =>
                      cons_fst (ascii_of_N (16 * h + l)) (parse_str r'')
                  | _, _, _, _ => None
                  end
              | _ => None
              end
            else match unescape e with
                 | Some x => cons_fst x (parse_str r')
                 | None => None
                 end
        end
      else if (code c <? 32)%N then None
      else cons_fst c (parse_str r)
  end.

Definition num_char (c : ascii) : bool :=
  let n := code c in ((n =? 45) || (48 <=? n) && (n <=? 57))%N.
(** Characters that would continue a number as a float literal. *)
Definition float_char (c : ascii) : bool :=
  let n := code c in ((n =? 46) || (n =? 101) || (n =? 69))%N.
Fixpoint span_num (s : string) : string * string :=
  match s with
  | String c s' => if num_char c then let '(a, b) := span_num s' in (String c a, b)
                   else ("", s)
  | EmptyString => ("", "")
  end.
Definition parse_int (s : string) : option (json * string) :=
  let '(a, r) := span_num s in
  let stop := match r with String c _ => negb (float_char c) | EmptyString => true end in
  if stop then
    if bool_decide (a = "-0") then Some (JInt 0, r)
    else match DecimalString.NilZero.int_of_string a with
         | Some i => let z := Z.of_int i in
                     if bool_decide (str_of_Z z = a) then Some (JInt z, r) else None
         | None => None
         end
  else None.

Definition strip_prefix (p s : string) : option string :=
  if String.prefix p s then Some (drop_str (String.length p) s) else None.

Fixpoint parse_value (fuel : nat) (s : string) : option (json * string) :=
  match fuel with
  | O => None
  | S f =>
      match s with
      | EmptyString => None
      | String c r =>
          if (code c =? 34)%N then
            match parse_str r with Some (t, r') => Some (JStr t, r') | None => None end
          else if (code c =? 91)%N then
            match skip_ws r with
            | String d r' =>
                if (code d =? 93)%N then Some (JArr [], r')
                else match parse_elems f (String d r') with
                     | Some (l, r'') => Some (JArr l, r'')
                     | None => None
                     end
            | EmptyString => None
            end
          else if (code c =? 123)%N then
            match skip_ws r with
            | String d r' =>
                if (code d =? 125)%N then Some (JObj [], r')
                else match parse_members f (String d r') with
                     | Some (m, r'') => Some (JObj (dict_update [] m), r'')
                     | None => None
                     end
            | EmptyString => None
            end
          else match strip_prefix "null" s with
          | Some r' => Some (JNull, r')
          | None =>
          match strip_prefix "true" s with
          | Some r' => Some (JBool true, r')
          | None =>
          match strip_prefix "false" s with
          | Some r' => Some (JBool false, r')
          | None => parse_int s
          end end end
      end
  end
with parse_elems (fuel : nat) (s : string) : option (list json * string) :=
  match fuel with
  | O => None
  | S f =>
      match parse_value f s with
      | None => None
      | Some (v, r) =>
          match skip_ws r with
          | EmptyString => None
          | String c r' =>
              if (code c =? 93)%N then Some ([v], r')
              else if (code c =? 44)%N then
                match parse_elems f (skip_ws r') with
                | Some (l, r'') => Some (v :: l, r'')
                | None => None
                end
              else None
          end
      end
  end
with parse_members (fuel : nat) (s : string) : option (list (string * json) * string) :=
  match fuel with
  | O => None
  | S f =>
      match s with
      | EmptyString => None
      | String q r0 =>
          if negb (code q =? 34)%N then None else
          match parse_str r0 with
          | None => None
          | Some (k, r1) =>
              match skip_ws r1 with
              | EmptyString => None
              | String c r2 =>
                  if negb (code c =? 58)%N then None else
                  match parse_value f (skip_ws r2) with
                  | None => None
                  | Some (v, r) =>
                      match skip_ws r with
                      | EmptyString => None
                      | String c r' =>
                          if (code c =? 125)%N then Some ([(k, v)], r')
                          else if (code c =? 44)%N then
                            match parse_members f (skip_ws r') with
                            | Some (m, r'') => Some ((k, v) :: m, r'')
                            | None => None
                            end
                          else None
                      end
                  end
              end
          end
      end
  end.

(** [json.loads]: [None] stands for [json.JSONDecodeError] (a [ValueError]). *)
Definition loads (s : string) : option json :=
  match parse_value (2 * String.length s) (skip_ws s) with
  | Some (v, r) => match skip_ws r with EmptyString => Some v | _ => None end
  | None => None
  end.

(** * The round trip *)

Lemma parse_str_escape_char c t :
  parse_str (escape_char c ++ t)%string = cons_fst c (parse_str t).
Proof. destruct c as [[] [] [] [] [] [] [] []]; reflexivity. Qed.

Lemma str_app_assoc (a b c : string) : ((a ++ b) ++ c = a ++ (b ++ c))%string.
Proof. induction a as [|x a IH]; simpl; [done|]. by f_equal. Qed.

Lemma str_app_nil_r (a : string) : (a ++ "")%string = a.
Proof. induction a as [|x a IH]; simpl; [done|]. by rewrite IH. Qed.

Lemma parse_str_quote s t :
  parse_str (escape s ++ String dquote t)%string = Some (s, t).
Proof.
  induction s as [|c s IH]; [done|]. simpl.
  by rewrite str_app_assoc, parse_str_escape_char, IH.
Qed.

Definition digits_only (s : string) : Prop := Forall (fun c => num_char c = true) (chars s).

Lemma uint_num_chars d : digits_only (DecimalString.NilEmpty.string_of_uint d).
Proof. unfold digits_only. induction d; simpl; constructor; auto. Qed.
Lemma str_of_Z_num_chars z : digits_only (str_of_Z z).
Proof.
  unfold str_of_Z, DecimalString.NilZero.string_of_int, DecimalString.NilZero.string_of_uint.
  destruct (Z.to_int z) as [d|d]; unfold digits_only; simpl.
  - destruct d; apply (uint_num_chars _) || (repeat constructor).
  - constructor; [done|]. destruct d; apply (uint_num_chars _) || (repeat constructor).
Qed.

(** What may follow a number. *)
Definition num_stop (r : string) : Prop :=
  match r with String c _ => num_char c = false /\ float_char c = false | EmptyString => True end.

Lemma span_num_app a r :
  digits_only a -> num_stop r -> span_num (a ++ r)%string = (a, r).
Proof.
  unfold digits_only. intros Ha Hr. induction a as [|c a IH]; simpl in *.
  - destruct r as [|c r]; [done|]. simpl. destruct Hr as [-> _]. done.
  - inversion Ha as [|?? Hc Ha']; subst. rewrite Hc, IH by done. done.
Qed.

Lemma str_of_Z_not_neg0 z : str_of_Z z <> "-0".
Proof.
  intros H. pose proof (int_of_str_of_Z z) as Hz. rewrite H in Hz.
  apply (f_equal (option_map Z.of_int)) in Hz. simpl in Hz.
  rewrite DecimalZ.of_to in Hz. injection Hz as <-. discriminate H.
Qed.

Lemma parse_int_str_of_Z z r :
  num_stop r -> parse_int (str_of_Z z ++ r)%string = Some (JInt z, r).
Proof.
  intros Hr. unfold parse_int. rewrite (span_num_app _ _ (str_of_Z_num_chars z) Hr).
  rewrite int_of_str_of_Z, DecimalZ.of_to.
  rewrite bool_decide_false by apply str_of_Z_not_neg0. rewrite bool_decide_true by done.
  destruct r as [|c r]; [done|]. destruct Hr as [_ ->]. done.
Qed.

Lemma num_char_first z : exists c t, str_of_Z z = String c t /\ num_char c = true.
Proof.
  pose proof (str_of_Z_num_chars z) as H. destruct (str_of_Z z) as [|c t] eqn:E.
  - pose proof (int_of_str_of_Z z) as Hz. by rewrite E in Hz.
  - exists c, t. unfold digits_only in H. simpl in H. by inversion H.
Qed.

(** Keys of every object are distinct (a Python dict). *)
Inductive wf_json : json -> Prop :=
  | wf_null : wf_json JNull
  | wf_bool b : wf_json (JBool b)
  | wf_int z : wf_json (JInt z)
  | wf_str s : wf_json (JStr s)
  | wf_arr l : Forall wf_json l -> wf_json (JArr l)
  | wf_obj m : NoDup (dict_keys m) -> Forall (fun kv => wf_json kv.2) m -> wf_json (JObj m).
#[export] Hint Constructors wf_json : pyjson.

Fixpoint need (v : json) : nat :=
  match v with
  | JArr l => S (list_sum (map (fun x => S (need x)) l))
  | JObj m => S (list_sum (map (fun kv => S (need kv.2)) m))
  | _ => 1
  end.

(** A value's text never starts with a blank, and is never empty. *)
Definition solid (s : string) : Prop :=
  match s with String c _ => is_ws c = false | EmptyString => False end.

Lemma solid_dumps b v : solid (dumps b v).
Proof.
  destruct v as [|[]|z|s|l|m]; try done. simpl.
  destruct (num_char_first z) as (c & t & -> & Hc). simpl.
  unfold num_char, is_ws in *. destruct c as [[] [] [] [] [] [] [] []]; done.
Qed.

Lemma skip_ws_solid s r : solid s -> skip_ws (s ++ r)%string = (s ++ r)%string.
Proof. destruct s as [|c s]; simpl; [done|]. by intros ->. Qed.

Lemma skip_ws_item_sep b t : skip_ws (item_sep b ++ t)%string = String "," (if b then t else String " " t).
Proof. by destruct b. Qed.
Lemma skip_ws_key_sep b t : skip_ws (key_sep b ++ t)%string = String ":" (if b then t else String " " t).
Proof. by destruct b. Qed.
Lemma skip_ws_after b t : skip_ws (if b : bool then t else String " " t) = skip_ws t.
Proof. by destruct b. Qed.

Lemma num_stop_item_sep b t : num_stop (item_sep b ++ t)%string.
Proof. by destruct b. Qed.

Lemma join_cons sep p q ps : join sep (p :: q :: ps) = (p ++ sep ++ join sep (q :: ps))%string.
Proof. done. Qed.

Section roundtrip.
Variable b : bool.
Notation D := (dumps b).
Notation P v := (forall fuel r, (need v <= fuel)%nat -> num_stop r ->
                                parse_value fuel (D v ++ r)%string = Some (v, r)).

Lemma parse_elems_dumps l :
  Forall (fun v => P v) l -> l <> [] ->
  forall fuel r, (list_sum (map (fun x => S (need x)) l) <= fuel)%nat ->
  parse_elems fuel (join (item_sep b) (map D l) ++ String "]" r)%string = Some (l, r).
Proof.
  induction 1 as [|v l Hv Hl IH]; [done|]. intros _ fuel r Hf.
  simpl in Hf. destruct fuel as [|f]; [lia|]. cbn [parse_elems].
  destruct l as [|w l].
  - cbn [map join]. rewrite Hv; [done|simpl in Hf; lia|done].
  - cbn [map]. rewrite join_cons, !str_app_assoc.
    rewrite Hv; [|lia|apply num_stop_item_sep].
    rewrite skip_ws_item_sep. cbn -[skip_ws parse_elems join].
    rewrite skip_ws_after, skip_ws_solid.
    + change (D w :: map D l) with (map D (w :: l)). rewrite IH; [done|done|simpl in *; lia].
    + pose proof (solid_dumps b w) as Hs.
      destruct l; simpl; [done|]. destruct (D w); done.
Qed.

Lemma quote_app k t : (quote k ++ t)%string = String dquote (escape k ++ String dquote t)%string.
Proof. unfold quote. simpl. by rewrite str_app_assoc. Qed.

Lemma parse_members_step f k v t :
  num_stop t -> P v -> (need v <= f)%nat ->
  parse_members (S f) ((quote k ++ key_sep b ++ D v) ++ t)%string =
  match skip_ws t with
  | EmptyString => None
  | String c r' =>
      if (code c =? 125)%N then Some ([(k, v)], r')
      else if (code c =? 44)%N then
        match parse_members f (skip_ws r') with
        | Some (m, r'') => Some ((k, v) :: m, r'')
        | None => None
        end
      else None
  end.
Proof.
  intros Ht Hv Hf. rewrite !str_app_assoc, quote_app. cbn [parse_members].
  change (negb (code dquote =? 34)%N) with false. cbn iota.
  rewrite parse_str_quote, skip_ws_key_sep. change (negb (code ":" =? 58)%N) with false.
  cbn iota. rewrite skip_ws_after, skip_ws_solid by apply solid_dumps.
  by rewrite Hv by (lia || done).
Qed.

Lemma parse_members_dumps m :
  Forall (fun kv => P kv.2) m -> m <> [] ->
  forall fuel r, (list_sum (map (fun kv => S (need kv.2)) m) <= fuel)%nat ->
  parse_members fuel
    (join (item_sep b) (map (fun kv => quote kv.1 ++ key_sep b ++ D kv.2) m)
     ++ String "}" r)%string = Some (m, r).
Proof.
  induction 1 as [|[k v] m Hv Hm IH]; [done|]. intros _ fuel r Hf.
  simpl in Hf, Hv. destruct fuel as [|f]; [lia|].
  destruct m as [|[k' w] m].
  - cbn [map join fst snd]. rewrite parse_members_step; [done|done|done|simpl in Hf; lia].
  - cbn [map]. rewrite join_cons, str_app_assoc. cbn [fst snd].
    rewrite parse_members_step; [|by destruct b|done|lia].
    rewrite str_app_assoc, skip_ws_item_sep.
    change (code "," =? 125)%N with false. change (code "," =? 44)%N with true. cbn iota.
    rewrite skip_ws_after, skip_ws_solid; [|by destruct m].
    change ((quote k' ++ key_sep b ++ D w)%string ::
            map (fun kv => (quote kv.1 ++ key_sep b ++ D kv.2)%string) m)
      with (map (fun kv => (quote kv.1 ++ key_sep b ++ D kv.2)%string) ((k', w) :: m)).
    rewrite IH; [done|done|simpl in *; lia].
Qed.

Lemma parse_value_obj f t r :
  parse_value (S f) (String "{" (String dquote t ++ r))%string =
  match parse_members f (String dquote (t ++ r))%string with
  | Some (m, r'') => Some (JObj (dict_update [] m), r'')
  | None => None
  end.
Proof. reflexivity. Qed.

Lemma parse_value_dumps v : wf_json v -> P v.
Proof.
  induction v as [|[]|z|s|l IH|m IH] using json_ind'; intros Hwf fuel r Hf Hr;
    (destruct fuel as [|f]; [simpl in Hf; lia|]); try (by destruct r).
  - cbn [dumps]. destruct (num_char_first z) as (c & t & E & Hc).
    transitivity (parse_int (str_of_Z z ++ r)%string); [|by apply parse_int_str_of_Z].
    rewrite E. cbn -[parse_int String.prefix].
    unfold num_char in Hc. destruct c as [[] [] [] [] [] [] [] []]; try discriminate Hc; reflexivity.
  - cbn -[parse_str]. unfold quote. rewrite str_app_assoc. cbn -[parse_str].
    by rewrite parse_str_quote.
  - inversion Hwf as [| | | |l' Hl|]; subst. cbn [dumps]. rewrite !str_app_assoc.
    cbn -[skip_ws parse_elems join]. destruct l as [|v l]; [done|].
    rewrite skip_ws_solid.
    + pose proof (solid_dumps b v) as Hs.
      assert (HF : Forall (fun v => P v) (v :: l)).
      { rewrite Forall_forall in *. intros x Hx. apply IH; auto. }
      assert (Hsum : (list_sum (map (fun x => S (need x)) (v :: l)) <= f)%nat)
        by (simpl in *; lia).
      pose proof (parse_elems_dumps _ HF ltac:(done) f r Hsum) as HE.
      destruct (join (item_sep b) (map D (v :: l))) as [|c t] eqn:Ej.
      { simpl in Ej. destruct l; simpl in Ej; destruct (D v); done. }
      assert (Hc : (code c =? 93)%N = false).
      { assert (exists t', D v = String c t') as [t' Et].
        { simpl in Ej. destruct l; simpl in Ej; (destruct (D v); [done|]); simplify_eq/=; eauto. }
        destruct v as [|[]|z|s|l'|m]; simpl in Et; try (injection Et as <- _; done).
        destruct (num_char_first z) as (c' & t'' & E & Hc).
        assert (c' = c) as -> by congruence. unfold num_char in Hc.
        destruct c as [[] [] [] [] [] [] [] []]; try discriminate Hc; reflexivity. }
      cbn -[parse_elems]. rewrite Hc. cbn -[parse_elems] in HE. by rewrite HE.
    + pose proof (solid_dumps b v) as Hs. destruct l; simpl; [done|]. destruct (D v); done.
  - inversion Hwf as [| | | | |m' Hnd Hm]; subst. cbn [dumps]. rewrite !str_app_assoc.
    destruct m as [|[k v] m]; [done|].
    assert (HF : Forall (fun kv => P kv.2) ((k, v) :: m)).
    { rewrite Forall_forall in *. intros x Hx. apply IH; auto. }
    assert (Hsum : (list_sum (map (fun kv => S (need kv.2)) ((k, v) :: m)) <= f)%nat)
      by (simpl in *; lia).
    pose proof (parse_members_dumps _ HF ltac:(done) f r Hsum) as HE.
    destruct (join (item_sep b) _) as [|c t] eqn:Ej.
    { destruct m; discriminate Ej. }
    assert (c = dquote) as -> by (destruct m; by injection Ej as <- _).
    change (String dquote t ++ String "}" r)%string
      with (String dquote (t ++ String "}" r))%string in HE.
    transitivity (match parse_members f (String dquote (t ++ String "}" r))%string with
                  | Some (m, r'') => Some (JObj (dict_update [] m), r'')
                  | None => None
                  end); [exact (parse_value_obj f t (String "}" r))|]. rewrite HE.
    by rewrite (dict_update_fresh ((k, v) :: m) []).
Qed.

Lemma need_bound v : (1 <= String.length (D v) /\ need v + 1 <= 2 * String.length (D v))%nat.
Proof.
  assert (Hlen : forall a c, String.length (a ++ c)%string = (String.length a + String.length c)%nat).
  { induction a; simpl; intros; [done|]. by rewrite IHa. }
  induction v as [|[]|z|s|l IH|m IH] using json_ind'; try (simpl; lia).
  - destruct (num_char_first z) as (c & t & E & _). simpl. rewrite E. simpl. lia.
  - simpl. rewrite Hlen. simpl.
    enough (list_sum (map (fun x => S (need x)) l) <= 2 * String.length (join (item_sep b) (map D l)))%nat
      by lia.
    clear -IH Hlen. induction IH as [|v l Hv Hl IH]; simpl; [lia|].
    destruct l; simpl in *; rewrite ?Hlen; simpl in *; lia.
  - cbn [dumps need]. rewrite !Hlen. change (String.length "{") with 1%nat.
    change (String.length "}") with 1%nat.
    enough (list_sum (map (fun kv => S (need kv.2)) m) <=
      2 * String.length (join (item_sep b) (map (fun kv => (quote kv.1 ++ key_sep b ++ D kv.2)%string) m)))%nat by lia.
    clear -IH Hlen. induction IH as [|[k v] m Hv Hm IH]; simpl; [lia|].
    destruct m; simpl in *; rewrite ?Hlen; simpl in *; rewrite ?Hlen; lia.
Qed.

(** [json.loads(json.dumps(v)) == v]. *)
Theorem loads_dumps v : wf_json v -> loads (D v) = Some v.
Proof.
  intros Hwf. unfold loads.
  assert (Hskip : skip_ws (D v) = D v).
  { pose proof (solid_dumps b v) as Hs. destruct (D v); simpl in *; [done|]. by rewrite Hs. }
  assert (Happ : (D v ++ "")%string = D v).
  { by apply str_app_nil_r. }
  rewrite Hskip. rewrite <- Happ at 2.
  rewrite parse_value_dumps; [done|done| |done].
  pose proof (need_bound v). lia.
Qed.
End roundtrip.

(** ** Sorting the keys of a value keeps it the same mapping *)

Lemma dict_keys_perm {V} (d d' : list (string * V)) : d ≡ₚ d' -> dict_keys d ≡ₚ dict_keys d'.
Proof. apply Permutation_map. Qed.

Lemma wf_sort_keys v : wf_json v -> wf_json (sort_keys v).
Proof.
  induction v as [|b|z|s|l IH|m IH] using json_ind'; intros H; try done; inversion H; subst; simpl.
  - constructor. rewrite Forall_forall in *. intros x Hx%list_elem_of_In.
    apply in_map_iff in Hx as (y & <- & Hy%list_elem_of_In). auto.
  - constructor.
    + rewrite (dict_keys_perm _ _ (sort_by_perm _ _)). unfold dict_keys in *. by rewrite map_map.
    + rewrite Forall_forall in *. intros kv Hkv%list_elem_of_In.
      apply sort_by_in, in_map_iff in Hkv as (y & <- & Hy%list_elem_of_In). simpl. auto.
Qed.

Lemma dict_get_elem {V} (d : list (string * V)) k v :
  NoDup (dict_keys d) -> (k, v) ∈ d -> dict_get k d = Some v.
Proof.
  unfold dict_keys. induction d as [|[k' v'] d IH]; simpl; [by intros _ H%elem_of_nil|].
  intros [Hk Hnd]%NoDup_cons [[= -> ->]|Hin]%elem_of_cons; [by rewrite decide_True|].
  rewrite decide_False; [auto|]. intros ->. apply Hk. apply list_elem_of_In.
  apply list_elem_of_In in Hin. by apply (in_map fst _ (k', v)).
Qed.
Lemma dict_get_perm {V} (d d' : list (string * V)) k :
  NoDup (dict_keys d) -> d ≡ₚ d' -> dict_get k d = dict_get k d'.
Proof.
  intros Hnd Hp. destruct (dict_get k d) as [v|] eqn:E.
  - symmetry. apply dict_get_elem; [by rewrite <- (dict_keys_perm _ _ Hp)|].
    rewrite <- Hp. by apply dict_get_Some_elem.
  - symmetry. apply dict_get_None. rewrite <- (dict_keys_perm _ _ Hp). by apply dict_get_None.
Qed.
Lemma dict_get_map {V V'} (f : V -> V') (d : list (string * V)) k :
  dict_get k (map (fun kv => (kv.1, f kv.2)) d) = option_map f (dict_get k d).
Proof. induction d as [|[k' v] d IH]; simpl; [done|]. by case_decide. Qed.

Lemma jget_sort_keys k v : wf_json v -> jget k (sort_keys v) = option_map sort_keys (jget k v).
Proof.
  intros Hv. destruct Hv as [| | | | |m Hnd _]; try done. simpl.
  rewrite <- dict_get_map. symmetry. apply dict_get_perm; [|symmetry; apply sort_by_perm].
  unfold dict_keys in *. by rewrite map_map.
Qed.
