(* ===== verification/PyStrFacts.v ===== *)
(** * Lemmas on texts

    Texts and their character lists, trimming, splitting and joining; properties
    of single characters are decided by going through the 256 of them. *)
From S2P Require Import Prelude PyStr PyJson.
From Stdlib Require Import Ascii String.

Local Open Scope string_scope.
Local Open Scope list_scope.

Lemma all_chars (P : ascii -> Prop) `{forall c, Decision (P c)} :
  forallb (fun n => bool_decide (P (ascii_of_N (N.of_nat n)))) (seq 0 256) = true -> forall c, P c.
Proof.
  intros Hall c. rewrite forallb_forall in Hall. rewrite <- (ascii_N_embedding c).
  rewrite <- (N2Nat.id (N_of_ascii c)). eapply bool_decide_eq_true, Hall.
  apply in_seq. pose proof (N_ascii_bounded c). lia.
Qed.
Lemma chars_of_chars l : chars (of_chars l) = l.
Proof. apply list_ascii_of_string_of_list_ascii. Qed.
Lemma of_chars_chars s : of_chars (chars s) = s.
Proof. apply string_of_list_ascii_of_string. Qed.
Lemma chars_on f s : chars (on_chars f s) = f (chars s).
Proof. apply chars_of_chars. Qed.
Lemma drop_while_suffix p l : exists a, l = (a ++ drop_while p l)%list.
Proof.
  induction l as [|c l [a IH]]; [by exists []|]. simpl. destruct (p c); [|by exists []].
  exists (c :: a). simpl. by rewrite <- IH.
Qed.
Lemma drop_while_head p l c r : drop_while p l = c :: r -> p c = false.
Proof. induction l as [|x l IH]; simpl; [done|]. destruct (p x) eqn:E; [done|]. by intros [= <- _]. Qed.
Lemma rdrop_while_prefix p l : exists a, l = (rdrop_while p l ++ a)%list.
Proof.
  destruct (drop_while_suffix p (rev l)) as [a E]. exists (rev a). unfold rdrop_while.
  by rewrite <- rev_app_distr, <- E, rev_involutive.
Qed.
Lemma rdrop_while_last p l c r : rdrop_while p l = (r ++ [c])%list -> p c = false.
Proof.
  unfold rdrop_while. intros E. apply (f_equal (@rev ascii)) in E. rewrite rev_involutive, rev_app_distr in E.
  simpl in E. by apply drop_while_head in E.
Qed.
Lemma drop_while_none p l : (forall c r, l = c :: r -> p c = false) -> drop_while p l = l.
Proof. destruct l as [|c l]; [done|]. intros H. simpl. by rewrite (H c l). Qed.
Lemma rdrop_while_none p l : (forall c r, l = (r ++ [c])%list -> p c = false) -> rdrop_while p l = l.
Proof.
  intros H. unfold rdrop_while. rewrite drop_while_none; [by rewrite rev_involutive|].
  intros c r E. apply (H c (rev r)). by rewrite <- (rev_involutive l), E.
Qed.
Lemma prefix_app s t : String.prefix s (s ++ t) = true.
Proof. induction s as [|c s IH]; cbn; [by destruct t|]. by destruct (ascii_dec c c). Qed.
Lemma prefix_drop s t : String.prefix s t = true -> t = (s ++ drop_str (String.length s) t)%string.
Proof.
  revert t. induction s as [|c s IH]; intros t H; [by destruct t|]. destruct t as [|c' t]; [done|].
  cbn in H. destruct (ascii_dec c c') as [<-|]; [|done]. cbn. by rewrite <- IH.
Qed.
Lemma join_cons_ne sep x l : l <> [] -> join sep (x :: l) = (x ++ sep ++ join sep l)%string.
Proof. by destruct l. Qed.
Lemma split_go_ne sep k acc s : split_go sep k acc s <> [].
Proof.
  revert k acc. induction s as [|c s IH]; intros k acc; cbn [split_go]; [done|]. destruct k; [|apply IH].
  destruct (String.prefix sep (String c s)); [done|apply IH].
Qed.
Lemma of_chars_app l l' : of_chars (l ++ l') = (of_chars l ++ of_chars l')%string.
Proof. induction l as [|c l IH]; cbn; [done|]. by rewrite IH. Qed.
(** Joining the pieces of a split gives the text back. *)
Lemma join_split_go sep s : sep <> "" -> forall k acc, join sep (split_go sep k acc s) = (of_chars (rev acc) ++ drop_str k s)%string.
Proof.
  intros Hsep. induction s as [|c s IH]; intros k acc; cbn [split_go].
  - cbn. destruct k; cbn; by rewrite str_app_nil_r.
  - destruct k as [|k]; [|apply IH]. destruct (String.prefix sep (String c s)) eqn:E.
    + rewrite join_cons_ne, IH by apply split_go_ne. f_equal.
      apply prefix_drop in E. change (drop_str 0 (String c s)) with (String c s). rewrite E. f_equal.
      destruct sep as [|c' sep]; [done|]. cbn. by rewrite Nat.sub_0_r.
    + rewrite IH. cbn [rev]. by rewrite of_chars_app, str_app_assoc.
Qed.
Lemma join_split sep s : sep <> "" -> join sep (split_on sep s) = s.
Proof. intros H. unfold split_on. by rewrite join_split_go. Qed.
Lemma rdrop_last p l c : p c = false -> rdrop_while p (l ++ [c]) = l ++ [c].
Proof. intros H. unfold rdrop_while. rewrite rev_app_distr. cbn. rewrite H. cbn. by rewrite rev_involutive. Qed.
(** A text whose first and last characters are no spaces. *)
Lemma strip_solid c l c' : is_space c = false -> is_space c' = false -> strip (of_chars (c :: l ++ [c'])) = of_chars (c :: l ++ [c']).
Proof.
  intros H H'. unfold strip, on_chars. rewrite chars_of_chars. cbn [drop_while]. rewrite H.
  change (c :: l ++ [c']) with ((c :: l) ++ [c']). by rewrite rdrop_last.
Qed.
Lemma drop_while_all p l : match l with c :: _ => p c = false | [] => True end -> drop_while p l = l.
Proof. destruct l as [|c l]; [done|]. by cbn; intros ->. Qed.
Lemma strip_id s : Forall (fun c => is_space c = false) (chars s) -> strip s = s.
Proof.
  intros H. unfold strip, on_chars, rdrop_while. rewrite <- (of_chars_chars s) at 2. f_equal.
  rewrite (drop_while_all is_space (chars s)) by (destruct H; done).
  rewrite drop_while_all; [by rewrite rev_involutive|].
  apply Forall_rev in H. by destruct H.
Qed.
Lemma filter_length_le {A} (p : A -> bool) l : (List.length (List.filter p l) <= List.length l)%nat.
Proof. induction l as [|x l IH]; cbn; [done|]. destruct (p x); cbn; lia. Qed.
Lemma chars_length s : List.length (chars s) = String.length s.
Proof. induction s as [|c s IH]; cbn; [done|]. by rewrite IH. Qed.
Lemma chars_app s t : chars (s ++ t) = chars s ++ chars t.
Proof. induction s as [|c s IH]; cbn; [done|]. by rewrite IH. Qed.
Lemma drop_while_nil p l : drop_while p l = [] -> Forall (fun c => p c = true) l.
Proof. induction l as [|c l IH]; cbn; [done|]. destruct (p c) eqn:E; [|done]. intros H. constructor; auto. Qed.
(** A text with a character that is no space is truthy once stripped. *)
Lemma strip_truthy s c : In c (chars s) -> is_space c = false -> truthy (strip s) = true.
Proof.
  intros Hc Hs. unfold truthy. rewrite bool_decide_false; [done|]. unfold strip, on_chars, rdrop_while. intros E.
  apply (f_equal chars) in E. rewrite chars_of_chars in E. apply (f_equal (@rev ascii)) in E. rewrite rev_involutive in E.
  apply drop_while_nil, Forall_rev in E. rewrite rev_involutive in E.
  destruct (drop_while is_space (chars s)) as [|x r] eqn:Ed.
  - apply drop_while_nil in Ed. rewrite Forall_forall in Ed. rewrite Ed in Hs; [done|]. by apply list_elem_of_In.
  - apply drop_while_head in Ed. inversion E; congruence.
Qed.
Lemma drop_while_idem p l : drop_while p (drop_while p l) = drop_while p l.
Proof. apply drop_while_all. destruct (drop_while p l) eqn:E; [done|]. by eapply drop_while_head. Qed.
Lemma rdrop_while_idem p l : rdrop_while p (rdrop_while p l) = rdrop_while p l.
Proof. unfold rdrop_while. by rewrite rev_involutive, drop_while_idem. Qed.
Lemma trim_both_idem p l :
  let t l := rdrop_while p (drop_while p l) in t (t l) = t l.
Proof.
  intros t. unfold t. rewrite (drop_while_all p (rdrop_while p _)); [apply rdrop_while_idem|].
  unfold rdrop_while. destruct (drop_while_suffix p (rev (drop_while p l))) as [a Ha].
  apply (f_equal (@rev ascii)) in Ha. rewrite rev_involutive, rev_app_distr in Ha.
  destruct (rev (drop_while p (rev (drop_while p l)))) as [|c r] eqn:E; [done|].
  by apply (drop_while_head p l c (r ++ rev a)).
Qed.
Lemma upper_idem c : upper_char (upper_char c) = upper_char c.
Proof. revert c. apply (all_chars (fun c => upper_char (upper_char c) = upper_char c)). vm_compute. reflexivity. Qed.
Lemma lower_idem c : lower_char (lower_char c) = lower_char c.
Proof. revert c. apply (all_chars (fun c => lower_char (lower_char c) = lower_char c)). vm_compute. reflexivity. Qed.
Lemma filter_idem {A} (p : A -> bool) l : List.filter p (List.filter p l) = List.filter p l.
Proof. induction l as [|x l IH]; cbn; [done|]. destruct (p x) eqn:E; cbn; rewrite ?E, IH; done. Qed.
Lemma on_chars_idem f s : f (f (chars s)) = f (chars s) -> on_chars f (on_chars f s) = on_chars f s.
Proof. intros H. unfold on_chars at 1 3. by rewrite chars_on, H. Qed.
Lemma no_char_chars c s : no_char c s = true -> Forall (fun x => x <> c) (chars s).
Proof.
  induction s as [|x s IH]; cbn [no_char chars]; [constructor|]. intros [H1 H2]%andb_prop. constructor; [|auto].
  intros ->. by rewrite bool_decide_eq_true_2 in H1.
Qed.
Lemma lower_is_space c : is_space (lower_char c) = is_space c.
Proof. revert c. apply (all_chars (fun c => is_space (lower_char c) = is_space c)). vm_compute. reflexivity. Qed.
Lemma drop_while_map p (f : ascii -> ascii) l : (forall c, p (f c) = p c) -> drop_while p (map f l) = map f (drop_while p l).
Proof. intros H. induction l as [|c l IH]; cbn; [done|]. rewrite H. by destruct (p c). Qed.
(** Splitting what was joined, for pieces without the separator. *)
Lemma split_go_piece (c : ascii) p acc rest : no_char c p = true ->
  split_go (String c "") 0 acc (p ++ rest)%string = split_go (String c "") 0 (rev (chars p) ++ acc) rest.
Proof.
  revert acc. induction p as [|x p IH]; intros acc H; [done|]. cbn [no_char] in H. apply andb_prop in H as [Hx Hp].
  cbn [append split_go String.prefix chars rev]. apply negb_true_iff, bool_decide_eq_false in Hx.
  destruct (ascii_dec c x) as [->|_]; [done|]. rewrite IH by done. by rewrite <- (assoc_L (++)).
Qed.
Lemma split_join (c : ascii) parts : parts <> [] -> Forall (fun p => no_char c p = true) parts -> split_on (String c "") (join (String c "") parts) = parts.
Proof.
  intros Hne H. unfold split_on. induction H as [|p ps Hp Hps IH]; [done|]. destruct ps as [|q ps].
  - cbn [join]. assert (E : forall s, (s ++ "")%string = s) by (induction s as [|x s IHs]; cbn; [done|by rewrite IHs]).
    rewrite <- (E p) at 1. rewrite (split_go_piece _ _ _ _ Hp). cbn [split_go]. by rewrite app_nil_r, rev_involutive, of_chars_chars.
  - change (join (String c "") (p :: q :: ps)) with (p ++ (String c "" ++ join (String c "") (q :: ps)))%string.
    rewrite (split_go_piece _ _ _ _ Hp). cbn [append split_go String.prefix String.length]. destruct (ascii_dec c c) as [_|]; [|done].
    assert (Hpre : forall s, String.prefix "" s = true) by (by intros []). rewrite Hpre, app_nil_r, rev_involutive, of_chars_chars. f_equal. by apply IH.
Qed.
