(* ===== verification/PyValue.v ===== *)
(** Dynamic operations of Python on decoded JSON values: [str], [repr], truth,
    [get], iteration, equality and order, with the exceptions of the wrong
    types. *)
From S2P Require Import Prelude PyStr PyJson.
From Stdlib Require Import Ascii.
Open Scope string_scope.
Open Scope list_scope.
Local Open Scope py_scope.

(** * str() and repr() of decoded values *)

Definition squote : ascii := ascii_of_N 39.
Definition repr_char (q c : ascii) : string :=
  let n := code c in
  if bool_decide (c = q) || (n =? 92)%N then String (ascii_of_N 92) (String c "")
  else if (n =? 10)%N then "\n" else if (n =? 13)%N then "\r" else if (n =? 9)%N then "\t"
  else if ((n <? 32) || (126 <? n) && (n <? 161) || (n =? 173))%N
       then ("\x" ++ String (hex_digit (n / 16)) (String (hex_digit (n mod 16)) ""))%string
  else String c "".
Definition repr_str (s : string) : string :=
  let q := if bool_decide (squote ∈ chars s) && negb (bool_decide (dquote ∈ chars s)) then dquote else squote in
  String q (foldr (fun c acc => repr_char q c ++ acc)%string (String q "") (chars s)).
Fixpoint py_repr (v : json) : string :=
  match v with
  | JNull => "None"
  | JBool b => if b then "True" else "False"
  | JInt z => str_of_Z z
  | JStr s => repr_str s
  | JArr l => ("[" ++ join ", " (map py_repr l) ++ "]")%string
  | JObj m => ("{" ++ join ", " (map (fun kv => repr_str kv.1 ++ ": " ++ py_repr kv.2) m) ++ "}")%string
  end.
Definition py_str (v : json) : string := match v with JStr s => s | _ => py_repr v end.

Definition py_true (v : json) : bool :=
  match v with
  | JNull => false | JBool b => b | JInt z => negb (z =? 0)%Z | JStr s => truthy s
  | JArr l => negb (bool_decide (length l = 0%nat)) | JObj m => negb (bool_decide (length m = 0%nat))
  end.
Definition type_name (v : json) : string :=
  match v with
  | JNull => "NoneType" | JBool _ => "bool" | JInt _ => "int" | JStr _ => "str" | JArr _ => "list" | JObj _ => "dict"
  end.
Definition no_attr (v : json) (a : string) : exn :=
  Exn "AttributeError" ("'" ++ type_name v ++ "' object has no attribute '" ++ a ++ "'").

(** [v.get(k, default)] *)
Definition get_or (k : string) (default : json) (v : json) : res json :=
  match v with
  | JObj m => Ok (match dict_get k m with Some w => w | None => default end)
  | _ => Raise (no_attr v "get")
  end.
(** [for x in v] *)
Definition iterate (v : json) : res (list json) :=
  match v with
  | JArr l => Ok l
  | JObj m => Ok (map (fun k => JStr k) (dict_keys m))
  | JStr s => Ok (map (fun c => JStr (String c "")) (chars s))
  | _ => Raise (Exn "TypeError" ("'" ++ type_name v ++ "' object is not iterable"))
  end.
(** A string method of a value. *)
Definition as_str (method : string) (v : json) : res string :=
  match v with JStr s => Ok s | _ => Raise (no_attr v method) end.

(** * Equality and order *)

(** Python equality of decoded values: booleans are integers, the order of a
    dict's keys does not count. *)
Fixpoint py_norm (v : json) : json :=
  match v with
  | JBool b => JInt (if b then 1 else 0)
  | JArr l => JArr (map py_norm l)
  | JObj m => JObj (sort_by (fun a b => str_leb a.1 b.1) (map (fun kv => (kv.1, py_norm kv.2)) m))
  | _ => v
  end.
Definition py_eq (a b : json) : bool := bool_decide (py_norm a = py_norm b).

Definition cannot_compare (a b : json) : exn :=
  Exn "TypeError" ("'>' not supported between instances of '" ++ type_name a ++ "' and '" ++ type_name b ++ "'").
Definition as_int (v : json) : option Z :=
  match v with JInt z => Some z | JBool b => Some (if b then 1 else 0)%Z | _ => None end.
(** [a > b]; lists compare at the first difference. *)
Fixpoint py_gt (a b : json) {struct a} : res bool :=
  match a, b with
  | JStr s, JStr t => Ok (negb (str_le s t))
  | JArr l, JArr m =>
      (fix go l m :=
         match l, m with
         | [], _ => Ok false
         | _ :: _, [] => Ok true
         | x :: l', y :: m' => if py_eq x y then go l' m' else py_gt x y
         end) l m
  | _, _ => match as_int a, as_int b with
            | Some x, Some y => Ok (y <? x)%Z
            | _, _ => Raise (cannot_compare a b)
            end
  end.

(** * Values of Python's json module

    A decoded value has distinct keys, and so has what is built from it: the
    laws that clients ask of the JSON functions of attributes hold of [loads]
    and [dumps]. *)
Local Open Scope string_scope.
Local Open Scope list_scope.
Local Open Scope Z_scope.
Local Open Scope py_scope.
Lemma wf_dict_set k v m : wf_json v -> wf_json (JObj m) -> wf_json (JObj (dict_set k v m)).
Proof.
  intros Hv Hm. inversion Hm as [| | | | |m' Hnd Hall]; subst. constructor.
  - rewrite dict_keys_set. case_decide as Hk; [done|]. apply NoDup_app. split; [done|]. split; [|by apply NoDup_singleton].
    intros x Hx ->%list_elem_of_singleton. done.
  - clear Hnd Hm. induction m as [|[k' v'] m IH]; cbn; [by repeat constructor|]. apply Forall_cons in Hall as [H1 H2].
    case_decide; constructor; auto.
Qed.
Lemma wf_dict_pop k m : wf_json (JObj m) -> wf_json (JObj (dict_pop k m)).
Proof.
  intros H. inversion H as [| | | | |? Hnd Hv]; subst. constructor; [by apply NoDup_map_filter|].
  rewrite Forall_forall in *. intros kv Hin. apply Hv. apply list_elem_of_In in Hin. apply list_elem_of_In. by apply filter_In in Hin as [? _].
Qed.
Lemma dict_get_pop_ne {V} k k' (m : list (string * V)) : k <> k' -> dict_get k (dict_pop k' m) = dict_get k m.
Proof.
  intros Hne. unfold dict_pop. induction m as [|[k0 v] m IH]; [done|]. cbn [List.filter fst]. case_bool_decide as E; simpl; [|by rewrite IH].
  subst. by rewrite IH, decide_False.
Qed.
Lemma wf_strings l : wf_json (JArr (map JStr l)).
Proof. constructor. apply Forall_forall. intros v (s & -> & _)%list_elem_of_fmap. constructor. Qed.

(** * The standard functions satisfy what is asked of [parse] and [render] *)
Lemma wf_dict_update m0 m : wf_json (JObj m0) -> Forall (fun kv => wf_json kv.2) m -> wf_json (JObj (dict_update m0 m)).
Proof.
  revert m0. induction m as [|[k v] m IH]; intros m0 H0; [done|]. intros [Hv Hm]%Forall_cons. apply IH; [|done]. by apply wf_dict_set.
Qed.
Lemma parse_wf f :
  (forall s v r, parse_value f s = Some (v, r) -> wf_json v)
  /\ (forall s l r, parse_elems f s = Some (l, r) -> Forall wf_json l)
  /\ (forall s m r, parse_members f s = Some (m, r) -> Forall (fun kv => wf_json kv.2) m).
Proof.
  induction f as [|f (IHv & IHe & IHm)]; [done|]. split_and!; intros s.
  - intros v r H. cbn [parse_value] in H. destruct s as [|c s]; [done|].
    destruct (code c =? 34)%N; [destruct (parse_str s) as [[t r']|]; simplify_eq; constructor|].
    destruct (code c =? 91)%N.
    { destruct (skip_ws s) as [|d r']; [done|]. destruct (code d =? 93)%N; [simplify_eq; repeat constructor|].
      destruct (parse_elems f _) as [[l r'']|] eqn:E; simplify_eq. constructor. by eapply IHe. }
    destruct (code c =? 123)%N.
    { destruct (skip_ws s) as [|d r']; [done|]. destruct (code d =? 125)%N; [simplify_eq; repeat constructor|].
      destruct (parse_members f _) as [[m r'']|] eqn:E; simplify_eq. apply wf_dict_update; [repeat constructor|by eapply IHm]. }
    destruct (strip_prefix "null" _); [simplify_eq; constructor|].
    destruct (strip_prefix "true" _); [simplify_eq; constructor|].
    destruct (strip_prefix "false" _); [simplify_eq; constructor|].
    unfold parse_int in H. repeat case_match; simplify_eq; constructor.
  - intros l r H. cbn [parse_elems] in H. destruct (parse_value f s) as [[v r1]|] eqn:E; [|done].
    destruct (skip_ws r1) as [|c r']; [done|]. destruct (code c =? 93)%N; [simplify_eq; constructor; [by eapply IHv|constructor]|].
    destruct (code c =? 44)%N; [|done]. destruct (parse_elems f _) as [[l' r'']|] eqn:E'; simplify_eq.
    constructor; [by eapply IHv|by eapply IHe].
  - intros m r H. cbn [parse_members] in H. destruct s as [|q r0]; [done|]. destruct (negb _); [done|].
    destruct (parse_str r0) as [[k r1]|]; [|done]. destruct (skip_ws r1) as [|c r2]; [done|]. destruct (negb _); [done|].
    destruct (parse_value f _) as [[v r3]|] eqn:E; [|done]. destruct (skip_ws r3) as [|c' r']; [done|].
    destruct (code c' =? 125)%N; [simplify_eq; constructor; [by eapply IHv|constructor]|].
    destruct (code c' =? 44)%N; [|done]. destruct (parse_members f _) as [[m' r'']|] eqn:E'; simplify_eq.
    constructor; [by eapply IHv|by eapply IHm].
Qed.
Lemma loads_wf s v : loads s = Some v -> wf_json v.
Proof.
  unfold loads. intros H. repeat case_match; simplify_eq.
  match goal with E : parse_value ?f _ = _ |- _ => by eapply (proj1 (parse_wf f)) end.
Qed.
Lemma dumps_obj_truthy m : truthy (dumps false (JObj m)) = true.
Proof. done. Qed.
