(* ===== verification/JobModel.v ===== *)
(** The [background_jobs] table of [backend/models.py], the audit table its
    service writes, and the SQLAlchemy operations the job modules use on them:
    insert with the table's unique constraints, attribute write-back of a
    loaded instance, reload.  Timestamps are naive datetimes counted in
    microseconds. *)
From S2P Require Import Prelude PyStr PyJson.
Open Scope string_scope.
Open Scope list_scope.

(** * Job states

    [backend/jobs/states.py]: the finite state machine of durable background
    jobs.  Statuses are the strings the column holds. *)
Definition PENDING : string := "pending".
Definition QUEUED : string := "queued".
Definition RUNNING : string := "running".
Definition SUCCEEDED : string := "succeeded".
Definition RETRY_WAIT : string := "retry_wait".
Definition FAILED : string := "failed".
Definition CANCELLED : string := "cancelled".

Definition TERMINAL_STATES : list string := [SUCCEEDED; FAILED; CANCELLED].

Definition ALLOWED_TRANSITIONS : list (string * list string) :=
  [ (PENDING, [QUEUED; CANCELLED]);
    (QUEUED, [RUNNING; CANCELLED]);
    (RUNNING, [SUCCEEDED; RETRY_WAIT; FAILED]);
    (RETRY_WAIT, [QUEUED; CANCELLED]);
    (SUCCEEDED, []);
    (FAILED, []);
    (CANCELLED, []) ].

Definition is_terminal (status : string) : bool := bool_decide (status ∈ TERMINAL_STATES).

(** [target in ALLOWED_TRANSITIONS.get(current, frozenset())] *)
Definition allowed (current target : string) : bool :=
  match dict_get current ALLOWED_TRANSITIONS with
  | Some ts => bool_decide (target ∈ ts)
  | None => false
  end.

Definition InvalidTransition (current target : string) : exn :=
  Exn "InvalidTransition" ("illegal job transition: " ++ current ++ " -> " ++ target).

Definition assert_transition (current target : string) : res unit :=
  if allowed current target then Ok tt else Raise (InvalidTransition current target).

(** The same machine as a relation. *)
Inductive transition : string -> string -> Prop :=
  | t_pend_queue : transition PENDING QUEUED
  | t_pend_cancel : transition PENDING CANCELLED
  | t_claim : transition QUEUED RUNNING
  | t_queue_cancel : transition QUEUED CANCELLED
  | t_succeed : transition RUNNING SUCCEEDED
  | t_retry : transition RUNNING RETRY_WAIT
  | t_fail : transition RUNNING FAILED
  | t_requeue : transition RETRY_WAIT QUEUED
  | t_retry_cancel : transition RETRY_WAIT CANCELLED.
Create HintDb jobs.
#[export] Hint Constructors transition : jobs.

Lemma allowed_spec c t : allowed c t = true <-> transition c t.
Proof.
  unfold allowed, ALLOWED_TRANSITIONS. simpl. split.
  - repeat case_decide; subst; try done; rewrite bool_decide_eq_true; intros Hin;
      repeat (apply elem_of_cons in Hin as [->|Hin]; [constructor|]);
      by apply elem_of_nil in Hin.
  - by destruct 1.
Qed.

Lemma assert_transition_ok c t : assert_transition c t = Ok tt <-> transition c t.
Proof.
  unfold assert_transition. rewrite <- allowed_spec. by destruct (allowed c t).
Qed.

Lemma assert_transition_cases c t :
  (assert_transition c t = Ok tt /\ transition c t) \/
  (assert_transition c t = Raise (InvalidTransition c t) /\ ~ transition c t).
Proof.
  unfold assert_transition. rewrite <- allowed_spec. destruct (allowed c t); auto.
Qed.

Lemma transition_running_inv t : transition RUNNING t -> t = SUCCEEDED \/ t = RETRY_WAIT \/ t = FAILED.
Proof. inversion 1; auto. Qed.
Lemma transition_to_cancelled c : transition c CANCELLED -> c = PENDING \/ c = QUEUED \/ c = RETRY_WAIT.
Proof. inversion 1; auto. Qed.
Lemma transition_to_running c : transition c RUNNING -> c = QUEUED.
Proof. inversion 1; auto. Qed.

Lemma terminal_no_transition s t : is_terminal s = true -> ~ transition s t.
Proof.
  unfold is_terminal. rewrite bool_decide_eq_true. intros Hs Ht.
  destruct Ht; repeat (apply elem_of_cons in Hs as [Hs|Hs]; [discriminate Hs|]);
    by apply elem_of_nil in Hs.
Qed.
#[export] Hint Resolve terminal_no_transition : jobs.

Definition SECOND : Z := 1000000.

(** [class BackgroundJob] *)
Record Job := mkJob {
  id : Z;
  job_id : string;
  job_type : string;
  org_id : option Z;
  requested_by : option Z;
  idempotency_key : string;
  payload_version : Z;
  payload : option string;
  status : string;
  priority : Z;
  attempt : Z;
  max_attempts : Z;
  available_at : Z;
  lease_owner : option string;
  lease_expires_at : option Z;
  created_at : Z;
  started_at : option Z;
  finished_at : option Z;
  error_code : option string;
  error_detail : option string;
  correlation_id : option string;
  replay_of : option string
}.

#[export] Instance job_eq_dec : EqDecision Job.
Proof. solve_decision. Defined.

(** Attribute assignments [job.x = v]. *)
Definition set_status (v : string) (j : Job) : Job :=
  mkJob (id j) (job_id j) (job_type j) (org_id j) (requested_by j) (idempotency_key j) (payload_version j) (payload j) v (priority j) (attempt j) (max_attempts j) (available_at j) (lease_owner j) (lease_expires_at j) (created_at j) (started_at j) (finished_at j) (error_code j) (error_detail j) (correlation_id j) (replay_of j).
Definition set_attempt (v : Z) (j : Job) : Job :=
  mkJob (id j) (job_id j) (job_type j) (org_id j) (requested_by j) (idempotency_key j) (payload_version j) (payload j) (status j) (priority j) v (max_attempts j) (available_at j) (lease_owner j) (lease_expires_at j) (created_at j) (started_at j) (finished_at j) (error_code j) (error_detail j) (correlation_id j) (replay_of j).
Definition set_available_at (v : Z) (j : Job) : Job :=
  mkJob (id j) (job_id j) (job_type j) (org_id j) (requested_by j) (idempotency_key j) (payload_version j) (payload j) (status j) (priority j) (attempt j) (max_attempts j) v (lease_owner j) (lease_expires_at j) (created_at j) (started_at j) (finished_at j) (error_code j) (error_detail j) (correlation_id j) (replay_of j).
Definition set_lease_owner (v : option string) (j : Job) : Job :=
  mkJob (id j) (job_id j) (job_type j) (org_id j) (requested_by j) (idempotency_key j) (payload_version j) (payload j) (status j) (priority j) (attempt j) (max_attempts j) (available_at j) v (lease_expires_at j) (created_at j) (started_at j) (finished_at j) (error_code j) (error_detail j) (correlation_id j) (replay_of j).
Definition set_lease_expires_at (v : option Z) (j : Job) : Job :=
  mkJob (id j) (job_id j) (job_type j) (org_id j) (requested_by j) (idempotency_key j) (payload_version j) (payload j) (status j) (priority j) (attempt j) (max_attempts j) (available_at j) (lease_owner j) v (created_at j) (started_at j) (finished_at j) (error_code j) (error_detail j) (correlation_id j) (replay_of j).
Definition set_started_at (v : option Z) (j : Job) : Job :=
  mkJob (id j) (job_id j) (job_type j) (org_id j) (requested_by j) (idempotency_key j) (payload_version j) (payload j) (status j) (priority j) (attempt j) (max_attempts j) (available_at j) (lease_owner j) (lease_expires_at j) (created_at j) v (finished_at j) (error_code j) (error_detail j) (correlation_id j) (replay_of j).
Definition set_finished_at (v : option Z) (j : Job) : Job :=
  mkJob (id j) (job_id j) (job_type j) (org_id j) (requested_by j) (idempotency_key j) (payload_version j) (payload j) (status j) (priority j) (attempt j) (max_attempts j) (available_at j) (lease_owner j) (lease_expires_at j) (created_at j) (started_at j) v (error_code j) (error_detail j) (correlation_id j) (replay_of j).
Definition set_error_code (v : option string) (j : Job) : Job :=
  mkJob (id j) (job_id j) (job_type j) (org_id j) (requested_by j) (idempotency_key j) (payload_version j) (payload j) (status j) (priority j) (attempt j) (max_attempts j) (available_at j) (lease_owner j) (lease_expires_at j) (created_at j) (started_at j) (finished_at j) v (error_detail j) (correlation_id j) (replay_of j).
Definition set_error_detail (v : option string) (j : Job) : Job :=
  mkJob (id j) (job_id j) (job_type j) (org_id j) (requested_by j) (idempotency_key j) (payload_version j) (payload j) (status j) (priority j) (attempt j) (max_attempts j) (available_at j) (lease_owner j) (lease_expires_at j) (created_at j) (started_at j) (finished_at j) (error_code j) v (correlation_id j) (replay_of j).

(** What an [UPDATE] of the changed attributes does to the row: a column is
    written when the new value differs from the loaded one. *)
Definition changed {A} `{EqDecision A} (loaded new row : A) : A :=
  if decide (new = loaded) then row else new.
Definition write_changes (loaded new row : Job) : Job :=
  mkJob
    (changed (id loaded) (id new) (id row))
    (changed (job_id loaded) (job_id new) (job_id row))
    (changed (job_type loaded) (job_type new) (job_type row))
    (changed (org_id loaded) (org_id new) (org_id row))
    (changed (requested_by loaded) (requested_by new) (requested_by row))
    (changed (idempotency_key loaded) (idempotency_key new) (idempotency_key row))
    (changed (payload_version loaded) (payload_version new) (payload_version row))
    (changed (payload loaded) (payload new) (payload row))
    (changed (status loaded) (status new) (status row))
    (changed (priority loaded) (priority new) (priority row))
    (changed (attempt loaded) (attempt new) (attempt row))
    (changed (max_attempts loaded) (max_attempts new) (max_attempts row))
    (changed (available_at loaded) (available_at new) (available_at row))
    (changed (lease_owner loaded) (lease_owner new) (lease_owner row))
    (changed (lease_expires_at loaded) (lease_expires_at new) (lease_expires_at row))
    (changed (created_at loaded) (created_at new) (created_at row))
    (changed (started_at loaded) (started_at new) (started_at row))
    (changed (finished_at loaded) (finished_at new) (finished_at row))
    (changed (error_code loaded) (error_code new) (error_code row))
    (changed (error_detail loaded) (error_detail new) (error_detail row))
    (changed (correlation_id loaded) (correlation_id new) (correlation_id row))
    (changed (replay_of loaded) (replay_of new) (replay_of row)).

Lemma changed_same {A} `{EqDecision A} (a b : A) : changed a b a = b.
Proof. unfold changed. by case_decide. Qed.
Lemma changed_kept {A} `{EqDecision A} (a r : A) : changed a a r = r.
Proof. unfold changed. by case_decide. Qed.
Lemma write_changes_fresh loaded new : write_changes loaded new loaded = new.
Proof. destruct new. unfold write_changes. simpl. by rewrite !changed_same. Qed.

(** [class AuditLog], the columns the job service fills. *)
Record AuditLog := mkAudit {
  audit_action : string;
  audit_entity_type : string;
  audit_entity_id : Z;
  audit_user_id : option Z;
  audit_details : string
}.

(** The database: the jobs table with its id sequence, the audit table, and
    whatever other tables the handlers work on. *)
Record JobDb (W : Type) := mkJobDb {
  jobs : list Job;
  next_id : Z;
  audits : list AuditLog;
  world : W
}.
Arguments mkJobDb {W} _ _ _ _.
Arguments jobs {W} _.
Arguments next_id {W} _.
Arguments audits {W} _.
Arguments world {W} _.

Section table.
Context {W : Type}.
Notation Db := (JobDb W).

Definition with_jobs (f : list Job -> list Job) (d : Db) : Db :=
  mkJobDb (f (jobs d)) (next_id d) (audits d) (world d).
Definition add_audit (a : AuditLog) (d : Db) : Db :=
  mkJobDb (jobs d) (next_id d) (audits d ++ [a]) (world d).

(** [db.get(BackgroundJob, i)] *)
Definition get_job (i : Z) (d : Db) : option Job :=
  List.find (fun j => (id j =? i)%Z) (jobs d).

Definition StaleDataError : exn :=
  Exn "StaleDataError" "UPDATE statement on table 'background_jobs' expected to update 1 row(s)".
Definition ObjectDeletedError : exn :=
  Exn "ObjectDeletedError" "Instance has been deleted, or its row is otherwise not present.".
Definition IntegrityError : exn := Exn "IntegrityError" "UNIQUE constraint failed".

(** Pending attribute changes of a loaded instance reach its row. *)
Definition mark_dirty (loaded new : Job) : M Db unit :=
  mmodify (with_jobs (update_where (fun r => (id r =? id loaded)%Z) (write_changes loaded new))).
(** The flush of those changes, which fails when the row is gone. *)
Definition flush_update (loaded new : Job) : M Db unit := fun s =>
  match get_job (id loaded) (sess_db s) with
  | None => (Raise StaleDataError, s)
  | Some _ => mark_dirty loaded new s
  end.
(** Attribute access on an expired instance. *)
Definition refresh (i : Z) : M Db Job := fun s =>
  match get_job i (sess_db s) with
  | Some j => (Ok j, s)
  | None => (Raise ObjectDeletedError, s)
  end.

(** [uq_background_job_idempotency] and the unique [job_id]: SQL compares
    NULL organisations as distinct. *)
Definition violates_unique (j : Job) (d : Db) : bool :=
  existsb (fun r =>
    bool_decide (job_id r = job_id j) ||
    match org_id j, org_id r with
    | Some o, Some o' => (o =? o')%Z && bool_decide (job_type r = job_type j) &&
                         bool_decide (idempotency_key r = idempotency_key j)
    | _, _ => false
    end) (jobs d).

(** [db.add(job); db.flush()] of a new row: [mk] is the row given its id. *)
Definition flush_insert (mk : Z -> Job) : M Db Job := fun s =>
  let d := sess_db s in
  let j := mk (next_id d) in
  if violates_unique j d then (Raise IntegrityError, s)
  else (Ok j, mkSession (mkJobDb (jobs d ++ [j]) (next_id d + 1) (audits d) (world d))
                        (sess_base s)).
End table.
