(* ===== verification/JobService.v ===== *)
(** [backend/jobs/service.py]: the producer, claim, lease, retry, recovery,
    cancellation, replay and retention services of the durable queue, over the
    table of [JobModel].  [clock] is [utc_now_naive()], [uuid] is
    [uuid.uuid4().hex]; [others] is what other sessions commit between two
    statements of the same call (the identity when the session is alone). *)
From S2P Require Import Prelude PyStr PyJson JobModel.
Open Scope string_scope.
Open Scope list_scope.
Local Open Scope py_scope.

Definition DEFAULT_MAX_ATTEMPTS : Z := 3.
Definition DEFAULT_LEASE_SECONDS : Z := 60.
Definition BACKOFF_BASE_SECONDS : Z := 10.
Definition BACKOFF_CAP_SECONDS : Z := 3600.

Definition JobError (msg : string) : exn := Exn "JobError" msg.

(** [now or utc_now_naive()] *)
Definition now_or (now : option Z) (clock : Z) : Z :=
  match now with Some t => t | None => clock end.

Definition sanitize (detail : option string) : option string :=
  option_map (take_str 2000) detail.

Definition opt_str (o : option string) : json :=
  match o with Some s => JStr s | None => JNull end.
Definition opt_int (o : option Z) : json :=
  match o with Some z => JInt z | None => JNull end.

(** The [details] dictionary of [_audit]. *)
Definition audit_dict (j : Job) (extra : list (string * json)) : list (string * json) :=
  let details := [("job_id", JStr (job_id j)); ("job_type", JStr (job_type j));
                  ("org_id", opt_int (org_id j)); ("status", JStr (status j))] in
  let details := match error_code j with
                 | Some c => if truthy c then dict_set "error_code" (JStr c) details else details
                 | None => details
                 end in
  dict_update details extra.

Definition backoff (n : Z) : Z :=
  Z.min (BACKOFF_BASE_SECONDS * 2 ^ Z.max (n - 1) 0) BACKOFF_CAP_SECONDS.

Section service.
Context {W : Type}.
Notation Db := (JobDb W).

Definition audit (action : string) (j : Job) (actor_id : option Z)
    (extra : list (string * json)) : M Db unit :=
  mmodify (add_audit (mkAudit action "background_job" (id j) actor_id
                              (dumps false (JObj (audit_dict j extra))))).

(** ** Producer *)

Definition key_matches (org : option Z) (jtype key : string) (r : Job) : bool :=
  bool_decide (org_id r = org) && bool_decide (job_type r = jtype) &&
  bool_decide (idempotency_key r = key).

Definition find_by_key (org : option Z) (jtype key : string) (d : Db) : option Job :=
  List.find (key_matches org jtype key) (jobs d).

(** The keyword arguments of [enqueue]. *)
Record EnqueueArgs := mkEnqueue {
  ea_job_type : string; ea_org_id : option Z; ea_idempotency_key : string;
  ea_payload : option json; ea_requested_by : option Z; ea_priority : Z;
  ea_max_attempts : Z; ea_available_at : option Z; ea_correlation_id : option string;
  ea_payload_version : Z
}.

Definition new_job (a : EnqueueArgs) (clock : Z) (uuid : string) (i : Z) : Job :=
  mkJob i uuid (ea_job_type a) (ea_org_id a) (ea_requested_by a) (ea_idempotency_key a)
    (ea_payload_version a) (option_map (dumps false) (ea_payload a)) QUEUED
    (ea_priority a) 0 (ea_max_attempts a) (now_or (ea_available_at a) clock)
    None None clock None None None None (ea_correlation_id a) None.

Definition enqueue (a : EnqueueArgs) (clock : Z) (uuid : string) (others : Db -> Db)
  : M Db Job :=
  if bool_decide (ea_idempotency_key a = "") then
    mraise (JobError "idempotency_key is required")
  else
    do! d <- mget;
    match find_by_key (ea_org_id a) (ea_job_type a) (ea_idempotency_key a) d with
    | Some existing => mret existing
    | None =>
        run! interfere others;
        mtry (flush_insert (new_job a clock uuid))
          (fun e =>
             if bool_decide (exn_name e = "IntegrityError") then
               run! rollback;
               do! d' <- mget;
               match find_by_key (ea_org_id a) (ea_job_type a) (ea_idempotency_key a) d' with
               | Some dup => mret dup
               | None => mraise e
               end
             else mraise e)
    end.

(** ** Claim and lease *)

Definition due (jtype : option string) (now : Z) (j : Job) : bool :=
  bool_decide (status j = QUEUED) && (available_at j <=? now)%Z &&
  match jtype with Some t => bool_decide (job_type j = t) | None => true end.

(** [ORDER BY priority, available_at, id] *)
Definition claim_order (a b : Job) : bool :=
  (priority a <? priority b)%Z ||
  (priority a =? priority b)%Z &&
    ((available_at a <? available_at b)%Z ||
     (available_at a =? available_at b)%Z && (id a <=? id b)%Z).

(** [locked]: ids whose rows other transactions hold, which only
    PostgreSQL's [SKIP LOCKED] passes over. *)
Definition select_candidate_id (jtype : option string) (now : Z) (is_pg : bool)
    (locked : list Z) (d : Db) : option Z :=
  let rows := List.filter (due jtype now) (jobs d) in
  let rows := if is_pg then List.filter (fun j => negb (bool_decide (id j ∈ locked))) rows
              else rows in
  option_map id (hd_error (sort_by claim_order rows)).

Definition claim_values (owner : string) (expires now : Z) (j : Job) : Job :=
  set_attempt (attempt j + 1)
    (set_started_at (Some now)
      (set_lease_expires_at (Some expires)
        (set_lease_owner (Some owner) (set_status RUNNING j)))).

(** The compare-and-set [UPDATE], returning its row count. *)
Definition claim_cas (i : Z) (owner : string) (expires now : Z) : M Db Z := fun s =>
  let p r := (id r =? i)%Z && bool_decide (status r = QUEUED) in
  let d := sess_db s in
  (Ok (count_where p (jobs d)),
   mkSession (with_jobs (update_where p (claim_values owner expires now)) d) (sess_base s)).

(** The second half of [claim]: take the candidate, or give way. *)
Definition claim_take (candidate : Z) (lease_owner : string) (lease_expires now : Z)
  : M Db (option Job) :=
  do! rowcount <- claim_cas candidate lease_owner lease_expires now;
  if negb (rowcount =? 1)%Z then run! rollback; mret None
  else run! commit;
       do! d' <- mget;
       mret (get_job candidate d').

Definition claim (lease_owner : string) (jtype : option string) (lease_seconds : Z)
    (now : option Z) (clock : Z) (is_pg : bool) (locked : list Z) (others : Db -> Db)
  : M Db (option Job) :=
  let now := now_or now clock in
  do! d <- mget;
  match select_candidate_id jtype now is_pg locked d with
  | None => mret None
  | Some candidate =>
      let lease_expires := (now + lease_seconds * SECOND)%Z in
      run! interfere others;
      claim_take candidate lease_owner lease_expires now
  end.

Definition renew_lease (job : Job) (owner : string) (lease_seconds : Z)
    (now : option Z) (clock : Z) : M Db bool :=
  let now := now_or now clock in
  do! d <- mget;
  let p r := (id r =? id job)%Z && bool_decide (status r = RUNNING) &&
             bool_decide (lease_owner r = Some owner) in
  run! mmodify (with_jobs (update_where p (set_lease_expires_at (Some (now + lease_seconds * SECOND)%Z))));
  run! commit;
  mret (count_where p (jobs d) =? 1)%Z.

(** ** Terminal and retry transitions *)

Definition complete (job : Job) (now : option Z) (clock : Z) : M Db unit :=
  run! mlift (assert_transition (status job) SUCCEEDED);
  run! flush_update job
         (set_lease_expires_at None
           (set_lease_owner None
             (set_finished_at (Some (now_or now clock)) (set_status SUCCEEDED job))));
  commit.

Definition fail (job : Job) (code : string) (detail : option string)
    (now : option Z) (clock : Z) (terminal : bool) : M Db string :=
  let now := now_or now clock in
  let job1 := set_lease_expires_at None
                (set_lease_owner None
                  (set_error_detail (sanitize detail)
                    (set_error_code (Some (take_str 60 code)) job))) in
  run! mark_dirty job job1;
  if negb terminal && (attempt job <? max_attempts job)%Z then
    run! mlift (assert_transition (status job1) RETRY_WAIT);
    run! flush_update job
           (set_available_at (now + backoff (attempt job) * SECOND)%Z
             (set_status RETRY_WAIT job1));
    run! commit;
    mret RETRY_WAIT
  else
    run! mlift (assert_transition (status job1) FAILED);
    run! flush_update job (set_finished_at (Some now) (set_status FAILED job1));
    run! commit;
    mret FAILED.

Definition retry_due (now : Z) (r : Job) : bool :=
  bool_decide (status r = RETRY_WAIT) && (available_at r <=? now)%Z.

Definition promote_retry_ready (now : option Z) (clock : Z) : M Db Z :=
  let now := now_or now clock in
  do! d <- mget;
  run! mmodify (with_jobs (update_where (retry_due now) (set_status QUEUED)));
  run! commit;
  mret (count_where (retry_due now) (jobs d)).

(** ** Recovery supervisor *)

Definition lease_expired (now : Z) (r : Job) : bool :=
  bool_decide (status r = RUNNING) &&
  match lease_expires_at r with Some t => (t <? now)%Z | None => false end.

(** Each [fail] commits, which expires the loaded instances: the next one is
    reloaded before its attributes are read. *)
Fixpoint fail_each (ids : list Z) (now clock : Z) : M Db unit :=
  match ids with
  | [] => mret tt
  | i :: ids' =>
      do! job <- refresh i;
      do! _ <- fail job "lease_expired"
                 (Some "worker lease expired; recovered by supervisor")
                 (Some now) clock false;
      fail_each ids' now clock
  end.

Definition recover_abandoned_leases (now : option Z) (clock : Z) : M Db Z :=
  let now := now_or now clock in
  do! d <- mget;
  let stale := List.filter (lease_expired now) (jobs d) in
  run! fail_each (map id stale) now clock;
  mret (Z.of_nat (length stale)).

(** ** Cancellation and replay *)

Definition cancel (job : Job) (actor_id : option Z) (clock : Z) : M Db unit :=
  run! mlift (assert_transition (status job) CANCELLED);
  let job' := set_finished_at (Some clock) (set_status CANCELLED job) in
  run! flush_update job job';
  run! audit "job.cancel" job' actor_id [];
  commit.

(** [f"{job.idempotency_key}:replay:{uuid.uuid4().hex[:8]}"] *)
Definition replay_key (job : Job) (uuid : string) : string :=
  idempotency_key job ++ ":replay:" ++ take_str 8 uuid.

Definition replay_job (job : Job) (actor_id : option Z) (clock : Z)
    (uuid uuid' : string) (i : Z) : Job :=
  mkJob i uuid (job_type job) (org_id job)
    (match actor_id with Some a => Some a | None => requested_by job end)
    (replay_key job uuid') (payload_version job) (payload job) QUEUED
    (priority job) 0 (max_attempts job) clock
    None None clock None None None None (correlation_id job) (Some (job_id job)).

Definition replay (job : Job) (actor_id : option Z) (clock : Z) (uuid uuid' : string)
  : M Db Job :=
  if negb (bool_decide (status job = FAILED)) then
    mraise (JobError ("only failed jobs can be replayed (status=" ++ status job ++ ")"))
  else
    do! new <- flush_insert (replay_job job actor_id clock uuid uuid');
    run! audit "job.replay" job actor_id [("replay_job_id", JStr (job_id new))];
    run! commit;
    mret new.

(** ** Retention *)

Definition purgeable (older_than : Z) (r : Job) : bool :=
  is_terminal (status r) &&
  match finished_at r with Some t => (t <? older_than)%Z | None => false end.

Definition purge_terminal_jobs (older_than : Z) : M Db Z :=
  do! d <- mget;
  run! mmodify (with_jobs (List.filter (fun r => negb (purgeable older_than r))));
  run! commit;
  mret (count_where (purgeable older_than) (jobs d)).
End service.
