(* ===== verification/JobFacts.v ===== *)
(** Lemmas on the job services: each service as a function of the committed
    table, the row invariant, and how a row may evolve.  The claims about the
    queue are in [JobClaims]. *)
From S2P Require Import Prelude PyStr PyJson JobModel JobService.
Open Scope string_scope.
Open Scope list_scope.

(** * What the services do to one row *)

Definition completed (t : Z) (j : Job) : Job :=
  set_lease_expires_at None
    (set_lease_owner None (set_finished_at (Some t) (set_status SUCCEEDED j))).

Definition cleared (code : string) (detail : option string) (j : Job) : Job :=
  set_lease_expires_at None
    (set_lease_owner None
      (set_error_detail (sanitize detail) (set_error_code (Some (take_str 60 code)) j))).

Definition retries_left (terminal : bool) (j : Job) : bool :=
  negb terminal && (attempt j <? max_attempts j)%Z.

Definition failed (code : string) (detail : option string) (t : Z) (terminal : bool) (j : Job) : Job :=
  if retries_left terminal j
  then set_available_at (t + backoff (attempt j) * SECOND)
         (set_status RETRY_WAIT (cleared code detail j))
  else set_finished_at (Some t) (set_status FAILED (cleared code detail j)).

Definition cancelled (t : Z) (j : Job) : Job :=
  set_finished_at (Some t) (set_status CANCELLED j).

Definition abandoned (t : Z) (j : Job) : Job :=
  failed "lease_expired" (Some "worker lease expired; recovered by supervisor") t false j.

(** * Ids *)

Definition ids_ok {W} (d : JobDb W) : Prop :=
  NoDup (map id (jobs d)) /\ Forall (fun j => (id j < next_id d)%Z) (jobs d).

Section facts.
Context {W : Type}.
Notation Db := (JobDb W).
Implicit Types (d : Db) (j : Job).

Lemma get_job_Some i d j : get_job i d = Some j -> In j (jobs d) /\ id j = i.
Proof. unfold get_job. intros [H E]%find_some. split; [done|lia]. Qed.
Lemma get_job_In d j : ids_ok d -> In j (jobs d) -> get_job (id j) d = Some j.
Proof.
  intros [Hnd _] Hj. apply (find_unique id); [done|done|lia|].
  intros y Hy. lia.
Qed.

Definition upd (i : Z) (f : Job -> Job) (d : Db) : Db :=
  with_jobs (update_where (fun r => (id r =? i)%Z) f) d.

Lemma upd_ext i f f' d :
  (forall r, In r (jobs d) -> id r = i -> f r = f' r) -> upd i f d = upd i f' d.
Proof.
  intros H. unfold upd, with_jobs. f_equal. apply update_where_ext.
  intros r Hr E. apply H; [done|lia].
Qed.

Lemma id_upd i f d : (forall r, id (f r) = id r) -> map id (jobs (upd i f d)) = map id (jobs d).
Proof. intros H. by apply update_where_map. Qed.

Lemma ids_ok_upd i f d : (forall r, id (f r) = id r) -> ids_ok d -> ids_ok (upd i f d).
Proof.
  intros H [H1 H2]. split; [by rewrite id_upd|].
  rewrite Forall_forall in *. intros j Hj%list_elem_of_In. simpl.
  apply in_update_where in Hj as (r & Hr & [[_ ->]|[_ ->]]); rewrite ?H;
    apply H2; by apply list_elem_of_In.
Qed.

Lemma in_upd i f d j' :
  In j' (jobs (upd i f d)) ->
  exists j, In j (jobs d) /\ ((id j = i /\ j' = f j) \/ (id j <> i /\ j' = j)).
Proof.
  intros (r & Hr & H)%in_update_where. exists r. split; [done|].
  destruct H as [[E ->]|[E ->]]; [left|right]; split; (lia || done).
Qed.

Lemma get_job_upd_eq i f d j :
  (forall r, id (f r) = id r) -> ids_ok d -> get_job i d = Some j ->
  get_job i (upd i f d) = Some (f j).
Proof.
  intros Hf Hd [Hj <-]%get_job_Some. rewrite <- (Hf j) at 1.
  apply get_job_In; [by apply ids_ok_upd|]. unfold upd. simpl.
  pose proof (update_where_in (fun r => (id r =? id j)%Z) f _ _ Hj) as H.
  simpl in H. by rewrite Z.eqb_refl in H.
Qed.
Lemma get_job_upd_ne i k f d :
  (forall r, id (f r) = id r) -> i <> k -> get_job i (upd k f d) = get_job i d.
Proof.
  intros Hf Hne. unfold get_job, upd. simpl. unfold update_where.
  induction (jobs d) as [|r l IH]; simpl; [done|].
  destruct (id r =? k)%Z eqn:E; simpl; rewrite ?Hf, IH; [|done].
  replace (id r =? i)%Z with false by lia. done.
Qed.

(** * Each service on a fresh instance in a clean session *)

Lemma run_transition {A} c t (k : unit -> M Db A) s :
  transition c t -> mbind (mlift (assert_transition c t)) k s = k tt s.
Proof. intros Ht%assert_transition_ok. unfold mbind, mlift. by rewrite Ht. Qed.

Lemma run_flush {A} (s : Session Db) j r0 new f (k : unit -> M Db A) :
  get_job (id j) (sess_db s) = Some r0 ->
  (forall r, In r (jobs (sess_db s)) -> id r = id j -> write_changes j new r = f r) ->
  mbind (flush_update j new) k s = k tt (mkSession (upd (id j) f (sess_db s)) (sess_base s)).
Proof.
  intros Hg Hf. unfold mbind, flush_update. rewrite Hg. unfold mark_dirty, mmodify.
  do 2 f_equal. by apply upd_ext.
Qed.

Lemma fresh_row d j r : ids_ok d -> get_job (id j) d = Some j -> In r (jobs d) -> id r = id j -> r = j.
Proof.
  intros [Hnd _] [Hj _]%get_job_Some Hr E. by apply (NoDup_map_inj id (jobs d)).
Qed.

Lemma complete_ok d j now clock :
  ids_ok d -> get_job (id j) d = Some j -> status j = RUNNING ->
  complete j now clock (clean d) = (Ok tt, clean (upd (id j) (completed (now_or now clock)) d)).
Proof.
  intros Hd Hg Hs. unfold complete. rewrite run_transition by (rewrite Hs; constructor).
  erewrite run_flush; [reflexivity|done|].
  intros r Hr E. simpl in Hr. rewrite (fresh_row d j r) by done. by rewrite write_changes_fresh.
Qed.

Lemma complete_illegal d j now clock :
  status j <> RUNNING ->
  complete j now clock (clean d) = (Raise (InvalidTransition (status j) SUCCEEDED), clean d).
Proof.
  intros Hs. unfold complete, mbind, mlift.
  destruct (assert_transition_cases (status j) SUCCEEDED) as [[_ Ht]|[-> _]]; [|done].
  inversion Ht; congruence.
Qed.

Lemma write_changes_twice j new1 new2 row :
  row = new1 ->
  (status new2 = status j -> status new1 = status j) ->
  (available_at new2 = available_at j -> available_at new1 = available_at j) ->
  (finished_at new2 = finished_at j -> finished_at new1 = finished_at j) ->
  set_status (status new1) (set_available_at (available_at new1)
    (set_finished_at (finished_at new1) new2)) = new1 ->
  write_changes j new2 row = new2.
Proof.
  intros -> H1 H2 H3 E. unfold write_changes. destruct j, new1, new2. simpl in *.
  injection E as ?. subst. unfold changed.
  f_equal; repeat case_decide; subst; intuition congruence.
Qed.

Lemma fail_ok d j code detail now clock terminal :
  ids_ok d -> get_job (id j) d = Some j -> status j = RUNNING ->
  fail j code detail now clock terminal (clean d) =
  (Ok (if retries_left terminal j then RETRY_WAIT else FAILED),
   clean (upd (id j) (failed code detail (now_or now clock) terminal) d)).
Proof.
  intros Hd Hg Hs. unfold fail. cbv zeta.
  fold (cleared code detail j). fold (retries_left terminal j).
  set (t := now_or now clock). unfold mbind at 1, mark_dirty, mmodify.
  set (d1 := with_jobs _ _).
  assert (Hd1 : d1 = upd (id j) (cleared code detail) d).
  { apply upd_ext. intros r Hr E. rewrite (fresh_row d j r) by done.
    by rewrite write_changes_fresh. }
  assert (Hst : status (cleared code detail j) = RUNNING) by done.
  assert (Hg1 : get_job (id j) d1 = Some (cleared code detail j)).
  { rewrite Hd1. by apply get_job_upd_eq. }
  assert (Hrow : forall r, In r (jobs d1) -> id r = id j -> r = cleared code detail j).
  { intros r Hr E. apply (fresh_row d1); [rewrite Hd1; by apply ids_ok_upd|done|done|done]. }
  assert (Hupd : forall f, upd (id j) (fun _ => f j) d1 = upd (id j) f d).
  { intros f. rewrite Hd1. unfold upd, with_jobs. simpl. f_equal.
    rewrite update_where_twice by done. apply update_where_ext.
    intros r Hr E. rewrite (fresh_row d j r); [done|done|done|done|lia]. }
  assert (Hfin : forall new, write_changes j new (cleared code detail j) = new ->
            forall r, In r (jobs d1) -> id r = id j -> write_changes j new r = new).
  { intros new E r Hr Ei. by rewrite (Hrow r Hr Ei). }
  set (F := failed code detail t terminal).
  rewrite <- (Hupd F). unfold F, failed. destruct (retries_left terminal j).
  - rewrite run_transition by (rewrite Hst; constructor).
    erewrite run_flush; [reflexivity|done|]. intros r Hr E.
    refine (Hfin _ _ r Hr E). by apply (write_changes_twice j (cleared code detail j)).
  - rewrite run_transition by (rewrite Hst; constructor).
    erewrite run_flush; [reflexivity|done|]. intros r Hr E.
    refine (Hfin _ _ r Hr E). by apply (write_changes_twice j (cleared code detail j)).
Qed.

(** Outside RUNNING, [fail] raises, and its pending attribute writes are
    never committed. *)
Lemma fail_illegal d j code detail now clock terminal :
  status j <> RUNNING ->
  exists e s, fail j code detail now clock terminal (clean d) = (Raise e, s) /\ sess_base s = d.
Proof.
  intros Hs. unfold fail, mbind at 1, mark_dirty, mmodify. cbv zeta.
  destruct (negb terminal && _).
  - unfold mbind, mlift. destruct (assert_transition_cases (status j) RETRY_WAIT) as [[_ Ht]|[E _]].
    + by inversion Ht.
    + simpl. rewrite E. eauto.
  - unfold mbind, mlift. destruct (assert_transition_cases (status j) FAILED) as [[_ Ht]|[E _]].
    + by inversion Ht.
    + simpl. rewrite E. eauto.
Qed.

(** ** Recovery *)

Lemma ids_ok_where p f d : (forall r, id (f r) = id r) -> ids_ok d ->
  ids_ok (with_jobs (update_where p f) d).
Proof.
  intros H [H1 H2]. split; simpl.
  - by rewrite (update_where_map id).
  - rewrite Forall_forall in *. intros j Hj%list_elem_of_In.
    apply in_update_where in Hj as (r & Hr & [[_ ->]|[_ ->]]); rewrite ?H;
      apply H2; by apply list_elem_of_In.
Qed.

Lemma id_abandoned t r : id (abandoned t r) = id r.
Proof. unfold abandoned, failed. by destruct (retries_left false r). Qed.

Lemma fail_each_ok ids d t clock :
  ids_ok d -> NoDup ids ->
  (forall i, In i ids -> exists j, get_job i d = Some j /\ status j = RUNNING) ->
  fail_each ids t clock (clean d) =
  (Ok tt, clean (with_jobs (update_where (fun r => bool_decide (id r ∈ ids)) (abandoned t)) d)).
Proof.
  revert d. induction ids as [|i ids IH]; intros d Hd Hnd Hrun.
  - simpl. unfold mret, clean, with_jobs.
    rewrite update_where_id; [by destruct d|]. by intros r _ H.
  - apply NoDup_cons in Hnd as [Hi Hnd].
    destruct (Hrun i) as (j & Hg & Hs); [by left|].
    destruct (get_job_Some _ _ _ Hg) as [_ E]. subst i.
    cbn [fail_each]. unfold mbind at 1, refresh. simpl. rewrite Hg.
    unfold mbind at 1. rewrite fail_ok by done. fold (abandoned t). unfold now_or.
    match goal with |- _ = ?R =>
      change (fail_each ids t clock (clean (upd (id j) (abandoned t) d)) = R) end.
    pose proof (id_abandoned t) as Hid.
    rewrite IH; [|by apply ids_ok_upd|done|].
    + do 2 f_equal. unfold upd, with_jobs. simpl. f_equal.
      unfold update_where. rewrite map_map. apply map_ext_in. intros r Hr.
      destruct (id r =? id j)%Z eqn:E; simpl.
      * rewrite Hid, (bool_decide_false (id r ∈ ids)), bool_decide_true; [done| |].
        -- apply elem_of_cons. left. lia.
        -- intros H. apply Hi. by replace (id j) with (id r) by lia.
      * rewrite (bool_decide_ext (id r ∈ ids) (id r ∈ id j :: ids)); [done|].
        rewrite elem_of_cons. naive_solver lia.
    + intros i Hin. destruct (Hrun i) as (j' & Hg' & Hs'); [by right|].
      exists j'. split; [|done]. rewrite get_job_upd_ne; [done|done|].
      intros ->. apply Hi. by apply list_elem_of_In.
Qed.

Lemma expired_ids_spec d t r :
  ids_ok d -> In r (jobs d) ->
  bool_decide (id r ∈ map id (List.filter (lease_expired t) (jobs d))) = lease_expired t r.
Proof.
  intros Hd Hr. destruct (lease_expired t r) eqn:E.
  - apply bool_decide_true. apply list_elem_of_In, in_map, filter_In. auto.
  - apply bool_decide_false. rewrite list_elem_of_In, in_map_iff.
    intros (r' & Ei & [Hr' E']%filter_In).
    rewrite (NoDup_map_inj id (jobs d) r' r) in E'; [congruence|apply Hd|done|done|done].
Qed.

Lemma recover_ok d now clock :
  ids_ok d ->
  recover_abandoned_leases now clock (clean d) =
  (Ok (count_where (lease_expired (now_or now clock)) (jobs d)),
   clean (with_jobs (update_where (lease_expired (now_or now clock))
                                  (abandoned (now_or now clock))) d)).
Proof.
  intros Hd. set (t := now_or now clock). unfold recover_abandoned_leases.
  unfold mbind, mget. simpl. fold t. rewrite fail_each_ok; [|done| |].
  - unfold mret, count_where. f_equal. unfold clean, with_jobs. f_equal; f_equal.
    all: unfold update_where; apply map_ext_in; intros r Hr.
    all: rewrite expired_ids_spec by done; done.
  - apply NoDup_map_filter, Hd.
  - intros i (r & <- & [Hr E]%filter_In)%in_map_iff. exists r.
    split; [by apply get_job_In|]. unfold lease_expired in E.
    apply andb_prop in E as [E _]. by apply bool_decide_eq_true in E.
Qed.

(** ** Claim *)

Lemma claim_order_total : total_le claim_order.
Proof. intros x y. unfold claim_order. lia. Qed.
Lemma claim_order_trans : trans_le claim_order.
Proof. intros x y z. unfold claim_order. lia. Qed.

Lemma select_candidate_Some jtype now is_pg locked d i :
  select_candidate_id jtype now is_pg locked d = Some i ->
  exists j, In j (jobs d) /\ id j = i /\ due jtype now j = true /\
    (is_pg = true -> id j ∉ locked) /\
    (forall j', In j' (jobs d) -> due jtype now j' = true ->
      (is_pg = true -> id j' ∉ locked) -> j' = j \/ claim_order j j' = true).
Proof.
  unfold select_candidate_id. intros H.
  destruct (hd_error _) as [j|] eqn:E; [|done]. injection H as <-.
  apply hd_sort_by_least in E as [Hj Hmin]; [|apply claim_order_total|apply claim_order_trans].
  exists j. destruct is_pg.
  - rewrite !filter_In, negb_true_iff, bool_decide_eq_false in Hj.
    destruct Hj as [[Hj Hd] Hl]. repeat split; auto.
    intros j' Hj' Hd' Hl'. apply Hmin. rewrite !filter_In, negb_true_iff, bool_decide_eq_false. auto.
  - rewrite filter_In in Hj. destruct Hj as [Hj Hd]. repeat split; auto; try done.
    intros j' Hj' Hd' _. apply Hmin. by apply filter_In.
Qed.

Lemma select_candidate_None jtype now is_pg locked d :
  select_candidate_id jtype now is_pg locked d = None ->
  forall j, In j (jobs d) -> due jtype now j = true -> is_pg = true /\ id j ∈ locked.
Proof.
  unfold select_candidate_id. intros H j Hj Hd.
  destruct (hd_error _) eqn:E; [done|]. apply hd_sort_by_None in E.
  destruct is_pg.
  - split; [done|]. destruct (decide (id j ∈ locked)) as [|Hl]; [done|].
    assert (Hin : In j []); [|destruct Hin].
    rewrite <- E, !filter_In, negb_true_iff, bool_decide_eq_false. auto.
  - assert (Hin : In j []); [|destruct Hin]. rewrite <- E. by apply filter_In.
Qed.

Lemma due_queued jtype now j : due jtype now j = true -> status j = QUEUED.
Proof. unfold due. intros [[H _]%andb_prop _]%andb_prop. by apply bool_decide_eq_true in H. Qed.

Definition claimed (owner : string) (secs t : Z) (j : Job) : Job :=
  claim_values owner (t + secs * SECOND)%Z t j.

(** The compare-and-set when the row is still queued. *)
Lemma claim_cas_hit d i owner exp t base j :
  ids_ok d -> get_job i d = Some j -> status j = QUEUED ->
  claim_cas i owner exp t (mkSession d base) =
  (Ok 1%Z, mkSession (upd i (claim_values owner exp t) d) base).
Proof.
  intros Hd Hg Hs. destruct (get_job_Some _ _ _ Hg) as [Hj <-].
  unfold claim_cas. simpl. f_equal; [f_equal|f_equal].
  - apply (count_where_unique id _ _ j); [apply Hd|done| |].
    + rewrite Hs, Z.eqb_refl. done.
    + intros y [H _]%andb_prop. lia.
  - unfold upd, with_jobs. f_equal. unfold update_where. apply map_ext_in. intros r Hr.
    destruct (id r =? id j)%Z eqn:E; simpl; [|done].
    rewrite (fresh_row d j r), Hs; [done|done|done|done|lia].
Qed.
(** ... and when it is not. *)
Lemma claim_cas_miss d i owner exp t base :
  (forall j, get_job i d = Some j -> status j <> QUEUED) -> ids_ok d ->
  claim_cas i owner exp t (mkSession d base) = (Ok 0%Z, mkSession d base).
Proof.
  intros Hs Hd. unfold claim_cas. simpl.
  assert (Hp : forall r, In r (jobs d) ->
            (id r =? i)%Z && bool_decide (status r = QUEUED) = false).
  { intros r Hr. destruct (id r =? i)%Z eqn:E; [|done]. simpl.
    apply bool_decide_eq_false. apply Hs. replace i with (id r) by lia. by apply get_job_In. }
  f_equal.
  - f_equal. by apply count_where_0.
  - f_equal. unfold with_jobs. rewrite update_where_id; [by destruct d|].
    intros r Hr E. rewrite Hp in E; done.
Qed.

Lemma claim_none d owner jtype secs now clock is_pg locked others :
  select_candidate_id jtype (now_or now clock) is_pg locked d = None ->
  claim owner jtype secs now clock is_pg locked others (clean d) = (Ok None, clean d).
Proof. intros H. unfold claim, mbind, mget. simpl. by rewrite H. Qed.

Lemma claim_take_spec d i owner exp t :
  ids_ok d ->
  claim_take i owner exp t (clean d) =
  match get_job i d with
  | Some j => if bool_decide (status j = QUEUED)
              then (Ok (Some (claim_values owner exp t j)),
                    clean (upd i (claim_values owner exp t) d))
              else (Ok None, clean d)
  | None => (Ok None, clean d)
  end.
Proof.
  intros Hd. unfold claim_take, mbind at 1. destruct (get_job i d) as [j|] eqn:Hg.
  - case_bool_decide as Hs.
    + unfold clean at 1. erewrite claim_cas_hit by done.
      unfold mbind, commit, mget, mret. cbv beta iota.
      change (negb (1 =? 1)%Z) with false. cbv beta iota. cbn [sess_db].
      erewrite get_job_upd_eq by done. done.
    + unfold clean at 1. rewrite claim_cas_miss; [done| |done]. intros j' Hj'. congruence.
  - unfold clean at 1. rewrite claim_cas_miss; [done| |done]. intros j' Hj'. congruence.
Qed.

(** Between the select and the compare-and-set others may have committed. *)
Lemma claim_race d owner jtype secs now clock is_pg locked others i :
  ids_ok (others d) ->
  select_candidate_id jtype (now_or now clock) is_pg locked d = Some i ->
  claim owner jtype secs now clock is_pg locked others (clean d) =
  match get_job i (others d) with
  | Some j => if bool_decide (status j = QUEUED)
              then let j' := claimed owner secs (now_or now clock) j in
                   (Ok (Some j'), clean (upd i (claimed owner secs (now_or now clock)) (others d)))
              else (Ok None, clean (others d))
  | None => (Ok None, clean (others d))
  end.
Proof.
  intros Hd H. unfold claim. unfold mbind at 1, mget. cbn [sess_db clean]. rewrite H.
  unfold mbind at 1, interfere. cbn [sess_db sess_base clean].
  by apply claim_take_spec.
Qed.

(** ** Cancel *)
Lemma cancel_ok d j actor clock :
  ids_ok d -> get_job (id j) d = Some j -> transition (status j) CANCELLED ->
  cancel j actor clock (clean d) =
  (Ok tt, clean (add_audit
     (mkAudit "job.cancel" "background_job" (id j) actor
        (dumps false (JObj (audit_dict (cancelled clock j) []))))
     (upd (id j) (cancelled clock) d))).
Proof.
  intros Hd Hg Ht. unfold cancel. rewrite run_transition by done. cbv zeta.
  fold (cancelled clock j).
  erewrite run_flush; [reflexivity|done|].
  intros r Hr E. simpl in Hr. rewrite (fresh_row d j r) by done. by rewrite write_changes_fresh.
Qed.
Lemma cancel_illegal d j actor clock :
  ~ transition (status j) CANCELLED ->
  cancel j actor clock (clean d) = (Raise (InvalidTransition (status j) CANCELLED), clean d).
Proof.
  intros Ht. unfold cancel, mbind, mlift.
  destruct (assert_transition_cases (status j) CANCELLED) as [[_ ?]|[-> _]]; done.
Qed.

(** ** Replay *)
Definition replayed (d : Db) j actor clock uuid uuid' : Db :=
  let n := replay_job j actor clock uuid uuid' (next_id d) in
  add_audit (mkAudit "job.replay" "background_job" (id j) actor
               (dumps false (JObj (audit_dict j [("replay_job_id", JStr (job_id n))]))))
    (mkJobDb (jobs d ++ [n]) (next_id d + 1) (audits d) (world d)).

Lemma replay_ok d j actor clock uuid uuid' :
  status j = FAILED -> violates_unique (replay_job j actor clock uuid uuid' (next_id d)) d = false ->
  replay j actor clock uuid uuid' (clean d) =
  (Ok (replay_job j actor clock uuid uuid' (next_id d)), clean (replayed d j actor clock uuid uuid')).
Proof.
  intros Hs Hv. unfold replay. rewrite bool_decide_true by done. simpl.
  unfold mbind, flush_insert. simpl. by rewrite Hv.
Qed.
(** Neither the wrong status nor a collision writes anything. *)
Lemma replay_fails d j actor clock uuid uuid' :
  status j <> FAILED \/ violates_unique (replay_job j actor clock uuid uuid' (next_id d)) d = true ->
  exists e, replay j actor clock uuid uuid' (clean d) = (Raise e, clean d).
Proof.
  intros H. unfold replay. case_bool_decide as Hs; simpl; [|eexists; reflexivity].
  destruct H as [H|H]; [done|]. unfold mbind, flush_insert. simpl. rewrite H. eexists. reflexivity.
Qed.
End facts.
