(* ===== verification/JobExec.v ===== *)
(** Service calls as transactions on the committed jobs table: what one call may
    do to it ([table_step]), the row invariant [job_wf] and its preservation.
    The claims about the queue are in [JobClaims]. *)
From S2P Require Import Prelude PyStr PyJson JobModel JobService JobFacts.
Open Scope string_scope.
Open Scope list_scope.
Local Open Scope py_scope.

(** * One service call as a transaction on the committed table *)

(** A service call by an external actor; the row it works on is loaded in the
    same session. *)
Inductive op :=
  | OpEnqueue (a : EnqueueArgs) (clock : Z) (uuid : string)
  | OpClaim (owner : string) (jtype : option string) (secs : Z) (now : option Z) (clock : Z)
      (is_pg : bool) (locked : list Z)
  | OpRenew (i : Z) (owner : string) (secs : Z) (now : option Z) (clock : Z)
  | OpComplete (i : Z) (now : option Z) (clock : Z)
  | OpFail (i : Z) (code : string) (detail : option string) (now : option Z) (clock : Z)
      (terminal : bool)
  | OpPromote (now : option Z) (clock : Z)
  | OpRecover (now : option Z) (clock : Z)
  | OpCancel (i : Z) (actor : option Z) (clock : Z)
  | OpReplay (i : Z) (actor : option Z) (clock : Z) (uuid uuid' : string)
  | OpPurge (older_than : Z).

Section exec.
Context {W : Type}.
Notation Db := (JobDb W).

Definition with_row (i : Z) (k : Job -> M Db unit) : M Db unit :=
  do! d <- mget; match get_job i d with Some j => k j | None => mret tt end.
Definition ignore {A} (c : M Db A) : M Db unit := run! c; mret tt.

Definition run_op (o : op) : M Db unit :=
  match o with
  | OpEnqueue a clock uuid => run! enqueue a clock uuid (fun d => d); commit
  | OpClaim owner jt secs now clock is_pg locked =>
      ignore (claim owner jt secs now clock is_pg locked (fun d => d))
  | OpRenew i owner secs now clock =>
      with_row i (fun j => ignore (renew_lease j owner secs now clock))
  | OpComplete i now clock => with_row i (fun j => complete j now clock)
  | OpFail i code detail now clock terminal =>
      with_row i (fun j => ignore (fail j code detail now clock terminal))
  | OpPromote now clock => ignore (promote_retry_ready now clock)
  | OpRecover now clock => ignore (recover_abandoned_leases now clock)
  | OpCancel i actor clock => with_row i (fun j => cancel j actor clock)
  | OpReplay i actor clock u u' =>
      with_row i (fun j => ignore (replay j actor clock u u'))
  | OpPurge t => ignore (purge_terminal_jobs t)
  end.

(** The committed table after the call (an exception closes the session). *)
Definition exec (o : op) (d : Db) : Db := sess_base (snd (run_op o (clean d))).

(** ** What a call can do to the table *)

Inductive row_step : Job -> Job -> Prop :=
  | rs_same j : row_step j j
  | rs_claim owner expires t j : status j = QUEUED -> row_step j (claim_values owner expires t j)
  | rs_renew t j : status j = RUNNING -> row_step j (set_lease_expires_at (Some t) j)
  | rs_complete t j : status j = RUNNING -> row_step j (completed t j)
  | rs_fail code detail t terminal j :
      status j = RUNNING -> row_step j (failed code detail t terminal j)
  | rs_promote j : status j = RETRY_WAIT -> row_step j (set_status QUEUED j)
  | rs_cancel t j : transition (status j) CANCELLED -> row_step j (cancelled t j).

Inductive born (d : Db) : Job -> Prop :=
  | born_enqueue a clock uuid :
      ea_idempotency_key a <> "" -> (1 <= ea_max_attempts a)%Z ->
      find_by_key (ea_org_id a) (ea_job_type a) (ea_idempotency_key a) d = None ->
      born d (new_job a clock uuid (next_id d))
  | born_replay i j actor clock uuid uuid' :
      get_job i d = Some j -> status j = FAILED ->
      born d (replay_job j actor clock uuid uuid' (next_id d)).

Inductive table_step (o : op) (d : Db) : Db -> Prop :=
  | ts_rows g l :
      (forall j, In j (jobs d) -> row_step j (g j)) ->
      table_step o d (mkJobDb (map g (jobs d)) (next_id d) l (world d))
  | ts_birth j l :
      born d j -> violates_unique j d = false ->
      table_step o d (mkJobDb (jobs d ++ [j]) (next_id d + 1) l (world d))
  | ts_purge t :
      o = OpPurge t ->
      table_step o d (with_jobs (List.filter (fun r => negb (purgeable t r))) d).

(** A producer asks for at least one attempt. *)
Definition op_ok (o : op) : Prop :=
  match o with OpEnqueue a _ _ => (1 <= ea_max_attempts a)%Z | _ => True end.

Lemma ts_none o d : table_step o d d.
Proof.
  destruct d as [l n a w]. pose proof (ts_rows o (mkJobDb l n a w) (fun j => j) a) as H.
  simpl in H. rewrite map_id in H. apply H. intros. constructor.
Qed.

Lemma ts_where o d p f l :
  (forall j, In j (jobs d) -> p j = true -> row_step j (f j)) ->
  table_step o d (mkJobDb (update_where p f (jobs d)) (next_id d) l (world d)).
Proof.
  intros H. apply (ts_rows o d (fun r => if p r then f r else r)).
  intros j Hj. destruct (p j) eqn:E; [auto|constructor].
Qed.

Lemma ts_upd o d j f l :
  ids_ok d -> get_job (id j) d = Some j -> row_step j (f j) ->
  table_step o d (mkJobDb (jobs (upd (id j) f d)) (next_id d) l (world d)).
Proof.
  intros Hd Hg H. apply ts_where. intros r Hr E.
  rewrite (fresh_row d j r); [done|done|done|done|lia].
Qed.

Lemma exec_with_row i k d :
  sess_base (snd (with_row i k (clean d))) =
  match get_job i d with Some j => sess_base (snd (k j (clean d))) | None => d end.
Proof. unfold with_row, mbind, mget. simpl. by destruct (get_job i d). Qed.

Lemma base_ignore {A} (c : M Db A) s : sess_base (snd (ignore c s)) = sess_base (snd (c s)).
Proof. unfold ignore, mbind, mret. destruct (c s) as [[a|e] s']; done. Qed.

Lemma exec_table_step o d : ids_ok d -> op_ok o -> table_step o d (exec o d).
Proof.
  intros Hd Hok. unfold exec. destruct o as [a clock uuid|owner jt secs now clock pg locked
    |i owner secs now clock|i now clock|i code detail now clock terminal|now clock|now clock
    |i actor clock|i actor clock u u'|t]; simpl run_op.
  - unfold enqueue. case_bool_decide as Hk; [apply ts_none|].
    unfold mbind, mget. simpl. destruct (find_by_key _ _ _ d) eqn:Hf; [apply ts_none|].
    unfold interfere, mtry, flush_insert, mret. simpl.
    destruct (violates_unique _ d) eqn:Hv; simpl.
    + unfold mget. simpl. rewrite Hf. apply ts_none.
    + apply ts_birth; [by constructor|done].
  - rewrite base_ignore. destruct (select_candidate_id jt (now_or now clock) pg locked d) as [i|] eqn:Hsel.
    + erewrite claim_race by (done || exact Hd).
      destruct (get_job i d) as [j|] eqn:Hg; [|apply ts_none].
      case_bool_decide as Hs; [|apply ts_none].
      destruct (get_job_Some _ _ _ Hg) as [_ <-]. apply ts_upd; [done|done|by constructor].
    + rewrite claim_none by done. apply ts_none.
  - rewrite exec_with_row. destruct (get_job i d) as [j|]; [|apply ts_none].
    rewrite base_ignore. apply ts_where. intros r Hr E.
    apply rs_renew. apply andb_prop in E as [[_ E]%andb_prop _]. by apply bool_decide_eq_true in E.
  - rewrite exec_with_row. destruct (get_job i d) as [j|] eqn:Hg; [|apply ts_none].
    destruct (get_job_Some _ _ _ Hg) as [_ <-].
    destruct (decide (status j = RUNNING)) as [Hs|Hs].
    + rewrite complete_ok by done. apply ts_upd; [done|done|by constructor].
    + rewrite complete_illegal by done. apply ts_none.
  - rewrite exec_with_row. destruct (get_job i d) as [j|] eqn:Hg; [|apply ts_none].
    destruct (get_job_Some _ _ _ Hg) as [_ <-]. rewrite base_ignore.
    destruct (decide (status j = RUNNING)) as [Hs|Hs].
    + rewrite fail_ok by done. apply ts_upd; [done|done|by constructor].
    + destruct (fail_illegal d j code detail now clock terminal Hs) as (e & s & -> & Hb).
      simpl. rewrite Hb. apply ts_none.
  - rewrite base_ignore. apply ts_where. intros r Hr E.
    apply rs_promote. apply andb_prop in E as [E _]. by apply bool_decide_eq_true in E.
  - rewrite base_ignore, recover_ok by done. apply ts_where. intros r Hr E.
    apply rs_fail. apply andb_prop in E as [E _]. by apply bool_decide_eq_true in E.
  - rewrite exec_with_row. destruct (get_job i d) as [j|] eqn:Hg; [|apply ts_none].
    destruct (get_job_Some _ _ _ Hg) as [_ <-].
    destruct (assert_transition_cases (status j) CANCELLED) as [[_ Ht]|[_ Ht]].
    + rewrite cancel_ok by done. cbn [snd clean sess_base].
      exact (ts_upd _ d j _ _ Hd Hg (rs_cancel clock j Ht)).
    + rewrite cancel_illegal by done. apply ts_none.
  - rewrite exec_with_row. destruct (get_job i d) as [j|] eqn:Hg; [|apply ts_none].
    rewrite base_ignore. unfold replay.
    case_bool_decide as Hs; simpl; [|apply ts_none].
    unfold mbind, flush_insert. simpl. destruct (violates_unique _ d) eqn:Hv; simpl; [apply ts_none|].
    match goal with |- table_step _ d (add_audit ?au _) =>
      exact (ts_birth _ d _ (audits d ++ [au]) (born_replay d i j actor clock u u' Hg Hs) Hv) end.
  - rewrite base_ignore. by apply ts_purge.
Qed.
End exec.

(** * The row invariant *)

Record job_wf (j : Job) : Prop := {
  wf_known : status j ∈ [QUEUED; RUNNING; SUCCEEDED; RETRY_WAIT; FAILED; CANCELLED];
  wf_attempts : (0 <= attempt j <= max_attempts j)%Z;
  wf_positive : (1 <= max_attempts j)%Z;
  wf_budget : status j = QUEUED \/ status j = RETRY_WAIT -> (attempt j < max_attempts j)%Z;
  wf_started : status j = RUNNING -> (1 <= attempt j)%Z;
  wf_owner : status j = RUNNING <-> is_Some (lease_owner j);
  wf_lease : status j = RUNNING <-> is_Some (lease_expires_at j);
  wf_finished : is_terminal (status j) = true <-> is_Some (finished_at j)
}.

(** One live row per (organisation, type, key) of an organisation. *)
Definition keys_unique (l : list Job) : Prop :=
  forall j j' o, In j l -> In j' l -> org_id j = Some o -> org_id j' = Some o ->
    job_type j = job_type j' -> idempotency_key j = idempotency_key j' -> id j = id j'.

Definition db_wf {W} (d : JobDb W) : Prop :=
  ids_ok d /\ Forall job_wf (jobs d) /\ keys_unique (jobs d).

(** What identifies a job never changes. *)
Definition same_job (j j' : Job) : Prop :=
  id j' = id j /\ job_id j' = job_id j /\ job_type j' = job_type j /\ org_id j' = org_id j /\
  idempotency_key j' = idempotency_key j /\ payload j' = payload j /\
  priority j' = priority j /\ max_attempts j' = max_attempts j /\
  requested_by j' = requested_by j /\ replay_of j' = replay_of j.

(** A legal evolution of a row across one call. *)
Definition evolves (j j' : Job) : Prop :=
  same_job j j' /\
  ((status j' = status j /\ attempt j' = attempt j) \/
   (transition (status j) (status j') /\
    attempt j' = attempt j + (if decide (status j' = RUNNING) then 1 else 0))%Z).

Lemma row_step_evolves j j' : row_step j j' -> evolves j j'.
Proof.
  intros H. destruct H as [j|ow secs t j Hs|t j Hs|t j Hs|code det t term j Hs|j Hs|t j Ht];
    (split; [unfold failed; repeat case_match; by repeat split|]).
  - by left.
  - right. split; [rewrite Hs; constructor|]. done.
  - by left.
  - right. split; [rewrite Hs; constructor|]. simpl. lia.
  - right. unfold failed. destruct (retries_left term j); simpl; rewrite Hs; split; (constructor || lia).
  - right. split; [rewrite Hs; constructor|]. simpl. lia.
  - right. split; [done|]. simpl. lia.
Qed.

(** Membership of a constant in a constant list. *)
Ltac const_elem := refine (bool_decide_unpack _ _); vm_compute; exact I.
Lemma not_some_none {A} (P : Prop) : ~ P -> (P <-> is_Some (@None A)).
Proof. intros H. split; [done|]. by intros []. Qed.
Lemma both_false (P Q : Prop) : ~ P -> ~ Q -> (P <-> Q).
Proof. naive_solver. Qed.
Lemma some_true {A} (P : Prop) (a : A) : P -> (P <-> is_Some (Some a)).
Proof. intros H. split; [eauto|done]. Qed.
(** The fields of [job_wf] for a row whose status is a constant. *)
Ltac wf_field :=
  try first [ assumption | const_elem | discriminate | lia
            | by (intros [?|?]; discriminate) | by (intros ?; (discriminate || lia))
            | by apply not_some_none | by apply some_true
            | by apply both_false ].

Lemma row_step_wf j j' : row_step j j' -> job_wf j -> job_wf j'.
Proof.
  intros H [Hk Ha Hp Hb Hr Ho Hl Hf].
  destruct H as [j|ow secs t j Hs|t j Hs|t j Hs|code det t term j Hs|j Hs|t j Ht];
    try (rewrite Hs in Ho, Hl, Hf, Hb, Hr); try specialize (Hr eq_refl).
  - by constructor.
  - specialize (Hb (or_introl eq_refl)). constructor; simpl; wf_field.
  - constructor; simpl; rewrite ?Hs; wf_field.
  - constructor; simpl; wf_field.
  - unfold failed, retries_left. destruct (negb term && _) eqn:Er.
    + apply andb_prop in Er as [_ Er]. constructor; simpl; wf_field.
    + constructor; simpl; wf_field.
  - specialize (Hb (or_intror eq_refl)). constructor; simpl; wf_field.
    + apply both_false; [discriminate|]. rewrite <- Ho. discriminate.
    + apply both_false; [discriminate|]. rewrite <- Hl. discriminate.
  - assert (Hn : status j <> RUNNING).
    { intros E. rewrite E in Ht. inversion Ht. }
    constructor; simpl; wf_field.
    + apply both_false; [discriminate|]. by rewrite <- Ho.
    + apply both_false; [discriminate|]. by rewrite <- Hl.
Qed.

Section wf.
Context {W : Type}.
Notation Db := (JobDb W).
Implicit Types (d : Db) (j : Job).

Lemma born_id d j : born d j -> id j = next_id d.
Proof. by destruct 1. Qed.
Lemma born_queued d j : born d j -> status j = QUEUED /\ attempt j = 0%Z.
Proof. by destruct 1. Qed.

Lemma born_wf d j : Forall job_wf (jobs d) -> born d j -> job_wf j.
Proof.
  intros Hwf Hb. assert (Hmax : (1 <= max_attempts j)%Z).
  { destruct Hb as [|i j0 ? ? ? ? Hg ?]; [done|]. simpl.
    apply get_job_Some in Hg as [Hj0%list_elem_of_In _].
    rewrite Forall_forall in Hwf. by apply Hwf. }
  destruct Hb; constructor; simpl in *; wf_field.
Qed.

Lemma row_step_id j j' : row_step j j' -> id j' = id j.
Proof. intros [[H _] _]%row_step_evolves. exact H. Qed.

Lemma ids_ok_step o d d' : ids_ok d -> table_step o d d' -> ids_ok d'.
Proof.
  intros [Hnd Hlt] Hstep. destruct Hstep as [g l Hg|j l Hb Hv|t Ht]; split; simpl.
  - replace (map id (map g (jobs d))) with (map id (jobs d)); [done|].
    rewrite map_map. apply map_ext_in. intros j Hj. symmetry. by apply row_step_id, Hg.
  - rewrite Forall_forall in *. intros j'.
    rewrite list_elem_of_In, in_map_iff. intros (j & <- & Hj).
    rewrite (row_step_id j) by auto. apply Hlt. by apply list_elem_of_In.
  - rewrite map_app. apply NoDup_app. split; [done|]. split; [|apply NoDup_singleton].
    intros i Hi Hin. simpl in Hin. apply list_elem_of_singleton in Hin as ->.
    apply list_elem_of_In, in_map_iff in Hi as (j' & E & Hj').
    rewrite Forall_forall in Hlt. apply list_elem_of_In, Hlt in Hj'.
    rewrite E, (born_id d j Hb) in Hj'. lia.
  - apply Forall_app. split.
    + eapply Forall_impl; [exact Hlt|]. simpl. lia.
    + constructor; [|constructor]. rewrite (born_id d j Hb). lia.
  - by apply NoDup_map_filter.
  - rewrite Forall_forall in *. intros j. rewrite list_elem_of_In, filter_In.
    intros [Hj _]. apply Hlt. by apply list_elem_of_In.
Qed.

Lemma not_violates d j j' o :
  violates_unique j d = false -> In j' (jobs d) -> org_id j = Some o -> org_id j' = Some o ->
  job_type j' = job_type j -> idempotency_key j' <> idempotency_key j.
Proof.
  unfold violates_unique. intros Hv Hj' Ho Ho' Ht Hk.
  rewrite <- not_true_iff_false in Hv. apply Hv. apply existsb_exists. exists j'.
  split; [done|]. rewrite Ho, Ho', Ht, Hk, Z.eqb_refl,
    (bool_decide_true (job_type j = job_type j)),
    (bool_decide_true (idempotency_key j = idempotency_key j)) by done.
  by rewrite orb_true_r.
Qed.

Lemma keys_unique_step o d d' : keys_unique (jobs d) -> table_step o d d' -> keys_unique (jobs d').
Proof.
  intros Hu Hstep. destruct Hstep as [g l Hg|j l Hb Hv|t Ht]; intros a b oo; simpl.
  - rewrite !in_map_iff. intros (a' & <- & Ha) (b' & <- & Hb).
    destruct (row_step_evolves _ _ (Hg a' Ha)) as [(Ea & _ & Eta & Eoa & Eka & _) _].
    destruct (row_step_evolves _ _ (Hg b' Hb)) as [(Eb & _ & Etb & Eob & Ekb & _) _].
    rewrite Ea, Eb, Eoa, Eob, Eta, Etb, Eka, Ekb. by apply Hu.
  - rewrite !in_app_iff. simpl. intros [Ha|[<-|[]]] [Hb'|[<-|[]]] Hoa Hob Ht Hk; try done.
    + by apply (Hu a b oo).
    + exfalso. by apply (not_violates d j a oo Hv Ha).
    + exfalso. by apply (not_violates d j b oo Hv Hb').
  - rewrite !filter_In. intros [Ha _] [Hb _]. by apply Hu.
Qed.

Lemma db_wf_step o d d' : db_wf d -> table_step o d d' -> db_wf d'.
Proof.
  intros (Hi & Hw & Hu) Hstep. split; [by eapply ids_ok_step|].
  split; [|by eapply keys_unique_step].
  destruct Hstep as [g l Hg|j l Hb Hv|t Ht]; simpl; rewrite Forall_forall in *.
  - intros j'. rewrite list_elem_of_In, in_map_iff. intros (j & <- & Hj).
    eapply row_step_wf; [by apply Hg|]. apply Hw. by apply list_elem_of_In.
  - intros j'. rewrite elem_of_app, list_elem_of_singleton. intros [Hj| ->]; [auto|].
    eapply born_wf; [|done]. by rewrite Forall_forall.
  - intros j. rewrite list_elem_of_In, filter_In. intros [Hj _].
    apply Hw. by apply list_elem_of_In.
Qed.

(** Any sequence of calls from an empty table. *)
Inductive reachable : Db -> Prop :=
  | reach_init n l w : reachable (mkJobDb [] n l w)
  | reach_step d o : reachable d -> op_ok o -> reachable (exec o d).

Lemma db_wf_exec o d : db_wf d -> op_ok o -> db_wf (exec o d).
Proof. intros H Ho. eapply db_wf_step; [done|]. apply exec_table_step; [apply H|done]. Qed.


(** The same, call by call: a purge, an update of rows, or a birth. *)
Lemma exec_cases o d :
  ids_ok d -> op_ok o ->
  (exists t, o = OpPurge t /\ jobs (exec o d) = List.filter (fun r => negb (purgeable t r)) (jobs d)) \/
  (exists g, (forall j, In j (jobs d) -> row_step j (g j)) /\ jobs (exec o d) = map g (jobs d)) \/
  (exists j, born d j /\ jobs (exec o d) = jobs d ++ [j]).
Proof.
  intros Hd Ho. destruct (exec_table_step o d Hd Ho) as [g l Hg|j l Hb Hv|t Ht]; simpl; eauto 6.
Qed.

Lemma reachable_ids_ok d : reachable d -> ids_ok d.
Proof.
  induction 1 as [n l w|d o _ IH Ho].
  - split; constructor.
  - eapply ids_ok_step; [exact IH|]. by apply exec_table_step.
Qed.

Lemma reachable_db_wf d : reachable d -> db_wf d.
Proof.
  induction 1 as [n l w|d o _ IH Ho].
  - split; [split; constructor|]. split; [constructor|]. by intros ???.
  - by apply db_wf_exec.
Qed.

(** A run of calls. *)
Definition execs (os : list op) (d : Db) : Db := foldl (fun d o => exec o d) d os.
End wf.

(** * Calls on an instance loaded earlier *)

(** A caller of the service: [Loads o] loads the row it works on in the call's
    transaction, as the endpoints and the recovery do; the others are given an
    instance that was loaded before, and that other transactions may have
    overtaken. *)
Inductive call :=
  | Loads (o : op)
  | RenewOn (j : Job) (owner : string) (secs : Z) (now : option Z) (clock : Z)
  | CompleteOn (j : Job) (now : option Z) (clock : Z)
  | FailOn (j : Job) (code : string) (detail : option string) (now : option Z) (clock : Z) (terminal : bool)
  | CancelOn (j : Job) (actor : option Z) (clock : Z)
  | ReplayOn (j : Job) (actor : option Z) (clock : Z) (uuid uuid' : string).

Section calls.
Context {W : Type}.
Notation Db := (JobDb W).
Implicit Types (d : Db) (j : Job).

Definition run_call (c : call) : M Db unit :=
  match c with
  | Loads o => run_op o
  | RenewOn j owner secs now clock => ignore (renew_lease j owner secs now clock)
  | CompleteOn j now clock => complete j now clock
  | FailOn j code detail now clock terminal => ignore (fail j code detail now clock terminal)
  | CancelOn j actor clock => cancel j actor clock
  | ReplayOn j actor clock u u' => ignore (replay j actor clock u u')
  end.
Definition exec_call (c : call) d : Db := sess_base (snd (run_call c (clean d))).
(** The instance is what the row holds, and a producer asks for an attempt. *)
Definition current (c : call) d : Prop :=
  match c with
  | Loads o => op_ok o
  | RenewOn j _ _ _ _ | CompleteOn j _ _ | FailOn j _ _ _ _ _ | CancelOn j _ _ | ReplayOn j _ _ _ _ => get_job (id j) d = Some j
  end.
(** Then the call is the one that loads its row. *)
Definition loading (c : call) : op :=
  match c with
  | Loads o => o
  | RenewOn j owner secs now clock => OpRenew (id j) owner secs now clock
  | CompleteOn j now clock => OpComplete (id j) now clock
  | FailOn j code detail now clock terminal => OpFail (id j) code detail now clock terminal
  | CancelOn j actor clock => OpCancel (id j) actor clock
  | ReplayOn j actor clock u u' => OpReplay (id j) actor clock u u'
  end.
Lemma exec_current c d : current c d -> op_ok (loading c) /\ exec_call c d = exec (loading c) d.
Proof.
  destruct c as [o|j o sec n cl|j n cl|j co de n cl te|j a cl|j a cl u u']; cbn [current loading]; intros H; (split; [by apply H || exact I|]);
    unfold exec_call, exec; cbn [run_call run_op]; [done|by rewrite exec_with_row, H..].
Qed.

(** ** What any call keeps *)
Definition known (st : string) : Prop := st ∈ [QUEUED; RUNNING; SUCCEEDED; RETRY_WAIT; FAILED; CANCELLED].
Definition keeps_row j j' : Prop := same_job j j' /\ (attempt j <= attempt j')%Z /\ (known (status j) -> known (status j')).
Lemma keeps_row_refl j : keeps_row j j.
Proof. repeat split; (done || lia). Qed.
Lemma keeps_row_trans a b c : keeps_row a b -> keeps_row b c -> keeps_row a c.
Proof.
  intros [(E0 & E1 & E2 & E3 & E4 & E5 & E6 & E7 & E8 & E9) [Ha Ka]] [(F0 & F1 & F2 & F3 & F4 & F5 & F6 & F7 & F8 & F9) [Hb Kb]].
  split; [|split; [lia|by eauto]]. unfold same_job. rewrite F0, F1, F2, F3, F4, F5, F6, F7, F8, F9. done.
Qed.
Inductive keeps_table d : Db -> Prop :=
  | kt_rows g l : (forall j, In j (jobs d) -> keeps_row j (g j)) -> keeps_table d (mkJobDb (map g (jobs d)) (next_id d) l (world d))
  | kt_birth j l : id j = next_id d -> status j = QUEUED -> attempt j = 0%Z -> violates_unique j d = false ->
      keeps_table d (mkJobDb (jobs d ++ [j]) (next_id d + 1) l (world d))
  | kt_purge p : keeps_table d (with_jobs (List.filter p) d).
Lemma kt_none d : keeps_table d d.
Proof.
  destruct d as [l n a w]. pose proof (kt_rows (mkJobDb l n a w) (fun j => j) a) as H. simpl in H. rewrite map_id in H. apply H. intros. apply keeps_row_refl.
Qed.
Lemma row_step_keeps j j' : row_step j j' -> keeps_row j j'.
Proof.
  intros H. pose proof (row_step_evolves _ _ H) as [Hs He]. split; [done|]. split.
  - destruct He as [[_ ->]|[_ ->]]; [lia|]. destruct (decide _); lia.
  - intros Hk. destruct H as [j|ow secs t j Hs'|t j Hs'|t j Hs'|code det t term j Hs'|j Hs'|t j Ht]; try done; try const_elem.
    unfold failed. destruct (retries_left term j); const_elem.
Qed.
Lemma table_step_keeps o d d' : table_step o d d' -> keeps_table d d'.
Proof.
  destruct 1 as [g l Hg|j l Hb Hv|t _]; [|by constructor; [apply born_id|apply (born_queued _ _ Hb)|apply (born_queued _ _ Hb)|]|constructor].
  constructor. intros j Hj. by apply row_step_keeps, Hg.
Qed.
Lemma exec_keeps o d : ids_ok d -> keeps_table d (exec o d).
Proof.
  intros Hd. destruct o as [a clock uuid| | | | | | | | |]; try (eapply table_step_keeps, exec_table_step; [done|exact I]).
  unfold exec. cbn [run_op]. unfold enqueue. case_bool_decide as Hk; [apply kt_none|].
  unfold mbind, mget. simpl. destruct (find_by_key _ _ _ d) eqn:Hf; [apply kt_none|].
  unfold interfere, mtry, flush_insert, mret. simpl. destruct (violates_unique _ d) eqn:Hv; simpl.
  - unfold mget. simpl. rewrite Hf. apply kt_none.
  - by apply kt_birth.
Qed.
(** Attribute changes that leave what identifies the job and its attempts. *)
Lemma write_keeps j new r : same_job j new -> attempt new = attempt j -> status new = status j \/ known (status new) -> keeps_row r (write_changes j new r).
Proof.
  intros (E0 & E1 & E2 & E3 & E4 & E5 & E6 & E7 & E8 & E9) Ea Hk. split; [|split].
  - unfold same_job, write_changes; simpl. rewrite E0, E1, E2, E3, E4, E5, E6, E7, E8, E9. by rewrite !changed_kept.
  - simpl. rewrite Ea, changed_kept. lia.
  - intros Hr. simpl. unfold changed. destruct (decide _); [done|]. by destruct Hk.
Qed.
Lemma dirty_keeps j new d : same_job j new -> attempt new = attempt j -> status new = status j \/ known (status new) ->
  keeps_table d (with_jobs (update_where (fun r => (id r =? id j)%Z) (write_changes j new)) d).
Proof.
  intros. apply (kt_rows d (fun r => if (id r =? id j)%Z then write_changes j new r else r)). intros r _.
  destruct (_ =? _)%Z; [by apply write_keeps|apply keeps_row_refl].
Qed.
Definition dirty j new d : Db := with_jobs (update_where (fun r => (id r =? id j)%Z) (write_changes j new)) d.
Lemma dirty_twice_keeps j new new' d : same_job j new -> attempt new = attempt j -> status new = status j \/ known (status new) ->
  same_job j new' -> attempt new' = attempt j -> status new' = status j \/ known (status new') -> keeps_table d (dirty j new' (dirty j new d)).
Proof.
  intros. unfold dirty, with_jobs, update_where. cbn [jobs next_id audits world]. rewrite map_map.
  apply (kt_rows d (fun r => let r' := if (id r =? id j)%Z then write_changes j new r else r in if (id r' =? id j)%Z then write_changes j new' r' else r')).
  intros r _. cbv zeta. eapply keeps_row_trans; [|destruct (_ =? _)%Z; [by apply write_keeps|apply keeps_row_refl]].
  destruct (_ =? _)%Z; [by apply write_keeps|apply keeps_row_refl].
Qed.
(** The base of a session after a change of attributes that is flushed and
    committed with what follows it. *)
Lemma flush_run {A} j new (s : Session Db) (k : unit -> M Db A) :
  mbind (flush_update j new) k s = (Raise StaleDataError, s) \/
  mbind (flush_update j new) k s = k tt (mkSession (dirty j new (sess_db s)) (sess_base s)).
Proof. unfold mbind, flush_update. destruct (get_job _ _); [by right|by left]. Qed.
Ltac flush_cases := match goal with |- context [mbind (flush_update ?j ?n) ?k ?s] => destruct (flush_run j n s k) as [-> | ->] end.
Lemma complete_keeps j now clock d : keeps_table d (exec_call (CompleteOn j now clock) d).
Proof.
  unfold exec_call. cbn [run_call]. unfold complete. destruct (assert_transition_cases (status j) SUCCEEDED) as [[E _]|[E _]];
    unfold mbind at 1, mlift; rewrite E; [|apply kt_none].
  flush_cases; [apply kt_none|]. by apply dirty_keeps; [|done|right; const_elem].
Qed.
Lemma cancel_keeps j actor clock d : keeps_table d (exec_call (CancelOn j actor clock) d).
Proof.
  unfold exec_call. cbn [run_call]. unfold cancel. destruct (assert_transition_cases (status j) CANCELLED) as [[E _]|[E _]];
    unfold mbind at 1, mlift; rewrite E; [|apply kt_none]. cbv zeta.
  flush_cases; [apply kt_none|].
  cbn. apply (kt_rows d (fun r => if (id r =? id j)%Z then write_changes j (set_finished_at (Some clock) (set_status CANCELLED j)) r else r)). intros r _.
  destruct (_ =? _)%Z; [apply write_keeps; [done|done|right; const_elem]|apply keeps_row_refl].
Qed.
Lemma fail_keeps j code detail now clock terminal d : keeps_table d (exec_call (FailOn j code detail now clock terminal) d).
Proof.
  unfold exec_call. cbn [run_call]. rewrite base_ignore. unfold fail. cbv zeta. unfold mbind at 1, mark_dirty, mmodify.
  destruct (negb terminal && _).
  all: match goal with |- context [assert_transition ?a ?b] => destruct (assert_transition_cases a b) as [[E _]|[E _]] end;
    unfold mbind at 1, mlift; rewrite E; [|apply kt_none];
    flush_cases; [apply kt_none|]; apply dirty_twice_keeps; (done || (by left) || (right; const_elem)).
Qed.
Lemma replay_keeps j actor clock u u' d : keeps_table d (exec_call (ReplayOn j actor clock u u') d).
Proof.
  unfold exec_call. cbn [run_call]. rewrite base_ignore. unfold replay. destruct (negb _); [apply kt_none|].
  unfold mbind, flush_insert. cbn [sess_db clean]. destruct (violates_unique _ d) eqn:Hv; [apply kt_none|].
  match goal with |- context [audit ?a ?b ?c ?e] => cbn [audit mbind mmodify commit mret snd sess_base sess_db add_audit jobs next_id audits world] end.
  match goal with |- keeps_table _ ?x => let l := eval cbn in (audits x) in by apply (kt_birth d (replay_job j actor clock u u' (next_id d)) l) end.
Qed.
Lemma renew_keeps j owner secs now clock d : keeps_table d (exec_call (RenewOn j owner secs now clock) d).
Proof.
  unfold exec_call. cbn [run_call]. rewrite base_ignore. unfold renew_lease. cbn.
  match goal with |- keeps_table _ (with_jobs (update_where ?p ?f) _) => apply (kt_rows d (fun r => if p r then f r else r)) end.
  intros r _. destruct (_ && _); [|apply keeps_row_refl]. repeat split; (done || lia).
Qed.
Lemma exec_call_keeps c d : ids_ok d -> keeps_table d (exec_call c d).
Proof.
  intros Hd. destruct c; [by apply exec_keeps|apply renew_keeps|apply complete_keeps|apply fail_keeps|apply cancel_keeps|apply replay_keeps].
Qed.

(** ** What no call can break *)
Record db_kept d : Prop := {
  dk_ids : ids_ok d; dk_keys : keys_unique (jobs d);
  dk_rows : Forall (fun j => known (status j) /\ (0 <= attempt j)%Z) (jobs d) }.
Lemma keeps_kept d d' : db_kept d -> keeps_table d d' -> db_kept d'.
Proof.
  intros [[Hnd Hlt] Hu Hr] Hk. rewrite Forall_forall in Hr. destruct Hk as [g l Hg|j l Hi Hs Ha Hv|p].
  - assert (Hid : map id (map g (jobs d)) = map id (jobs d)).
    { rewrite map_map. apply map_ext_in. intros j Hj. apply (Hg j Hj). }
    constructor; [split; cbn; [by rewrite Hid|]|..]; cbn.
    + apply Forall_map. rewrite Forall_forall in *. intros j Hj. cbn. destruct (Hg j) as [(-> & _) _]; [by apply list_elem_of_In|]. by apply Hlt.
    + intros a b o. rewrite !in_map_iff. intros (a' & <- & Ha) (b' & <- & Hb).
      destruct (Hg a' Ha) as [(Ea & _ & Eta & Eoa & Eka & _) _]. destruct (Hg b' Hb) as [(Eb & _ & Etb & Eob & Ekb & _) _].
      rewrite Ea, Eb, Eoa, Eob, Eta, Etb, Eka, Ekb. by apply Hu.
    + apply Forall_map, Forall_forall. intros j Hj. destruct (Hr j Hj) as [H1 H2]. destruct (Hg j) as (_ & H3 & H4); [by apply list_elem_of_In|].
      split; [by apply H4|lia].
  - constructor; cbn.
    + split; cbn.
      * rewrite map_app. apply NoDup_app. split; [done|]. split; [|apply NoDup_singleton]. intros i Hin Hi'. apply list_elem_of_singleton in Hi' as ->.
        apply list_elem_of_In, in_map_iff in Hin as (r & E & Hin%list_elem_of_In). rewrite Forall_forall in Hlt. apply Hlt in Hin. lia.
      * apply Forall_app. split; [eapply Forall_impl; [exact Hlt|]; cbn; lia|]. apply Forall_singleton. lia.
    + intros a b oo. rewrite !in_app_iff. simpl. intros [Ha'|[<-|[]]] [Hb'|[<-|[]]] Hoa Hob Ht Hkk; try done.
      * by apply (Hu a b oo).
      * exfalso. by apply (not_violates d j a oo Hv Ha').
      * exfalso. by apply (not_violates d j b oo Hv Hb').
    + apply Forall_app. split; [by apply Forall_forall|]. apply Forall_singleton. rewrite Hs, Ha. split; [const_elem|done].
  - constructor; cbn.
    + split; cbn; [by apply NoDup_map_filter|]. rewrite Forall_forall in *. intros j [Hj _]%list_elem_of_In%filter_In. by apply Hlt, list_elem_of_In.
    + intros a b o [Ha _]%filter_In [Hb _]%filter_In. by apply Hu.
    + apply Forall_forall. intros j [Hj _]%list_elem_of_In%filter_In. by apply Hr, list_elem_of_In.
Qed.

(** Every history of calls from an empty table, one transaction after the other;
    [true] when every call was made on a current instance. *)
Inductive served : bool -> Db -> Prop :=
  | served_init n l w : served true (mkJobDb [] n l w)
  | served_current b d c : served b d -> current c d -> served b (exec_call c d)
  | served_stale b d c : served b d -> served false (exec_call c d).
Lemma served_kept b d : served b d -> db_kept d.
Proof.
  induction 1 as [n l w|b d c _ IH _|b d c _ IH].
  - constructor; [split; constructor|by intros ???|constructor].
  - eapply keeps_kept; [exact IH|]. apply exec_call_keeps, IH.
  - eapply keeps_kept; [exact IH|]. apply exec_call_keeps, IH.
Qed.
Lemma served_wf b d : served b d -> b = true -> db_wf d.
Proof.
  induction 1 as [n l w|b d c _ IH Hc|b d c _ IH]; intros E; [| |done].
  - split; [split; constructor|]. split; [constructor|]. by intros ???.
  - destruct (exec_current c d Hc) as [Ho ->]. apply db_wf_exec; [by apply IH|done].
Qed.
End calls.
