(* ===== verification/JobClaims.v ===== *)
(** What the durable queue guarantees: keys, statuses and ids over every sequence
    of service calls, the row invariant where no call is given an instance that
    was overtaken, the finite state machine on whole tables, and that
    terminal rows are frozen. *)
From S2P Require Import Prelude PyStr PyJson JobModel JobService JobFacts JobExec.
Open Scope string_scope.
Open Scope list_scope.
Local Open Scope py_scope.

Section claims.
Context {W : Type}.
Notation Db := (JobDb W).
Implicit Types (d : Db) (j : Job).

(** ** Shared lemmas *)

Lemma row_step_terminal j j' : row_step j j' -> is_terminal (status j) = true -> j' = j.
Proof.
  intros H Ht. destruct H as [j|ow secs t j Hs|t j Hs|t j Hs|code det t term j Hs|j Hs|t j Hc];
    try done; try (rewrite Hs in Ht; discriminate).
  by apply terminal_no_transition in Hc.
Qed.

(** Every row with the id of [j] is [j] itself, and no new row takes the id. *)
Definition frozen j d : Prop :=
  (id j < next_id d)%Z /\ forall r, In r (jobs d) -> id r = id j -> r = j.

Lemma frozen_step o j d d' :
  is_terminal (status j) = true -> table_step o d d' -> frozen j d -> frozen j d'.
Proof.
  intros Ht Hstep [Hlt Hf].
  destruct Hstep as [g l Hg|a l Hb Hv|t _]; split; simpl; try done; try lia.
  - intros r (r' & <- & Hr)%in_map_iff Hid. pose proof (Hg r' Hr) as Hgr.
    rewrite (row_step_id _ _ Hgr) in Hid. rewrite (Hf r' Hr Hid) in *.
    by apply row_step_terminal.
  - intros r [Hr|[<-|[]]]%in_app_iff Hid; [auto|]. rewrite (born_id d a Hb) in Hid. lia.
  - intros r [Hr _]%filter_In. auto.
Qed.

Lemma frozen_execs j os d :
  is_terminal (status j) = true -> Forall op_ok os -> ids_ok d -> frozen j d ->
  frozen j (execs os d).
Proof.
  intros Ht Hos. revert d. induction Hos as [|o os Ho _ IH]; intros d Hd Hf; [done|].
  pose proof (exec_table_step o d Hd Ho) as Hst.
  apply IH; [by eapply ids_ok_step|by eapply frozen_step].
Qed.

(** ** The invariant *)

(** C1: Over every history of enqueue, claim, renew, complete, fail, promote,
    recover, cancel, replay and purge calls, one transaction after the other,
    also when a call is given an instance that other transactions have overtaken:
    every status is one of the machine's, no attempt count is negative, ids are
    unique, and there is one row per (organisation, type, idempotency key). If
    each instance still was what its row held, and each producer asked for at
    least one attempt, every row also keeps the queue's invariant: attempts
    between 0 and [max_attempts], strictly below it while queued or waiting; a
    lease owner and expiry exactly while running; a finish time exactly when
    terminal. *)
Theorem reachable_wf b d : served b d -> db_kept d /\ (b = true -> db_wf d).
Proof. intros H. split; [by eapply served_kept|by apply (served_wf b)]. Qed.

(** ** The finite state machine on whole tables *)

(** One service call moves every row by at most one edge of the state
    machine, [attempt] growing by one exactly on an edge into [running] and
    what identifies the job never changing; a row disappears only when the
    call purges it, terminal and finished before the cut-off; and a new row
    appears only with the next id, queued, with no attempt made. *)
Theorem exec_respects_fsm o d :
  ids_ok d -> op_ok o ->
  (forall j, In j (jobs d) ->
     (exists j', In j' (jobs (exec o d)) /\ evolves j j') \/
     (exists t, o = OpPurge t /\ purgeable t j = true)) /\
  (forall j', In j' (jobs (exec o d)) ->
     (exists j, In j (jobs d) /\ evolves j j') \/
     (id j' = next_id d /\ status j' = QUEUED /\ attempt j' = 0%Z)).
Proof.
  intros Hd Ho. destruct (exec_cases o d Hd Ho) as [(t & -> & Hj)|[(g & Hg & Hj)|(a & Hb & Hj)]];
    rewrite Hj; split; intros j.
  - intros Hin. destruct (purgeable t j) eqn:E; [eauto|left]. exists j.
    rewrite filter_In, E. split; [done|]. apply row_step_evolves. constructor.
  - intros [Hin _]%filter_In. left. exists j. split; [done|]. apply row_step_evolves. constructor.
  - intros Hin. left. exists (g j). split; [by apply in_map|]. by apply row_step_evolves, Hg.
  - intros (r & <- & Hr)%in_map_iff. left. exists r. split; [done|]. by apply row_step_evolves, Hg.
  - intros Hin. left. exists j. rewrite in_app_iff. split; [auto|]. apply row_step_evolves. constructor.
  - intros [Hin|[<-|[]]]%in_app_iff.
    + left. exists j. split; [done|]. apply row_step_evolves. constructor.
    + right. split; [by apply (born_id d)|]. by apply (born_queued d).
Qed.

(** A terminal row is never written again: after any sequence of service
    calls the row with its id is exactly the same row, or gone (purged), and
    its id is never given to another job. *)
Theorem terminal_frozen os d j :
  reachable d -> In j (jobs d) -> is_terminal (status j) = true -> Forall op_ok os ->
  forall r, In r (jobs (execs os d)) -> id r = id j -> r = j.
Proof.
  intros Hd Hj Ht Hos. apply (frozen_execs j os d Ht Hos).
  - by apply reachable_ids_ok.
  - destruct (reachable_ids_ok d Hd) as [Hnd Hlt]. rewrite Forall_forall in Hlt. split.
    + apply Hlt. by apply list_elem_of_In.
    + intros r Hr E. by apply (NoDup_map_inj id (jobs d)).
Qed.

End claims.

(** The three-call run used by the witnesses: enqueue, claim, fail. *)
Definition demo_args : EnqueueArgs :=
  mkEnqueue "report.execute" (Some 7%Z) "reports:1:adhoc" None None 100 3 None None 1.
Definition demo0 : JobDb unit := mkJobDb [] 1 [] tt.
Definition demo1 : JobDb unit := exec (OpEnqueue demo_args 1000 "u1") demo0.
Definition demo2 : JobDb unit := exec (OpClaim "w1" None 60 (Some 2000%Z) 0 false []) demo1.
Definition demo3 : JobDb unit := exec (OpFail 1 "Boom" None (Some 3000%Z) 0 false) demo2.

Lemma demo3_reachable : reachable demo3.
Proof. repeat (apply reach_step; [|vm_compute; done || discriminate]). apply reach_init. Defined.

(** The worker fails the attempt with the instance its claim gave it, and an
    operator then cancels the job with one loaded while it was queued. *)
Definition demo_claimed : Job := claimed "w1" 60 2000 (new_job demo_args 1000 "u1" 1).
Definition demo4 : JobDb unit := exec_call (FailOn demo_claimed "Boom" None (Some 3000%Z) 0 false) demo2.
Definition demo5 : JobDb unit := exec_call (CancelOn (new_job demo_args 1000 "u1" 1) None 4000) demo2.
Lemma demo2_served : served true demo2.
Proof.
  apply (served_current true demo1 (Loads (OpClaim "w1" None 60 (Some 2000%Z) 0 false []))); [|exact I].
  apply (served_current true demo0 (Loads (OpEnqueue demo_args 1000 "u1"))); [apply served_init|vm_compute; discriminate].
Defined.
Lemma reachable_wf_witness :
  map status (jobs demo4) = [RETRY_WAIT] /\ (db_kept demo4 /\ (true = true -> db_wf demo4)) /\
  map lease_owner (jobs demo5) = [Some "w1"] /\ map status (jobs demo5) = [CANCELLED] /\ (db_kept demo5 /\ (false = true -> db_wf demo5)).
Proof.
  split; [vm_compute; reflexivity|]. split.
  - apply reachable_wf. apply (served_current true demo2 (FailOn demo_claimed "Boom" None (Some 3000%Z) 0 false)); [exact demo2_served|]. vm_compute. reflexivity.
  - split; [vm_compute; reflexivity|]. split; [vm_compute; reflexivity|].
    apply reachable_wf. apply (served_stale true demo2 (CancelOn (new_job demo_args 1000 "u1" 1) None 4000)). exact demo2_served.
Defined.

Definition demo_failed : Job :=
  failed "Boom" None 3000 true (claimed "w1" 60 2000 (new_job demo_args 1000 "u1" 1)).
Definition demo3' : JobDb unit := exec (OpFail 1 "Boom" None (Some 3000%Z) 0 true) demo2.
Lemma demo3'_reachable : reachable demo3'.
Proof. repeat (apply reach_step; [|vm_compute; done || discriminate]). apply reach_init. Defined.

Lemma terminal_frozen_witness :
  jobs (execs [OpCancel 1 None 4000; OpReplay 1 None 5000 "u2" "v2"] demo3') <> [] /\
  forall r, In r (jobs (execs [OpCancel 1 None 4000; OpReplay 1 None 5000 "u2" "v2"] demo3')) ->
    id r = id demo_failed -> r = demo_failed.
Proof.
  split; [vm_compute; discriminate|].
  apply terminal_frozen; [exact demo3'_reachable|vm_compute; auto|reflexivity|].
  repeat constructor.
Defined.

Lemma exec_respects_fsm_witness :
  (forall j, In j (jobs demo1) ->
     (exists j', In j' (jobs (exec (OpComplete 1 None 5) demo1)) /\ evolves j j') \/
     (exists t, OpComplete 1 None 5 = OpPurge t /\ purgeable t j = true)) /\
  (forall j', In j' (jobs (exec (OpComplete 1 None 5) demo1)) ->
     (exists j, In j (jobs demo1) /\ evolves j j') \/
     (id j' = next_id demo1 /\ status j' = QUEUED /\ attempt j' = 0%Z)).
Proof.
  apply exec_respects_fsm; [|exact I]. split; vm_compute; repeat constructor. set_solver.
Defined.
