(* ===== verification/JobGuarantees.v ===== *)
(** The contracts of the single services: which job a claim takes, that no two
    workers are handed the same attempt under any interleaving, exact recovery,
    replay and retention, and the backoff schedule. *)
From S2P Require Import Prelude PyStr PyJson JobModel JobService JobFacts JobExec.
Open Scope string_scope.
Open Scope list_scope.
Local Open Scope py_scope.

(** * Interleaved workers *)

(** The table, the candidates workers have selected and not yet tried to take,
    and the (job, attempt) pairs handed out so far. *)
Record Sys (W : Type) := mkSys { tbl : JobDb W; picked : list Z; served : list (Z * Z) }.
Arguments mkSys {W} _ _ _.
Arguments tbl {W} _.
Arguments picked {W} _.
Arguments served {W} _.

Section interleaving.
Context {W : Type}.
Notation Db := (JobDb W).
Implicit Types (d : Db) (j : Job).

(** The two halves of [claim] are separate steps; between them other workers
    take both halves of theirs, and any other service call may run. *)
Inductive sys_step (s : Sys W) : Sys W -> Prop :=
  | ss_op o : op_ok o -> sys_step s (mkSys (exec o (tbl s)) (picked s) (served s))
  | ss_select jt now pg locked i :
      select_candidate_id jt now pg locked (tbl s) = Some i ->
      sys_step s (mkSys (tbl s) (i :: picked s) (served s))
  | ss_take i owner expires now j s' :
      i ∈ picked s ->
      claim_take i owner expires now (clean (tbl s)) = (Ok (Some j), s') ->
      sys_step s (mkSys (sess_base s') (picked s) (served s ++ [(id j, attempt j)]))
  | ss_lose i owner expires now s' :
      i ∈ picked s ->
      claim_take i owner expires now (clean (tbl s)) = (Ok None, s') ->
      sys_step s (mkSys (sess_base s') (picked s) (served s)).

Inductive sys_reachable : Sys W -> Prop :=
  | sr_init d : reachable d -> sys_reachable (mkSys d [] [])
  | sr_step s s' : sys_reachable s -> sys_step s s' -> sys_reachable s'.

(** An attempt handed out stays at or below the row's counter. *)
Definition behind d (p : Z * Z) : Prop :=
  (p.1 < next_id d)%Z /\ forall r, In r (jobs d) -> id r = p.1 -> (p.2 <= attempt r)%Z.

Lemma evolves_attempt j j' : evolves j j' -> (attempt j <= attempt j')%Z.
Proof. intros [_ [[_ ->]|[_ ->]]]; [lia|]. case_decide; lia. Qed.

Lemma behind_step o d d' p : table_step o d d' -> behind d p -> behind d' p.
Proof.
  intros Hst [Hlt Hb]. destruct Hst as [g l Hg|a l Hborn Hv|t _]; split; simpl; try done; try lia.
  - intros r (r' & <- & Hr)%in_map_iff E. pose proof (Hg r' Hr) as H.
    rewrite (row_step_id _ _ H) in E.
    etransitivity; [by apply Hb|]. by apply evolves_attempt, row_step_evolves.
  - intros r [Hr|[<-|[]]]%in_app_iff E; [auto|]. rewrite (born_id d a Hborn) in E. lia.
  - intros r [Hr _]%filter_In. auto.
Qed.

(** A successful take is a row step, onto a fresh attempt number. *)
Lemma take_step d i owner expires now r s' :
  ids_ok d -> claim_take i owner expires now (clean d) = (r, s') ->
  ids_ok (sess_base s') /\ next_id (sess_base s') = next_id d /\
  match r with
  | Ok (Some j) =>
      exists j0, In j0 (jobs d) /\ id j0 = i /\ status j0 = QUEUED /\
        j = claim_values owner expires now j0 /\
        sess_base s' = upd i (claim_values owner expires now) d
  | _ => sess_base s' = d
  end.
Proof.
  intros Hd. rewrite claim_take_spec by done. destruct (get_job i d) as [j0|] eqn:Hg.
  - destruct (get_job_Some _ _ _ Hg) as [Hin Hid]. case_bool_decide; intros [= <- <-]; simpl.
    + split; [by apply ids_ok_upd|]. eauto 10.
    + done.
  - intros [= <- <-]. done.
Qed.

Lemma behind_take d i owner expires now p :
  behind d p -> behind (upd i (claim_values owner expires now) d) p.
Proof.
  intros [Hlt Hb]. split; [done|]. intros r (r0 & Hr & [[E ->]|[E ->]])%in_upd.
  - simpl. intros Hid. specialize (Hb r0 Hr Hid). lia.
  - by apply Hb.
Qed.

Lemma sys_invariant s :
  sys_reachable s -> ids_ok (tbl s) /\ NoDup (served s) /\ Forall (behind (tbl s)) (served s).
Proof.
  induction 1 as [d Hd|s s' _ (Hi & Hn & Hb) Hst]; simpl.
  - split; [|repeat constructor].
    by apply reachable_ids_ok.
  - destruct Hst as [o Ho|jt now pg lo i Hsel|i ow ex now j s' Hp Ht|i ow ex now s' Hp Ht]; simpl.
    + pose proof (exec_table_step o (tbl s) Hi Ho) as Hts.
      split; [by eapply ids_ok_step|]. split; [done|].
      eapply Forall_impl; [exact Hb|]. intros p. by apply (behind_step o).
    + done.
    + destruct (take_step _ _ _ _ _ _ _ Hi Ht) as (Hi' & Hnx & j0 & Hin & Hid & Hq & -> & Hbase).
      split; [done|]. rewrite Forall_forall in Hb. split.
      * apply NoDup_app. split; [done|]. split; [|apply NoDup_singleton].
        intros p Hp' E%list_elem_of_singleton. subst p. simpl in Hp'.
        destruct (Hb _ Hp') as [_ Hle]. specialize (Hle j0 Hin eq_refl). simpl in Hle. lia.
      * rewrite Hbase. apply Forall_app. split.
        -- apply Forall_forall. intros p Hp'. by apply behind_take, Hb.
        -- constructor; [|constructor]. split; simpl.
           ++ destruct Hi as [_ Hlt]. rewrite Forall_forall in Hlt. apply Hlt.
              by apply list_elem_of_In.
           ++ intros r Hr E. apply in_upd in Hr as (r0 & Hr & [[E' ->]|[E' ->]]).
              ** rewrite (NoDup_map_inj id (jobs (tbl s)) r0 j0); [done|apply Hi|done|done|lia].
              ** congruence.
    + destruct (take_step _ _ _ _ _ _ _ Hi Ht) as (_ & _ & ->). done.
Qed.
End interleaving.

Section claims.
Context {W : Type}.
Notation Db := (JobDb W).
Implicit Types (d : Db) (j : Job).

(** C2: No two claims are ever handed the same attempt of a job: with the
    select and the compare-and-set of any number of workers, and any other
    service calls (lease recovery and retries included), interleaved in any
    order, the (job, attempt) pairs the successful claims return are pairwise
    distinct. *)
Theorem claims_exclusive (s : Sys W) : sys_reachable s -> NoDup (served s).
Proof. intros H. by apply sys_invariant in H as (_ & H & _). Qed.

(** An undisturbed claim returns nothing and changes nothing when every
    due job of the type is locked by another transaction; otherwise it takes
    a due, unlocked job that no other such job precedes in (priority,
    available_at, id), leaves it running under the caller's lease with one
    more attempt, commits exactly that update, and returns the updated row. *)
Theorem claim_least d owner jt secs now clock pg locked :
  ids_ok d ->
  let t := now_or now clock in
  match claim owner jt secs now clock pg locked (fun d => d) (clean d) with
  | (Ok None, s) => s = clean d /\
      forall j, In j (jobs d) -> due jt t j = true -> pg = true /\ id j ∈ locked
  | (Ok (Some j'), s) => exists j,
      In j (jobs d) /\ due jt t j = true /\ (pg = true -> id j ∉ locked) /\
      (forall k, In k (jobs d) -> due jt t k = true -> (pg = true -> id k ∉ locked) ->
         k = j \/ claim_order j k = true) /\
      j' = claim_values owner (t + secs * SECOND) t j /\
      s = clean (upd (id j) (claim_values owner (t + secs * SECOND) t) d)
  | (Raise _, _) => False
  end.
Proof.
  intros Hd t. destruct (select_candidate_id jt t pg locked d) as [i|] eqn:Hsel.
  - erewrite claim_race by (done || exact Hd).
    apply select_candidate_Some in Hsel as (j & Hj & <- & Hdue & Hl & Hmin).
    rewrite (get_job_In d j Hd Hj), (bool_decide_true (status j = QUEUED));
      [|by eapply due_queued]. exists j. done.
  - rewrite claim_none by done. split; [done|]. by apply select_candidate_None.
Qed.

(** The delay before the retry of attempt [n] is
    [min (10 * 2^(n-1)) 3600] seconds: ten seconds for the first, doubling up
    to the ninth attempt, capped at one hour from the tenth on. *)
Theorem backoff_schedule n :
  (10 <= backoff n <= 3600)%Z /\ (backoff n <= backoff (n + 1))%Z /\
  (n <= 1 -> backoff n = 10)%Z /\
  (1 <= n < 9 -> backoff (n + 1) = 2 * backoff n)%Z /\
  (10 <= n -> backoff n = 3600)%Z.
Proof.
  unfold backoff, BACKOFF_BASE_SECONDS, BACKOFF_CAP_SECONDS.
  assert (Hp : (1 <= 2 ^ Z.max (n - 1) 0)%Z).
  { change 1%Z with (2 ^ 0)%Z at 1. apply Z.pow_le_mono_r; lia. }
  assert (Hm : (2 ^ Z.max (n - 1) 0 <= 2 ^ Z.max (n + 1 - 1) 0)%Z)
    by (apply Z.pow_le_mono_r; lia).
  repeat split; try lia.
  - intros Hn. replace (Z.max (n - 1) 0) with 0%Z by lia. done.
  - intros Hn. assert (H : (n = 1 \/ n = 2 \/ n = 3 \/ n = 4 \/ n = 5 \/ n = 6 \/ n = 7 \/ n = 8)%Z) by lia.
    repeat (destruct H as [->|H]; [done|]). by subst.
  - intros Hn. assert (2 ^ 9 <= 2 ^ Z.max (n - 1) 0)%Z by (apply Z.pow_le_mono_r; lia). lia.
Qed.

(** The recovery supervisor is exact: it commits [fail] on every running
    row whose lease expired before [t] and on no other row, reports their
    number, leaves no expired lease behind, and each of them ends unleased,
    waiting for a retry when attempts remain and failed otherwise. *)
Theorem recover_exact d now clock :
  ids_ok d ->
  let t := now_or now clock in
  let d' := sess_base (snd (recover_abandoned_leases now clock (clean d))) in
  fst (recover_abandoned_leases now clock (clean d))
    = Ok (count_where (lease_expired t) (jobs d)) /\
  count_where (lease_expired t) (jobs d') = 0%Z /\
  jobs d' = map (fun r => if lease_expired t r then abandoned t r else r) (jobs d) /\
  (forall j, In j (jobs d) -> lease_expired t j = true ->
     let j' := abandoned t j in
     lease_owner j' = None /\ lease_expires_at j' = None /\
     error_code j' = Some "lease_expired" /\
     if (attempt j <? max_attempts j)%Z
     then status j' = RETRY_WAIT /\ available_at j' = (t + backoff (attempt j) * SECOND)%Z
     else status j' = FAILED /\ finished_at j' = Some t).
Proof.
  intros Hd t d'. unfold d'. rewrite recover_ok by done. fold t. simpl.
  split; [done|]. split; [|split; [done|]].
  - apply count_where_0. intros r Hr.
    apply in_update_where in Hr as (r0 & _ & [[E ->]|[E ->]]); [|done].
    unfold lease_expired, abandoned, failed. by destruct (retries_left false r0).
  - intros j _ _. unfold abandoned, failed, retries_left. simpl.
    by destruct (attempt j <? max_attempts j)%Z.
Qed.

(** Replay touches nothing but failed jobs: on any other status it raises
    and changes nothing; on a failed one it leaves every existing row as it
    is and appends one queued copy of type, tenant, payload, priority and
    attempt budget, with no attempt made, a derived key of its own and
    [replay_of] pointing at the original, with one audit record (unless the
    generated id or key collides, which commits nothing). *)
Theorem replay_preserves d j actor clock u u' :
  ids_ok d -> get_job (id j) d = Some j ->
  let s := snd (replay j actor clock u u' (clean d)) in
  match fst (replay j actor clock u u' (clean d)) with
  | Ok n =>
      status j = FAILED /\ jobs (sess_base s) = jobs d ++ [n] /\
      id n = next_id d /\ status n = QUEUED /\ attempt n = 0%Z /\
      replay_of n = Some (job_id j) /\ payload n = payload j /\ org_id n = org_id j /\
      job_type n = job_type j /\ priority n = priority j /\ max_attempts n = max_attempts j /\
      idempotency_key n <> idempotency_key j /\
      length (audits (sess_base s)) = S (length (audits d))
  | Raise _ =>
      sess_base s = d /\ (status j <> FAILED \/
                          violates_unique (replay_job j actor clock u u' (next_id d)) d = true)
  end.
Proof.
  intros Hd Hg. unfold replay. case_bool_decide as Hs; simpl; [|auto].
  unfold mbind, flush_insert. simpl.
  destruct (violates_unique _ d) eqn:Hv; simpl; [auto|].
  repeat split; try done.
  - unfold replay_key. intros E. apply (f_equal String.length) in E.
    rewrite !str_length_app in E. simpl in E. lia.
  - rewrite length_app. simpl. lia.
Qed.

(** Retention deletes exactly the terminal rows that finished before the
    cut-off, and reports how many: queued, running and waiting jobs, and
    recent ones, survive unchanged and in order. *)
Theorem purge_exact d t :
  let '(r, s) := purge_terminal_jobs t (clean d) in
  r = Ok (Z.of_nat (length (jobs d)) - Z.of_nat (length (jobs (sess_base s))))%Z /\
  (forall j, In j (jobs (sess_base s)) <->
     In j (jobs d) /\ ~ (is_terminal (status j) = true /\
                         exists f, finished_at j = Some f /\ (f < t)%Z)) /\
  audits (sess_base s) = audits d.
Proof.
  unfold purge_terminal_jobs, mbind, mget, mmodify, commit, mret. simpl. split; [|split; [|done]].
  - f_equal. unfold count_where. rewrite <- (filter_length (purgeable t) (jobs d)). lia.
  - intros j. rewrite filter_In, negb_true_iff. unfold purgeable.
    destruct (is_terminal (status j)); simpl; [|naive_solver].
    destruct (finished_at j) as [f|]; [|naive_solver].
    rewrite Z.ltb_ge. split; intros [H1 H2]; (split; [done|]).
    + intros (_ & ? & [= <-] & ?). lia.
    + destruct (Z.le_gt_cases t f); [done|]. exfalso. eauto.
Qed.
End claims.

(** * Concrete runs *)

Definition args1 : EnqueueArgs :=
  mkEnqueue "import.execute" (Some 7%Z) "imports:1" None None 100 2 None None 1.
Definition args2 : EnqueueArgs :=
  mkEnqueue "import.execute" (Some 7%Z) "imports:2" None None 50 2 None None 1.
(** Two queued jobs, the second of higher priority. *)
Definition run0 : JobDb unit := mkJobDb [] 1 [] tt.
Definition run1 : JobDb unit :=
  exec (OpEnqueue args2 1001 "u2") (exec (OpEnqueue args1 1000 "u1") run0).
Lemma run1_reachable : reachable run1.
Proof. repeat (apply reach_step; [|vm_compute; done || discriminate]). apply reach_init. Defined.
Lemma run1_ids_ok : ids_ok run1.
Proof. exact (reachable_ids_ok _ run1_reachable). Qed.

(** Two workers pick job 2; the first takes it, the second gives way. *)
Definition race0 : Sys unit := mkSys run1 [] [].
Definition race1 : Sys unit := mkSys run1 [2%Z] [].
Definition race2 : Sys unit :=
  mkSys (sess_base (snd (claim_take 2 "w1" 9000 5000 (clean run1)))) [2%Z] [(2%Z, 1%Z)].
Lemma race2_reachable : sys_reachable race2.
Proof.
  apply (sr_step race1).
  - apply (sr_step race0); [apply sr_init, run1_reachable|].
    apply (ss_select race0 None 5000 false []). vm_compute. reflexivity.
  - apply (ss_take race1 2 "w1" 9000 5000 (claim_values "w1" 9000 5000 (new_job args2 1001 "u2" 2))
             (snd (claim_take 2 "w1" 9000 5000 (clean run1)))).
    + vm_compute. constructor.
    + vm_compute. reflexivity.
Defined.
Lemma claims_exclusive_witness :
  fst (claim_take 2 "w2" 9001 5001 (clean (tbl race2))) = Ok None /\ NoDup (served race2).
Proof. split; [vm_compute; reflexivity|]. apply claims_exclusive. exact race2_reachable. Defined.

Lemma claim_least_witness :
  let t := 5000%Z in
  match claim "w1" None 60 (Some t) 0 false [] (fun d => d) (clean run1) with
  | (Ok None, s) => s = clean run1 /\
      forall j, In j (jobs run1) -> due None t j = true -> false = true /\ id j ∈ []
  | (Ok (Some j'), s) => exists j,
      In j (jobs run1) /\ due None t j = true /\ (false = true -> id j ∉ []) /\
      (forall k, In k (jobs run1) -> due None t k = true -> (false = true -> id k ∉ []) ->
         k = j \/ claim_order j k = true) /\
      j' = claim_values "w1" (t + 60 * SECOND) t j /\
      s = clean (upd (id j) (claim_values "w1" (t + 60 * SECOND) t) run1)
  | (Raise _, _) => False
  end.
Proof. exact (claim_least run1 "w1" None 60 (Some 5000%Z) 0 false [] run1_ids_ok). Defined.

(** Job 2 running under a lease that expired. *)
Definition run2 : JobDb unit := exec (OpClaim "w1" None 60 (Some 5000%Z) 0 false []) run1.
Lemma run2_ids_ok : ids_ok run2.
Proof. split; vm_compute; repeat constructor; set_solver. Qed.
Lemma recover_exact_witness :
  fst (recover_abandoned_leases (Some 70000000%Z) 0 (clean run2)) = Ok 1%Z.
Proof.
  destruct (recover_exact run2 (Some 70000000%Z) 0 run2_ids_ok) as (H & _).
  rewrite H. vm_compute. reflexivity.
Defined.

(** Job 2 failed, then replayed. *)
Definition run3 : JobDb unit := exec (OpFail 2 "Boom" None (Some 6000%Z) 0 true) run2.
Definition run3_job : Job :=
  failed "Boom" None 6000 true (claimed "w1" 60 5000 (new_job args2 1001 "u2" 2)).
Lemma run3_ids_ok : ids_ok run3.
Proof. split; vm_compute; repeat constructor; set_solver. Qed.
Lemma run3_job_at : get_job (id run3_job) run3 = Some run3_job.
Proof. vm_compute. reflexivity. Qed.
Lemma replay_preserves_witness :
  let s := snd (replay run3_job None 8000 "u3" "v3" (clean run3)) in
  exists n, fst (replay run3_job None 8000 "u3" "v3" (clean run3)) = Ok n /\
    jobs (sess_base s) = jobs run3 ++ [n] /\ replay_of n = Some "u2".
Proof.
  pose proof (replay_preserves run3 run3_job None 8000 "u3" "v3" run3_ids_ok run3_job_at) as H.
  cbv zeta in *. destruct (fst _) as [n|e] eqn:E.
  - exists n. split; [reflexivity|]. destruct H as (_ & Hj & _ & _ & _ & Hr & _).
    split; [exact Hj|]. rewrite Hr. reflexivity.
  - exfalso. revert E. vm_compute. discriminate.
Defined.
