(* ===== verification/JobRaces.v ===== *)
(** Enqueueing under retries and races, and what the services that read a row
    before they write it do when another transaction commits in between. *)
From S2P Require Import Prelude PyStr PyJson JobModel JobService JobFacts JobExec.
Open Scope string_scope.
Open Scope list_scope.
Local Open Scope py_scope.

Section keys.
Context {W : Type}.
Notation Db := (JobDb W).
Implicit Types (d : Db) (j : Job).

Lemma key_matches_spec org t k j :
  key_matches org t k j = true <->
  org_id j = org /\ job_type j = t /\ idempotency_key j = k.
Proof. unfold key_matches. rewrite !andb_true_iff, !bool_decide_eq_true. tauto. Qed.

Lemma find_by_key_Some org t k d j :
  find_by_key org t k d = Some j ->
  In j (jobs d) /\ org_id j = org /\ job_type j = t /\ idempotency_key j = k.
Proof. intros [Hin H]%find_some. by apply key_matches_spec in H. Qed.

(** A row with the key exists: the lookup finds one, and for a tenant's key
    there is only one. *)
Lemma find_by_key_hit org t k d j :
  In j (jobs d) -> key_matches org t k j = true ->
  exists j', find_by_key org t k d = Some j' /\
    (keys_unique (jobs d) -> is_Some org -> id j' = id j).
Proof.
  intros Hj Hm. destruct (find_by_key org t k d) as [j'|] eqn:E.
  - exists j'. split; [done|]. intros Hu [o ->].
    apply find_by_key_Some in E as (Hin & Ho & Ht & Hk).
    apply key_matches_spec in Hm as (Ho' & Ht' & Hk').
    apply (Hu j' j o); congruence.
  - exfalso. pose proof (find_none _ _ E j Hj). congruence.
Qed.

(** Rows with a key keep it and their id, except across a purge. *)
Definition holds_key (i : Z) org t k d : Prop :=
  exists j, In j (jobs d) /\ key_matches org t k j = true /\ id j = i.
Definition not_purge (o : op) : Prop := forall t, o <> OpPurge t.

Lemma holds_key_exec i org t k o d :
  ids_ok d -> op_ok o -> not_purge o -> holds_key i org t k d ->
  holds_key i org t k (exec o d).
Proof.
  intros Hd Ho Hp (j & Hj & Hm & Hi).
  destruct (exec_cases o d Hd Ho) as [(c & -> & _)|[(g & Hg & E)|(a & _ & E)]].
  - by destruct (Hp c).
  - exists (g j). rewrite E. split; [by apply in_map|].
    destruct (row_step_evolves _ _ (Hg j Hj)) as [(Ei & _ & Et & Eo & Ek & _) _].
    rewrite key_matches_spec in *. rewrite Ei, Et, Eo, Ek. tauto.
  - exists j. rewrite E, in_app_iff. auto.
Qed.

Lemma holds_key_execs i org t k os d :
  db_wf d -> Forall op_ok os -> Forall not_purge os -> holds_key i org t k d ->
  holds_key i org t k (execs os d) /\ db_wf (execs os d).
Proof.
  intros Hd Hok Hp. revert d Hd. induction os as [|o os IH]; intros d Hd Hk; [done|].
  apply Forall_cons in Hok as [Ho Hok]. apply Forall_cons in Hp as [Hpo Hp]. simpl.
  apply IH; [done|done| |].
  - by apply db_wf_exec.
  - apply holds_key_exec; [apply Hd|done|done|done].
Qed.

Lemma enqueue_existing a clock uuid others d j :
  ea_idempotency_key a <> "" ->
  find_by_key (ea_org_id a) (ea_job_type a) (ea_idempotency_key a) d = Some j ->
  enqueue a clock uuid others (clean d) = (Ok j, clean d).
Proof.
  intros Hk Hf. unfold enqueue. rewrite bool_decide_false by done.
  unfold mbind, mget. simpl. by rewrite Hf.
Qed.

(** A successful first call leaves a row with the key. *)
Lemma enqueue_holds a clock uuid d j :
  fst (enqueue a clock uuid (fun d => d) (clean d)) = Ok j ->
  ea_idempotency_key a <> "" /\
  holds_key (id j) (ea_org_id a) (ea_job_type a) (ea_idempotency_key a)
    (exec (OpEnqueue a clock uuid) d).
Proof.
  unfold exec, run_op. unfold enqueue. case_bool_decide as Hk; [done|]. intros H.
  split; [done|]. revert H. unfold mbind, mget. simpl.
  destruct (find_by_key _ _ _ d) as [j'|] eqn:Hf; simpl.
  - intros [= <-]. apply find_by_key_Some in Hf as (Hin & H).
    exists j'. by rewrite key_matches_spec.
  - unfold interfere, mtry, flush_insert, mret. simpl.
    destruct (violates_unique _ d) eqn:Hv; simpl.
    + unfold mget. simpl. by rewrite Hf.
    + intros [= <-]. exists (new_job a clock uuid (next_id d)).
      split; [apply in_app_iff; right; by left|]. by rewrite key_matches_spec.
Qed.
End keys.

Section claims.
Context {W : Type}.
Notation Db := (JobDb W).
Implicit Types (d : Db) (j : Job).

(** Enqueue is idempotent for a tenant: once it returned a job, then
    whatever calls follow (except a retention purge), a call with the same
    organisation, type and key returns the row with that same id, whatever
    its other arguments, and commits nothing. *)
Theorem enqueue_idempotent a a' clock clock' uuid uuid' d j os o :
  db_wf d -> (1 <= ea_max_attempts a)%Z -> Forall op_ok os -> Forall not_purge os ->
  fst (enqueue a clock uuid (fun d => d) (clean d)) = Ok j ->
  ea_org_id a = Some o -> ea_org_id a' = Some o -> ea_job_type a' = ea_job_type a ->
  ea_idempotency_key a' = ea_idempotency_key a ->
  let d' := execs os (exec (OpEnqueue a clock uuid) d) in
  exists j', enqueue a' clock' uuid' (fun d => d) (clean d') = (Ok j', clean d') /\
             id j' = id j /\ In j' (jobs d').
Proof.
  intros Hd Ha Hos Hp Hj Ho Ho' Ht Hk d'.
  destruct (enqueue_holds _ _ _ _ _ Hj) as [Hne Hh].
  destruct (holds_key_execs _ _ _ _ os _ (db_wf_exec (OpEnqueue a clock uuid) d Hd Ha) Hos Hp Hh)
    as ((r & Hr & Hm & Hi) & _ & _ & Hu). fold d' in Hr, Hu.
  destruct (find_by_key_hit _ _ _ _ _ Hr Hm) as (j' & Hf & Hid). exists j'. split; [|split].
  - apply enqueue_existing; [by rewrite Hk|]. by rewrite Ho', Ht, Hk, <- Ho.
  - rewrite Hid; [done|done|]. by rewrite Ho.
  - by destruct (find_by_key_Some _ _ _ _ _ Hf).
Qed.

(** A tenant's concurrent duplicates converge: when another session
    commits a row with the same organisation, type and key between this
    call's lookup and its insert, the insert hits the unique constraint, is
    rolled back, and the call returns the other session's row, adding none. *)
Theorem enqueue_race a clock uuid d others r o :
  db_wf (others d) -> ea_org_id a = Some o -> ea_idempotency_key a <> "" ->
  find_by_key (Some o) (ea_job_type a) (ea_idempotency_key a) d = None ->
  In r (jobs (others d)) -> org_id r = Some o -> job_type r = ea_job_type a ->
  idempotency_key r = ea_idempotency_key a ->
  exists r', enqueue a clock uuid others (clean d) = (Ok r', clean (others d)) /\
             In r' (jobs (others d)) /\ id r' = id r.
Proof.
  intros (_ & _ & Hu) Ho Hk Hf Hr Hro Hrt Hrk.
  assert (Hm : key_matches (Some o) (ea_job_type a) (ea_idempotency_key a) r = true)
    by (by rewrite key_matches_spec).
  destruct (find_by_key_hit _ _ _ _ _ Hr Hm) as (r' & Hf' & Hid).
  exists r'. split; [|split; [by destruct (find_by_key_Some _ _ _ _ _ Hf')|apply Hid; eauto]].
  unfold enqueue. rewrite (bool_decide_false (ea_idempotency_key a = "")), Ho by done.
  unfold mbind at 1, mget. cbn [clean sess_db]. rewrite Hf.
  unfold mbind at 1, interfere. cbn [clean sess_db sess_base].
  unfold mtry, flush_insert. cbn [sess_db sess_base].
  assert (Hv : violates_unique (new_job a clock uuid (next_id (others d))) (others d) = true).
  { apply existsb_exists. exists r. split; [done|]. simpl.
    rewrite Ho, Hro, Z.eqb_refl, Hrt, Hrk, (bool_decide_true (ea_job_type a = _)),
      (bool_decide_true (ea_idempotency_key a = _)) by done. by rewrite orb_true_r. }
  rewrite Hv. simpl. unfold mbind, rollback, mget. simpl. by rewrite Hf'.
Qed.

(** The constraint does not protect the keys of jobs without an
    organisation (SQL compares NULLs as distinct): the same race commits a
    second row with the same type and key. *)
Theorem enqueue_race_without_org a clock uuid d others r :
  ea_org_id a = None -> ea_idempotency_key a <> "" ->
  find_by_key None (ea_job_type a) (ea_idempotency_key a) d = None ->
  In r (jobs (others d)) -> key_matches None (ea_job_type a) (ea_idempotency_key a) r = true ->
  (forall k, In k (jobs (others d)) -> job_id k <> uuid) ->
  let n := new_job a clock uuid (next_id (others d)) in
  exists s, enqueue a clock uuid others (clean d) = (Ok n, s) /\
    jobs (sess_db s) = jobs (others d) ++ [n] /\
    key_matches None (ea_job_type a) (ea_idempotency_key a) n = true.
Proof.
  intros Ho Hk Hf Hr Hm Hu n. unfold enqueue.
  rewrite (bool_decide_false (ea_idempotency_key a = "")), Ho by done.
  unfold mbind at 1, mget. cbn [clean sess_db]. rewrite Hf.
  unfold mbind at 1, interfere. cbn [clean sess_db sess_base].
  unfold mtry, flush_insert. cbn [sess_db sess_base].
  assert (Hv : violates_unique (new_job a clock uuid (next_id (others d))) (others d) = false).
  { apply not_true_iff_false. intros (k & Hin & H)%existsb_exists. simpl in H.
    rewrite Ho, orb_false_r, bool_decide_eq_true in H. by apply (Hu k). }
  rewrite Hv. eexists. split; [reflexivity|]. split; [done|].
  by rewrite key_matches_spec.
Qed.

Lemma write_changes_cancel j owner secs t clock :
  status j = QUEUED ->
  write_changes j (cancelled clock j) (claimed owner secs t j) =
  cancelled clock (claimed owner secs t j).
Proof.
  intros Hs. destruct j as [i ji jt og rb ik pv pl st pr at' ma av lo le ca sa fa ec ed ci ro].
  simpl in Hs. subst st. unfold write_changes, cancelled, claimed, claim_values.
  cbn -[changed Z.add Z.mul]. rewrite !changed_same.
  replace (changed QUEUED CANCELLED RUNNING) with CANCELLED by reflexivity.
  rewrite !changed_kept. reflexivity.
Qed.

(** Cancelling is not a compare-and-set: a session that loaded the job
    while it was queued, and cancels it after a worker's claim committed,
    overwrites the running row. The job ends cancelled yet still leased (the
    row invariant is broken), though running to cancelled is no edge of the
    state machine, and the worker's [complete] on the row is then refused. *)
Theorem cancel_overwrites_claim d j owner secs t actor clock now :
  ids_ok d -> status j = QUEUED ->
  get_job (id j) d = Some (claimed owner secs t j) ->
  let '(r, s) := cancel j actor clock (clean d) in
  let row := cancelled clock (claimed owner secs t j) in
  r = Ok tt /\ get_job (id j) (sess_base s) = Some row /\
  ~ transition (status (claimed owner secs t j)) (status row) /\
  lease_owner row = Some owner /\ ~ job_wf row /\
  fst (complete row now clock (clean (sess_base s))) =
    Raise (InvalidTransition CANCELLED SUCCEEDED).
Proof.
  intros Hd Hs Hg. assert (Ht : transition (status j) CANCELLED) by (rewrite Hs; constructor).
  unfold cancel. rewrite run_transition by done. cbv zeta. fold (cancelled clock j).
  rewrite (run_flush _ j (claimed owner secs t j) (cancelled clock j) (cancelled clock)); [|done|].
  2:{ intros r Hr E. rewrite (fresh_row d (claimed owner secs t j) r) by done.
      by apply write_changes_cancel. }
  unfold mbind, audit, mmodify, commit. cbn [sess_db sess_base clean fst snd].
  split; [done|]. split; [|split; [|split; [done|split; [|done]]]].
  - change (get_job (id j) (upd (id j) (cancelled clock) d) =
      Some (cancelled clock (claimed owner secs t j))).
    by apply get_job_upd_eq.
  - inversion 1.
  - intros [_ _ _ _ _ Ho _ _]. simpl in Ho. destruct Ho as [_ Ho].
    specialize (Ho ltac:(eauto)). discriminate.
Qed.
End claims.

(** * Concrete runs *)

Definition key_args : EnqueueArgs :=
  mkEnqueue "report.execute" (Some 7%Z) "reports:1:adhoc" None None 100 3 None None 1.
Definition key_args' : EnqueueArgs :=
  mkEnqueue "report.execute" (Some 7%Z) "reports:1:adhoc" (Some (JInt 5)) None 1 9 None None 2.
Definition key_args_no_org : EnqueueArgs :=
  mkEnqueue "report.execute" None "reports:1:adhoc" None None 100 3 None None 1.
Definition empty0 : JobDb unit := mkJobDb [] 1 [] tt.
Definition other_session (a : EnqueueArgs) (d : JobDb unit) : JobDb unit :=
  exec (OpEnqueue a 900 "other") d.

Lemma empty0_wf : db_wf empty0.
Proof. split; [split; constructor|]. split; [constructor|]. intros ? ? ? []. Qed.

(** A retried call after the job was claimed and failed. *)
Lemma enqueue_idempotent_witness :
  let d' := execs [OpClaim "w" None 60 None 2000 false []; OpFail 1 "x" None None 3000 false]
              (exec (OpEnqueue key_args 1000 "u1") empty0) in
  map status (jobs d') = [RETRY_WAIT] /\
  exists j', enqueue key_args' 4000 "u2" (fun d => d) (clean d') = (Ok j', clean d') /\
             id j' = 1%Z /\ In j' (jobs d').
Proof.
  split; [vm_compute; reflexivity|].
  apply (enqueue_idempotent key_args key_args' 1000 4000 "u1" "u2" empty0
           (new_job key_args 1000 "u1" 1)
           [OpClaim "w" None 60 None 2000 false []; OpFail 1 "x" None None 3000 false] 7);
    try reflexivity.
  - exact empty0_wf.
  - vm_compute. discriminate.
  - repeat constructor.
  - repeat constructor; intros t H; discriminate H.
Defined.

Lemma enqueue_race_witness :
  exists r', enqueue key_args 1000 "u1" (other_session key_args) (clean empty0) =
               (Ok r', clean (other_session key_args empty0)) /\
    In r' (jobs (other_session key_args empty0)) /\ id r' = 1%Z.
Proof.
  apply (enqueue_race key_args 1000 "u1" empty0 (other_session key_args)
           (new_job key_args 900 "other" 1) 7); try reflexivity.
  - apply db_wf_exec; [exact empty0_wf|vm_compute; discriminate].
  - discriminate.
  - left. reflexivity.
Defined.

Lemma enqueue_race_without_org_witness :
  let others := other_session key_args_no_org in
  exists s, enqueue key_args_no_org 1000 "u1" others (clean empty0) =
              (Ok (new_job key_args_no_org 1000 "u1" 2), s) /\
    jobs (sess_db s) = jobs (others empty0) ++ [new_job key_args_no_org 1000 "u1" 2] /\
    key_matches None "report.execute" "reports:1:adhoc" (new_job key_args_no_org 1000 "u1" 2) = true.
Proof.
  apply (enqueue_race_without_org key_args_no_org 1000 "u1" empty0 (other_session key_args_no_org)
           (new_job key_args_no_org 900 "other" 1)); try reflexivity.
  - discriminate.
  - left. reflexivity.
  - intros k [<-|[]]. discriminate.
Defined.

Definition claimed0 : JobDb unit :=
  exec (OpClaim "w" None 60 (Some 2000%Z) 0 false []) (exec (OpEnqueue key_args 1000 "u1") empty0).
Lemma claimed0_ids_ok : ids_ok claimed0.
Proof. split; vm_compute; repeat constructor; set_solver. Qed.
Lemma cancel_overwrites_claim_witness :
  let j := new_job key_args 1000 "u1" 1 in
  let '(r, s) := cancel j (Some 3%Z) 2500 (clean claimed0) in
  let row := cancelled 2500 (claimed "w" 60 2000 j) in
  r = Ok tt /\ get_job (id j) (sess_base s) = Some row /\
  ~ transition (status (claimed "w" 60 2000 j)) (status row) /\
  lease_owner row = Some "w" /\ ~ job_wf row /\
  fst (complete row (Some 3000%Z) 2500 (clean (sess_base s))) = Raise (InvalidTransition CANCELLED SUCCEEDED).
Proof.
  apply (cancel_overwrites_claim claimed0 (new_job key_args 1000 "u1" 1) "w" 60 2000 (Some 3%Z) 2500 (Some 3000%Z)).
  - exact claimed0_ids_ok.
  - reflexivity.
  - vm_compute. reflexivity.
Defined.
