(* ===== verification/JobRuntime.v ===== *)
(** [backend/jobs/runtime.py] and [backend/jobs/metrics.py]: the handler
    registry, one unit of work, the worker and scheduler loops, worker
    heartbeats, queue metrics and the health assessment.  A loop runs over the
    list of its iterations' environments (when the stop event is set, and what
    the clock reads). *)
From S2P Require Import Prelude PyStr PyJson JobModel JobService.
Open Scope string_scope.
Open Scope list_scope.
Local Open Scope py_scope.

Section runtime.
Context {W : Type}.
Notation Db := (JobDb W).

(** A handler works in the caller's session (it may write, commit and raise);
    on success it hands back the job instance as attribute access sees it
    afterwards: the loaded one, or its row when the handler committed. *)
Definition Handler : Type := Job -> M Db Job.
Definition Registry : Type := list (string * Handler).

Definition register_handler (job_type : string) (fn : Handler) (h : Registry) : Registry :=
  dict_set job_type fn h.
Definition unregister (job_type : string) (h : Registry) : Registry := dict_pop job_type h.
Definition get_handler (job_type : string) (h : Registry) : option Handler :=
  dict_get job_type h.

Definition exn_str (e : exn) : string :=
  match e with
  | Exn _ msg => msg
  | HTTPException c d => (str_of_Z c ++ ": " ++ d)%string
  end.

(** [claim_clock] and [clock] are the clock at the claim and at the end of
    the handler. *)
Definition run_once (handlers : Registry) (owner : string) (jtype : option string)
    (lease_seconds claim_clock clock : Z) (is_pg : bool) (locked : list Z)
    (others : Db -> Db) : M Db (option Job) :=
  do! claimed <- claim owner jtype lease_seconds None claim_clock is_pg locked others;
  match claimed with
  | None => mret None
  | Some job =>
      match get_handler (job_type job) handlers with
      | None =>
          run! fail job "no_handler"
                 (Some ("no handler registered for " ++ job_type job)%string) None clock true;
          mret (Some job)
      | Some handler =>
          do! outcome <- mtry (do! job' <- handler job; mret (inl job'))
                              (fun e => mret (inr e));
          match outcome with
          | inr e =>
              run! rollback;
              do! job' <- refresh (id job);
              run! fail job' (exn_name e) (Some (exn_str e)) None clock false;
              mret (Some job)
          | inl job' =>
              run! complete job' None clock;
              mret (Some job)
          end
      end
  end.

(** ** The worker loop *)

(** One iteration: whether the stop event is set at the loop test and after
    the unit of work, and the rest of the environment. *)
Record Tick := mkTick {
  stop_before : bool; stop_after : bool;
  tk_claim_clock : Z; tk_clock : Z; tk_pg : bool; tk_locked : list Z; tk_others : Db -> Db
}.

Record Worker := mkWorker {
  worker_id : string; worker_type : option string; worker_lease_seconds : Z
}.

(** The committed database after the iteration, and whether it slept. A unit
    of work that raised is logged and counts as idle. *)
Definition worker_tick (w : Worker) (handlers : Registry) (tk : Tick) (d : Db) : Db * bool :=
  let '(r, s) := run_once handlers (worker_id w) (worker_type w) (worker_lease_seconds w)
                   (tk_claim_clock tk) (tk_clock tk) (tk_pg tk) (tk_locked tk) (tk_others tk)
                   (clean d) in
  let idle := match r with Ok (Some _) => false | _ => true end in
  (sess_base s, idle && negb (stop_after tk)).

Fixpoint worker_run (w : Worker) (handlers : Registry) (tks : list Tick) (d : Db)
  : Db * list bool :=
  match tks with
  | [] => (d, [])
  | tk :: tks' =>
      if stop_before tk then (d, [])
      else let '(d', slept) := worker_tick w handlers tk d in
           let '(d'', ss) := worker_run w handlers tks' d' in
           (d'', slept :: ss)
  end.

(** ** The scheduler *)

Definition scheduler_tick (promote_clock recover_clock : Z) : M Db (Z * Z) :=
  do! promoted <- promote_retry_ready None promote_clock;
  do! recovered <- recover_abandoned_leases None recover_clock;
  mret (promoted, recovered).

Fixpoint scheduler_run (ticks : list (bool * Z * Z)) (d : Db) : Db :=
  match ticks with
  | [] => d
  | (stop, c1, c2) :: ticks' =>
      if stop then d
      else scheduler_run ticks' (sess_base (snd (scheduler_tick c1 c2 (clean d))))
  end.
End runtime.
Arguments Handler : clear implicits.
Arguments Registry : clear implicits.
Arguments Tick : clear implicits.

(** * Metrics *)

Definition DEFAULT_QUEUE_AGE_SLO_SECONDS : Z := 900.
Definition DEFAULT_WORKER_STALE_SECONDS : Z := 120.

Definition Heartbeats : Type := list (string * Z).

Definition heartbeat (worker : string) (now : option Z) (clock : Z) (h : Heartbeats) : Heartbeats :=
  dict_set worker (now_or now clock) h.

Definition live_workers (now : option Z) (clock stale_seconds : Z) (h : Heartbeats) : list string :=
  sort_by str_le
    (map fst (List.filter (fun p => ((now_or now clock) - p.2 <=? stale_seconds * SECOND)%Z) h)).

Definition reset_heartbeats (h : Heartbeats) : Heartbeats := [].

(** [total_seconds()] in microseconds. *)
Definition age_seconds (ts : option Z) (now : Z) : option Z := option_map (fun t => (now - t)%Z) ts.

(** [GROUP BY]: the distinct keys in order of first appearance. *)
Definition group_keys {A} (k : A -> string) (l : list A) : list string :=
  fold_left (fun acc r => if bool_decide (k r ∈ acc) then acc else acc ++ [k r]) l [].

Definition min_list (l : list Z) : option Z :=
  fold_left (fun acc z => Some (match acc with Some a => Z.min a z | None => z end)) l None.

Record TypeMetrics := mkTypeMetrics { tm_queued : Z; tm_oldest_age : option Z }.

Record JobMetrics := mkJobMetrics {
  jm_as_of : Z;
  jm_scope : option Z;      (** [None] is "platform" *)
  jm_queued : Z; jm_running : Z; jm_retry_wait : Z;
  jm_counts_by_status : list (string * Z);
  jm_by_type : list (string * TypeMetrics);
  jm_oldest_queued_age : Z; (** in microseconds *)
  jm_expired_leases : Z
}.

Section metrics.
Context {W : Type}.
Notation Db := (JobDb W).

Definition status_is (s : string) (j : Job) : bool := bool_decide (status j = s).
Definition type_is (t : string) (j : Job) : bool := bool_decide (job_type j = t).

Definition counts_by_status (rows : list Job) : list (string * Z) :=
  map (fun s => (s, count_where (status_is s) rows)) (group_keys status rows).

Definition type_metrics (now : Z) (queued : list Job) (t : string) : TypeMetrics :=
  let rows := List.filter (type_is t) queued in
  mkTypeMetrics (Z.of_nat (length rows)) (age_seconds (min_list (map available_at rows)) now).

(** [max((v or 0.0 for v in ...), default=0.0)] *)
Definition max_age (ts : list TypeMetrics) : Z :=
  match map (fun v => match tm_oldest_age v with Some a => a | None => 0%Z end) ts with
  | [] => 0%Z
  | a :: l => fold_left Z.max l a
  end.

Definition job_metrics (org_id' : option Z) (now : option Z) (clock : Z) (d : Db) : JobMetrics :=
  let now := now_or now clock in
  let rows := match org_id' with
              | Some o => List.filter (fun j => bool_decide (org_id j = Some o)) (jobs d)
              | None => jobs d
              end in
  let by_status := counts_by_status rows in
  let queued := List.filter (status_is QUEUED) rows in
  let by_type := map (fun t => (t, type_metrics now queued t)) (group_keys job_type queued) in
  let get s := match dict_get s by_status with Some n => n | None => 0%Z end in
  mkJobMetrics now org_id' (get QUEUED) (get RUNNING) (get RETRY_WAIT) by_status by_type
    (max_age (map snd by_type)) (count_where (lease_expired now) rows).

Record Health := mkHealth {
  he_status : string; he_reasons : list string; he_live_workers : Z;
  he_queued : Z; he_oldest_age : Z; he_expired : Z
}.

Definition health (now : option Z) (clock queue_age_slo_seconds : Z) (h : Heartbeats) (d : Db)
  : Health :=
  let now := now_or now clock in
  let m := job_metrics None (Some now) clock d in
  let workers := live_workers (Some now) clock DEFAULT_WORKER_STALE_SECONDS h in
  let reasons :=
    (if (queue_age_slo_seconds * SECOND <? jm_oldest_queued_age m)%Z
     then ["queue_age_slo_breached"] else []) ++
    (if (0 <? jm_expired_leases m)%Z then ["expired_leases_present"] else []) ++
    (if bool_decide (workers = []) && (0 <? jm_queued m)%Z
     then ["no_live_workers_with_backlog"] else []) in
  mkHealth (if bool_decide (reasons = []) then "ok" else "degraded") reasons
    (Z.of_nat (length workers)) (jm_queued m) (jm_oldest_queued_age m) (jm_expired_leases m).
End metrics.
