(* ===== verification/RuntimeClaims.v ===== *)
(** What the worker runtime guarantees: the outcome of one unit of work and its
    atomicity, at most [max_attempts] deliveries per job, exhaustion of a job
    that always fails, and health reports that match the table. *)
From S2P Require Import Prelude PyStr PyJson JobModel JobService JobFacts JobExec.
From S2P Require Import JobGuarantees JobRuntime.
Open Scope string_scope.
Open Scope list_scope.
Local Open Scope py_scope.

(** * Deliveries *)

Section deliveries.
Context {W : Type}.
Notation Db := (JobDb W).
Implicit Types (d : Db) (j : Job).

(** Every attempt handed out is at least the first. *)
Lemma served_positive (s : Sys W) :
  sys_reachable s -> db_wf (tbl s) /\ Forall (fun p => 1 <= p.2)%Z (served s).
Proof.
  induction 1 as [d Hd|s s' _ (Hwf & Hp) Hst]; simpl.
  - split; [|constructor]. by apply reachable_db_wf.
  - destruct Hst as [o Ho|jt now pg lo i Hsel|i ow ex now j s' Hpk Ht|i ow ex now s' Hpk Ht]; simpl.
    + split; [by apply db_wf_exec|done].
    + done.
    + destruct (take_step _ _ _ _ _ _ _ (proj1 Hwf) Ht) as (_ & _ & j0 & Hin & Hid & Hq & -> & ->).
      assert (Hts : table_step (OpPromote None 0) (tbl s)
                      (upd i (claim_values ow ex now) (tbl s))).
      { apply ts_where. intros r Hr E.
        rewrite (NoDup_map_inj id (jobs (tbl s)) r j0); [|apply Hwf|done|done|lia].
        by apply rs_claim. }
      split; [by eapply db_wf_step|]. apply Forall_app. split; [done|].
      constructor; [|constructor]. simpl.
      destruct Hwf as (_ & Hw & _). rewrite Forall_forall in Hw.
      destruct (Hw j0) as [_ Ha _ _ _ _ _ _]; [by apply list_elem_of_In|]. lia.
    + destruct (take_step _ _ _ _ _ _ _ (proj1 Hwf) Ht) as (_ & _ & ->). done.
Qed.

Lemma distinct_bounded (l : list Z) (n : Z) :
  NoDup l -> Forall (fun z => 1 <= z <= n)%Z l -> (Z.of_nat (length l) <= Z.max n 0)%Z.
Proof.
  intros Hnd Hb. assert (Hl : l ⊆+ seqZ 1 (Z.max n 0)).
  { apply NoDup_submseteq; [done|]. intros z Hz. rewrite Forall_forall in Hb.
    apply Hb in Hz. apply elem_of_seqZ. lia. }
  apply submseteq_length in Hl. rewrite length_seqZ in Hl. lia.
Qed.

Lemma served_ids_NoDup i (l : list (Z * Z)) :
  NoDup l -> NoDup (map snd (List.filter (fun p => (p.1 =? i)%Z) l)).
Proof.
  induction 1 as [|p l Hp _ IH]; simpl; [constructor|].
  destruct (p.1 =? i)%Z eqn:E; simpl; [|done]. constructor; [|done].
  rewrite list_elem_of_In, in_map_iff. intros (q & Eq & [Hq E']%filter_In).
  apply Hp, list_elem_of_In. destruct p, q. simpl in *.
  replace z with z1 by lia. by subst.
Qed.
End deliveries.

(** * Units of work *)

Section units.
Context {W : Type}.
Notation Db := (JobDb W).
Implicit Types (d : Db) (j : Job).

Lemma claim_alone d owner jt secs clock pg locked i j :
  ids_ok d -> select_candidate_id jt clock pg locked d = Some i -> get_job i d = Some j ->
  claim owner jt secs None clock pg locked (fun d => d) (clean d) =
  (Ok (Some (claimed owner secs clock j)), clean (upd i (claimed owner secs clock) d)).
Proof.
  intros Hd Hsel Hg. erewrite claim_race by (done || exact Hd). rewrite Hg. simpl.
  apply select_candidate_Some in Hsel as (k & Hk & <- & Hdue & _).
  rewrite (get_job_In d k Hd Hk) in Hg. injection Hg as ->.
  rewrite bool_decide_true; [done|]. by eapply due_queued.
Qed.

(** Completion from a session with pending writes. *)
Lemma complete_pending d base j now clock :
  ids_ok d -> get_job (id j) d = Some j -> status j = RUNNING ->
  complete j now clock (mkSession d base) =
  (Ok tt, clean (upd (id j) (completed (now_or now clock)) d)).
Proof.
  intros Hd Hg Hs. unfold complete. rewrite run_transition by (rewrite Hs; constructor).
  fold (completed (now_or now clock) j).
  erewrite run_flush; [reflexivity|done|].
  intros r Hr E. simpl in Hr. rewrite (fresh_row d j r) by done. by rewrite write_changes_fresh.
Qed.

Lemma run_once_no_handler handlers d owner jt secs c1 c2 pg locked i j :
  ids_ok d -> select_candidate_id jt c1 pg locked d = Some i -> get_job i d = Some j ->
  get_handler (job_type j) handlers = None ->
  run_once handlers owner jt secs c1 c2 pg locked (fun d => d) (clean d) =
  (Ok (Some (claimed owner secs c1 j)),
   clean (upd i (failed "no_handler" (Some ("no handler registered for " ++ job_type j)%string) c2 true)
            (upd i (claimed owner secs c1) d))).
Proof.
  intros Hd Hsel Hg Hh. unfold run_once, mbind at 1. erewrite claim_alone by done.
  change (job_type (claimed owner secs c1 j)) with (job_type j). rewrite Hh. unfold mbind.
  destruct (get_job_Some _ _ _ Hg) as [_ <-].
  rewrite fail_ok; [done|by apply ids_ok_upd| |done].
  change (id (claimed owner secs c1 j)) with (id j). by apply get_job_upd_eq.
Qed.

Lemma run_once_idle handlers d owner jt secs c1 c2 pg locked :
  select_candidate_id jt c1 pg locked d = None ->
  run_once handlers owner jt secs c1 c2 pg locked (fun d => d) (clean d) = (Ok None, clean d).
Proof. intros H. unfold run_once, mbind at 1. by rewrite claim_none. Qed.

Lemma run_once_raise handlers d owner jt secs c1 c2 pg locked i j h e s' :
  ids_ok d -> select_candidate_id jt c1 pg locked d = Some i -> get_job i d = Some j ->
  get_handler (job_type j) handlers = Some h ->
  h (claimed owner secs c1 j) (clean (upd i (claimed owner secs c1) d)) = (Raise e, s') ->
  ids_ok (sess_base s') ->
  get_job i (sess_base s') = Some (claimed owner secs c1 j) ->
  run_once handlers owner jt secs c1 c2 pg locked (fun d => d) (clean d) =
  (Ok (Some (claimed owner secs c1 j)),
   clean (upd i (failed (exn_name e) (Some (exn_str e)) c2 false) (sess_base s'))).
Proof.
  intros Hd Hsel Hg Hh Hrun Hd' Hg'. unfold run_once, mbind at 1. erewrite claim_alone by done.
  change (job_type (claimed owner secs c1 j)) with (job_type j). rewrite Hh. destruct (get_job_Some _ _ _ Hg) as [_ <-].
  unfold mtry, mbind at 1 2, mret. rewrite Hrun.
  unfold mbind, rollback, refresh. cbn [sess_db sess_base].
  change (id (claimed owner secs c1 j)) with (id j). rewrite Hg'.
  change (mkSession (sess_base s') (sess_base s')) with (clean (sess_base s')).
  by rewrite fail_ok.
Qed.

Lemma run_once_success handlers d owner jt secs c1 c2 pg locked i j h j' s' :
  ids_ok d -> select_candidate_id jt c1 pg locked d = Some i -> get_job i d = Some j ->
  get_handler (job_type j) handlers = Some h ->
  h (claimed owner secs c1 j) (clean (upd i (claimed owner secs c1) d)) = (Ok j', s') ->
  id j' = i -> ids_ok (sess_db s') -> get_job i (sess_db s') = Some j' -> status j' = RUNNING ->
  run_once handlers owner jt secs c1 c2 pg locked (fun d => d) (clean d) =
  (Ok (Some (claimed owner secs c1 j)), clean (upd i (completed c2) (sess_db s'))).
Proof.
  intros Hd Hsel Hg Hh Hrun Hi Hd' Hg' Hs. unfold run_once, mbind at 1.
  erewrite claim_alone by done. change (job_type (claimed owner secs c1 j)) with (job_type j). rewrite Hh. subst i.
  unfold mtry, mbind, mret. rewrite Hrun. destruct s' as [dd b]. simpl in *.
  by rewrite complete_pending.
Qed.
End units.

(** * A job that always fails *)

Section exhaustion.
Context {W : Type}.
Notation Db := (JobDb W).
Implicit Types (d : Db) (j : Job).
Context (h : Handler W) (e : exn) (owner : string) (secs : Z).

(** The handler raises on every call; what it wrote is uncommitted. *)
Definition always_fails : Prop :=
  forall j s, exists s', h j s = (Raise e, s') /\ sess_base s' = sess_base s.

(** One scheduler pass and one unit of work, both at clock [t]. *)
Definition round (handlers : Registry W) (t : Z) (d : Db) : Db :=
  let d1 := sess_base (snd (scheduler_tick t t (clean d))) in
  sess_base (snd (run_once handlers owner None secs t t false [] (fun d => d) (clean d1))).

(** Rounds spaced by at least the backoff cap, from [t] on. *)
Fixpoint spaced (t : Z) (ts : list Z) : Prop :=
  match ts with
  | [] => True
  | t' :: ts' => (t <= t')%Z /\ spaced (t' + BACKOFF_CAP_SECONDS * SECOND) ts'
  end.

Definition waiting j : Prop := status j = QUEUED \/ status j = RETRY_WAIT.

Lemma set_status_same j : set_status (status j) j = j.
Proof. by destruct j. Qed.

Lemma scheduler_tick_single d j t :
  jobs d = [j] -> waiting j -> (available_at j <= t)%Z -> ids_ok d ->
  sess_base (snd (scheduler_tick t t (clean d))) = with_jobs (fun _ => [set_status QUEUED j]) d.
Proof.
  intros Hj Hw Hav Hd. unfold scheduler_tick, mbind at 1.
  assert (Hp : promote_retry_ready None t (clean d) =
               (Ok (count_where (retry_due t) (jobs d)),
                clean (with_jobs (fun _ => [set_status QUEUED j]) d))).
  { unfold promote_retry_ready, mbind, mget, mmodify, commit, mret, clean. simpl.
    do 2 f_equal; unfold with_jobs; rewrite Hj; simpl; f_equal; unfold retry_due.
    all: destruct Hw as [Hs|Hs]; rewrite Hs; simpl.
    all: try (by rewrite <- Hs, set_status_same).
    all: by rewrite (proj2 (Z.leb_le _ _)). }
  rewrite Hp. unfold mbind. rewrite recover_ok.
  - unfold mret. simpl. unfold with_jobs. by simpl.
  - destruct Hd as [_ Hlt]. rewrite Hj in Hlt. split; simpl.
    + apply NoDup_singleton.
    + apply Forall_cons in Hlt as [Hlt _]. by repeat constructor.
Qed.

Lemma round_single handlers d j t :
  always_fails -> get_handler (job_type j) handlers = Some h ->
  jobs d = [j] -> waiting j -> (available_at j <= t)%Z -> ids_ok d ->
  let j' := failed (exn_name e) (Some (exn_str e)) t false
              (claim_values owner (t + secs * SECOND) t (set_status QUEUED j)) in
  jobs (round handlers t d) = [j'] /\ ids_ok (round handlers t d).
Proof.
  intros Hf Hh Hj Hw Hav Hd j'. unfold round. rewrite (scheduler_tick_single d j t) by done.
  set (q := set_status QUEUED j). set (d1 := with_jobs (fun _ => [q]) d).
  assert (Hd1 : ids_ok d1).
  { destruct Hd as [_ Hlt]. rewrite Hj in Hlt. apply Forall_cons in Hlt as [Hlt _].
    split; simpl; [apply NoDup_singleton|by repeat constructor]. }
  assert (Hsel : select_candidate_id None t false [] d1 = Some (id q)).
  { unfold select_candidate_id, d1. simpl. unfold due. simpl.
    by rewrite (proj2 (Z.leb_le _ _)). }
  assert (Hg : get_job (id q) d1 = Some q) by (unfold get_job; simpl; by rewrite Z.eqb_refl).
  destruct (Hf (claimed owner secs t q) (clean (upd (id q) (claimed owner secs t) d1)))
    as (s' & Hrun & Hbase).
  assert (Hok : ids_ok (upd (id q) (claimed owner secs t) d1)) by (by apply ids_ok_upd).
  erewrite (run_once_raise handlers d1 owner None secs t t false [] (id q) q h e s');
    [|done|done|done|done|done|by rewrite Hbase|rewrite Hbase; by apply get_job_upd_eq].
  rewrite Hbase. cbn [snd sess_base clean]. split.
  - unfold upd, d1. simpl. rewrite !Z.eqb_refl. done.
  - apply ids_ok_upd; [|done]. intros r. unfold failed. by destruct (retries_left false r).
Qed.

Lemma failed_available t (j : Job) :
  status (failed (exn_name e) (Some (exn_str e)) t false j) = RETRY_WAIT ->
  (available_at (failed (exn_name e) (Some (exn_str e)) t false j)
   <= t + BACKOFF_CAP_SECONDS * SECOND)%Z.
Proof.
  unfold failed. destruct (retries_left false j); simpl; [|discriminate]. intros _.
  assert (backoff (attempt j) <= BACKOFF_CAP_SECONDS)%Z by (unfold backoff; lia).
  unfold SECOND. lia.
Qed.

Lemma rounds_single handlers ts : forall d j t,
  always_fails -> get_handler (job_type j) handlers = Some h ->
  jobs d = [j] -> waiting j -> (available_at j <= t)%Z -> ids_ok d -> spaced t ts ->
  ts <> [] -> (attempt j + Z.of_nat (length ts) <= max_attempts j)%Z ->
  exists j', jobs (foldl (fun d t => round handlers t d) d ts) = [j'] /\
    attempt j' = (attempt j + Z.of_nat (length ts))%Z /\
    status j' = (if (attempt j' <? max_attempts j)%Z then RETRY_WAIT else FAILED) /\
    error_code j' = Some (take_str 60 (exn_name e)).
Proof.
  induction ts as [|t' ts IH]; intros d j t Hf Hh Hj Hw Hav Hd Hsp Hne Hlen; [done|].
  destruct Hsp as [Htt Hsp].
  change (length (t' :: ts)) with (S (length ts)) in *. rewrite Nat2Z.inj_succ in *.
  destruct (round_single handlers d j t') as [Hj1 Hd1]; [done|done|done|done|lia|done|].
  set (j1 := failed _ _ _ _ _) in Hj1.
  assert (Hst : status j1 = (if (attempt j + 1 <? max_attempts j)%Z then RETRY_WAIT else FAILED) /\
                attempt j1 = (attempt j + 1)%Z /\ max_attempts j1 = max_attempts j /\
                job_type j1 = job_type j /\ error_code j1 = Some (take_str 60 (exn_name e))).
  { unfold j1, failed, retries_left. simpl. by destruct (attempt j + 1 <? max_attempts j)%Z. }
  destruct Hst as (Hst & Hat & Hmx & Hty & Hec). simpl foldl.
  destruct ts as [|t'' ts'].
  - exists j1. rewrite Hat. simpl in Hlen |- *. split; [done|]. split; [lia|]. done.
  - set (ts := t'' :: ts') in *. assert (0 < Z.of_nat (length ts))%Z by (unfold ts; simpl; lia).
    assert (Hr : status j1 = RETRY_WAIT) by (rewrite Hst; destruct (Z.ltb_spec (attempt j + 1) (max_attempts j)); [done|lia]).
    destruct (IH (round handlers t' d) j1 (t' + BACKOFF_CAP_SECONDS * SECOND)%Z)
      as (j' & Hj' & Ha' & Hs' & He'); try done.
    + by rewrite Hty.
    + by right.
    + by apply failed_available.
    + rewrite Hat, Hmx. lia.
    + exists j'. split; [done|]. rewrite Hat in Ha'. split; [lia|].
      by rewrite <- Hmx.
Qed.
End exhaustion.

(** * Metrics *)

Section metrics.
Context {W : Type}.
Notation Db := (JobDb W).
Implicit Types (d : Db) (j : Job) (l : list Job).

Lemma group_keys_from (k : Job -> string) l acc x :
  x ∈ fold_left (fun acc r => if bool_decide (k r ∈ acc) then acc else acc ++ [k r]) l acc <->
  x ∈ acc \/ exists r, In r l /\ k r = x.
Proof.
  revert acc. induction l as [|r l IH]; intros acc; simpl; [naive_solver|].
  rewrite IH. case_bool_decide as H.
  - split; [naive_solver|]. intros [?|(r' & [<-|?] & <-)]; eauto.
  - rewrite elem_of_app, list_elem_of_singleton. naive_solver.
Qed.
Lemma group_keys_spec (k : Job -> string) l x :
  x ∈ group_keys k l <-> exists r, In r l /\ k r = x.
Proof. unfold group_keys. rewrite group_keys_from, elem_of_nil. naive_solver. Qed.

Lemma dict_get_tabulate {V} (f : string -> V) ks x :
  dict_get x (map (fun s => (s, f s)) ks) = if decide (x ∈ ks) then Some (f x) else None.
Proof.
  induction ks as [|k ks IH]; simpl; [done|].
  destruct (decide (x = k)) as [->|Hne].
  - destruct (decide (k ∈ k :: ks)) as [|H]; [done|]. destruct H. by left.
  - rewrite IH. apply decide_ext. rewrite elem_of_cons. naive_solver.
Qed.

(** The count of a status, 0 when no row has it. *)
Lemma counts_by_status_get s l :
  match dict_get s (counts_by_status l) with Some n => n | None => 0%Z end =
  count_where (status_is s) l.
Proof.
  unfold counts_by_status.
  rewrite (dict_get_tabulate (fun s => count_where (status_is s) l)).
  case_decide as H; [done|]. symmetry. apply count_where_0. intros r Hr.
  apply bool_decide_eq_false. intros E. apply H, group_keys_spec. eauto.
Qed.

Lemma min_list_from (zs : list Z) : forall a,
  exists m, fold_left (fun acc z => Some (match acc with Some a => Z.min a z | None => z end))
              zs (Some a) = Some m /\
    (m = a \/ In m zs) /\ (m <= a)%Z /\ Forall (fun z => m <= z)%Z zs.
Proof.
  induction zs as [|z zs IH]; intros a; simpl.
  - exists a. repeat split; [by left|lia|constructor].
  - destruct (IH (Z.min a z)) as (m & -> & Hin & Hle & Hall). exists m.
    split; [done|]. split; [|split; [lia|constructor; [lia|done]]].
    destruct Hin as [->|?]; [|auto]. destruct (Z.min_spec a z) as [[_ ->]|[_ ->]]; auto.
Qed.
Lemma min_list_spec (zs : list Z) :
  match min_list zs with
  | Some m => In m zs /\ Forall (fun z => m <= z)%Z zs
  | None => zs = []
  end.
Proof.
  destruct zs as [|a zs]; [done|]. unfold min_list. simpl.
  destruct (min_list_from zs a) as (m & -> & Hin & Hle & Hall). split; [|by constructor].
  destruct Hin as [->|?]; auto.
Qed.

Lemma fold_max_lt (zs : list Z) : forall a b,
  (b < fold_left Z.max zs a)%Z <-> (b < a)%Z \/ exists z, In z zs /\ (b < z)%Z.
Proof.
  induction zs as [|z zs IH]; intros a b; simpl; [naive_solver|]. rewrite IH.
  rewrite Z.max_lt_iff. naive_solver.
Qed.

(** The oldest age exceeds a non-negative bound exactly when some queued
    row's does. *)
Lemma oldest_age_exceeds l now b :
  (0 <= b)%Z ->
  (b < max_age (map snd (map (fun t => (t, type_metrics now l t)) (group_keys job_type l))))%Z <->
  exists r, In r l /\ (b < now - available_at r)%Z.
Proof.
  intros Hb. unfold max_age. rewrite !map_map. simpl.
  set (f := fun t => match age_seconds (min_list (map available_at (List.filter (type_is t) l))) now
                     with Some a => a | None => 0%Z end).
  assert (Hmax : forall ks, (b < match map f ks with [] => 0 | a :: l => fold_left Z.max l a end)%Z
                   <-> exists t, In t ks /\ (b < f t)%Z).
  { intros [|k ks]; simpl; [split; [lia|naive_solver]|]. rewrite fold_max_lt.
    setoid_rewrite in_map_iff. naive_solver. }
  rewrite (Hmax (group_keys job_type l)). clear Hmax. unfold f. clear f. split.
  - intros (t & _ & H).
    pose proof (min_list_spec (map available_at (List.filter (type_is t) l))) as Hm.
    destruct (min_list _) as [m|]; simpl in H; [|lia].
    destruct Hm as [(r & <- & [Hr _]%filter_In)%in_map_iff _]. eauto.
  - intros (r & Hr & H). exists (job_type r). split.
    + apply list_elem_of_In, group_keys_spec. eauto.
    + assert (Hin : In r (List.filter (type_is (job_type r)) l))
        by (apply filter_In; split; [done|by apply bool_decide_true]).
      pose proof (min_list_spec (map available_at (List.filter (type_is (job_type r)) l))) as Hm.
      destruct (min_list _) as [m|]; simpl.
      * destruct Hm as [_ Hall]. rewrite Forall_forall in Hall.
        assert (m <= available_at r)%Z; [|lia]. apply Hall, list_elem_of_In. by apply in_map.
      * apply map_eq_nil in Hm. by rewrite Hm in Hin.
Qed.

Lemma live_workers_spec now clock stale (hb : Heartbeats) w :
  In w (live_workers now clock stale hb) <->
  exists t, In (w, t) hb /\ (now_or now clock - t <= stale * SECOND)%Z.
Proof.
  unfold live_workers. rewrite sort_by_in, in_map_iff. split.
  - intros ([w' t] & <- & [Hin H]%filter_In). exists t. split; [done|]. simpl in H. lia.
  - intros (t & Hin & H). exists (w, t). split; [done|]. apply filter_In. split; [done|]. simpl. lia.
Qed.

Lemma count_where_positive {A} (p : A -> bool) (l : list A) :
  (0 <? count_where p l)%Z = true <-> exists x, In x l /\ p x = true.
Proof.
  rewrite Z.ltb_lt. split.
  - intros H. unfold count_where in H. destruct (List.filter p l) as [|x l'] eqn:E; [simpl in H; lia|].
    exists x. apply filter_In. rewrite E. by left.
  - intros (x & Hx & Hp). assert (count_where p l <> 0)%Z.
    { intros E. rewrite count_where_0 in E. rewrite E in Hp; done. }
    unfold count_where in *. lia.
Qed.

Lemma and_swap_compat (P P' Q Q' : Prop) : (P <-> P') -> (Q <-> Q') -> (Q /\ P <-> P' /\ Q').
Proof. tauto. Qed.
Lemma in_reason (b : bool) (s x : string) : In x (if b then [s] else []) <-> b = true /\ x = s.
Proof. destruct b; simpl; naive_solver. Qed.
End metrics.

Section claims.
Context {W : Type}.
Notation Db := (JobDb W).
Implicit Types (d : Db) (j : Job).

(** A job is delivered to workers at most [max_attempts] times, whatever
    the interleaving of claims, failures, lease recoveries and retries. *)
Theorem deliveries_bounded (s : Sys W) j :
  sys_reachable s -> In j (jobs (tbl s)) ->
  (Z.of_nat (length (List.filter (fun p => (p.1 =? id j)%Z) (served s))) <= attempt j)%Z /\
  (attempt j <= max_attempts j)%Z.
Proof.
  intros Hr Hj. destruct (sys_invariant s Hr) as (_ & Hnd & Hb).
  destruct (served_positive s Hr) as [(_ & Hw & _) Hpos]. rewrite Forall_forall in Hw. rewrite Forall_forall in Hb. rewrite Forall_forall in Hpos.
  destruct (Hw j) as [_ Ha _ _ _ _ _ _]; [by apply list_elem_of_In|]. split; [|lia].
  rewrite <- (length_map snd). etransitivity; [apply (distinct_bounded _ (attempt j))|lia].
  - by apply served_ids_NoDup.
  - rewrite Forall_forall. intros n.
    rewrite list_elem_of_In, in_map_iff. intros (p & <- & [Hp E]%filter_In).
    apply list_elem_of_In in Hp. split; [by apply Hpos|].
    apply (Hb p Hp); [done|lia].
Qed.

(** One unit of work on a candidate ends in exactly one commit: no
    handler is registered: the job fails for good as [no_handler]; the
    handler raises: everything it left uncommitted is rolled back and the
    job is failed under the exception's type and text (a retry while
    attempts remain); it returns: its pending writes and the job's success
    are committed together. *)
Theorem run_once_outcome handlers d owner jt secs c1 c2 pg locked i j :
  ids_ok d -> select_candidate_id jt c1 pg locked d = Some i -> get_job i d = Some j ->
  let j1 := claimed owner secs c1 j in
  let d1 := upd i (claimed owner secs c1) d in
  let out := run_once handlers owner jt secs c1 c2 pg locked (fun d => d) (clean d) in
  match get_handler (job_type j) handlers with
  | None => out = (Ok (Some j1),
      clean (upd i (failed "no_handler"
               (Some ("no handler registered for " ++ job_type j)%string) c2 true) d1))
  | Some h =>
      match h j1 (clean d1) with
      | (Raise e, s') =>
          ids_ok (sess_base s') -> get_job i (sess_base s') = Some j1 ->
          out = (Ok (Some j1),
                 clean (upd i (failed (exn_name e) (Some (exn_str e)) c2 false) (sess_base s')))
      | (Ok j', s') =>
          id j' = i -> ids_ok (sess_db s') -> get_job i (sess_db s') = Some j' ->
          status j' = RUNNING ->
          out = (Ok (Some j1), clean (upd i (completed c2) (sess_db s')))
      end
  end.
Proof.
  intros Hd Hsel Hg j1 d1 out. destruct (get_handler (job_type j) handlers) as [h|] eqn:Hh.
  - destruct (h j1 (clean d1)) as [[j'|e] s'] eqn:Hrun.
    + intros. by eapply run_once_success.
    + intros. by eapply run_once_raise.
  - by apply run_once_no_handler.
Qed.

(** A job whose handler always raises is retried until its budget is
    spent: scheduler passes and units of work spaced by at least the backoff
    cap take it through [retry_wait] after each of the first
    [max_attempts - 1] failures and to [failed] after the last, with
    [attempt = max_attempts]; the recorded error is the exception's type. *)
Theorem always_failing_exhausts (h : Handler W) e owner secs handlers ts d j :
  always_fails h e -> get_handler (job_type j) handlers = Some h ->
  jobs d = [j] -> status j = QUEUED -> attempt j = 0%Z -> ids_ok d ->
  spaced (available_at j) ts -> ts <> [] ->
  (Z.of_nat (length ts) <= max_attempts j)%Z ->
  exists j', jobs (foldl (fun d t => round owner secs handlers t d) d ts) = [j'] /\
    attempt j' = Z.of_nat (length ts) /\
    status j' = (if (Z.of_nat (length ts) <? max_attempts j)%Z then RETRY_WAIT else FAILED) /\
    error_code j' = Some (take_str 60 (exn_name e)).
Proof.
  intros Hf Hh Hj Hs Ha Hd Hsp Hne Hlen.
  destruct (rounds_single h e owner secs handlers ts d j (available_at j))
    as (j' & Hj' & Ha' & Hs' & He'); try done; [by left|rewrite Ha; lia|].
  rewrite Ha in Ha'. simpl in Ha'. exists j'. rewrite Z.add_0_l in Ha'. split; [done|]. split; [done|]. by rewrite <- Ha'.
Qed.

(** The health report is sound and complete for the table: it is
    [degraded] exactly when some queued job is older than the queue-age
    objective, or some running job's lease has expired, or there is queued
    work and no worker with a fresh heartbeat; and each reason is listed
    exactly when its condition holds. *)
Theorem health_exact now clock slo (hb : Heartbeats) d :
  (0 <= slo)%Z ->
  let t := now_or now clock in
  let h := health now clock slo hb d in
  let old := exists r, In r (jobs d) /\ status r = QUEUED /\ (slo * SECOND < t - available_at r)%Z in
  let expired := exists r, In r (jobs d) /\ lease_expired t r = true in
  let unattended := (exists r, In r (jobs d) /\ status r = QUEUED) /\
    ~ exists w ts, In (w, ts) hb /\ (t - ts <= DEFAULT_WORKER_STALE_SECONDS * SECOND)%Z in
  (In "queue_age_slo_breached" (he_reasons h) <-> old) /\
  (In "expired_leases_present" (he_reasons h) <-> expired) /\
  (In "no_live_workers_with_backlog" (he_reasons h) <-> unattended) /\
  (he_status h = "ok" <-> ~ (old \/ expired \/ unattended)).
Proof.
  intros Hslo t h old expired unattended.
  assert (Hold : (slo * SECOND <? jm_oldest_queued_age (job_metrics None (Some t) clock d))%Z = true <-> old).
  { rewrite Z.ltb_lt. simpl. rewrite oldest_age_exceeds by (unfold SECOND; lia).
    unfold old. split.
    - intros (r & [Hr Hq]%filter_In & H). exists r. apply bool_decide_eq_true in Hq. done.
    - intros (r & Hr & Hq & H). exists r. split; [|done]. apply filter_In.
      split; [done|by apply bool_decide_true]. }
  assert (Hexp : (0 <? jm_expired_leases (job_metrics None (Some t) clock d))%Z = true <-> expired)
    by apply count_where_positive.
  assert (Hun : bool_decide (live_workers (Some t) clock DEFAULT_WORKER_STALE_SECONDS hb = []) &&
                (0 <? jm_queued (job_metrics None (Some t) clock d))%Z = true <-> unattended).
  { simpl. rewrite counts_by_status_get, andb_true_iff, bool_decide_eq_true, count_where_positive.
    unfold unattended. apply and_swap_compat.
    - unfold status_is. setoid_rewrite bool_decide_eq_true. done.
    - split.
      + intros E (w & ts & H). assert (Hin : In w []); [|done]. rewrite <- E. apply live_workers_spec. eauto.
      + intros H. destruct (live_workers _ _ _ _) as [|w ws] eqn:E; [done|]. exfalso.
        assert (Hin : In w (w :: ws)) by (by left). rewrite <- E in Hin.
        apply live_workers_spec in Hin as (ts & Hin). eauto. }
  unfold h, health. fold t. cbn [he_reasons he_status].
  setoid_rewrite in_app_iff. setoid_rewrite in_app_iff. setoid_rewrite in_reason.
  rewrite Hold, Hexp, Hun.
  split; [naive_solver|]. split; [naive_solver|]. split; [naive_solver|].
  repeat case_match; simpl; naive_solver.
Qed.
End claims.

(** * Concrete runs *)

Lemma deliveries_bounded_witness :
  let j := claim_values "w1" 9000 5000 (new_job args2 1001 "u2" 2) in
  (Z.of_nat (length (List.filter (fun p => (p.1 =? id j)%Z) (served race2))) <= attempt j)%Z /\
  (attempt j <= max_attempts j)%Z.
Proof. apply deliveries_bounded; [exact race2_reachable|vm_compute; auto]. Defined.

(** A handler that writes to the tables it works on, and one that then raises. *)
Definition count_up : Handler Z := fun j =>
  run! mmodify (fun d => mkJobDb (jobs d) (next_id d) (audits d) (world d + 1)%Z); mret j.
Definition count_up_and_fail : Handler Z := fun j =>
  run! count_up j; mraise (Exn "ValueError" "boom").
Definition unit_job : Job := new_job args2 1001 "u2" 1.
Definition unit0 : JobDb Z := mkJobDb [unit_job] 2 [] 40%Z.
Lemma unit0_ids_ok : ids_ok unit0.
Proof. split; vm_compute; repeat constructor; set_solver. Qed.

(** The write is rolled back with the failure. *)
Lemma run_once_outcome_witness :
  let out := run_once [("import.execute", count_up_and_fail)] "w1" None 60 5000 6000 false []
               (fun d => d) (clean unit0) in
  world (sess_base (snd out)) = 40%Z /\
  map status (jobs (sess_base (snd out))) = [RETRY_WAIT].
Proof.
  pose proof (run_once_outcome [("import.execute", count_up_and_fail)] unit0 "w1" None 60 5000 6000
                false [] 1 unit_job unit0_ids_ok) as H.
  cbv zeta. cbv zeta in H. rewrite H; [split; vm_compute; reflexivity|vm_compute; reflexivity..| |].
  - exact (ids_ok_upd 1 (claimed "w1" 60 5000) unit0 (fun r => eq_refl) unit0_ids_ok).
  - vm_compute. reflexivity.
Defined.

Lemma always_failing_exhausts_witness :
  exists j', jobs (foldl (fun d t => round "w1" 60 [("import.execute", count_up_and_fail)] t d)
                     unit0 [1001%Z; 5000000000%Z]) = [j'] /\
    attempt j' = 2%Z /\ status j' = FAILED /\ error_code j' = Some "ValueError".
Proof.
  apply (always_failing_exhausts count_up_and_fail (Exn "ValueError" "boom") "w1" 60
           [("import.execute", count_up_and_fail)] [1001%Z; 5000000000%Z] unit0 unit_job).
  - intros j s. eexists. split; reflexivity.
  - reflexivity.
  - reflexivity.
  - reflexivity.
  - reflexivity.
  - exact unit0_ids_ok.
  - vm_compute. repeat split; discriminate.
  - discriminate.
  - vm_compute. discriminate.
Defined.

Lemma health_exact_witness :
  he_status (health (Some 2000000000%Z) 0 900 [("w1", 1999000000%Z)] unit0) = "degraded" /\
  In "queue_age_slo_breached" (he_reasons (health (Some 2000000000%Z) 0 900 [("w1", 1999000000%Z)] unit0)).
Proof.
  split; [vm_compute; reflexivity|].
  apply (proj1 (health_exact (Some 2000000000%Z) 0 900 [("w1", 1999000000%Z)] unit0 ltac:(lia))).
  exists unit_job. split; [left; reflexivity|]. split; [reflexivity|]. vm_compute. reflexivity.
Defined.
