(* ===== verification/TenantAccess.v ===== *)
(** [backend/tenant_access.py] with the control-plane tables it reads
    ([backend/models.py]: User, Organization, OrganizationMember): which
    organisation a request acts for, and the filters that keep its queries
    inside it. A SQL comparison with NULL selects nothing. *)
From S2P Require Import Prelude PyStr.
Open Scope string_scope.
Open Scope list_scope.
Local Open Scope py_scope.

Record User := mkUser { user_id : Z; role : string; user_org_id : option Z }.

Record Organization := mkOrg {
  o_id : Z; o_slug : string; o_name : string; o_plan : option string; o_is_active : option bool
}.

Record OrganizationMember := mkMember { m_org_id : Z; m_user_id : Z }.

(** The control-plane tables. *)
Record Tenants := mkTenants {
  organizations : list Organization;
  members : list OrganizationMember
}.

Definition ACTIVE_ORG_REQUIRED_DETAIL : string :=
  "Active organization required for tenant-scoped resource".
Definition LEGACY_GLOBAL_ORG_ID : Z := -1.

Definition is_super_admin (u : User) : bool := bool_decide (role u = "super_admin").

Definition active_org (i : Z) (o : Organization) : bool :=
  (o_id o =? i)%Z && bool_decide (o_is_active o = Some true).
Definition membership (o u : Z) (m : OrganizationMember) : bool :=
  (m_org_id m =? o)%Z && (m_user_id m =? u)%Z.

Definition resolve_request_org_id (db : Tenants) (current_user : User)
    (allow_super_admin_global allow_legacy_global : bool) : res (option Z) :=
  match user_org_id current_user with
  | None =>
      if is_super_admin current_user && allow_super_admin_global then Ok None
      else if allow_legacy_global then Ok (Some LEGACY_GLOBAL_ORG_ID)
      else Raise (HTTPException 409 ACTIVE_ORG_REQUIRED_DETAIL)
  | Some org_id =>
      match List.find (active_org org_id) (organizations db) with
      | None => Raise (HTTPException 404 "Active organization not found")
      | Some _ =>
          if negb (is_super_admin current_user) then
            match List.find (membership org_id (user_id current_user)) (members db) with
            | None => Raise (HTTPException 403 "You are not a member of the active organization")
            | Some _ => Ok (Some org_id)
            end
          else Ok (Some org_id)
      end
  end.

Definition is_legacy_global_scope (org_id : option Z) : bool :=
  bool_decide (org_id = Some LEGACY_GLOBAL_ORG_ID).

(** A condition on an organisation column. *)
Definition Cond : Type := option Z -> bool.
Definition col_is_null : Cond := fun c => match c with None => true | _ => false end.
Definition col_eq (v : Z) : Cond := fun c => match c with Some x => (x =? v)%Z | None => false end.

Definition org_scope_filter (org_id : option Z) : option Cond :=
  match org_id with
  | None => None
  | Some o => if is_legacy_global_scope org_id then Some col_is_null else Some (col_eq o)
  end.

(** The textual filter: the clauses and the bound parameters. *)
Definition add_org_sql_filter (column_name : string) (org_id : option Z)
    (q : list string * list (string * Z)) : list string * list (string * Z) :=
  match org_id with
  | None => q
  | Some o =>
      if is_legacy_global_scope org_id then (q.1 ++ [column_name ++ " IS NULL"]%string, q.2)
      else (q.1 ++ [column_name ++ " = :org_id"]%string, dict_set "org_id" o q.2)
  end.

Definition persisted_org_id (org_id : option Z) : option Z :=
  if is_legacy_global_scope org_id then None else org_id.

(** What a mapped class exposes: its name, its key and its organisation
    column if it has one. *)
Record Model (A : Type) := mkModel {
  model_repr : string; model_id : A -> Z; model_org : option (A -> option Z)
}.
Arguments mkModel {A} _ _ _.
Arguments model_repr {A} _.
Arguments model_id {A} _.
Arguments model_org {A} _.

Section scoping.
Context {A : Type} (model : Model A).

Definition scope_query_to_org (rows : list A) (org_id : option Z) : res (list A) :=
  match org_id with
  | None => Ok rows
  | Some _ =>
      match model_org model with
      | None => Raise (Exn "ValueError" ("Model " ++ model_repr model ++ " does not expose org_id"))
      | Some org_column =>
          match org_scope_filter org_id with
          | None => Ok rows
          | Some condition => Ok (List.filter (fun r => condition (org_column r)) rows)
          end
      end
  end.

Definition get_scoped_record (rows : list A) (record_id : Z) (org_id : option Z) : res (option A) :=
  let? scoped := scope_query_to_org rows org_id in
  Ok (List.find (fun r => (model_id model r =? record_id)%Z) scoped).
End scoping.

Definition scope_tag (org_id : option Z) : string :=
  match org_id with
  | None => "global"
  | Some o => if is_legacy_global_scope org_id then "legacy_global"
              else ("org_" ++ str_of_Z o)%string
  end.

(** * The scope a request gets *)

(** [visible db sg u c]: user [u] may see rows whose organisation column is [c],
    at an endpoint where [sg] says if a super admin without an active
    organisation has the global view. *)
Definition visible (db : Tenants) (sg : bool) (u : User) (c : option Z) : Prop :=
  match user_org_id u with
  | None => (role u = "super_admin" /\ sg = true) \/ c = None
  | Some o => c = Some o /\ (exists org, In org (organizations db) /\ o_id org = o /\ o_is_active org = Some true) /\
              (role u = "super_admin" \/ exists m, In m (members db) /\ m_org_id m = o /\ m_user_id m = user_id u)
  end.

Lemma is_super_admin_spec u : is_super_admin u = true <-> role u = "super_admin".
Proof. apply bool_decide_eq_true. Qed.

Lemma active_org_spec i o : active_org i o = true <-> o_id o = i /\ o_is_active o = Some true.
Proof. unfold active_org. rewrite andb_true_iff, Z.eqb_eq, bool_decide_eq_true. tauto. Qed.
Lemma membership_spec o u m : membership o u m = true <-> m_org_id m = o /\ m_user_id m = u.
Proof. unfold membership. rewrite andb_true_iff, !Z.eqb_eq. tauto. Qed.

(** The organisations of the tables are not the legacy marker. *)
Definition tenants_ok (db : Tenants) : Prop :=
  Forall (fun o => (1 <= o_id o)%Z) (organizations db).

Lemma find_witness {A} (p : A -> bool) l x : List.find p l = Some x -> In x l /\ p x = true.
Proof. apply find_some. Qed.

Lemma resolve_org db u sg lg o :
  resolve_request_org_id db u sg lg = Ok (Some o) -> user_org_id u = Some o ->
  (exists org, In org (organizations db) /\ o_id org = o /\ o_is_active org = Some true) /\
  (role u = "super_admin" \/ exists m, In m (members db) /\ m_org_id m = o /\ m_user_id m = user_id u).
Proof.
  unfold resolve_request_org_id. intros H E. rewrite E in H.
  destruct (List.find (active_org o) _) as [org|] eqn:Ho; [|done].
  apply find_some in Ho as [Hin Hact%active_org_spec]. split; [eauto|].
  destruct (is_super_admin u) eqn:Hs; [left; by apply is_super_admin_spec|right].
  simpl in H. destruct (List.find (membership _ _) _) as [m|] eqn:Hm; [|done].
  apply find_some in Hm as [Hm Hmm%membership_spec]. eauto.
Qed.

Lemma resolve_cases db u sg lg r :
  resolve_request_org_id db u sg lg = Ok r ->
  (user_org_id u = None /\ ((r = None /\ role u = "super_admin" /\ sg = true) \/
                            (r = Some LEGACY_GLOBAL_ORG_ID /\ lg = true))) \/
  (exists o, user_org_id u = Some o /\ r = Some o).
Proof.
  unfold resolve_request_org_id. destruct (user_org_id u) as [o|].
  - destruct (List.find (active_org o) _); [|done].
    destruct (is_super_admin u); simpl; [intros [= <-]; eauto|].
    destruct (List.find (membership _ _) _); [|done]. intros [= <-]. eauto.
  - destruct (is_super_admin u && sg) eqn:E.
    + apply andb_prop in E as [E%is_super_admin_spec ->]. intros [= <-]. left. split; [done|]. by left.
    + destruct lg; [|done]. intros [= <-]. left. split; [done|]. by right.
Qed.

Lemma scope_query_in {A} (m : Model A) col rows r l x :
  model_org m = Some col -> scope_query_to_org m rows r = Ok l ->
  In x l <-> In x rows /\ match r with
                          | None => True
                          | Some o => if is_legacy_global_scope r then col x = None else col x = Some o
                          end.
Proof.
  intros Hcol. unfold scope_query_to_org, org_scope_filter. rewrite Hcol.
  destruct r as [o|]; [|intros [= <-]; tauto].
  destruct (is_legacy_global_scope (Some o)); intros [= <-]; rewrite filter_In;
    destruct (col x) as [c|]; simpl; rewrite ?Z.eqb_eq; intuition congruence.
Qed.

(** ** Claims *)

(** C3: Tenant isolation: whatever organisation the request resolves to, the
    rows its scoped query selects are exactly the table's rows the caller may
    see: with an active organisation the caller is a member of (or is super
    admin), the rows of that organisation and no others; without one, every row
    for a super admin at an endpoint that allows the global view, and else the
    rows that belong to no organisation. The ids of organisations are positive,
    so none is the marker of the legacy scope. *)
Theorem scoped_query_isolates {A} (m : Model A) col db u sg lg rows r l :
  tenants_ok db -> model_org m = Some col ->
  resolve_request_org_id db u sg lg = Ok r -> scope_query_to_org m rows r = Ok l ->
  forall x, In x l <-> In x rows /\ visible db sg u (col x).
Proof.
  intros Hdb Hcol Hr Hl x. rewrite (scope_query_in m col rows r l x Hcol Hl).
  destruct (resolve_cases _ _ _ _ _ Hr) as [[Hn [(-> & Hs & ->)|[-> Hlg]]]|(o & Ho & ->)].
  - unfold visible. rewrite Hn. tauto.
  - unfold visible. rewrite Hn. simpl.
    split; [tauto|]. intros [Hx [[Hs ->]| ->]]; [|done]. split; [done|].
    unfold resolve_request_org_id in Hr. rewrite Hn, (proj2 (is_super_admin_spec u) Hs) in Hr. done.
  - destruct (resolve_org _ _ _ _ _ Hr Ho) as [Horg Hmem].
    assert (Hleg : is_legacy_global_scope (Some o) = false).
    { apply bool_decide_eq_false. intros [= ->]. destruct Horg as (org & Hin & E & _).
      unfold tenants_ok in Hdb. rewrite Forall_forall in Hdb.
      apply list_elem_of_In, Hdb in Hin. rewrite E in Hin. unfold LEGACY_GLOBAL_ORG_ID in Hin. lia. }
    unfold visible. rewrite Ho, Hleg. tauto.
Qed.

Definition demo_tenants : Tenants :=
  mkTenants [mkOrg 7 "acme" "Acme" (Some "pro") (Some true); mkOrg 8 "bmce" "Bmce" None (Some true)]
            [mkMember 7 1; mkMember 8 2].
Definition demo_user : User := mkUser 1 "editor" (Some 7%Z).
Definition pair_model : Model (Z * option Z) := mkModel "<class 'Pair'>" fst (Some snd).

Lemma scoped_query_isolates_witness :
  scope_query_to_org pair_model [(1, Some 7); (2, Some 8); (3, None)]%Z (Some 7%Z)
    = Ok [(1, Some 7)]%Z /\
  (In (1, Some 7)%Z [(1, Some 7)]%Z <->
   In (1, Some 7)%Z [(1, Some 7); (2, Some 8); (3, None)]%Z /\ visible demo_tenants true demo_user (Some 7%Z)).
Proof.
  split; [reflexivity|].
  apply (scoped_query_isolates pair_model snd demo_tenants demo_user true true
           [(1, Some 7); (2, Some 8); (3, None)]%Z (Some 7%Z) [(1, Some 7)]%Z).
  - repeat constructor; simpl; lia.
  - reflexivity.
  - reflexivity.
  - reflexivity.
Defined.
