(* ===== verification/Entities.v ===== *)
(** * Entities as rows of text columns (src/backend/models.py)

    An entity is its id, its organisation and its text columns; the class with
    the organisation column is scoped by [scoped], which is
    [scope_query_to_org] where it cannot raise. *)
From S2P Require Import Prelude PyStr TenantAccess.
From Stdlib Require Import String.

Local Open Scope string_scope.
Local Open Scope list_scope.
Local Open Scope Z_scope.
Local Open Scope py_scope.

Record Entity := mkEntity { en_id : Z; en_org : option Z; en_cols : list (string * option string) }.
Definition column (name : string) (e : Entity) : option string :=
  match dict_get name (en_cols e) with Some v => v | None => None end.
Definition set_column (name : string) (v : option string) (e : Entity) : Entity :=
  mkEntity (en_id e) (en_org e) (dict_set name v (en_cols e)).

(** [scope_query_to_org] on a class with an organisation column. *)
Definition scoped {A} (org : A -> option Z) (org_id : option Z) (rows : list A) : list A :=
  match org_scope_filter org_id with None => rows | Some c => List.filter (fun r => c (org r)) rows end.
Definition in_scope (org_id : option Z) (c : option Z) : bool :=
  match org_scope_filter org_id with None => true | Some f => f c end.

(** * Lemmas *)
Lemma scoped_filter {A} (org : A -> option Z) org_id rows :
  scoped org org_id rows = List.filter (fun r => in_scope org_id (org r)) rows.
Proof.
  unfold scoped, in_scope. destruct (org_scope_filter org_id); [done|].
  symmetry. induction rows as [|r rows IH]; cbn; [done|]. by rewrite IH.
Qed.
Lemma in_scope_persisted org_id : in_scope org_id (persisted_org_id org_id) = true.
Proof.
  unfold in_scope, org_scope_filter, persisted_org_id. destruct org_id as [o|]; [|done].
  destruct (is_legacy_global_scope (Some o)) eqn:E; [done|]. cbn. apply Z.eqb_refl.
Qed.
(** It is the generic filter, on a class with the column. *)
Lemma scoped_query {A} (model : Model A) org org_id rows :
  model_org model = Some org -> scope_query_to_org model rows org_id = Ok (scoped org org_id rows).
Proof.
  intros H. unfold scope_query_to_org, scoped. rewrite H. destruct org_id; [|done].
  by destruct (org_scope_filter _).
Qed.
Lemma filter_filter {A} (p q : A -> bool) l : List.filter p (List.filter q l) = List.filter (fun x => q x && p x) l.
Proof. induction l as [|x l IH]; cbn; [done|]. destruct (q x); cbn; [destruct (p x); by rewrite IH|done]. Qed.
Lemma scoped_only {A} (org : A -> option Z) o p l :
  o <> LEGACY_GLOBAL_ORG_ID ->
  scoped org (Some o) (List.filter p (List.filter (fun x => col_eq o (org x)) l)) = scoped org (Some o) (List.filter p l).
Proof.
  intros Ho. unfold scoped, org_scope_filter, is_legacy_global_scope. rewrite bool_decide_eq_false_2 by congruence.
  rewrite !filter_filter. apply filter_ext. intros x. by destruct (col_eq o (org x)), (p x).
Qed.
Lemma scoped_only_all {A} (org : A -> option Z) o l :
  o <> LEGACY_GLOBAL_ORG_ID -> scoped org (Some o) (List.filter (fun x => col_eq o (org x)) l) = scoped org (Some o) l.
Proof.
  intros Ho. pose proof (scoped_only org o (fun _ => true) l Ho) as H. rewrite !filter_filter in H.
  rewrite (filter_ext _ (fun x => col_eq o (org x))) in H by (intros; apply andb_true_r). rewrite H. f_equal.
  clear H. induction l as [|x l IH]; cbn; [done|]. by rewrite IH.
Qed.
