(* ===== verification/JobsApi.v ===== *)
(** [backend/routers/jobs.py]: the operability API over the jobs table: role
    gate, tenant scope, listing, cancellation and replay. A request runs in a
    session of its own that is closed when it ends, raised or not. *)
From S2P Require Import Prelude PyStr PyJson JobModel JobService JobFacts JobExec.
From S2P Require Import JobRuntime TenantAccess.
Open Scope string_scope.
Open Scope list_scope.
Local Open Scope py_scope.

Definition READ_ROLES : list string := ["super_admin"; "admin"; "editor"; "viewer"].
Definition OPERATE_ROLES : list string := ["super_admin"; "admin"].
Definition LIST_CAP : Z := 200.

(** [backend/auth.py]: [require_role]. *)
Definition require_role (roles : list string) (current_user : User) : res User :=
  if bool_decide (role current_user ∈ roles) then Ok current_user
  else Raise (HTTPException 403 ("Role '" ++ role current_user ++ "' is not authorized for this action")).

(** A timestamp in the response is its number of microseconds. *)
Definition serialize (job : Job) : res (list (string * json)) :=
  let? body := match payload job with
               | None => Ok JNull
               | Some p => if truthy p
                           then match loads p with
                                | Some v => Ok v
                                | None => Raise (Exn "JSONDecodeError" "Expecting value")
                                end
                           else Ok JNull
               end in
  Ok [("job_id", JStr (job_id job)); ("job_type", JStr (job_type job));
      ("org_id", opt_int (org_id job)); ("status", JStr (status job));
      ("priority", JInt (priority job)); ("attempt", JInt (attempt job));
      ("max_attempts", JInt (max_attempts job)); ("available_at", JInt (available_at job));
      ("lease_owner", opt_str (lease_owner job));
      ("lease_expires_at", opt_int (lease_expires_at job));
      ("created_at", JInt (created_at job)); ("started_at", opt_int (started_at job));
      ("finished_at", opt_int (finished_at job)); ("error_code", opt_str (error_code job));
      ("error_detail", opt_str (error_detail job));
      ("correlation_id", opt_str (correlation_id job)); ("replay_of", opt_str (replay_of job));
      ("payload", body)].

#[global] Arguments serialize : simpl never.

Fixpoint serialize_all (js : list Job) : res (list (list (string * json))) :=
  match js with
  | [] => Ok []
  | j :: js' => let? x := serialize j in let? xs := serialize_all js' in Ok (x :: xs)
  end.

Section api.
Context {W : Type} (tenants : Tenants).
Notation Db := (JobDb W).

Definition scoped_query (user : User) (d : Db) : res (list Job) :=
  if is_super_admin user then Ok (jobs d)
  else let? org := resolve_request_org_id tenants user true true in
       Ok (List.filter (fun j => match org with
                                 | Some o => col_eq o (org_id j)
                                 | None => col_is_null (org_id j)
                                 end) (jobs d)).

Definition get_scoped (user : User) (jid : string) (d : Db) : res Job :=
  let? rows := scoped_query user d in
  match List.find (fun j => bool_decide (job_id j = jid)) rows with
  | Some j => Ok j
  | None => Raise (HTTPException 404 "Job not found")
  end.

Definition newest_first (a b : Job) : bool := (id b <=? id a)%Z.

(** [if status:] on an optional query parameter. *)
Definition filter_param (p : option string) (col : Job -> string) (rows : list Job) : list Job :=
  match p with
  | Some s => if truthy s then List.filter (fun j => bool_decide (col j = s)) rows else rows
  | None => rows
  end.

Definition list_jobs (status' jtype : option string) (limit : nat) (current_user : User)
  : M Db (Z * list (list (string * json))) :=
  do! user <- mlift (require_role READ_ROLES current_user);
  do! d <- mget;
  do! q <- mlift (scoped_query user d);
  let q := filter_param jtype job_type (filter_param status' status q) in
  let rows := take limit (sort_by newest_first q) in
  do! out <- mlift (serialize_all rows);
  mret (Z.of_nat (length rows), out).

Definition job_metrics_endpoint (current_user : User) (clock : Z) : M Db JobMetrics :=
  do! user <- mlift (require_role READ_ROLES current_user);
  do! org <- mlift (if is_super_admin user then Ok None
                    else resolve_request_org_id tenants user true true);
  do! d <- mget;
  mret (job_metrics org None clock d).

Definition job_health_endpoint (current_user : User) (clock : Z) (hb : Heartbeats) : M Db Health :=
  do! _ <- mlift (require_role OPERATE_ROLES current_user);
  do! d <- mget;
  mret (health None clock DEFAULT_QUEUE_AGE_SLO_SECONDS hb d).

Definition get_job_endpoint (jid : string) (current_user : User)
  : M Db (list (string * json)) :=
  do! user <- mlift (require_role READ_ROLES current_user);
  do! d <- mget;
  do! job <- mlift (get_scoped user jid d);
  mlift (serialize job).

Definition cancel_job (jid : string) (current_user : User) (clock : Z)
  : M Db (list (string * json)) :=
  do! user <- mlift (require_role OPERATE_ROLES current_user);
  do! d <- mget;
  do! job <- mlift (get_scoped user jid d);
  run! mtry (cancel job (Some (user_id user)) clock)
            (fun exc => mraise (HTTPException 409 (exn_str exc)));
  do! job' <- refresh (id job);
  mlift (serialize job').

Definition replay_job_endpoint (jid : string) (current_user : User) (clock : Z)
    (uuid uuid' : string) : M Db (string * list (string * json)) :=
  do! user <- mlift (require_role OPERATE_ROLES current_user);
  do! d <- mget;
  do! job <- mlift (get_scoped user jid d);
  do! new <- mtry (replay job (Some (user_id user)) clock uuid uuid')
                  (fun exc => if bool_decide (exn_name exc = "JobError")
                              then mraise (HTTPException 409 (exn_str exc))
                              else mraise exc);
  do! out <- mlift (serialize new);
  mret (job_id job, out).

(** ** Facts *)

(** The jobs a caller's requests reach. *)
Definition reaches (user : User) (j : Job) : Prop :=
  role user = "super_admin" \/
  exists o, org_id j = Some o /\ user_org_id user = Some o.

Lemma scoped_query_in user d rows j :
  Forall (fun j => match org_id j with Some o => (1 <= o)%Z | None => True end) (jobs d) ->
  scoped_query user d = Ok rows -> In j rows -> In j (jobs d) /\ reaches user j.
Proof.
  intros Hpos. unfold scoped_query, reaches. destruct (is_super_admin user) eqn:Hs.
  - intros [= <-] Hj. split; [done|]. left. by apply is_super_admin_spec.
  - destruct (resolve_request_org_id _ _ _ _) as [r|] eqn:Hr; [|done]. simpl.
    intros [= <-] [Hj Hc]%filter_In. split; [done|].
    destruct (resolve_cases _ _ _ _ _ Hr) as [[Hn [(-> & Hsu & _)|[-> _]]]|(o & Ho & ->)].
    + apply is_super_admin_spec in Hsu. congruence.
    + rewrite Forall_forall in Hpos. pose proof (Hpos j ltac:(by apply list_elem_of_In)) as Hp.
      unfold col_eq, LEGACY_GLOBAL_ORG_ID in Hc. destruct (org_id j); [lia|done].
    + right. exists o. split; [|done]. unfold col_eq in Hc.
      destruct (org_id j) as [x|]; [|done]. f_equal. lia.
Qed.

Lemma get_scoped_Ok user jid d j :
  Forall (fun j => match org_id j with Some o => (1 <= o)%Z | None => True end) (jobs d) ->
  get_scoped user jid d = Ok j -> In j (jobs d) /\ job_id j = jid /\ reaches user j.
Proof.
  intros Hpos. unfold get_scoped. destruct (scoped_query user d) as [rows|] eqn:Hq; [|done].
  simpl. destruct (List.find _ rows) as [j'|] eqn:Hf; [|done]. intros [= ->].
  apply find_some in Hf as [Hj Hid]. apply bool_decide_eq_true in Hid.
  destruct (scoped_query_in _ _ _ _ Hpos Hq Hj). done.
Qed.

Lemma require_role_Ok roles u u' : require_role roles u = Ok u' -> u' = u /\ role u ∈ roles.
Proof. unfold require_role. case_bool_decide; [|done]. by intros [= <-]. Qed.
End api.

(** A request as one transaction: the committed table afterwards. *)
Definition after {W A} (c : M (JobDb W) A) (d : JobDb W) : JobDb W := sess_base (snd (c (clean d))).

Section claims.
Context {W : Type} (tenants : Tenants).
Notation Db := (JobDb W).

Definition orgs_positive (d : Db) : Prop :=
  Forall (fun j => match org_id j with Some o => (1 <= o)%Z | None => True end) (jobs d).

Lemma cancel_job_effect jid u clock d :
  ids_ok d -> orgs_positive d ->
  jobs (after (cancel_job tenants jid u clock) d) = jobs d \/
  exists j, In j (jobs d) /\ job_id j = jid /\ reaches u j /\ role u ∈ OPERATE_ROLES /\
    transition (status j) CANCELLED /\
    after (cancel_job tenants jid u clock) d =
      add_audit (mkAudit "job.cancel" "background_job" (id j) (Some (user_id u))
                   (dumps false (JObj (audit_dict (cancelled clock j) []))))
        (upd (id j) (cancelled clock) d).
Proof.
  intros Hd Hpos. unfold after, cancel_job.
  destruct (require_role OPERATE_ROLES u) as [u'|e] eqn:Hr; mrun; [|by left].
  apply require_role_Ok in Hr as [-> Hr].
  destruct (get_scoped tenants u jid d) as [j|e] eqn:Hg;
    [|left; unfold clean; cbn [sess_db]; rewrite Hg; mrun; done].
  apply get_scoped_Ok in Hg as Hg'; [|done]. destruct Hg' as (Hj & Hid & Hreach).
  cbn [clean sess_db]. rewrite Hg. mrun.
  destruct (assert_transition_cases (status j) CANCELLED) as [[_ Ht]|[_ Ht]].
  - right. exists j. do 5 (split; [done|]).
    erewrite run_ok; [|apply try_ok, cancel_ok; (done || by apply get_job_In)].
    unfold mbind, refresh. cbn [sess_db clean]. destruct (get_job _ _); done.
  - left. erewrite run_fails; [|erewrite try_fails by (by apply cancel_illegal); reflexivity]. done.
Qed.

Lemma replay_job_effect jid u clock uuid uuid' d :
  ids_ok d -> orgs_positive d ->
  let d' := after (replay_job_endpoint tenants jid u clock uuid uuid') d in
  jobs d' = jobs d \/
  exists j, In j (jobs d) /\ job_id j = jid /\ reaches u j /\ role u ∈ OPERATE_ROLES /\
    status j = FAILED /\
    jobs d' = jobs d ++ [replay_job j (Some (user_id u)) clock uuid uuid' (next_id d)].
Proof.
  intros Hd Hpos d'. unfold d', after, replay_job_endpoint.
  destruct (require_role OPERATE_ROLES u) as [u'|e] eqn:Hr; mrun; [|by left].
  apply require_role_Ok in Hr as [-> Hr].
  destruct (get_scoped tenants u jid d) as [j|e] eqn:Hg;
    [|left; unfold clean; cbn [sess_db]; rewrite Hg; mrun; done].
  apply get_scoped_Ok in Hg as Hg'; [|done]. destruct Hg' as (Hj & Hid & Hreach).
  cbn [clean sess_db]. rewrite Hg. mrun.
  destruct (decide (status j = FAILED)) as [Hs|Hs].
  - destruct (violates_unique (replay_job j (Some (user_id u)) clock uuid uuid' (next_id d)) d) eqn:Hv.
    + left. destruct (replay_fails d j (Some (user_id u)) clock uuid uuid') as [e He]; [by right|].
      unfold mbind, mtry. rewrite He. by case_bool_decide.
    + right. exists j. do 5 (split; [done|]).
      erewrite run_ok by (by apply try_ok, replay_ok).
      unfold mbind, mlift. by destruct (serialize _).
  - left. destruct (replay_fails d j (Some (user_id u)) clock uuid uuid') as [e He]; [by left|].
    unfold mbind, mtry. rewrite He. by case_bool_decide.
Qed.

(** Cross-tenant requests perform no transition: a cancel or replay
    request changes the jobs table only when the caller has an operator role
    and the named job belongs to the caller's active organisation (or the
    caller is super admin), and then it cancels that one row, legally, or
    appends one replay of it, in the same organisation; every other row is
    left as it was. *)
Theorem api_writes_confined jid u clock uuid uuid' d :
  ids_ok d -> orgs_positive d ->
  let confined d' :=
    (role u ∈ OPERATE_ROLES /\ exists j, In j (jobs d) /\ job_id j = jid /\ reaches u j /\
       ((transition (status j) CANCELLED /\
         jobs d' = map (fun r => if (id r =? id j)%Z then cancelled clock r else r) (jobs d)) \/
        (status j = FAILED /\ exists n, jobs d' = jobs d ++ [n] /\ org_id n = org_id j /\
           replay_of n = Some jid))) \/
    jobs d' = jobs d in
  confined (after (cancel_job tenants jid u clock) d) /\
  confined (after (replay_job_endpoint tenants jid u clock uuid uuid') d).
Proof.
  intros Hd Hpos confined. split; unfold confined.
  - destruct (cancel_job_effect jid u clock d Hd Hpos) as [->|(j & ? & ? & ? & ? & ? & ->)]; [auto|].
    left. split; [done|]. exists j. do 3 (split; [done|]). left. by split.
  - destruct (replay_job_effect jid u clock uuid uuid' d Hd Hpos)
      as [->|(j & ? & E & ? & ? & ? & ->)]; [auto|].
    left. split; [done|]. exists j. do 3 (split; [done|]). right. split; [done|].
    eexists. split; [reflexivity|]. split; [done|]. simpl. by rewrite E.
Qed.
End claims.

Definition api_db : JobDb unit :=
  exec (OpEnqueue (mkEnqueue "report.execute" (Some 7%Z) "k" None None 100 3 None None 1) 1000 "u1")
       (mkJobDb [] 1 [] tt).
Definition operator (org : Z) : User := mkUser 1 "admin" (Some org).
Lemma api_db_ids_ok : ids_ok api_db.
Proof. split; vm_compute; repeat constructor; set_solver. Qed.

(** The operator of organisation 7 cancels the job; one of organisation 8,
    member or not, finds nothing. *)
Lemma api_writes_confined_witness :
  map status (jobs (after (cancel_job demo_tenants "u1" (operator 7) 5) api_db)) = [CANCELLED] /\
  jobs (after (cancel_job demo_tenants "u1" (mkUser 2 "admin" (Some 8%Z)) 5) api_db) = jobs api_db.
Proof.
  split; [vm_compute; reflexivity|].
  destruct (proj1 (api_writes_confined demo_tenants "u1" (mkUser 2 "admin" (Some 8%Z)) 5 "a" "b" api_db
              api_db_ids_ok ltac:(repeat constructor; vm_compute; discriminate)))
    as [(_ & j & Hj & _ & Hr & _)|H]; [|exact H].
  exfalso. destruct Hj as [<-|[]]. destruct Hr as [H|(o & Ho & Hu)]; [discriminate H|].
  vm_compute in Ho, Hu. congruence.
Defined.

(** The jobs of no organisation are out of reach of a caller without one: the
    scope is compared with [=] against the legacy marker, where
    [scope_query_to_org] would select the rows whose column is NULL. *)
Lemma legacy_jobs_unreachable {W} tenants u (d : JobDb W) rows :
  orgs_positive d -> role u <> "super_admin" -> user_org_id u = None ->
  scoped_query tenants u d = Ok rows -> rows = [].
Proof.
  intros Hpos Hs Hn Hq. destruct rows as [|j rows]; [done|]. exfalso.
  destruct (scoped_query_in tenants u d _ j Hpos Hq) as [_ [H|(o & _ & H)]]; [by left|done|congruence].
Qed.
