(* ===== verification/DateTime.v ===== *)
(** Naive datetimes as the standard library holds them, their [isoformat] and
    their order. *)
From S2P Require Import Prelude PyStr.
From Stdlib Require Import Ascii.
Open Scope string_scope.
Open Scope list_scope.

Record DateTime := mkDateTime {
  year : Z; month : Z; day : Z; hour : Z; minute : Z; second : Z; microsecond : Z
}.

Definition digit (n : Z) : ascii := ascii_of_N (Z.to_N (48 + n)).
Definition pad2 (n : Z) : string := String (digit (n / 10)) (String (digit (n mod 10)) "").
Definition pad4 (n : Z) : string := (pad2 (n / 100) ++ pad2 (n mod 100))%string.

(** [dt.replace(microsecond=0).isoformat()] *)
Definition isoformat_seconds (t : DateTime) : string :=
  (pad4 (year t) ++ "-" ++ pad2 (month t) ++ "-" ++ pad2 (day t) ++ "T" ++
   pad2 (hour t) ++ ":" ++ pad2 (minute t) ++ ":" ++ pad2 (second t))%string.

Definition datetime_ok (t : DateTime) : Prop :=
  (1 <= year t <= 9999 /\ 1 <= month t <= 12 /\ 1 <= day t <= 31 /\
   0 <= hour t < 24 /\ 0 <= minute t < 60 /\ 0 <= second t < 60 /\ 0 <= microsecond t < 1000000)%Z.

Definition same_second (t t' : DateTime) : Prop :=
  year t = year t' /\ month t = month t' /\ day t = day t' /\
  hour t = hour t' /\ minute t = minute t' /\ second t = second t'.

#[export] Instance datetime_eq_dec : EqDecision DateTime.
Proof. solve_decision. Defined.

Definition strip_micro (t : DateTime) : DateTime :=
  mkDateTime (year t) (month t) (day t) (hour t) (minute t) (second t) 0.

Definition pad6 (n : Z) : string := (pad2 (n / 10000) ++ pad2 (n / 100 mod 100) ++ pad2 (n mod 100))%string.
(** [dt.isoformat()]: the fraction is left out when it is zero. *)
Definition isoformat (t : DateTime) : string :=
  if (microsecond t =? 0)%Z then isoformat_seconds t
  else (isoformat_seconds t ++ "." ++ pad6 (microsecond t))%string.
(** [dt.date().isoformat()] *)
Definition date_isoformat (t : DateTime) : string :=
  (pad4 (year t) ++ "-" ++ pad2 (month t) ++ "-" ++ pad2 (day t))%string.

(** Field-by-field order, as one number in mixed radix. *)
Definition dt_key (t : DateTime) : Z :=
  (((((year t * 13 + month t) * 32 + day t) * 24 + hour t) * 60 + minute t) * 60 + second t) * 1000000 + microsecond t.
Definition dt_le (a b : DateTime) : bool := (dt_key a <=? dt_key b)%Z.
Definition dt_lt (a b : DateTime) : bool := (dt_key a <? dt_key b)%Z.

Lemma digit_inj a b : (0 <= a <= 9)%Z -> (0 <= b <= 9)%Z -> digit a = digit b -> a = b.
Proof.
  intros Ha Hb E. apply (f_equal N_of_ascii) in E. unfold digit in E.
  rewrite !N_ascii_embedding in E by lia. lia.
Qed.
Lemma pad2_inj a b : (0 <= a < 100)%Z -> (0 <= b < 100)%Z -> pad2 a = pad2 b -> a = b.
Proof.
  unfold pad2. intros Ha Hb [= E1 E2].
  apply digit_inj in E1; [|Z.to_euclidean_division_equations; lia..].
  apply digit_inj in E2; [|Z.to_euclidean_division_equations; lia..].
  rewrite (Z.div_mod a 10), (Z.div_mod b 10), E1, E2; lia.
Qed.

(** Two occurrences share a key exactly when they are the same second. *)
Lemma isoformat_inj t t' :
  datetime_ok t -> datetime_ok t' -> isoformat_seconds t = isoformat_seconds t' -> same_second t t'.
Proof.
  unfold datetime_ok, same_second, isoformat_seconds, pad4, pad2. simpl.
  intros Ht Ht' [= ].
  repeat match goal with
         | H : digit _ = digit _ |- _ =>
             apply digit_inj in H; [|Z.to_euclidean_division_equations; lia..]
         end.
  Z.to_euclidean_division_equations; lia.
Qed.

Lemma dt_key_inj a b : datetime_ok a -> datetime_ok b -> dt_key a = dt_key b -> a = b.
Proof.
  unfold datetime_ok, dt_key. destruct a as [y1 m1 d1 h1 i1 s1 u1], b as [y2 m2 d2 h2 i2 s2 u2]. simpl.
  intros Ha Hb E. assert (u1 = u2) by lia. assert (s1 = s2) by lia. assert (i1 = i2) by lia.
  assert (h1 = h2) by lia. assert (d1 = d2) by lia. assert (m1 = m2) by lia. assert (y1 = y2) by lia.
  by subst.
Qed.
Lemma dt_le_total : total_le dt_le.
Proof. intros a b. unfold dt_le. lia. Qed.
Lemma dt_le_trans : trans_le dt_le.
Proof. intros a b c. unfold dt_le. lia. Qed.
