(* ===== verification/JobMigration.v ===== *)
(** [backend/jobs/migration.py] and [backend/jobs/handlers.py]: the flag-gated
    cutover of a domain to the durable queue, and the mode-aware handlers that
    run its jobs. What a schedule executes is a parameter: the routers' own
    [_execute_report] and [_execute_import], and the enrichment worker. *)
From S2P Require Import Prelude PyStr PyJson JobModel JobService JobFacts JobExec JobRaces.
From S2P Require Import DateTime JobRuntime RuntimeClaims.
From Stdlib Require Import Ascii.
Open Scope string_scope.
Open Scope list_scope.
Local Open Scope py_scope.

(** * Modes *)

Definition OFF : string := "off".
Definition SHADOW : string := "shadow".
Definition QUEUE : string := "queue".
Definition VALID : list string := [OFF; SHADOW; QUEUE].

(** [os.environ] *)
Definition Env : Type := string -> option string.
Definition getenv (e : Env) (k default : string) : string :=
  match e k with Some v => v | None => default end.

Definition job_mode (env : Env) (domain : string) : string :=
  let raw := lower (strip (getenv env ("UKIP_JOBS_" ++ upper domain) OFF)) in
  if bool_decide (raw ∈ VALID) then raw else OFF.

Definition should_run_inprocess (mode : string) : bool := bool_decide (mode ∈ [OFF; SHADOW]).
Definition should_enqueue (mode : string) : bool := bool_decide (mode ∈ [SHADOW; QUEUE]).

Definition inprocess_schedulers_enabled (env : Env) : bool :=
  negb (bool_decide (lower (strip (getenv env "UKIP_INPROCESS_SCHEDULERS" "1"))
                     ∈ ["0"; "false"; "no"; "off"])).

(** The attributes of a schedule the dispatcher reads. *)
Record Schedule := mkSchedule { sc_id : Z; sc_org_id : option Z; sc_next_run_at : option DateTime }.

Definition occurrence_key (domain : string) (schedule_id : Z) (occurrence_at : option DateTime) : string :=
  let occ := match occurrence_at with Some t => isoformat_seconds t | None => "adhoc" end in
  (domain ++ ":" ++ str_of_Z schedule_id ++ ":" ++ occ)%string.

(** The arguments [enqueue_occurrence] passes on. *)
Definition occurrence_args (domain jtype : string) (schedule_id : Z) (org : option Z)
    (occurrence_at : option DateTime) (mode : string) (payload' : list (string * json))
  : EnqueueArgs :=
  let body := [("schedule_id", JInt schedule_id); ("mode", JStr mode)] in
  let body := match payload' with [] => body | _ => dict_update body payload' end in
  mkEnqueue jtype org (occurrence_key domain schedule_id occurrence_at) (Some (JObj body)) None 100
    DEFAULT_MAX_ATTEMPTS None (Some (domain ++ ":" ++ str_of_Z schedule_id)%string) 1.

Section migration.
Context {W : Type}.
Notation Db := (JobDb W).

Definition enqueue_occurrence (domain jtype : string) (schedule_id : Z) (org : option Z)
    (occurrence_at : option DateTime) (mode : string) (payload' : list (string * json))
    (clock : Z) (uuid : string) (others : Db -> Db) : M Db (option Job) :=
  if negb (should_enqueue mode) then mret None
  else
    do! job <- enqueue (occurrence_args domain jtype schedule_id org occurrence_at mode payload')
                 clock uuid others;
    mret (Some job).

Definition dispatch_due (env : Env) (domain jtype : string) (schedule : Schedule)
    (execute : Schedule -> M Db unit) (clock : Z) (uuid : string) (others : Db -> Db)
  : M Db string :=
  let mode := job_mode env domain in
  run! (if should_enqueue mode then
          mtry (run! enqueue_occurrence domain jtype (sc_id schedule) (sc_org_id schedule)
                       (sc_next_run_at schedule) mode [] clock uuid others;
                commit)
               (fun _ => rollback)
        else mret tt);
  run! (if should_run_inprocess mode then execute schedule else mret tt);
  mret mode.

(** * Handlers *)

Definition AttributeError : exn := Exn "AttributeError" "object has no attribute 'get'".

(** [json.loads(job.payload).get("mode", QUEUE)] guarded against ValueError
    and TypeError only. *)
Definition mode_of (job : Job) : res json :=
  match payload job with
  | None => Ok (JStr QUEUE)
  | Some p =>
      if negb (truthy p) then Ok (JStr QUEUE)
      else match loads p with
           | None => Ok (JStr QUEUE)
           | Some (JObj kvs) =>
               Ok (match dict_get "mode" kvs with Some v => v | None => JStr QUEUE end)
           | Some _ => Raise AttributeError
           end
  end.

Definition payload_of (job : Job) : json :=
  match payload job with
  | None => JObj []
  | Some p => if truthy p then match loads p with Some v => v | None => JObj [] end else JObj []
  end.

(** [_payload(job).get(key)] *)
Definition payload_get (key : string) (job : Job) : res json :=
  match payload_of job with
  | JObj kvs => Ok (match dict_get key kvs with Some v => v | None => JNull end)
  | _ => Raise AttributeError
  end.

Definition shadow_noop (job : Job) : res bool :=
  let? m := mode_of job in Ok (bool_decide (m = JStr SHADOW)).

(** One migrated domain: the payload key that names the row, how the row is
    looked up, and what executing it does. *)
Definition domain_execute {R} (key : string) (lookup : json -> W -> option R)
    (run : R -> M Db unit) : Handler W := fun job =>
  do! noop <- mlift (shadow_noop job);
  if noop then mret job
  else
    do! rid <- mlift (payload_get key job);
    do! d <- mget;
    match lookup rid (world d) with
    | None => mret job
    | Some r => run! run r; refresh (id job)
    end.

Context {Report Import Entity : Type}.
Context (get_report : json -> W -> option Report) (execute_report : Report -> M Db unit).
Context (get_import : json -> W -> option Import) (execute_import : Import -> M Db unit).
Context (get_entity : json -> W -> option Entity) (enrich_single_record : Entity -> M Db unit).

Definition report_execute : Handler W := domain_execute "schedule_id" get_report execute_report.
Definition import_execute : Handler W := domain_execute "schedule_id" get_import execute_import.
Definition enrichment_execute : Handler W := domain_execute "entity_id" get_entity enrich_single_record.

Definition register_all (h : Registry W) : Registry W :=
  register_handler "enrichment.execute" enrichment_execute
    (register_handler "import.execute" import_execute
      (register_handler "report.execute" report_execute h)).
End migration.

(** * Dispatch *)

Lemma should_enqueue_spec m : should_enqueue m = true <-> m = SHADOW \/ m = QUEUE.
Proof.
  unfold should_enqueue. rewrite bool_decide_eq_true, !elem_of_cons, elem_of_nil. tauto.
Qed.

Section dispatch.
Context {W : Type}.
Notation Db := (JobDb W).
Implicit Types (d : Db).

(** What an undisturbed [enqueue] with a non-empty key commits or leaves. *)
Lemma enqueue_alone a clock uuid d :
  ea_idempotency_key a <> "" ->
  let n := new_job a clock uuid (next_id d) in
  let d' := mkJobDb (jobs d ++ [n]) (next_id d + 1) (audits d) (world d) in
  match find_by_key (ea_org_id a) (ea_job_type a) (ea_idempotency_key a) d with
  | Some j => enqueue a clock uuid (fun d => d) (clean d) = (Ok j, clean d)
  | None =>
      if violates_unique n d
      then enqueue a clock uuid (fun d => d) (clean d) = (Raise IntegrityError, clean d)
      else enqueue a clock uuid (fun d => d) (clean d) = (Ok n, mkSession d' d)
  end.
Proof.
  intros Hk n d'. destruct (find_by_key _ _ _ d) as [j|] eqn:Hf.
  - by apply enqueue_existing.
  - unfold enqueue. rewrite bool_decide_false by done. mrun. cbn [clean sess_db].
    rewrite Hf. mrun. unfold mtry, flush_insert. cbn [clean sess_db sess_base]. fold n.
    destruct (violates_unique n d); [|done].
    unfold mbind, rollback, mget. simpl. by rewrite Hf.
Qed.

Lemma occurrence_key_nonempty domain i t : occurrence_key domain i t <> "".
Proof. unfold occurrence_key. by destruct domain. Qed.

(** The table after the (best-effort) enqueue of an occurrence. *)
Definition dispatched (domain jtype : string) (s : Schedule) (mode : string)
    (clock : Z) (uuid : string) (d : Db) : Db :=
  let a := occurrence_args domain jtype (sc_id s) (sc_org_id s) (sc_next_run_at s) mode [] in
  let n := new_job a clock uuid (next_id d) in
  if should_enqueue mode then
    match find_by_key (sc_org_id s) jtype (ea_idempotency_key a) d with
    | Some _ => d
    | None => if violates_unique n d then d
              else mkJobDb (jobs d ++ [n]) (next_id d + 1) (audits d) (world d)
    end
  else d.

(** Dispatching a due occurrence is safe in every mode: the durable job
    is added at most once per (schedule, occurrence) and only in shadow and
    queue mode, whatever goes wrong while enqueueing; then the in-process
    path runs exactly once, from a session with nothing pending, in off and
    shadow mode, and not at all in queue mode. *)
Theorem dispatch_due_spec env domain jtype s (execute : Schedule -> M Db unit) clock uuid d :
  let mode := job_mode env domain in
  let d1 := dispatched domain jtype s mode clock uuid d in
  dispatch_due env domain jtype s execute clock uuid (fun d => d) (clean d) =
    (if should_run_inprocess mode then mbind (execute s) (fun _ => mret mode) (clean d1)
     else (Ok mode, clean d1)) /\
  (should_enqueue mode = true -> dispatched domain jtype s mode clock uuid d1 = d1) /\
  (mode = OFF -> d1 = d) /\ world d1 = world d.
Proof.
  intros mode d1. set (a := occurrence_args domain jtype (sc_id s) (sc_org_id s) (sc_next_run_at s) mode []).
  pose proof (enqueue_alone a clock uuid d (occurrence_key_nonempty _ _ _)) as He. cbv zeta in He.
  change (ea_org_id a) with (sc_org_id s) in He. change (ea_job_type a) with jtype in He.
  split; [|split; [|split]].
  - unfold dispatch_due. fold mode. unfold enqueue_occurrence. fold a.
    destruct (should_enqueue mode) eqn:Hm; simpl negb; cbv iota.
    + assert (Hrun : mtry (run! (do! job <- enqueue a clock uuid (fun d => d); mret (Some job)); commit)
                      (fun _ => rollback) (clean d) = (Ok tt, clean d1)).
      { unfold d1, dispatched. fold a. cbv zeta. rewrite Hm.
        destruct (find_by_key _ _ _ d); [unfold mtry, mbind; by rewrite He|].
        destruct (violates_unique _ d); unfold mtry, mbind; by rewrite He. }
      erewrite run_ok by exact Hrun. by destruct (should_run_inprocess mode).
    + unfold d1, dispatched. rewrite Hm. mrun. by destruct (should_run_inprocess mode).
  - intros Hm. unfold d1, dispatched at 2. fold a. rewrite Hm.
    destruct (find_by_key _ _ _ d) as [j|] eqn:Hf; [|destruct (violates_unique _ d) eqn:Hv].
    + unfold dispatched. fold a. by rewrite Hm, Hf.
    + unfold dispatched. fold a. by rewrite Hm, Hf, Hv.
    + unfold dispatched. fold a. rewrite Hm.
      set (n := new_job a clock uuid (next_id d)).
      set (d2 := mkJobDb (jobs d ++ [n]) _ _ _).
      assert (Hn : In n (jobs d2)) by (apply in_app_iff; right; by left).
      assert (Hk : key_matches (sc_org_id s) jtype (ea_idempotency_key a) n = true)
        by (apply key_matches_spec; repeat split).
      fold n in Hv. rewrite Hf, Hv. by destruct (find_by_key_hit _ _ _ d2 n Hn Hk) as (j & -> & _).
  - intros Hm. unfold d1, dispatched. by rewrite Hm.
  - unfold d1, dispatched. fold a. destruct (should_enqueue mode); [|done].
    destruct (find_by_key _ _ _ d); [done|]. by destruct (violates_unique _ d).
Qed.

(** ** Handlers of migrated domains *)

Lemma mode_of_occurrence domain jtype i org t mode clock uuid n :
  mode_of (new_job (occurrence_args domain jtype i org t mode []) clock uuid n) = Ok (JStr mode).
Proof.
  unfold mode_of. cbn -[dumps loads dict_get]. rewrite loads_dumps; [reflexivity|].
  repeat constructor; set_solver.
Qed.

Lemma domain_execute_shadow {R} key lookup (run : R -> M Db unit) (j : Job) s :
  mode_of j = Ok (JStr SHADOW) -> domain_execute key lookup run j s = (Ok j, s).
Proof.
  intros Hm. unfold domain_execute, shadow_noop. rewrite Hm. simpl. by mrun.
Qed.
End dispatch.

Section shadow.
Context {W : Type}.
Notation Db := (JobDb W).
Context {Report Import Entity : Type}.
Context (get_report : json -> W -> option Report) (execute_report : Report -> M Db unit).
Context (get_import : json -> W -> option Import) (execute_import : Import -> M Db unit).
Context (get_entity : json -> W -> option Entity) (enrich_single_record : Entity -> M Db unit).
Let handlers : Registry W :=
  register_all get_report execute_report get_import execute_import get_entity enrich_single_record [].

Lemma migrated_handler jtype h j s :
  get_handler jtype handlers = Some h -> mode_of j = Ok (JStr SHADOW) -> h j s = (Ok j, s).
Proof.
  intros Hh Hm. unfold get_handler, handlers in Hh. simpl in Hh.
  repeat case_decide; simplify_eq; by apply domain_execute_shadow.
Qed.

(** A shadow job never repeats the side effect: whatever the executions
    of the migrated domains would do, a worker that takes the durable job of
    a shadow-mode occurrence marks it succeeded and changes nothing else in
    the database. *)
Theorem shadow_job_no_side_effect domain jtype i0 org t clock uuid n owner jt secs c1 c2 pg locked d :
  jtype ∈ ["report.execute"; "import.execute"; "enrichment.execute"] ->
  let j := new_job (occurrence_args domain jtype i0 org t SHADOW []) clock uuid n in
  ids_ok d -> get_job n d = Some j -> select_candidate_id jt c1 pg locked d = Some n ->
  let '(r, s) := run_once handlers owner jt secs c1 c2 pg locked (fun d => d) (clean d) in
  r = Ok (Some (claimed owner secs c1 j)) /\
  s = clean (upd n (fun r => completed c2 (claimed owner secs c1 r)) d) /\
  world (sess_base s) = world d /\ audits (sess_base s) = audits d.
Proof.
  intros Ht j Hd Hg Hsel.
  assert (Hh : exists h, get_handler jtype handlers = Some h).
  { rewrite !elem_of_cons, elem_of_nil in Ht.
    destruct Ht as [->|[->|[->|[]]]]; eexists; reflexivity. }
  destruct Hh as [h Hh]. set (d1 := upd n (claimed owner secs c1) d).
  erewrite (run_once_success handlers d owner jt secs c1 c2 pg locked n j h
              (claimed owner secs c1 j) (clean d1)); try done.
  - cbn [clean sess_base sess_db]. split; [done|]. split; [|done]. f_equal.
    unfold d1, upd, with_jobs. cbn [jobs next_id audits world]. f_equal.
    by apply update_where_twice.
  - apply (migrated_handler jtype); [done|].
    exact (mode_of_occurrence domain jtype i0 org t SHADOW clock uuid n).
  - by apply ids_ok_upd.
  - by apply get_job_upd_eq.
Qed.
End shadow.

(** * Concrete runs *)

Definition noon : DateTime := mkDateTime 2026 3 5 12 0 7 123456.
Definition demo_schedule : Schedule := mkSchedule 4 (Some 7%Z) (Some noon).
Definition demo_env (mode : string) : Env :=
  fun k => if bool_decide (k = "UKIP_JOBS_REPORTS") then Some mode else None.
(** The in-process execution counts its runs. *)
Definition demo_execute (_ : Schedule) : M (JobDb Z) unit :=
  run! mmodify (fun d => mkJobDb (jobs d) (next_id d) (audits d) (world d + 1)%Z); commit.
Definition fresh_db : JobDb Z := mkJobDb [] 1 [] 0%Z.
Definition demo_dispatch (mode : string) (d : JobDb Z) : JobDb Z :=
  sess_base (snd (dispatch_due (demo_env mode) "reports" "report.execute" demo_schedule demo_execute
                    1000 "u1" (fun d => d) (clean d))).

Example dispatch_shadow_key :
  map idempotency_key (jobs (demo_dispatch " Shadow " fresh_db)) = ["reports:4:2026-03-05T12:00:07"] /\
  map payload (jobs (demo_dispatch " Shadow " fresh_db)) =
    [Some (of_chars (chars "{'schedule_id': 4, 'mode': 'shadow'}"))
     ≫= (fun s => Some (String.concat (String (ascii_of_N 34) "") (split_on "'" s)))] /\
  world (demo_dispatch " Shadow " fresh_db) = 1%Z.
Proof. vm_compute. repeat split. Qed.

(** In queue mode a second scan of the occurrence adds nothing and runs
    nothing in process. *)
Example dispatch_queue_twice :
  let d := demo_dispatch "queue" (demo_dispatch "queue" fresh_db) in
  length (jobs d) = 1%nat /\ world d = 0%Z.
Proof. vm_compute. done. Qed.

Definition shadow_db : JobDb Z := demo_dispatch "shadow" fresh_db.
Lemma shadow_db_ids_ok : ids_ok shadow_db.
Proof. split; vm_compute; repeat constructor; set_solver. Qed.
(** A worker whose report execution would add 100. *)
Definition loud_report (_ : unit) : M (JobDb Z) unit :=
  mmodify (fun d => mkJobDb (jobs d) (next_id d) (audits d) (world d + 100)%Z).
Lemma shadow_job_no_side_effect_witness :
  let out := run_once (register_all (fun _ _ => Some tt) loud_report (fun _ _ => Some tt) loud_report
                         (fun _ _ => Some tt) loud_report [])
               "w1" None 60 5000 6000 false [] (fun d => d) (clean shadow_db) in
  world (sess_base (snd out)) = 1%Z /\ map status (jobs (sess_base (snd out))) = [SUCCEEDED].
Proof.
  pose proof (shadow_job_no_side_effect (fun _ _ => Some tt) loud_report (fun _ _ => Some tt) loud_report
           (fun _ _ => Some tt) loud_report "reports" "report.execute" 4 (Some 7%Z) (Some noon) 1000 "u1" 1
           "w1" None 60 5000 6000 false [] shadow_db ltac:(left) shadow_db_ids_ok eq_refl eq_refl) as H.
  cbv zeta. destruct (run_once _ _ _ _ _ _ _ _ _ _) as [r s]. destruct H as (_ & -> & _ & _).
  split; vm_compute; reflexivity.
Defined.

(** Within a domain, two occurrences get the same idempotency key exactly
    when they are occurrences of the same schedule in the same second (and so
    a schedule that is due twice within one second is enqueued once). *)
Theorem occurrence_key_inj domain i i' t t' :
  datetime_ok t -> datetime_ok t' ->
  occurrence_key domain i (Some t) = occurrence_key domain i' (Some t') <->
  i = i' /\ same_second t t'.
Proof.
  intros Ht Ht'. unfold occurrence_key. split.
  - intros E. apply (inj (String.append domain)) in E.
    simpl in E. injection E as E.
    apply app_sep_inj in E as [E1%str_of_Z_inj E2]; [|by apply no_char_str_of_Z..].
    split; [done|]. by apply isoformat_inj.
  - intros [-> (E1 & E2 & E3 & E4 & E5 & E6)]. unfold isoformat_seconds.
    by rewrite E1, E2, E3, E4, E5, E6.
Qed.
Lemma occurrence_key_inj_witness :
  occurrence_key "reports" 4 (Some noon) = occurrence_key "reports" 4 (Some noon) <->
  4%Z = 4%Z /\ same_second noon noon.
Proof. apply occurrence_key_inj; unfold datetime_ok; simpl; lia. Defined.
