(* ===== verification/RetroStore.v ===== *)
(** [backend/retrospective/registry.py] and [writer.py] over the two
    append-only tables of [backend/models.py]: governed event and snapshot
    families, bounded payloads, and idempotent append. [ops] is everything else
    in the caller's session: its operational, possibly uncommitted, changes. The
    organisation of a row is taken to exist and its texts to fit their columns: an
    insert fails on the unique constraints only. *)
From S2P Require Import Prelude PyStr PyJson DateTime.
Open Scope string_scope.
Open Scope list_scope.
Local Open Scope py_scope.

(** * Registry *)

Definition MAX_PAYLOAD_BYTES : Z := 32 * 1024.

Record EventFamily := mkFamily { ef_type : string; current_version : Z; ef_description : string }.
Definition SnapshotFamily := EventFamily.

Definition EVENT_FAMILY_LIST : list EventFamily :=
  [ mkFamily "journal_metric.computed" 1 "Journal NIF/APC metric first computed.";
    mkFamily "journal_metric.recomputed" 1 "Journal metric recomputed/backfilled.";
    mkFamily "enrichment.requested" 1 "Enrichment requested for an entity.";
    mkFamily "enrichment.completed" 1 "Enrichment completed.";
    mkFamily "enrichment.failed" 1 "Enrichment failed.";
    mkFamily "authority.candidate_created" 1 "Authority candidate created.";
    mkFamily "authority.accepted" 1 "Authority candidate accepted by reviewer.";
    mkFamily "authority.rejected" 1 "Authority candidate rejected by reviewer.";
    mkFamily "authority.nil_marked" 1 "Authority marked NIL (not in list)." ].

Definition SNAPSHOT_FAMILY_LIST : list SnapshotFamily :=
  [ mkFamily "journal_metric" 1 "Point-in-time journal metric state.";
    mkFamily "enrichment_coverage" 1 "Point-in-time enrichment coverage.";
    mkFamily "authority_readiness" 1 "Point-in-time authority readiness." ].

Definition EVENT_FAMILIES : list (string * EventFamily) := map (fun f => (ef_type f, f)) EVENT_FAMILY_LIST.
Definition SNAPSHOT_FAMILIES : list (string * SnapshotFamily) :=
  map (fun f => (ef_type f, f)) SNAPSHOT_FAMILY_LIST.

Definition UnknownFamily (msg : string) : exn := Exn "UnknownFamily" msg.
Definition SchemaVersionError (msg : string) : exn := Exn "SchemaVersionError" msg.

Definition event_family (event_type : string) : res EventFamily :=
  match dict_get event_type EVENT_FAMILIES with
  | Some f => Ok f
  | None => Raise (UnknownFamily ("unregistered retrospective event_type: '" ++ event_type ++ "'"))
  end.
Definition snapshot_family (snapshot_type : string) : res SnapshotFamily :=
  match dict_get snapshot_type SNAPSHOT_FAMILIES with
  | Some f => Ok f
  | None => Raise (UnknownFamily ("unregistered retrospective snapshot_type: '" ++ snapshot_type ++ "'"))
  end.

Definition resolve (current : Z) (supplied : option Z) (family_name : string) : res Z :=
  match supplied with
  | None => Ok current
  | Some v =>
      if negb (v =? current)%Z then
        Raise (SchemaVersionError (family_name ++ ": schema_version " ++ str_of_Z v ++
                 " does not match current registered version " ++ str_of_Z current))
      else Ok v
  end.
Definition resolve_event_version (event_type : string) (schema_version : option Z) : res Z :=
  let? family := event_family event_type in resolve (current_version family) schema_version event_type.
Definition resolve_snapshot_version (snapshot_type : string) (schema_version : option Z) : res Z :=
  let? family := snapshot_family snapshot_type in
  resolve (current_version family) schema_version snapshot_type.

(** * Tables *)

Record Event := mkEvent {
  ev_id : Z; event_id : string; event_type : string; ev_schema_version : Z; ev_org_id : option Z;
  domain_object_type : string; domain_object_id : string;
  occurred_at : DateTime; ev_recorded_at : DateTime;
  source : string; actor_type : string; actor_id : option string; correlation_id : option string;
  ev_idempotency_key : string; ev_payload : string; ev_lineage : option string
}.

Record Snapshot := mkSnap {
  sn_id : Z; snapshot_id : string; snapshot_type : string; sn_schema_version : Z; sn_org_id : option Z;
  subject_type : string; subject_id : string; valid_at : DateTime; sn_recorded_at : DateTime;
  sn_idempotency_key : string; sn_payload : string; sn_lineage : option string
}.

(** What the two record types have in common: the columns of the unique
    constraints, and the governed fields. *)
Class Governed (R : Type) := {
  g_id : R -> Z; g_uid : R -> string; g_org : R -> option Z; g_type : R -> string; g_key : R -> string;
  g_version : R -> Z; g_payload : R -> string;
  g_registry : list (string * EventFamily)
}.
#[export] Instance event_governed : Governed Event := {
  g_id := ev_id; g_uid := event_id; g_org := ev_org_id; g_type := event_type;
  g_key := ev_idempotency_key; g_version := ev_schema_version; g_payload := ev_payload;
  g_registry := EVENT_FAMILIES
}.
#[export] Instance snapshot_governed : Governed Snapshot := {
  g_id := sn_id; g_uid := snapshot_id; g_org := sn_org_id; g_type := snapshot_type;
  g_key := sn_idempotency_key; g_version := sn_schema_version; g_payload := sn_payload;
  g_registry := SNAPSHOT_FAMILIES
}.

(** A table with its id sequence. *)
Record Table (R : Type) := mkTable { rows : list R; seq : Z }.
Arguments mkTable {R} _ _.
Arguments rows {R} _.
Arguments seq {R} _.

Record RetroDb (W : Type) := mkRetroDb { ev_table : Table Event; sn_table : Table Snapshot; ops : W }.
Arguments mkRetroDb {W} _ _ _.
Arguments ev_table {W} _.
Arguments sn_table {W} _.
Arguments ops {W} _.

(** Where the database keeps the table of a record type. *)
Class Stored (R W : Type) := {
  the_table : RetroDb W -> Table R;
  with_table : Table R -> RetroDb W -> RetroDb W;
  the_with t d : the_table (with_table t d) = t;
  ops_with t d : ops (with_table t d) = ops d
}.
#[export] Instance events_stored W : Stored Event W := {
  the_table := ev_table; with_table t d := mkRetroDb t (sn_table d) (ops d);
  the_with t d := eq_refl; ops_with t d := eq_refl
}.
#[export] Instance snapshots_stored W : Stored Snapshot W := {
  the_table := sn_table; with_table t d := mkRetroDb (ev_table d) t (ops d);
  the_with t d := eq_refl; ops_with t d := eq_refl
}.

(** The ORM listeners refuse updates and deletes: the only session operation
    on these tables is an insert. *)
Definition append_only_error : exn :=
  Exn "RuntimeError" "Retrospective records are append-only; the only permitted mutation is governed retention deletion via the EPIC-016 lifecycle path.".

Definition RetrospectiveWriteError (msg : string) : exn := Exn "RetrospectiveWriteError" msg.
Definition PayloadTooLargeError (msg : string) : exn := Exn "PayloadTooLargeError" msg.
Definition RetroIntegrityError : exn := Exn "IntegrityError" "UNIQUE constraint failed".

(** [_serialize]: bounded JSON; [None] is the absent payload. The encoding is
    ASCII, so its bytes are its characters. *)
Definition serialize_payload (payload : option json) (field : string) : res string :=
  match payload with
  | None => Raise (RetrospectiveWriteError (field ++ " payload is required"))
  | Some p =>
      let encoded := dumps true (sort_keys p) in
      let size := Z.of_nat (String.length encoded) in
      if (MAX_PAYLOAD_BYTES <? size)%Z then
        Raise (PayloadTooLargeError (field ++ " payload is " ++ str_of_Z size ++ " bytes; limit is " ++
                 str_of_Z MAX_PAYLOAD_BYTES ++ " bytes"))
      else Ok encoded
  end.
Definition serialize_optional (v : option json) : option string :=
  option_map (fun v => dumps true (sort_keys v)) v.

Section store.
Context {R W : Type} `{Governed R} `{Stored R W}.
Notation Db := (RetroDb W).

Definition same_identity (org : option Z) (type key : string) (r : R) : bool :=
  bool_decide (g_org r = org) && bool_decide (g_type r = type) && bool_decide (g_key r = key).

Definition find_existing (org : option Z) (type key : string) (d : Db) : option R :=
  List.find (same_identity org type key) (rows (the_table d)).

(** The unique id, and the unique (org, type, key) where NULL organisations
    are distinct. *)
Definition collides (r : R) (d : Db) : bool :=
  existsb (fun r' => bool_decide (g_uid r' = g_uid r) ||
    match g_org r with Some _ => same_identity (g_org r) (g_type r) (g_key r) r' | None => false end)
    (rows (the_table d)).

Definition insert_row (mk : Z -> R) (d : Db) : Db :=
  with_table (mkTable (rows (the_table d) ++ [mk (seq (the_table d))]) (seq (the_table d) + 1)) d.

Definition insert_or_get (mk : Z -> R) (org : option Z) (type key : string) : M Db R := fun s =>
  let r := mk (seq (the_table (sess_db s))) in
  if collides r (sess_db s) then
    (run! rollback;
     do! d <- mget;
     match find_existing org type key d with
     | Some e => mret e
     | None => mraise RetroIntegrityError
     end) s
  else (Ok r, mkSession (insert_row mk (sess_db s)) (sess_base s)).

(** The body both writers share. *)
Definition record (resolved : res Z) (org : option Z) (type key field : string)
    (payload : option json) (mk : Z -> string -> Z -> R) (others : Db -> Db) : M Db R :=
  do! version <- mlift resolved;
  if negb (truthy key) then mraise (RetrospectiveWriteError "idempotency_key is required")
  else
    do! d <- mget;
    match find_existing org type key d with
    | Some e => mret e
    | None =>
        do! encoded <- mlift (serialize_payload payload field);
        run! interfere others;
        insert_or_get (mk version encoded) org type key
    end.
End store.

(** The keyword arguments of [record_event]. *)
Record EventArgs := mkEventArgs {
  ea_type : string; ea_org : option Z; ea_object_type : string; ea_object_id : string;
  ea_occurred_at : DateTime; ea_source : string; ea_key : string; ea_payload : option json;
  ea_actor_type : string; ea_actor_id : option string; ea_correlation : option string;
  ea_lineage : option json; ea_version : option Z
}.
Record SnapshotArgs := mkSnapshotArgs {
  sa_type : string; sa_org : option Z; sa_subject_type : string; sa_subject_id : string;
  sa_valid_at : DateTime; sa_key : string; sa_payload : option json; sa_lineage : option json;
  sa_version : option Z
}.

Definition event_row (a : EventArgs) (now : DateTime) (uuid : string) (version : Z) (encoded : string)
    (i : Z) : Event :=
  mkEvent i uuid (ea_type a) version (ea_org a) (ea_object_type a) (ea_object_id a)
    (ea_occurred_at a) now (ea_source a) (ea_actor_type a) (ea_actor_id a) (ea_correlation a)
    (ea_key a) encoded (serialize_optional (ea_lineage a)).
Definition snapshot_row (a : SnapshotArgs) (now : DateTime) (uuid : string) (version : Z)
    (encoded : string) (i : Z) : Snapshot :=
  mkSnap i uuid (sa_type a) version (sa_org a) (sa_subject_type a) (sa_subject_id a)
    (sa_valid_at a) now (sa_key a) encoded (serialize_optional (sa_lineage a)).

Section writers.
Context {W : Type}.
Notation Db := (RetroDb W).

Definition record_event (a : EventArgs) (now : DateTime) (uuid : string) (others : Db -> Db)
  : M Db Event :=
  record (resolve_event_version (ea_type a) (ea_version a)) (ea_org a) (ea_type a) (ea_key a) "event"
    (ea_payload a) (event_row a now uuid) others.

Definition record_snapshot (a : SnapshotArgs) (now : DateTime) (uuid : string) (others : Db -> Db)
  : M Db Snapshot :=
  record (resolve_snapshot_version (sa_type a) (sa_version a)) (sa_org a) (sa_type a) (sa_key a)
    "snapshot" (sa_payload a) (snapshot_row a now uuid) others.
End writers.

(** * Facts

    What a retrospective write does, for either record type: the cases of
    [record], and the invariant of a governed append-only table. *)
Lemma resolve_Ok c v n r : resolve c v n = Ok r -> r = c.
Proof.
  unfold resolve. destruct v as [v|]; [|by intros [= <-]].
  destruct (v =? c)%Z eqn:E; simpl; [|done]. intros [= <-]. lia.
Qed.

(** The version a write resolves to, by the registry of its record type. *)
Definition resolved_in (reg : list (string * EventFamily)) (type : string) (r : res Z) : Prop :=
  forall v, r = Ok v -> exists f, dict_get type reg = Some f /\ v = current_version f.

Lemma event_resolved t v : resolved_in EVENT_FAMILIES t (resolve_event_version t v).
Proof.
  intros x H. unfold resolve_event_version, event_family in H.
  destruct (dict_get t EVENT_FAMILIES) as [f|] eqn:E; [|done]. simpl in H. apply resolve_Ok in H. exists f. split; [first [exact E|reflexivity]|exact H].
Qed.
Lemma snapshot_resolved t v : resolved_in SNAPSHOT_FAMILIES t (resolve_snapshot_version t v).
Proof.
  intros x H. unfold resolve_snapshot_version, snapshot_family in H.
  destruct (dict_get t SNAPSHOT_FAMILIES) as [f|] eqn:E; [|done]. simpl in H. apply resolve_Ok in H. exists f. split; [first [exact E|reflexivity]|exact H].
Qed.

Lemma serialize_payload_Ok p f e :
  serialize_payload p f = Ok e ->
  exists v, p = Some v /\ e = dumps true (sort_keys v) /\ (Z.of_nat (String.length e) <= MAX_PAYLOAD_BYTES)%Z.
Proof.
  unfold serialize_payload. destruct p as [v|]; [|done].
  destruct (_ <? _)%Z eqn:E; [done|]. intros [= <-]. exists v. split; [done|]. split; [done|]. lia.
Qed.

Section facts.
Context {R W : Type} `{HG : Governed R} `{HS : Stored R W}.
Notation Db := (RetroDb W).
Implicit Types (d : Db) (r : R).

Lemma same_identity_spec org type key r :
  same_identity org type key r = true <-> g_org r = org /\ g_type r = type /\ g_key r = key.
Proof. unfold same_identity. rewrite !andb_true_iff, !bool_decide_eq_true. tauto. Qed.

Lemma find_existing_Some org type key d r :
  find_existing org type key d = Some r ->
  In r (rows (the_table d)) /\ g_org r = org /\ g_type r = type /\ g_key r = key.
Proof. intros [Hin H]%find_some. by apply same_identity_spec in H. Qed.
Lemma find_existing_None org type key d r :
  find_existing org type key d = None -> In r (rows (the_table d)) ->
  same_identity org type key r = false.
Proof. intros H Hin. exact (find_none _ _ H r Hin). Qed.

(** One write by a session alone, with a fresh id. *)
Section one_write.
Context (resolved : res Z) (org : option Z) (type key field : string) (payload : option json)
        (mk : Z -> string -> Z -> R).
Context (Hmk : forall v e i, g_org (mk v e i) = org /\ g_type (mk v e i) = type /\
                             g_key (mk v e i) = key /\ g_version (mk v e i) = v /\
                             g_payload (mk v e i) = e).

Definition write : M Db R := record resolved org type key field payload mk (fun d => d).

(** Why a write is refused. *)
Definition refused d : Prop :=
  (exists e, resolved = Raise e) \/ key = "" \/
  (find_existing org type key d = None /\ exists e, serialize_payload payload field = Raise e).

Lemma write_cases d base :
  (forall v e i r, In r (rows (the_table d)) -> g_uid r <> g_uid (mk v e i)) ->
  let '(out, s) := write (mkSession d base) in
  (s = mkSession d base /\ refused d /\ exists e, out = Raise e) \/
  (s = mkSession d base /\ exists r, out = Ok r /\ find_existing org type key d = Some r) \/
  (find_existing org type key d = None /\
   exists v e p, resolved = Ok v /\ payload = Some p /\ e = dumps true (sort_keys p) /\
     (Z.of_nat (String.length e) <= MAX_PAYLOAD_BYTES)%Z /\
     out = Ok (mk v e (seq (the_table d))) /\ s = mkSession (insert_row (mk v e) d) base).
Proof.
  intros Hfresh. unfold write, record, refused.
  destruct resolved as [v|e]; mrun; [|left; eauto 6].
  destruct (negb (truthy key)) eqn:Hk.
  { left. split; [done|]. split; [|eexists; reflexivity]. right. left.
    unfold truthy in Hk. rewrite negb_involutive in Hk. by apply bool_decide_eq_true in Hk. }
  mrun. destruct (find_existing org type key d) as [r|] eqn:Hf; [right; left; eauto|].
  destruct (serialize_payload payload field) as [e|x] eqn:Hs; mrun; [|left; eauto 8].
  apply serialize_payload_Ok in Hs as (p & -> & -> & Hle).
  unfold insert_or_get. cbn [sess_db sess_base].
  replace (collides (mk v (dumps true (sort_keys p)) (seq (the_table d))) d) with false.
  { right. right. split; [done|]. eauto 10. }
  symmetry. apply not_true_iff_false. intros (r' & Hr' & H)%existsb_exists.
  apply orb_prop in H as [H|H].
  - apply bool_decide_eq_true in H. by apply (Hfresh v (dumps true (sort_keys p)) (seq (the_table d)) r').
  - destruct (Hmk v (dumps true (sort_keys p)) (seq (the_table d))) as (E1 & E2 & E3 & _).
    rewrite E1, E2, E3 in H. destruct org; [|done].
    by rewrite (find_existing_None _ _ _ _ _ Hf Hr') in H.
Qed.
End one_write.

(** ** The invariant of a governed table *)

Definition governed_row (r : R) : Prop :=
  (exists f, dict_get (g_type r) g_registry = Some f /\ g_version r = current_version f) /\
  g_key r <> "" /\ (Z.of_nat (String.length (g_payload r)) <= MAX_PAYLOAD_BYTES)%Z /\
  exists p, loads (g_payload r) = Some p.

Definition table_ok (t : Table R) : Prop :=
  Forall governed_row (rows t) /\ NoDup (map g_uid (rows t)) /\
  (forall r r', In r (rows t) -> In r' (rows t) -> is_Some (g_org r) ->
     same_identity (g_org r) (g_type r) (g_key r) r' = true -> g_uid r = g_uid r').

Lemma rows_insert mk d : rows (the_table (insert_row mk d)) = rows (the_table d) ++ [mk (seq (the_table d))].
Proof. unfold insert_row. by rewrite the_with. Qed.

Lemma table_ok_append d r :
  table_ok (the_table d) -> governed_row r ->
  (forall r', In r' (rows (the_table d)) -> g_uid r' <> g_uid r) ->
  (forall r', In r' (rows (the_table d)) -> same_identity (g_org r) (g_type r) (g_key r) r' = false) ->
  forall n, table_ok (mkTable (rows (the_table d) ++ [r]) n).
Proof.
  intros (Hg & Hnd & Hu) Hr Hfresh Hnew n. split; [|split]; simpl.
  - apply Forall_app. split; [exact Hg|by apply Forall_singleton].
  - rewrite map_app. apply NoDup_app. split; [done|]. split; [|apply NoDup_singleton].
    intros u Hin Hu'%list_elem_of_singleton. subst.
    apply list_elem_of_In, in_map_iff in Hin as (r' & E & Hin). by apply (Hfresh r').
  - intros a b. rewrite !in_app_iff. intros [Ha|[<-|[]]] [Hb|[<-|[]]] Ho Hs; try done.
    + by apply Hu.
    + exfalso. apply same_identity_spec in Hs as (E1 & E2 & E3).
      specialize (Hnew a Ha). rewrite E1, E2, E3 in Hnew.
      assert (same_identity (g_org a) (g_type a) (g_key a) a = true) by (by apply same_identity_spec).
      congruence.
    + exfalso. specialize (Hnew b Hb). congruence.
Qed.
End facts.
