(* ===== verification/RetroEmit.v ===== *)
(** [backend/retrospective/emit.py]: best-effort emission from operational
    workflows. An emitter returns the number of failed emissions it adds to the
    process-local counter of [metrics.py]. Metric values are JSON values. *)
From S2P Require Import Prelude PyStr PyJson DateTime JobMigration RetroStore.
Open Scope string_scope.
Open Scope list_scope.
Local Open Scope py_scope.

Definition retro_events_enabled (env : Env) : bool :=
  bool_decide (lower (strip (getenv env "UKIP_RETRO_EVENTS" "0")) ∈ ["1"; "true"; "yes"; "on"]).

Definition js (o : option string) : json := match o with Some s => JStr s | None => JNull end.
Definition jz (o : option Z) : json := match o with Some z => JInt z | None => JNull end.
Definition jv (o : option json) : json := match o with Some v => v | None => JNull end.

Section emit.
Context {W : Type} (env : Env) (now : DateTime) (uuid : string).
Notation Db := (RetroDb W).

(** [try: record_event(...) except Exception: record_failed_emission()] *)
Definition emit_with (a : EventArgs) (others : Db -> Db) : M Db Z :=
  mtry (run! record_event a now uuid others; mret 0%Z) (fun _ => mret 1%Z).

Definition journal_metric_args (org : option Z) (issn_l : string) (new_nif : json)
    (prior_nif : option json) (nif_field : string) (field_median : option json)
    (occurred : DateTime) (source_id : option string) : EventArgs :=
  mkEventArgs
    (match prior_nif with None => "journal_metric.computed" | Some _ => "journal_metric.recomputed" end)
    org "journal" ("issn:" ++ issn_l) occurred "journal_normalization"
    (issn_l ++ ":" ++ isoformat occurred)
    (Some (JObj [("nif", new_nif); ("prior_nif", jv prior_nif); ("nif_field", JStr nif_field);
                 ("field_median", jv field_median)]))
    "job" None None
    (match source_id with
     | Some s => if truthy s then Some (JObj [("source_id", JStr s)]) else None
     | None => None end)
    None.

Definition emit_journal_metric_normalized (org : option Z) (issn_l : string) (new_nif : json)
    (prior_nif : option json) (nif_field : string) (field_median : option json)
    (occurred : DateTime) (source_id : option string) (others : Db -> Db) : M Db Z :=
  if negb (retro_events_enabled env) then mret 0%Z
  else emit_with (journal_metric_args org issn_l new_nif prior_nif nif_field field_median occurred source_id)
         others.

Definition ENRICHMENT_EVENTS : list (string * string) :=
  [("completed", "enrichment.completed"); ("failed", "enrichment.failed")].

Definition enrichment_args (etype : string) (org : option Z) (entity_id : Z) (status : string)
    (occurred : DateTime) (src : option string) (citation_count : option Z)
    (work_type failure_reason : option string) : EventArgs :=
  let payload := [("status", JStr status); ("source", js src)] in
  let payload := if bool_decide (etype = "enrichment.completed")
                 then dict_set "work_type" (js work_type)
                        (dict_set "citation_count" (jz citation_count) payload)
                 else dict_set "failure_reason" (js failure_reason) payload in
  mkEventArgs etype org "entity" (str_of_Z entity_id) occurred "enrichment_worker"
    (str_of_Z entity_id ++ ":" ++ status ++ ":" ++ isoformat occurred)
    (Some (JObj payload)) "job" None None None None.

Definition emit_enrichment_lifecycle (org : option Z) (entity_id : Z) (status : string)
    (occurred : DateTime) (src : option string) (citation_count : option Z)
    (work_type failure_reason : option string) (others : Db -> Db) : M Db Z :=
  if negb (retro_events_enabled env) then mret 0%Z
  else match dict_get status ENRICHMENT_EVENTS with
       | None => mret 0%Z
       | Some etype =>
           emit_with (enrichment_args etype org entity_id status occurred src citation_count
                        work_type failure_reason) others
       end.

Definition DECISION_EVENTS : list (string * string) :=
  [("accepted", "authority.accepted"); ("rejected", "authority.rejected")].

Definition decision_args (etype : string) (org : option Z) (record_id : Z) (decision : string)
    (occurred : DateTime) (actor field_name authority_source authority_id canonical_label : option string)
    (confidence : option json) : EventArgs :=
  mkEventArgs etype org "authority_record" (str_of_Z record_id) occurred "authority_review"
    (str_of_Z record_id ++ ":" ++ decision ++ ":" ++ isoformat occurred)
    (Some (JObj [("decision", JStr decision); ("field_name", js field_name);
                 ("authority_source", js authority_source); ("authority_id", js authority_id);
                 ("canonical_label", js canonical_label); ("confidence", jv confidence)]))
    "user" actor None None None.

Definition emit_authority_decision (org : option Z) (record_id : Z) (decision : string)
    (occurred : DateTime) (actor field_name authority_source authority_id canonical_label : option string)
    (confidence : option json) (others : Db -> Db) : M Db Z :=
  if negb (retro_events_enabled env) then mret 0%Z
  else match dict_get decision DECISION_EVENTS with
       | None => mret 0%Z
       | Some etype =>
           emit_with (decision_args etype org record_id decision occurred actor field_name
                        authority_source authority_id canonical_label confidence) others
       end.

(** ** Emission alone in the session *)

(** What an emitter may do to the caller's session. *)
Definition harmless (d base : Db) (out : res Z * Session Db) : Prop :=
  (out.1 = Ok 0%Z \/ out.1 = Ok 1%Z) /\
  sess_base out.2 = base /\ ops (sess_db out.2) = ops d /\ sn_table (sess_db out.2) = sn_table d /\
  (rows (ev_table (sess_db out.2)) = rows (ev_table d) \/
   exists e, rows (ev_table (sess_db out.2)) = rows (ev_table d) ++ [e] /\ out.1 = Ok 0%Z) /\
  (out.1 = Ok 1%Z -> sess_db out.2 = d).

Lemma event_row_identity a v e i :
  g_org (event_row a now uuid v e i) = ea_org a /\ g_type (event_row a now uuid v e i) = ea_type a /\
  g_key (event_row a now uuid v e i) = ea_key a /\ g_version (event_row a now uuid v e i) = v /\
  g_payload (event_row a now uuid v e i) = e.
Proof. done. Qed.

Lemma emit_with_harmless a d base :
  (forall r, In r (rows (ev_table d)) -> event_id r <> uuid) ->
  harmless d base (emit_with a (fun d => d) (mkSession d base)).
Proof.
  intros Hfresh. unfold emit_with, mtry, mbind, record_event.
  pose proof (write_cases (W := W) (resolve_event_version (ea_type a) (ea_version a)) (ea_org a) (ea_type a)
                (ea_key a) "event" (ea_payload a) (event_row a now uuid)
                (event_row_identity a) d base (fun _ _ _ r Hr => Hfresh r Hr)) as H.
  unfold write in H. destruct (record _ _ _ _ _ _ _ _ _) as [out s].
  destruct H as [(-> & _ & e & ->)|[(-> & r & -> & _)|(_ & v & e & p & _ & _ & _ & _ & -> & ->)]].
  - unfold harmless. simpl. auto 10.
  - unfold harmless. simpl. split; [auto|]. repeat split; auto.
  - unfold harmless. simpl. split; [auto|]. do 3 (split; [done|]). split; [|done].
    right. eexists. split; [reflexivity|done].
Qed.
Lemma skip_harmless d base : harmless d base (mret 0%Z (mkSession d base)).
Proof. unfold harmless. simpl. split; [auto|]. repeat split; auto. Qed.
End emit.

(** Emission is non-fatal and isolated: whatever it is given, an emitter
    never raises; alone in its session it never rolls back or commits, leaves
    every pending operational change as it was, and appends at most one event;
    a failed emission is counted and leaves no trace; and with the flag off, or
    for a status that is not governed, it does nothing. *)
Theorem emission_non_fatal {W} env now uuid (d base : RetroDb W) org issn nif prior field median occ sid
    entity status src cites wt why rid dec actor fname asrc aid label conf :
  (forall r, In r (rows (ev_table d)) -> event_id r <> uuid) ->
  let s := mkSession d base in
  let j := emit_journal_metric_normalized env now uuid org issn nif prior field median occ sid (fun d => d) s in
  let e := emit_enrichment_lifecycle env now uuid org entity status occ src cites wt why (fun d => d) s in
  let a := emit_authority_decision env now uuid org rid dec occ actor fname asrc aid label conf (fun d => d) s in
  harmless d base j /\ harmless d base e /\ harmless d base a /\
  (retro_events_enabled env = false -> j = (Ok 0%Z, s) /\ e = (Ok 0%Z, s) /\ a = (Ok 0%Z, s)) /\
  (status <> "completed" /\ status <> "failed" -> e = (Ok 0%Z, s)) /\
  (dec <> "accepted" /\ dec <> "rejected" -> a = (Ok 0%Z, s)).
Proof.
  intros Hfresh s j e a. unfold j, e, a, s.
  unfold emit_journal_metric_normalized, emit_enrichment_lifecycle, emit_authority_decision.
  pose proof (skip_harmless d base) as Hskip.
  assert (Hemit : forall a, harmless d base (emit_with now uuid a (fun d => d) (mkSession d base)))
    by (intros; by apply emit_with_harmless).
  destruct (retro_events_enabled env); cbn [negb].
  - split; [apply Hemit|]. split; [destruct (dict_get status _); auto|].
    split; [destruct (dict_get dec _); auto|]. split; [done|]. split.
    + intros [H1 H2]. unfold ENRICHMENT_EVENTS. simpl. by rewrite !decide_False.
    + intros [H1 H2]. unfold DECISION_EVENTS. simpl. by rewrite !decide_False.
  - do 3 (split; [done|]). split; [done|]. by split.
Qed.

Definition retro_env : Env := fun k => if bool_decide (k = "UKIP_RETRO_EVENTS") then Some " On " else None.
Definition retro0 : RetroDb Z := mkRetroDb (mkTable [] 1) (mkTable [] 1) 5%Z.
Lemma emission_non_fatal_witness :
  let out := emit_authority_decision retro_env noon "u1" (Some 7%Z) 3 "accepted" noon (Some "9") None None
               None None None (fun d => d) (mkSession (mkRetroDb (mkTable [] 1) (mkTable [] 1) 6%Z) retro0) in
  map ev_idempotency_key (rows (ev_table (sess_db (snd out)))) = ["3:accepted:2026-03-05T12:00:07.123456"] /\
  harmless (mkRetroDb (mkTable [] 1) (mkTable [] 1) 6%Z) retro0 out.
Proof.
  split; [vm_compute; reflexivity|].
  exact (proj1 (proj2 (proj2 (emission_non_fatal retro_env noon "u1"
    (mkRetroDb (mkTable [] 1) (mkTable [] 1) 6%Z) retro0 (Some 7%Z) "" JNull None "" None noon None
    0 "" None None None None 3 "accepted" (Some "9") None None None None None
    (fun r H => match H with end))))).
Defined.

(** Under a race the same writer can roll the caller back: another session
    commits the same event between the existence check and the insert, and the
    pending operational change (6) is lost for the committed one (5). *)
Lemma emission_race_discards_pending :
  let row := event_row (decision_args "authority.accepted" (Some 7%Z) 3 "accepted" noon (Some "9") None None
                          None None None) noon "u0" 1 "{}" 1 in
  let others d := mkRetroDb (mkTable (rows (ev_table d) ++ [row]) 2) (sn_table d) (ops d) in
  let out := emit_authority_decision retro_env noon "u1" (Some 7%Z) 3 "accepted" noon (Some "9") None None
               None None None others (mkSession (mkRetroDb (mkTable [] 1) (mkTable [] 1) 6%Z) retro0) in
  fst out = Ok 0%Z /\ ops (sess_db (snd out)) = 5%Z.
Proof. vm_compute. done. Qed.
