(* ===== verification/RetroQuery.v ===== *)
(** [backend/retrospective/query.py] and [metrics.py]: point-in-time lookup,
    comparison with current state, time series, first-event cohorts and the
    layer's metrics. All of them are functions of the tables: they write
    nothing. Among rows of equal time the database's order is the row order. *)
From S2P Require Import Prelude PyStr PyJson PyValue DateTime RetroStore.
Open Scope string_scope.
Open Scope list_scope.
Local Open Scope py_scope.

Definition VALUE_PRESENT : string := "present".
Definition VALUE_UNKNOWN : string := "unknown".
Definition VALUE_UNAVAILABLE : string := "unavailable".

(** A decoded payload is a dict. *)
Definition Payload : Type := list (string * json).

Definition explain_value (payload : Payload) (field_name : string) : string :=
  match dict_get field_name payload with
  | None => VALUE_UNAVAILABLE
  | Some v => if bool_decide (v = JNull) then VALUE_UNKNOWN else VALUE_PRESENT
  end.

Record SnapshotResult := mkResult {
  found : bool; sr_type : string; sr_subject : string; sr_valid_at : option DateTime;
  sr_recorded_at : option DateTime; sr_payload : option json; missing_reason : option string
}.

Definition org_matches (org org_col : option Z) : bool := bool_decide (org_col = org).

Definition scoped_snapshots (org : option Z) (stype subject : string) (t : list Snapshot) : list Snapshot :=
  List.filter (fun s => bool_decide (snapshot_type s = stype) && bool_decide (subject_id s = subject) &&
                        org_matches org (sn_org_id s)) t.

(** [json.loads(row.payload)] *)
Definition loads_payload (s : Snapshot) : res json :=
  match loads (sn_payload s) with
  | Some v => Ok v
  | None => Raise (Exn "JSONDecodeError" "Expecting value")
  end.

(** [ORDER BY valid_at DESC]: later first, ties in row order. *)
Definition newest (a b : Snapshot) : bool := dt_le (valid_at b) (valid_at a).
Definition oldest (a b : Snapshot) : bool := dt_le (valid_at a) (valid_at b).

(** The sort with ties in row order. *)
Definition order_by {A} (le : A -> A -> bool) (l : list A) : list A := sort_by le l.

Definition point_in_time_snapshot (org : option Z) (stype subject : string) (as_of : DateTime)
    (t : list Snapshot) : res SnapshotResult :=
  let candidates := List.filter (fun s => dt_le (valid_at s) as_of) (scoped_snapshots org stype subject t) in
  match hd_error (order_by newest candidates) with
  | None => Ok (mkResult false stype subject None None None (Some "no_history"))
  | Some row =>
      let? payload := loads_payload row in
      Ok (mkResult true stype subject (Some (valid_at row)) (Some (sn_recorded_at row)) (Some payload) None)
  end.

Record FieldChange := mkChange { fc_prior : json; fc_current : json; fc_provenance : string }.
Record ComparisonResult := mkComparison {
  found_prior : bool; cr_subject : string; cr_type : string; cr_as_of : DateTime; cr_current : Payload;
  cr_prior : option Payload; cr_prior_valid_at : option DateTime;
  changed_fields : list (string * FieldChange); cr_missing : option string
}.

(** [payload.get(key)] *)
Definition pget (k : string) (p : Payload) : json :=
  match dict_get k p with Some v => v | None => JNull end.

(** [payload or {}] when it is a dict or falsy. *)
Definition or_empty (v : option json) : res Payload :=
  match v with
  | None => Ok []
  | Some (JObj m) => Ok m
  | Some JNull | Some (JBool false) | Some (JInt 0) | Some (JArr []) => Ok []
  | Some (JStr s) => if truthy s then Raise (Exn "AttributeError" "object has no attribute 'get'") else Ok []
  | Some _ => Raise (Exn "AttributeError" "object has no attribute 'get'")
  end.

Fixpoint changes (keys : list string) (current prior : Payload) : list (string * FieldChange) :=
  match keys with
  | [] => []
  | k :: ks =>
      let rest := changes ks current prior in
      if py_eq (pget k current) (pget k prior) then rest
      else (k, mkChange (pget k prior) (pget k current) (explain_value prior k)) :: rest
  end.

(** [sorted(set(current) | set(prior))] *)
Definition all_keys (current prior : Payload) : list string :=
  sort_by str_le (remove_dups (dict_keys current ++ dict_keys prior)).

Definition compare_to_snapshot (org : option Z) (stype subject : string) (as_of : DateTime)
    (current : Payload) (t : list Snapshot) : res ComparisonResult :=
  let? prior_result := point_in_time_snapshot org stype subject as_of t in
  if negb (found prior_result) then
    Ok (mkComparison false subject stype as_of current None None [] (missing_reason prior_result))
  else
    let? prior := or_empty (sr_payload prior_result) in
    Ok (mkComparison true subject stype as_of current (Some prior) (sr_valid_at prior_result)
          (changes (all_keys current prior) current prior) None).

Fixpoint series (l : list Snapshot) : res (list (DateTime * json)) :=
  match l with
  | [] => Ok []
  | s :: l' => let? p := loads_payload s in let? rest := series l' in Ok ((valid_at s, p) :: rest)
  end.

Definition in_window (since until : option DateTime) (t : DateTime) : bool :=
  (match since with Some s => dt_le s t | None => true end) &&
  (match until with Some u => dt_le t u | None => true end).

Definition snapshot_time_series (org : option Z) (stype subject : string) (since until : option DateTime)
    (t : list Snapshot) : res (list (DateTime * json)) :=
  series (order_by oldest (List.filter (fun s => in_window since until (valid_at s))
                             (scoped_snapshots org stype subject t))).

Definition earliest (a b : Event) : bool := dt_le (occurred_at a) (occurred_at b).

Definition scoped_events (org : option Z) (etype : string) (t : list Event) : list Event :=
  List.filter (fun e => bool_decide (event_type e = etype) && org_matches org (ev_org_id e)) t.

(** [first_seen.setdefault(subject, occurred_at)] over the events in time order. *)
Definition first_seen_events (l : list Event) : list (string * DateTime) :=
  fold_left (fun d e => match dict_get (domain_object_id e) d with
                        | Some _ => d
                        | None => dict_set (domain_object_id e) (occurred_at e) d
                        end) l [].

Definition cohort_by_first_event (org : option Z) (etype : string) (since until : DateTime)
    (t : list Event) : list string :=
  sort_by str_le
    (map fst (List.filter (fun p => dt_le since p.2 && dt_le p.2 until)
                (first_seen_events (order_by earliest (scoped_events org etype t))))).

(** ** Metrics *)

Definition max_dt (l : list DateTime) : option DateTime :=
  fold_left (fun acc t => Some (match acc with Some a => if dt_lt a t then t else a | None => t end)) l None.

Record SnapshotMetrics := mkSnapMetrics {
  sm_count : Z; sm_latest_valid : option DateTime; sm_latest_recorded : option DateTime
}.
Record RetroMetrics := mkRetroMetrics {
  rm_total_events : Z; rm_by_type : list (string * Z); rm_latest_event : option DateTime;
  rm_total_snapshots : Z; rm_snapshots : list (string * SnapshotMetrics); rm_failed_emissions : Z
}.

Definition distinct_in_order (l : list string) : list string :=
  fold_left (fun acc k => if bool_decide (k ∈ acc) then acc else acc ++ [k]) l [].

(** The ages are the clock minus the latest times and are left to the reader of
    the record. *)
Definition retrospective_metrics (org : option Z) (evs : list Event) (sns : list Snapshot)
    (failed : Z) : RetroMetrics :=
  let es := List.filter (fun e => org_matches org (ev_org_id e)) evs in
  let ss := List.filter (fun s => org_matches org (sn_org_id s)) sns in
  let by_type := map (fun t => (t, count_where (fun e => bool_decide (event_type e = t)) es))
                   (distinct_in_order (map event_type es)) in
  let snaps := map (fun t =>
      let rows := List.filter (fun s => bool_decide (snapshot_type s = t)) ss in
      (t, mkSnapMetrics (Z.of_nat (length rows)) (max_dt (map valid_at rows)) (max_dt (map sn_recorded_at rows))))
      (distinct_in_order (map snapshot_type ss)) in
  mkRetroMetrics (fold_left Z.add (map snd by_type) 0%Z) by_type (max_dt (map ev_recorded_at es))
    (fold_left Z.add (map (fun p => sm_count p.2) snaps) 0%Z) snaps failed.

(** * Facts *)

Lemma scoped_snapshots_in org st su t s :
  In s (scoped_snapshots org st su t) <->
  In s t /\ snapshot_type s = st /\ subject_id s = su /\ sn_org_id s = org.
Proof.
  unfold scoped_snapshots, org_matches.
  rewrite filter_In, !andb_true_iff, !bool_decide_eq_true. tauto.
Qed.
Lemma scoped_events_in org et t e :
  In e (scoped_events org et t) <-> In e t /\ event_type e = et /\ ev_org_id e = org.
Proof.
  unfold scoped_events, org_matches. rewrite filter_In, andb_true_iff, !bool_decide_eq_true. tauto.
Qed.

(** [dt_le] sorts: a first element is a latest one. *)
Lemma newest_total : total_le newest.
Proof. intros a b. unfold newest, dt_le. lia. Qed.
Lemma newest_trans : trans_le newest.
Proof. intros a b c. unfold newest, dt_le. lia. Qed.
Lemma earliest_total : total_le earliest.
Proof. intros a b. unfold earliest, dt_le. lia. Qed.
Lemma earliest_trans : trans_le earliest.
Proof. intros a b c. unfold earliest, dt_le. lia. Qed.

(** In a list sorted by time the recorded first time of a subject is a least
    one. *)
Lemma first_seen_spec l : forall d,
  StronglySorted (fun a b => earliest a b = true) l ->
  forall k, dict_get k (fold_left (fun d e => match dict_get (domain_object_id e) d with
                        | Some _ => d
                        | None => dict_set (domain_object_id e) (occurred_at e) d
                        end) l d) =
    match dict_get k d with
    | Some t => Some t
    | None => option_map occurred_at (List.find (fun e => bool_decide (domain_object_id e = k)) l)
    end.
Proof.
  induction l as [|e l IH]; intros d Hs k; simpl; [by destruct (dict_get k d)|].
  apply StronglySorted_inv in Hs as [Hs _]. rewrite IH by done.
  case_bool_decide as E.
  - subst. destruct (dict_get (domain_object_id e) d) as [t|] eqn:Ed; [by rewrite Ed|].
    by rewrite dict_get_set_eq.
  - destruct (dict_get (domain_object_id e) d) as [t|] eqn:Ed; [done|].
    rewrite dict_get_set_ne by done. done.
Qed.

Lemma first_cohort_NoDup l : forall d, NoDup (dict_keys d) ->
  NoDup (dict_keys (fold_left (fun d e => match dict_get (domain_object_id e) d with
                        | Some _ => d
                        | None => dict_set (domain_object_id e) (occurred_at e) d
                        end) l d)).
Proof.
  induction l as [|e l IH]; intros d Hd; simpl; [done|]. apply IH.
  destruct (dict_get (domain_object_id e) d) eqn:E; [done|].
  rewrite dict_keys_set. apply dict_get_None in E. rewrite decide_False by done.
  apply NoDup_app. split; [done|]. split; [|apply NoDup_singleton].
  intros z Hz ->%list_elem_of_singleton. done.
Qed.

Lemma find_first_sorted (p : Event -> bool) l e :
  StronglySorted (fun a b => earliest a b = true) l -> List.find p l = Some e ->
  In e l /\ p e = true /\ forall e', In e' l -> p e' = true -> dt_le (occurred_at e) (occurred_at e') = true.
Proof.
  induction 1 as [|a l Hs IH Ha]; simpl; [done|]. destruct (p a) eqn:Ep.
  - intros [= <-]. split; [by left|]. split; [done|]. intros e' [->|Hin] He'.
    + unfold dt_le. lia.
    + rewrite Forall_forall in Ha. apply Ha. by apply list_elem_of_In.
  - intros Hf. destruct (IH Hf) as (H1 & H2 & H3). split; [by right|]. split; [done|].
    intros e' [->|Hin] He'; [congruence|auto].
Qed.

(** The first event of a subject lies in the window. *)
Definition enters_within (org : option Z) (etype : string) (since until : DateTime) (t : list Event)
    (subject : string) : Prop :=
  exists e, In e t /\ event_type e = etype /\ ev_org_id e = org /\ domain_object_id e = subject /\
    dt_le since (occurred_at e) = true /\ dt_le (occurred_at e) until = true /\
    forall e', In e' t -> event_type e' = etype -> ev_org_id e' = org -> domain_object_id e' = subject ->
      dt_le (occurred_at e) (occurred_at e') = true.

Lemma cohort_in org et since until t x :
  In x (cohort_by_first_event org et since until t) <-> enters_within org et since until t x.
Proof.
  unfold cohort_by_first_event. rewrite sort_by_in, in_map_iff.
  set (l := order_by earliest (scoped_events org et t)).
  assert (Hl : StronglySorted (fun a b => earliest a b = true) l)
    by (apply sort_by_sorted; [apply earliest_total|apply earliest_trans]).
  assert (Hin : forall e, In e l <-> In e t /\ event_type e = et /\ ev_org_id e = org)
    by (intros e; unfold l, order_by; rewrite sort_by_in; apply scoped_events_in).
  assert (Hget : forall k, dict_get k (first_seen_events l) =
                 option_map occurred_at (List.find (fun e => bool_decide (domain_object_id e = k)) l))
    by (intros k; unfold first_seen_events; rewrite first_seen_spec by done; done).
  assert (Hnd : NoDup (dict_keys (first_seen_events l))) by (apply first_cohort_NoDup; constructor).
  split.
  - intros ([k ts] & <- & [Hk Hw]%filter_In). apply andb_prop in Hw as [Hw1 Hw2]. simpl in *.
    apply list_elem_of_In in Hk. apply dict_get_elem in Hk; [|done]. rewrite Hget in Hk.
    destruct (List.find _ l) as [e|] eqn:Hf; [|done]. injection Hk as <-.
    apply find_first_sorted in Hf as (He & Hp & Hmin); [|done]. apply bool_decide_eq_true in Hp.
    apply Hin in He as (H1 & H2 & H3). exists e. do 6 (split; [done|]).
    intros e' He' Ht' Ho' Hs'. apply Hmin; [by apply Hin|by apply bool_decide_true].
  - intros (e & He & Ht & Ho & Hs & Hw1 & Hw2 & Hmin).
    destruct (List.find (fun e => bool_decide (domain_object_id e = x)) l) as [e0|] eqn:Hf.
    + pose proof Hf as Hf'. apply find_first_sorted in Hf' as (He0 & Hp & Hmin0); [|done].
      apply bool_decide_eq_true in Hp. apply Hin in He0 as (G1 & G2 & G3).
      assert (E : dt_key (occurred_at e0) = dt_key (occurred_at e)).
      { specialize (Hmin e0 G1 G2 G3 Hp). specialize (Hmin0 e (proj2 (Hin e) (conj He (conj Ht Ho)))
          (bool_decide_eq_true_2 _ Hs)). unfold dt_le in *. lia. }
      exists (x, occurred_at e0). split; [done|]. apply filter_In. split.
      * apply list_elem_of_In, dict_get_Some_elem. by rewrite Hget, Hf.
      * simpl. unfold dt_le in *. rewrite E. by rewrite Hw1, Hw2.
    + pose proof (find_none _ _ Hf e (proj2 (Hin e) (conj He (conj Ht Ho)))) as Hn. simpl in Hn.
      by rewrite bool_decide_true in Hn.
Qed.
