(* ===== verification/RetroClaims.v ===== *)
(** What the retrospective layer guarantees: governed, append-only, idempotent
    history, and reads that reconstruct the past and nothing else. *)
From S2P Require Import Prelude PyStr PyJson DateTime JobMigration RetroStore RetroEmit RetroQuery.
Open Scope string_scope.
Open Scope list_scope.
Local Open Scope py_scope.

(** * Histories of writes *)

Inductive call :=
  | CallEvent (a : EventArgs) (now : DateTime) (uuid : string)
  | CallSnapshot (a : SnapshotArgs) (now : DateTime) (uuid : string).

Definition call_uuid (c : call) : string :=
  match c with CallEvent _ _ u | CallSnapshot _ _ u => u end.
Definition call_payload (c : call) : option json :=
  match c with CallEvent a _ _ => ea_payload a | CallSnapshot a _ _ => sa_payload a end.
(** A Python value has no duplicate keys. *)
Definition call_ok (c : call) : Prop :=
  match call_payload c with Some p => wf_json p | None => True end.

Section history.
Context {W : Type}.
Notation Db := (RetroDb W).
Implicit Types d : Db.

(** The session after a call whose exception, if any, the caller handles. *)
Definition step (c : call) (s : Session Db) : Session Db :=
  match c with
  | CallEvent a now u => snd (record_event a now u (fun d => d) s)
  | CallSnapshot a now u => snd (record_snapshot a now u (fun d => d) s)
  end.
Definition history (cs : list call) (s : Session Db) : Session Db := fold_left (fun s c => step c s) cs s.

Definition fresh (u : string) d : Prop :=
  (forall r, In r (rows (ev_table d)) -> event_id r <> u) /\
  (forall r, In r (rows (sn_table d)) -> snapshot_id r <> u).
Definition retro_ok d : Prop := table_ok (ev_table d) /\ table_ok (sn_table d).

(** [d'] extends [d] by appended rows. *)
Definition extends d d' : Prop :=
  (exists es, rows (ev_table d') = rows (ev_table d) ++ es) /\
  (exists ss, rows (sn_table d') = rows (sn_table d) ++ ss) /\ ops d' = ops d.

Lemma snapshot_row_identity a now u v e i :
  g_org (snapshot_row a now u v e i) = sa_org a /\ g_type (snapshot_row a now u v e i) = sa_type a /\
  g_key (snapshot_row a now u v e i) = sa_key a /\ g_version (snapshot_row a now u v e i) = v /\
  g_payload (snapshot_row a now u v e i) = e.
Proof. done. Qed.

(** A governed row from an accepted write. *)
Lemma accepted_row {R} `{HG : Governed R} (r : R) t v p :
  (exists f, dict_get t g_registry = Some f /\ v = current_version f) ->
  g_type r = t -> g_version r = v -> g_payload r = dumps true (sort_keys p) -> g_key r <> "" ->
  (Z.of_nat (String.length (dumps true (sort_keys p))) <= MAX_PAYLOAD_BYTES)%Z -> wf_json p ->
  governed_row r.
Proof.
  intros (f & Hf & Hv) Ht Hver Hp Hk Hle Hwf. split; [exists f; by rewrite Ht, Hver|].
  split; [done|]. rewrite Hp. split; [done|]. exists (sort_keys p). by apply loads_dumps, wf_sort_keys.
Qed.

Lemma key_not_refused {R} `{HG : Governed R} `{HS : Stored R W} resolved org type key field payload
    (mk : Z -> string -> Z -> R) d base r s :
  record resolved org type key field payload mk (fun d => d) (mkSession d base) = (Ok r, s) -> key <> "".
Proof.
  unfold record. destruct resolved; mrun; [|done]. unfold truthy. rewrite negb_involutive.
  case_bool_decide; [done|]. done.
Qed.

Lemma step_effect c d base :
  call_ok c -> fresh (call_uuid c) d -> retro_ok d ->
  exists d', step c (mkSession d base) = mkSession d' base /\ extends d d' /\ retro_ok d' /\
    forall u, u <> call_uuid c -> fresh u d -> fresh u d'.
Proof.
  assert (Hsame : forall d, extends d d).
  { intros d0. split; [exists []; by rewrite app_nil_r|]. split; [exists []; by rewrite app_nil_r|done]. }
  intros Hc [Hfe Hfs] [He Hs]. destruct c as [a now u|a now u]; cbn [step call_uuid] in *.
  - unfold record_event.
    pose proof (write_cases (W := W) (resolve_event_version (ea_type a) (ea_version a)) (ea_org a)
      (ea_type a) (ea_key a) "event" (ea_payload a) (event_row a now u) (event_row_identity now u a)
      d base (fun _ _ _ r Hr => Hfe r Hr)) as H. unfold write in H.
    destruct (record _ _ _ _ _ _ _ _ _) as [out s] eqn:Hrun.
    destruct H as [(-> & _)|[(-> & _)|(Hf & v & e & p & Hv & Hp & -> & Hle & -> & ->)]];
      [exists d; done..|]. simpl.
    set (n := event_row a now u v (dumps true (sort_keys p)) (seq (ev_table d))).
    exists (insert_row (event_row a now u v (dumps true (sort_keys p))) d). split; [done|].
    split; [split; [by exists [n]|split; [exists []; by rewrite app_nil_r|done]]|]. split.
    + split; [|done]. apply (table_ok_append (W := W) d n); [done| |done|].
      * apply (accepted_row n (ea_type a) v p); try done.
        -- exact (event_resolved _ _ v Hv).
        -- exact (key_not_refused _ _ _ _ _ _ _ _ _ _ _ Hrun).
        -- unfold call_ok in Hc. simpl in Hc. by rewrite Hp in Hc.
      * intros r' Hr'. exact (find_existing_None (W := W) (ea_org a) (ea_type a) (ea_key a) d r' Hf Hr').
    + intros u' Hne [H1 H2]. split; [|done]. simpl. intros r [Hr|[<-|[]]]%in_app_iff; [auto|]. intros E. by apply Hne.
  - unfold record_snapshot.
    pose proof (write_cases (W := W) (resolve_snapshot_version (sa_type a) (sa_version a)) (sa_org a)
      (sa_type a) (sa_key a) "snapshot" (sa_payload a) (snapshot_row a now u) (snapshot_row_identity a now u)
      d base (fun _ _ _ r Hr => Hfs r Hr)) as H. unfold write in H.
    destruct (record _ _ _ _ _ _ _ _ _) as [out s] eqn:Hrun.
    destruct H as [(-> & _)|[(-> & _)|(Hf & v & e & p & Hv & Hp & -> & Hle & -> & ->)]];
      [exists d; done..|]. simpl.
    set (n := snapshot_row a now u v (dumps true (sort_keys p)) (seq (sn_table d))).
    exists (insert_row (snapshot_row a now u v (dumps true (sort_keys p))) d). split; [done|].
    split; [split; [exists []; by rewrite app_nil_r|split; [by exists [n]|done]]|]. split.
    + split; [done|]. apply (table_ok_append (W := W) d n); [done| |done|].
      * apply (accepted_row n (sa_type a) v p); try done.
        -- exact (snapshot_resolved _ _ v Hv).
        -- exact (key_not_refused _ _ _ _ _ _ _ _ _ _ _ Hrun).
        -- unfold call_ok in Hc. simpl in Hc. by rewrite Hp in Hc.
      * intros r' Hr'. exact (find_existing_None (W := W) (sa_org a) (sa_type a) (sa_key a) d r' Hf Hr').
    + intros u' Hne [H1 H2]. split; [done|]. simpl. intros r [Hr|[<-|[]]]%in_app_iff; [auto|]. intros E. by apply Hne.
Qed.

Lemma extends_trans d1 d2 d3 : extends d1 d2 -> extends d2 d3 -> extends d1 d3.
Proof.
  intros ((e1 & E1) & (s1 & S1) & O1) ((e2 & E2) & (s2 & S2) & O2). split; [|split; [|congruence]].
  - exists (e1 ++ e2). by rewrite E2, E1, <- (assoc_L (++)).
  - exists (s1 ++ s2). by rewrite S2, S1, <- (assoc_L (++)).
Qed.

Lemma history_effect cs d base :
  Forall call_ok cs -> NoDup (map call_uuid cs) -> Forall (fun c => fresh (call_uuid c) d) cs ->
  retro_ok d ->
  exists d', history cs (mkSession d base) = mkSession d' base /\ extends d d' /\ retro_ok d'.
Proof.
  revert d. induction cs as [|c cs IH]; intros d Hok Hnd Hfr Hd.
  - exists d. split; [done|]. split; [|done].
    split; [exists []; by rewrite app_nil_r|]. split; [exists []; by rewrite app_nil_r|done].
  - apply Forall_cons in Hok as [Hc Hok]. apply NoDup_cons in Hnd as [Hn Hnd].
    apply Forall_cons in Hfr as [Hf Hfr].
    destruct (step_effect c d base Hc Hf Hd) as (d1 & E & Hext & Hd1 & Hfresh).
    destruct (IH d1 Hok Hnd) as (d' & E' & Hext' & Hd'); [|done|].
    + rewrite Forall_forall in *. intros c' Hc'. apply Hfresh; [|auto].
      intros Eu. apply Hn. rewrite <- Eu. apply list_elem_of_In, in_map. by apply list_elem_of_In.
    + exists d'. unfold history in *. simpl. rewrite E. split; [done|].
      split; [by eapply extends_trans|done].
Qed.
End history.

(** * Claims *)

(** C40: History is governed and append-only: over any sequence of event and
    snapshot writes (accepted, duplicate or refused) in one session, existing
    rows stay as they are and in place, the caller's other pending changes and
    the committed state are untouched, and every row of both tables belongs to
    a registered family at its current version, carries a decodable payload of
    at most 32 KiB under a non-empty key, with unique ids and one row per
    (organisation, type, key) of an organisation. *)
Theorem history_governed {W} (cs : list call) (d base : RetroDb W) :
  Forall call_ok cs -> NoDup (map call_uuid cs) -> Forall (fun c => fresh (call_uuid c) d) cs ->
  retro_ok d ->
  exists d', history cs (mkSession d base) = mkSession d' base /\ extends d d' /\ retro_ok d'.
Proof. apply history_effect. Qed.

(** Recording an event is idempotent and faithful: a second write with the
    same organisation, type and key returns the first row and appends nothing,
    whatever else it carries; and the stored payload decodes to the payload
    that was recorded, keys sorted. *)
Theorem record_event_idempotent {W} (a a' : EventArgs) now now' u u' (d base : RetroDb W) r s :
  (forall x, In x (rows (ev_table d)) -> event_id x <> u) ->
  (match ea_payload a with Some p => wf_json p | None => True end) ->
  find_existing (ea_org a) (ea_type a) (ea_key a) d = @None Event ->
  record_event a now u (fun d => d) (mkSession d base) = (Ok r, s) ->
  ea_org a' = ea_org a -> ea_type a' = ea_type a -> ea_key a' = ea_key a -> ea_version a' = ea_version a ->
  record_event a' now' u' (fun d => d) s = (Ok r, s) /\
  rows (ev_table (sess_db s)) = rows (ev_table d) ++ [r] /\ sess_base s = base /\
  option_map sort_keys (ea_payload a) = loads (ev_payload r).
Proof.
  intros Hfr Hwf Hnone Hrun Ho Ht Hk Hver. unfold record_event in Hrun.
  pose proof (write_cases (W := W) (resolve_event_version (ea_type a) (ea_version a)) (ea_org a)
    (ea_type a) (ea_key a) "event" (ea_payload a) (event_row a now u) (event_row_identity now u a)
    d base (fun _ _ _ x Hx => Hfr x Hx)) as H. unfold write in H. pose proof Hrun as Hrun'.
  rewrite Hrun in H.
  destruct H as [(_ & _ & e & H)|[(_ & r' & _ & H)|(Hf & v & e & p & Hv & Hp & -> & Hle & [= ->] & ->)]];
    [done|congruence|].
  split; [|split; [done|split; [done|]]].
  - unfold record_event, record. rewrite Ho, Ht, Hk, Hver, Hv. mrun.
    pose proof (key_not_refused _ _ _ _ _ _ _ _ _ _ _ Hrun') as Hkey.
    replace (negb (truthy (ea_key a))) with false
      by (symmetry; unfold truthy; by rewrite bool_decide_false).
    cbv iota. rewrite run_get. cbn [sess_db].
    assert (Hfind : find_existing (ea_org a) (ea_type a) (ea_key a)
              (insert_row (event_row a now u v (dumps true (sort_keys p))) d)
              = Some (event_row a now u v (dumps true (sort_keys p)) (seq (ev_table d)))).
    { clear -Hnone. unfold find_existing in *. simpl in *.
      induction (rows (ev_table d)) as [|x l IH]; simpl in *.
      - by rewrite (proj2 (same_identity_spec _ _ _ _)).
      - destruct (same_identity _ _ _ x); [done|]. auto. }
    by rewrite Hfind.
  - rewrite Hp. simpl. rewrite loads_dumps; [done|]. rewrite Hp in Hwf. by apply wf_sort_keys.
Qed.

(** A point-in-time lookup never shows the present as the past: it returns
    the payload of a snapshot of that subject, type and tenant that was valid
    at or before the requested time and no earlier than any other such
    snapshot, and reports missing history exactly when there is none; rows of
    other tenants or subjects, and snapshots valid later, do not change it. *)
Theorem point_in_time_exact org st su as_of (t later : list Snapshot) :
  Forall (fun s => is_Some (loads (sn_payload s))) t ->
  let candidate s := In s t /\ snapshot_type s = st /\ subject_id s = su /\ sn_org_id s = org /\
                     dt_le (valid_at s) as_of = true in
  (exists r, point_in_time_snapshot org st su as_of t = Ok r /\
    (found r = true -> exists s, candidate s /\ sr_valid_at r = Some (valid_at s) /\
       sr_payload r = loads (sn_payload s) /\
       forall s', candidate s' -> dt_le (valid_at s') (valid_at s) = true) /\
    (found r = false <-> ~ exists s, candidate s)) /\
  (Forall (fun s => ~ (snapshot_type s = st /\ subject_id s = su /\ sn_org_id s = org /\
                       dt_le (valid_at s) as_of = true)) later ->
   point_in_time_snapshot org st su as_of (t ++ later) = point_in_time_snapshot org st su as_of t).
Proof.
  intros Hload candidate. split.
  - unfold point_in_time_snapshot.
    set (l := List.filter (fun s => dt_le (valid_at s) as_of) (scoped_snapshots org st su t)).
    assert (Hl : forall s, In s l <-> candidate s).
    { intros s. unfold l, candidate. rewrite filter_In, scoped_snapshots_in. tauto. }
    destruct (hd_error (order_by newest l)) as [s|] eqn:E.
    + pose proof (hd_sort_by_least newest l s newest_total newest_trans E) as [Hin Hmax].
      apply Hl in Hin. rewrite Forall_forall in Hload.
      destruct (Hload s) as [p Hp]; [apply list_elem_of_In; apply Hin|].
      unfold loads_payload. rewrite Hp. simpl. eexists. split; [reflexivity|]. simpl. split.
      * intros _. exists s. split; [done|]. split; [done|]. split; [done|].
        intros s' Hs'. apply Hl in Hs'. destruct (Hmax s' Hs') as [->|H]; [|exact H].
        unfold dt_le. lia.
      * split; [done|]. intros H. exfalso. apply H. eauto.
    + apply hd_sort_by_None in E. eexists. split; [reflexivity|]. simpl. split; [done|].
      split; [|done]. intros _ (s & Hs%Hl). by rewrite E in Hs.
  - intros Hlater. unfold point_in_time_snapshot.
    replace (List.filter (fun s => dt_le (valid_at s) as_of) (scoped_snapshots org st su (t ++ later)))
      with (List.filter (fun s => dt_le (valid_at s) as_of) (scoped_snapshots org st su t)); [done|].
    unfold scoped_snapshots. rewrite !List.filter_app. symmetry.
    assert (E : forall l, Forall (fun s => ~ (snapshot_type s = st /\ subject_id s = su /\ sn_org_id s = org /\
                       dt_le (valid_at s) as_of = true)) l ->
              List.filter (fun s => dt_le (valid_at s) as_of)
                (List.filter (fun s => bool_decide (snapshot_type s = st) && bool_decide (subject_id s = su) &&
                        org_matches org (sn_org_id s)) l) = []).
    { clear. induction 1 as [|s l Hs _ IH]; [done|]. simpl. unfold org_matches in *.
      repeat case_bool_decide; simpl; try done. destruct (dt_le _ as_of) eqn:E; [|done]. exfalso. auto. }
    rewrite (E later Hlater), app_nil_r. done.
Qed.

(** A cohort is fixed by history: it lists, in order, exactly the subjects
    whose first event of the type in the tenant's scope falls in the window;
    later events, and events of other tenants or types, never change it. *)
Theorem cohort_exact org et since until (t later : list Event) :
  (forall x, In x (cohort_by_first_event org et since until t) <-> enters_within org et since until t x) /\
  Sorted (fun a b => str_le a b = true) (cohort_by_first_event org et since until t) /\
  (Forall (fun e => event_type e <> et \/ ev_org_id e <> org \/
             (dt_lt until (occurred_at e) = true)) later ->
   forall x, In x (cohort_by_first_event org et since until (t ++ later)) <->
             In x (cohort_by_first_event org et since until t)).
Proof.
  split; [intros; apply cohort_in|]. split.
  - apply StronglySorted_Sorted, sort_by_sorted; [apply str_le_total|apply str_le_trans].
  - intros Hlater x. rewrite !cohort_in. unfold enters_within. setoid_rewrite in_app_iff.
    rewrite Forall_forall in Hlater. setoid_rewrite list_elem_of_In in Hlater. split.
    + intros (e & [He|He] & Ht & Ho & Hs & H1 & H2 & Hmin).
      * exists e. do 6 (split; [done|]). intros; apply Hmin; auto.
      * exfalso. destruct (Hlater e He) as [H|[H|H]]; try done. unfold dt_le, dt_lt in *. lia.
    + intros (e & He & Ht & Ho & Hs & H1 & H2 & Hmin). exists e.
      do 6 (split; [auto|]). intros e' [He'|He'] Ht' Ho' Hs'; [by apply Hmin|].
      destruct (Hlater e' He') as [H|[H|H]]; try done. unfold dt_le, dt_lt in *. lia.
Qed.

(** * Witnesses *)

Definition ex_day (d h : Z) : DateTime := mkDateTime 2026 3 d h 0 0 0.
Definition ex_payload : json := JObj [("status", JStr "ok"); ("nif", JInt 3)].
Definition ex_args (key subject : string) (d : Z) : EventArgs :=
  mkEventArgs "journal_metric.computed" (Some 7%Z) "journal" subject (ex_day d 9) "batch" key
    (Some ex_payload) "system" None None None None.
Definition ex_snap_args (key : string) (d : Z) : SnapshotArgs :=
  mkSnapshotArgs "journal_metric" (Some 7%Z) "journal" "j1" (ex_day d 9) key (Some ex_payload) None None.
Definition ex_retro : RetroDb unit := mkRetroDb (mkTable [] 1) (mkTable [] 1) ().

Lemma ex_payload_wf : wf_json ex_payload.
Proof. constructor; [by apply (bool_decide_unpack _)|]. repeat constructor. Qed.
Lemma ex_retro_ok : retro_ok ex_retro.
Proof. split; (split; [constructor|split; [constructor|by intros ?]]). Qed.

Lemma history_governed_witness :
  exists d', history [CallEvent (ex_args "k1" "j1" 1) (ex_day 2 0) "u1";
                      CallEvent (ex_args "k1" "j1" 1) (ex_day 2 1) "u2";
                      CallSnapshot (ex_snap_args "s1" 1) (ex_day 2 2) "u3"]
               (mkSession ex_retro ex_retro) = mkSession d' ex_retro /\
             extends ex_retro d' /\ retro_ok d'.
Proof.
  apply history_governed.
  - rewrite !Forall_cons. by repeat (split; [apply ex_payload_wf|]).
  - by apply (bool_decide_unpack _).
  - rewrite !Forall_cons. repeat (split; [by split; intros ? []|]). done.
  - apply ex_retro_ok.
Defined.

Lemma record_event_idempotent_witness :
  let '(out, s) := record_event (ex_args "k1" "j1" 1) (ex_day 2 0) "u1" (fun d => d) (mkSession ex_retro ex_retro) in
  exists r, out = Ok r /\
    record_event (ex_args "k1" "j9" 3) (ex_day 4 0) "u2" (fun d => d) s = (Ok r, s) /\
    rows (ev_table (sess_db s)) = [r] /\ sess_base s = ex_retro /\ Some (sort_keys ex_payload) = loads (ev_payload r).
Proof.
  eexists. split; [reflexivity|].
  apply (record_event_idempotent (ex_args "k1" "j1" 1) (ex_args "k1" "j9" 3) (ex_day 2 0) (ex_day 4 0)
    "u1" "u2" ex_retro ex_retro); try reflexivity; [intros ? []|apply ex_payload_wf].
Defined.

(** Two snapshots of one journal and one of another tenant. *)
Definition ex_snap (i : Z) (org : Z) (d : Z) : Snapshot :=
  mkSnap i (str_of_Z i) "journal_metric" 1 (Some org) "journal" "j1" (ex_day d 9) (ex_day d 10)
    ("s" ++ str_of_Z i) (dumps true (sort_keys ex_payload)) None.
Definition ex_event (i : Z) (org : Z) (subject : string) (d : Z) : Event :=
  event_row (mkEventArgs "journal_metric.computed" (Some org) "journal" subject (ex_day d 9) "batch"
    ("k" ++ str_of_Z i) (Some ex_payload) "system" None None None None) (ex_day d 10) (str_of_Z i) 1 "{}" i.

Lemma point_in_time_exact_witness :
  exists r, point_in_time_snapshot (Some 7%Z) "journal_metric" "j1" (ex_day 4 0)
      [ex_snap 1 7 1; ex_snap 2 7 3; ex_snap 3 8 2; ex_snap 4 7 9] = Ok r /\
    found r = true /\ sr_valid_at r = Some (ex_day 3 9).
Proof.
  pose proof (point_in_time_exact (Some 7%Z) "journal_metric" "j1" (ex_day 4 0)
    [ex_snap 1 7 1; ex_snap 2 7 3; ex_snap 3 8 2] [ex_snap 4 7 9]) as H.
  destruct H as [(r & Hr & _) Hlater].
  - repeat constructor; eexists; vm_compute; reflexivity.
  - exists r. split.
    + refine (eq_trans (Hlater _) Hr). constructor; [|constructor]. by intros (_ & _ & _ & E).
    + revert Hr. vm_compute. intros [= <-]. done.
Defined.

Definition ex_cohort (l : list Event) : list string :=
  cohort_by_first_event (Some 7%Z) "journal_metric.computed" (ex_day 2 0) (ex_day 4 0) l.

Lemma cohort_exact_witness :
  In "b" (ex_cohort ([ex_event 1 7 "a" 1; ex_event 2 7 "a" 3; ex_event 3 7 "b" 3; ex_event 4 8 "c" 3] ++
                     [ex_event 5 7 "d" 8])) /\
  ~ In "d" (ex_cohort ([ex_event 1 7 "a" 1; ex_event 2 7 "a" 3; ex_event 3 7 "b" 3; ex_event 4 8 "c" 3] ++
                       [ex_event 5 7 "d" 8])).
Proof.
  destruct (cohort_exact (Some 7%Z) "journal_metric.computed" (ex_day 2 0) (ex_day 4 0)
    [ex_event 1 7 "a" 1; ex_event 2 7 "a" 3; ex_event 3 7 "b" 3; ex_event 4 8 "c" 3] [ex_event 5 7 "d" 8])
    as (_ & _ & H).
  unfold ex_cohort. rewrite !H by (constructor; [by right; right|constructor]).
  split; [by left|by intros [E|[]]].
Defined.
