(* ===== verification/RetroExport.v ===== *)
(** [backend/retrospective/export.py]: versioned, tenant-scoped datasets with a
    manifest, and their validation. A projected row is a dict; sha256 is a
    parameter. *)
From S2P Require Import Prelude PyStr PyJson DateTime JobMigration RetroStore RetroEmit.
Open Scope string_scope.
Open Scope list_scope.

(** * Schemas *)

Record Column := mkColumn { col_name : string; col_type : string; col_mode : string }.
Definition required (n t : string) : Column := mkColumn n t "REQUIRED".
Definition nullable (n t : string) : Column := mkColumn n t "NULLABLE".

Definition EVENT_EXPORT_SCHEMA : list Column :=
  [ required "event_id" "STRING"; required "event_type" "STRING"; required "schema_version" "INT64";
    nullable "org_id" "INT64"; required "domain_object_type" "STRING"; required "domain_object_id" "STRING";
    required "occurred_at" "TIMESTAMP"; required "recorded_at" "TIMESTAMP"; required "recorded_date" "DATE";
    required "source" "STRING"; required "actor_type" "STRING"; nullable "actor_id" "STRING";
    nullable "correlation_id" "STRING"; required "payload" "JSON"; nullable "lineage" "JSON" ].

Definition SNAPSHOT_EXPORT_SCHEMA : list Column :=
  [ required "snapshot_id" "STRING"; required "snapshot_type" "STRING"; required "schema_version" "INT64";
    nullable "org_id" "INT64"; required "subject_type" "STRING"; required "subject_id" "STRING";
    required "valid_at" "TIMESTAMP"; required "recorded_at" "TIMESTAMP"; required "recorded_date" "DATE";
    required "payload" "JSON"; nullable "lineage" "JSON" ].

(** * Manifest and rows *)

Record ExportManifest := mkManifest {
  export_id : string; em_dataset_name : string; em_dataset_version : string; em_schema_version : Z;
  em_org_scope : option Z; started_at : DateTime; finished_at : DateTime; row_counts : Z;
  em_partition_range : option (string * string); em_source_query : string; em_checksum : string;
  em_status : string; em_error_code : option string
}.

Definition row_dict : Type := list (string * json).

Record ExportResult := mkExport { manifest : ExportManifest; er_rows : list row_dict }.

Definition iso (t : DateTime) : string := isoformat_seconds t.

Definition project_event (r : Event) : row_dict :=
  [ ("event_id", JStr (event_id r)); ("event_type", JStr (event_type r));
    ("schema_version", JInt (ev_schema_version r)); ("org_id", jz (ev_org_id r));
    ("domain_object_type", JStr (domain_object_type r)); ("domain_object_id", JStr (domain_object_id r));
    ("occurred_at", JStr (iso (occurred_at r))); ("recorded_at", JStr (iso (ev_recorded_at r)));
    ("recorded_date", JStr (date_isoformat (ev_recorded_at r)));
    ("source", JStr (source r)); ("actor_type", JStr (actor_type r)); ("actor_id", js (actor_id r));
    ("correlation_id", js (correlation_id r)); ("payload", JStr (ev_payload r)); ("lineage", js (ev_lineage r)) ].

Definition project_snapshot (r : Snapshot) : row_dict :=
  [ ("snapshot_id", JStr (snapshot_id r)); ("snapshot_type", JStr (snapshot_type r));
    ("schema_version", JInt (sn_schema_version r)); ("org_id", jz (sn_org_id r));
    ("subject_type", JStr (subject_type r)); ("subject_id", JStr (subject_id r));
    ("valid_at", JStr (iso (valid_at r))); ("recorded_at", JStr (iso (sn_recorded_at r)));
    ("recorded_date", JStr (date_isoformat (sn_recorded_at r)));
    ("payload", JStr (sn_payload r)); ("lineage", js (sn_lineage r)) ].

(** [r[field]] of a string column. *)
Definition row_str (field : string) (r : row_dict) : string :=
  match dict_get field r with Some (JStr s) => s | _ => "" end.

Definition by_field (field : string) (a b : row_dict) : bool := str_le (row_str field a) (row_str field b).

(** [min] and [max] of a list of strings. *)
Definition str_min (a b : string) : string := if str_le a b then a else b.
Definition str_max (a b : string) : string := if str_le b a then a else b.
Definition partition_range (rows : list row_dict) : option (string * string) :=
  match map (row_str "recorded_date") rows with
  | [] => None
  | d :: ds => Some (fold_left str_min ds d, fold_left str_max ds d)
  end.

(** * Warehouse configuration *)

Definition warehouse_configured (env : Env) : bool := truthy (strip (getenv env "UKIP_WAREHOUSE_DATASET" "")).

Definition export_readiness (env : Env) : list (string * json) :=
  let dataset := getenv env "UKIP_WAREHOUSE_DATASET" "" in
  [ ("status", JStr (if warehouse_configured env then "configured" else "not_configured"));
    ("dataset", if truthy dataset then JStr dataset else JNull) ].

(** * Export *)

(** What the two exports pass to the shared job, with what it relies on. *)
Class Exported (R : Type) `{Governed R} := {
  project : R -> row_dict; id_field : string; dataset_name : string; tablename : string;
  time_col : R -> DateTime; export_schema : list Column;
  project_keys r : dict_keys (project r) = map col_name export_schema;
  project_id r : row_str id_field (project r) = g_uid r;
  project_org r : dict_get "org_id" (project r) = Some (jz (g_org r));
  project_date r : row_str "recorded_date" (project r) = date_isoformat (time_col r)
}.
#[export] Instance events_exported : Exported Event := {
  project := project_event; id_field := "event_id"; dataset_name := "retrospective_events";
  tablename := "retrospective_events"; time_col := ev_recorded_at; export_schema := EVENT_EXPORT_SCHEMA;
  project_keys r := eq_refl; project_id r := eq_refl; project_org r := eq_refl; project_date r := eq_refl
}.
#[export] Instance snapshots_exported : Exported Snapshot := {
  project := project_snapshot; id_field := "snapshot_id"; dataset_name := "retrospective_snapshots";
  tablename := "retrospective_snapshots"; time_col := sn_recorded_at; export_schema := SNAPSHOT_EXPORT_SCHEMA;
  project_keys r := eq_refl; project_id r := eq_refl; project_org r := eq_refl; project_date r := eq_refl
}.

Section export.
Context (sha256 : string -> string).

Definition checksum (rows : list row_dict) (field : string) : string :=
  sha256 (dumps true (sort_keys (JArr (map JObj (sort_by (by_field field) rows))))).

Section job.
Context {R : Type} `{Exported R}.

(** The scope and the window. *)
Definition selected (org_scope : option Z) (since until : option DateTime) (r : R) : bool :=
  bool_decide (g_org r = org_scope) &&
  (match since with Some s => dt_le s (time_col r) | None => true end) &&
  (match until with Some u => dt_le (time_col r) u | None => true end).

(** The dict [seen], keyed by the stable id. *)
Definition index_rows (rows : list row_dict) : list (string * row_dict) :=
  fold_left (fun d r => dict_set (row_str id_field r) r d) rows [].
Definition dedup_rows (rows : list row_dict) : list row_dict :=
  let seen := index_rows rows in
  omap (fun k => dict_get k seen) (sort_by str_le (dict_keys seen)).

Definition run_export (started finished : DateTime) (uuid : string) (org_scope : option Z)
    (since until : option DateTime) (dataset_version : string) (table : list R) : ExportResult :=
  let q := List.filter (selected org_scope since until) table in
  let rows := map project (sort_by (fun a b => (g_id a <=? g_id b)%Z) q) in
  let rows := dedup_rows rows in
  let source_query := (tablename ++ " WHERE org_scope=" ++
                       match org_scope with None => "platform" | Some o => str_of_Z o end)%string in
  mkExport
    (mkManifest uuid dataset_name dataset_version 1 org_scope (strip_micro started) (strip_micro finished)
       (Z.of_nat (length rows)) (partition_range rows) source_query (checksum rows id_field)
       (if decide (rows = []) then "empty" else "completed") None)
    rows.
End job.

Definition export_events := run_export (R := Event).
Definition export_snapshots := run_export (R := Snapshot).
End export.

(** * Validation *)

Record ValidationReport := mkReport {
  report_ok : bool; row_count_ok : bool; tenant_ok : bool; schema_ok : bool; report_errors : list string
}.

(** [repr] of a list of column names, which hold no quote or backslash. *)
Definition repr_names (l : list string) : string :=
  ("[" ++ join ", " (map (fun s => "'" ++ s ++ "'") l) ++ "]")%string.

Definition missing_of (schema : list Column) (r : row_dict) : list string :=
  sort_by str_le (remove_dups (List.filter (fun n => negb (bool_decide (n ∈ dict_keys r)))
    (map col_name (List.filter (fun c => bool_decide (col_mode c = "REQUIRED")) schema)))).
Definition extra_of (schema : list Column) (r : row_dict) : list string :=
  sort_by str_le (List.filter (fun n => negb (bool_decide (n ∈ map col_name schema))) (dict_keys r)).

Definition drift (schema : list Column) (r : row_dict) : bool :=
  negb (bool_decide (missing_of schema r = [])) || negb (bool_decide (extra_of schema r = [])).

Definition offends (org : Z) (r : row_dict) : bool :=
  negb (bool_decide (dict_get "org_id" r = Some (JInt org))).

Definition validate_export (result : ExportResult) (schema : list Column) (org_scope : option Z)
  : ValidationReport :=
  let n := Z.of_nat (length (er_rows result)) in
  let counts_ok := (row_counts (manifest result) =? n)%Z in
  let e1 := if counts_ok then []
            else [("row_count mismatch: manifest=" ++ str_of_Z (row_counts (manifest result)) ++
                   " actual=" ++ str_of_Z n)%string] in
  let '(sch_ok, e2) :=
    match List.find (drift schema) (er_rows result) with
    | None => (true, [])
    | Some r => (false, [("schema drift: missing=" ++ repr_names (missing_of schema r) ++
                          " extra=" ++ repr_names (extra_of schema r))%string])
    end in
  let '(ten_ok, e3) :=
    match org_scope with
    | None => (true, [])
    | Some org =>
        match List.filter (offends org) (er_rows result) with
        | [] => (true, [])
        | offenders => (false, [("tenant isolation: " ++ str_of_Z (Z.of_nat (length offenders)) ++
                                 " row(s) not in org_scope " ++ str_of_Z org)%string])
        end
    end in
  mkReport (counts_ok && ten_ok && sch_ok) counts_ok ten_ok sch_ok (e1 ++ e2 ++ e3).

(** * Facts *)

Lemma str_le_antisym a b : str_le a b = true -> str_le b a = true -> a = b.
Proof. unfold str_le. intros H1 H2. by apply String.leb_antisym. Qed.
Lemma str_le_refl a : str_le a a = true.
Proof. by destruct (str_le_total a a). Qed.

Lemma sort_by_map {A B} (f : A -> B) (le : B -> B -> bool) l :
  sort_by le (map f l) = map f (sort_by (fun a b => le (f a) (f b)) l).
Proof.
  assert (Hi : forall x l, insert_by le (f x) (map f l)
                         = map f (insert_by (fun a b => le (f a) (f b)) x l)).
  { intros x l0. induction l0 as [|y l0 IH]; simpl; [done|]. destruct (le (f x) (f y)); [done|].
    simpl. by rewrite IH. }
  induction l as [|x l IH]; simpl; [done|]. by rewrite IH, Hi.
Qed.

(** Sorting by a key no two elements share depends only on the elements. *)
Lemma sort_by_key_unique {A} (key : A -> string) l l' :
  NoDup (map key l) -> l ≡ₚ l' ->
  sort_by (fun a b => str_le (key a) (key b)) l = sort_by (fun a b => str_le (key a) (key b)) l'.
Proof.
  intros Hnd Hp.
  assert (Hs : forall l, StronglySorted (fun a b => str_le (key a) (key b) = true)
                    (sort_by (fun a b => str_le (key a) (key b)) l)).
  { intros. apply sort_by_sorted; [intros a b; apply str_le_total|intros a b c; apply str_le_trans]. }
  apply (StronglySorted_unique_strong (fun a b => str_le (key a) (key b) = true)).
  - intros x y Hx Hy H1 H2. apply list_elem_of_In, sort_by_in in Hx.
    apply list_elem_of_In, sort_by_in in Hy.
    apply (NoDup_map_inj key l); [done|done| |by apply str_le_antisym].
    apply list_elem_of_In. rewrite Hp. by apply list_elem_of_In.
  - apply Hs.
  - apply Hs.
  - by rewrite !sort_by_perm.
Qed.

Section minmax.
Lemma str_min_spec ds d :
  In (fold_left str_min ds d) (d :: ds) /\ forall x, In x (d :: ds) -> str_le (fold_left str_min ds d) x = true.
Proof.
  revert d. induction ds as [|e ds IH]; intros d; simpl.
  - split; [by left|]. intros x [<-|[]]. apply str_le_refl.
  - destruct (IH (str_min d e)) as [Hin Hle]. unfold str_min in *. destruct (str_le d e) eqn:E.
    + split; [destruct Hin as [<-|H]; [by left|by right; right]|].
      intros x [<-|[<-|Hx]]; [by apply Hle; left| |by apply Hle; right].
      eapply str_le_trans; [apply Hle; by left|done].
    + split; [destruct Hin as [<-|H]; [by right; left|by right; right]|].
      assert (He : str_le e d = true) by (destruct (str_le_total d e); congruence).
      intros x [<-|[<-|Hx]]; [|by apply Hle; left|by apply Hle; right].
      eapply str_le_trans; [apply Hle; by left|done].
Qed.
Lemma str_max_spec ds d :
  In (fold_left str_max ds d) (d :: ds) /\ forall x, In x (d :: ds) -> str_le x (fold_left str_max ds d) = true.
Proof.
  revert d. induction ds as [|e ds IH]; intros d; simpl.
  - split; [by left|]. intros x [<-|[]]. apply str_le_refl.
  - destruct (IH (str_max d e)) as [Hin Hle]. unfold str_max in *. destruct (str_le e d) eqn:E.
    + split; [destruct Hin as [<-|H]; [by left|by right; right]|].
      intros x [<-|[<-|Hx]]; [by apply Hle; left| |by apply Hle; right].
      eapply str_le_trans; [done|apply Hle; by left].
    + split; [destruct Hin as [<-|H]; [by right; left|by right; right]|].
      assert (He : str_le d e = true) by (destruct (str_le_total e d); congruence).
      intros x [<-|[<-|Hx]]; [|by apply Hle; left|by apply Hle; right].
      eapply str_le_trans; [done|apply Hle; by left].
Qed.
End minmax.

(** The range is tight. *)
Lemma partition_range_spec rows lo hi :
  partition_range rows = Some (lo, hi) ->
  (exists r, In r rows /\ row_str "recorded_date" r = lo) /\
  (exists r, In r rows /\ row_str "recorded_date" r = hi) /\
  forall r, In r rows -> str_le lo (row_str "recorded_date" r) = true /\
                         str_le (row_str "recorded_date" r) hi = true.
Proof.
  unfold partition_range. intros H.
  assert (Hin : forall d, In d (map (row_str "recorded_date") rows) <->
                          exists r, In r rows /\ row_str "recorded_date" r = d).
  { intros d. rewrite in_map_iff. naive_solver. }
  destruct (map (row_str "recorded_date") rows) as [|d ds]; [done|]. injection H as <- <-.
  destruct (str_min_spec ds d) as [H1 H2], (str_max_spec ds d) as [H3 H4].
  split; [by apply Hin|]. split; [by apply Hin|]. intros r Hr.
  split; [apply H2|apply H4]; apply Hin; eauto.
Qed.

Section job_facts.
Context (sha256 : string -> string) {R : Type} `{Exported R}.
Implicit Types l : list R.

Lemma index_rows_fresh l d :
  NoDup (dict_keys d ++ map g_uid l) ->
  fold_left (fun d r => dict_set (row_str id_field r) r d) (map project l) d =
  d ++ map (fun r => (g_uid r, project r)) l.
Proof.
  revert d. induction l as [|r l IH]; intros d Hnd; simpl; [by rewrite app_nil_r|].
  rewrite project_id, dict_set_fresh.
  - rewrite IH; [by rewrite <- (assoc_L (++))|].
    unfold dict_keys in *. rewrite map_app, <- (assoc_L (++)). done.
  - intros Hk. apply NoDup_app in Hnd as (_ & Hd & _). apply (Hd _ Hk). by left.
Qed.

Lemma dedup_rows_project l :
  NoDup (map g_uid l) ->
  dedup_rows (map project l) = map project (sort_by (fun a b => str_le (g_uid a) (g_uid b)) l).
Proof.
  intros Hnd. unfold dedup_rows, index_rows. rewrite index_rows_fresh by done. simpl.
  replace (dict_keys (map (fun r => (g_uid r, project r)) l)) with (map g_uid l)
    by (unfold dict_keys; by rewrite map_map).
  rewrite sort_by_map.
  assert (Hget : forall r, In r l ->
            dict_get (g_uid r) (map (fun r => (g_uid r, project r)) l) = Some (project r)).
  { intros r Hr. apply dict_get_elem; [unfold dict_keys; by rewrite map_map|].
    apply list_elem_of_In, in_map_iff. eauto. }
  assert (Hsub : forall r, In r (sort_by (fun a b => str_le (g_uid a) (g_uid b)) l) -> In r l)
    by (intros r; apply sort_by_in).
  revert Hsub. generalize (sort_by (fun a b : R => str_le (g_uid a) (g_uid b)) l). intros q.
  induction q as [|r q IH]; intros Hsub; simpl; [done|].
  rewrite Hget by (apply Hsub; by left). f_equal. apply IH. intros; apply Hsub; by right.
Qed.

Lemma NoDup_uid_perm l l' : l ≡ₚ l' -> NoDup (map g_uid l) -> NoDup (map g_uid l').
Proof. by intros ->. Qed.

(** The rows of an export: the selected records, once each, in id order. *)
Lemma run_export_rows t0 t1 u org since until v l :
  NoDup (map g_uid (List.filter (selected org since until) l)) ->
  er_rows (run_export sha256 t0 t1 u org since until v l)
  = map project (sort_by (fun a b => str_le (g_uid a) (g_uid b)) (List.filter (selected org since until) l)).
Proof.
  intros Hnd. unfold run_export. cbn [er_rows]. rewrite dedup_rows_project.
  - f_equal. apply sort_by_key_unique; [|apply sort_by_perm].
    eapply NoDup_uid_perm; [symmetry; apply sort_by_perm|done].
  - eapply NoDup_uid_perm; [symmetry; apply sort_by_perm|done].
Qed.
End job_facts.

Section validation_facts.
Context {R : Type} `{Exported R}.

Lemma filter_nil {A} (p : A -> bool) l : (forall x, In x l -> p x = false) -> List.filter p l = [].
Proof. intros Hp. pose proof (proj2 (count_where_0 p l) Hp) as E. unfold count_where in E. by destruct (List.filter p l). Qed.

Lemma project_no_drift (r : R) : drift export_schema (project r) = false.
Proof.
  unfold drift, missing_of, extra_of. rewrite project_keys.
  rewrite (filter_nil _ (map col_name (List.filter _ export_schema))).
  - rewrite (filter_nil _ (map col_name export_schema)); [done|].
    intros n Hn. rewrite bool_decide_true; [done|]. by apply list_elem_of_In.
  - intros n (c & <- & [Hc _]%filter_In)%in_map_iff. rewrite bool_decide_true; [done|].
    apply list_elem_of_In. by apply in_map.
Qed.
Lemma find_drift_none (sel : list R) : List.find (drift export_schema) (map project sel) = None.
Proof. induction sel as [|r sel IH]; simpl; [done|]. by rewrite project_no_drift. Qed.

Lemma project_in_scope org (r : R) : g_org r = Some org -> offends org (project r) = false.
Proof. intros E. unfold offends. rewrite project_org, E. simpl. by rewrite bool_decide_true. Qed.

(** An export of rows of the scope passes its own validation. *)
Lemma validate_projected (sel : list R) (m : ExportManifest) org :
  row_counts m = Z.of_nat (length sel) -> (forall r, In r sel -> g_org r = org) ->
  validate_export (mkExport m (map project sel)) export_schema org = mkReport true true true true [].
Proof.
  intros Hc Ho. unfold validate_export. cbn [er_rows manifest]. rewrite Hc, length_map, Z.eqb_refl.
  rewrite find_drift_none. destruct org as [o|]; [|done].
  rewrite (filter_nil (offends o)); [done|].
  intros x (r & <- & Hr)%in_map_iff. apply project_in_scope. auto.
Qed.
End validation_facts.

(** What the audit compares between two runs: the manifest less its id and its
    times. *)
Definition same_manifest (m m' : ExportManifest) : Prop :=
  em_dataset_name m = em_dataset_name m' /\ em_dataset_version m = em_dataset_version m' /\
  em_schema_version m = em_schema_version m' /\ em_org_scope m = em_org_scope m' /\
  row_counts m = row_counts m' /\ em_partition_range m = em_partition_range m' /\
  em_source_query m = em_source_query m' /\ em_checksum m = em_checksum m' /\ em_status m = em_status m'.

(** * Claims *)

(** An export is exact, auditable and repeatable: it holds each record of
    the tenant's scope and window once, in id order, and nothing else; it
    passes its own validation and a tight partition range; and every later run
    over a table with the same records in scope (in any row order, whatever
    other tenants wrote) has the same rows, checksum and manifest, its id and
    times apart. *)
Theorem export_exact (sha256 : string -> string) {R} `{HE : Exported R} t0 t1 uuid org since until v (l : list R) :
  NoDup (map g_uid (List.filter (selected org since until) l)) ->
  let out := run_export sha256 t0 t1 uuid org since until v l in
  (exists sel, er_rows out = map project sel /\ sel ≡ₚ List.filter (selected org since until) l /\
     StronglySorted (fun a b => str_le (g_uid a) (g_uid b) = true) sel) /\
  validate_export out export_schema org = mkReport true true true true [] /\
  (forall lo hi, em_partition_range (manifest out) = Some (lo, hi) -> forall r, In r l ->
     selected org since until r = true ->
     str_le lo (date_isoformat (time_col r)) = true /\ str_le (date_isoformat (time_col r)) hi = true) /\
  (forall t0' t1' uuid' l', List.filter (selected org since until) l' ≡ₚ List.filter (selected org since until) l ->
     let out' := run_export sha256 t0' t1' uuid' org since until v l' in
     er_rows out' = er_rows out /\ same_manifest (manifest out') (manifest out)).
Proof.
  intros Hnd out.
  assert (Hrows := run_export_rows sha256 t0 t1 uuid org since until v l Hnd).
  fold out in Hrows. set (sel := sort_by _ _) in Hrows.
  assert (Hsel : sel ≡ₚ List.filter (selected org since until) l) by apply sort_by_perm.
  split; [|split; [|split]].
  - exists sel. split; [done|]. split; [done|].
    apply sort_by_sorted; [intros a b; apply str_le_total|intros a b c; apply str_le_trans].
  - assert (Hcount : row_counts (manifest out) = Z.of_nat (length sel)).
    { change (row_counts (manifest out)) with (Z.of_nat (length (er_rows out))). by rewrite Hrows, length_map. }
    destruct out as [m rs]. simpl in Hrows, Hcount. subst rs. apply validate_projected; [done|].
    intros r Hr%sort_by_in. apply filter_In in Hr as [_ Hs]. unfold selected in Hs.
    apply andb_prop in Hs as [[Hs%bool_decide_eq_true _]%andb_prop _]. exact Hs.
  - intros lo hi Hrange r Hr Hs.
    change (em_partition_range (manifest out)) with (partition_range (er_rows out)) in Hrange.
    rewrite <- project_date. apply (partition_range_spec _ lo hi Hrange).
    rewrite Hrows. apply in_map, sort_by_in, filter_In. auto.
  - intros t0' t1' uuid' l' Hp out'.
    assert (E : er_rows out' = er_rows out).
    { rewrite Hrows. unfold out'. rewrite run_export_rows.
      - f_equal. apply sort_by_key_unique; [|done]. by rewrite Hp.
      - by rewrite Hp. }
    split; [done|]. unfold same_manifest.
    change (row_counts (manifest out')) with (Z.of_nat (length (er_rows out'))).
    change (em_partition_range (manifest out')) with (partition_range (er_rows out')).
    change (em_checksum (manifest out')) with (checksum sha256 (er_rows out') id_field).
    change (em_status (manifest out')) with (if decide (er_rows out' = []) then "empty" else "completed").
    rewrite E. repeat split.
Qed.

(** * Witness *)

Definition export_row (i org d : Z) : Snapshot :=
  mkSnap i ("s" ++ str_of_Z i) "journal_metric" 1 (Some org) "journal" "j1" (mkDateTime 2026 3 d 9 0 0 0)
    (mkDateTime 2026 3 d 10 0 0 5) ("k" ++ str_of_Z i) "{}" None.
Definition export_table : list Snapshot := [export_row 12 7 1; export_row 3 7 2; export_row 4 8 2; export_row 5 7 9].
Definition export_until : DateTime := mkDateTime 2026 3 5 0 0 0 0.

(** Two of the tenant's records fall in the window; a table rewritten by others
    exports the same. *)
Lemma export_exact_witness :
  let out := run_export (fun s => s) export_until export_until "e1" (Some 7%Z) None (Some export_until) "v1" export_table in
  let out' := run_export (fun s => s) export_until export_until "e2" (Some 7%Z) None (Some export_until) "v1"
                (export_row 9 8 1 :: rev export_table) in
  map (row_str "snapshot_id") (er_rows out) = ["s12"; "s3"] /\
  report_ok (validate_export out export_schema (Some 7%Z)) = true /\
  er_rows out' = er_rows out /\ same_manifest (manifest out') (manifest out).
Proof.
  intros out out'.
  destruct (export_exact (fun s => s) export_until export_until "e1" (Some 7%Z) None (Some export_until) "v1" export_table)
    as (_ & Hval & _ & Hagain).
  - by apply (bool_decide_unpack _).
  - split; [by vm_compute|]. split; [unfold out; by rewrite Hval|].
    apply Hagain. vm_compute. apply Permutation_swap.
Defined.
