(* ===== verification/RetroFeatures.v ===== *)
(** [backend/retrospective/features.py]: offline feature datasets from the
    append-only history, and that none of their rows leaks the future. Metric
    values are JSON values; the lineage ratio is exact. *)
From S2P Require Import Prelude PyStr PyJson PyValue DateTime RetroStore RetroEmit RetroQuery.
From Stdlib Require Import QArith.
Open Scope string_scope.
Open Scope list_scope.
Local Open Scope py_scope.

Definition SCHEMA_VERSION : Z := 1.

Record FeatureRow := mkFeatureRow {
  fr_dataset_id : string; fr_dataset_version : string; fr_org_scope : option Z;
  fr_subject_type : string; fr_subject_id : string;
  feature_timestamp : DateTime; label_timestamp : DateTime;
  fr_features : list (string * json); fr_labels : list (string * json); fr_lineage : list (string * json);
  fr_schema_version : Z; fr_created_at : DateTime
}.

Record Quality := mkQuality {
  q_row_counts : Z; q_subjects_considered : Z; q_lineage_completeness : Q; q_leakage_ok : bool;
  q_positive_labels : Z
}.

Record FeatureDataset := mkDataset {
  fd_dataset_id : string; fd_dataset_version : string; fd_org_scope : option Z; fd_created_at : DateTime;
  fd_rows : list FeatureRow; fd_leakage_ok : bool; fd_quality : Quality
}.

Definition leakage_violations (feature_timestamp label_timestamp : DateTime) (source_timestamps : list DateTime)
  : list string :=
  (if dt_le feature_timestamp label_timestamp then [] else ["feature_timestamp is after label_timestamp"]) ++
  map (fun ts => "feature source at " ++ isoformat ts ++ " is after feature_timestamp")%string
    (List.filter (fun ts => dt_lt feature_timestamp ts) source_timestamps).

Definition DECISION_LABELS : list (string * Z) := [("authority.accepted", 1%Z); ("authority.rejected", 0%Z)].

Record GovernedLabel := mkLabel {
  gl_value : Z; gl_kind : string; gl_timestamp : DateTime; gl_lineage : list (string * json)
}.
Definition governed_label_from_decision (event : Event) : option GovernedLabel :=
  match dict_get (event_type event) DECISION_LABELS with
  | None => None
  | Some value =>
      Some (mkLabel value "governed_decision" (occurred_at event)
        [("source", JStr "retrospective_event"); ("event_id", JStr (event_id event));
         ("event_type", JStr (event_type event)); ("actor_type", JStr (actor_type event));
         ("actor_id", js (actor_id event))])
  end.

(** The journal snapshots of the scope, in time order. *)
Definition journal_snapshots (org_scope : option Z) (t : list Snapshot) : list Snapshot :=
  order_by oldest (List.filter (fun s => bool_decide (snapshot_type s = "journal_metric") &&
                                         org_matches org_scope (sn_org_id s)) t).

(** [by_subject[snap.subject_id].append(snap)] on a defaultdict. *)
Definition add_subject (d : list (string * list Snapshot)) (s : Snapshot) : list (string * list Snapshot) :=
  dict_set (subject_id s) (match dict_get (subject_id s) d with Some l => l | None => [] end ++ [s]) d.
Definition group_by_subject (l : list Snapshot) : list (string * list Snapshot) := fold_left add_subject l [].

Definition FEATURE_FIELDS : list string := ["nif"; "nif_bayes"; "two_yr_mean_citedness"; "works_2yr"; "nif_field"].

Fixpoint get_fields (names : list string) (payload : json) : res (list (string * json)) :=
  match names with
  | [] => Ok []
  | n :: ns => let? v := get_or n JNull payload in let? rest := get_fields ns payload in Ok ((n, v) :: rest)
  end.

(** [label_nif is not None and feat_nif is not None and label_nif > feat_nif] *)
Definition increased (feat_nif label_nif : json) : res bool :=
  if bool_decide (feat_nif = JNull) || bool_decide (label_nif = JNull) then Ok false else py_gt label_nif feat_nif.

Section build.
Context (uuid dataset_version : string) (org_scope : option Z) (created_at : DateTime).

(** The rows of the subjects in turn, and whether none was dropped as leaky. *)
Fixpoint subject_rows (groups : list (string * list Snapshot)) : res (list FeatureRow * bool) :=
  match groups with
  | [] => Ok ([], true)
  | (subject, snaps) :: rest =>
      match snaps with
      | feat_snap :: (_ :: _) as tail =>
          let label_snap := List.last tail feat_snap in
          let? feat_payload := loads_payload feat_snap in
          let? label_payload := loads_payload label_snap in
          match leakage_violations (valid_at feat_snap) (valid_at label_snap) [valid_at feat_snap] with
          | _ :: _ => let? out := subject_rows rest in Ok (fst out, false)
          | [] =>
              let? feat_nif := get_or "nif" JNull feat_payload in
              let? label_nif := get_or "nif" JNull label_payload in
              let? up := increased feat_nif label_nif in
              let? features := get_fields FEATURE_FIELDS feat_payload in
              let row := mkFeatureRow uuid dataset_version org_scope "journal" subject
                (valid_at feat_snap) (valid_at label_snap) features
                [("nif_increased", JInt (if up then 1 else 0)); ("label_kind", JStr "proxy_outcome")]
                [("feature_snapshot_id", JStr (snapshot_id feat_snap));
                 ("feature_valid_at", JStr (isoformat (valid_at feat_snap)));
                 ("label_snapshot_id", JStr (snapshot_id label_snap));
                 ("label_valid_at", JStr (isoformat (valid_at label_snap)));
                 ("source", JStr "journal_metric_snapshot")]
                SCHEMA_VERSION created_at in
              let? out := subject_rows rest in
              Ok (row :: fst out, snd out)
          end
      | _ => subject_rows rest
      end
  end.

Definition positive (r : FeatureRow) : bool := bool_decide (dict_get "nif_increased" (fr_labels r) = Some (JInt 1)).

Definition build_journal_nif_dataset (t : list Snapshot) : res FeatureDataset :=
  let by_subject := group_by_subject (journal_snapshots org_scope t) in
  let? out := subject_rows by_subject in
  let '(rows, leakage_ok) := out in
  let quality := mkQuality (Z.of_nat (length rows)) (Z.of_nat (length by_subject))
    (match rows with
     | [] => 1%Q
     | _ => (count_where (fun r => negb (bool_decide (fr_lineage r = []))) rows # Pos.of_nat (length rows))%Q
     end)
    leakage_ok (count_where positive rows) in
  Ok (mkDataset uuid dataset_version org_scope created_at rows leakage_ok quality).
End build.

(** * Facts *)

Lemma group_get l k :
  dict_get k (group_by_subject l) =
  match List.filter (fun s => bool_decide (subject_id s = k)) l with [] => None | g => Some g end.
Proof.
  unfold group_by_subject. induction l as [|s l IH] using rev_ind; [done|].
  rewrite fold_left_app, List.filter_app. simpl. unfold add_subject at 1.
  case_bool_decide as E.
  - subst. rewrite dict_get_set_eq, IH. by destruct (List.filter _ l).
  - rewrite dict_get_set_ne by congruence. by rewrite IH, app_nil_r.
Qed.

Lemma group_keys_NoDup l : NoDup (dict_keys (group_by_subject l)).
Proof.
  unfold group_by_subject. induction l as [|s l IH] using rev_ind; [constructor|].
  rewrite fold_left_app. simpl. unfold add_subject at 1. rewrite dict_keys_set. case_decide; [done|].
  apply NoDup_app. split; [done|]. split; [|apply NoDup_singleton].
  intros x Hx ->%list_elem_of_singleton. done.
Qed.

Lemma journal_in org t s :
  In s (journal_snapshots org t) <-> In s t /\ snapshot_type s = "journal_metric" /\ sn_org_id s = org.
Proof.
  unfold journal_snapshots, order_by, org_matches. rewrite sort_by_in, filter_In, andb_true_iff, !bool_decide_eq_true.
  tauto.
Qed.

Lemma oldest_total : total_le oldest.
Proof. intros a b. unfold oldest. apply dt_le_total. Qed.
Lemma oldest_trans : trans_le oldest.
Proof. intros a b c. unfold oldest. apply dt_le_trans. Qed.

Lemma StronglySorted_filter {A} (R : A -> A -> Prop) p l : StronglySorted R l -> StronglySorted R (List.filter p l).
Proof.
  induction 1 as [|x l Hs IH Hx]; simpl; [constructor|]. destruct (p x); [|done]. constructor; [done|].
  rewrite Forall_forall in *. intros y Hy%list_elem_of_In. apply filter_In in Hy as [Hy _].
  by apply Hx, list_elem_of_In.
Qed.

(** The ends of a group in time order. *)
Lemma sorted_ends a b l :
  StronglySorted (fun x y => oldest x y = true) (a :: b :: l) ->
  let z := List.last (b :: l) a in
  In z (b :: l) /\ forall s, In s (a :: b :: l) -> dt_le (valid_at a) (valid_at s) = true /\ dt_le (valid_at s) (valid_at z) = true.
Proof.
  intros Hs z. assert (Hin : In z (b :: l)).
  { unfold z. clear. generalize a. revert b. induction l as [|c l IH]; intros b d; [by left|].
    right. change (List.last (b :: c :: l) d) with (List.last (c :: l) d). apply IH. }
  split; [done|].
  assert (Hlast : forall l (d : Snapshot) s, StronglySorted (fun x y => oldest x y = true) l -> In s l ->
            oldest s (List.last l d) = true).
  { clear. induction l as [|x l IH]; intros d s Hs Hin; [done|]. apply StronglySorted_inv in Hs as [Hs Hx].
    destruct l as [|y l]; [destruct Hin as [->|[]]; unfold oldest, dt_le; simpl; lia|].
    change (List.last (x :: y :: l) d) with (List.last (y :: l) d). destruct Hin as [->|Hin]; [|by apply IH].
    eapply oldest_trans; [|apply (IH d y Hs); by left].
    rewrite Forall_forall in Hx. apply Hx. by left. }
  intros s Hin'. split.
  - apply StronglySorted_inv in Hs as [_ Ha]. destruct Hin' as [->|Hin']; [unfold dt_le; lia|].
    rewrite Forall_forall in Ha. apply (Ha s). by apply list_elem_of_In.
  - exact (Hlast (a :: b :: l) a s Hs Hin').
Qed.

(** A metric snapshot: an object whose [nif] is an integer or missing. *)
Definition metric_ok (s : Snapshot) : Prop :=
  exists m, loads (sn_payload s) = Some (JObj m) /\
    (pget "nif" m = JNull \/ exists z, pget "nif" m = JInt z).

(** The row made of a subject's snapshots: features as of the earliest, label
    as of the latest. *)
Definition row_of (g : string * list Snapshot) (r : FeatureRow) : Prop :=
  fr_subject_id r = fst g /\
  exists first last m m', In first (snd g) /\ In last (snd g) /\
    (forall s, In s (snd g) -> dt_le (valid_at first) (valid_at s) = true /\ dt_le (valid_at s) (valid_at last) = true) /\
    feature_timestamp r = valid_at first /\ label_timestamp r = valid_at last /\
    loads (sn_payload first) = Some (JObj m) /\ loads (sn_payload last) = Some (JObj m') /\
    (forall f, f ∈ FEATURE_FIELDS -> dict_get f (fr_features r) = Some (pget f m)) /\
    (positive r = true <-> exists a b, pget "nif" m = JInt a /\ pget "nif" m' = JInt b /\ (a < b)%Z).

Definition two_or_more (g : string * list Snapshot) : bool := (2 <=? length (snd g))%nat.

Lemma get_fields_obj names m : exists l, get_fields names (JObj m) = Ok l /\
  forall f, f ∈ names -> dict_get f l = Some (pget f m).
Proof.
  induction names as [|n ns (l & Hl & IH)]; simpl.
  - exists []. split; [done|]. by intros f ?%elem_of_nil.
  - rewrite Hl. simpl. eexists. split; [reflexivity|]. simpl. intros f [->|Hf]%elem_of_cons.
    + by rewrite decide_True by done.
    + destruct (decide (f = n)) as [->|E]; [done|by apply IH].
Qed.

#[local] Arguments get_fields _ _ : simpl never.

Lemma no_leak a b : dt_le a b = true -> leakage_violations a b [a] = [].
Proof.
  intros H. unfold leakage_violations. rewrite H. simpl. unfold dt_lt.
  by rewrite Z.ltb_irrefl.
Qed.

Lemma increased_spec v w : (v = JNull \/ exists z, v = JInt z) -> (w = JNull \/ exists z, w = JInt z) ->
  exists b, increased v w = Ok b /\ (b = true <-> exists x y, v = JInt x /\ w = JInt y /\ (x < y)%Z).
Proof.
  unfold increased. intros [->|[x ->]] [->|[y ->]]; simpl; try (eexists; split; [reflexivity|]; naive_solver).
  eexists. split; [reflexivity|]. rewrite Z.ltb_lt. naive_solver.
Qed.

Lemma subject_rows_run uuid v org created groups :
  Forall (fun g => StronglySorted (fun x y => oldest x y = true) (snd g) /\ Forall metric_ok (snd g)) groups ->
  exists rows, subject_rows uuid v org created groups = Ok (rows, true) /\
    Forall2 row_of (List.filter two_or_more groups) rows.
Proof.
  induction 1 as [|[k snaps] groups [Hs Hm] _ (rows & Hr & Hf)]; simpl in *; [by exists []|].
  destruct snaps as [|a [|b l]]; [by exists rows..|].
  destruct (sorted_ends a b l Hs) as [Hin Hends]. set (z := List.last (b :: l) a) in *.
  rewrite Forall_forall in Hm.
  destruct (Hm a) as (m & Hma & Hna); [by left|].
  destruct (Hm z) as (m' & Hmz & Hnz); [right; by apply list_elem_of_In|].
  change (List.last (b :: l) a) with z. unfold loads_payload. rewrite Hma, Hmz. cbn [res_bind].
  rewrite no_leak by (apply (Hends z); by right).
  destruct (increased_spec _ _ Hna Hnz) as (up & Hup & Hiff).
  destruct (get_fields_obj FEATURE_FIELDS m) as (fs & Hfs & Hget).
  assert (Hpget : forall f p, get_or f JNull (JObj p) = Ok (pget f p)) by done.
  rewrite !Hpget. cbn [res_bind]. rewrite Hup. cbn [res_bind]. rewrite Hfs. cbn [res_bind]. rewrite Hr. cbn [res_bind fst snd].
  eexists. split; [reflexivity|]. constructor; [|done]. split; [done|].
  exists a, z, m, m'. split; [by left|]. split; [by right|]. split; [exact Hends|].
  split_and!; try done. rewrite <- Hiff. unfold positive. simpl. rewrite bool_decide_eq_true. by destruct up.
Qed.

(** * Claim *)

(** A training dataset never leaks the future: when the scope's metric
    snapshots decode, the build succeeds and reports no leak; it has exactly
    one row for each journal with at least two snapshots in the tenant's scope;
    its features are those of the journal's earliest snapshot and its label
    compares with the latest, so no feature value is later than its timestamp;
    snapshots of other tenants or types do not change it. *)
Theorem dataset_point_in_time uuid v org created (t : list Snapshot) :
  Forall metric_ok (journal_snapshots org t) ->
  exists ds, build_journal_nif_dataset uuid v org created t = Ok ds /\ fd_leakage_ok ds = true /\
    NoDup (map fr_subject_id (fd_rows ds)) /\
    (forall k, In k (map fr_subject_id (fd_rows ds)) <->
       (2 <= length (List.filter (fun s => bool_decide (subject_id s = k)) (journal_snapshots org t)))%nat) /\
    (forall r, In r (fd_rows ds) ->
       row_of (fr_subject_id r, List.filter (fun s => bool_decide (subject_id s = fr_subject_id r)) (journal_snapshots org t)) r /\
       leakage_violations (feature_timestamp r) (label_timestamp r) [feature_timestamp r] = []) /\
    (forall t', journal_snapshots org t' = journal_snapshots org t ->
       build_journal_nif_dataset uuid v org created t' = Ok ds).
Proof.
  intros Hok. set (l := journal_snapshots org t) in *. set (gs := group_by_subject l).
  assert (Hg : forall k g, In (k, g) gs -> g = List.filter (fun s => bool_decide (subject_id s = k)) l /\ g <> []).
  { intros k g Hin. pose proof (dict_get_elem gs k g (group_keys_NoDup l) (proj2 (list_elem_of_In _ _) Hin)) as E.
    unfold gs in E. rewrite group_get in E. by destruct (List.filter _ l); simplify_eq. }
  destruct (subject_rows_run uuid v org created gs) as (rows & Hrows & Hf2).
  { rewrite Forall_forall. intros [k g] Hin%list_elem_of_In. destruct (Hg k g Hin) as [-> _]. simpl. split.
    - apply StronglySorted_filter. apply sort_by_sorted; [apply oldest_total|apply oldest_trans].
    - rewrite Forall_forall in *. intros s Hs%list_elem_of_In. apply filter_In in Hs as [Hs _].
      by apply Hok, list_elem_of_In. }
  assert (Hids : map fr_subject_id rows = map fst (List.filter two_or_more gs)).
  { clear -Hf2. induction Hf2 as [|g r gs' rows [Hid _] _ IH]; simpl; [done|by rewrite IH, Hid]. }
  unfold build_journal_nif_dataset. fold l. fold gs. rewrite Hrows. simpl res_bind. eexists. split; [reflexivity|].
  cbn [fd_rows fd_leakage_ok]. split; [done|]. split; [|split; [|split]].
  - rewrite Hids. apply NoDup_map_filter, group_keys_NoDup.
  - intros k. rewrite Hids, in_map_iff. split.
    + intros ([k' g] & <- & [Hin H2]%filter_In). destruct (Hg k' g Hin) as [E _]. simpl.
      unfold two_or_more in H2. simpl in H2. rewrite <- E. by apply Nat.leb_le.
    + intros H2. exists (k, List.filter (fun s => bool_decide (subject_id s = k)) l). split; [done|].
      apply filter_In. split; [|by apply Nat.leb_le].
      apply list_elem_of_In, dict_get_Some_elem. unfold gs. rewrite group_get.
      by destruct (List.filter _ l); [simpl in H2; lia|].
  - intros r Hr. assert (Hrow : exists g, In g gs /\ row_of g r).
    { clear -Hf2 Hr. assert (Hsub : forall g, In g (List.filter two_or_more gs) -> In g gs) by (intros g [H _]%filter_In; done).
      induction Hf2 as [|g x gs' rows Hrow _ IH]; simpl in *; [done|].
      destruct Hr as [<-|Hr]; [exists g; auto|apply IH; auto]. }
    destruct Hrow as ([k g] & Hin & Hrow). destruct (Hg k g Hin) as [-> _]. destruct Hrow as [Hk Hrow]. simpl in Hk.
    subst k. split; [split; [done|exact Hrow]|].
    destruct Hrow as (a & z & m & m' & Ha & Hz & Hends & -> & -> & _). apply no_leak. by apply Hends.
  - intros t' Ht'. unfold l, gs in *. rewrite Ht'. fold l. fold gs. by rewrite Hrows.
Qed.

(** * Witness *)

Definition metric_snap (i org : Z) (subject : string) (d nif : Z) : Snapshot :=
  mkSnap i (str_of_Z i) "journal_metric" 1 (Some org) "journal" subject (mkDateTime 2026 5 d 0 0 0 0)
    (mkDateTime 2026 5 d 1 0 0 0) (str_of_Z i) (dumps true (JObj [("nif", JInt nif)])) None.
Definition metric_table : list Snapshot :=
  [metric_snap 1 7 "a" 9 5; metric_snap 2 7 "a" 2 3; metric_snap 3 7 "b" 1 1; metric_snap 4 8 "b" 2 9].

Lemma dataset_point_in_time_witness :
  exists ds, build_journal_nif_dataset "d1" "v1" (Some 7%Z) (mkDateTime 2026 6 1 0 0 0 0) metric_table = Ok ds /\
    map fr_subject_id (fd_rows ds) = ["a"] /\ map positive (fd_rows ds) = [true] /\ fd_leakage_ok ds = true.
Proof.
  destruct (dataset_point_in_time "d1" "v1" (Some 7%Z) (mkDateTime 2026 6 1 0 0 0 0) metric_table)
    as (ds & Hds & Hleak & _).
  - repeat (apply Forall_cons_2; [eexists; split; [vm_compute; reflexivity|right; eexists; reflexivity]|]). constructor.
  - exists ds. split; [exact Hds|]. split; [|split; [|exact Hleak]]; revert Hds; vm_compute; by intros [= <-].
Defined.
