(* ===== verification/DataLifecycle.v ===== *)
(** [backend/services/data_lifecycle.py]: lifecycle audit events, subject
    export, cascade erasure and the retention purge. The mapped classes of
    [backend/models.py] are tables under their class name; a row is its columns.
    Erased entities' documents are removed from the vector store afterwards,
    outside the transaction. A delete removes the rows it names: the ON DELETE
    actions some databases add for foreign keys are not part of the model. *)
From S2P Require Import Prelude PyStr PyJson DateTime TenantAccess.
Open Scope string_scope.
Open Scope list_scope.
Local Open Scope py_scope.

(** * Calendar arithmetic of [datetime - timedelta(days=n)] *)

Definition is_leap (y : Z) : bool :=
  ((y mod 4 =? 0) && (negb (y mod 100 =? 0) || (y mod 400 =? 0)))%Z.
Definition days_before_year (y : Z) : Z := ((y - 1) * 365 + (y - 1) / 4 - (y - 1) / 100 + (y - 1) / 400)%Z.
Definition month_lengths (y : Z) : list Z := [31; if is_leap y then 29 else 28; 31; 30; 31; 30; 31; 31; 30; 31; 30; 31]%Z.
Definition days_before_month (y m : Z) : Z := fold_left Z.add (firstn (Z.to_nat (m - 1)) (month_lengths y)) 0%Z.
Definition toordinal (t : DateTime) : Z := (days_before_year (year t) + days_before_month (year t) (month t) + day t)%Z.

(** The month and day of day [n] (from 0) of a year. *)
Fixpoint month_day (lens : list Z) (m n : Z) : Z * Z :=
  match lens with
  | [] => (m, n + 1)%Z
  | len :: lens' => if (n <? len)%Z then (m, n + 1)%Z else month_day lens' (m + 1)%Z (n - len)%Z
  end.
Definition fromordinal (n : Z) : Z * Z * Z :=
  let n := (n - 1)%Z in
  let n400 := (n / 146097)%Z in let n := (n mod 146097)%Z in
  let n100 := (n / 36524)%Z in let n' := (n mod 36524)%Z in
  let n4 := (n' / 1461)%Z in let n' := (n' mod 1461)%Z in
  let n1 := (n' / 365)%Z in let n' := (n' mod 365)%Z in
  let y := (n400 * 400 + n100 * 100 + n4 * 4 + n1 + 1)%Z in
  if (n1 =? 4)%Z || (n100 =? 4)%Z then (y - 1, 12, 31)%Z
  else let '(m, d) := month_day (month_lengths y) 1 n' in (y, m, d).

Definition minus_days (t : DateTime) (days : Z) : res DateTime :=
  if (999999999 <? Z.abs days)%Z then
    Raise (Exn "OverflowError" ("days=" ++ str_of_Z days ++ "; must have magnitude <= 999999999"))
  else
    let n := (toordinal t - days)%Z in
    if (n <? 1)%Z || (3652059 <? n)%Z then Raise (Exn "OverflowError" "date value out of range")
    else let '(y, m, d) := fromordinal n in
         Ok (mkDateTime y m d (hour t) (minute t) (second t) (microsecond t)).

(** * Rows and classes *)

Inductive col := CNull | CInt (z : Z) | CStr (s : string) | CBool (b : bool) | CTime (t : DateTime).
#[export] Instance col_eq_dec : EqDecision col.
Proof. solve_decision. Defined.
Definition Row : Type := list (string * col).

Record Table := mkTable { t_columns : list string; t_rows : list Row; t_seq : Z }.
(** [backend.models] by class name. *)
Definition LifeDb : Type := list (string * Table).

Definition cell (c : string) (r : Row) : col := match dict_get c r with Some v => v | None => CNull end.
Definition int_cell (c : string) (r : Row) : option Z := match cell c r with CInt z => Some z | _ => None end.
Definition time_cell (c : string) (r : Row) : option DateTime := match cell c r with CTime t => Some t | _ => None end.
Definition row_id (r : Row) : Z := match int_cell "id" r with Some z => z | None => 0%Z end.

Definition class_model (name : string) (t : Table) : Model Row :=
  mkModel name row_id (if bool_decide ("org_id" ∈ t_columns t) then Some (int_cell "org_id") else None).

Definition col_json (v : col) : json :=
  match v with
  | CNull => JNull | CInt z => JInt z | CStr s => JStr s | CBool b => JBool b | CTime t => JStr (isoformat t)
  end.
Definition row_to_dict (t : Table) (r : Row) : json :=
  JObj (map (fun c => (c, col_json (cell c r))) (t_columns t)).

(** [DELETE ... WHERE p] *)
Definition delete_where (p : Row -> bool) (t : Table) : Table :=
  mkTable (t_columns t) (List.filter (fun r => negb (p r)) (t_rows t)) (t_seq t).

Definition AttributeError (name : string) : exn :=
  Exn "AttributeError" ("module 'backend.models' has no attribute '" ++ name ++ "'").

(** * Audit backbone *)

Definition VALID_ACTIONS : list string := ["export"; "deletion"; "purge"].
Definition VALID_SUBJECT_TYPES : list string := ["org"; "user"; "entity_owner"].

Definition opt_int (o : option Z) : col := match o with Some z => CInt z | None => CNull end.

(** [json.dumps(v or {}, ensure_ascii=False)] of ASCII text. *)
Definition audit_json (v : option (list (string * json))) : string :=
  dumps false (JObj (match v with Some m => m | None => [] end)).

Definition record_event (now : DateTime) (org_id : option Z) (action subject_type subject_ref : string)
    (requested_by : option Z) (scope : option (list (string * json))) : M LifeDb Row :=
  if negb (bool_decide (action ∈ VALID_ACTIONS)) then
    mraise (Exn "ValueError" ("Invalid lifecycle action: '" ++ action ++ "'"))
  else if negb (bool_decide (subject_type ∈ VALID_SUBJECT_TYPES)) then
    mraise (Exn "ValueError" ("Invalid subject_type: '" ++ subject_type ++ "'"))
  else
    do! db <- mget;
    match dict_get "DataLifecycleEvent" db with
    | None => mraise (AttributeError "DataLifecycleEvent")
    | Some t =>
        let event := [ ("id", CInt (t_seq t)); ("org_id", opt_int (persisted_org_id org_id));
                       ("action", CStr action); ("subject_type", CStr subject_type);
                       ("subject_ref", CStr subject_ref); ("requested_by", opt_int requested_by);
                       ("status", CStr "started"); ("scope_json", CStr (audit_json scope));
                       ("evidence_json", CNull); ("created_at", CTime now); ("completed_at", CNull) ] in
        run! mmodify (dict_set "DataLifecycleEvent" (mkTable (t_columns t) (t_rows t ++ [event]) (t_seq t + 1)));
        run! commit;
        mret event
    end.

Definition finish_row (now : DateTime) (status : string) (evidence : option (list (string * json))) (r : Row) : Row :=
  dict_set "completed_at" (CTime now)
    (dict_set "evidence_json" (CStr (audit_json evidence)) (dict_set "status" (CStr status) r)).

Definition complete_event (now : DateTime) (event : Row) (status : string)
    (evidence : option (list (string * json))) : M LifeDb Row :=
  if negb (bool_decide (status ∈ ["completed"; "failed"])) then
    mraise (Exn "ValueError" ("Invalid completion status: '" ++ status ++ "'"))
  else
    do! db <- mget;
    match dict_get "DataLifecycleEvent" db with
    | None => mraise (AttributeError "DataLifecycleEvent")
    | Some t =>
        run! mmodify (dict_set "DataLifecycleEvent"
               (mkTable (t_columns t)
                  (update_where (fun r => (row_id r =? row_id event)%Z) (finish_row now status evidence) (t_rows t))
                  (t_seq t)));
        run! commit;
        mret (finish_row now status evidence event)
    end.

(** * Subject export *)

Definition EXPORT_SURFACES : list (string * string) :=
  [ ("RawEntity", "entities"); ("Annotation", "annotations"); ("AnalysisContext", "analysis_contexts");
    ("UserDashboard", "dashboards"); ("EmbedWidget", "embed_widgets"); ("AlertChannel", "alert_channels");
    ("ArtifactTemplate", "artifact_templates"); ("AuthorityRecord", "authority_records");
    ("NormalizationRule", "normalization_rules"); ("HarmonizationLog", "harmonization_logs");
    ("StoreConnection", "store_connections"); ("ScheduledImport", "scheduled_imports");
    ("ScheduledReport", "scheduled_reports"); ("Workflow", "workflows"); ("ImportBatch", "import_batches");
    ("DataLifecycleEvent", "lifecycle_events") ].

Fixpoint collect_surfaces (surfaces : list (string * string)) (org_id : option Z) (db : LifeDb)
    (bundle : list (string * json)) (counts : list (string * json)) : res (list (string * json)) :=
  match surfaces with
  | [] => Ok (dict_set "_counts" (JObj counts) bundle)
  | (model_name, label) :: rest =>
      match dict_get model_name db with
      | None => collect_surfaces rest org_id db bundle counts
      | Some t =>
          let? rows := scope_query_to_org (class_model model_name t) (t_rows t) org_id in
          collect_surfaces rest org_id db (dict_set label (JArr (map (row_to_dict t) rows)) bundle)
            (dict_set label (JInt (Z.of_nat (length rows))) counts)
      end
  end.
Definition collect_subject_data (org_id : option Z) (db : LifeDb) : res (list (string * json)) :=
  collect_surfaces EXPORT_SURFACES org_id db [] [].

(** * Erasure *)

Definition DELETION_SURFACES : list (string * string) :=
  [ ("Annotation", "annotations"); ("AnalysisContext", "analysis_contexts"); ("UserDashboard", "dashboards");
    ("EmbedWidget", "embed_widgets"); ("AlertChannel", "alert_channels");
    ("ArtifactTemplate", "artifact_templates"); ("AuthorityRecord", "authority_records");
    ("NormalizationRule", "normalization_rules"); ("HarmonizationLog", "harmonization_logs");
    ("ScheduledImport", "scheduled_imports"); ("ScheduledReport", "scheduled_reports");
    ("Workflow", "workflows"); ("ImportBatch", "import_batches"); ("StoreConnection", "store_connections");
    ("RawEntity", "entities") ].

Definition Counts : Type := list (string * Z).
Definition counts_json (c : Counts) : list (string * json) := map (fun kv => (kv.1, JInt kv.2)) c.

Section lifecycle.
(** Whether the vector store refuses to remove a document, and the
    database's refusal of a bulk delete on a class. *)
Context (vector_refuses : string -> bool) (db_refuses : string -> option exn).

Definition doc_id (entity_id : Z) : string := ("entity-" ++ str_of_Z entity_id)%string.

(** The documents asked to be removed, one by one: how many went, how many
    were refused. *)
Definition delete_documents (ids : list Z) (counts : Counts) : Counts :=
  let errors := count_where (fun i => vector_refuses (doc_id i)) ids in
  let counts := dict_set "chromadb_deleted" (count_where (fun i => negb (vector_refuses (doc_id i))) ids) counts in
  if (errors =? 0)%Z then counts else dict_set "chromadb_errors" errors counts.

Fixpoint delete_surfaces (surfaces : list (string * string)) (org_id : option Z) (counts : Counts)
  : M LifeDb Counts :=
  match surfaces with
  | [] => mret counts
  | (model_name, label) :: rest =>
      do! db <- mget;
      match dict_get model_name db with
      | None => delete_surfaces rest org_id (dict_set label 0%Z counts)
      | Some t =>
          do! rows <- mlift (scope_query_to_org (class_model model_name t) (t_rows t) org_id);
          run! mmodify (dict_set model_name
                 (delete_where (fun r => bool_decide (row_id r ∈ map row_id rows)) t));
          delete_surfaces rest org_id (dict_set label (Z.of_nat (length rows)) counts)
      end
  end.

Definition delete_subject_data (org_id : option Z) : M LifeDb Counts :=
  do! db <- mget;
  match dict_get "RawEntity" db with
  | None => mraise (AttributeError "RawEntity")
  | Some t =>
      do! entities <- mlift (scope_query_to_org (class_model "RawEntity" t) (t_rows t) org_id);
      do! counts <- delete_surfaces DELETION_SURFACES org_id [];
      run! commit;
      mret (delete_documents (map row_id entities) counts)
  end.

(** * Retention purge *)

Definition ENTITY_CHILD_SURFACES : list (string * string) :=
  [ ("CoauthorContribution", "entity_id"); ("AuthorPublication", "entity_id");
    ("HarmonizationChangeRecord", "record_id") ].

Definition col_in (ids : list Z) (c : string) (r : Row) : bool :=
  match int_cell c r with Some i => bool_decide (i ∈ ids) | None => false end.

(** One bulk delete: the number of rows, nothing when there is no such class. *)
Definition bulk_delete (model_name : string) (p : Row -> bool) : M LifeDb (option Z) :=
  do! db <- mget;
  match dict_get model_name db with
  | None => mret None
  | Some t =>
      match db_refuses model_name with
      | Some e => mraise e
      | None => run! mmodify (dict_set model_name (delete_where p t)); mret (Some (count_where p (t_rows t)))
      end
  end.

Definition put_count (key : string) (n : option Z) (counts : Counts) : Counts :=
  match n with Some n => dict_set key n counts | None => counts end.

Fixpoint delete_children (surfaces : list (string * string)) (ids : list Z) (counts : Counts)
  : M LifeDb Counts :=
  match surfaces with
  | [] => mret counts
  | (model_name, fk_col) :: rest =>
      do! deleted <- bulk_delete model_name (col_in ids fk_col);
      delete_children rest ids (put_count model_name deleted counts)
  end.

(** [org_id == o AND updated_at <= cutoff] *)
Definition expired (org_id : Z) (cutoff : DateTime) (r : Row) : bool :=
  bool_decide (int_cell "org_id" r = Some org_id) &&
  match time_cell "updated_at" r with Some u => dt_le u cutoff | None => false end.

Definition endpoint_in (ids : list Z) (r : Row) : bool :=
  col_in ids "source_id" r || col_in ids "target_id" r.
Definition id_in (ids : list Z) (r : Row) : bool := bool_decide (row_id r ∈ ids).

Definition purge_expired_entities (org_id : Z) (cutoff_dt : DateTime) : M LifeDb Counts :=
  do! db <- mget;
  match dict_get "RawEntity" db with
  | None => mraise (AttributeError "RawEntity")
  | Some t =>
      let expired_ids := map row_id (List.filter (expired org_id cutoff_dt) (t_rows t)) in
      if bool_decide (expired_ids = []) then mret []
      else
        do! counts <- delete_children ENTITY_CHILD_SURFACES expired_ids [];
        do! rels <- bulk_delete "EntityRelationship" (endpoint_in expired_ids);
        do! n <- bulk_delete "RawEntity" (id_in expired_ids);
        run! commit;
        mret (delete_documents expired_ids (put_count "entities" n (put_count "EntityRelationship" rels counts)))
  end.

(** One policy of the tick, with the clock's reading at its turn: the
    counts to put under the organisation, if any. *)
Definition purge_policy (now : DateTime) (policy : Row) : M LifeDb (option (string * Counts)) :=
  match int_cell "retention_days" policy, int_cell "org_id" policy with
  | Some days, Some org_id =>
      do! cutoff_dt <- mlift (minus_days now days);
      do! db <- mget;
      match dict_get "RawEntity" db with
      | None => mraise (AttributeError "RawEntity")
      | Some t =>
          match List.find (expired org_id cutoff_dt) (t_rows t) with
          | None => mret None
          | Some _ =>
              do! event <- record_event now (Some org_id) "purge" "org" (str_of_Z org_id) None
                     (Some [("retention_days", JInt days); ("cutoff", JStr (isoformat cutoff_dt))]);
              mtry
                (do! counts <- purge_expired_entities org_id cutoff_dt;
                 run! complete_event now event "completed" (Some (counts_json counts));
                 mret (Some (str_of_Z org_id, counts)))
                (fun exc =>
                   run! complete_event now event "failed"
                          (Some [("error", JStr (match exc with Exn _ m => m | HTTPException _ d => d end))]);
                   mret None)
          end
      end
  | _, _ => mret None
  end.

Fixpoint purge_policies (clock : nat -> DateTime) (policies : list Row) (summary : list (string * Counts))
  : M LifeDb (list (string * Counts)) :=
  match policies with
  | [] => mret summary
  | policy :: rest =>
      do! done_ <- purge_policy (clock (length rest)) policy;
      purge_policies clock rest (match done_ with Some (k, c) => dict_set k c summary | None => summary end)
  end.

(** [clock] is indexed by the number of policies still to come. *)
Definition purge_expired_orgs (clock : nat -> DateTime) : M LifeDb (list (string * Counts)) :=
  do! db <- mget;
  match dict_get "RetentionPolicy" db with
  | None => mraise (AttributeError "RetentionPolicy")
  | Some t =>
      purge_policies clock
        (List.filter (fun p => negb (bool_decide (cell "retention_days" p = CNull))) (t_rows t)) []
  end.
End lifecycle.
