(* ===== verification/LifecycleClaims.v ===== *)
(** What the retention purge and the erasure guarantee: exactly the expired
    entities of the tenants that have a policy go, with what references them;
    erasure empties the tenant's part of every surface; the rest of the
    database, the audit trail included, stays. *)
From S2P Require Import Prelude PyStr PyJson DateTime TenantAccess DataLifecycle.
Open Scope string_scope.
Open Scope list_scope.
Local Open Scope py_scope.

Definition rows_of (name : string) (db : LifeDb) : list Row :=
  match dict_get name db with Some t => t_rows t | None => [] end.

Definition on_table (name : string) (f : Table -> Table) (db : LifeDb) : LifeDb :=
  match dict_get name db with Some t => dict_set name (f t) db | None => db end.

Lemma get_on_table n m f db :
  dict_get n (on_table m f db) = if decide (n = m) then option_map f (dict_get m db) else dict_get n db.
Proof.
  unfold on_table. destruct (dict_get m db) as [t|] eqn:E.
  - case_decide as Hn; [subst; by rewrite dict_get_set_eq|by rewrite dict_get_set_ne].
  - by case_decide as Hn; [subst|].
Qed.

Lemma rows_of_on_table n m f db :
  (forall t, dict_get m db = Some t -> n = m -> t_rows (f t) = t_rows t) ->
  rows_of n (on_table m f db) = rows_of n db.
Proof.
  intros H. unfold rows_of. rewrite get_on_table. case_decide as Hn; [|done]. subst.
  destruct (dict_get m db) as [t|]; simpl; [by apply H|done].
Qed.

Lemma rows_of_delete name p db :
  rows_of name (on_table name (delete_where p) db) = List.filter (fun r => negb (p r)) (rows_of name db).
Proof. unfold rows_of. rewrite get_on_table, decide_True by done. by destruct (dict_get name db). Qed.
Lemma rows_of_ne n m f db : n <> m -> rows_of n (on_table m f db) = rows_of n db.
Proof. intros Hn. by apply rows_of_on_table. Qed.

Lemma filter_filter_neg {A} (p q : A -> bool) l :
  List.filter (fun x => negb (q x)) (List.filter (fun x => negb (p x)) l)
  = List.filter (fun x => negb (p x || q x)) l.
Proof.
  induction l as [|x l IH]; simpl; [done|]. destruct (p x); simpl; [done|]. destruct (q x); simpl; by rewrite IH.
Qed.

(** * The purge *)

Definition CHILD_KEYS : list (string * list string) :=
  [ ("CoauthorContribution", ["entity_id"]); ("AuthorPublication", ["entity_id"]);
    ("HarmonizationChangeRecord", ["record_id"]); ("EntityRelationship", ["source_id"; "target_id"]) ].

(** [r] of class [name] references the entity [e]. *)
Definition references (name : string) (r e : Row) : Prop :=
  exists ks k, In (name, ks) CHILD_KEYS /\ In k ks /\ int_cell k r = Some (row_id e).

(** The entity is past the cutoff of a policy of its organisation. *)
Definition past_cutoff (cs : list (Z * DateTime)) (r : Row) : bool :=
  existsb (fun oc => expired oc.1 oc.2 r) cs.

Definition purge_event (cs : list (Z * DateTime)) (e : Row) : Prop :=
  cell "action" e = CStr "purge" /\ cell "status" e = CStr "completed" /\
  exists o c, In (o, c) cs /\ cell "org_id" e = opt_int (persisted_org_id (Some o)).

Record purged (cs : list (Z * DateTime)) (db db' : LifeDb) : Prop := {
  p_entities : rows_of "RawEntity" db' = List.filter (fun r => negb (past_cutoff cs r)) (rows_of "RawEntity" db);
  p_children : forall name r, In name (map fst CHILD_KEYS) ->
    In r (rows_of name db') <->
    In r (rows_of name db) /\
    ~ exists e, In e (rows_of "RawEntity" db) /\ past_cutoff cs e = true /\ references name r e;
  p_audit : exists es, rows_of "DataLifecycleEvent" db' = rows_of "DataLifecycleEvent" db ++ es /\
    Forall (purge_event cs) es;
  p_rest : forall name, ~ In name ("RawEntity" :: "DataLifecycleEvent" :: map fst CHILD_KEYS) ->
    dict_get name db' = dict_get name db
}.

(** Ids are unique, and the audit table's sequence is past its ids. *)
Definition life_ok (db : LifeDb) : Prop :=
  is_Some (dict_get "RawEntity" db) /\ NoDup (map row_id (rows_of "RawEntity" db)) /\
  exists t, dict_get "DataLifecycleEvent" db = Some t /\ Forall (fun r => (row_id r < t_seq t)%Z) (t_rows t).

Lemma purged_refl_unless cs db :
  (forall r, In r (rows_of "RawEntity" db) -> past_cutoff cs r = false) -> purged cs db db.
Proof.
  intros H. split.
  - symmetry.
    induction (rows_of "RawEntity" db) as [|r l IH]; simpl in *; [done|].
    rewrite (H r) by (by left). simpl. f_equal. apply IH. auto.
  - intros name r _. split; [|tauto]. intros Hr. split; [done|]. intros (e & He & Hp & _).
    by rewrite (H e He) in Hp.
  - exists []. by rewrite app_nil_r.
  - done.
Qed.

Lemma past_cutoff_app cs cs' r : past_cutoff (cs ++ cs') r = past_cutoff cs r || past_cutoff cs' r.
Proof. apply existsb_app. Qed.

Lemma purge_event_mono cs cs' e : (forall x, In x cs -> In x cs') -> purge_event cs e -> purge_event cs' e.
Proof. intros H (H1 & H2 & o & c & Hin & Ho). repeat split; try done. exists o, c. auto. Qed.

Lemma purged_trans cs cs' d1 d2 d3 : purged cs d1 d2 -> purged cs' d2 d3 -> purged (cs ++ cs') d1 d3.
Proof.
  intros [E1 C1 (es & A1 & F1) R1] [E2 C2 (es' & A2 & F2) R2]. split.
  - rewrite E2, E1, filter_filter_neg. apply List.filter_ext. intros r. by rewrite past_cutoff_app.
  - intros name r Hn. rewrite (C2 name r Hn), (C1 name r Hn). split.
    + intros [[Hr H1] H2]. split; [done|]. intros (e & He & Hp & Href).
      rewrite past_cutoff_app in Hp. destruct (past_cutoff cs e) eqn:Hcs; [apply H1; eauto|].
      apply H2. exists e. split; [rewrite E1; apply filter_In; by rewrite Hcs|done].
    + intros [Hr H]. split; [split; [done|]|]; intros (e & He & Hp & Href); apply H; exists e;
        rewrite past_cutoff_app, Hp.
      * done.
      * rewrite orb_true_r. split; [|done]. rewrite E1 in He. apply filter_In in He as [He _]. auto.
  - exists (es ++ es'). rewrite A2, A1, <- (assoc_L (++)). split; [done|].
    apply Forall_app. split; [apply (Forall_impl _ _ _ F1)|apply (Forall_impl _ _ _ F2)]; intros e;
      apply purge_event_mono; intros x Hx; apply in_app_iff; auto.
  - intros name Hn. by rewrite R2, R1.
Qed.

Section purge.
Context (vector_refuses : string -> bool) (db_refuses : string -> option exn)
        (no_refusal : forall name, db_refuses name = None).
Notation bulk_delete := (bulk_delete db_refuses).
Notation purge_expired_entities := (purge_expired_entities vector_refuses db_refuses).
Notation purge_policy := (purge_policy vector_refuses db_refuses).
Notation purge_policies := (purge_policies vector_refuses db_refuses).

Lemma bulk_delete_run name p d base :
  exists n, bulk_delete name p (mkSession d base) = (Ok n, mkSession (on_table name (delete_where p) d) base).
Proof.
  unfold DataLifecycle.bulk_delete, on_table. mrun. destruct (dict_get name d); [|eexists; reflexivity].
  rewrite no_refusal. mrun. eexists. reflexivity.
Qed.

Definition erase_children (ids : list Z) (d : LifeDb) : LifeDb :=
  on_table "EntityRelationship" (delete_where (endpoint_in ids))
    (fold_left (fun d s => on_table s.1 (delete_where (col_in ids s.2)) d) ENTITY_CHILD_SURFACES d).
Definition erase (ids : list Z) (d : LifeDb) : LifeDb :=
  on_table "RawEntity" (delete_where (id_in ids)) (erase_children ids d).

Lemma delete_children_run l ids counts d base :
  exists c, delete_children db_refuses l ids counts (mkSession d base) =
    (Ok c, mkSession (fold_left (fun d s => on_table s.1 (delete_where (col_in ids s.2)) d) l d) base).
Proof.
  revert counts d. induction l as [|[name fk] l IH]; intros counts d; simpl; [eexists; reflexivity|].
  destruct (bulk_delete_run name (col_in ids fk) d base) as [n Hn].
  rewrite (run_ok _ _ _ _ _ Hn). apply IH.
Qed.

Lemma purge_entities_run o c d base t :
  dict_get "RawEntity" d = Some t ->
  let ids := map row_id (List.filter (expired o c) (t_rows t)) in
  ids <> [] ->
  exists counts, purge_expired_entities o c (mkSession d base) = (Ok counts, clean (erase ids d)).
Proof.
  intros Ht ids Hids. unfold DataLifecycle.purge_expired_entities. mrun. rewrite Ht. fold ids.
  rewrite bool_decide_false by done.
  destruct (delete_children_run ENTITY_CHILD_SURFACES ids [] d base) as [c1 H1].
  rewrite (run_ok _ _ _ _ _ H1).
  set (d1 := fold_left _ _ _).
  destruct (bulk_delete_run "EntityRelationship" (endpoint_in ids) d1 base) as [n2 H2].
  rewrite (run_ok _ _ _ _ _ H2).
  destruct (bulk_delete_run "RawEntity" (id_in ids) (on_table "EntityRelationship" (delete_where (endpoint_in ids)) d1) base) as [n3 H3].
  rewrite (run_ok _ _ _ _ _ H3). mrun. eexists. reflexivity.
Qed.

(** ** What an erasure by ids does to each class *)

Lemma erase_rest ids d name :
  ~ In name ("RawEntity" :: map fst CHILD_KEYS) -> dict_get name (erase ids d) = dict_get name d.
Proof.
  intros Hn. unfold erase, erase_children. simpl. rewrite !get_on_table.
  simpl in Hn. by rewrite !decide_False by naive_solver.
Qed.
Lemma erase_entities ids d :
  rows_of "RawEntity" (erase ids d) = List.filter (fun r => negb (id_in ids r)) (rows_of "RawEntity" d).
Proof. unfold erase, erase_children. simpl. rewrite rows_of_delete. by rewrite !rows_of_ne by done. Qed.

Lemma col_in_spec ids k r : col_in ids k r = true <-> exists i, In i ids /\ int_cell k r = Some i.
Proof.
  unfold col_in. destruct (int_cell k r) as [i|].
  - rewrite bool_decide_eq_true, list_elem_of_In. naive_solver.
  - naive_solver.
Qed.

Lemma erase_child ids d name ks r :
  In (name, ks) CHILD_KEYS ->
  In r (rows_of name (erase ids d)) <->
  In r (rows_of name d) /\ ~ exists k i, In k ks /\ In i ids /\ int_cell k r = Some i.
Proof.
  intros Hin. unfold erase, erase_children. simpl.
  assert (Hp : forall p l, In r (List.filter (fun x => negb (p x)) l) <-> In r l /\ ~ p r = true).
  { intros p l. rewrite filter_In. destruct (p r); naive_solver. }
  simpl in Hin. destruct Hin as [[= <- <-]|[[= <- <-]|[[= <- <-]|[[= <- <-]|[]]]]];
    repeat (first [rewrite rows_of_delete|rewrite rows_of_ne by done]); rewrite Hp;
    unfold endpoint_in; rewrite ?orb_true_iff, !col_in_spec; simpl; naive_solver.
Qed.
(** ** One policy *)

Definition cutoff_of (now : DateTime) (policy : Row) : res (list (Z * DateTime)) :=
  match int_cell "retention_days" policy, int_cell "org_id" policy with
  | Some days, Some o => let? c := minus_days now days in Ok [(o, c)]
  | _, _ => Ok []
  end.

Lemma rows_of_set_ne n m t d : n <> m -> rows_of n (dict_set m t d) = rows_of n d.
Proof. intros Hn. unfold rows_of. by rewrite dict_get_set_ne. Qed.

Definition audit_row (t : Table) (now : DateTime) (o : Z) (sc : list (string * json)) : Row :=
  [ ("id", CInt (t_seq t)); ("org_id", opt_int (persisted_org_id (Some o))); ("action", CStr "purge");
    ("subject_type", CStr "org"); ("subject_ref", CStr (str_of_Z o)); ("requested_by", CNull);
    ("status", CStr "started"); ("scope_json", CStr (audit_json (Some sc))); ("evidence_json", CNull);
    ("created_at", CTime now); ("completed_at", CNull) ].
Definition audit_append (t : Table) (r : Row) : Table := mkTable (t_columns t) (t_rows t ++ [r]) (t_seq t + 1).

Lemma record_event_run now o sc d base t :
  dict_get "DataLifecycleEvent" d = Some t ->
  record_event now (Some o) "purge" "org" (str_of_Z o) None (Some sc) (mkSession d base) =
  (Ok (audit_row t now o sc), clean (dict_set "DataLifecycleEvent" (audit_append t (audit_row t now o sc)) d)).
Proof.
  intros Ht. unfold record_event. rewrite !(bool_decide_true (_ ∈ _)) by (by apply (bool_decide_unpack _)).
  cbn [negb]. mrun. rewrite Ht. by mrun.
Qed.

Lemma complete_event_run now ev evidence d base t :
  dict_get "DataLifecycleEvent" d = Some t ->
  exists r, complete_event now ev "completed" evidence (mkSession d base) =
  (Ok r, clean (dict_set "DataLifecycleEvent"
     (mkTable (t_columns t) (update_where (fun r => (row_id r =? row_id ev)%Z) (finish_row now "completed" evidence) (t_rows t))
        (t_seq t)) d)).
Proof.
  intros Ht. unfold complete_event. rewrite bool_decide_true by (by apply (bool_decide_unpack _)).
  cbn [negb]. mrun. rewrite Ht. mrun. eexists. reflexivity.
Qed.

(** The event of a purge, once completed. *)
Lemma finished_rows now sc o evidence t :
  Forall (fun r => (row_id r < t_seq t)%Z) (t_rows t) ->
  update_where (fun r => (row_id r =? t_seq t)%Z) (finish_row now "completed" evidence)
    (t_rows t ++ [audit_row t now o sc])
  = t_rows t ++ [finish_row now "completed" evidence (audit_row t now o sc)].
Proof.
  intros Hlt. unfold update_where. rewrite map_app. f_equal.
  - rewrite <- (map_id (t_rows t)) at 2. apply map_ext_in. intros r Hr. rewrite Forall_forall in Hlt.
    specialize (Hlt r). rewrite list_elem_of_In in Hlt. specialize (Hlt Hr).
    by rewrite (proj2 (Z.eqb_neq _ _)) by lia.
  - simpl. change (row_id (audit_row t now o sc)) with (t_seq t). by rewrite Z.eqb_refl.
Qed.

(** Deleting the expired entities of one organisation. *)
Lemma erase_expired o c d :
  NoDup (map row_id (rows_of "RawEntity" d)) ->
  let ids := map row_id (List.filter (expired o c) (rows_of "RawEntity" d)) in
  rows_of "RawEntity" (erase ids d)
  = List.filter (fun r => negb (past_cutoff [(o, c)] r)) (rows_of "RawEntity" d).
Proof.
  intros Hnd ids. rewrite erase_entities. apply filter_ext_in. intros r Hr. f_equal.
  unfold past_cutoff. simpl. rewrite orb_false_r. unfold id_in.
  destruct (expired o c r) eqn:E.
  - apply bool_decide_eq_true, list_elem_of_In, in_map, filter_In. auto.
  - apply bool_decide_eq_false. rewrite list_elem_of_In. intros (e & Eid & He)%in_map_iff.
    apply filter_In in He as [He Hx]. rewrite (NoDup_map_inj row_id _ e r Hnd He Hr Eid) in Hx. congruence.
Qed.

(** The database once the purge of one organisation is complete: [ev] was
    appended first, and is [fin] in the end. *)
Section settled.
Context (o : Z) (c : DateTime) (d : LifeDb) (te ta : Table) (ev fin : Row).
Context (Hte : dict_get "RawEntity" d = Some te) (Hta : dict_get "DataLifecycleEvent" d = Some ta).
Let ids := map row_id (List.filter (expired o c) (t_rows te)).
Definition started_db : LifeDb := dict_set "DataLifecycleEvent" (audit_append ta ev) d.
Definition settled_db : LifeDb := dict_set "DataLifecycleEvent" (audit_append ta fin) (erase ids started_db).

Lemma settled_rows name : name <> "DataLifecycleEvent" -> rows_of name settled_db = rows_of name (erase ids started_db).
Proof. intros Hn. unfold settled_db. by rewrite rows_of_set_ne. Qed.
Lemma started_rows name : name <> "DataLifecycleEvent" -> rows_of name started_db = rows_of name d.
Proof. intros Hn. unfold started_db. by rewrite rows_of_set_ne. Qed.
Lemma entity_rows : t_rows te = rows_of "RawEntity" d.
Proof. unfold rows_of. by rewrite Hte. Qed.

Lemma settled_entities : NoDup (map row_id (rows_of "RawEntity" d)) ->
  rows_of "RawEntity" settled_db = List.filter (fun r => negb (past_cutoff [(o, c)] r)) (rows_of "RawEntity" d).
Proof.
  intros Hnd. rewrite settled_rows, <- (started_rows "RawEntity") by done. unfold ids.
  rewrite entity_rows, <- (started_rows "RawEntity") by done.
  apply erase_expired. by rewrite started_rows.
Qed.

Lemma settled_ok : NoDup (map row_id (rows_of "RawEntity" d)) ->
  Forall (fun r => (row_id r < t_seq ta)%Z) (t_rows ta) -> row_id fin = t_seq ta -> life_ok settled_db.
Proof.
  intros Hnd Hlt Hfin. split; [|split].
  - unfold settled_db. rewrite dict_get_set_ne by done. unfold erase, erase_children. simpl.
    rewrite !get_on_table. rewrite decide_True, !decide_False by done. unfold started_db.
    rewrite dict_get_set_ne, Hte by done. by eexists.
  - rewrite settled_entities by done. by apply NoDup_map_filter.
  - eexists. unfold settled_db. rewrite dict_get_set_eq. split; [reflexivity|]. simpl.
    apply Forall_app. split; [eapply Forall_impl; [exact Hlt|]; simpl; lia|].
    apply Forall_singleton. lia.
Qed.

Lemma settled_children name r : In name (map fst CHILD_KEYS) ->
  In r (rows_of name settled_db) <->
  In r (rows_of name d) /\
  ~ exists e, In e (rows_of "RawEntity" d) /\ past_cutoff [(o, c)] e = true /\ references name r e.
Proof.
  intros Hn. apply in_map_iff in Hn as ([n ks] & <- & Hin). simpl.
  assert (Hne : n <> "DataLifecycleEvent") by (intros ->; simpl in Hin; naive_solver).
  rewrite settled_rows, (erase_child ids started_db n ks r Hin), started_rows by done.
  apply and_iff_compat_l, not_iff_compat. unfold ids. rewrite entity_rows. unfold past_cutoff. simpl. split.
  - intros (k & i & Hk & (e & <- & He)%in_map_iff & Hi). apply filter_In in He as [He Hx].
    exists e. rewrite Hx. split; [done|]. split; [done|]. exists ks, k. auto.
  - intros (e & He & Hx & ks' & k & Hin' & Hk & Hi). rewrite orb_false_r in Hx.
    exists k, (row_id e). split; [simpl in Hin, Hin'; naive_solver|].
    split; [by apply in_map, filter_In|done].
Qed.

Lemma settled_purged : NoDup (map row_id (rows_of "RawEntity" d)) -> purge_event [(o, c)] fin ->
  purged [(o, c)] d settled_db.
Proof.
  intros Hnd Hfin. split; [by apply settled_entities|apply settled_children| |].
  - exists [fin]. unfold rows_of, settled_db. rewrite dict_get_set_eq, Hta. split; [done|by apply Forall_singleton].
  - intros name Hn. unfold settled_db. rewrite dict_get_set_ne by (simpl in Hn; naive_solver).
    rewrite erase_rest by (simpl in *; naive_solver). unfold started_db.
    by rewrite dict_get_set_ne by (simpl in Hn; naive_solver).
Qed.
End settled.

Lemma purge_policy_run now policy cs d :
  cutoff_of now policy = Ok cs -> life_ok d ->
  exists out d', purge_policy now policy (clean d) = (Ok out, clean d') /\ life_ok d' /\ purged cs d d'.
Proof.
  intros Hcut Hd. unfold cutoff_of in Hcut. unfold DataLifecycle.purge_policy.
  destruct (int_cell "retention_days" policy) as [days|];
    [destruct (int_cell "org_id" policy) as [o|]|]; cycle 1;
    [injection Hcut as <-; exists None, d; split; [done|]; split; [done|]; by apply purged_refl_unless..|].
  destruct (minus_days now days) as [c|e]; [|done]. injection Hcut as <-.
  destruct Hd as ([te Hte] & Hnd & ta & Hta & Hlt). unfold clean. mrun. rewrite Hte.
  destruct (List.find (expired o c) (t_rows te)) as [x|] eqn:Hfind.
  - rewrite (run_ok _ _ _ _ _ (record_event_run now o _ d d ta Hta)).
    set (ev := audit_row ta now o _). fold (started_db d ta ev).
    assert (Hte1 : dict_get "RawEntity" (started_db d ta ev) = Some te)
      by (unfold started_db; by rewrite dict_get_set_ne).
    assert (Hids : map row_id (List.filter (expired o c) (t_rows te)) <> []).
    { intros E%map_eq_nil. apply find_some in Hfind as Hx.
      assert (Hin : In x (List.filter (expired o c) (t_rows te))) by by apply filter_In.
      by rewrite E in Hin. }
    destruct (purge_entities_run o c _ (started_db d ta ev) te Hte1 Hids) as [counts Hp].
    unfold clean in Hp |- *.
    destruct (complete_event_run now ev (Some (counts_json counts))
                (erase (map row_id (List.filter (expired o c) (t_rows te))) (started_db d ta ev))
                (erase (map row_id (List.filter (expired o c) (t_rows te))) (started_db d ta ev))
                (audit_append ta ev)) as [r Hr].
    { rewrite erase_rest by (simpl; naive_solver). unfold started_db. by rewrite dict_get_set_eq. }
    rewrite (try_ok _ _ _ (Some (str_of_Z o, counts)) _ (eq_trans (run_ok _ _ _ _ _ Hp) (run_ok _ _ _ _ _ Hr))).
    cbn [t_columns t_rows t_seq audit_append]. change (row_id ev) with (t_seq ta).
    rewrite (finished_rows now _ o (Some (counts_json counts)) ta Hlt : update_where _ _ (t_rows ta ++ [ev]) = _).
    eexists _, (settled_db o c d te ta ev _).
    split; [reflexivity|]. split; [by apply settled_ok|]. apply settled_purged; [done..|].
    repeat split. exists o, c. split; [by left|done].
  - exists None, d. split; [done|]. split; [split; [by eexists|eauto]|]. apply purged_refl_unless.
    intros r Hr. unfold past_cutoff. simpl. rewrite orb_false_r. apply (find_none _ _ Hfind).
    unfold rows_of in Hr. by rewrite Hte in Hr.
Qed.

(** ** The tick *)

Fixpoint cutoffs (clock : nat -> DateTime) (policies : list Row) : res (list (Z * DateTime)) :=
  match policies with
  | [] => Ok []
  | p :: rest =>
      let? c := cutoff_of (clock (length rest)) p in
      let? cs := cutoffs clock rest in Ok (c ++ cs)
  end.

Lemma purge_policies_run clock policies cs summary d :
  cutoffs clock policies = Ok cs -> life_ok d ->
  exists out d', purge_policies clock policies summary (clean d) = (Ok out, clean d') /\ purged cs d d'.
Proof.
  revert cs summary d. induction policies as [|p rest IH]; intros cs summary d; simpl.
  - intros [= <-] Hd. exists summary, d. split; [done|]. by apply purged_refl_unless.
  - destruct (cutoff_of _ p) as [c|e] eqn:Hc; [|done]. simpl.
    destruct (cutoffs clock rest) as [cs'|e]; [|done]. intros [= <-] Hd.
    destruct (purge_policy_run _ _ _ _ Hc Hd) as (out & d1 & H1 & Hd1 & Hp1).
    rewrite (run_ok _ _ _ _ _ H1).
    destruct (IH cs' (match out with Some (k, cc) => dict_set k cc summary | None => summary end) d1)
      as (out' & d2 & H2 & Hp2); [done..|].
    exists out', d2. split; [exact H2|]. by eapply purged_trans.
Qed.
End purge.

(** The policies a tick applies. *)
Definition active_policies (db : LifeDb) : list Row :=
  List.filter (fun p => negb (bool_decide (cell "retention_days" p = CNull))) (rows_of "RetentionPolicy" db).

(** * Claims *)

(** A policy an organisation has for its entities. The documentation of the
    table gives a policy without organisation another meaning, which the tick
    does not implement (it skips it). *)
Definition entity_policy (p : Row) : Prop :=
  is_Some (int_cell "org_id" p) /\ is_Some (int_cell "retention_days" p) /\
  (cell "data_class" p = CStr "all" \/ cell "data_class" p = CStr "entities").
(** [applied clock ps cs]: one cutoff per policy, that many days before the
    reading of the clock at its turn. *)
Inductive applied (clock : nat -> DateTime) : list Row -> list (Z * DateTime) -> Prop :=
  | applied_nil : applied clock [] []
  | applied_cons p ps o days c cs :
      int_cell "org_id" p = Some o -> int_cell "retention_days" p = Some days ->
      minus_days (clock (length ps)) days = Ok c -> applied clock ps cs -> applied clock (p :: ps) ((o, c) :: cs).
Lemma cutoffs_applied clock ps cs : cutoffs clock ps = Ok cs -> Forall entity_policy ps -> applied clock ps cs.
Proof.
  revert cs. induction ps as [|p ps IH]; intros cs H Hp; simpl in H.
  - injection H as <-. constructor.
  - inversion Hp as [|?? ([o Ho] & [n Hn] & _) Hps]; subst. unfold cutoff_of in H. rewrite Ho, Hn in H.
    destruct (minus_days _ n) as [c|] eqn:Hc; [|done]. simpl in H. destruct (cutoffs clock ps) as [cs'|]; [|done].
    injection H as <-. eapply applied_cons; eauto.
Qed.

(** C28: A retention tick is exact where every policy belongs to an organisation
    and is about its entities, the cutoff dates exist and the database carries
    out the deletes: it applies each policy, committing the deletion of every
    entity that is past the cutoff of a policy of its own organisation, and of
    nothing else but the rows that reference such an entity (contributions,
    publications, change records, relationships at either end); every other
    entity and class stays as it was; the audit trail only grows, by completed
    purge events of organisations with a policy. *)
Theorem purge_tick_exact vector_refuses db_refuses clock db cs :
  (forall name, db_refuses name = None) -> life_ok db -> is_Some (dict_get "RetentionPolicy" db) ->
  Forall entity_policy (active_policies db) -> cutoffs clock (active_policies db) = Ok cs ->
  applied clock (active_policies db) cs /\
  exists summary db', purge_expired_orgs vector_refuses db_refuses clock (clean db) = (Ok summary, clean db') /\
    purged cs db db'.
Proof.
  intros Hr Hok [t Ht] Hp Hcs. split; [by apply cutoffs_applied|]. unfold purge_expired_orgs, clean. mrun. rewrite Ht.
  unfold active_policies, rows_of in Hcs. rewrite Ht in Hcs.
  by apply purge_policies_run.
Qed.

(** * Erasure *)

(** The rows a request in scope [org] owns. *)
Definition in_scope (org : option Z) (r : Row) : bool :=
  match org_scope_filter org with None => true | Some cond => cond (int_cell "org_id" r) end.

(** The classes erasure visits have the organisation column, and unique ids. *)
Definition erasable (db : LifeDb) (name : string) : Prop :=
  match dict_get name db with
  | Some t => "org_id" ∈ t_columns t /\ NoDup (map row_id (t_rows t))
  | None => True
  end.

Lemma scope_rows org name t : "org_id" ∈ t_columns t ->
  scope_query_to_org (class_model name t) (t_rows t) org = Ok (List.filter (in_scope org) (t_rows t)).
Proof.
  intros Hc. unfold scope_query_to_org, in_scope, class_model. simpl. rewrite bool_decide_true by done.
  destruct org as [o|]; [simpl; by destruct (is_legacy_global_scope _)|]. simpl. f_equal. symmetry.
  induction (t_rows t) as [|r l IH]; simpl; [done|by rewrite IH].
Qed.

Lemma delete_scoped org t : NoDup (map row_id (t_rows t)) ->
  t_rows (delete_where (fun r => bool_decide (row_id r ∈ map row_id (List.filter (in_scope org) (t_rows t)))) t)
  = List.filter (fun r => negb (in_scope org r)) (t_rows t).
Proof.
  intros Hnd. simpl. apply filter_ext_in. intros r Hr. f_equal. destruct (in_scope org r) eqn:E.
  - apply bool_decide_eq_true, list_elem_of_In, in_map, filter_In. auto.
  - apply bool_decide_eq_false. rewrite list_elem_of_In. intros (e & Eid & He)%in_map_iff.
    apply filter_In in He as [He Hx]. rewrite (NoDup_map_inj row_id _ e r Hnd He Hr Eid) in Hx. congruence.
Qed.

Section erasure.
Context (org : option Z).

(** A class after the surfaces [l] were emptied of the scope. *)
Definition emptied (l : list (string * string)) (name : string) (db : LifeDb) : list Row :=
  if decide (name ∈ map fst l) then List.filter (fun r => negb (in_scope org r)) (rows_of name db)
  else rows_of name db.

Lemma delete_surfaces_run l counts d base :
  NoDup (map fst l) -> NoDup (map snd l) -> Forall (erasable d) (map fst l) ->
  exists counts' d', delete_surfaces l org counts (mkSession d base) = (Ok counts', mkSession d' base) /\
    (forall name, rows_of name d' = emptied l name d) /\
    (forall name, name ∉ map fst l -> dict_get name d' = dict_get name d) /\
    (forall name label, In (name, label) l ->
       dict_get label counts' = Some (count_where (in_scope org) (rows_of name d))) /\
    (forall label, label ∉ map snd l -> dict_get label counts' = dict_get label counts).
Proof.
  revert counts d. induction l as [|[name label] l IH]; intros counts d Hn Hl He; cbn [map fst snd] in *.
  { exists counts, d. split; [done|]. split; [intros name; unfold emptied; by rewrite decide_False by inversion 1|]. done. }
  apply NoDup_cons in Hn as [Hn Hnd], Hl as [Hl Hld]. apply Forall_cons in He as [He Hes].
  assert (Hstep : exists d1, (forall n, n <> name -> dict_get n d1 = dict_get n d) /\
      rows_of name d1 = List.filter (fun r => negb (in_scope org r)) (rows_of name d) /\
      forall counts, delete_surfaces ((name, label) :: l) org counts (mkSession d base) =
        delete_surfaces l org (dict_set label (count_where (in_scope org) (rows_of name d)) counts) (mkSession d1 base)).
  { unfold erasable in He. unfold rows_of. destruct (dict_get name d) as [t|] eqn:Ht.
    - destruct He as [Hc Hids]. eexists. split; [intros n Hne; by apply dict_get_set_ne|].
      split; [rewrite dict_get_set_eq; by apply delete_scoped|].
      intros c. simpl. mrun. rewrite Ht, scope_rows by done. by mrun.
    - exists d. split; [done|]. rewrite Ht. split; [done|]. intros c. simpl. mrun. by rewrite Ht. }
  destruct Hstep as (d1 & Hother & Hmine & Hrun). rewrite Hrun.
  destruct (IH (dict_set label (count_where (in_scope org) (rows_of name d)) counts) d1 Hnd Hld)
    as (c' & d' & Hr & Hrows & Hrest & Hc & Hc').
  { rewrite Forall_forall in *. intros n Hin. unfold erasable. rewrite Hother by (intros ->; done). by apply Hes. }
  exists c', d'. split; [exact Hr|].
  assert (Ho : forall n, n <> name -> rows_of n d1 = rows_of n d) by (intros n Hne; unfold rows_of; by rewrite Hother).
  split; [|split; [|split]].
  - intros n. rewrite Hrows. unfold emptied. simpl. destruct (decide (n = name)) as [->|Hne].
    + rewrite decide_False by done. by rewrite decide_True by left.
    + rewrite Ho by done. destruct (decide (n ∈ map fst l)).
      * by rewrite decide_True by by right.
      * by rewrite decide_False by (rewrite not_elem_of_cons; done).
  - intros n [Hne Hnl]%not_elem_of_cons. by rewrite Hrest, Hother.
  - intros n lab [[= <- <-]|Hin].
    + rewrite Hc' by done. by rewrite dict_get_set_eq.
    + rewrite (Hc n lab Hin), Ho; [done|]. intros ->. apply Hn, list_elem_of_In, in_map_iff. by exists (name, lab).
  - intros lab [Hne Hnl]%not_elem_of_cons. rewrite Hc' by done. by rewrite dict_get_set_ne.
Qed.
End erasure.

(** Erasure is complete for its surfaces and confined to the tenant: one
    commit empties every deletion surface of exactly the rows in scope, leaves
    every other row and every other class (the audit trail among them) as it
    was, and reports per surface how many rows went and how many of the erased
    entities' documents the vector store removed. *)
Theorem erasure_exact vector_refuses org db t :
  dict_get "RawEntity" db = Some t -> Forall (erasable db) (map fst DELETION_SURFACES) ->
  exists counts db', delete_subject_data vector_refuses org (clean db) = (Ok counts, clean db') /\
    (forall name, name ∈ map fst DELETION_SURFACES ->
       rows_of name db' = List.filter (fun r => negb (in_scope org r)) (rows_of name db)) /\
    (forall name, name ∉ map fst DELETION_SURFACES -> dict_get name db' = dict_get name db) /\
    (forall name label, In (name, label) DELETION_SURFACES ->
       dict_get label counts = Some (count_where (in_scope org) (rows_of name db))) /\
    dict_get "chromadb_deleted" counts
    = Some (count_where (fun i => negb (vector_refuses (doc_id i)))
              (map row_id (List.filter (in_scope org) (t_rows t)))).
Proof.
  intros Ht He. unfold delete_subject_data, clean. mrun. rewrite Ht.
  assert (Hc : "org_id" ∈ t_columns t).
  { rewrite Forall_forall in He. specialize (He "RawEntity").
    unfold erasable in He. rewrite Ht in He. by apply He, (bool_decide_unpack _). }
  rewrite scope_rows by done. mrun.
  destruct (delete_surfaces_run org DELETION_SURFACES [] db db) as (c & db' & Hr & Hrows & Hrest & Hcount & Hc');
    [by apply (bool_decide_unpack _)..|done|].
  rewrite (run_ok _ _ _ _ _ Hr). mrun. eexists _, db'. split; [reflexivity|]. split; [|split; [|split]].
  - intros name Hn. rewrite Hrows. unfold emptied. by rewrite decide_True.
  - exact Hrest.
  - intros name label Hin. rewrite <- (Hcount name label Hin). unfold delete_documents.
    assert (Hl : label ∈ map snd DELETION_SURFACES) by (apply list_elem_of_In, in_map_iff; by exists (name, label)).
    assert (label <> "chromadb_deleted" /\ label <> "chromadb_errors") as [H1 H2]
      by (split; intros ->; revert Hl; by apply (bool_decide_unpack _)).
    case_match; by rewrite !dict_get_set_ne.
  - unfold delete_documents. case_match; [by rewrite dict_get_set_eq|].
    rewrite dict_get_set_ne by done. by rewrite dict_get_set_eq.
Qed.

(** * Witnesses *)

Definition life_entity (i org d : Z) : Row :=
  [("id", CInt i); ("org_id", CInt org); ("updated_at", CTime (mkDateTime 2026 1 d 0 0 0 0))].
Definition life_db : LifeDb :=
  [ ("RawEntity", mkTable ["id"; "org_id"; "updated_at"] [life_entity 1 7 1; life_entity 2 7 20; life_entity 3 8 1] 4);
    ("EntityRelationship", mkTable ["id"; "source_id"; "target_id"]
       [[("id", CInt 1); ("source_id", CInt 2); ("target_id", CInt 1)];
        [("id", CInt 2); ("source_id", CInt 3); ("target_id", CInt 2)]] 3);
    ("RetentionPolicy", mkTable ["id"; "org_id"; "data_class"; "retention_days"]
       [[("id", CInt 1); ("org_id", CInt 7); ("data_class", CStr "all"); ("retention_days", CInt 10)];
        [("id", CInt 2); ("org_id", CInt 8); ("data_class", CStr "all"); ("retention_days", CNull)]] 3);
    ("DataLifecycleEvent", mkTable ["id"] [] 1) ].
Definition life_clock (_ : nat) : DateTime := mkDateTime 2026 1 21 0 0 0 0.

Lemma purge_tick_exact_witness :
  exists summary db',
    purge_expired_orgs (fun _ => false) (fun _ => None) life_clock (clean life_db) = (Ok summary, clean db') /\
    map row_id (rows_of "RawEntity" db') = [2; 3]%Z /\ map row_id (rows_of "EntityRelationship" db') = [2]%Z /\
    length (rows_of "DataLifecycleEvent" db') = 1%nat.
Proof.
  destruct (purge_tick_exact (fun _ => false) (fun _ => None) life_clock life_db
    [(7, mkDateTime 2026 1 11 0 0 0 0)]%Z) as (_ & summary & db' & H & Hp).
  - done.
  - split; [by eexists|]. split; [by apply (bool_decide_unpack _)|]. eexists. split; [reflexivity|constructor].
  - by eexists.
  - apply Forall_singleton. split; [by eexists|]. split; [by eexists|by left].
  - by vm_compute.
  - exists summary, db'. split; [exact H|].
    revert H. vm_compute. intros [= <- <-]. done.
Defined.

Lemma erasure_exact_witness :
  exists counts db', delete_subject_data (fun d => bool_decide (d = "entity-2")) (Some 7%Z) (clean life_db)
                     = (Ok counts, clean db') /\
    map row_id (rows_of "RawEntity" db') = [3]%Z /\ dict_get "chromadb_deleted" counts = Some 1%Z /\
    dict_get "DataLifecycleEvent" db' = dict_get "DataLifecycleEvent" life_db.
Proof.
  destruct (erasure_exact (fun d => bool_decide (d = "entity-2")) (Some 7%Z) life_db
    (mkTable ["id"; "org_id"; "updated_at"] [life_entity 1 7 1; life_entity 2 7 20; life_entity 3 8 1] 4))
    as (counts & db' & H & He & Hrest & _ & Hv).
  - reflexivity.
  - repeat (apply Forall_cons_2; [first [exact I|split; [by apply (bool_decide_unpack _)|by apply (bool_decide_unpack _)]]|]).
    constructor.
  - exists counts, db'. split; [exact H|]. split; [|split].
    + rewrite He by (by apply (bool_decide_unpack _)). by vm_compute.
    + rewrite Hv. by vm_compute.
    + apply Hrest. by apply (bool_decide_unpack _).
Defined.

(** When the database refuses a later delete of a purge, the handler does not
    roll back: completing the event as failed commits the deletes before it. *)
Lemma failed_purge_keeps_partial_deletes :
  exists db', snd (purge_expired_orgs (fun _ => false)
                     (fun n => if decide (n = "RawEntity") then Some (Exn "IntegrityError" "refused") else None)
                     life_clock (clean life_db)) = clean db' /\
    map row_id (rows_of "RawEntity" db') = [1; 2; 3]%Z /\ map row_id (rows_of "EntityRelationship" db') = [2]%Z /\
    map (cell "status") (rows_of "DataLifecycleEvent" db') = [CStr "failed"].
Proof. eexists. split; [vm_compute; reflexivity|]. by vm_compute. Qed.
(** The tick skips a policy without organisation, which the table's
    documentation calls the default of the tenants that have none. *)
Definition default_db : LifeDb :=
  dict_set "RetentionPolicy" (mkTable ["id"; "org_id"; "data_class"; "retention_days"]
    [[("id", CInt 1); ("org_id", CNull); ("data_class", CStr "all"); ("retention_days", CInt 1)]] 2) life_db.
Lemma default_policy_skipped :
  purge_expired_orgs (fun _ => false) (fun _ => None) life_clock (clean default_db) = (Ok [], clean default_db).
Proof. by vm_compute. Qed.
