(* ===== verification/WorkflowEngine.v ===== *)
(** [backend/workflow_engine.py]: trigger, conditions and actions of a workflow
    over one entity, the persisted run, and the trigger dispatcher; with
    [decrypt] of [backend/encryption.py]. The ORM attributes of the entity are
    JSON values by name. Outgoing requests go to [post], which sees the requests
    sent before. The module never rolls back: a statement that fails, or a commit
    the database refuses, leaves a session on which every later statement fails
    ([Health]). *)
From S2P Require Import Prelude PyStr PyJson PyValue DateTime TenantAccess.
Open Scope string_scope.
Open Scope list_scope.
Local Open Scope py_scope.

(** * State *)

Definition Entity : Type := list (string * json).
Definition attr (k : string) (e : Entity) : json := match dict_get k e with Some v => v | None => JNull end.
(** [x or d] for a text column. *)
Definition text_or (d : string) (v : json) : string :=
  match v with JStr s => if truthy s then s else d | _ => d end.

Record Workflow := mkWorkflow {
  wf_id : Z; wf_org_id : option Z; wf_is_active : bool; trigger_type : string;
  wf_conditions : option string; wf_actions : option string;
  last_run_at : option DateTime; run_count : option Z; last_run_status : option string
}.
Record WorkflowRun := mkRun {
  run_id : Z; run_workflow_id : Z; run_org_id : option Z; run_status : string; trigger_data : string;
  run_steps_log : string; run_error : option string; run_started_at : DateTime;
  run_completed_at : option DateTime
}.
Record AlertChannel := mkChannel {
  ch_id : Z; ch_org_id : option Z; ch_is_active : bool; webhook_url : string;
  last_fired_at : option DateTime; last_fire_status : option string; total_fired : option Z
}.
(** The session's transaction: in order; aborted in the database by a statement
    that failed; or rolled back by a flush that failed, with what was pending
    dropped and every object expired. *)
Inductive Health := Fine | Aborted | Deactivated.
(** [loaded]: the entity's columns were read since the last commit, which expires
    them. *)
Record World := mkWorld {
  entity : Entity; workflows : list Workflow; runs : list WorkflowRun; next_run : Z;
  channels : list AlertChannel; outbox : list (json * json); health : Health; loaded : bool
}.
Definition with_entity (e : Entity) (w : World) : World :=
  mkWorld e (workflows w) (runs w) (next_run w) (channels w) (outbox w) (health w) (loaded w).
Definition with_channels (c : list AlertChannel) (w : World) : World :=
  mkWorld (entity w) (workflows w) (runs w) (next_run w) c (outbox w) (health w) (loaded w).
Definition with_workflows (l : list Workflow) (w : World) : World :=
  mkWorld (entity w) l (runs w) (next_run w) (channels w) (outbox w) (health w) (loaded w).
Definition with_runs (l : list WorkflowRun) (n : Z) (w : World) : World :=
  mkWorld (entity w) (workflows w) l n (channels w) (outbox w) (health w) (loaded w).
Definition sent (r : json * json) (w : World) : World :=
  mkWorld (entity w) (workflows w) (runs w) (next_run w) (channels w) (outbox w ++ [r]) (health w) (loaded w).
Definition in_state (h : Health) (l : bool) (w : World) : World :=
  mkWorld (entity w) (workflows w) (runs w) (next_run w) (channels w) (outbox w) h l.

(** * The session *)
(** What the database does with a value compared with an integer column: a
    number, nothing that equals an id, or an error, which aborts the transaction
    when the statement was sent. *)
Inductive Bound := Equals (z : Z) | Nothing | Fails (e : exn) (aborts : bool).
(** [refuses]: what a flush of the pending changes raises, if anything. *)
Record Store := mkStore { refuses : World -> option exn; bind_id : json -> Bound }.
Definition PendingRollbackError : exn :=
  Exn "PendingRollbackError" "This Session's transaction has been rolled back due to a previous exception during flush.".
Definition InFailedSqlTransaction : exn :=
  Exn "InternalError" "current transaction is aborted, commands ignored until end of transaction block".
(** A failed flush: back to what is committed; the requests sent stay sent. *)
Definition deactivate {A} (e : exn) : M World A :=
  fun s => (Raise e, mkSession (mkWorld (entity (sess_base s)) (workflows (sess_base s)) (runs (sess_base s)) (next_run (sess_base s))
                                   (channels (sess_base s)) (outbox (sess_db s)) Deactivated false) (sess_base s)).
(** A statement that reads. *)
Definition statement : M World unit :=
  do! w <- mget;
  match health w with Fine => mret tt | Aborted => mraise InFailedSqlTransaction | Deactivated => mraise PendingRollbackError end.
(** The entity's attributes, loaded on first use. *)
Definition read_entity : M World Entity :=
  do! w <- mget;
  if loaded w then mret (entity w)
  else run! statement; run! mmodify (fun w => in_state (health w) true w); mret (entity w).

(** * Conditions *)

Definition get_entity_field (e : Entity) (field : json) : res json :=
  match field with
  | JStr f =>
      match dict_get f e with
      | Some v => Ok v
      | None =>
          match loads (text_or "{}" (attr "attributes_json" e)) with
          | None => Ok JNull
          | Some attrs => get_or f JNull attrs
          end
      end
  | _ => Raise (Exn "TypeError" "attribute name must be string")
  end.

Definition evaluate_condition (e : Entity) (condition : json) : res bool :=
  let? ctype := get_or "type" (JStr "") condition in
  let? field := get_or "field" (JStr "") condition in
  let? value := get_or "value" (JStr "") condition in
  let? raw := get_entity_field e field in
  if bool_decide (ctype = JStr "field_equals") then
    Ok (bool_decide (lower (strip (py_str raw)) = lower (strip (py_str value))))
  else if bool_decide (ctype = JStr "field_contains") then
    let? v := as_str "lower" value in
    Ok (contains (lower v) (lower (if py_true raw then py_str raw else "")))
  else if bool_decide (ctype = JStr "field_empty") then
    Ok (bool_decide (raw = JNull) || bool_decide (strip (py_str raw) = ""))
  else if bool_decide (ctype = JStr "enrichment_status_is") then
    Ok (bool_decide (JStr (text_or "" (attr "enrichment_status" e)) = value))
  else Ok false.

(** [all(...)] stops at the first condition that fails. *)
Fixpoint all_conditions (e : Entity) (l : list json) : res bool :=
  match l with
  | [] => Ok true
  | c :: l' => let? b := evaluate_condition e c in if b then all_conditions e l' else Ok false
  end.
Definition evaluate_conditions (e : Entity) (conditions : json) : res bool :=
  let? l := iterate conditions in all_conditions e l.

(** * Actions *)

Definition failure (msg : string) : json := JObj [("ok", JBool false); ("error", JStr msg)].
Definition exn_text (e : exn) : string := match e with Exn _ m => m | HTTPException _ d => d end.

Section engine.
Context (post : list (json * json) -> json -> json -> res (bool * Z)).
Context (multi_fernet : option (string -> res string)) (store : Store).

(** [db.commit()] with changes pending. *)
Definition commit_all : M World unit :=
  do! w <- mget;
  match health w with
  | Fine =>
      match refuses store w with
      | Some e => deactivate e
      | None => run! mmodify (in_state Fine false); commit
      end
  | Aborted => deactivate InFailedSqlTransaction
  | Deactivated => mraise PendingRollbackError
  end.

Definition decrypt (value : string) : string :=
  match multi_fernet with
  | None => value
  | Some f => if truthy value then match f value with Ok p => p | Raise _ => value end else value
  end.

(** [httpx.post(url, json=payload)] *)
Definition http_post (url payload : json) : M World (res (bool * Z)) :=
  do! w <- mget;
  run! mmodify (sent (url, payload));
  mret (post (outbox w) url payload).

Definition response (r : res (bool * Z)) : json :=
  match r with
  | Ok (is_success, code) => JObj [("ok", JBool is_success); ("status_code", JInt code)]
  | Raise e => failure (exn_text e)
  end.

Definition action_send_webhook (config : json) : M World json :=
  do! url <- mlift (get_or "url" (JStr "") config);
  if negb (py_true url) then mret (failure "No URL configured")
  else
    do! e <- read_entity;
    do! extra <- mlift (get_or "extra_payload" JNull config);
    do! extra <- (if py_true extra then
                    match extra with
                    | JObj m => mret m
                    | _ => mraise (Exn "TypeError" ("'" ++ type_name extra ++ "' object is not a mapping"))
                    end
                  else mret []);
    let payload := dict_update [("event", JStr "workflow.action"); ("entity_id", attr "id" e);
                                ("primary_label", attr "primary_label" e); ("domain", attr "domain" e)] extra in
    do! r <- http_post url (JObj payload);
    mret (response r).

Definition tag_list (current : string) : list string :=
  List.filter truthy (map strip (split_on "," current)).

Definition action_tag_entity (config : json) : M World json :=
  do! raw <- mlift (get_or "tag" (JStr "") config);
  do! raw <- mlift (as_str "strip" raw);
  let tag := strip raw in
  if negb (truthy tag) then mret (failure "No tag specified")
  else
    do! e <- read_entity;
    let tags := tag_list (text_or "" (attr "enrichment_concepts" e)) in
    let result := JObj [("ok", JBool true); ("tag", JStr tag)] in
    if bool_decide (tag ∈ tags) then mret result
    else
      run! mmodify (fun w => with_entity (dict_set "enrichment_concepts" (JStr (join ", " (tags ++ [tag]))) (entity w)) w);
      run! commit_all;
      mret result.

(** [AlertChannel.id == channel_id AND is_active]: the organisation is not
    part of the lookup; the database says what the value of the configuration
    equals. *)
Definition channel_matches (id : Z) (c : AlertChannel) : bool := (ch_id c =? id)%Z && ch_is_active c.
Definition find_channel (channel_id : json) : M World (option AlertChannel) :=
  run! statement;
  match bind_id store channel_id with
  | Equals id => do! w <- mget; mret (List.find (channel_matches id) (channels w))
  | Nothing => mret None
  | Fails e aborts => run! (if aborts then mmodify (fun w => in_state Aborted (loaded w) w) else mret tt); mraise e
  end.

Definition fired (now : DateTime) (is_success : bool) (c : AlertChannel) : AlertChannel :=
  mkChannel (ch_id c) (ch_org_id c) (ch_is_active c) (webhook_url c) (Some now)
    (Some (if is_success then "ok" else "error")) (Some (match total_fired c with Some n => n | None => 0 end + 1)%Z).
Definition not_fired (c : AlertChannel) : AlertChannel :=
  mkChannel (ch_id c) (ch_org_id c) (ch_is_active c) (webhook_url c) (last_fired_at c) (Some "error") (total_fired c).
Definition on_channel (channel : AlertChannel) (f : AlertChannel -> AlertChannel) : M World unit :=
  mmodify (fun w => with_channels (update_where (fun c => (ch_id c =? ch_id channel)%Z) f (channels w)) w).

Definition action_send_alert (now : DateTime) (config : json) : M World json :=
  do! channel_id <- mlift (get_or "channel_id" JNull config);
  if negb (py_true channel_id) then mret (failure "No channel_id specified")
  else
    do! found <- find_channel channel_id;
    match found with
    | None => mret (failure ("AlertChannel " ++ py_str channel_id ++ " not found or inactive"))
    | Some channel =>
        let url := decrypt (webhook_url channel) in
        do! e <- read_entity;
        do! message <- mlift (get_or "message"
              (JStr ("Workflow triggered for entity: " ++ py_str (attr "primary_label" e))) config);
        mtry (do! r <- http_post (JStr url) (JObj [("text", message); ("entity_id", attr "id" e)]);
              do! answer <- mlift r;
              run! on_channel channel (fired now (fst answer));
              run! commit_all;
              mret (response (Ok answer)))
             (fun exc => run! on_channel channel not_fired; run! commit_all; mret (failure (exn_text exc)))
    end.

Definition action_log_only : M World json :=
  do! e <- read_entity; mret (JObj [("ok", JBool true); ("logged", JBool true); ("entity_id", attr "id" e)]).

Definition dispatch_action (now : DateTime) (action : json) : M World json :=
  do! atype <- mlift (get_or "type" (JStr "") action);
  do! cfg <- mlift (get_or "config" (JObj []) action);
  mtry
    (if bool_decide (atype = JStr "send_webhook") then action_send_webhook cfg
     else if bool_decide (atype = JStr "tag_entity") then action_tag_entity cfg
     else if bool_decide (atype = JStr "send_alert") then action_send_alert now cfg
     else if bool_decide (atype = JStr "log_only") then action_log_only
     else mret (failure ("Unknown action type: " ++ py_str atype)))
    (fun exc => mret (failure (exn_text exc))).

(** * Runs *)

Definition result_ok (result : json) : bool :=
  match jget "ok" result with Some v => py_true v | None => false end.

(** Every action in turn, whatever the earlier ones returned. *)
Fixpoint run_actions (now : DateTime) (actions : list json) (steps_log : list json) (all_ok : bool)
  : M World (list json * bool) :=
  match actions with
  | [] => mret (steps_log, all_ok)
  | action :: rest =>
      do! result <- dispatch_action now action;
      do! atype <- mlift (get_or "type" JNull action);
      run_actions now rest (steps_log ++ [JObj [("action", atype); ("result", result)]])
        (all_ok && result_ok result)
  end.

Definition counted (now : DateTime) (status : string) (x : Workflow) : Workflow :=
  mkWorkflow (wf_id x) (wf_org_id x) (wf_is_active x) (trigger_type x) (wf_conditions x) (wf_actions x)
    (Some now) (Some (match run_count x with Some n => n | None => 0 end + 1)%Z) (Some status).
Definition update_workflow_stats (now : DateTime) (wf : Z) (status : string) : M World unit :=
  run! mmodify (fun w => with_workflows
         (update_where (fun x => (wf_id x =? wf)%Z) (counted now status) (workflows w)) w);
  commit_all.

(** The run row's update and its commit. *)
Definition finish_run (rid : Z) (f : WorkflowRun -> WorkflowRun) : M World unit :=
  run! mmodify (fun w => with_runs (update_where (fun r => (run_id r =? rid)%Z) f (runs w)) (next_run w) w);
  commit_all.
Definition ended (now : DateTime) (status steps : string) (r : WorkflowRun) : WorkflowRun :=
  mkRun (run_id r) (run_workflow_id r) (run_org_id r) status (trigger_data r) steps (run_error r)
    (run_started_at r) (Some now).
Definition errored (now : DateTime) (error : string) (r : WorkflowRun) : WorkflowRun :=
  mkRun (run_id r) (run_workflow_id r) (run_org_id r) "error" (trigger_data r) (run_steps_log r) (Some error)
    (run_started_at r) (Some now).

(** [json.loads(x or "[]")] of a text column. *)
Definition loads_or_list (x : option string) : res json :=
  match loads (match x with Some s => if truthy s then s else "[]" | None => "[]" end) with
  | Some v => Ok v
  | None => Raise (Exn "JSONDecodeError" "Expecting value")
  end.

Definition run_body (now : DateTime) (workflow : Workflow) (rid : Z) : M World unit :=
  do! conditions <- mlift (loads_or_list (wf_conditions workflow));
  do! actions <- mlift (loads_or_list (wf_actions workflow));
  do! conditions <- mlift (iterate conditions);
  do! e <- (match conditions with [] => do! w <- mget; mret (entity w) | _ => read_entity end);
  do! met <- mlift (all_conditions e conditions);
  if negb met then
    run! finish_run rid (ended now "skipped" (dumps false (JArr [JObj [("skipped", JStr "conditions not met")]])));
    update_workflow_stats now (wf_id workflow) "skipped"
  else
    do! l <- mlift (iterate actions);
    do! out <- run_actions now l [] true;
    let status := if snd out then "success" else "error" in
    run! finish_run rid (ended now status (dumps false (JArr (fst out))));
    update_workflow_stats now (wf_id workflow) status.

Definition run_workflow (now : DateTime) (workflow : Workflow) (trigger : option json) : M World Z :=
  do! w <- mget;
  let rid := next_run w in
  let data := match trigger with Some t => if py_true t then t else JObj [] | None => JObj [] end in
  run! mmodify (fun w => with_runs (runs w ++ [mkRun rid (wf_id workflow) (wf_org_id workflow) "running"
                            (dumps false data) "[]" None now None]) (rid + 1) w);
  run! commit_all;
  run! mtry (run_body now workflow rid)
         (fun exc => run! finish_run rid (errored now (exn_text exc));
                     update_workflow_stats now (wf_id workflow) "error");
  mret rid.

(** * Triggers *)

Definition workflow_model : Model Workflow := mkModel "Workflow" wf_id (Some wf_org_id).

(** The handler reads the id of the workflow it logs, which is expired after a
    failed flush. *)
Fixpoint fire_each (now : DateTime) (trigger : json) (l : list Workflow) (acc : list Z) : M World (list Z) :=
  match l with
  | [] => mret acc
  | wf :: rest =>
      do! acc <- mtry (do! rid <- run_workflow now wf (Some trigger); mret (acc ++ [rid])) (fun _ => run! statement; mret acc);
      fire_each now trigger rest acc
  end.

Definition fire_trigger (now : DateTime) (trigger : string) : M World (list Z) :=
  do! e <- read_entity;
  run! statement;
  do! w <- mget;
  let matching := List.filter (fun x => bool_decide (trigger_type x = trigger) && wf_is_active x) (workflows w) in
  let scope := match attr "org_id" e with JInt o => Some o | _ => Some LEGACY_GLOBAL_ORG_ID end in
  do! l <- mlift (scope_query_to_org workflow_model matching scope);
  fire_each now (JObj [("trigger", JStr trigger); ("entity_id", attr "id" e)]) l [].
End engine.
