(* ===== verification/WorkflowClaims.v ===== *)
(** What a workflow run guarantees: it always ends, in one of three ways, or the
    database refused a write or a statement and the call raises, and it leaves the
    rest of the system alone; and which workflows a trigger runs. *)
From S2P Require Import Prelude PyStr PyJson PyValue DateTime TenantAccess WorkflowEngine.
Open Scope string_scope.
Open Scope list_scope.
Local Open Scope py_scope.

(** * What actions may touch *)

(** Actions leave workflows and runs alone, change one attribute of the entity,
    only add requests, and never the identity of a channel. *)
Record frame (w w' : World) : Prop := {
  f_workflows : workflows w' = workflows w;
  f_runs : runs w' = runs w;
  f_next : next_run w' = next_run w;
  f_entity : forall k, k <> "enrichment_concepts" -> dict_get k (entity w') = dict_get k (entity w);
  f_outbox : exists reqs, outbox w' = outbox w ++ reqs;
  f_channels : map (fun c => (ch_id c, ch_org_id c, webhook_url c)) (channels w')
               = map (fun c => (ch_id c, ch_org_id c, webhook_url c)) (channels w)
}.

#[export] Instance frame_preorder : PreOrder frame.
Proof.
  split.
  - intros w. split; try done. exists []. by rewrite app_nil_r.
  - intros w1 w2 w3 [A1 A2 A3 A4 (r1 & A5) A6] [B1 B2 B3 B4 (r2 & B5) B6].
    split; try congruence.
    + intros k Hk. by rewrite B4, A4.
    + exists (r1 ++ r2). by rewrite B5, A5, (assoc_L (++)).
Qed.

Lemma frame_sent r w : frame w (sent r w).
Proof. split; try done. by exists [r]. Qed.
Lemma frame_entity v w : frame w (with_entity (dict_set "enrichment_concepts" v (entity w)) w).
Proof.
  split; try done; [|exists []; by rewrite app_nil_r]. intros k Hk. simpl. by rewrite dict_get_set_ne.
Qed.
Lemma frame_channels f p w : (forall c, ch_id (f c) = ch_id c /\ ch_org_id (f c) = ch_org_id c /\ webhook_url (f c) = webhook_url c) ->
  frame w (with_channels (update_where p f (channels w)) w).
Proof.
  intros Hf. split; try done; [exists []; by rewrite app_nil_r|]. simpl. apply update_where_map.
  intros c. destruct (Hf c) as (-> & -> & ->). done.
Qed.
Lemma frame_state h l w : frame w (in_state h l w).
Proof. split; try done. exists []. by rewrite app_nil_r. Qed.

Section engine.
Context (post : list (json * json) -> json -> json -> res (bool * Z)).
Context (multi_fernet : option (string -> res string)) (store : Store) (now : DateTime).

(** The database refuses a flush, or a statement. *)
Definition trouble : Prop := (exists w e, refuses store w = Some e) \/ exists v e b, bind_id store v = Fails e b.
(** A session is out of order only after trouble. *)
Definition healthy (w : World) : Prop := health w <> Fine -> trouble.
(** Within the frame of [w0], pending and committed: what the actions keep. *)
Definition steady (w0 w : World) : Prop := frame w0 w /\ healthy w.

Section actions.
Context (w0 : World).
Lemma tame_modify f : (forall w, frame w (f w) /\ (health w = Fine -> health (f w) = Fine)) -> preserves (steady w0) (mmodify f).
Proof.
  intros H. apply preserves_modify. intros w [Hf Hh]. destruct (H w) as [H1 H2]. split; [by etrans|].
  intros Hn. apply Hh. auto.
Qed.
Lemma tame_deactivate {A} e : trouble -> preserves (steady w0) (@deactivate A e).
Proof.
  intros Ht s [Hd _] [[B1 B2 B3 B4 B5 B6] Hb]. split; [|by split].
  split; [|by intros _]. destruct (f_outbox _ _ Hd) as [reqs Ho]. split; try done. by exists reqs.
Qed.
Lemma tame_commit : preserves (steady w0) (commit_all store).
Proof.
  unfold commit_all. apply preserves_bind_get. intros d [_ Hh]. destruct (health d) eqn:E.
  - destruct (refuses store d) as [e|] eqn:R; [apply tame_deactivate; left; eauto|].
    apply preserves_bind; [|intros ?; preserve]. apply tame_modify. intros w. split; [apply frame_state|done].
  - apply tame_deactivate, Hh. by rewrite E.
  - preserve.
Qed.
Lemma tame_statement : preserves (steady w0) statement.
Proof. unfold statement. preserve. Qed.
Lemma tame_read : preserves (steady w0) read_entity.
Proof.
  unfold read_entity. apply preserves_bind_get. intros d _. destruct (loaded d); [preserve|].
  apply preserves_bind; [apply tame_statement|]. intros _. apply preserves_bind; [|intros ?; preserve].
  apply tame_modify. intros w. split; [apply frame_state|done].
Qed.
Lemma tame_post url payload : preserves (steady w0) (http_post post url payload).
Proof.
  unfold http_post. apply preserves_bind_get. intros d _. apply preserves_bind; [|intros ?; preserve].
  apply tame_modify. intros w. split; [apply frame_sent|done].
Qed.
Lemma tame_find channel_id : preserves (steady w0) (find_channel store channel_id).
Proof.
  unfold find_channel. apply preserves_bind; [apply tame_statement|]. intros _.
  destruct (bind_id store channel_id) as [z| |e b] eqn:E; [preserve|preserve|].
  apply preserves_bind; [|intros ?; preserve]. destruct b; [|auto with preserve].
  apply preserves_modify. intros w [Hf _]. split; [etrans; [exact Hf|apply frame_state]|]. intros _. right. eauto.
Qed.
Lemma tame_on_channel c f : (forall c, ch_id (f c) = ch_id c /\ ch_org_id (f c) = ch_org_id c /\ webhook_url (f c) = webhook_url c) ->
  preserves (steady w0) (on_channel c f).
Proof. intros Hf. apply tame_modify. intros w. split; [by apply frame_channels|done]. Qed.
#[local] Hint Resolve tame_commit tame_read tame_post tame_find : preserve.
Lemma tame_webhook config : preserves (steady w0) (action_send_webhook post config).
Proof. unfold action_send_webhook. preserve. Qed.
Lemma tame_tag config : preserves (steady w0) (action_tag_entity store config).
Proof.
  unfold action_tag_entity. preserve. destruct H as [Hf Hh]. split; [|exact Hh]. etrans; [exact Hf|apply frame_entity].
Qed.
Lemma tame_alert config : preserves (steady w0) (action_send_alert post multi_fernet store now config).
Proof. unfold action_send_alert. cbv zeta. preserve; by apply tame_on_channel. Qed.
#[local] Hint Resolve tame_webhook tame_tag tame_alert : preserve.
Lemma tame_dispatch action : preserves (steady w0) (dispatch_action post multi_fernet store now action).
Proof. unfold dispatch_action, action_log_only. preserve. Qed.
Lemma tame_actions l log ok : preserves (steady w0) (run_actions post multi_fernet store now l log ok).
Proof.
  revert log ok. induction l as [|a l IH]; intros log ok; simpl; [preserve|].
  apply preserves_bind; [apply tame_dispatch|]. intros r. apply preserves_bind; [preserve|]. auto.
Qed.
End actions.

(** The log has one entry per action; the run is a success exactly when every
    entry says so. *)
Lemma run_actions_log l log ok s out s' :
  run_actions post multi_fernet store now l log ok s = (Ok out, s') ->
  exists entries, fst out = log ++ entries /\ length entries = length l /\
    snd out = ok && forallb (fun e => match jget "result" e with Some r => result_ok r | None => false end) entries.
Proof.
  revert log ok s. induction l as [|a l IH]; intros log ok s; simpl.
  - intros [= <- <-]. exists []. by rewrite app_nil_r, andb_true_r.
  - unfold mbind at 1. destruct (dispatch_action _ _ _ _ a s) as [[r|e] s1]; [|done].
    destruct (get_or "type" JNull a) as [ty|e]; mrun; [|done]. intros H.
    apply IH in H as (es & E1 & E2 & E3). eexists (_ :: es). rewrite E1, <- (assoc_L (++)).
    split; [reflexivity|]. simpl. rewrite E2, E3. split; [done|]. by rewrite andb_assoc.
Qed.

(** ** One run *)

(** The world once a run is finished by [f] and committed, and once it is
    counted. *)
Definition recorded (rid : Z) (f : WorkflowRun -> WorkflowRun) (w : World) : World :=
  in_state Fine false (with_runs (update_where (fun r => (run_id r =? rid)%Z) f (runs w)) (next_run w) w).
Definition finished (wf rid : Z) (status : string) (f : WorkflowRun -> WorkflowRun) (w : World) : World :=
  in_state Fine false (with_workflows (update_where (fun x => (wf_id x =? wf)%Z) (counted now status) (workflows w)) (recorded rid f w)).

(** The session after a failed flush, its committed state being [b]. *)
Definition dead (b : World) (s : Session World) : Prop := health (sess_db s) = Deactivated /\ sess_base s = b.
Lemma commit_cases (s : Session World) : healthy (sess_db s) ->
  commit_all store s = (Ok tt, clean (in_state Fine false (sess_db s))) /\ health (sess_db s) = Fine \/
  exists e, fst (commit_all store s) = Raise e /\ trouble /\ dead (sess_base s) (snd (commit_all store s)).
Proof.
  intros Hh. unfold commit_all. rewrite run_get. destruct (health (sess_db s)) eqn:E.
  - destruct (refuses store (sess_db s)) as [e|] eqn:Er; [|by left]. right. exists e. split; [done|]. split; [left; eauto|done].
  - right. eexists. split; [done|]. split; [by apply Hh; rewrite E|done].
  - right. eexists. split; [done|]. split; [by apply Hh; rewrite E|done].
Qed.
Lemma finish_step wf rid status f s : healthy (sess_db s) ->
  let out := (run! finish_run store rid f; update_workflow_stats store now wf status) s in
  out = (Ok tt, clean (finished wf rid status f (sess_db s))) \/
  exists e, fst out = Raise e /\ trouble /\
    (dead (sess_base s) (snd out) \/ dead (recorded rid f (sess_db s)) (snd out)).
Proof.
  intros Hh out. unfold out. clear out.
  set (s1 := mkSession (with_runs (update_where (fun r => (run_id r =? rid)%Z) f (runs (sess_db s))) (next_run (sess_db s)) (sess_db s)) (sess_base s)).
  assert (Ef : finish_run store rid f s = commit_all store s1) by done.
  destruct (commit_cases s1 Hh) as [[E1 _]|(e & E1 & Ht & Hd)].
  - rewrite (run_ok _ _ _ _ _ (eq_trans Ef E1)). unfold update_workflow_stats. rewrite run_modify.
    set (s2 := mkSession _ (sess_base (clean _))).
    destruct (commit_cases s2) as [[E2 _]|(e & E2 & Ht & Hd)]; [by intros []| |].
    + left. rewrite E2. done.
    + right. exists e. split; [exact E2|]. split; [done|]. by right.
  - destruct (commit_all store s1) as [out s'] eqn:Ec. cbn in E1, Hd. subst out.
    right. exists e. rewrite (run_fails _ _ _ e s') by by rewrite Ef. split; [done|]. split; [done|]. by left.
Qed.

(** What the conditions and actions of a workflow decide. *)
Definition verdict (wf : Workflow) (w : World) : res bool :=
  let? conditions := loads_or_list (wf_conditions wf) in
  let? _ := loads_or_list (wf_actions wf) in
  evaluate_conditions (entity w) conditions.

(** The log holds one entry per action, and the status sums the entries up. *)
Definition logged (wf : Workflow) (status steps : string) : Prop :=
  exists actions l entries,
    loads_or_list (wf_actions wf) = Ok actions /\ iterate actions = Ok l /\ length entries = length l /\
    steps = dumps false (JArr entries) /\
    status = if forallb (fun e => match jget "result" e with Some r => result_ok r | None => false end) entries
             then "success" else "error".

(** An ordinary end: skipped without any effect, or the log of every action. *)
Definition ends (wf : Workflow) (w w1 : World) (status steps : string) : Prop :=
  (status = "skipped" /\ entity w1 = entity w /\ channels w1 = channels w /\ outbox w1 = outbox w /\ verdict wf w = Ok false) \/
  (verdict wf w = Ok true /\ logged wf status steps).
(** How a body that raises leaves the session: as the actions left it; or out of
    order by a failed flush, with a committed state [b] that is the actions', or
    has the run finished but not counted. *)
Definition cut_short (wf : Workflow) (rid : Z) (w b : World) : Prop :=
  frame w b \/ exists status steps w1, b = recorded rid (ended now status steps) w1 /\ frame w w1 /\ ends wf w w1 status steps.

Lemma read_fine s : health (sess_db s) = Fine ->
  exists l, read_entity s = (Ok (entity (sess_db s)), mkSession (in_state Fine l (sess_db s)) (sess_base s)).
Proof.
  intros H. unfold read_entity. rewrite run_get. destruct (loaded (sess_db s)) eqn:E.
  - exists true. destruct s as [[] ?]; simpl in *. by subst.
  - exists true. unfold statement, mbind, mget, mret, mmodify. simpl. rewrite H. simpl. by rewrite H.
Qed.

Lemma body_end wf rid w status steps s : steady w (sess_db s) -> frame w (sess_base s) ->
  ends wf w (sess_db s) status steps ->
  let out := (run! finish_run store rid (ended now status steps); update_workflow_stats store now (wf_id wf) status) s in
  out = (Ok tt, clean (finished (wf_id wf) rid status (ended now status steps) (sess_db s))) \/
  exists e b, fst out = Raise e /\ trouble /\ dead b (snd out) /\ cut_short wf rid w b.
Proof.
  intros [Hf Hh] Hb He. destruct (finish_step (wf_id wf) rid status (ended now status steps) s Hh)
    as [H|(e & H & Ht & [Hd|Hd])]; [by left|right..]; exists e.
  - exists (sess_base s). split; [exact H|]. split; [done|]. split; [exact Hd|]. by left.
  - eexists. split; [exact H|]. split; [done|]. split; [exact Hd|]. right. by eexists _, _, _.
Qed.

Lemma run_body_cases wf rid w : health w = Fine ->
  let out := run_body post multi_fernet store now wf rid (clean w) in
  (exists e, fst out = Raise e /\ steady w (sess_db (snd out)) /\ frame w (sess_base (snd out)) /\ verdict wf w <> Ok false) \/
  (exists status steps w1, out = (Ok tt, clean (finished (wf_id wf) rid status (ended now status steps) w1)) /\
     frame w w1 /\ ends wf w w1 status steps) \/
  (exists e b, fst out = Raise e /\ trouble /\ dead b (snd out) /\ cut_short wf rid w b).
Proof.
  intros Hw out. assert (Hs : steady w w) by (split; [done|by intros []]).
  unfold out, run_body, verdict, evaluate_conditions. clear out.
  destruct (loads_or_list (wf_conditions wf)) as [cond|e] eqn:Hc; mrun; [|left; exists e; by split_and!].
  destruct (loads_or_list (wf_actions wf)) as [acts|e] eqn:Ha; mrun; [|left; exists e; by split_and!].
  simpl res_bind. destruct (iterate cond) as [conds|e] eqn:Hi; mrun; [|left; exists e; by split_and!].
  assert (He : exists l, (match conds with [] => do! w <- mget; mret (entity w) | _ => read_entity end) (clean w)
                = (Ok (entity w), mkSession (in_state Fine l w) w)).
  { destruct conds; [|by apply read_fine]. exists (loaded w). destruct w; simpl in *. by subst. }
  destruct He as [ld He]. rewrite (run_ok _ _ _ _ _ He). clear He.
  set (s0 := mkSession (in_state Fine ld w) w).
  assert (H0 : steady w (sess_db s0)) by (split; [apply frame_state|by intros []]).
  simpl res_bind. destruct (all_conditions (entity w) conds) as [b|e] eqn:Hm; mrun; [|left; exists e; by split_and!].
  assert (Hv : verdict wf w = Ok b) by (unfold verdict, evaluate_conditions; by rewrite Hc, Ha; simpl; rewrite Hi).
  destruct b; cbn [negb].
  - destruct (iterate acts) as [l|e] eqn:Hl; mrun; [|left; exists e; by split_and!].
    destruct (tame_actions w l [] true s0 H0 Hs) as [Hd Hb].
    destruct (run_actions _ _ store now l [] true s0) as [[[log ok]|e] s1] eqn:Hr; cycle 1.
    { rewrite (run_fails _ _ _ _ _ Hr). left. exists e. simpl in *. split_and!; by try apply Hb. }
    rewrite (run_ok _ _ _ _ _ Hr). right. apply run_actions_log in Hr as (es & E1 & E2 & E3). simpl in E1, E3, Hd, Hb. subst log ok.
    edestruct (body_end wf rid w) as [H|H]; [exact Hd|apply Hb| |left|right; exact H].
    2: { eexists _, _, _. split; [exact H|]. split; [apply Hd|]. right. split; [done|]. by exists acts, l, es. }
    right. split; [done|]. by exists acts, l, es.
  - right. edestruct (body_end wf rid w "skipped" (dumps false (JArr [JObj [("skipped", JStr "conditions not met")]])) s0) as [H|H];
      [exact H0|done|by left|left|right; exact H].
    eexists _, _, _. split; [exact H|]. split; [apply H0|]. by left.
Qed.

(** What a run leaves behind: one new, finished row, the workflow counted. *)
Record ran (wf : Workflow) (w w' : World) (r : WorkflowRun) : Prop := {
  r_runs : runs w' = runs w ++ [r];
  r_next : next_run w' = (next_run w + 1)%Z;
  r_id : run_id r = next_run w /\ run_workflow_id r = wf_id wf /\ run_org_id r = wf_org_id wf;
  r_done : run_completed_at r = Some now;
  r_stats : workflows w' = update_where (fun x => (wf_id x =? wf_id wf)%Z) (counted now (run_status r)) (workflows w);
  r_frame : frame w (with_workflows (workflows w) (with_runs (runs w) (next_run w) w'));
  r_status :
    (run_status r = "skipped" /\ run_error r = None /\ verdict wf w = Ok false /\
     entity w' = entity w /\ channels w' = channels w /\ outbox w' = outbox w) \/
    (run_error r = None /\ verdict wf w = Ok true /\ logged wf (run_status r) (run_steps_log r)) \/
    (run_status r = "error" /\ is_Some (run_error r) /\ verdict wf w <> Ok false)
}.

Lemma finish_last rid f l (r : WorkflowRun) :
  Forall (fun x => (run_id x < rid)%Z) l -> run_id r = rid ->
  update_where (fun x => (run_id x =? rid)%Z) f (l ++ [r]) = l ++ [f r].
Proof.
  intros Hlt <-. unfold update_where. rewrite map_app. simpl. rewrite Z.eqb_refl. f_equal.
  rewrite <- (map_id l) at 2. apply map_ext_in. intros x Hx. rewrite Forall_forall in Hlt.
  specialize (Hlt x (proj2 (list_elem_of_In _ _) Hx)). by rewrite (proj2 (Z.eqb_neq _ _)) by lia.
Qed.

Lemma ran_finished wf w r0 w1 status f :
  Forall (fun x => (run_id x < next_run w)%Z) (runs w) ->
  run_id r0 = next_run w -> run_workflow_id r0 = wf_id wf -> run_org_id r0 = wf_org_id wf ->
  frame (in_state Fine false (with_runs (runs w ++ [r0]) (next_run w + 1) w)) w1 ->
  run_id (f r0) = run_id r0 -> run_workflow_id (f r0) = run_workflow_id r0 -> run_org_id (f r0) = run_org_id r0 ->
  run_status (f r0) = status -> run_completed_at (f r0) = Some now ->
  (status = "skipped" /\ run_error (f r0) = None /\ verdict wf w = Ok false /\
   entity w1 = entity w /\ channels w1 = channels w /\ outbox w1 = outbox w) \/
  (run_error (f r0) = None /\ verdict wf w = Ok true /\ logged wf status (run_steps_log (f r0))) \/
  (status = "error" /\ is_Some (run_error (f r0)) /\ verdict wf w <> Ok false) ->
  ran wf w (finished (wf_id wf) (next_run w) status f w1) (f r0).
Proof.
  intros Hlt E1 E2 E3 [F1 F2 F3 F4 F5 F6] G1 G2 G3 G4 G5 Hst. simpl in *.
  split; simpl; rewrite ?F1, ?F2, ?F3, ?G1, ?G2, ?G3, ?G4; try done.
  by apply finish_last.
Qed.

Definition terminal_run (r : WorkflowRun) : Prop :=
  (run_status r = "skipped" \/ run_status r = "success" \/ run_status r = "error") /\ run_completed_at r = Some now.

Lemma logged_status wf status steps : logged wf status steps -> status = "success" \/ status = "error".
Proof. intros (? & ? & ? & _ & _ & _ & _ & ->). case_match; auto. Qed.
Lemma ran_terminal wf w w' r : ran wf w w' r -> terminal_run r.
Proof.
  intros [_ _ _ Hd _ _ Hs]. split; [|done].
  destruct Hs as [(-> & _)|[(_ & _ & Hl)|(-> & _)]]; [by left|right; by eapply logged_status|auto].
Qed.

(** What is committed when a flush fails after the run's row was: the row, still
    running, or finished and not counted in the workflow. *)
Record left_behind (wf : Workflow) (w b : World) : Prop := {
  l_row : exists r, runs b = runs w ++ [r] /\ run_id r = next_run w /\ run_workflow_id r = wf_id wf /\
    run_org_id r = wf_org_id wf /\ (run_status r = "running" /\ run_completed_at r = None \/ terminal_run r);
  l_next : next_run b = (next_run w + 1)%Z;
  l_frame : frame w (with_runs (runs w) (next_run w) b)
}.

Section one_run.
Context (wf : Workflow) (trigger : option json) (w : World) (r0 : WorkflowRun).
Context (Hlt : Forall (fun x => (run_id x < next_run w)%Z) (runs w)).
Context (Hrow : run_id r0 = next_run w /\ run_workflow_id r0 = wf_id wf /\ run_org_id r0 = wf_org_id wf).
Context (Hnew : run_status r0 = "running" /\ run_completed_at r0 = None).
Let w0 : World := in_state Fine false (with_runs (runs w ++ [r0]) (next_run w + 1) w).

Lemma left_running b : frame w0 b -> left_behind wf w b.
Proof.
  intros [F1 F2 F3 F4 F5 F6]. destruct Hrow as (H1 & H2 & H3). split; try done.
  exists r0. simpl in *. split_and!; try done. by left.
Qed.
Lemma left_finished f w1 : frame w0 w1 -> run_id (f r0) = run_id r0 -> run_workflow_id (f r0) = run_workflow_id r0 ->
  run_org_id (f r0) = run_org_id r0 -> terminal_run (f r0) -> left_behind wf w (recorded (next_run w) f w1).
Proof.
  intros [F1 F2 F3 F4 F5 F6] G1 G2 G3 Ht. destruct Hrow as (H1 & H2 & H3). simpl in *. split; simpl; try done; try congruence.
  exists (f r0). rewrite F2, G1, G2, G3. split; [by apply finish_last|]. split_and!; [done..|by right].
Qed.
Lemma left_cut b : cut_short wf (next_run w) w0 b -> left_behind wf w b.
Proof.
  intros [Hf|(status & steps & w1 & -> & Hf & He)]; [by apply left_running|]. apply left_finished; try done.
  split; [|done]. simpl. destruct He as [(-> & _)|[_ Hl]]; [by left|right; by eapply logged_status].
Qed.
End one_run.

Lemma finish_dead rid f wf status b s : dead b s ->
  exists s', (run! finish_run store rid f; update_workflow_stats store now wf status) s = (Raise PendingRollbackError, s') /\ dead b s'.
Proof.
  intros [Hh Hb].
  exists (mkSession (with_runs (update_where (fun r => (run_id r =? rid)%Z) f (runs (sess_db s))) (next_run (sess_db s)) (sess_db s)) (sess_base s)).
  split; [|by split]. apply run_fails. unfold finish_run. rewrite run_modify. unfold commit_all. rewrite run_get. simpl. by rewrite Hh.
Qed.

Lemma run_workflow_run wf trigger s :
  Forall (fun x => (run_id x < next_run (sess_db s))%Z) (runs (sess_db s)) -> health (sess_db s) = Fine ->
  let out := run_workflow post multi_fernet store now wf trigger s in
  (exists w' r, out = (Ok (next_run (sess_db s)), clean w') /\ ran wf (sess_db s) w' r /\ health w' = Fine) \/
  (exists e b, fst out = Raise e /\ trouble /\ dead b (snd out) /\ (b = sess_base s \/ left_behind wf (sess_db s) b)).
Proof.
  intros Hlt Hfine out. unfold out, run_workflow. clear out. mrun. set (w := sess_db s) in *. set (r0 := mkRun _ _ _ _ _ _ _ _ _).
  set (s0 := mkSession _ (sess_base s)).
  destruct (commit_cases s0) as [[E _]|(e & E & Ht & Hd)]; [by intros []| |].
  2: { right. destruct (commit_all store s0) as [o s1] eqn:Ec. cbn in E, Hd. subst o. rewrite (run_fails _ _ _ _ _ Ec).
       exists e, (sess_base s). split; [done|]. split; [done|]. split; [exact Hd|]. by left. }
  rewrite (run_ok _ _ _ _ _ E). clear E. set (w0 := in_state Fine false (sess_db s0)).
  destruct (run_body_cases wf (next_run w) w0 eq_refl)
    as [(e & H & [Hf Hh] & Hb & Hv)|[(status & steps & w1 & H & Hf & He)|(e & b & H & Ht & Hd & Hc)]].
  - destruct (run_body post multi_fernet store now wf (next_run w) (clean w0)) as [o s1] eqn:Eb. simpl in H, Hf, Hh, Hb. subst o.
    destruct (finish_step (wf_id wf) (next_run w) "error" (errored now (exn_text e)) s1 Hh) as [E|(e' & E & Ht & Hd)].
    + left. eexists _, (errored now (exn_text e) r0). split.
      * erewrite run_ok; [reflexivity|]. erewrite try_fails by exact Eb. exact E.
      * split; [|done]. apply ran_finished; try done. right. right. split; [done|]. split; [by eexists|exact Hv].
    + right. destruct ((run! _; _) s1) as [o s2] eqn:E2 in E, Hd. cbn in E, Hd. subst o.
      rewrite (run_fails _ _ _ e' s2) by (erewrite try_fails by exact Eb; exact E2).
      exists e'. destruct Hd as [Hd|Hd]; eexists; (split; [done|]; split; [done|]; split; [exact Hd|]; right).
      * by apply (left_running wf w r0).
      * apply (left_finished wf w r0); try done. split; [auto|done].
  - left. eexists _, (ended now status steps r0). split.
    + erewrite run_ok; [reflexivity|]. by erewrite try_ok by exact H.
    + split; [|done]. apply ran_finished; try done. destruct He as [(-> & H1 & H2 & H3 & Hv)|[Hv Hl]].
      * by left.
      * right. left. split; [done|]. split; [exact Hv|exact Hl].
  - right. destruct (run_body post multi_fernet store now wf (next_run w) (clean w0)) as [o s1] eqn:Eb. simpl in H, Hd. subst o.
    destruct (finish_dead (next_run w) (errored now (exn_text e)) (wf_id wf) "error" b s1 Hd) as (s2 & E2 & Hd2).
    rewrite (run_fails _ _ _ PendingRollbackError s2) by (erewrite try_fails by exact Eb; exact E2).
    eexists _, b. split; [done|]. split; [done|]. split; [exact Hd2|]. right. by apply (left_cut wf w r0).
Qed.
(** ** The workflows of a trigger *)

(** The rows a dispatch of [l] adds. *)
Record fired_runs (l : list Workflow) (w w' : World) (new : list WorkflowRun) : Prop := {
  t_runs : runs w' = runs w ++ new;
  t_ids : map run_workflow_id new = map wf_id l /\ map run_org_id new = map wf_org_id l;
  t_done : Forall terminal_run new;
  t_others : forall x, In x (workflows w) -> wf_id x ∉ map wf_id l -> In x (workflows w');
  t_entity : forall k, k <> "enrichment_concepts" -> dict_get k (entity w') = dict_get k (entity w)
}.

Lemma fire_each_run trigger l acc s : (trouble -> False) ->
  Forall (fun x => (run_id x < next_run (sess_db s))%Z) (runs (sess_db s)) -> health (sess_db s) = Fine ->
  exists s' new, fire_each post multi_fernet store now trigger l acc s = (Ok (acc ++ map run_id new), s') /\
    fired_runs l (sess_db s) (sess_db s') new.
Proof.
  intros Hno. revert acc s. induction l as [|wf l IH]; intros acc s Hlt Hh; simpl.
  - exists s, []. rewrite app_nil_r. split; [done|]. split; try done. by rewrite app_nil_r.
  - destruct (run_workflow_run wf (Some trigger) s Hlt Hh) as [(w1 & r & Hr & Hran & Hh1)|(_ & _ & _ & Ht & _)]; [|by exfalso; auto].
    rewrite (run_ok _ _ _ (acc ++ [next_run (sess_db s)]) (clean w1)).
    2: { apply try_ok. by rewrite (run_ok _ _ _ _ _ Hr). }
    pose proof (ran_terminal _ _ _ _ Hran) as Hterm. destruct Hran as [Hruns Hnext (Hid & Hwf & Horg) _ Hst Hf _].
    destruct (IH (acc ++ [next_run (sess_db s)]) (clean w1)) as (s' & new & H & [T1 [T2 T2'] T3 T4 T5]); [|exact Hh1|].
    + simpl. rewrite Hruns, Hnext. apply Forall_app. split; [|apply Forall_singleton; lia].
      eapply Forall_impl; [exact Hlt|]. simpl. lia.
    + exists s', (r :: new). rewrite H. simpl. rewrite <- (assoc_L (++)), Hid. split; [done|]. split.
      * rewrite T1. simpl. by rewrite Hruns, <- (assoc_L (++)).
      * simpl. by rewrite T2, T2', Hwf, Horg.
      * by constructor.
      * intros x Hx [Hne Hnl]%not_elem_of_cons. apply T4; [|done]. simpl. rewrite Hst.
        pose proof (update_where_in (fun y => (wf_id y =? wf_id wf)%Z) (counted now (run_status r)) _ x Hx) as Hu.
        simpl in Hu. by rewrite (proj2 (Z.eqb_neq _ _) Hne) in Hu.
      * intros k Hk. rewrite T5 by done. destruct Hf as [_ _ _ Hf _ _]. by apply Hf.
Qed.
End engine.

(** The organisation column value of the entity's scope. *)
Definition owner (e : Entity) : option Z :=
  match attr "org_id" e with JInt o => persisted_org_id (Some o) | _ => None end.
Definition triggered (trigger : string) (w : World) : list Workflow :=
  List.filter (fun x => bool_decide (trigger_type x = trigger) && wf_is_active x &&
                        bool_decide (wf_org_id x = owner (entity w))) (workflows w).

Lemma scope_triggered w trigger :
  scope_query_to_org workflow_model
    (List.filter (fun x => bool_decide (trigger_type x = trigger) && wf_is_active x) (workflows w))
    (match attr "org_id" (entity w) with JInt o => Some o | _ => Some LEGACY_GLOBAL_ORG_ID end)
  = Ok (triggered trigger w).
Proof.
  assert (H : forall o, scope_query_to_org workflow_model
      (List.filter (fun x => bool_decide (trigger_type x = trigger) && wf_is_active x) (workflows w)) (Some o)
      = Ok (List.filter (fun x => bool_decide (trigger_type x = trigger) && wf_is_active x &&
                          bool_decide (wf_org_id x = persisted_org_id (Some o))) (workflows w))).
  { intros o. unfold scope_query_to_org, persisted_org_id. simpl. destruct (is_legacy_global_scope (Some o)); f_equal;
      induction (workflows w) as [|x l IH]; simpl; try done;
      destruct (bool_decide (trigger_type x = trigger) && wf_is_active x); simpl; try done; rewrite IH;
      destruct (wf_org_id x) as [z|]; simpl; repeat case_bool_decide; try done; try congruence;
      destruct (Z.eqb_spec z o); congruence. }
  unfold triggered, owner. destruct (attr "org_id" (entity w)); apply H.
Qed.

(** * Claims *)

(** C29: What a workflow run leaves, whatever the stored conditions and actions
    are and whatever the outside answers, on a session in order. Either the call
    returns, with exactly one new, finished row committed and the run counted
    once: the row is skipped, with no effect at all, exactly when both texts
    decode and the conditions fail; it is the sum of one logged result per
    action when they hold; any exception is recorded on it; and the actions
    change nothing but the entity's concepts, the channels' delivery fields and
    the requests sent. Or the call raises, which needs a flush the database
    refuses or a statement that fails in it (a text it cannot store, a channel
    id it cannot compare): the session is then out of order, and what is
    committed is either what was committed before the call, or, within the same
    frame, one new row that is still running, or finished but not counted. *)
Theorem workflow_run_total post multi_fernet store now wf trigger (s : Session World) :
  Forall (fun x => (run_id x < next_run (sess_db s))%Z) (runs (sess_db s)) -> health (sess_db s) = Fine ->
  let out := run_workflow post multi_fernet store now wf trigger s in
  (exists w' r, out = (Ok (next_run (sess_db s)), clean w') /\ ran now wf (sess_db s) w' r /\ terminal_run now r /\
     health w' = Fine) \/
  (exists e, fst out = Raise e /\ trouble store /\ health (sess_db (snd out)) = Deactivated /\
     (sess_base (snd out) = sess_base s \/ left_behind now wf (sess_db s) (sess_base (snd out)))).
Proof.
  intros H Hh out. destruct (run_workflow_run post multi_fernet store now wf trigger s H Hh)
    as [(w' & r & Hr & Hran & Hh')|(e & b & He & Ht & [Hd <-] & Hb)].
  - left. exists w', r. split; [done|]. split; [done|]. split; [by eapply ran_terminal|done].
  - right. by exists e.
Qed.

(** On a database that refuses nothing, a trigger runs exactly the active
    workflows of that trigger in the entity's own organisation (those without an
    organisation for an entity without one), each once and in order, every run
    finished, whatever any of them does; the workflows of other tenants are not
    touched. *)
Theorem trigger_runs_exact post multi_fernet store now trigger (s : Session World) :
  (trouble store -> False) ->
  Forall (fun x => (run_id x < next_run (sess_db s))%Z) (runs (sess_db s)) -> health (sess_db s) = Fine ->
  exists s' new, fire_trigger post multi_fernet store now trigger s = (Ok (map run_id new), s') /\
    fired_runs now (triggered trigger (sess_db s)) (sess_db s) (sess_db s') new /\
    Forall (fun r => run_org_id r = owner (entity (sess_db s))) new.
Proof.
  intros Hno Hlt Hh. unfold fire_trigger. destruct (read_fine s Hh) as [ld E]. rewrite (run_ok _ _ _ _ _ E).
  set (s1 := mkSession _ (sess_base s)). rewrite (run_ok _ _ _ tt s1) by done. mrun.
  rewrite (scope_triggered (sess_db s1)). mrun.
  destruct (fire_each_run post multi_fernet store now
    (JObj [("trigger", JStr trigger); ("entity_id", attr "id" (entity (sess_db s)))])
    (triggered trigger (sess_db s)) [] s1 Hno Hlt eq_refl) as (s' & new & H & [F1 F2 F3 F4 F5]).
  exists s', new. split; [exact H|]. split; [done|].
  assert (Hall : Forall (fun o => o = owner (entity (sess_db s))) (map wf_org_id (triggered trigger (sess_db s)))).
  { rewrite Forall_forall. intros o (x & <- & Hx)%list_elem_of_In%in_map_iff.
    apply filter_In in Hx as [_ Hx]. apply andb_prop in Hx as [_ Hx]. by apply bool_decide_eq_true in Hx. }
  rewrite <- (proj2 F2) in Hall. clear -Hall. induction new as [|r new IH]; [constructor|].
  apply Forall_cons in Hall as [H1 H2]. constructor; [done|]. by apply IH.
Qed.

(** * Witnesses *)

Definition wf_day : DateTime := mkDateTime 2026 4 1 8 0 0 0.
Definition dq (s : string) : json := JStr s.
Definition tag_action : json := JObj [("type", dq "tag_entity"); ("config", JObj [("tag", dq "new")])].
Definition alert_action : json := JObj [("type", dq "send_alert"); ("config", JObj [("channel_id", JInt 5)])].
Definition label_condition : json :=
  JObj [("type", dq "field_equals"); ("field", dq "domain"); ("value", dq " Science ")].
Definition demo_workflow (i org : Z) : Workflow :=
  mkWorkflow i (Some org) true "entity.created" (Some (dumps false (JArr [label_condition])))
    (Some (dumps false (JArr [tag_action; alert_action; JInt 3]))) None None None.
Definition demo_world : World :=
  mkWorld [("id", JInt 1); ("org_id", JInt 7); ("domain", dq "science"); ("primary_label", dq "Ada")]
    [demo_workflow 1 7; demo_workflow 2 8; demo_workflow 3 7] [] 1
    [mkChannel 5 (Some 8%Z) true "https://hooks.example/8" None None None] [] Fine true.
Definition demo_post (_ : list (json * json)) (_ _ : json) : res (bool * Z) := Ok (true, 200%Z).
(** Two databases that refuse nothing and one that does not take a text for an id. *)
Definition demo_store : Store := mkStore (fun _ => None) (fun v => match v with JInt z => Equals z | _ => Nothing end).
Definition strict_store : Store :=
  mkStore (fun _ => None) (fun v => match v with JInt z => Equals z | _ => Fails (Exn "DataError" "invalid input syntax for type integer") true end).

Lemma workflow_run_total_witness :
  exists w' r, run_workflow demo_post None demo_store wf_day (demo_workflow 1 7) None (clean demo_world) = (Ok 1%Z, clean w') /\
    runs w' = [r] /\ run_status r = "error" /\ attr "enrichment_concepts" (entity w') = dq "new".
Proof.
  destruct (workflow_run_total demo_post None demo_store wf_day (demo_workflow 1 7) None (clean demo_world))
    as [(w' & r & H & Hran & _)|(e & He & _)]; [constructor|done| |].
  - exists w', r. split; [exact H|]. destruct Hran as [Hruns _ _ _ _ _ _]. revert H. vm_compute. intros [= <-].
    revert Hruns. vm_compute. intros [= <-]. done.
  - exfalso. revert He. by vm_compute.
Defined.

Lemma trigger_runs_exact_witness :
  exists s' new, fire_trigger demo_post None demo_store wf_day "entity.created" (clean demo_world) = (Ok [1; 2]%Z, s') /\
    map run_workflow_id new = [1; 3]%Z /\ In (demo_workflow 2 8) (workflows (sess_db s')).
Proof.
  destruct (trigger_runs_exact demo_post None demo_store wf_day "entity.created" (clean demo_world))
    as (s' & new & H & [_ [Hids _] _ Hothers _] & _); [|constructor|done|].
  { intros [(w & e & [=])|(v & e & b & Hb)]. by destruct v. }
  exists s', new. split; [|split; [exact Hids|apply Hothers]].
  - rewrite H. f_equal. revert H. vm_compute. by intros [= ->].
  - simpl. tauto.
  - by apply (bool_decide_unpack _).
Defined.

(** A run whose alert names its channel by a text the database does not take for
    a number: the statement fails inside the action, which logs it, but the
    transaction is aborted, so the commit of the finished run fails too, the
    exception handler's commit after it, and the trigger raises. The run stays
    committed as running. *)
Definition text_alert : Workflow :=
  mkWorkflow 1 (Some 7%Z) true "entity.created" None
    (Some (dumps false (JArr [JObj [("type", dq "send_alert"); ("config", JObj [("channel_id", dq "ops")])]]))) None None None.
Lemma aborted_run_stays_running :
  let w := with_workflows [text_alert; demo_workflow 3 7] demo_world in
  let out := fire_trigger demo_post None strict_store wf_day "entity.created" (clean w) in
  fst out = Raise PendingRollbackError /\ health (sess_db (snd out)) = Deactivated /\
  map (fun r => (run_workflow_id r, run_status r, run_completed_at r)) (runs (sess_base (snd out))) = [(1%Z, "running", None)] /\
  map run_count (workflows (sess_base (snd out))) = [None; None].
Proof. by vm_compute. Qed.

(** The alert action does not look at organisations: a workflow of one tenant
    fires another tenant's channel. *)
Lemma alert_crosses_tenants :
  let s := snd (dispatch_action demo_post None demo_store wf_day alert_action (clean demo_world)) in
  map (fun c => (ch_org_id c, total_fired c)) (channels (sess_db s)) = [(Some 8%Z, Some 1%Z)] /\
  outbox (sess_db s) = [(dq "https://hooks.example/8",
                         JObj [("text", dq "Workflow triggered for entity: Ada"); ("entity_id", JInt 1)])].
Proof. by vm_compute. Qed.
