(* ===== verification/LayerBoundaries.v ===== *)
(** [backend/services/layer_boundaries.py]: the layers of an entity's fields,
    and what each kind of update may write. An entity is a dict of JSON values. *)
From S2P Require Import Prelude PyStr PyJson.
Open Scope string_scope.
Open Scope list_scope.
Local Open Scope py_scope.

Definition fields : Type := list (string * json).

Record LayerSnapshot := mkLayers { l_source : fields; l_enrichment : fields; l_canonical : fields; l_authority : fields }.
Definition to_dict (s : LayerSnapshot) : list (string * fields) :=
  [("source", l_source s); ("enrichment", l_enrichment s); ("canonical", l_canonical s); ("authority", l_authority s)].

Definition ENRICHMENT_FIELDS : list string :=
  ["enrichment_doi"; "enrichment_citation_count"; "enrichment_concepts"; "enrichment_source";
   "enrichment_status"; "enrichment_failure_reason"; "quality_score"; "normalized_json"].
Definition CANONICAL_FIELDS : list string := ["canonical_id"].
Definition AUTHORITY_FIELDS : list string :=
  ["authority_source"; "authority_id"; "canonical_label"; "confidence"; "resolution_status";
   "score_breakdown"; "evidence"; "merged_sources"].

Definition classify_layer (field_name : string) : string :=
  if bool_decide (field_name ∈ AUTHORITY_FIELDS) then "authority"
  else if bool_decide (field_name ∈ CANONICAL_FIELDS) then "canonical"
  else if bool_decide (field_name ∈ ENRICHMENT_FIELDS) then "enrichment"
  else "source".

Definition add_field (s : LayerSnapshot) (kv : string * json) : LayerSnapshot :=
  let '(key, value) := kv in
  let layer := classify_layer key in
  if bool_decide (layer = "authority") then
    mkLayers (l_source s) (l_enrichment s) (l_canonical s) (dict_set key value (l_authority s))
  else if bool_decide (layer = "canonical") then
    mkLayers (l_source s) (l_enrichment s) (dict_set key value (l_canonical s)) (l_authority s)
  else if bool_decide (layer = "enrichment") then
    mkLayers (l_source s) (dict_set key value (l_enrichment s)) (l_canonical s) (l_authority s)
  else mkLayers (dict_set key value (l_source s)) (l_enrichment s) (l_canonical s) (l_authority s).
Definition snapshot_entity (entity : fields) : LayerSnapshot :=
  fold_left add_field entity (mkLayers [] [] [] []).

(** A validator's messages: for each updated field, the refusal of its layer if
    the table has one. *)
Definition refusals (table : list (string * string)) (updates : fields) : list string :=
  omap (fun kv => option_map (fun prefix => prefix ++ " '" ++ kv.1 ++ "'")%string
                    (dict_get (classify_layer kv.1) table)) updates.

Definition validate_enrichment_apply (before : LayerSnapshot) (updates : fields) : list string :=
  refusals [("source", "Enrichment cannot overwrite source field");
            ("canonical", "Enrichment cannot overwrite canonical field");
            ("authority", "Enrichment cannot overwrite authority field")] updates.
Definition validate_authority_apply (before : LayerSnapshot) (updates : fields) : list string :=
  refusals [("enrichment", "Authority cannot overwrite enrichment field");
            ("source", "Authority cannot overwrite source field")] updates.
Definition validate_promotion (before : LayerSnapshot) (updates : fields) : list string :=
  refusals [("source", "Canonical promotion cannot destroy source field")] updates.
Definition validate_reingestion (before : LayerSnapshot) (new_source : fields) : list string :=
  refusals [("canonical", "Re-ingestion cannot overwrite canonical field");
            ("authority", "Re-ingestion cannot overwrite authority field")] new_source.

Definition clear_field (result : fields) (f : string) : fields :=
  match dict_get f result with Some _ => dict_set f JNull result | None => result end.
Definition safe_enrichment_rollback (entity : fields) : fields :=
  fold_left clear_field ENRICHMENT_FIELDS entity.

Definition validators : list (string * (LayerSnapshot -> fields -> list string)) :=
  [("enrichment", validate_enrichment_apply); ("authority", validate_authority_apply);
   ("promotion", validate_promotion); ("reingestion", validate_reingestion)].

Definition enforce_layer_boundaries (operation : string) (before : LayerSnapshot) (updates : fields) : res unit :=
  match dict_get operation validators with
  | None => Raise (Exn "ValueError" ("Unknown operation: " ++ operation))
  | Some validator =>
      match validator before updates with
      | [] => Ok tt
      | violations => Raise (Exn "LayerViolationError"
                        ("Layer boundary violation(s) in " ++ operation ++ ": " ++ join "; " violations))
      end
  end.

(** * Facts *)

Definition layer_of (name : string) (s : LayerSnapshot) : fields :=
  match dict_get name (to_dict s) with Some f => f | None => [] end.

Definition LAYERS : list string := ["source"; "enrichment"; "canonical"; "authority"].

Lemma classify_in f : classify_layer f ∈ LAYERS.
Proof. unfold classify_layer. repeat case_bool_decide; by apply (bool_decide_unpack _). Qed.

Lemma add_field_get s k v layer f : layer ∈ LAYERS ->
  dict_get f (layer_of layer (add_field s (k, v)))
  = if decide (k = f /\ classify_layer k = layer) then Some v else dict_get f (layer_of layer s).
Proof.
  intros Hl. pose proof (classify_in k) as Hk. unfold add_field, LAYERS in *.
  assert (Hset : forall (k f : string) (v : json) d,
            dict_get f (dict_set k v d) = if decide (k = f) then Some v else dict_get f d).
  { intros k0 f0 v0 d. case_decide; [subst; apply dict_get_set_eq|apply dict_get_set_ne; congruence]. }
  rewrite !elem_of_cons in Hl, Hk.
  destruct Hk as [Ek|[Ek|[Ek|[Ek|[]%elem_of_nil]]]]; rewrite Ek; simpl;
    destruct Hl as [->|[->|[->|[->|[]%elem_of_nil]]]]; unfold layer_of; simpl;
    rewrite ?Hset; repeat case_decide; naive_solver.
Qed.

Lemma snapshot_get entity s layer f : layer ∈ LAYERS -> NoDup (dict_keys entity) ->
  dict_get f (layer_of layer (fold_left add_field entity s))
  = match dict_get f entity with
    | Some v => if decide (classify_layer f = layer) then Some v else dict_get f (layer_of layer s)
    | None => dict_get f (layer_of layer s)
    end.
Proof.
  intros Hl. revert s. unfold dict_keys. induction entity as [|[k v] e IH]; intros s Hnd; [done|].
  cbn [fold_left dict_get map fst] in *. apply NoDup_cons in Hnd as [Hk Hnd]. rewrite IH by done. rewrite (add_field_get s k v layer f Hl).
  destruct (decide (f = k)) as [->|Hne].
  - rewrite (proj2 (dict_get_None k e)) by exact Hk. repeat case_decide; naive_solver.
  - destruct (dict_get f e); repeat case_decide; naive_solver.
Qed.

Lemma refusals_nil table updates :
  refusals table updates = [] <-> forall k v, In (k, v) updates -> dict_get (classify_layer k) table = None.
Proof.
  unfold refusals. induction updates as [|[k v] l IH]; simpl; [naive_solver|].
  destruct (dict_get (classify_layer k) table) eqn:E; simpl; [|rewrite IH]; naive_solver.
Qed.

Lemma rollback_get (fs : list string) (entity : fields) (f : string) :
  dict_get f (fold_left clear_field fs entity)
  = match dict_get f entity with Some v => Some (if decide (f ∈ fs) then JNull else v) | None => None end.
Proof.
  revert entity. induction fs as [|g fs IH]; intros entity; simpl.
  - by destruct (dict_get f entity).
  - rewrite IH. unfold clear_field. destruct (dict_get g entity) as [w|] eqn:Eg.
    + destruct (decide (f = g)) as [->|Hne].
      * rewrite dict_get_set_eq, Eg. f_equal. rewrite (decide_True (P := g ∈ g :: fs)) by by left. by case_decide.
      * rewrite dict_get_set_ne by done. destruct (dict_get f entity); [|done]. f_equal.
        repeat case_decide; try done; [exfalso|exfalso]; set_solver.
    + destruct (dict_get f entity) as [u|] eqn:Ef; [|done]. f_equal.
      repeat case_decide; try done; exfalso; set_solver.
Qed.

Lemma NoDup_keys_set (k : string) (v : json) (d : fields) : NoDup (dict_keys d) -> NoDup (dict_keys (dict_set k v d)).
Proof.
  intros H. rewrite dict_keys_set. case_decide; [done|]. apply NoDup_app. split; [done|]. split; [|apply NoDup_singleton].
  intros x Hx ->%list_elem_of_singleton. done.
Qed.
Lemma NoDup_keys_update (d e : fields) : NoDup (dict_keys d) -> NoDup (dict_keys (dict_update d e)).
Proof.
  unfold dict_update. revert d. induction e as [|[k v] e IH]; intros d Hd; simpl; [done|].
  by apply IH, NoDup_keys_set.
Qed.
Lemma dict_update_other (d e : fields) f : f ∉ dict_keys e -> dict_get f (dict_update d e) = dict_get f d.
Proof.
  unfold dict_update, dict_keys. revert d. induction e as [|[k v] e IH]; intros d Hn; simpl in *; [done|].
  apply not_elem_of_cons in Hn as [Hne Hn]. rewrite IH by done. by rewrite dict_get_set_ne.
Qed.

(** The layers an operation may not write. *)
Definition protected (operation : string) : list string :=
  match dict_get operation [("enrichment", ["source"; "canonical"; "authority"]); ("authority", ["enrichment"; "source"]);
                            ("promotion", ["source"]); ("reingestion", ["canonical"; "authority"])] with
  | Some l => l
  | None => []
  end.

Definition OPERATIONS : list string := ["enrichment"; "authority"; "promotion"; "reingestion"].

(** Each validator refuses exactly the fields of the protected layers. *)
Lemma enforce_spec operation before updates : operation ∈ OPERATIONS ->
  enforce_layer_boundaries operation before updates = Ok tt <->
  forall k v, In (k, v) updates -> classify_layer k ∉ protected operation.
Proof.
  intros Hop. unfold OPERATIONS in Hop. rewrite !elem_of_cons in Hop.
  destruct Hop as [->|[->|[->|[->|[]%elem_of_nil]]]]; unfold enforce_layer_boundaries, protected; simpl;
    [unfold validate_enrichment_apply|unfold validate_authority_apply|unfold validate_promotion
    |unfold validate_reingestion];
    match goal with |- context [refusals ?t updates] => pose proof (refusals_nil t updates) as H end;
    destruct (refusals _ updates); (split; [intros E|intros E]); try done;
    first [ intros k v Hin; pose proof (proj1 H eq_refl k v Hin) as Hg; by apply dict_get_None in Hg
          | exfalso; discriminate (proj2 H); intros k v Hin; apply dict_get_None; by eapply E ].
Qed.

Lemma enforce_total operation before updates : operation ∈ OPERATIONS ->
  enforce_layer_boundaries operation before updates = Ok tt \/
  exists msg, enforce_layer_boundaries operation before updates = Raise (Exn "LayerViolationError" msg).
Proof.
  intros Hop. unfold OPERATIONS in Hop. rewrite !elem_of_cons in Hop. unfold enforce_layer_boundaries.
  destruct Hop as [->|[->|[->|[->|[]%elem_of_nil]]]]; simpl; case_match; eauto.
Qed.

(** Layer boundaries hold: enforcement accepts an update exactly when it
    writes no field of a layer protected from that operation, and raises a
    violation otherwise; applying an accepted update leaves every protected
    layer of the entity as it was; a snapshot splits the entity's fields by
    layer without losing any; and rolling enrichment back clears exactly the
    enrichment fields that were there. *)
Theorem layers_enforced operation (entity updates : fields) before :
  operation ∈ OPERATIONS -> NoDup (dict_keys entity) ->
  (enforce_layer_boundaries operation before updates = Ok tt <->
     forall k v, In (k, v) updates -> classify_layer k ∉ protected operation) /\
  (enforce_layer_boundaries operation before updates = Ok tt \/
     exists msg, enforce_layer_boundaries operation before updates = Raise (Exn "LayerViolationError" msg)) /\
  (enforce_layer_boundaries operation before updates = Ok tt -> forall layer f,
     layer ∈ LAYERS -> layer ∈ protected operation ->
     dict_get f (layer_of layer (snapshot_entity (dict_update entity updates)))
     = dict_get f (layer_of layer (snapshot_entity entity))) /\
  (forall layer f, layer ∈ LAYERS ->
     dict_get f (layer_of layer (snapshot_entity entity))
     = if decide (classify_layer f = layer) then dict_get f entity else None) /\
  (forall f, dict_get f (safe_enrichment_rollback entity)
     = match dict_get f entity with
       | Some v => Some (if decide (f ∈ ENRICHMENT_FIELDS) then JNull else v)
       | None => None
       end).
Proof.
  intros Hop Hnd.
  assert (Hsnap : forall e layer f, layer ∈ LAYERS -> NoDup (dict_keys e) ->
            dict_get f (layer_of layer (snapshot_entity e)) = if decide (classify_layer f = layer) then dict_get f e else None).
  { intros e layer f Hl He. unfold snapshot_entity. rewrite snapshot_get by done.
    assert (Hempty : dict_get f (layer_of layer (mkLayers [] [] [] [])) = None).
    { unfold LAYERS in Hl. rewrite !elem_of_cons in Hl. by destruct Hl as [->|[->|[->|[->|[]%elem_of_nil]]]]. }
    rewrite Hempty. destruct (dict_get f e); by case_decide. }
  split; [by apply enforce_spec|]. split; [|split; [|split]].
  - by apply enforce_total.
  - intros Hok layer f Hl Hp. rewrite !Hsnap; try done; [|by apply NoDup_keys_update].
    case_decide as Hc; [|done]. apply dict_update_other. intros Hin.
    apply list_elem_of_In, in_map_iff in Hin as ([k v] & E & Hin). simpl in E. subst k.
    apply (proj1 (enforce_spec _ _ _ Hop) Hok f v Hin). by rewrite Hc.
  - intros layer f Hl. by apply Hsnap.
  - intros f. apply rollback_get.
Qed.

Lemma layers_enforced_witness :
  dict_get "primary_label"
    (layer_of "source" (snapshot_entity (dict_update [("primary_label", JStr "Ada"); ("canonical_id", JStr "c1")]
                                           [("enrichment_doi", JStr "10.1/x")]))) = Some (JStr "Ada").
Proof.
  destruct (layers_enforced "enrichment" [("primary_label", JStr "Ada"); ("canonical_id", JStr "c1")]
    [("enrichment_doi", JStr "10.1/x")] (mkLayers [] [] [] [])) as (_ & _ & H & _);
    [by apply (bool_decide_unpack _)..|].
  rewrite H; [reflexivity|reflexivity|by apply (bool_decide_unpack _)|by apply (bool_decide_unpack _)].
Defined.
