(* ===== verification/EntityMerge.v ===== *)
(** [merge_entities] of [backend/entity_linker.py] with its endpoint
    [link_merge] of [backend/routers/entities.py], and the merge endpoint of
    [backend/routers/entity_linker.py]: duplicate entities are merged into one
    under a strategy and deleted. An entity is its row; the merged columns are
    texts. The webhook after a merge is not modelled. *)
From S2P Require Import Prelude PyStr PyJson JobModel TenantAccess JobsApi.
Open Scope string_scope.
Open Scope list_scope.
Local Open Scope py_scope.

Record RawEntity := mkEntity {
  e_id : Z; e_org_id : option Z;
  e_fields : list (string * string);        (* the text columns that are not NULL *)
  enrichment_citation_count : option Z; enrichment_status : option string
}.

Definition entity_model : Model RawEntity := mkModel "UniversalEntity" e_id (Some e_org_id).

Definition MERGE_FIELDS : list string :=
  ["primary_label"; "secondary_label"; "canonical_id"; "entity_type"; "domain"; "validation_status";
   "enrichment_doi"; "enrichment_concepts"; "enrichment_source"].

(** A falsy column: NULL or the empty text. *)
Definition present (v : option string) : option string :=
  match v with Some s => if truthy s then Some s else None | None => None end.

(** The inner loop over the secondaries for one field, with the value that was
    last set. *)
Fixpoint merge_field (strategy : string) (primary_val : option string) (secs : list (option string)) : option string :=
  match secs with
  | [] => primary_val
  | sec :: rest =>
      match present sec with
      | None => merge_field strategy primary_val rest
      | Some sec_val =>
          if bool_decide (strategy = "keep_primary") then primary_val
          else if bool_decide (strategy = "keep_non_empty") then
            merge_field strategy (match present primary_val with None => Some sec_val | Some _ => primary_val end) rest
          else if bool_decide (strategy = "keep_longest") then
            let old := match present primary_val with Some s => s | None => "" end in
            merge_field strategy
              (if (Nat.ltb (String.length old) (String.length sec_val)) then Some sec_val else primary_val) rest
          else merge_field strategy primary_val rest
      end
  end.

Definition merge_fields (strategy : string) (secs : list RawEntity) (fields : list (string * string))
  : list (string * string) :=
  fold_left (fun acc f =>
    match merge_field strategy (dict_get f acc) (map (fun s => dict_get f (e_fields s)) secs) with
    | Some v => dict_set f v acc
    | None => acc
    end) MERGE_FIELDS fields.

Definition count_or_0 (o : option Z) : Z := match o with Some z => z | None => 0%Z end.
Definition max_citations (primary : RawEntity) (secs : list RawEntity) : Z :=
  fold_left Z.max (map (fun s => count_or_0 (enrichment_citation_count s)) secs)
    (count_or_0 (enrichment_citation_count primary)).

Definition merged (strategy : string) (primary : RawEntity) (secs : list RawEntity) : RawEntity :=
  mkEntity (e_id primary) (e_org_id primary) (merge_fields strategy secs (e_fields primary))
    (Some (max_citations primary secs))
    (if bool_decide (Some "completed" ∈ enrichment_status primary :: map enrichment_status secs)
     then Some "completed" else enrichment_status primary).

Record MergeDb := mkMergeDb { entities : list RawEntity; audits : list AuditLog }.
Definition on_entities (f : list RawEntity -> list RawEntity) (d : MergeDb) : MergeDb :=
  mkMergeDb (f (entities d)) (audits d).
Definition add_audit_row (a : AuditLog) (d : MergeDb) : MergeDb := mkMergeDb (entities d) (audits d ++ [a]).

Definition find_entity (i : Z) (l : list RawEntity) : option RawEntity := List.find (fun e => (e_id e =? i)%Z) l.
Definition delete_ids (ids : list Z) (l : list RawEntity) : list RawEntity :=
  List.filter (fun e => negb (bool_decide (e_id e ∈ ids))) l.
Definition replace_entity (new : RawEntity) (l : list RawEntity) : list RawEntity :=
  update_where (fun e => (e_id e =? e_id new)%Z) (fun _ => new) l.

(** [db.refresh] re-reads the row. *)
Definition refresh (i : Z) : M MergeDb RawEntity :=
  do! d <- mget;
  match find_entity i (entities d) with
  | Some e => mret e
  | None => mraise (Exn "InvalidRequestError" "Could not refresh instance")
  end.

Definition merge_entities (primary_id : Z) (secondary_ids : list Z) (strategy : string) (org_id : option Z)
  : M MergeDb RawEntity :=
  do! d <- mget;
  do! scoped <- mlift (scope_query_to_org entity_model (entities d) org_id);
  match find_entity primary_id scoped with
  | None => mraise (Exn "ValueError" ("Primary entity " ++ str_of_Z primary_id ++ " not found"))
  | Some primary =>
      let secondaries := List.filter (fun e => bool_decide (e_id e ∈ secondary_ids)) scoped in
      if bool_decide (map e_id secondaries = []) then mraise (Exn "ValueError" "No secondary entities found")
      else
        run! mmodify (on_entities (replace_entity (merged strategy primary secondaries)));
        run! mmodify (on_entities (delete_ids (map e_id secondaries)));
        run! commit;
        refresh primary_id
  end.

Definition MERGE_ROLES : list string := ["super_admin"; "admin"; "editor"].

(** [POST /entities/link/merge] *)
Definition link_merge (tenants : Tenants) (current_user : User) (primary_id : Z) (secondary_ids : list Z)
    (strategy : string) : M MergeDb RawEntity :=
  do! _ <- mlift (require_role MERGE_ROLES current_user);
  do! org_id <- mlift (resolve_request_org_id tenants current_user true true);
  if bool_decide (primary_id ∈ secondary_ids) then
    mraise (HTTPException 400 "primary_id cannot also appear in secondary_ids")
  else
    do! e <- mtry (merge_entities primary_id secondary_ids strategy org_id)
              (fun exc => match exc with
                          | Exn t msg => if bool_decide (t = "ValueError") then mraise (HTTPException 404 msg) else mraise exc
                          | _ => mraise exc
                          end);
    run! mmodify (add_audit_row (mkAudit "entity.merge" "entity" primary_id (Some (user_id current_user))
           (dumps false (JObj [("secondary_ids", JArr (map (fun i => JInt i) secondary_ids)); ("strategy", JStr strategy);
                               ("deleted", JInt (Z.of_nat (length secondary_ids)))]))));
    run! commit;
    mret e.

(** [POST /linker/merge]: the entities are loaded by key alone. *)
Definition fill_field (loser : RawEntity) (acc : list (string * string)) (f : string) : list (string * string) :=
  match present (dict_get f acc), present (dict_get f (e_fields loser)) with
  | None, Some v => dict_set f v acc
  | _, _ => acc
  end.
Definition absorbed (winner loser : RawEntity) : RawEntity :=
  let adopt := negb (bool_decide (enrichment_status winner = Some "completed")) &&
               bool_decide (enrichment_status loser = Some "completed") in
  mkEntity (e_id winner) (e_org_id winner) (fold_left (fill_field loser) MERGE_FIELDS (e_fields winner))
    (if adopt then enrichment_citation_count loser else enrichment_citation_count winner)
    (if adopt then enrichment_status loser else enrichment_status winner).

Definition linker_merge (current_user : User) (winner_id loser_id : Z) : M MergeDb RawEntity :=
  do! _ <- mlift (require_role MERGE_ROLES current_user);
  if (winner_id =? loser_id)%Z then mraise (HTTPException 422 "winner_id and loser_id must differ")
  else
    do! d <- mget;
    match find_entity winner_id (entities d), find_entity loser_id (entities d) with
    | None, _ => mraise (HTTPException 404 ("Entity " ++ str_of_Z winner_id ++ " not found"))
    | _, None => mraise (HTTPException 404 ("Entity " ++ str_of_Z loser_id ++ " not found"))
    | Some winner, Some loser =>
        run! mmodify (on_entities (replace_entity (absorbed winner loser)));
        run! mmodify (add_audit_row (mkAudit "MERGE" "entity" winner_id (Some (user_id current_user))
               (dumps false (JObj [("absorbed", JInt loser_id)]))));
        run! mmodify (on_entities (delete_ids [loser_id]));
        run! commit;
        refresh winner_id
    end.

(** * Facts *)

(** What a strategy makes of one field. *)
Definition field_spec (strategy : string) (old : option string) (secs : list (option string)) (new : option string) : Prop :=
  (strategy = "keep_primary" -> new = old) /\
  (strategy = "keep_non_empty" ->
     new = match present old with
           | Some _ => old
           | None => match omap present secs with v :: _ => Some v | [] => old end
           end) /\
  (strategy = "keep_longest" ->
     (new = old \/ exists v, new = Some v /\ In (Some v) secs) /\
     forall v, In (Some v) (old :: secs) -> (String.length v <= match new with Some s => String.length s | None => 0 end)%nat).

Lemma present_Some v s : present v = Some s -> v = Some s /\ s <> "".
Proof. unfold present, truthy. destruct v as [x|]; [|done]. case_bool_decide; simpl; [done|]. by intros [= <-]. Qed.
Lemma present_None v : present v = None -> v = None \/ v = Some "".
Proof. unfold present, truthy. destruct v as [x|]; [|by left]. case_bool_decide; simpl; [subst; by right|done]. Qed.

Definition text_length (v : option string) : nat := match v with Some s => String.length s | None => 0 end.
Lemma present_length v : String.length (match present v with Some s => s | None => "" end) = text_length v.
Proof.
  destruct (present v) as [x|] eqn:E; [by apply present_Some in E as [-> _]|].
  by apply present_None in E as [->| ->].
Qed.

Lemma merge_keep_primary old secs : merge_field "keep_primary" old secs = old.
Proof. induction secs as [|x l IH]; simpl; [done|]. by destruct (present x). Qed.
Lemma merge_keep_non_empty old secs :
  merge_field "keep_non_empty" old secs
  = match present old with Some _ => old | None => match omap present secs with v :: _ => Some v | [] => old end end.
Proof.
  revert old. induction secs as [|s l IH]; intros old; simpl; [by destruct (present old)|].
  destruct (present s) as [v|] eqn:E; [|by rewrite IH].
  rewrite IH. destruct (present old) eqn:Eo; [by rewrite Eo|].
  apply present_Some in E as E'. destruct E' as [-> _]. by rewrite E.
Qed.
Lemma merge_keep_longest old secs :
  let new := merge_field "keep_longest" old secs in
  (new = old \/ exists v, new = Some v /\ In (Some v) secs) /\
  (text_length old <= text_length new)%nat /\
  forall v, In (Some v) secs -> (String.length v <= text_length new)%nat.
Proof.
  revert old. induction secs as [|s l IH]; intros old; simpl; [split_and!; [by left|lia|done]|].
  destruct (present s) as [v|] eqn:E.
  - apply present_Some in E as [-> Hv]. rewrite present_length.
    destruct (Nat.ltb_spec (text_length old) (String.length v)) as [Hlt|Hge].
    + destruct (IH (Some v)) as (H1 & H2 & H3). simpl in H2. split; [|split].
      * right. destruct H1 as [->|(w & -> & Hw)]; [exists v|exists w]; auto.
      * lia.
      * intros w [[= <-]|Hw]; auto.
    + destruct (IH old) as (H1 & H2 & H3). split; [|split; [done|]].
      * destruct H1 as [->|(w & -> & Hw)]; [by left|right; exists w; auto].
      * intros w [[= <-]|Hw]; [lia|auto].
  - destruct (IH old) as (H1 & H2 & H3). split; [|split; [done|]].
    + destruct H1 as [->|(w & -> & Hw)]; [by left|right; exists w; auto].
    + intros w [->|Hw]; [|auto]. apply present_None in E as [[=]|[= ->]]. simpl. lia.
Qed.

Lemma merge_field_spec strategy old secs : field_spec strategy old secs (merge_field strategy old secs).
Proof.
  split; [|split]; intros ->; [apply merge_keep_primary|apply merge_keep_non_empty|].
  destruct (merge_keep_longest old secs) as (H1 & H2 & H3). split; [done|].
  intros v [->|Hv]; [exact H2|by apply H3].
Qed.

(** Each field is merged on its own: no field occurs twice. *)
Lemma merge_fields_get strategy secs fields f :
  dict_get f (merge_fields strategy secs fields)
  = if decide (f ∈ MERGE_FIELDS)
    then merge_field strategy (dict_get f fields) (map (fun s => dict_get f (e_fields s)) secs)
    else dict_get f fields.
Proof.
  unfold merge_fields. assert (Hnd : NoDup MERGE_FIELDS) by by apply (bool_decide_unpack _).
  assert (Hkeep : forall old secs, merge_field strategy old secs = None -> old = None).
  { intros old l. revert old. induction l as [|s l IH]; intros old; simpl; [done|].
    destruct (present s); [|by intros ?%IH].
    repeat case_bool_decide; try done; intros ?%IH; destruct old; try done; by case_match. }
  revert fields. induction MERGE_FIELDS as [|g gs IH]; intros fields; simpl; [done|].
  apply NoDup_cons in Hnd as [Hg Hnd]. rewrite IH by done.
  set (fields' := match merge_field _ _ _ with Some v => _ | None => _ end).
  assert (Hf : dict_get f fields' = if decide (f = g)
             then merge_field strategy (dict_get f fields) (map (fun s => dict_get f (e_fields s)) secs)
             else dict_get f fields).
  { unfold fields'. clear fields' Hg IH. destruct (decide (f = g)) as [->|E].
    - destruct (merge_field _ _ _) eqn:Em; [by rewrite dict_get_set_eq|by apply Hkeep in Em].
    - case_match; [by rewrite dict_get_set_ne|done]. }
  clearbody fields'.
  rewrite Hf. destruct (decide (f = g)) as [->|Hne].
  - rewrite (decide_False (P := g ∈ gs)) by done. by rewrite decide_True by by left.
  - destruct (decide (f ∈ gs)); [by rewrite decide_True by by right|].
    by rewrite decide_False by (rewrite not_elem_of_cons; done).
Qed.

(** The rows of the caller's scope. *)
Definition in_org (org : option Z) (e : RawEntity) : Prop :=
  match org with
  | None => True
  | Some o => if is_legacy_global_scope org then e_org_id e = None else e_org_id e = Some o
  end.

Lemma max_citations_spec p secs :
  (count_or_0 (enrichment_citation_count p) <= max_citations p secs)%Z /\
  forall s, In s secs -> (count_or_0 (enrichment_citation_count s) <= max_citations p secs)%Z.
Proof.
  unfold max_citations. generalize (count_or_0 (enrichment_citation_count p)) as a.
  induction secs as [|s l IH]; intros a; simpl; [split; [lia|done]|].
  destruct (IH (a `max` count_or_0 (enrichment_citation_count s))%Z) as [H1 H2].
  split; [lia|]. intros x [->|Hx]; [lia|auto].
Qed.

(** The merge of one scope's rows. *)
Definition merge_effect (org : option Z) (p : Z) (secs : list Z) (strategy : string) (l l' : list RawEntity)
    (m : RawEntity) : Prop :=
  exists primary ss, In primary l /\ in_org org primary /\ e_id primary = p /\ ss <> [] /\
    (forall e, In e ss <-> In e l /\ in_org org e /\ e_id e ∈ secs) /\
    m = merged strategy primary ss /\
    forall e, In e l' <-> e = m \/ (In e l /\ e_id e <> p /\ ~ (in_org org e /\ e_id e ∈ secs)).

Lemma in_scoped org l scoped e :
  scope_query_to_org entity_model l org = Ok scoped -> In e scoped <-> In e l /\ in_org org e.
Proof. intros H. apply (scope_query_in entity_model e_org_id l org scoped e); done. Qed.

Lemma merge_entities_run p secs strategy org s :
  NoDup (map e_id (entities (sess_db s))) -> p ∉ secs ->
  let out := merge_entities p secs strategy org s in
  (exists e, out = (Raise e, s)) \/
  (exists m l', out = (Ok m, clean (mkMergeDb l' (audits (sess_db s)))) /\
     merge_effect org p secs strategy (entities (sess_db s)) l' m).
Proof.
  intros Hnd Hp out. unfold out, merge_entities. clear out. set (l := entities (sess_db s)) in *. mrun. fold l.
  destruct (scope_query_to_org entity_model l org) as [scoped|e] eqn:Hs; mrun; [|left; eauto].
  destruct (find_entity p scoped) as [primary|] eqn:Hf; [|left; eauto].
  set (ss := List.filter _ scoped). case_bool_decide as Hss; [left; eauto|]. right.
  apply find_some in Hf as [Hin Hid%Z.eqb_eq]. apply (in_scoped org l scoped) in Hin as [Hin Hown]; [|done].
  assert (Hss' : forall e, In e ss <-> In e l /\ in_org org e /\ e_id e ∈ secs).
  { intros e. unfold ss. rewrite filter_In, bool_decide_eq_true, (in_scoped org l scoped e Hs). tauto. }
  set (m := merged strategy primary ss).
  set (l' := delete_ids (map e_id ss) (replace_entity m l)).
  assert (Hmid : e_id m = p) by done.
  assert (Hpss : p ∉ map e_id ss).
  { rewrite list_elem_of_In, in_map_iff. intros (e & E & (_ & _ & He)%Hss'). by rewrite E in He. }
  assert (Hl' : forall e, In e l' <-> e = m \/ (In e l /\ e_id e <> p /\ ~ (in_org org e /\ e_id e ∈ secs))).
  { intros e. unfold l', delete_ids, replace_entity. rewrite filter_In, negb_true_iff, bool_decide_eq_false.
    rewrite Hmid. split.
    - intros [(r & Hr & [[Hrp ->]|[Hrp ->]])%in_update_where Hni]; [by left|right].
      apply Z.eqb_neq in Hrp. split; [done|]. split; [done|]. intros [Ho Hse]. apply Hni.
      apply list_elem_of_In, in_map, Hss'. auto.
    - intros [->|(He & Hne & Hno)].
      + split; [|by rewrite Hmid]. pose proof (update_where_in (fun x => (e_id x =? p)%Z) (fun _ => m) l primary Hin) as Hu.
        simpl in Hu. by rewrite Hid, Z.eqb_refl in Hu.
      + split.
        * pose proof (update_where_in (fun x => (e_id x =? p)%Z) (fun _ => m) l e He) as Hu.
          simpl in Hu. by rewrite (proj2 (Z.eqb_neq _ _) Hne) in Hu.
        * rewrite list_elem_of_In, in_map_iff. intros (x & Ex & (Hx & Hox & Hsx)%Hss'). apply Hno.
          by rewrite <- (NoDup_map_inj e_id l x e Hnd Hx He Ex). }
  exists m, l'. mrun. split.
  - unfold refresh. mrun. unfold find_entity. cbn [on_entities entities]. fold l. fold l'.
    destruct (List.find (fun e => (e_id e =? p)%Z) l') as [x|] eqn:Hx.
    + apply find_some in Hx as [Hx Hxp%Z.eqb_eq]. apply Hl' in Hx as [->|(_ & Hne & _)]; [done|by destruct Hne].
    + exfalso. pose proof (find_none _ _ Hx m) as Hm. cbv beta in Hm.
      rewrite Hmid, Z.eqb_refl in Hm. discriminate Hm. apply Hl'. by left.
  - exists primary, ss. split_and!; try done. intros E. apply Hss. by rewrite E.
Qed.

(** Merging stays inside the tenant and is exact: the endpoint either
    raises and changes nothing, or the caller is an editor whose organisation
    resolved, the entities merged are exactly the requested ones of that
    organisation, they are deleted, the primary gets the fields its strategy
    prescribes, the most citations and a completed status if any had one, and
    every other row of every tenant stays. *)
Theorem link_merge_exact tenants user p secs strategy (s : Session MergeDb) :
  NoDup (map e_id (entities (sess_db s))) ->
  let '(out, s') := link_merge tenants user p secs strategy s in
  match out with
  | Raise _ => s' = s
  | Ok m => exists org, role user ∈ MERGE_ROLES /\ resolve_request_org_id tenants user true true = Ok org /\
      merge_effect org p secs strategy (entities (sess_db s)) (entities (sess_db s')) m /\
      (forall primary ss f, m = merged strategy primary ss -> f ∈ MERGE_FIELDS ->
         field_spec strategy (dict_get f (e_fields primary)) (map (fun x => dict_get f (e_fields x)) ss)
           (dict_get f (e_fields m)))
  end.
Proof.
  intros Hnd. destruct (link_merge tenants user p secs strategy s) as [out s'] eqn:Hrun.
  unfold link_merge, require_role in Hrun.
  case_bool_decide as Hrole; [|revert Hrun; mrun; by intros [= <- <-]].
  destruct (resolve_request_org_id tenants user true true) as [org|e]; [|revert Hrun; mrun; by intros [= <- <-]].
  revert Hrun. mrun. case_bool_decide as Hp; [by intros [= <- <-]|].
  destruct (merge_entities_run p secs strategy org s Hnd Hp) as [[e H]|(m & l' & H & Heff)].
  - unfold mbind at 1. rewrite (try_fails _ _ _ _ _ H).
    destruct e as [t msg|c msg]; [case_bool_decide|]; by intros [= <- <-].
  - rewrite (run_ok _ _ _ _ _ (try_ok _ _ _ _ _ H)). mrun. intros [= <- <-].
    exists org. split; [done|]. split; [done|]. split; [exact Heff|].
    intros primary ss f -> Hf. simpl. rewrite merge_fields_get, decide_True by done. apply merge_field_spec.
Qed.

(** * Witness and an endpoint outside the tenant scope *)

Definition merge_row (i org : Z) (label : string) : RawEntity :=
  mkEntity i (Some org) [("primary_label", label)] (Some i) None.
Definition merge_db : MergeDb :=
  mkMergeDb [merge_row 1 7 ""; merge_row 2 7 "Ada"; merge_row 3 8 "Bob"] [].

Lemma link_merge_exact_witness :
  exists m s', link_merge demo_tenants demo_user 1 [2; 3]%Z "keep_non_empty" (clean merge_db) = (Ok m, s') /\
    dict_get "primary_label" (e_fields m) = Some "Ada" /\ map e_id (entities (sess_db s')) = [1; 3]%Z.
Proof.
  pose proof (link_merge_exact demo_tenants demo_user 1 [2; 3]%Z "keep_non_empty" (clean merge_db)) as H.
  assert (Hnd : NoDup (map e_id (entities (sess_db (clean merge_db))))) by (by apply (bool_decide_unpack _)).
  specialize (H Hnd). destruct (link_merge _ _ _ _ _ _) as [[m|e] s'] eqn:E; [|revert E; by vm_compute].
  exists m, s'. split; [done|]. revert E. vm_compute. intros [= <- <-]. done.
Defined.

(** The other merge endpoint loads both entities by key: an editor of one
    tenant absorbs and deletes another tenant's entity. *)
Lemma linker_merge_crosses_tenants :
  user_org_id demo_user = Some 7%Z /\
  map (fun e => (e_id e, e_org_id e))
    (entities (sess_db (snd (linker_merge demo_user 1 3 (clean merge_db))))) = [(1, Some 7); (2, Some 7)]%Z.
Proof. by vm_compute. Qed.
