(* ===== verification/TenantQuotas.v ===== *)
(** [backend/tenant_quotas.py]: plan limits, the quota snapshot of an
    organisation and the gate the routers call before they create a resource. *)
From S2P Require Import Prelude PyStr TenantAccess.
Open Scope string_scope.
Open Scope list_scope.
Local Open Scope py_scope.

Definition FREE_PLAN : string := "free".
Definition PRO_PLAN : string := "pro".
Definition ENTERPRISE_PLAN : string := "enterprise".

Definition PLAN_LIMITS : list (string * list (string * option Z)) :=
  [ (FREE_PLAN, [("members", Some 3%Z); ("stores", Some 1%Z); ("scrapers", Some 1%Z);
       ("scheduled_imports", Some 1%Z); ("scheduled_reports", Some 1%Z); ("workflows", Some 3%Z);
       ("api_keys_per_user", Some 2%Z); ("alert_channels", Some 1%Z)]);
    (PRO_PLAN, [("members", Some 15%Z); ("stores", Some 5%Z); ("scrapers", Some 5%Z);
       ("scheduled_imports", Some 10%Z); ("scheduled_reports", Some 10%Z); ("workflows", Some 15%Z);
       ("api_keys_per_user", Some 10%Z); ("alert_channels", Some 5%Z)]);
    (ENTERPRISE_PLAN, [("members", None); ("stores", None); ("scrapers", None);
       ("scheduled_imports", None); ("scheduled_reports", None); ("workflows", None);
       ("api_keys_per_user", None); ("alert_channels", None)]) ].

Record ResourceDef := mkResource {
  rd_resource : string; rd_label : string; rd_scope : string; rd_enforcement : string; rd_notes : string
}.

Definition RESOURCE_DEFINITIONS : list ResourceDef :=
  [ mkResource "members" "Organization members" "organization" "hard"
      "Includes the owner membership. Extra invites are blocked at the plan limit.";
    mkResource "stores" "Store connections" "organization" "hard"
      "Counts active and inactive store connections scoped to the organization.";
    mkResource "scrapers" "Scraper configs" "organization" "hard"
      "Counts configured web scraper connectors for the organization.";
    mkResource "scheduled_imports" "Scheduled imports" "organization" "hard"
      "Automation schedules for store imports are capped per organization.";
    mkResource "scheduled_reports" "Scheduled reports" "organization" "hard"
      "Email report schedules are capped per organization.";
    mkResource "workflows" "Workflows" "organization" "hard"
      "No-code workflow automations are capped per organization.";
    mkResource "api_keys_per_user" "API keys per requesting user" "requesting_user" "advisory"
      "API keys are still user-scoped in the data model, so this is guidance based on the active organization's plan.";
    mkResource "alert_channels" "Alert channels" "global_shared" "pending_org_scope"
      "Alert channels are not org-scoped yet. Limit is documented for commercial packaging but not enforced." ].

Definition ENFORCED_RESOURCES : list string :=
  map rd_resource (List.filter (fun d => bool_decide (rd_enforcement d = "hard")) RESOURCE_DEFINITIONS).

Definition RESOURCE_LABELS : list (string * string) :=
  map (fun d => (rd_resource d, rd_label d)) RESOURCE_DEFINITIONS.

Definition normalize_plan (plan : option string) : string :=
  let plan_normalized := lower (match plan with
                                | Some p => if truthy p then p else FREE_PLAN
                                | None => FREE_PLAN end) in
  if bool_decide (plan_normalized ∈ dict_keys PLAN_LIMITS) then plan_normalized else FREE_PLAN.

Definition KeyError (k : string) : exn := Exn "KeyError" k.
(** [d[k]] *)
Definition dict_at {V} (k : string) (d : list (string * V)) : res V :=
  match dict_get k d with Some v => Ok v | None => Raise (KeyError k) end.

Definition get_plan_limits (plan : option string) : res (list (string * option Z)) :=
  dict_at (normalize_plan plan) PLAN_LIMITS.

Record ApiKey := mkApiKey { ak_user_id : Z; ak_is_active : option bool }.

(** The tables that are counted; of the plain resources only the organisation
    column matters. *)
Record QuotaDb := mkQuotaDb {
  q_tenants : Tenants;
  q_stores : list (option Z); q_scrapers : list (option Z);
  q_scheduled_imports : list (option Z); q_scheduled_reports : list (option Z);
  q_workflows : list (option Z);
  q_api_keys : list ApiKey
}.

Definition count_org (org_id : Z) (rows : list (option Z)) : Z := count_where (col_eq org_id) rows.

Definition count_resource_usage (db : QuotaDb) (resource : string) (org_id : Z)
    (current_user : option User) : res (option Z) :=
  if bool_decide (resource = "members") then
    Ok (Some (count_where (fun m => m_org_id m =? org_id)%Z (members (q_tenants db))))
  else if bool_decide (resource = "stores") then Ok (Some (count_org org_id (q_stores db)))
  else if bool_decide (resource = "scrapers") then Ok (Some (count_org org_id (q_scrapers db)))
  else if bool_decide (resource = "scheduled_imports") then
    Ok (Some (count_org org_id (q_scheduled_imports db)))
  else if bool_decide (resource = "scheduled_reports") then
    Ok (Some (count_org org_id (q_scheduled_reports db)))
  else if bool_decide (resource = "workflows") then Ok (Some (count_org org_id (q_workflows db)))
  else if bool_decide (resource = "api_keys_per_user") then
    match current_user with
    | None => Ok None
    | Some u => Ok (Some (count_where (fun k => (ak_user_id k =? user_id u)%Z &&
                            bool_decide (ak_is_active k = Some true)) (q_api_keys db)))
    end
  else if bool_decide (resource = "alert_channels") then Ok None
  else Raise (Exn "ValueError" ("Unsupported quota resource: " ++ resource)).

Definition resource_status (limit usage : option Z) (enforcement : string) : string :=
  if bool_decide (enforcement = "pending_org_scope") then "pending_model_alignment"
  else if bool_decide (enforcement = "advisory") then
    match limit, usage with
    | None, _ => "unlimited"
    | Some _, None => "advisory"
    | Some l, Some u => if (l <=? u)%Z then "at_limit" else "ok"
    end
  else
    match limit, usage with
    | None, _ => "unlimited"
    | Some _, None => "unknown"
    | Some l, Some u => if (l <=? u)%Z then "at_limit" else "ok"
    end.

Record ResourceQuota := mkQuota {
  rq_def : ResourceDef; rq_limit : option Z; rq_usage : option Z;
  rq_remaining : option Z; rq_status : string
}.

Record QuotaSnapshot := mkSnapshot {
  qs_org : Organization; qs_plan : string; qs_resources : list ResourceQuota;
  qs_enforced : list string; qs_advisory : list string
}.

Definition remaining (limit usage : option Z) : option Z :=
  match limit, usage with Some l, Some u => Some (Z.max (l - u) 0) | _, _ => None end.

Fixpoint quota_rows (db : QuotaDb) (limits : list (string * option Z)) (org_id : Z)
    (current_user : option User) (defs : list ResourceDef) : res (list ResourceQuota) :=
  match defs with
  | [] => Ok []
  | d :: defs' =>
      let? limit := dict_at (rd_resource d) limits in
      let? usage := count_resource_usage db (rd_resource d) org_id current_user in
      let? rows := quota_rows db limits org_id current_user defs' in
      Ok (mkQuota d limit usage (remaining limit usage)
            (resource_status limit usage (rd_enforcement d)) :: rows)
  end.

Definition build_org_quota_snapshot (db : QuotaDb) (org : Organization) (current_user : option User)
  : res QuotaSnapshot :=
  let plan := normalize_plan (o_plan org) in
  let? limits := get_plan_limits (Some plan) in
  let? resources := quota_rows db limits (o_id org) current_user RESOURCE_DEFINITIONS in
  Ok (mkSnapshot org plan resources (sort_by str_le ENFORCED_RESOURCES)
        (sort_by str_le (map rd_resource
           (List.filter (fun d => negb (bool_decide (rd_enforcement d = "hard"))) RESOURCE_DEFINITIONS)))).

Definition assert_org_quota_available (db : QuotaDb) (org_id : option Z) (resource : string)
    (current_user : option User) : res unit :=
  match org_id with
  | None => Ok tt
  | Some oid =>
      if negb (bool_decide (resource ∈ ENFORCED_RESOURCES)) then Ok tt
      else
        match List.find (fun o => o_id o =? oid)%Z (organizations (q_tenants db)) with
        | None => Raise (HTTPException 404 "Organization not found")
        | Some org =>
            if negb (bool_decide (o_is_active org = Some true)) then
              Raise (HTTPException 404 "Organization not found")
            else
              let plan := normalize_plan (o_plan org) in
              let? limits := dict_at plan PLAN_LIMITS in
              let? limit := dict_at resource limits in
              match limit with
              | None => Ok tt
              | Some l =>
                  let? counted := count_resource_usage db resource oid current_user in
                  let usage := match counted with Some u => u | None => 0%Z end in
                  if (l <=? usage)%Z then
                    let? label := dict_at resource RESOURCE_LABELS in
                    Raise (HTTPException 403
                      ("Plan limit reached for " ++ lower label ++ " on plan '" ++ plan ++ "' (" ++
                       str_of_Z usage ++ "/" ++ str_of_Z l ++ ")"))
                  else Ok tt
              end
        end
  end.

(** * Facts *)

Lemma normalize_plan_cases p :
  normalize_plan p = FREE_PLAN \/ normalize_plan p = PRO_PLAN \/ normalize_plan p = ENTERPRISE_PLAN.
Proof.
  unfold normalize_plan. case_bool_decide as H; [|auto].
  unfold PLAN_LIMITS, dict_keys in H. cbn [map fst] in H.
  rewrite !elem_of_cons, elem_of_nil in H. naive_solver.
Qed.
Lemma normalize_plan_fixed p : normalize_plan (Some (normalize_plan p)) = normalize_plan p.
Proof. by destruct (normalize_plan_cases p) as [->|[->| ->]]. Qed.

(** The limit of an enforced resource on a plan. *)
Definition plan_limit (plan resource : string) : option Z :=
  match dict_get plan PLAN_LIMITS with
  | Some ls => match dict_get resource ls with Some l => l | None => None end
  | None => None
  end.

(** The usage of an enforced resource is always counted. *)
Definition usage_of (db : QuotaDb) (resource : string) (org_id : Z) : Z :=
  match count_resource_usage db resource org_id None with Ok (Some u) => u | _ => 0%Z end.

Lemma enforced_cases r : r ∈ ENFORCED_RESOURCES ->
  r ∈ ["members"; "stores"; "scrapers"; "scheduled_imports"; "scheduled_reports"; "workflows"].
Proof. exact (fun H => H). Qed.

Ltac enforced H :=
  apply enforced_cases in H; rewrite !elem_of_cons, elem_of_nil in H;
  destruct H as [->|[->|[->|[->|[->|[->|[]]]]]]].

Lemma usage_enforced db r o u :
  r ∈ ENFORCED_RESOURCES -> count_resource_usage db r o u = Ok (Some (usage_of db r o)).
Proof. intros H. by enforced H. Qed.

Lemma limit_enforced p r :
  r ∈ ENFORCED_RESOURCES ->
  exists limits, dict_at (normalize_plan p) PLAN_LIMITS = Ok limits /\
                 dict_at r limits = Ok (plan_limit (normalize_plan p) r).
Proof.
  intros H. destruct (normalize_plan_cases p) as [->|[->| ->]];
    (eexists; split; [reflexivity|]); by enforced H.
Qed.

Lemma label_enforced r : r ∈ ENFORCED_RESOURCES -> exists l, dict_at r RESOURCE_LABELS = Ok l.
Proof. intros H. enforced H; eexists; reflexivity. Qed.

(** Every row of a snapshot is computed from its definition. *)
Lemma quota_rows_in db limits o u defs rows d :
  quota_rows db limits o u defs = Ok rows -> In d defs ->
  exists row, In row rows /\ rq_def row = d /\ dict_at (rd_resource d) limits = Ok (rq_limit row) /\
    count_resource_usage db (rd_resource d) o u = Ok (rq_usage row) /\
    rq_status row = resource_status (rq_limit row) (rq_usage row) (rd_enforcement d).
Proof.
  revert rows. induction defs as [|d' defs IH]; simpl; [done|]. intros rows.
  destruct (dict_at (rd_resource d') limits) as [l|] eqn:Hl; simpl; [|done].
  destruct (count_resource_usage db (rd_resource d') o u) as [us|] eqn:Hu; simpl; [|done].
  destruct (quota_rows _ _ _ _ defs) as [rs|] eqn:Hrs; simpl; [|done]. intros [= <-] [<-|Hd].
  - eexists. split; [by left|]. done.
  - destruct (IH rs eq_refl Hd) as (row & Hrow & H). exists row. split; [by right|done].
Qed.

Lemma quota_rows_total p db o u :
  exists limits rows, dict_at (normalize_plan p) PLAN_LIMITS = Ok limits /\
    quota_rows db limits o u RESOURCE_DEFINITIONS = Ok rows.
Proof.
  destruct (normalize_plan_cases p) as [->|[->| ->]]; eexists; destruct u as [u|];
    (eexists; split; [reflexivity|reflexivity]).
Qed.

Lemma hard_definition r :
  r ∈ ENFORCED_RESOURCES ->
  exists d, In d RESOURCE_DEFINITIONS /\ rd_resource d = r /\ rd_enforcement d = "hard".
Proof.
  intros H. unfold ENFORCED_RESOURCES in H.
  apply list_elem_of_In, in_map_iff in H as (d & <- & [Hd E]%filter_In).
  apply bool_decide_eq_true in E. eauto.
Qed.

Lemma gate_spec db org o resource u :
  List.find (fun o' => o_id o' =? o)%Z (organizations (q_tenants db)) = Some org ->
  o_is_active org = Some true -> resource ∈ ENFORCED_RESOURCES ->
  assert_org_quota_available db (Some o) resource u = Ok tt <->
  forall l, plan_limit (normalize_plan (o_plan org)) resource = Some l ->
            (usage_of db resource o + 1 <= l)%Z.
Proof.
  intros Hf Hact Hr. unfold assert_org_quota_available. rewrite bool_decide_true by done. simpl.
  rewrite Hf, bool_decide_true by done. simpl.
  destruct (limit_enforced (o_plan org) resource Hr) as (ls & -> & Hl). simpl. rewrite Hl. simpl.
  destruct (plan_limit _ resource) as [l|]; [|naive_solver].
  rewrite (usage_enforced db resource o u Hr). simpl.
  destruct (label_enforced resource Hr) as [lb ->]. simpl.
  destruct (Z.leb_spec l (usage_of db resource o)); split; try done.
  - intros H1. specialize (H1 l eq_refl). lia.
  - intros _ l' [= <-]. lia.
Qed.

(** The quota gate and the quota report agree: for an active organisation
    and an enforced resource, creation is refused exactly when the plan has a
    limit and the rows counted have reached it (so a creation the gate lets
    through keeps the count within the limit), and the snapshot shows
    [at_limit] for exactly those resources; the gate never refuses a resource
    that is not enforced, or a request without an organisation. *)
Theorem quota_gate_exact db org o resource u :
  List.find (fun o' => o_id o' =? o)%Z (organizations (q_tenants db)) = Some org ->
  o_is_active org = Some true ->
  let limit := plan_limit (normalize_plan (o_plan org)) resource in
  let usage := usage_of db resource o in
  (resource ∈ ENFORCED_RESOURCES ->
     (assert_org_quota_available db (Some o) resource u = Ok tt <->
        forall l, limit = Some l -> (usage + 1 <= l)%Z) /\
     exists snap row, build_org_quota_snapshot db org u = Ok snap /\ In row (qs_resources snap) /\
       rd_resource (rq_def row) = resource /\ rq_limit row = limit /\ rq_usage row = Some usage /\
       (rq_status row = "at_limit" <-> assert_org_quota_available db (Some o) resource u <> Ok tt)) /\
  (resource ∉ ENFORCED_RESOURCES -> assert_org_quota_available db (Some o) resource u = Ok tt) /\
  assert_org_quota_available db None resource u = Ok tt.
Proof.
  intros Hf Hact limit usage. split; [|split; [|done]].
  - intros Hr. pose proof (gate_spec db org o resource u Hf Hact Hr) as Hgate.
    split; [exact Hgate|]. assert (Ho : o_id org = o) by (apply find_some in Hf as [_ Hf]; lia).
    destruct (quota_rows_total (o_plan org) db o u) as (limits & rows & Hlim & Hrows).
    destruct (hard_definition resource Hr) as (d & Hd & Hres & Hhard).
    destruct (quota_rows_in _ _ _ _ _ _ d Hrows Hd) as (row & Hrow & Hdef & Hl & Hu & Hst).
    destruct (limit_enforced (o_plan org) resource Hr) as (ls & Hls & Hl').
    rewrite Hlim in Hls. injection Hls as <-. rewrite Hres in Hl, Hu.
    rewrite Hl' in Hl. injection Hl as Hl.
    rewrite (usage_enforced db resource o u Hr) in Hu. injection Hu as Hu.
    unfold build_org_quota_snapshot, get_plan_limits. cbv zeta. rewrite normalize_plan_fixed, Ho, Hlim.
    cbn [res_bind]. rewrite Hrows. cbn [res_bind]. eexists. exists row. split; [reflexivity|]. split; [done|].
    split; [by rewrite Hdef|]. split; [done|]. split; [done|].
    rewrite Hst, Hgate, <- Hl, <- Hu, Hhard. unfold resource_status. simpl.
    destruct (plan_limit _ resource) as [l|]; [|naive_solver].
    destruct (Z.leb_spec l (usage_of db resource o)); split; try done.
    + intros _ H1. specialize (H1 l eq_refl). lia.
    + intros H1. exfalso. apply H1. intros l' [= <-]. lia.
  - intros Hr. unfold assert_org_quota_available. by rewrite bool_decide_false.
Qed.

Definition quota_db : QuotaDb :=
  mkQuotaDb demo_tenants [Some 8%Z] [] [] [] [Some 7%Z; Some 8%Z; None] [].
(** Organisation 8 is on the free plan: one store is the limit. *)
Lemma quota_gate_exact_witness :
  assert_org_quota_available quota_db (Some 8%Z) "stores" None =
    Raise (HTTPException 403 "Plan limit reached for store connections on plan 'free' (1/1)") /\
  ~ (forall l, plan_limit (normalize_plan None) "stores" = Some l -> (usage_of quota_db "stores" 8 + 1 <= l)%Z).
Proof.
  split; [vm_compute; reflexivity|]. intros H.
  destruct (quota_gate_exact quota_db (mkOrg 8 "bmce" "Bmce" None (Some true)) 8 "stores" None
              eq_refl eq_refl) as (Hgate & _).
  destruct (Hgate ltac:(refine (bool_decide_unpack _ _); vm_compute; exact I)) as [[_ Hg] _].
  specialize (Hg H). revert Hg. vm_compute. discriminate.
Defined.
