(* ===== verification/ApiKeyScopes.v ===== *)
(** [backend/api_key_scopes.py]: which scope an API key must hold for a route,
    and whether the scopes it was granted suffice. *)
From S2P Require Import Prelude PyStr.
Open Scope string_scope.
Open Scope list_scope.

Definition READ : string := "read".
Definition WRITE : string := "write".
Definition ADMIN : string := "admin".
Definition ALL_SCOPES : list string := [READ; WRITE; ADMIN].

Definition SAFE_METHODS : list string := ["GET"; "HEAD"; "OPTIONS"].

Definition SCOPE_IMPLIES : list (string * list string) :=
  [(ADMIN, [ADMIN; WRITE; READ]); (WRITE, [WRITE; READ]); (READ, [READ])].

Definition ADMIN_PATHS : list string :=
  ["/admin"; "/alert-channels"; "/api-keys"; "/auth/sso/settings"; "/ops"; "/organizations";
   "/settings/auth"; "/stores"; "/users"; "/webhooks"; "/workflows"].

Definition ADMIN_EXEMPT_PATHS : list string := ["/users/me"].

Definition READ_OVERRIDES : list (string * string) :=
  [("POST", "/agentic-chat/query"); ("POST", "/analytics/roi"); ("POST", "/analyze");
   ("POST", "/cube/query"); ("POST", "/exports/excel"); ("POST", "/exports/pdf");
   ("POST", "/exports/pptx"); ("POST", "/harmonization/preview/{step_id}");
   ("POST", "/nlq/query"); ("POST", "/rag/query"); ("POST", "/retrospective/export/events");
   ("POST", "/retrospective/export/snapshots"); ("POST", "/scientific/dois/preview");
   ("POST", "/scientific/search"); ("POST", "/transformations/preview");
   ("POST", "/upload/preview"); ("POST", "/upload/suggest-mapping")].

Definition under (path prefix : string) : bool :=
  bool_decide (path = prefix) || startswith path (prefix ++ "/").

(** [(method or "").strip().upper()] *)
Definition normalize_method (method : option string) : string :=
  upper (strip (match method with Some m => m | None => "" end)).

Definition scope_required (method : option string) (path : string) : string :=
  let normalized_method := normalize_method method in
  if negb (existsb (under path) ADMIN_EXEMPT_PATHS) && existsb (under path) ADMIN_PATHS then ADMIN
  else if bool_decide ((normalized_method, path) ∈ READ_OVERRIDES) then READ
  else if bool_decide (normalized_method ∈ SAFE_METHODS) then READ
  else WRITE.

Definition satisfies (granted : list string) (required : string) : bool :=
  existsb (fun scope =>
    match dict_get scope SCOPE_IMPLIES with
    | Some implied => bool_decide (required ∈ implied)
    | None => false
    end) granted.

(** The scopes as levels. *)
Definition level (s : string) : nat :=
  if decide (s = READ) then 1 else if decide (s = WRITE) then 2 else if decide (s = ADMIN) then 3 else 0.

Lemma satisfies_spec granted r :
  satisfies granted r = true <-> exists s, In s granted /\ (1 <= level r <= level s)%nat.
Proof.
  unfold satisfies. rewrite existsb_exists.
  assert (H : forall s, match dict_get s SCOPE_IMPLIES with
                        | Some implied => bool_decide (r ∈ implied) | None => false end = true
                        <-> (1 <= level r <= level s)%nat).
  { intros s. unfold level, SCOPE_IMPLIES. cbn [dict_get].
    repeat case_decide; subst; rewrite ?bool_decide_eq_true, ?elem_of_cons, ?elem_of_nil;
      unfold READ, WRITE, ADMIN in *; (split; [intros Hr|intros ?]);
      try lia; try done; try (by repeat destruct Hr as [?|Hr]); naive_solver. }
  setoid_rewrite H. done.
Qed.

Lemma scope_required_level m p : level (scope_required m p) <> 0%nat.
Proof. unfold scope_required. by repeat case_match. Qed.

(** The scope table fails closed and escalates: a key may call a route
    exactly when some granted scope is at or above the required one in
    read < write < admin; a route under an administrative prefix (and not
    self-service) requires an admin key whatever the method; outside those, a
    request is open to a read key only when its method is safe or the route is
    a listed override, and any other request, known or not, needs write. *)
Theorem scopes_fail_closed granted method path :
  let admin_route := existsb (under path) ADMIN_PATHS = true /\
                     existsb (under path) ADMIN_EXEMPT_PATHS = false in
  let m := normalize_method method in
  (satisfies granted (scope_required method path) = true <->
     exists s, In s granted /\ (level (scope_required method path) <= level s)%nat) /\
  (scope_required method path = ADMIN <-> admin_route) /\
  (scope_required method path = READ <->
     ~ admin_route /\ (m ∈ SAFE_METHODS \/ (m, path) ∈ READ_OVERRIDES)) /\
  (scope_required method path = WRITE <->
     ~ admin_route /\ m ∉ SAFE_METHODS /\ (m, path) ∉ READ_OVERRIDES).
Proof.
  intros admin_route m. split.
  - rewrite satisfies_spec. pose proof (scope_required_level method path).
    split; intros (s & Hs & H'); exists s; (split; [done|lia]).
  - unfold scope_required, admin_route. fold m.
    assert (Hne : ADMIN <> READ /\ ADMIN <> WRITE /\ READ <> WRITE) by (repeat split; discriminate).
    assert (Hb : true <> false) by discriminate.
    destruct (existsb (under path) ADMIN_EXEMPT_PATHS);
      destruct (existsb (under path) ADMIN_PATHS); cbn [negb andb];
      repeat case_bool_decide; repeat split; intros; try intuition congruence.

Qed.

(** The exemption covers whole segments only. *)
Example scope_examples :
  scope_required (Some "get") "/users" = ADMIN /\ scope_required (Some "get") "/users/me" = READ /\
  scope_required (Some "DELETE") "/users/me/avatar" = WRITE /\
  scope_required (Some "get") "/users-summary" = READ /\ scope_required (Some "get") "/users/mean" = ADMIN /\
  scope_required (Some "post") "/nlq/query" = READ /\ scope_required None "/nlq/query" = WRITE.
Proof. vm_compute. repeat split. Qed.
