(* ===== verification/DomainScope.v ===== *)
(** [backend/domain_scope.py]: the domain-scope contract; its values, the
    parser of legacy strings and the filter a scope stands for. *)
From S2P Require Import Prelude PyStr.
From Stdlib Require Import Ascii.
Open Scope string_scope.
Open Scope list_scope.

Definition SCOPE_ALL : string := "all".
Definition SCOPE_LEGACY : string := "legacy_default".
Definition DOMAIN_PREFIX : string := "domain:".

Definition newline : ascii := ascii_of_N 10.

(** [re.compile(r"^domain:.+$").match(s)]: [.] is any character but a newline,
    [$] also matches before a final newline. *)
Definition matches_domain (s : string) : bool :=
  startswith s DOMAIN_PREFIX &&
  let rest := chars (drop_str (String.length DOMAIN_PREFIX) s) in
  let line := take_while (fun c => negb (bool_decide (c = newline))) rest in
  negb (bool_decide (line = [])) &&
  bool_decide (drop (length line) rest ∈ [[]; [newline]]).

Definition is_valid_scope (s : string) : bool :=
  bool_decide (s ∈ [SCOPE_ALL; SCOPE_LEGACY]) || matches_domain s.

Definition parse_scope (raw : option string) : string :=
  match raw with
  | None => SCOPE_ALL
  | Some raw =>
      if negb (truthy raw) then SCOPE_ALL
      else if bool_decide (raw = SCOPE_ALL) then SCOPE_ALL
      else if bool_decide (raw = "default") then SCOPE_LEGACY
      else if bool_decide (raw = SCOPE_LEGACY) then SCOPE_LEGACY
      else if startswith raw DOMAIN_PREFIX then raw
      else (DOMAIN_PREFIX ++ raw)%string
  end.

(** A filter on the [domain] column, [None] for no filter. *)
Definition resolve_domain_filter (scope : string) : res (option (option string -> bool)) :=
  if bool_decide (scope = SCOPE_ALL) then Ok None
  else if bool_decide (scope = SCOPE_LEGACY) then
    Ok (Some (fun c => match c with Some d => bool_decide (d = "default") | None => true end))
  else if startswith scope DOMAIN_PREFIX then
    let domain_id := drop_str (String.length DOMAIN_PREFIX) scope in
    Ok (Some (fun c => match c with Some d => bool_decide (d = domain_id) | None => false end))
  else Raise (Exn "ValueError" ("Invalid DomainScope: '" ++ scope ++
                "'. Use parse_scope() to convert raw values first.")).

(** The rows a raw parameter selects. *)
Definition selects (raw : option string) (c : option string) : Prop :=
  match raw with
  | None => True
  | Some r =>
      if decide (r = "" \/ r = SCOPE_ALL) then True
      else if decide (r = "default" \/ r = SCOPE_LEGACY) then c = None \/ c = Some "default"
      else if startswith r DOMAIN_PREFIX then c = Some (drop_str (String.length DOMAIN_PREFIX) r)
      else c = Some r
  end.

Lemma startswith_app p s : startswith (p ++ s)%string p = true.
Proof.
  unfold startswith. induction p as [|c p IH]; simpl; [by destruct s|].
  destruct (ascii_dec c c); done.
Qed.
Lemma drop_str_app p s : drop_str (String.length p) (p ++ s)%string = s.
Proof. induction p; simpl; [by destruct s|done]. Qed.

Lemma prefix_not_keyword s : startswith s DOMAIN_PREFIX = true -> s <> SCOPE_ALL /\ s <> SCOPE_LEGACY.
Proof. intros H. split; intros ->; discriminate H. Qed.

Lemma resolve_prefixed s :
  startswith s DOMAIN_PREFIX = true ->
  resolve_domain_filter s = Ok (Some (fun c => match c with
    | Some d => bool_decide (d = drop_str (String.length DOMAIN_PREFIX) s) | None => false end)).
Proof.
  intros H. destruct (prefix_not_keyword s H). unfold resolve_domain_filter.
  by rewrite !bool_decide_false, H by done.
Qed.

(** A domain parameter selects what the contract says: the filter of a
    parsed raw value never raises, and it keeps a row exactly when the value is
    absent, empty or [all]; or it is a legacy default and the row's domain is
    NULL or [default]; or it names the row's domain, bare or prefixed. Parsing
    is idempotent on what it returns. *)
Theorem parsed_scope_filters raw :
  parse_scope (Some (parse_scope raw)) = parse_scope raw /\
  exists f, resolve_domain_filter (parse_scope raw) = Ok f /\
    forall c, (match f with Some p => p c | None => true end) = true <-> selects raw c.
Proof.
  assert (Hpre : forall r, startswith r DOMAIN_PREFIX = true -> r <> "" /\ r <> "default").
  { intros r H. split; intros ->; discriminate H. }
  assert (Hfix : forall r, startswith r DOMAIN_PREFIX = true -> parse_scope (Some r) = r).
  { intros r H. destruct (prefix_not_keyword r H), (Hpre r H). unfold parse_scope, truthy.
    rewrite !bool_decide_false by done. by rewrite H. }
  assert (Hid : forall (r i : string) (c : option string), (match c with Some d => bool_decide (d = i) | None => false end) = true
                  <-> c = Some i) by (intros _ i [d|]; rewrite ?bool_decide_eq_true; naive_solver).
  destruct raw as [r|]; [|split; [done|]; by exists None].
  destruct (decide (r = "")) as [->|Hne]; [split; [done|]; by exists None|].
  destruct (decide (r = SCOPE_ALL)) as [->|Hall]; [split; [done|]; by exists None|].
  destruct (decide (r = "default" \/ r = SCOPE_LEGACY)) as [Hl|Hl].
  { assert (parse_scope (Some r) = SCOPE_LEGACY) as -> by (by destruct Hl as [->| ->]).
    split; [done|]. eexists. split; [reflexivity|]. intros c. unfold selects.
    rewrite decide_False by naive_solver. rewrite decide_True by done.
    destruct c as [d|]; simpl; rewrite ?bool_decide_eq_true; naive_solver. }
  destruct (startswith r DOMAIN_PREFIX) eqn:Hp.
  - rewrite (Hfix r Hp). split; [by apply Hfix|]. rewrite (resolve_prefixed r Hp).
    eexists. split; [reflexivity|]. intros c. rewrite (Hid r). unfold selects.
    rewrite !decide_False by naive_solver. by rewrite Hp.
  - assert (parse_scope (Some r) = (DOMAIN_PREFIX ++ r)%string) as ->.
    { unfold parse_scope, truthy. rewrite !bool_decide_false by naive_solver. by rewrite Hp. }
    pose proof (startswith_app DOMAIN_PREFIX r) as Hs. split; [by apply Hfix|].
    rewrite (resolve_prefixed _ Hs), drop_str_app. eexists. split; [reflexivity|].
    intros c. rewrite (Hid r). unfold selects. rewrite !decide_False by naive_solver. by rewrite Hp.
Qed.

(** The parser does not always return a valid scope: a bare prefix passes
    through, and the validator rejects it. *)
Lemma parse_scope_invalid :
  parse_scope (Some "domain:") = "domain:" /\ is_valid_scope (parse_scope (Some "domain:")) = false.
Proof. vm_compute. done. Qed.
