(* ===== verification/CircuitBreaker.v ===== *)
(** [backend/circuit_breaker.py] and [backend/authority/resilience.py]: the
    breaker around external calls, and the resolver wrapper that composes it
    with bounded retry. Clock readings are integers of some unit; [call] takes
    its lock twice, before and after the external call, so the two halves are
    operations of their own. *)
From S2P Require Import Prelude PyStr.
Open Scope string_scope.
Open Scope list_scope.
Open Scope Z_scope.

Inductive CircuitState := CLOSED | OPEN | HALF_OPEN.
#[export] Instance circuit_state_eq_dec : EqDecision CircuitState.
Proof. solve_decision. Defined.

(** The em dash of the message is written as a hyphen. *)
Definition CircuitOpenError (name : string) : exn :=
  Exn "CircuitOpenError" ("Circuit '" ++ name ++ "' is OPEN - skipping external call.").

Record Config := mkConfig { cb_name : string; failure_threshold : Z; recovery_timeout : Z }.

Record Breaker := mkBreaker {
  cb_state : CircuitState; failure_count : Z; success_count : Z;
  last_failure_time : Z; last_used_time : Z
}.

Definition new_breaker : Breaker := mkBreaker CLOSED 0 0 0 0.
Definition reset (_ : Breaker) : Breaker := new_breaker.

Section breaker.
Context (cfg : Config).

Definition current_state (monotonic : Z) (b : Breaker) : CircuitState * Breaker :=
  if bool_decide (cb_state b = OPEN) && (recovery_timeout cfg <=? monotonic - last_failure_time b)
  then (HALF_OPEN, mkBreaker HALF_OPEN (failure_count b) (success_count b)
                     (last_failure_time b) (last_used_time b))
  else (cb_state b, b).

(** The property [state]. *)
Definition state (monotonic : Z) (b : Breaker) : CircuitState * Breaker := current_state monotonic b.

(** The first locked half of [call]. *)
Definition enter (monotonic wall : Z) (b : Breaker) : res unit * Breaker :=
  let '(st, b) := current_state monotonic b in
  if bool_decide (st = OPEN) then (Raise (CircuitOpenError (cb_name cfg)), b)
  else (Ok tt, mkBreaker (cb_state b) (failure_count b) (success_count b) (last_failure_time b) wall).

Definition record_failure (monotonic : Z) (b : Breaker) : Breaker :=
  let n := failure_count b + 1 in
  let st := if negb (bool_decide (cb_state b = OPEN)) && (failure_threshold cfg <=? n)
            then OPEN else cb_state b in
  mkBreaker st n (success_count b) monotonic (last_used_time b).

Definition record_success (b : Breaker) : Breaker :=
  let sc := if bool_decide (cb_state b = HALF_OPEN) then 0 else success_count b in
  mkBreaker CLOSED 0 (sc + 1) (last_failure_time b) (last_used_time b).

(** [func] runs against an outside state of its own. *)
Definition call {F R} (func : F -> res R * F) (t_enter wall t_fail : Z) (b : Breaker) (f : F)
  : res R * Breaker * F :=
  match enter t_enter wall b with
  | (Raise e, b) => (Raise e, b, f)
  | (Ok _, b) =>
      match func f with
      | (Ok r, f) => (Ok r, record_success b, f)
      | (Raise e, f) => (Raise e, record_failure t_fail b, f)
      end
  end.

(** * The resilient resolver *)

(** At most [attempts] calls; the last exception is raised. *)
Fixpoint resolve_with_retry {F R} (resolve : F -> res R * F) (attempts : nat) (last : option exn) (f : F)
  : res R * F :=
  match attempts with
  | O => (Raise (match last with Some e => e | None => Exn "RuntimeError" "resolver failed" end), f)
  | S n => match resolve f with
           | (Ok r, f) => (Ok r, f)
           | (Raise e, f) => resolve_with_retry resolve n (Some e) f
           end
  end.

Definition resilient_resolve {F C} (resolve : F -> res (list C) * F) (max_attempts : Z)
    (t_enter wall t_fail : Z) (b : Breaker) (f : F) : res (list C) * Breaker * F :=
  match call (resolve_with_retry resolve (Z.to_nat max_attempts) None) t_enter wall t_fail b f with
  | (Ok r, b, f) => (Ok r, b, f)
  | (Raise _, b, f) => (Ok [], b, f)
  end.

(** * Interleavings *)

(** Threads reach the lock in any order: an arbitrary sequence of the locked
    sections. *)
Inductive event := Enter (monotonic wall : Z) | Failure (monotonic : Z) | Success | Peek (monotonic : Z) | Reset.
Definition apply (e : event) (b : Breaker) : Breaker :=
  match e with
  | Enter m w => snd (enter m w b)
  | Failure m => record_failure m b
  | Success => record_success b
  | Peek m => snd (state m b)
  | Reset => reset b
  end.
Definition run (es : list event) (b : Breaker) : Breaker := fold_left (fun b e => apply e b) es b.

Definition breaker_ok (b : Breaker) : Prop :=
  0 <= failure_count b /\ 0 <= success_count b /\
  (cb_state b = CLOSED <-> failure_count b < failure_threshold cfg).

Lemma current_state_ok m b : breaker_ok b -> breaker_ok (snd (current_state m b)).
Proof.
  unfold current_state, breaker_ok. case_bool_decide as Hs; simpl; [|done].
  destruct (_ <=? _); simpl; [|done]. intros (H1 & H2 & H3). repeat split; try done.
  rewrite <- H3, Hs. done.
Qed.
Lemma apply_ok e b : 1 <= failure_threshold cfg -> breaker_ok b -> breaker_ok (apply e b).
Proof.
  intros Ht Hb. destruct e as [m w|m| |m|]; simpl.
  - unfold enter. pose proof (current_state_ok m b Hb) as H. destruct (current_state m b) as [st b'].
    by case_bool_decide.
  - destruct Hb as (H1 & H2 & H3). unfold record_failure, breaker_ok; simpl.
    split; [lia|]. split; [lia|]. case_bool_decide as Hs; simpl.
    + rewrite Hs in *. split; [done|]. intros H. enough (OPEN = CLOSED) by done. apply H3. lia.
    + destruct (Z.leb_spec (failure_threshold cfg) (failure_count b + 1)); [split; [done|lia]|].
      split; [lia|]. intros _. apply H3. lia.
  - destruct Hb as (H1 & H2 & H3). unfold record_success, breaker_ok; simpl.
    split; [lia|]. split; [case_bool_decide; lia|]. split; [lia|done].
  - by apply current_state_ok.
  - unfold breaker_ok. simpl. split; [lia|]. split; [lia|]. split; [lia|done].
Qed.
Lemma run_breaker_ok es b : 1 <= failure_threshold cfg -> breaker_ok b -> breaker_ok (run es b).
Proof. revert b. induction es as [|e es IH]; intros b Ht Hb; [done|]. apply IH; [done|]. by apply apply_ok. Qed.

(** Whether the gate opens, and what passing it leaves. *)
Definition rejects (t : Z) (b : Breaker) : bool :=
  bool_decide (cb_state b = OPEN) && (t - last_failure_time b <? recovery_timeout cfg).
Lemma enter_spec t w b :
  enter t w b =
  if rejects t b then (Raise (CircuitOpenError (cb_name cfg)), b)
  else (Ok tt, mkBreaker (if bool_decide (cb_state b = OPEN) then HALF_OPEN else cb_state b)
                 (failure_count b) (success_count b) (last_failure_time b) w).
Proof.
  unfold enter, current_state, rejects. case_bool_decide as Hs; simpl.
  - rewrite Z.ltb_antisym. destruct (_ <=? _); simpl; [done|]. by rewrite bool_decide_true.
  - by rewrite bool_decide_false.
Qed.

(** * Load under sustained failure *)

(** Calls that all fail, each at a clock reading: how many reach the service. *)
Fixpoint invocations (ts : list Z) (b : Breaker) : Z :=
  match ts with
  | [] => 0
  | t :: ts' =>
      match enter t t b with
      | (Raise _, b) => invocations ts' b
      | (Ok _, b) => 1 + invocations ts' (record_failure t b)
      end
  end.
Fixpoint increasing (t : Z) (ts : list Z) : Prop :=
  match ts with [] => True | t' :: ts' => t <= t' /\ increasing t' ts' end.

(** How many failing calls the breaker can still let through until [T]. *)
Definition allowance (T t : Z) (b : Breaker) : Z :=
  match cb_state b with
  | CLOSED => failure_threshold cfg - failure_count b + (T - t) / recovery_timeout cfg
  | HALF_OPEN => 1 + (T - t) / recovery_timeout cfg
  | OPEN => (T - last_failure_time b) / recovery_timeout cfg
  end.

Lemma invocations_bounded T ts : forall t b,
  1 <= recovery_timeout cfg -> breaker_ok b -> (cb_state b = OPEN -> last_failure_time b <= t) ->
  increasing t ts -> Forall (fun t' => t' <= T) ts -> t <= T ->
  invocations ts b <= allowance T t b.
Proof.
  set (to := recovery_timeout cfg).
  induction ts as [|t' ts IH]; intros t b Hto Hok Hl Hinc Hall HT; simpl.
  - unfold allowance. destruct Hok as (_ & _ & Hc).
    assert (0 <= (T - t) / to) by (apply Z.div_pos; lia).
    destruct (cb_state b); fold to; [|apply Z.div_pos; specialize (Hl eq_refl); lia|lia].
    assert (failure_count b < failure_threshold cfg) by (by apply Hc). lia.
  - destruct Hinc as [Htt Hinc]. apply Forall_cons in Hall as [HtT Hall]. rewrite enter_spec.
    destruct (rejects t' b) eqn:Hrej.
    + etransitivity; [apply (IH t'); try done; intros; specialize (Hl H); lia|].
      apply andb_prop in Hrej as [Hs _]. apply bool_decide_eq_true in Hs.
      unfold allowance. by rewrite Hs.
    + set (b1 := mkBreaker _ _ _ _ _).
      assert (Hok1 : breaker_ok b1).
      { pose proof (current_state_ok t' b Hok) as H. destruct Hok as (H1 & H2 & H3).
        unfold breaker_ok, b1. simpl. split; [done|]. split; [done|].
        rewrite <- H3. case_bool_decide as Hs; [rewrite Hs|]; done. }
      destruct Hok as (Hf0 & Hs0 & Hc). destruct Hok1 as (_ & _ & Hc1).
      assert (Hthr : 1 <= failure_threshold cfg \/ cb_state b <> CLOSED).
      { destruct (cb_state b); [left|by right|by right].
        assert (failure_count b < failure_threshold cfg) by (by apply Hc). lia. }
      assert (Hmono : (T - t') / to <= (T - t) / to) by (apply Z.div_le_mono; lia).
      assert (Hpos : 0 <= (T - t') / to) by (apply Z.div_pos; lia).
      assert (Hok2 : breaker_ok (record_failure t' b1)).
      { unfold record_failure, breaker_ok; simpl.
        split; [lia|]. split; [lia|]. case_bool_decide as Hs; simpl.
        - simpl in Hs. case_bool_decide; congruence.
        - destruct (Z.leb_spec (failure_threshold cfg) (failure_count b + 1)); [split; [done|lia]|].
          split; [lia|]. intros _. apply Hc1. simpl. lia. }
      specialize (IH t' (record_failure t' b1) Hto Hok2). simpl in IH.
      specialize (IH ltac:(lia) Hinc Hall HtT). etransitivity; [apply Z.add_le_mono_l, IH|].
      unfold allowance at 1, record_failure. cbn [cb_state failure_count last_failure_time].
      destruct Hok2 as (_ & _ & Hc2). unfold record_failure in Hc2. simpl in Hc2.
      unfold allowance. destruct (cb_state b) eqn:Hst; simpl in Hc2 |- *; fold to.
      * destruct (Z.leb_spec (failure_threshold cfg) (failure_count b + 1)); fold to; [|lia].
        assert (failure_count b < failure_threshold cfg) by (by apply Hc). lia.
      * unfold rejects in Hrej. rewrite Hst in Hrej. simpl in Hrej. fold to in Hrej.
        assert (1 + (T - t') / to <= (T - last_failure_time b) / to); [|].
        { rewrite <- (Z.div_add_l 1) by lia. apply Z.div_le_mono; lia. }
        destruct (Z.leb_spec (failure_threshold cfg) (failure_count b + 1)); fold to; [lia|].
        exfalso. enough (OPEN = CLOSED) by done. apply Hc. lia.
      * destruct (Z.leb_spec (failure_threshold cfg) (failure_count b + 1)); fold to; [lia|].
        exfalso. enough (HALF_OPEN = CLOSED) by done. apply Hc. lia.
Qed.

Lemma retry_attempts {F R} (resolve : F -> res R * F) (cnt : F -> Z) n last f :
  (forall f, cnt (snd (resolve f)) = cnt f + 1) ->
  cnt f <= cnt (snd (resolve_with_retry resolve n last f)) <= cnt f + Z.of_nat n.
Proof.
  intros Hcnt. revert last f. induction n as [|n IH]; intros last f; simpl; [lia|].
  specialize (Hcnt f). destruct (resolve f) as [[r|e] f']; simpl in *; [lia|].
  specialize (IH (Some e) f'). lia.
Qed.
End breaker.

(** * Claims *)

(** One call through the breaker, on every branch: while the circuit is
    open and the cool-down has not passed, the call raises [CircuitOpenError]
    without touching the service and changes nothing; otherwise the service is
    called exactly once, a success closes the circuit with no failures counted,
    and a failure re-raises the service's exception and leaves the circuit open
    from that moment exactly when it was probing or the count reached the
    threshold. *)
Theorem call_spec {F R} cfg (func : F -> res R * F) t w tf b f :
  breaker_ok cfg b ->
  match call cfg func t w tf b f with
  | (Raise e, b', f') =>
      (rejects cfg t b = true /\ e = CircuitOpenError (cb_name cfg) /\ b' = b /\ f' = f) \/
      (rejects cfg t b = false /\ func f = (Raise e, f') /\ last_failure_time b' = tf /\
       failure_count b' = failure_count b + 1 /\
       (cb_state b' = OPEN <-> cb_state b <> CLOSED \/ failure_threshold cfg <= failure_count b + 1) /\
       (cb_state b' = OPEN \/ cb_state b' = CLOSED))
  | (Ok r, b', f') =>
      rejects cfg t b = false /\ func f = (Ok r, f') /\ cb_state b' = CLOSED /\ failure_count b' = 0 /\
      success_count b' = if bool_decide (cb_state b = CLOSED) then success_count b + 1 else 1
  end.
Proof.
  intros (_ & _ & Hc). unfold call. rewrite enter_spec. destruct (rejects cfg t b); [by left|].
  destruct (func f) as [[r|e] f'] eqn:Hf.
  - unfold record_success. simpl. split; [done|]. split; [done|]. split; [done|]. split; [done|].
    by destruct (cb_state b).
  - right. unfold record_failure. simpl. do 4 (split; [done|]).
    destruct (cb_state b); simpl.
    + destruct (Z.leb_spec (failure_threshold cfg) (failure_count b + 1)); naive_solver lia.
    + destruct (Z.leb_spec (failure_threshold cfg) (failure_count b + 1)); [naive_solver|].
      exfalso. enough (OPEN = CLOSED) by done. apply Hc. lia.
    + destruct (Z.leb_spec (failure_threshold cfg) (failure_count b + 1)); [naive_solver|].
      exfalso. enough (HALF_OPEN = CLOSED) by done. apply Hc. lia.
Qed.

(** Threads may interleave the locked sections in any order: the circuit is
    closed exactly while the failures counted since the last success or reset
    are below the threshold. *)
Theorem breaker_invariant cfg es :
  1 <= failure_threshold cfg ->
  let b := run cfg es new_breaker in
  0 <= failure_count b /\ 0 <= success_count b /\
  (cb_state b = CLOSED <-> failure_count b < failure_threshold cfg).
Proof.
  intros Ht b. apply (run_breaker_ok cfg es new_breaker Ht).
  unfold breaker_ok. simpl. split; [lia|]. split; [lia|]. split; [lia|done].
Qed.

(** A failing service is shielded: of any number of calls over [T] time
    units that would all fail, at most [failure_threshold + T / recovery_timeout]
    reach it. *)
Theorem failing_service_load cfg ts T :
  1 <= failure_threshold cfg -> 1 <= recovery_timeout cfg -> 0 <= T ->
  increasing 0 ts -> Forall (fun t => t <= T) ts ->
  invocations cfg ts new_breaker <= failure_threshold cfg + T / recovery_timeout cfg.
Proof.
  intros Hth Hto HT Hinc Hall.
  etransitivity; [apply (invocations_bounded cfg T ts 0); try done|].
  - unfold breaker_ok. simpl. split; [lia|]. split; [lia|]. split; [lia|done].
  - unfold allowance. simpl. rewrite !Z.sub_0_r. lia.
Qed.

(** The resilient resolver never raises: whatever the source does, a
    lookup returns a list, empty when the circuit is open or every attempt
    failed, and it reaches the source at most [max_attempts] times, not at all
    when the circuit rejects. *)
Theorem resilient_resolve_total {F C} cfg (resolve : F -> res (list C) * F) (cnt : F -> Z) n t w tf b f :
  (forall f, cnt (snd (resolve f)) = cnt f + 1) -> 0 <= n ->
  exists l b' f', resilient_resolve cfg resolve n t w tf b f = (Ok l, b', f') /\
    cnt f <= cnt f' <= cnt f + n /\ (rejects cfg t b = true -> l = [] /\ f' = f).
Proof.
  intros Hcnt Hn. unfold resilient_resolve, call. rewrite enter_spec.
  destruct (rejects cfg t b).
  - eexists [], _, f. split; [reflexivity|]. split; [lia|done].
  - pose proof (retry_attempts resolve cnt (Z.to_nat n) None f Hcnt) as H.
    destruct (resolve_with_retry _ _ _ f) as [[l|e] f'].
    + eexists l, _, f'. split; [reflexivity|]. simpl in H. split; [lia|done].
    + eexists [], _, f'. split; [reflexivity|]. simpl in H. split; [lia|done].
Qed.

Definition demo_cfg : Config := mkConfig "openalex" 3 60.
Definition tripped : Breaker := run demo_cfg [Failure 10; Failure 11; Failure 12] new_breaker.

Lemma call_spec_witness :
  match call demo_cfg (fun n : Z => (Ok "hit", n + 1)) 100 0 101 tripped 0 with
  | (Raise e, b', f') => False
  | (Ok r, b', f') => cb_state b' = CLOSED /\ f' = 1
  end.
Proof.
  pose proof (call_spec demo_cfg (fun n : Z => (Ok "hit", n + 1)) 100 0 101 tripped 0
                (run_breaker_ok demo_cfg _ new_breaker ltac:(simpl; lia)
                   ltac:(unfold breaker_ok; simpl; split; [lia|]; split; [lia|]; split; [lia|done]))) as H.
  simpl in *. destruct H as (_ & _ & Hc & _). split; [exact Hc|reflexivity].
Defined.
Lemma breaker_invariant_witness :
  let b := run demo_cfg [Failure 10; Failure 11; Failure 12; Enter 80 80; Enter 81 81; Failure 82; Success] new_breaker in
  0 <= failure_count b /\ 0 <= success_count b /\ (cb_state b = CLOSED <-> failure_count b < failure_threshold demo_cfg).
Proof. apply breaker_invariant. simpl. lia. Defined.
Lemma failing_service_load_witness :
  invocations demo_cfg [1; 2; 3; 4; 5; 63; 64; 100; 124; 130] new_breaker = 5 /\
  invocations demo_cfg [1; 2; 3; 4; 5; 63; 64; 100; 124; 130] new_breaker <= 3 + 130 / 60.
Proof.
  split; [vm_compute; reflexivity|].
  apply (failing_service_load demo_cfg [1; 2; 3; 4; 5; 63; 64; 100; 124; 130] 130); simpl; try lia.
  repeat constructor; lia.
Defined.
Lemma resilient_resolve_total_witness :
  exists l b' f',
    resilient_resolve demo_cfg (fun n : Z => (@Raise (list Z) (Exn "Timeout" "t"), n + 1)) 2 0 0 0 new_breaker 0
      = (Ok l, b', f') /\ 0 <= f' <= 0 + 2 /\ (rejects demo_cfg 0 new_breaker = true -> l = [] /\ f' = 0).
Proof.
  apply (resilient_resolve_total demo_cfg (fun n : Z => (@Raise (list Z) (Exn "Timeout" "t"), n + 1)) (fun n => n));
    [intros f; reflexivity|lia].
Defined.

(** The half-open state admits every caller that arrives before the first probe
    reports, and a call that was in flight when the circuit tripped closes it
    again at once when it succeeds. *)
Lemma half_open_admits_many :
  fst (enter demo_cfg 80 80 tripped) = Ok tt /\
  fst (enter demo_cfg 80 80 (snd (enter demo_cfg 80 80 tripped))) = Ok tt.
Proof. vm_compute. done. Qed.
Lemma late_success_closes :
  cb_state tripped = OPEN /\ rejects demo_cfg 13 tripped = true /\
  rejects demo_cfg 13 (record_success tripped) = false.
Proof. vm_compute. done. Qed.
