(* ===== verification/UnionFind.v ===== *)
(** [backend/clustering/union_find.py]: the disjoint-set forest behind
    clustering, over Python dictionaries, with path compression and union by
    rank. The loops run on fuel, the number of elements, which the rank
    invariant shows is enough. *)
From S2P Require Import Prelude.
Open Scope list_scope.

Record UF (K : Type) := mkUF { parent : list (K * K); rank : list (K * Z) }.
Arguments mkUF {K} _ _.
Arguments parent {K} _.
Arguments rank {K} _.

Section union_find.
Context {K : Type} `{EqDecision K}.
Notation Uf := (UF K).

Definition elements (u : Uf) : list K := dict_keys (parent u).
Definition uf_mem (x : K) (u : Uf) : bool := bool_decide (x ∈ elements u).

Definition uf_empty : Uf := mkUF [] [].
Definition uf_add (x : K) (u : Uf) : Uf :=
  if uf_mem x u then u else mkUF (dict_set x x (parent u)) (dict_set x 0%Z (rank u)).
Definition uf_new (l : list K) : Uf := fold_left (fun u x => uf_add x u) l uf_empty.

(** [self._parent[x]]; every element has one. *)
Definition up (p : list (K * K)) (x : K) : K :=
  match dict_get x p with Some y => y | None => x end.
Definition rank_of (u : Uf) (x : K) : Z :=
  match dict_get x (rank u) with Some r => r | None => 0%Z end.

(** [while parent[root] != root: root = parent[root]] *)
Fixpoint find_root (fuel : nat) (p : list (K * K)) (root : K) : K :=
  match fuel with
  | O => root
  | S n => if decide (up p root = root) then root else find_root n p (up p root)
  end.
(** [while parent[x] != root: parent[x], x = root, parent[x]] *)
Fixpoint compress (fuel : nat) (root x : K) (p : list (K * K)) : list (K * K) :=
  match fuel with
  | O => p
  | S n => if decide (up p x = root) then p else compress n root (up p x) (dict_set x root p)
  end.

Definition uf_find (x : K) (u : Uf) : K * Uf :=
  let u := uf_add x u in
  let fuel := length (parent u) in
  let root := find_root fuel (parent u) x in
  (root, mkUF (compress fuel root x (parent u)) (rank u)).

Definition link (ra rb : K) (u : Uf) : Uf :=
  let '(ra, rb) := if (rank_of u ra <? rank_of u rb)%Z then (rb, ra) else (ra, rb) in
  mkUF (dict_set rb ra (parent u))
       (if (rank_of u ra =? rank_of u rb)%Z then dict_set ra (rank_of u ra + 1)%Z (rank u) else rank u).

Definition uf_union (a b : K) (u : Uf) : Uf :=
  let '(ra, u) := uf_find a u in
  let '(rb, u) := uf_find b u in
  if decide (ra = rb) then u else link ra rb u.

Definition uf_connected (a b : K) (u : Uf) : bool * Uf :=
  let '(ra, u) := uf_find a u in
  let '(rb, u) := uf_find b u in
  (bool_decide (ra = rb), u).

(** [groups.setdefault(k, []).append(x)] *)
Definition group_add {V} (k : K) (x : V) (g : list (K * list V)) : list (K * list V) :=
  dict_set k ((match dict_get k g with Some l => l | None => [] end) ++ [x]) g.

(** Iterating over the keys while [find] rewrites their values. *)
Definition components (u : Uf) : list (list K) * Uf :=
  let '(g, u) := fold_left (fun '(g, u) x => let '(r, u) := uf_find x u in (group_add r x g, u))
                   (elements u) ([], u) in
  (map snd g, u).

(** * Invariant *)

(** [p] leads from [x] to the root [r]. *)
Inductive leads (p : list (K * K)) : K -> K -> Prop :=
  | leads_root r : up p r = r -> leads p r r
  | leads_step x r : up p x <> x -> leads p (up p x) r -> leads p x r.

Record uf_ok (u : Uf) : Prop := {
  ok_nodup : NoDup (elements u);
  ok_closed x : x ∈ elements u -> up (parent u) x ∈ elements u;
  ok_rank x : up (parent u) x <> x -> (rank_of u x < rank_of u (up (parent u) x))%Z
}.

Lemma up_not_in p x : x ∉ dict_keys p -> up p x = x.
Proof. intros H%dict_get_None. unfold up. by rewrite H. Qed.
Lemma up_set_eq p x y : up (dict_set x y p) x = y.
Proof. unfold up. by rewrite dict_get_set_eq. Qed.
Lemma up_set_ne p x y z : z <> x -> up (dict_set x y p) z = up p z.
Proof. intros H. unfold up. by rewrite dict_get_set_ne. Qed.

Lemma leads_is_root p x r : leads p x r -> up p r = r.
Proof. by induction 1. Qed.
Lemma leads_det p x r r' : leads p x r -> leads p x r' -> r = r'.
Proof.
  intros H. revert r'. induction H as [r Hr|x r Hx H IH]; intros r' H'.
  - inversion H'; congruence.
  - apply IH. inversion H'; [congruence|done].
Qed.

(** How many elements rank above [x]: strictly fewer one step up. *)
Definition above (u : Uf) (x : K) : nat :=
  length (List.filter (fun k => (rank_of u x <? rank_of u k)%Z) (elements u)).

Lemma filter_length_mono {A} (p q : A -> bool) l y :
  (forall x, In x l -> p x = true -> q x = true) -> In y l -> p y = false -> q y = true ->
  (length (List.filter p l) < length (List.filter q l))%nat.
Proof.
  assert (Hle : forall l, (forall x, In x l -> p x = true -> q x = true) ->
            (length (List.filter p l) <= length (List.filter q l))%nat).
  { clear. induction l as [|a l IH]; simpl; intros H; [lia|].
    specialize (IH (fun x Hx => H x (or_intror Hx))). pose proof (H a (or_introl eq_refl)).
    destruct (p a), (q a); simpl; try lia; try (specialize (H0 eq_refl); done). }
  induction l as [|a l IH]; simpl; intros H Hy Hp Hq; [done|].
  specialize (Hle l (fun x Hx => H x (or_intror Hx))).
  destruct Hy as [->|Hy].
  - rewrite Hp, Hq. simpl. lia.
  - specialize (IH (fun x Hx => H x (or_intror Hx)) Hy Hp Hq).
    pose proof (H a (or_introl eq_refl)). destruct (p a), (q a); simpl; try lia; try (specialize (H0 eq_refl); done).

Qed.

Lemma above_step u x :
  uf_ok u -> x ∈ elements u -> up (parent u) x <> x -> (above u (up (parent u) x) < above u x)%nat.
Proof.
  intros Hu Hx Hne. pose proof (ok_rank u Hu x Hne) as Hr.
  apply (filter_length_mono _ _ _ (up (parent u) x)).
  - intros k _ H. lia.
  - apply list_elem_of_In. by apply (ok_closed u Hu).
  - lia.
  - lia.
Qed.
Lemma above_lt u x : x ∈ elements u -> (above u x < length (parent u))%nat.
Proof.
  intros Hx. unfold above. replace (length (parent u)) with (length (elements u)) by apply length_map.
  pose proof (filter_length_mono (fun k => (rank_of u x <? rank_of u k)%Z) (fun _ => true)
                (elements u) x) as H.
  replace (List.filter (fun _ => true) (elements u)) with (elements u) in H
    by (clear; induction (elements u); simpl; congruence).
  apply H; [done|by apply list_elem_of_In|lia|done].
Qed.

Lemma find_root_leads u x n :
  uf_ok u -> x ∈ elements u -> (above u x < n)%nat -> leads (parent u) x (find_root n (parent u) x).
Proof.
  intros Hu. revert x. induction n as [|n IH]; intros x Hx Hn; [lia|]. simpl.
  case_decide as E; [by constructor|]. apply leads_step; [done|].
  apply IH; [by apply ok_closed|]. pose proof (above_step u x Hu Hx E). lia.
Qed.

Lemma leads_exists u x : uf_ok u -> exists r, leads (parent u) x r.
Proof.
  intros Hu. destruct (decide (x ∈ elements u)) as [Hx|Hx].
  - exists (find_root (length (parent u)) (parent u) x). apply find_root_leads; [done|done|].
    by apply above_lt.
  - exists x. constructor. by apply up_not_in.
Qed.
Lemma leads_in u x r : uf_ok u -> x ∈ elements u -> leads (parent u) x r -> r ∈ elements u.
Proof. intros Hu Hx H. induction H; [done|]. by apply IHleads, ok_closed. Qed.
Lemma leads_rank u x r : uf_ok u -> leads (parent u) x r -> x = r \/ (rank_of u x < rank_of u r)%Z.
Proof.
  intros Hu H. induction H as [r Hr|x r Hx H IH]; [by left|right].
  pose proof (ok_rank u Hu x Hx). destruct IH as [<-|IH]; lia.
Qed.

(** ** Path compression changes no root *)

Definition same_roots (u u' : Uf) : Prop :=
  elements u' = elements u /\ forall x r, leads (parent u) x r <-> leads (parent u') x r.

Lemma shortcut_ok u x r :
  uf_ok u -> x ∈ elements u -> x <> r -> leads (parent u) x r ->
  let u' := mkUF (dict_set x r (parent u)) (rank u) in uf_ok u' /\ same_roots u u'.
Proof.
  intros Hu Hx Hne Hl u'. assert (Hel : elements u' = elements u).
  { unfold u', elements. simpl. rewrite dict_keys_set. by rewrite decide_True. }
  assert (Hup : forall z, z <> x -> up (parent u') z = up (parent u) z)
    by (intros; by apply up_set_ne).
  assert (Hupx : up (parent u') x = r) by apply up_set_eq.
  assert (Hr : up (parent u') r = r) by (rewrite Hup; [by eapply leads_is_root|done]).
  split.
  - split.
    + rewrite Hel. apply Hu.
    + intros z. rewrite Hel. destruct (decide (z = x)) as [->|Hz].
      * rewrite Hupx. intros _. by eapply leads_in.
      * rewrite (Hup z Hz). apply Hu.
    + intros z. change (rank_of u') with (rank_of u). destruct (decide (z = x)) as [->|Hz].
      * rewrite Hupx. intros _. destruct (leads_rank u x r Hu Hl); done.
      * rewrite (Hup z Hz). apply Hu.
  - split; [done|].
    assert (Hfwd : forall z s, leads (parent u) z s -> leads (parent u') z s).
    { intros z s H. induction H as [s Hs|z s Hz H IH].
      - apply leads_root. destruct (decide (s = x)) as [->|Hsx]; [|by rewrite Hup].
        inversion Hl; congruence.
      - destruct (decide (z = x)) as [->|Hzx].
        + assert (s = r) as -> by (apply (leads_det (parent u) x); [by apply leads_step|done]).
          apply leads_step; rewrite Hupx; [done|by apply leads_root].
        + apply leads_step; rewrite Hup by done; done. }
    intros z s. split; [apply Hfwd|]. intros H'.
    destruct (leads_exists u z Hu) as [s' H]. by rewrite (leads_det _ _ _ _ H' (Hfwd _ _ H)).
Qed.

Lemma same_roots_refl u : same_roots u u.
Proof. by split. Qed.
Lemma same_roots_trans u v w : same_roots u v -> same_roots v w -> same_roots u w.
Proof. intros [E H] [E' H']. split; [congruence|]. intros. by rewrite H, H'. Qed.

Lemma compress_ok n x r u :
  uf_ok u -> x ∈ elements u -> leads (parent u) x r ->
  let u' := mkUF (compress n r x (parent u)) (rank u) in uf_ok u' /\ same_roots u u'.
Proof.
  revert x u. induction n as [|n IH]; intros x u Hu Hx Hl; simpl.
  - destruct u. split; [done|apply same_roots_refl].
  - case_decide as E; [destruct u; split; [done|apply same_roots_refl]|].
    assert (Hne : x <> r) by (intros ->; by apply E, (leads_is_root _ r r)).
    destruct (shortcut_ok u x r Hu Hx Hne Hl) as [Hu1 Hs1].
    assert (Hl' : leads (parent u) (up (parent u) x) r) by (inversion Hl; congruence).
    set (u1 := mkUF (dict_set x r (parent u)) (rank u)) in *.
    destruct (IH (up (parent u) x) u1) as [Hu2 Hs2]; [done| | |].
    + rewrite (proj1 Hs1). by apply ok_closed.
    + by apply Hs1.
    + split; [done|]. by eapply same_roots_trans.
Qed.

Lemma uf_add_ok x u :
  uf_ok u -> uf_ok (uf_add x u) /\ (forall y r, leads (parent (uf_add x u)) y r <-> leads (parent u) y r) /\
  elements (uf_add x u) = if decide (x ∈ elements u) then elements u else elements u ++ [x].
Proof.
  intros Hu. unfold uf_add, uf_mem. case_bool_decide as Hx; [by rewrite decide_True|].
  rewrite decide_False by done.
  assert (Hel : elements (mkUF (dict_set x x (parent u)) (dict_set x 0%Z (rank u))) = elements u ++ [x]).
  { unfold elements. simpl. rewrite dict_keys_set. by rewrite decide_False. }
  assert (Hup : forall z, up (dict_set x x (parent u)) z = up (parent u) z).
  { intros z. destruct (decide (z = x)) as [->|]; [|by apply up_set_ne].
    rewrite up_set_eq. symmetry. by apply up_not_in. }
  assert (Hsub : forall z, z ∈ elements u -> z <> x) by (intros z Hz ->; done).
  split; [|split; [|done]].
  - split.
    + rewrite Hel. apply NoDup_app. split; [apply Hu|]. split; [|apply NoDup_singleton].
      intros z Hz Hz'%list_elem_of_singleton. subst. done.
    + intros z. rewrite Hel. simpl. rewrite Hup, !elem_of_app, !list_elem_of_singleton.
      intros [Hz| ->]; [left; by apply Hu|right; by apply up_not_in].
    + intros z. simpl. rewrite Hup. intros Hz. unfold rank_of. simpl.
      assert (Hzin : z ∈ elements u).
      { destruct (decide (z ∈ elements u)) as [|Hn]; [done|]. by rewrite up_not_in in Hz. }
      rewrite !dict_get_set_ne; [by apply (ok_rank u Hu z)| |by apply Hsub].
      apply Hsub. by apply ok_closed.
  - simpl. intros y r. split; intros H; induction H.
    + apply leads_root. by rewrite <- Hup.
    + rewrite Hup in *. by apply leads_step.
    + apply leads_root. by rewrite Hup.
    + apply leads_step; rewrite Hup; done.
Qed.

Lemma uf_find_ok x u :
  uf_ok u ->
  let '(r, u') := uf_find x u in
  uf_ok u' /\ leads (parent u) x r /\ (forall y s, leads (parent u') y s <-> leads (parent u) y s) /\
  elements u' = (if decide (x ∈ elements u) then elements u else elements u ++ [x]).
Proof.
  intros Hu. unfold uf_find. destruct (uf_add_ok x u Hu) as (Hu1 & Hl1 & Hel1).
  set (u1 := uf_add x u) in *.
  assert (Hx : x ∈ elements u1).
  { rewrite Hel1. case_decide; [done|]. rewrite elem_of_app, list_elem_of_singleton. by right. }
  assert (Hl : leads (parent u1) x (find_root (length (parent u1)) (parent u1) x)).
  { apply find_root_leads; [done|done|]. by apply above_lt. }
  destruct (compress_ok (length (parent u1)) x _ u1 Hu1 Hx Hl) as [Hu2 [Hel2 Hl2]].
  split; [done|]. split; [by apply Hl1|]. split; [|by rewrite Hel2].
  intros y s. rewrite <- Hl2. apply Hl1.
Qed.

(** ** Union merges two classes *)

Definition same (u : Uf) (x y : K) : Prop := exists r, leads (parent u) x r /\ leads (parent u) y r.

Lemma same_refl u x : uf_ok u -> same u x x.
Proof. intros Hu. destruct (leads_exists u x Hu) as [r H]. by exists r. Qed.
Lemma same_sym u x y : same u x y -> same u y x.
Proof. intros (r & ? & ?). by exists r. Qed.
Lemma same_trans u x y z : same u x y -> same u y z -> same u x z.
Proof.
  intros (r & Hx & Hy) (s & Hy' & Hz). rewrite (leads_det _ _ _ _ Hy Hy') in *. by exists s.
Qed.
Lemma same_root u x y r s : leads (parent u) x r -> leads (parent u) y s -> same u x y <-> r = s.
Proof.
  intros Hx Hy. split.
  - intros (t & Hx' & Hy'). by rewrite (leads_det _ _ _ _ Hx Hx'), (leads_det _ _ _ _ Hy Hy').
  - intros ->. by exists s.
Qed.

(** The tree of the lower root hangs below the other. *)
Lemma hang_ok u ra rb bump :
  uf_ok u -> ra ∈ elements u -> rb ∈ elements u -> ra <> rb ->
  up (parent u) ra = ra -> up (parent u) rb = rb ->
  (rank_of u rb <= rank_of u ra)%Z -> (rank_of u rb < rank_of u ra + bump)%Z -> (0 <= bump)%Z ->
  let rk := if decide (bump = 0%Z) then rank u else dict_set ra (rank_of u ra + bump)%Z (rank u) in
  let u' := mkUF (dict_set rb ra (parent u)) rk in
  uf_ok u' /\ elements u' = elements u /\
  forall z s, leads (parent u) z s -> leads (parent u') z (if decide (s = rb) then ra else s).
Proof.
  intros Hu Ha Hb Hne Hra Hrb Hle Hlt Hb0 rk u'.
  assert (Hel : elements u' = elements u).
  { unfold u', elements. simpl. rewrite dict_keys_set. by rewrite decide_True. }
  assert (Hup : forall z, z <> rb -> up (parent u') z = up (parent u) z)
    by (intros; by apply up_set_ne).
  assert (Hupb : up (parent u') rb = ra) by apply up_set_eq.
  assert (Hrka : rank_of u' ra = (rank_of u ra + bump)%Z).
  { unfold rank_of at 1, u', rk. simpl. case_decide as E; [rewrite E, Z.add_0_r; done|].
    by rewrite dict_get_set_eq. }
  assert (Hrk : forall z, z <> ra -> rank_of u' z = rank_of u z).
  { intros z Hz. unfold rank_of at 1, u', rk. simpl. case_decide; [done|].
    by rewrite dict_get_set_ne. }
  split; [split|split; [done|]].
  - rewrite Hel. apply Hu.
  - intros z. rewrite Hel. destruct (decide (z = rb)) as [->|Hz]; [by rewrite Hupb|].
    rewrite (Hup z Hz). apply Hu.
  - intros z. destruct (decide (z = rb)) as [->|Hz].
    + rewrite Hupb, Hrka, (Hrk rb) by done. lia.
    + rewrite (Hup z Hz). intros Hz'. pose proof (ok_rank u Hu z Hz') as H.
      assert (z <> ra) by (intros ->; done). rewrite (Hrk z) by done.
      destruct (decide (up (parent u) z = ra)) as [E|]; [rewrite E in *; lia|]. by rewrite Hrk.
  - intros z s H. induction H as [s Hs|z s Hz H IH].
    + case_decide as E.
      * rewrite E. apply leads_step; rewrite Hupb; [done|]. apply leads_root. by rewrite Hup.
      * apply leads_root. by rewrite Hup.
    + apply leads_step; rewrite Hup by (intros ->; congruence); done.
Qed.

Lemma link_ok u ra rb :
  uf_ok u -> ra ∈ elements u -> rb ∈ elements u -> ra <> rb ->
  up (parent u) ra = ra -> up (parent u) rb = rb ->
  uf_ok (link ra rb u) /\ elements (link ra rb u) = elements u /\
  exists win lose, (win = ra /\ lose = rb \/ win = rb /\ lose = ra) /\
    forall z s, leads (parent u) z s ->
      leads (parent (link ra rb u)) z (if decide (s = lose) then win else s).
Proof.
  intros Hu Ha Hb Hne Hra Hrb. unfold link.
  destruct (rank_of u ra <? rank_of u rb)%Z eqn:Hlt; cbv beta iota.
  - rewrite (proj2 (Z.eqb_neq _ _)) by lia.
    destruct (hang_ok u rb ra 0) as (H1 & H2 & H3); try done; try lia.
    rewrite decide_True in * by done. split; [done|]. split; [done|]. exists rb, ra. auto.
  - destruct (rank_of u ra =? rank_of u rb)%Z eqn:Heq.
    + destruct (hang_ok u ra rb 1) as (H1 & H2 & H3); try done; try lia.
      simpl in *. split; [done|]. split; [done|]. exists ra, rb. auto.
    + destruct (hang_ok u ra rb 0) as (H1 & H2 & H3); try done; try lia.
      rewrite decide_True in * by done. split; [done|]. split; [done|]. exists ra, rb. auto.
Qed.

Definition keys_after (x : K) (l : list K) : list K := if decide (x ∈ l) then l else l ++ [x].

Lemma uf_union_ok a b u :
  uf_ok u ->
  uf_ok (uf_union a b u) /\
  elements (uf_union a b u) = keys_after b (keys_after a (elements u)) /\
  forall x y, same (uf_union a b u) x y <->
    same u x y \/ (same u x a /\ same u y b) \/ (same u x b /\ same u y a).
Proof.
  intros Hu. unfold uf_union. pose proof (uf_find_ok a u Hu) as Ha.
  destruct (uf_find a u) as [ra u1]. destruct Ha as (Hu1 & Hla & Hl1 & Hel1).
  pose proof (uf_find_ok b u1 Hu1) as Hb.
  destruct (uf_find b u1) as [rb u2]. destruct Hb as (Hu2 & Hlb & Hl2 & Hel2).
  fold (keys_after a (elements u)) in Hel1. rewrite Hel1 in Hel2.
  fold (keys_after b (keys_after a (elements u))) in Hel2.
  assert (Hl : forall y s, leads (parent u2) y s <-> leads (parent u) y s)
    by (intros; by rewrite Hl2, Hl1).
  assert (Hlb' : leads (parent u) b rb) by (by apply Hl1).
  assert (Hab : same u a b <-> ra = rb) by (by apply same_root).
  assert (Hin : forall x, x ∈ keys_after x (elements u1)).
  { intros x. unfold keys_after. case_decide; [done|]. set_solver. }
  assert (Hina : a ∈ elements u1).
  { rewrite Hel1. unfold keys_after. case_decide; [done|]. set_solver. }
  assert (Hina2 : a ∈ elements u2 /\ b ∈ elements u2).
  { rewrite Hel2. rewrite <- Hel1. unfold keys_after. case_decide; set_solver. }
  case_decide as E.
  - split; [done|]. split; [done|]. intros x y.
    assert (Hs : same u2 x y <-> same u x y) by (unfold same; setoid_rewrite Hl; done).
    rewrite Hs. apply Hab in E. split; [by left|].
    intros [H|[[H1 H2]|[H1 H2]]]; [done| |].
    + exact (same_trans u x a y H1 (same_trans u a b y E (same_sym u y b H2))).
    + exact (same_trans u x b y H1 (same_trans u b a y (same_sym u a b E) (same_sym u y a H2))).
  - assert (Hra : ra ∈ elements u2).
    { exact (leads_in u2 a ra Hu2 (proj1 Hina2) (proj2 (Hl a ra) Hla)). }
    assert (Hrb : rb ∈ elements u2).
    { exact (leads_in u2 b rb Hu2 (proj2 Hina2) (proj2 (Hl b rb) Hlb')). }
    destruct (link_ok u2 ra rb Hu2 Hra Hrb E) as (Hu3 & Hel3 & win & lose & Hwl & Hl3).
    { exact (leads_is_root _ a ra (proj2 (Hl a ra) Hla)). }
    { exact (leads_is_root _ b rb (proj2 (Hl b rb) Hlb')). }
    split; [done|]. split; [by rewrite Hel3|]. intros x y.
    destruct (leads_exists u x Hu) as [r Hr]. destruct (leads_exists u y Hu) as [s Hs].
    rewrite (same_root _ x y _ _ (Hl3 x r (proj2 (Hl _ _) Hr)) (Hl3 y s (proj2 (Hl _ _) Hs))).
    rewrite (same_root u x y r s Hr Hs), (same_root u x a r ra Hr Hla), (same_root u y b s rb Hs Hlb'),
      (same_root u x b r rb Hr Hlb'), (same_root u y a s ra Hs Hla).
    destruct Hwl as [[-> ->]|[-> ->]]; repeat case_decide; subst; naive_solver.
Qed.

(** ** Sequences of unions *)

Definition unions (ps : list (K * K)) (u : Uf) : Uf := fold_left (fun u p => uf_union p.1 p.2 u) ps u.

(** The equivalence generated by [R]. *)
Definition generated (R : K -> K -> Prop) : K -> K -> Prop := rtsc R.

Lemma generated_mono (R R' : K -> K -> Prop) x y :
  (forall a b, R a b -> generated R' a b) -> generated R x y -> generated R' x y.
Proof.
  intros H Hxy. induction Hxy as [x|x y z [Hr|Hr] _ IH]; [reflexivity| |].
  - etransitivity; [by apply H|done].
  - etransitivity; [symmetry; by apply H|done].
Qed.

Lemma unions_ok ps u :
  uf_ok u ->
  uf_ok (unions ps u) /\
  elements (unions ps u) = fold_left (fun l p => keys_after p.2 (keys_after p.1 l)) ps (elements u) /\
  forall x y, same (unions ps u) x y <-> generated (fun a b => same u a b \/ In (a, b) ps) x y.
Proof.
  revert u. induction ps as [|[a b] ps IH]; intros u Hu; simpl.
  - split; [done|]. split; [done|]. intros x y. split.
    + intros H. apply rtc_once. left. by left.
    + intros H. induction H as [x|x y z [[Hr|[]]|[Hr|[]]] _ IH]; [by apply same_refl| |].
      * by eapply same_trans.
      * eapply same_trans; [by apply same_sym|done].
  - destruct (uf_union_ok a b u Hu) as (Hu1 & Hel & Hs).
    destruct (IH (uf_union a b u) Hu1) as (H1 & H2 & H3).
    split; [done|]. split; [by rewrite H2, Hel|]. intros x y. rewrite H3. split.
    + apply generated_mono. intros c d [H|H]; [|apply rtc_once; left; auto].
      apply Hs in H as [H|[[Hc Hd]|[Hc Hd]]].
      * apply rtc_once. left. auto.
      * etransitivity; [apply rtc_once; left; left; exact Hc|].
        etransitivity; [apply rtc_once; left; right; by left|].
        apply rtc_once. right. left. exact Hd.
      * etransitivity; [apply rtc_once; left; left; exact Hc|].
        etransitivity; [apply rtc_once; right; right; by left|].
        apply rtc_once. right. left. exact Hd.
    + apply generated_mono. intros c d [H|[[= <- <-]|H]]; apply rtc_once; left.
      * left. apply Hs. by left.
      * left. apply Hs. right. left. split; by apply same_refl.
      * by right.
Qed.

(** ** Grouping *)

Definition first_seen (l : list K) : list K := fold_left (fun acc k => keys_after k acc) l [].

Lemma first_seen_snoc l x : first_seen (l ++ [x]) = keys_after x (first_seen l).
Proof. unfold first_seen. by rewrite fold_left_app. Qed.
Lemma first_seen_in l x : x ∈ first_seen l <-> x ∈ l.
Proof.
  induction l as [|y l IH] using rev_ind; [done|]. rewrite first_seen_snoc. unfold keys_after.
  case_decide; rewrite ?elem_of_app, ?list_elem_of_singleton, ?IH; [|tauto].
  split; [tauto|]. intros [?| ->]; [done|]. by apply IH.
Qed.
Lemma first_seen_NoDup l : NoDup (first_seen l).
Proof.
  induction l as [|y l IH] using rev_ind; [constructor|]. rewrite first_seen_snoc. unfold keys_after.
  case_decide; [done|]. apply NoDup_app. split; [done|]. split; [|apply NoDup_singleton].
  intros z Hz ->%list_elem_of_singleton. done.
Qed.

Lemma first_seen_fixed l : NoDup l -> first_seen l = l.
Proof.
  induction l as [|x l IH] using rev_ind; [done|]. intros (Hl & Hx & _)%NoDup_app.
  rewrite first_seen_snoc, IH by done. unfold keys_after. rewrite decide_False; [done|].
  intros Hin. apply (Hx x Hin). by left.
Qed.

Definition group_by {V} (f : V -> K) (l : list V) : list (K * list V) :=
  fold_left (fun g x => group_add (f x) x g) l [].

Lemma group_by_get {V} (f : V -> K) l k :
  dict_get k (group_by f l) =
  let m := List.filter (fun x => bool_decide (f x = k)) l in
  match m with [] => None | _ => Some m end.
Proof.
  induction l as [|x l IH] using rev_ind; [done|].
  unfold group_by in *. rewrite fold_left_app, List.filter_app. simpl. unfold group_add.
  set (g := fold_left _ l []) in *. case_bool_decide as E.
  - subst. rewrite dict_get_set_eq, IH.
    destruct (List.filter _ l) as [|y ys]; done.
  - rewrite dict_get_set_ne by done. rewrite IH, app_nil_r. done.
Qed.
Lemma group_by_keys {V} (f : V -> K) l : dict_keys (group_by f l) = first_seen (map f l).
Proof.
  induction l as [|x l IH] using rev_ind; [done|].
  rewrite map_app. simpl. rewrite first_seen_snoc, <- IH. unfold group_by. rewrite fold_left_app.
  simpl. unfold group_add. rewrite dict_keys_set. done.
Qed.

Lemma dict_tabulate {V} (d : list (K * V)) :
  NoDup (dict_keys d) -> map Some (map snd d) = map (fun k => dict_get k d) (dict_keys d).
Proof.
  unfold dict_keys. rewrite !map_map. intros Hnd. apply map_ext_in. intros [k v] Hin. simpl.
  induction d as [|[k' v'] d IH]; simpl in *; [done|].
  apply NoDup_cons in Hnd as [Hk Hnd]. case_decide as E.
  - destruct Hin as [[= -> ->]|Hin]; [done|]. subst. exfalso. apply Hk.
    apply list_elem_of_In. by apply (in_map fst _ (k', v)).
  - destruct Hin as [[= -> ->]|Hin]; [done|auto].
Qed.

Lemma map_Some_inj {A} (l l' : list A) : map Some l = map Some l' -> l = l'.
Proof. revert l'. induction l as [|x l IH]; intros [|x' l'] [=]; [done|]. f_equal; auto. Qed.

(** The groups, in the order in which their first members come. *)
Lemma group_by_values {V} (f : V -> K) l :
  map snd (group_by f l) =
  map (fun k => List.filter (fun x => bool_decide (f x = k)) l) (first_seen (map f l)).
Proof.
  apply map_Some_inj. rewrite dict_tabulate by (rewrite group_by_keys; apply first_seen_NoDup).
  rewrite group_by_keys, map_map. apply map_ext_in. intros k Hk. rewrite group_by_get. simpl.
  destruct (List.filter _ l) as [|y ys] eqn:E; [|done]. exfalso.
  apply list_elem_of_In, first_seen_in, list_elem_of_In, in_map_iff in Hk as (x & Hx & Hin).
  assert (In x []); [|done]. rewrite <- E. apply filter_In. split; [done|]. by apply bool_decide_true.
Qed.

(** ** Components *)

Definition root (u : Uf) (x : K) : K := find_root (length (parent u)) (parent u) x.

Lemma root_leads u x : uf_ok u -> leads (parent u) x (root u x).
Proof.
  intros Hu. destruct (decide (x ∈ elements u)) as [Hx|Hx].
  - apply find_root_leads; [done|done|by apply above_lt].
  - unfold root. pose proof (up_not_in (parent u) x Hx) as E.
    destruct (length (parent u)); simpl; [by apply leads_root|].
    rewrite decide_True by done. by apply leads_root.
Qed.
Lemma same_iff_root u x y : uf_ok u -> same u x y <-> root u x = root u y.
Proof. intros Hu. by apply same_root; apply root_leads. Qed.

Lemma components_spec u :
  uf_ok u ->
  fst (components u) =
  map (fun r => List.filter (fun x => bool_decide (root u x = r)) (elements u))
      (first_seen (map (root u) (elements u))).
Proof.
  intros Hu. rewrite <- group_by_values. unfold components, group_by.
  assert (H : forall l g u', uf_ok u' -> elements u' = elements u ->
            (forall y s, leads (parent u') y s <-> leads (parent u) y s) ->
            (forall x, In x l -> x ∈ elements u) ->
            fst (fold_left (fun '(g, u) x => let '(r, u) := uf_find x u in (group_add r x g, u)) l (g, u')) =
            fold_left (fun g x => group_add (root u x) x g) l g).
  { induction l as [|x l IH]; intros g u' Hu' Hel Hl Hin; [done|]. cbn [fold_left].
    pose proof (uf_find_ok x u' Hu') as Hf. destruct (uf_find x u') as [r u2].
    destruct Hf as (Hu2 & Hr & Hl2 & Hel2). rewrite Hel, decide_True in Hel2 by (apply Hin; by left).
    rewrite IH; [|done|done| |by intros; apply Hin; right].
    - f_equal. f_equal. apply (leads_det (parent u) x); [by apply Hl|by apply root_leads].
    - intros y s. by rewrite Hl2, Hl. }
  specialize (H (elements u) [] u Hu eq_refl (fun _ _ => iff_refl _)
                (fun x Hx => proj2 (list_elem_of_In _ _) Hx)).
  destruct (fold_left _ (elements u) ([], u)) as [g u2]. simpl in *. by rewrite H.
Qed.

Lemma uf_empty_ok : uf_ok uf_empty.
Proof.
  split; [constructor|by intros x Hx%elem_of_nil|]. intros x Hx. exfalso. by apply Hx.
Qed.

Lemma uf_new_ok l :
  uf_ok (uf_new l) /\ elements (uf_new l) = first_seen l /\ forall x y, same (uf_new l) x y <-> x = y.
Proof.
  unfold uf_new. induction l as [|x l (Hu & Hel & Hs)] using rev_ind.
  - split; [apply uf_empty_ok|]. split; [done|]. intros x y. split; [|intros ->; apply same_refl, uf_empty_ok].
    intros (r & Hx & Hy).
    assert (H : forall z s, leads (parent (@uf_empty)) z s -> z = s).
    { intros z s H. destruct H as [s Hr|z s Hz H]; [done|]. exfalso. by apply Hz. }
    by rewrite (H _ _ Hx), (H _ _ Hy).
  - rewrite fold_left_app. simpl. destruct (uf_add_ok x _ Hu) as (H1 & H2 & H3).
    split; [done|]. split.
    + rewrite H3, Hel, first_seen_snoc. done.
    + intros a b. rewrite <- Hs. unfold same. by setoid_rewrite H2.
Qed.
End union_find.

Lemma partition_of_unions {K} `{EqDecision K} (l : list K) (ps : list (K * K)) :
  (forall a b, In (a, b) ps -> a ∈ l /\ b ∈ l) ->
  let u := unions ps (uf_new l) in
  let linked := generated (fun a b => In (a, b) ps) in
  let cs := fst (components u) in
  (forall x y, fst (uf_connected x y u) = true <-> linked x y) /\
  concat cs ≡ₚ first_seen l /\
  (forall c, c ∈ cs -> exists x, x ∈ c /\ forall y, y ∈ c <-> y ∈ l /\ linked x y) /\
  Forall (fun c => c <> []) cs.
Proof.
  intros Hps u linked cs. destruct (uf_new_ok l) as (Hu0 & Hel0 & Hs0).
  destruct (unions_ok ps (uf_new l) Hu0) as (Hu & Hel & Hs). fold u in Hu, Hel, Hs.
  assert (Helu : elements u = first_seen l).
  { rewrite Hel, Hel0. clear -Hps. revert Hps. generalize (first_seen_in l).
    generalize (first_seen l). intros m Hm Hps. induction ps as [|[a b] ps IH]; simpl; [done|].
    destruct (Hps a b) as [Ha Hb]; [by left|]. unfold keys_after.
    rewrite (decide_True (P := a ∈ m)), (decide_True (P := b ∈ m)) by (by apply Hm).
    apply IH. intros; apply Hps; by right. }
  assert (Hlink : forall x y, same u x y <-> linked x y).
  { intros x y. rewrite Hs. unfold linked. split; apply generated_mono; intros a b.
    - intros [->%Hs0|H]; [reflexivity|]. apply rtc_once. by left.
    - intros H. apply rtc_once. left. by right. }
  split; [|split; [|split]].
  - intros x y. rewrite <- Hlink. unfold uf_connected.
    pose proof (uf_find_ok x u Hu) as Hx. destruct (uf_find x u) as [rx u1].
    destruct Hx as (Hu1 & Hlx & Hl1 & _). pose proof (uf_find_ok y u1 Hu1) as Hy.
    destruct (uf_find y u1) as [ry u2]. destruct Hy as (_ & Hly & _ & _).
    simpl. rewrite bool_decide_eq_true. symmetry. apply same_root; [done|]. by apply Hl1.
  - unfold cs. rewrite components_spec, Helu by done. generalize (first_seen_NoDup l).
    generalize (first_seen l) as m. intros m _. clear. generalize (root u) as f. intros f.
    rewrite <- (group_by_values f m). unfold group_by.
    assert (H : forall g, concat (map snd (fold_left (fun g x => group_add (f x) x g) m g))
                ≡ₚ concat (map snd g) ++ m).
    { induction m as [|x m IH]; intros g; simpl; [by rewrite app_nil_r|]. rewrite IH.
      assert (E : concat (map snd (group_add (f x) x g)) ≡ₚ concat (map snd g) ++ [x]).
      { unfold group_add. generalize (f x) as k. intros k. clear.
        induction g as [|[k' v] g IHg]; simpl; [done|]. case_decide; simpl.
        - rewrite <- !(assoc_L (++)). f_equiv. apply Permutation_app_comm.
        - by rewrite IHg, <- (assoc_L (++)). }
      by rewrite E, <- (assoc_L (++)). }
    by rewrite H.
  - intros c Hc. unfold cs in Hc. rewrite components_spec in Hc by done.
    apply list_elem_of_In, in_map_iff in Hc as (r & <- & Hr).
    apply list_elem_of_In, first_seen_in, list_elem_of_In, in_map_iff in Hr as (x & <- & Hx).
    exists x. split.
    + apply list_elem_of_In, filter_In. split; [done|]. by apply bool_decide_true.
    + intros y. rewrite list_elem_of_In, filter_In, bool_decide_eq_true, <- Hlink, same_iff_root by done.
      rewrite <- list_elem_of_In, Helu, first_seen_in. naive_solver.
  - apply Forall_forall. intros c Hc. unfold cs in Hc. rewrite components_spec in Hc by done.
    apply list_elem_of_In, in_map_iff in Hc as (r & <- & Hr).
    apply list_elem_of_In, first_seen_in, list_elem_of_In, in_map_iff in Hr as (x & <- & Hx).
    intros E. assert (In x []); [|done]. rewrite <- E. apply filter_In.
    split; [done|]. by apply bool_decide_true.
Qed.

(** The disjoint-set forest computes exactly the partition generated by the
    unions: from a fresh forest on the elements of [l] (in first-seen order)
    and unions among them, two elements have the same root exactly when a chain
    of united pairs links them, whatever the order of the unions; [components]
    returns the classes of that relation, each in element order, ordered by
    their first member, and every element is in exactly one of them. *)
Theorem components_partition {K} `{EqDecision K} (l : list K) (ps : list (K * K)) :
  (forall a b, In (a, b) ps -> a ∈ l /\ b ∈ l) ->
  let u := unions ps (uf_new l) in
  let linked := generated (fun a b => In (a, b) ps) in
  let cs := fst (components u) in
  (forall x y, fst (uf_connected x y u) = true <-> linked x y) /\
  concat cs ≡ₚ first_seen l /\
  (forall c, c ∈ cs -> exists x, x ∈ c /\ forall y, y ∈ c <-> y ∈ l /\ linked x y) /\
  Forall (fun c => c <> []) cs.
Proof. apply partition_of_unions. Qed.

Lemma components_partition_witness :
  fst (components (unions [(1, 2); (4, 2); (3, 5)] (uf_new [3; 1; 2; 1; 4; 5; 6])))%Z
    = [[3; 5]; [1; 2; 4]; [6]]%Z /\
  concat (fst (components (unions [(1, 2); (4, 2); (3, 5)] (uf_new [3; 1; 2; 1; 4; 5; 6]))))%Z
    ≡ₚ [3; 1; 2; 4; 5; 6]%Z.
Proof.
  split; [vm_compute; reflexivity|].
  exact (proj1 (proj2 (components_partition [3; 1; 2; 1; 4; 5; 6]%Z [(1, 2); (4, 2); (3, 5)]%Z
    ltac:(intros a b H; simpl in H; rewrite !list_elem_of_In; simpl;
          destruct H as [[= <- <-]|[[= <- <-]|[[= <- <-]|[]]]]; lia)))).
Defined.
