(* ===== verification/Blocking.v ===== *)
(** [backend/clustering/blocking.py]: blocking-based clustering over the
    disjoint-set forest. The key functions of [clustering/algorithms.py], the
    third-party [fuzz.token_sort_ratio], the semantic index and the order in
    which a set of keys is iterated are parameters. *)
From S2P Require Import Prelude PyStr UnionFind.
Open Scope string_scope.
Open Scope list_scope.

(** [itertools.combinations(l, 2)] *)
Fixpoint combinations2 {A} (l : list A) : list (A * A) :=
  match l with
  | [] => []
  | x :: l' => map (pair x) l' ++ combinations2 l'
  end.

Section blocking.
Context (fingerprint cologne_phonetic metaphone : string -> string).
Context (token_sort_ratio : string -> string -> Z).
(** The order a set of strings is iterated in. *)
Context (set_order : list string -> list string).

Definition blocking_keys (value : string) : list string :=
  let fp := fingerprint value in
  let keys :=
    if truthy fp then
      let tokens := tokens_of fp in
      [("fp:" ++ fp)%string] ++
      (match tokens with [] => [] | _ => [("pre:" ++ join " " (take 3 tokens))%string] end) ++
      map (fun t => ("tok:" ++ t)%string) (List.filter (fun t => (3 <=? String.length t)%nat) tokens)
    else [] in
  let code := if truthy (cologne_phonetic value) then cologne_phonetic value else metaphone value in
  first_seen (keys ++ (if truthy code then [("ph:" ++ code)%string] else [])).

Definition blocks_of (unique : list string) : list (string * list string) :=
  fold_left (fun bs val =>
    fold_left (fun bs key => group_add key val bs) (set_order (blocking_keys val)) bs) unique [].

(** One candidate pair: the pairs compared so far and the forest. *)
Definition compare_pair (threshold : Z) (st : list (string * string) * UF string) (ab : string * string)
  : list (string * string) * UF string :=
  let '(compared, uf) := st in
  let '(a, b) := ab in
  let pair := if str_le a b then (a, b) else (b, a) in
  if bool_decide (pair ∈ compared) then st
  else (pair :: compared,
        if (threshold <=? token_sort_ratio a b)%Z then uf_union a b uf else uf).

Definition lexical (threshold : Z) (unique : list string) (uf : UF string) : UF string :=
  snd (fold_left (fun st block =>
         let members := snd block in
         if (length members <? 2)%nat then st
         else fold_left (compare_pair threshold) (combinations2 members) st)
       (blocks_of unique) ([], uf)).

(** [neighbors]: the index's answer above the semantic threshold, if given. *)
Definition semantic (neighbors : option (string -> list string)) (unique : list string)
    (uf : UF string) : UF string :=
  match neighbors with
  | None => uf
  | Some nb =>
      fold_left (fun uf val =>
        fold_left (fun uf n => if uf_mem n uf then uf_union val n uf else uf) (nb val) uf) unique uf
  end.

Definition cluster_values (values : list string) (threshold : Z)
    (neighbors : option (string -> list string)) : list (list string) :=
  match values with
  | [] => []
  | _ =>
      let unique := first_seen values in
      fst (components (semantic neighbors unique (lexical threshold unique (uf_new unique))))
  end.

(** * The pairs that are united *)

(** [a] comes before [b] in [l]. *)
Definition before {A} (l : list A) (a b : A) : Prop := In (a, b) (combinations2 l).

Definition lexical_match (threshold : Z) (unique : list string) (a b : string) : Prop :=
  before unique a b /\ (exists k, k ∈ blocking_keys a /\ k ∈ blocking_keys b) /\
  (threshold <= token_sort_ratio a b)%Z.
Definition semantic_match (neighbors : option (string -> list string)) (unique : list string)
    (a b : string) : Prop :=
  exists nb, neighbors = Some nb /\ a ∈ unique /\ b ∈ nb a /\ b ∈ unique.

Lemma combinations2_app {A} (l l' : list A) a b :
  before (l ++ l') a b <-> before l a b \/ (In a l /\ In b l') \/ before l' a b.
Proof.
  unfold before. induction l as [|x l IH]; simpl; [naive_solver|].
  rewrite !in_app_iff, IH, !in_map_iff.
  setoid_rewrite in_app_iff. naive_solver.
Qed.
Lemma before_in {A} (l : list A) a b : before l a b -> In a l /\ In b l.
Proof.
  unfold before. induction l as [|x l IH]; simpl; [done|].
  rewrite in_app_iff, in_map_iff. intros [(y & [= <- <-] & H)|H]; naive_solver.
Qed.
Lemma before_filter {A} (p : A -> bool) (l : list A) a b :
  before (List.filter p l) a b <-> before l a b /\ p a = true /\ p b = true.
Proof.
  unfold before. induction l as [|x l IH]; simpl; [naive_solver|].
  rewrite in_app_iff, in_map_iff. destruct (p x) eqn:E; simpl.
  - rewrite in_app_iff, in_map_iff, IH. setoid_rewrite filter_In. naive_solver.
  - rewrite IH. naive_solver congruence.
Qed.
Lemma before_total {A} (l : list A) a b : In a l -> In b l -> a <> b -> before l a b \/ before l b a.
Proof.
  unfold before. induction l as [|x l IH]; simpl; [done|].
  rewrite !in_app_iff, !in_map_iff. naive_solver.
Qed.
Lemma before_asym {A} (l : list A) a b : NoDup l -> before l a b -> ~ before l b a.
Proof.
  unfold before. induction 1 as [|x l Hx Hnd IH]; simpl; [done|].
  rewrite !in_app_iff, !in_map_iff. rewrite list_elem_of_In in Hx.
  intros [(y & [= <- <-] & H)|H] [(z & [= <- <-] & H')|H']; try done.
  - apply (before_in l) in H' as [_ H']. done.
  - apply (before_in l) in H as [_ H]. done.
  - by apply IH.
Qed.
Lemma before_irrefl {A} (l : list A) a : NoDup l -> ~ before l a a.
Proof. intros H H'. by apply (before_asym l a a). Qed.

Hypothesis set_order_perm : forall l, set_order l ≡ₚ l.

(** A block holds exactly the values with its key, in value order. *)
Lemma block_get unique k :
  NoDup unique ->
  dict_get k (blocks_of unique) =
  let m := List.filter (fun v => bool_decide (k ∈ blocking_keys v)) unique in
  match m with [] => None | _ => Some m end.
Proof.
  intros Hnd. induction unique as [|v l IH] using rev_ind; [done|].
  unfold blocks_of in *. rewrite fold_left_app, List.filter_app. cbn [fold_left].
  apply NoDup_app in Hnd as (Hl & _ & _). specialize (IH Hl). cbv zeta in *.
  set (bs := fold_left _ l []) in *.
  assert (H : forall ks bs, NoDup ks ->
            dict_get k (fold_left (fun bs key => group_add key v bs) ks bs) =
            if decide (k ∈ ks) then Some ((match dict_get k bs with Some m => m | None => [] end) ++ [v])
            else dict_get k bs).
  { clear. intros ks. induction ks as [|k' ks IH]; intros bs Hnd; [by rewrite decide_False by apply not_elem_of_nil|].
    apply NoDup_cons in Hnd as [Hk' Hnd]. cbn [fold_left]. rewrite IH by done. unfold group_add.
    destruct (decide (k = k')) as [->|Hne].
    - rewrite decide_False by done. rewrite decide_True by (by left). by rewrite dict_get_set_eq.
    - rewrite dict_get_set_ne by done.
      destruct (decide (k ∈ ks)); [rewrite decide_True by (by right)|
        rewrite decide_False by (by rewrite not_elem_of_cons)]; done. }
  rewrite H by (rewrite set_order_perm; apply first_seen_NoDup). rewrite IH. simpl.
  assert (Hiff : k ∈ set_order (blocking_keys v) <-> k ∈ blocking_keys v) by (by rewrite set_order_perm).
  case_bool_decide as E.
  - rewrite decide_True by (by apply Hiff). destruct (List.filter _ l); done.
  - rewrite decide_False by (by rewrite Hiff). rewrite app_nil_r. done.
Qed.

Lemma blocks_NoDup unique : NoDup (dict_keys (blocks_of unique)).
Proof.
  unfold blocks_of. assert (H0 : NoDup (dict_keys (@nil (string * list string)))) by constructor.
  revert H0. generalize (@nil (string * list string)) as g.
  induction unique as [|v l IH]; intros g Hg; [done|]. simpl. apply IH. revert g Hg.
  induction (set_order (blocking_keys v)) as [|k ks IHk]; intros g Hg; [done|]. simpl. apply IHk.
  unfold group_add. rewrite dict_keys_set. case_decide; [done|].
  apply NoDup_app. split; [done|]. split; [|apply NoDup_singleton].
  intros z Hz ->%list_elem_of_singleton. done.
Qed.
(** Every stored block is the block of its key. *)
Lemma in_group unique kb :
  NoDup unique -> In kb (blocks_of unique) ->
  snd kb = List.filter (fun v => bool_decide (fst kb ∈ blocking_keys v)) unique /\ snd kb <> [].
Proof.
  intros Hnd Hin. destruct kb as [k m]. simpl.
  assert (Hg : dict_get k (blocks_of unique) = Some m).
  { pose proof (dict_tabulate (blocks_of unique) (blocks_NoDup unique)) as H.
    unfold dict_keys in H. rewrite !map_map in H.
    symmetry. exact (ext_in_map H _ Hin). }
  rewrite block_get in Hg by done. simpl in Hg.
  destruct (List.filter _ unique) as [|v m']; [done|]. by injection Hg as <-.
Qed.

(** ** The scan unites every match once *)

Definition norm (ab : string * string) : string * string :=
  if str_le ab.1 ab.2 then ab else (ab.2, ab.1).
Lemma norm_eq a b a' b' : norm (a, b) = norm (a', b') -> (a, b) = (a', b') \/ (b, a) = (a', b').
Proof. unfold norm. simpl. repeat case_match; naive_solver. Qed.

Lemma compare_scan threshold unique ps : forall cmp uf,
  NoDup unique -> (forall a b, In (a, b) ps -> before unique a b) ->
  exists qs, snd (fold_left (compare_pair threshold) ps (cmp, uf)) = unions qs uf /\
    (forall a b, In (a, b) qs -> In (a, b) ps /\ (threshold <= token_sort_ratio a b)%Z) /\
    (forall a b, In (a, b) ps -> (threshold <= token_sort_ratio a b)%Z ->
       In (a, b) qs \/ norm (a, b) ∈ cmp).
Proof.
  induction ps as [|[a b] ps IH]; intros cmp uf Hnd Hps; [exists []; naive_solver|].
  cbn [fold_left compare_pair]. change (if str_le a b then (a, b) else (b, a)) with (norm (a, b)).
  case_bool_decide as Hin.
  - destruct (IH cmp uf Hnd) as (qs & H1 & H2 & H3); [intros; apply Hps; by right|].
    exists qs. split; [done|]. split; [intros c d Hq; destruct (H2 c d Hq); split; [by right|done]|].
    intros c d [[= <- <-]|Hcd] Ht; [by right|auto].
  - destruct (IH (norm (a, b) :: cmp)
                (if (threshold <=? token_sort_ratio a b)%Z then uf_union a b uf else uf) Hnd)
      as (qs & H1 & H2 & H3); [intros; apply Hps; by right|].
    exists (if (threshold <=? token_sort_ratio a b)%Z then (a, b) :: qs else qs).
    split; [rewrite H1; by destruct (threshold <=? _)%Z|]. split.
    + intros c d Hq. destruct (threshold <=? token_sort_ratio a b)%Z eqn:E.
      * destruct Hq as [[= <- <-]|Hq]; [split; [by left|lia]|].
        destruct (H2 c d Hq); split; [by right|done].
      * destruct (H2 c d Hq); split; [by right|done].
    + intros c d [[= <- <-]|Hcd] Ht.
      * left. rewrite (proj2 (Z.leb_le _ _)) by done. by left.
      * destruct (H3 c d Hcd Ht) as [Hq|Hq].
        -- left. destruct (threshold <=? _)%Z; [by right|done].
        -- apply elem_of_cons in Hq as [Hq|Hq]; [|by right]. left.
           apply norm_eq in Hq as [[= -> ->]|[= -> ->]].
           ++ rewrite (proj2 (Z.leb_le _ _)) by done. by left.
           ++ exfalso. apply (before_asym unique a b Hnd); apply Hps; [by left|by right].
Qed.

Lemma unions_app {K} `{EqDecision K} (ps qs : list (K * K)) u : unions (ps ++ qs) u = unions qs (unions ps u).
Proof. unfold unions. apply fold_left_app. Qed.

Lemma lexical_scan threshold unique uf :
  NoDup unique ->
  exists qs, lexical threshold unique uf = unions qs uf /\
    forall a b, In (a, b) qs <-> lexical_match threshold unique a b.
Proof.
  intros Hnd. set (ps := concat (map (fun b => combinations2 (snd b)) (blocks_of unique))).
  assert (Hfold : lexical threshold unique uf = snd (fold_left (compare_pair threshold) ps ([], uf))).
  { unfold lexical, ps. f_equal. generalize (@nil (string * string), uf) as st.
    induction (blocks_of unique) as [|[k m] bs IH]; intros st; [done|]. simpl.
    rewrite fold_left_app. rewrite <- IH. f_equal.
    destruct m as [|x [|y m]]; done. }
  assert (Hps : forall a b, In (a, b) ps <->
            before unique a b /\ exists k, k ∈ blocking_keys a /\ k ∈ blocking_keys b).
  { intros a b. unfold ps. rewrite <- list_elem_of_In, list_elem_of_In, in_concat. split.
    - intros (l & (kb & <- & Hkb)%in_map_iff & Hab).
      destruct (in_group unique kb Hnd Hkb) as [Hm _].
      rewrite Hm in Hab. apply (before_filter _ unique) in Hab as (H1 & H2 & H3).
      apply bool_decide_eq_true in H2, H3. eauto.
    - intros [Hb (k & Ha & Hkb)].
      pose proof (block_get unique k Hnd) as Hg. cbv zeta in Hg.
      assert (Hf : before (List.filter (fun v => bool_decide (k ∈ blocking_keys v)) unique) a b).
      { apply before_filter. split; [done|]. split; by apply bool_decide_true. }
      destruct (List.filter _ unique) as [|v m] eqn:E; [done|].
      apply dict_get_Some_elem in Hg. apply list_elem_of_In in Hg.
      exists (combinations2 (v :: m)). split; [|done]. apply in_map_iff. by exists (k, v :: m). }
  destruct (compare_scan threshold unique ps [] uf Hnd) as (qs & H1 & H2 & H3).
  { intros a b H. exact (proj1 (proj1 (Hps a b) H)). }
  exists qs. split; [by rewrite Hfold|]. intros a b. unfold lexical_match. split.
  - intros Hq. destruct (H2 a b Hq) as [Hp Ht]. apply Hps in Hp as [Hb Hk]. done.
  - intros (Hb & Hk & Ht). destruct (H3 a b) as [Hq|Hq]; [by apply Hps|done|done|].
    by apply elem_of_nil in Hq.
Qed.

(** Neighbours outside the values are passed over; the forest keeps its
    elements. *)
Lemma unions_elements {K} `{EqDecision K} (ps : list (K * K)) u :
  uf_ok u -> (forall a b, In (a, b) ps -> a ∈ elements u /\ b ∈ elements u) ->
  elements (unions ps u) = elements u.
Proof.
  intros Hu Hps. destruct (unions_ok ps u Hu) as (_ & -> & _). revert Hps.
  generalize (elements u) as m. clear. induction ps as [|[a b] ps IH]; intros m Hps; [done|]. simpl.
  destruct (Hps a b) as [Ha Hb]; [by left|]. unfold keys_after. rewrite (decide_True (P := a ∈ m)) by done.
  rewrite decide_True by done. apply IH. intros; apply Hps; by right.
Qed.

Lemma semantic_scan neighbors unique uf :
  uf_ok uf -> elements uf = unique ->
  exists qs, semantic neighbors unique uf = unions qs uf /\
    forall a b, In (a, b) qs <-> semantic_match neighbors unique a b.
Proof.
  intros Hu Hel. destruct neighbors as [nb|]; [|exists []; unfold semantic_match; naive_solver].
  exists (concat (map (fun v => map (pair v) (List.filter (fun n => bool_decide (n ∈ unique)) (nb v))) unique)).
  split.
  - unfold semantic. assert (Hsub : forall v, In v unique -> v ∈ unique) by (intros; by apply list_elem_of_In).
    assert (Hinner : forall v ns uf, v ∈ unique -> uf_ok uf -> elements uf = unique ->
              let uf' := fold_left (fun uf n => if uf_mem n uf then uf_union v n uf else uf) ns uf in
              uf' = unions (map (pair v) (List.filter (fun n => bool_decide (n ∈ unique)) ns)) uf /\
              uf_ok uf' /\ elements uf' = unique).
    { clear. intros v ns. induction ns as [|n ns IH]; intros uf Hv Hu Hel; [done|].
      cbn [fold_left List.filter].
      assert (E : uf_mem n uf = bool_decide (n ∈ unique)) by (unfold uf_mem; by rewrite Hel).
      rewrite E. case_bool_decide as Hn; [|by apply IH]. cbn [map].
      destruct (uf_union_ok v n uf Hu) as (Hu1 & Hel1 & _). unfold keys_after in Hel1.
      rewrite Hel, !decide_True in Hel1 by (rewrite ?decide_True; done).
      apply (IH (uf_union v n uf) Hv Hu1 Hel1). }
    assert (Houter : forall vs uf, (forall v, In v vs -> v ∈ unique) -> uf_ok uf -> elements uf = unique ->
              fold_left (fun uf val => fold_left (fun uf n => if uf_mem n uf then uf_union val n uf else uf)
                           (nb val) uf) vs uf =
              unions (concat (map (fun v => map (pair v)
                (List.filter (fun n => bool_decide (n ∈ unique)) (nb v))) vs)) uf).
    { clear -Hinner. induction vs as [|v vs IH]; intros uf Hvs Hu Hel; [done|].
      cbn [fold_left map concat]. rewrite unions_app.
      destruct (Hinner v (nb v) uf) as (E & Hu1 & Hel1); [apply Hvs; by left|done|done|].
      rewrite IH; [by rewrite E|intros; apply Hvs; by right|done|done]. }
    by apply Houter.
  - intros a b. unfold semantic_match. rewrite in_concat. split.
    + intros (l & (v & <- & Hv)%in_map_iff & (n & [= <- <-] & [Hn Hb]%filter_In)%in_map_iff).
      apply bool_decide_eq_true in Hb. exists nb. rewrite !list_elem_of_In in *. done.
    + intros (nb' & [= <-] & Ha & Hn & Hb). eexists. rewrite in_map_iff. split.
      * exists a. split; [reflexivity|]. by apply list_elem_of_In.
      * apply in_map_iff. exists b. split; [done|]. apply filter_In.
        rewrite bool_decide_eq_true. split; [by apply list_elem_of_In|done].
Qed.

(** What links two values of the input. *)
Definition match_pair (threshold : Z) (neighbors : option (string -> list string))
    (values : list string) (a b : string) : Prop :=
  lexical_match threshold (first_seen values) a b \/ semantic_match neighbors (first_seen values) a b.

Lemma cluster_spec values threshold neighbors :
  let cs := cluster_values values threshold neighbors in
  let linked := generated (match_pair threshold neighbors values) in
  concat cs ≡ₚ first_seen values /\
  (forall c, c ∈ cs -> exists x, x ∈ c /\ forall y, y ∈ c <-> y ∈ values /\ linked x y).
Proof.
  intros cs linked. set (unique := first_seen values).
  assert (Hnd : NoDup unique) by apply first_seen_NoDup.
  destruct (uf_new_ok unique) as (Hu0 & Hel0 & _).
  assert (Hun : first_seen unique = unique).
  { by apply first_seen_fixed. }
  destruct (lexical_scan threshold unique (uf_new unique) Hnd) as (ps & Hlex & Hps).
  assert (Hpin : forall a b, In (a, b) ps -> a ∈ unique /\ b ∈ unique).
  { intros a b (Hb & _)%Hps. apply before_in in Hb as [Ha Hb]. by rewrite !list_elem_of_In. }
  destruct (unions_ok ps _ Hu0) as (Hu1 & _ & _).
  assert (Hel1 : elements (unions ps (uf_new unique)) = unique).
  { rewrite unions_elements; [by rewrite Hel0|done|by rewrite Hel0, Hun]. }
  destruct (semantic_scan neighbors unique _ Hu1 Hel1) as (qs & Hsem & Hqs).
  assert (Hcs : cs = fst (components (unions (ps ++ qs) (uf_new unique)))).
  { unfold cs, cluster_values. destruct values as [|v vs].
    - simpl in *. assert (ps = []) as ->.
      { destruct ps as [|[a b] ps]; [done|]. exfalso. destruct (Hpin a b) as [H _]; [by left|].
        by apply elem_of_nil in H. }
      assert (qs = []) as ->; [|done].
      destruct qs as [|[a b] qs]; [done|]. exfalso.
      destruct (proj1 (Hqs a b)) as (nb & _ & H & _); [by left|]. by apply elem_of_nil in H.
    - fold unique. by rewrite Hlex, Hsem, unions_app. }
  assert (Hall : forall a b, In (a, b) (ps ++ qs) -> a ∈ unique /\ b ∈ unique).
  { intros a b [H|H]%in_app_iff; [by apply Hpin|]. apply Hqs in H as (nb & _ & ? & _ & ?). done. }
  destruct (partition_of_unions unique (ps ++ qs) Hall) as (_ & Hperm & Hcl & _).
  rewrite <- Hcs in Hperm, Hcl. rewrite Hun in Hperm. split; [done|].
  intros c Hc. destruct (Hcl c Hc) as (x & Hx & Hy). exists x. split; [done|].
  intros y. rewrite Hy. unfold unique at 1. rewrite first_seen_in. apply and_iff_compat_l.
  unfold linked. split; apply generated_mono; intros a b H; apply rtc_once; left.
  - unfold match_pair. fold unique. rewrite <- Hps, <- Hqs. by apply in_app_iff.
  - apply in_app_iff. rewrite Hps, Hqs. exact H.
Qed.
End blocking.

(** Clustering returns the partition of the distinct values into the
    classes generated by their matches: every value is in exactly one cluster,
    and two values share a cluster exactly when a chain of matches links them,
    where a match is a pair with a common blocking key whose token-sort ratio
    reaches the threshold, or a semantic neighbour among the values. When the
    ratio is symmetric the clusters do not depend on the order or repetition of
    the input values. *)
Theorem clusters_are_match_classes fp ph1 ph2 ratio set_order values values' threshold neighbors :
  (forall l, set_order l ≡ₚ l) ->
  let cluster := fun vs => cluster_values fp ph1 ph2 ratio set_order vs threshold neighbors in
  let linked := fun vs => generated (match_pair fp ph1 ph2 ratio threshold neighbors vs) in
  concat (cluster values) ≡ₚ first_seen values /\
  (forall c, c ∈ cluster values -> exists x, x ∈ c /\ forall y, y ∈ c <-> y ∈ values /\ linked values x y) /\
  ((forall a b, ratio a b = ratio b a) -> (forall v, v ∈ values <-> v ∈ values') ->
   forall c, c ∈ cluster values -> exists c', c' ∈ cluster values' /\ forall y, y ∈ c <-> y ∈ c').
Proof.
  intros Hset cluster linked.
  destruct (cluster_spec fp ph1 ph2 ratio set_order Hset values threshold neighbors) as [Hp Hc].
  destruct (cluster_spec fp ph1 ph2 ratio set_order Hset values' threshold neighbors) as [Hp' Hc'].
  split; [done|]. split; [done|]. intros Hsym Hvs c Hcin.
  destruct (Hc c Hcin) as (x & Hx & Hy).
  assert (Hxv : x ∈ values') by (apply Hvs; by apply Hy in Hx as [Hx _]).
  assert (Hcx : exists c', c' ∈ cluster values' /\ x ∈ c').
  { assert (Hin : x ∈ concat (cluster values')) by (unfold cluster; rewrite Hp'; by apply first_seen_in).
    apply list_elem_of_In, in_concat in Hin as (c' & H1 & H2). exists c'. by rewrite !list_elem_of_In. }
  destruct Hcx as (c' & Hc'in & Hxc'). exists c'. split; [done|]. intros y.
  destruct (Hc' c' Hc'in) as (x' & Hx' & Hy').
  assert (Hlink : forall a b, linked values a b <-> linked values' a b).
  { assert (Himp : forall vs vs' a b, (forall v, v ∈ vs <-> v ∈ vs') -> linked vs a b -> linked vs' a b).
    { intros vs vs' a b Hv. apply generated_mono. clear a b.
      intros a b [(Hb & Hk & Ht)|(nb & Hnb & Ha & Hn & Hb)].
      - apply before_in in Hb as [Ha Hb]. rewrite <- list_elem_of_In, first_seen_in, Hv in Ha, Hb.
        destruct (decide (a = b)) as [->|Hne]; [reflexivity|]. apply rtc_once.
        destruct Hk as (k & Hka & Hkb).
        destruct (before_total (first_seen vs') a b) as [H|H].
        + apply list_elem_of_In. by apply first_seen_in.
        + apply list_elem_of_In. by apply first_seen_in.
        + done.
        + left. left. split; [done|]. split; [by exists k|done].
        + right. left. split; [done|]. split; [by exists k|by rewrite Hsym].
      - apply rtc_once. left. right. exists nb.
        rewrite first_seen_in, Hv in Ha, Hb. rewrite !first_seen_in. done. }
    intros a b. split; apply Himp; [done|]. intros v. by rewrite Hvs. }
  rewrite Hy, Hy', Hvs. apply Hy' in Hxc' as [_ Hxx'].
  change (linked values' x' x) in Hxx'.
  change (y ∈ values' /\ linked values x y <-> y ∈ values' /\ linked values' x' y).
  rewrite Hlink. split; intros [Hyv H]; (split; [done|]).
  - etransitivity; [exact Hxx'|exact H].
  - etransitivity; [symmetry; exact Hxx'|exact H].
Qed.

(** A toy instance: values match when they differ in case of one letter. *)
Definition toy_ratio (a b : string) : Z := if decide (lower a = lower b) then 100 else 0.
Lemma clusters_are_match_classes_witness :
  let cluster := fun vs => cluster_values lower (fun s => s) (fun s => s) toy_ratio (fun l => l) vs 90 None in
  cluster ["Ann"; "Bob"; "ann"; "BOB"; "Ann"; "Cid"] = [["Ann"; "ann"]; ["Bob"; "BOB"]; ["Cid"]] /\
  concat (cluster ["Ann"; "Bob"; "ann"; "BOB"; "Ann"; "Cid"]) ≡ₚ ["Ann"; "Bob"; "ann"; "BOB"; "Cid"].
Proof.
  split; [vm_compute; reflexivity|].
  exact (proj1 (clusters_are_match_classes lower (fun s => s) (fun s => s) toy_ratio (fun l => l)
    ["Ann"; "Bob"; "ann"; "BOB"; "Ann"; "Cid"] [] 90 None (fun l => Permutation_refl l))).
Defined.
