(* ===== verification/Cache.v ===== *)
(** * The cache layer (src/backend/cache)

    One interface, [CacheBackend], with the two implementations the factory
    chooses from: [InProcess] over a TTL map and [Redis] over a client whose
    every command can fail. The TTL map and the Redis server are outside the
    program; [ExpiringStore] and its laws say what the program relies on of
    them: entries are live for their time to live, a write replaces the entry
    of its key and may evict others, a deletion reports whether the key was
    live. Clock readings are arguments: [clock i] is the [i]-th reading made
    during one call. *)
From S2P Require Import Prelude PyStr PyJson PyValue.
From Stdlib Require Import Ascii.

Local Open Scope string_scope.
Local Open Scope Z_scope.
Local Open Scope py_scope.

(** * Keys (cache/base.py) *)

Definition SEP : string := "|".
Definition NONE_PART : string := String (ascii_of_N 0) "".

(** [parts] is a string, or a tuple whose elements are written with [str]. *)
Inductive KeyParts := KeyStr (s : string) | KeyTuple (parts : list json).
Definition make_key (parts : KeyParts) : string :=
  match parts with
  | KeyStr s => s
  | KeyTuple ps => join SEP (map (fun p => match p with JNull => NONE_PART | _ => py_str p end) ps)
  end.

(** * What the program relies on of the stores it calls *)

Class ExpiringStore (T X : Type) := {
  es_view : T -> Z -> string -> option X;
  es_get : Z -> string -> T -> option X;
  es_set : Z -> string -> X -> Z -> T -> T;
  es_del : Z -> string -> T -> bool * T;
  es_keys : Z -> T -> list string
}.

Class ExpiringStoreLaws (T X : Type) `{ExpiringStore T X} : Prop := {
  view_expires s t t' k x : t <= t' -> es_view s t' k = Some x -> es_view s t k = Some x;
  get_view s t k : es_get t k s = es_view s t k;
  set_same s t t' k x ttl : 0 < ttl -> t <= t' ->
    es_view (es_set t k x ttl s) t' k = if t' <? t + ttl then Some x else None;
  set_other s t t' k k' x y ttl : k <> k' -> t <= t' ->
    es_view (es_set t k x ttl s) t' k' = Some y -> es_view s t' k' = Some y;
  del_reports s t k : fst (es_del t k s) = true <-> is_Some (es_view s t k);
  del_same s t t' k : t <= t' -> es_view (snd (es_del t k s)) t' k = None;
  del_other s t t' k k' : k <> k' -> es_view (snd (es_del t k s)) t' k' = es_view s t' k';
  keys_live s t k : In k (es_keys t s) <-> is_Some (es_view s t k)
}.

Definition KeyError (k : string) : exn := Exn "KeyError" (py_repr (JStr k)).

(** * The interface *)

Class CacheBackend (S V : Type) := {
  b_get : (nat -> Z) -> string -> S -> res (option V) * S;
  b_set : (nat -> Z) -> string -> V -> option Z -> S -> res unit * S;
  b_delete : (nat -> Z) -> string -> S -> res bool * S;
  b_invalidate_prefix : (nat -> Z) -> string -> S -> res Z * S;
  b_exists_prefix : (nat -> Z) -> string -> S -> bool * S
}.

(** [get_or_load], which both backends write the same way: the loader runs
    outside the lock, against a state [L] of its own, and other callers may use
    the cache meanwhile. [None] is the [MISS] sentinel: a cached [None] of the
    program is a value like any other. *)
Definition get_or_load {S V L} `{CacheBackend S V} (clock clock' : nat -> Z) (key : string)
    (loader : S -> L -> res V * S * L) (ttl : option Z) (s : S) (l : L) : res V * S * L :=
  match b_get clock key s with
  | (Raise e, s) => (Raise e, s, l)
  | (Ok (Some cached), s) => (Ok cached, s, l)
  | (Ok None, s) =>
      match loader s l with
      | (Raise e, s, l) => (Raise e, s, l)
      | (Ok result, s, l) =>
          match b_set clock' key result ttl s with
          | (Ok _, s) => (Ok result, s, l)
          | (Raise e, s) => (Raise e, s, l)
          end
      end
  end.

(** * The in-process backend (cache/inprocess_backend.py) *)
Module InProcess.
Section backend.
Context {T V : Type} `{ExpiringStore T V}.

Record InProcessBackend := mkInProcess { ip_namespace : string; ip_ttl : Z; ip_store : T }.
Definition with_store (f : T -> T) (b : InProcessBackend) : InProcessBackend :=
  mkInProcess (ip_namespace b) (ip_ttl b) (f (ip_store b)).

Definition get (clock : nat -> Z) (key : string) (b : InProcessBackend) : option V :=
  es_get (clock 0%nat) key (ip_store b).

(** The [ttl] argument is not used. *)
Definition set (clock : nat -> Z) (key : string) (value : V) (ttl : option Z) (b : InProcessBackend)
  : InProcessBackend :=
  with_store (es_set (clock 0%nat) key value (ip_ttl b)) b.

(** [del self._store[key]]: a key that has expired is no longer there. *)
Definition del_item (t : Z) (key : string) (b : InProcessBackend) : res unit * InProcessBackend :=
  let '(live, s) := es_del t key (ip_store b) in
  (if live then Ok tt else Raise (KeyError key), with_store (fun _ => s) b).

Definition delete (clock : nat -> Z) (key : string) (b : InProcessBackend) : res bool * InProcessBackend :=
  match es_get (clock 0%nat) key (ip_store b) with
  | None => (Ok false, b)
  | Some _ =>
      match del_item (clock 1%nat) key b with
      | (Ok _, b) => (Ok true, b)
      | (Raise e, b) => (Raise e, b)
      end
  end.

Fixpoint del_all (clock : nat -> Z) (i : nat) (keys : list string) (b : InProcessBackend)
  : res unit * InProcessBackend :=
  match keys with
  | [] => (Ok tt, b)
  | k :: ks =>
      match del_item (clock i) k b with
      | (Ok _, b) => del_all clock (S i) ks b
      | (Raise e, b) => (Raise e, b)
      end
  end.
Definition matching_keys (t : Z) (prefix : string) (b : InProcessBackend) : list string :=
  List.filter (fun k => startswith k prefix) (es_keys t (ip_store b)).
Definition invalidate_prefix (clock : nat -> Z) (prefix : string) (b : InProcessBackend)
  : res Z * InProcessBackend :=
  let matching := matching_keys (clock 0%nat) prefix b in
  match del_all clock 1 matching b with
  | (Ok _, b) => (Ok (Z.of_nat (length matching)), b)
  | (Raise e, b) => (Raise e, b)
  end.
Definition exists_prefix (clock : nat -> Z) (prefix : string) (b : InProcessBackend) : bool :=
  existsb (fun k => startswith k prefix) (es_keys (clock 0%nat) (ip_store b)).
End backend.
Arguments InProcessBackend T : clear implicits.

#[global] Instance backend {T V} `{ExpiringStore T V} : CacheBackend (InProcessBackend T) V := {|
  b_get c k b := (Ok (get c k b), b);
  b_set c k v ttl b := (Ok tt, set c k v ttl b);
  b_delete := delete;
  b_invalidate_prefix := invalidate_prefix;
  b_exists_prefix c p b := (exists_prefix c p b, b)
|}.
End InProcess.

(** * The Redis backend (cache/redis_backend.py, cache/client.py) *)

(** What a command of the client meets: no client (Redis not configured), a
    factory or a connection that raises, a command refused before it runs, one
    that runs and whose reply is lost, a scan that breaks after [n] keys. *)
Inductive Fault :=
  | Reachable
  | NoClient
  | FactoryError (e : exn)
  | Refused (e : exn)
  | ReplyLost (e : exn)
  | ScanBreaks (n : nat) (e : exn).

(** The characters that are not literal in a Redis [MATCH] pattern. *)
Definition glob_meta (c : ascii) : bool := bool_decide (c ∈ chars "*?[]\").
Definition literal (p : string) : bool := negb (existsb glob_meta (chars p)).

(** [r_glob pattern key]: a literal text followed by a star matches the keys
    that start with it. *)
Class RedisGlob := r_glob : string -> string -> bool.
Class RedisGlobLaws `{RedisGlob} : Prop :=
  glob_star p k : literal p = true -> r_glob (p ++ "*") k = startswith k p.

Module Redis.
Section backend.
Context {R V : Type} `{ExpiringStore R string} `{RedisGlob}.
(** [UKIP_CACHE_PREFIX], and the caller's two callbacks: a value that
    [json.dumps] refuses is a [serialize] that raises. *)
Context (GLOBAL_PREFIX : string) (serialize : V -> res json) (deserialize : json -> res V).

Record RedisBackend := mkRedis {
  rb_namespace : string; rb_ttl : Z; rb_server : R; rb_faults : list Fault }.
Definition on_server (r : R) (b : RedisBackend) : RedisBackend :=
  mkRedis (rb_namespace b) (rb_ttl b) r (rb_faults b).
Definition next_fault (b : RedisBackend) : Fault * RedisBackend :=
  match rb_faults b with
  | [] => (Reachable, b)
  | f :: fs => (f, mkRedis (rb_namespace b) (rb_ttl b) (rb_server b) fs)
  end.

Definition ns_prefix (namespace : string) : string := (GLOBAL_PREFIX ++ ":" ++ namespace ++ ":")%string.
Definition full (key : string) (b : RedisBackend) : string := (ns_prefix (rb_namespace b) ++ key)%string.

(** [_client]: [true] when the factory gives a client. *)
Definition client (b : RedisBackend) : bool * RedisBackend :=
  let '(f, b) := next_fault b in
  (match f with NoClient | FactoryError _ => false | _ => true end, b).

(** One command of the client. *)
Definition command {A} (c : R -> A * R) (b : RedisBackend) : res A * RedisBackend :=
  let '(f, b) := next_fault b in
  match f with
  | Refused e => (Raise e, b)
  | ReplyLost e => (Raise e, on_server (snd (c (rb_server b))) b)
  | _ => let '(a, r) := c (rb_server b) in (Ok a, on_server r b)
  end.

Fixpoint del_keys (t : Z) (keys : list string) (r : R) : Z * R :=
  match keys with
  | [] => (0, r)
  | k :: ks =>
      let '(live, r) := es_del t k r in
      let '(n, r) := del_keys t ks r in
      ((if live then 1 else 0) + n, r)
  end.

Definition decodes (raw : string) : res V :=
  match loads raw with
  | Some j => deserialize j
  | None => Raise (Exn "JSONDecodeError" "Expecting value")
  end.
(** [except (ValueError, TypeError)] *)
Definition decode_error (e : exn) : bool :=
  bool_decide (exn_name e ∈ ["ValueError"; "TypeError"; "JSONDecodeError"]).

Definition get (clock : nat -> Z) (key : string) (b : RedisBackend) : res (option V) * RedisBackend :=
  let '(up, b) := client b in
  if negb up then (Ok None, b)
  else match command (fun r => (es_get (clock 0%nat) (full key b) r, r)) b with
       | (Raise _, b) => (Ok None, b)
       | (Ok None, b) => (Ok None, b)
       | (Ok (Some raw), b) =>
           match decodes raw with
           | Ok v => (Ok (Some v), b)
           | Raise e =>
               if decode_error e
               then (Ok None, snd (command (del_keys (clock 1%nat) [full key b]) b))
               else (Raise e, b)
           end
       end.

Definition ttl_or (ttl : option Z) (default : Z) : Z :=
  match ttl with Some z => if z =? 0 then default else z | None => default end.

(** A value that cannot be encoded is not stored; the serializer's other
    exceptions are the caller's. *)
Definition set (clock : nat -> Z) (key : string) (value : V) (ttl : option Z) (b : RedisBackend) : res unit * RedisBackend :=
  let '(up, b) := client b in
  if negb up then (Ok tt, b)
  else match serialize value with
       | Raise e => (if decode_error e then Ok tt else Raise e, b)
       | Ok j => (Ok tt, snd (command (fun r => (tt, es_set (clock 0%nat) (full key b) (dumps false j)
                                                            (ttl_or ttl (rb_ttl b)) r)) b))
       end.

Definition delete (clock : nat -> Z) (key : string) (b : RedisBackend) : bool * RedisBackend :=
  let '(up, b) := client b in
  if negb up then (false, b)
  else match command (del_keys (clock 0%nat) [full key b]) b with
       | (Ok n, b) => (negb (n =? 0), b)
       | (Raise _, b) => (false, b)
       end.

Definition SCAN_BATCH : nat := 256.

(** The keys [scan_iter] yields, and whether it then raises. *)
Definition scan (t : Z) (pattern : string) (b : RedisBackend) : list string * bool * RedisBackend :=
  let '(f, b) := next_fault b in
  let keys := List.filter (r_glob pattern) (es_keys t (rb_server b)) in
  match f with
  | Refused _ | ReplyLost _ => ([], true, b)
  | ScanBreaks n _ => (firstn n keys, true, b)
  | _ => (keys, false, b)
  end.

(** The loop of [invalidate_prefix]: [batch] is what has been collected, [broken]
    whether the iterator ends by raising. *)
Fixpoint drain (clock : nat -> Z) (i : nat) (batch : list string) (count : Z) (keys : list string) (broken : bool)
    (b : RedisBackend) : Z * RedisBackend :=
  match keys with
  | [] =>
      if broken || bool_decide (batch = []) then (count, b)
      else match command (del_keys (clock i) batch) b with
           | (Ok n, b) => (count + n, b)
           | (Raise _, b) => (count, b)
           end
  | k :: ks =>
      let batch := (batch ++ [k])%list in
      if (SCAN_BATCH <=? length batch)%nat
      then match command (del_keys (clock i) batch) b with
           | (Ok n, b) => drain clock (S i) [] (count + n) ks broken b
           | (Raise _, b) => (count, b)
           end
      else drain clock i batch count ks broken b
  end.
Definition invalidate_prefix (clock : nat -> Z) (prefix : string) (b : RedisBackend) : Z * RedisBackend :=
  let '(up, b) := client b in
  if negb up then (0, b)
  else let '(keys, broken, b) := scan (clock 0%nat) (full prefix b ++ "*") b in
       drain clock 1 [] 0 keys broken b.

Definition exists_prefix (clock : nat -> Z) (prefix : string) (b : RedisBackend) : bool * RedisBackend :=
  let '(up, b) := client b in
  if negb up then (false, b)
  else let '(keys, _, b) := scan (clock 0%nat) (full prefix b ++ "*") b in
       (match keys with [] => false | _ => true end, b).
End backend.
Arguments RedisBackend R : clear implicits.

Definition backend {R V} `{ExpiringStore R string} `{RedisGlob} (GLOBAL_PREFIX : string)
    (serialize : V -> res json) (deserialize : json -> res V) : CacheBackend (RedisBackend R) V := {|
  b_get := get GLOBAL_PREFIX deserialize;
  b_set := set GLOBAL_PREFIX serialize;
  b_delete c k b := let '(x, b) := delete GLOBAL_PREFIX c k b in (Ok x, b);
  b_invalidate_prefix c p b := let '(n, b) := invalidate_prefix GLOBAL_PREFIX c p b in (Ok n, b);
  b_exists_prefix := exists_prefix GLOBAL_PREFIX
|}.
End Redis.
