(* ===== verification/CacheSpec.v ===== *)
(** * What a cache promises, and that both backends keep it

    The specification is a partial map and a step relation on it: a hit is the
    last value written under the key; a miss forgets the key; writes and
    invalidations take effect. A [FailOpen] cache may also lose an operation.
    [sim] is a forward simulation: an implementation state refines a map when
    every live entry is in the map. *)
From S2P Require Import Prelude PyStr PyJson Cache.

Local Open Scope string_scope.
Local Open Scope Z_scope.

Inductive Grade := Sound | FailOpen.

Section spec.
Context {V : Type}.
Implicit Types m : gmap string V.

Inductive Op :=
  | Get (k : string)
  | Set_ (k : string) (v : V) (ttl : option Z)
  | Delete (k : string)
  | Invalidate (p : string)
  | Exists (p : string).
Inductive Reply :=
  | RValue (o : option V)
  | RUnit
  | RBool (b : bool)
  | RCount (n : Z)
  | RRaise (e : exn).

Definition with_prefix (p : string) m : gmap string V := filter (fun kv => startswith kv.1 p = true) m.
Definition without_prefix (p : string) m : gmap string V := filter (fun kv => ~ startswith kv.1 p = true) m.

Inductive cache_step (g : Grade) : gmap string V -> Op -> Reply -> gmap string V -> Prop :=
  | step_hit m k v : m !! k = Some v -> cache_step g m (Get k) (RValue (Some v)) m
  | step_forgotten m k : cache_step g m (Get k) (RValue None) (delete k m)
  | step_unreachable m k : g = FailOpen -> cache_step g m (Get k) (RValue None) m
  | step_set m k v ttl : cache_step g m (Set_ k v ttl) RUnit (<[k := v]> m)
  | step_set_lost m k v ttl : g = FailOpen -> cache_step g m (Set_ k v ttl) RUnit m
  | step_delete m k b : (b = true -> is_Some (m !! k)) -> cache_step g m (Delete k) (RBool b) (delete k m)
  | step_delete_lost m k : g = FailOpen -> cache_step g m (Delete k) (RBool false) m
  | step_delete_expired m k : cache_step g m (Delete k) (RRaise (KeyError k)) (delete k m)
  | step_invalidate m p n : 0 <= n <= Z.of_nat (size (with_prefix p m)) ->
      cache_step g m (Invalidate p) (RCount n) (without_prefix p m)
  | step_invalidate_partly m m' p n : g = FailOpen -> without_prefix p m ⊆ m' -> m' ⊆ m ->
      0 <= n <= Z.of_nat (size (with_prefix p m)) -> cache_step g m (Invalidate p) (RCount n) m'
  | step_invalidate_expired m m' p k : without_prefix p m ⊆ m' -> m' ⊆ m -> startswith k p = true ->
      cache_step g m (Invalidate p) (RRaise (KeyError k)) m'
  | step_exists m p : with_prefix p m <> ∅ -> cache_step g m (Exists p) (RBool true) m
  | step_none m p : cache_step g m (Exists p) (RBool false) (without_prefix p m)
  | step_exists_unknown m p : g = FailOpen -> cache_step g m (Exists p) (RBool false) m.

(** Replies of a run of operations, and the map they leave. *)
Inductive cache_run (g : Grade) : gmap string V -> list (Op * Reply) -> gmap string V -> Prop :=
  | run_nil m : cache_run g m [] m
  | run_cons m o r m1 l m2 : cache_step g m o r m1 -> cache_run g m1 l m2 -> cache_run g m ((o, r) :: l) m2.
End spec.
Arguments Op V : clear implicits.
Arguments Reply V : clear implicits.

(** An operation on a backend. *)
Definition reply_of {S A V} (f : A -> Reply V) (x : res A * S) : Reply V * S :=
  (match fst x with Ok a => f a | Raise e => RRaise e end, snd x).
Definition run_op {S V} `{CacheBackend S V} (clock : nat -> Z) (o : Op V) (s : S) : Reply V * S :=
  match o with
  | Get k => reply_of RValue (b_get clock k s)
  | Set_ k v ttl => reply_of (fun _ => RUnit) (b_set clock k v ttl s)
  | Delete k => reply_of RBool (b_delete clock k s)
  | Invalidate p => reply_of RCount (b_invalidate_prefix clock p s)
  | Exists p => let '(b, s) := b_exists_prefix clock p s in (RBool b, s)
  end.

(** The readings of one call lie between [t] and [t'] and do not go back. *)
Definition within (t t' : Z) (clock : nat -> Z) : Prop :=
  forall i, t <= clock i <= clock (S i) /\ clock i <= t'.

(** A backend refines the specification through [sim]. *)
Class Refines (S V : Type) `{CacheBackend S V} (g : Grade) (op_ok : Op V -> Prop) := {
  sim : S -> Z -> gmap string V -> Prop;
  sim_later s t t' m : t <= t' -> sim s t m -> sim s t' m;
  sim_op s t t' clock o m : within t t' clock -> op_ok o -> sim s t m ->
    exists m', cache_step g m o (fst (run_op clock o s)) m' /\ sim (snd (run_op clock o s)) t' m'
}.

(** A run of calls, each with the clock it reads. *)
Fixpoint run_ops {S V} `{CacheBackend S V} (calls : list ((nat -> Z) * Op V)) (s : S) : list (Op V * Reply V) * S :=
  match calls with
  | [] => ([], s)
  | (c, o) :: rest =>
      let '(r, s) := run_op c o s in
      let '(l, s) := run_ops rest s in ((o, r) :: l, s)
  end.
Fixpoint timed {V} (t : Z) (calls : list ((nat -> Z) * Op V)) (t' : Z) : Prop :=
  match calls with
  | [] => t <= t'
  | (c, _) :: rest => exists u, within t u c /\ timed u rest t'
  end.

Lemma within_le t t' c : within t t' c -> t <= t'.
Proof. intros H. specialize (H 0%nat). lia. Qed.
Lemma timed_le {V} (calls : list ((nat -> Z) * Op V)) t t' : timed t calls t' -> t <= t'.
Proof.
  revert t. induction calls as [|[c o] l IH]; intros t; simpl; [done|].
  intros (u & H1 & H2). apply within_le in H1. apply IH in H2. lia.
Qed.

Lemma sim_run {S V} `{CacheBackend S V} g op_ok `{!Refines S V g op_ok} calls s t t' m :
  timed t calls t' -> Forall (fun c => op_ok (snd c)) calls -> sim s t m ->
  exists m', cache_run g m (fst (run_ops calls s)) m' /\ sim (snd (run_ops calls s)) t' m'.
Proof.
  revert s t m. induction calls as [|[c o] l IH]; intros s t m Ht Hok Hs; simpl in *.
  - exists m. split; [constructor|]. by eapply sim_later.
  - destruct Ht as (u & Hw & Hl). inversion_clear Hok as [|? ? Ho Hl'].
    destruct (sim_op s t u c o m Hw Ho Hs) as (m1 & Hstep & Hs1).
    destruct (run_op c o s) as [r s1]; simpl in *.
    destruct (IH s1 u m1 Hl Hl' Hs1) as (m2 & Hrun & Hs2).
    destruct (run_ops l s1) as [lr s2]; simpl in *. exists m2. split; [|done]. by econstructor.
Qed.

(** * Facts on maps *)
Section maps.
Context {V : Type}.
Implicit Types m : gmap string V.

Lemma lookup_without p m k v : without_prefix p m !! k = Some v <-> m !! k = Some v /\ startswith k p = false.
Proof. unfold without_prefix. rewrite map_lookup_filter_Some; simpl. destruct (startswith k p); naive_solver. Qed.
Lemma lookup_with p m k v : with_prefix p m !! k = Some v <-> m !! k = Some v /\ startswith k p = true.
Proof. unfold with_prefix. by rewrite map_lookup_filter_Some. Qed.
Lemma with_without_size p m : (size (with_prefix p m) + size (without_prefix p m) = size m)%nat.
Proof.
  unfold with_prefix, without_prefix.
  rewrite <- map_size_disj_union by apply map_disjoint_filter_complement.
  by rewrite map_filter_union_complement.
Qed.
End maps.

(** * Stores under a key mapping

    The entries of a store that belong to a cache are those under the keys
    [f k]; [enc v x] says that [x] stands for the value [v]. *)
Section covers.
Context {T X V : Type} `{ExpiringStoreLaws T X}.
Context (f : string -> string) (f_inj : forall a b, f a = f b -> a = b) (enc : V -> X -> Prop).
Implicit Types m : gmap string V.

Definition covers (s : T) (t : Z) m : Prop :=
  forall k x, es_view s t (f k) = Some x -> exists v, m !! k = Some v /\ enc v x.
Definition shrinks (t : Z) (s s' : T) : Prop :=
  forall k x, es_view s' t k = Some x -> es_view s t k = Some x.

Lemma covers_later s t t' m : t <= t' -> covers s t m -> covers s t' m.
Proof. intros Hle Hc k x Hx. eapply Hc, view_expires; eauto. Qed.
Lemma covers_hit s t u m k x : t <= u -> covers s t m -> es_get u (f k) s = Some x ->
  exists v, m !! k = Some v /\ enc v x.
Proof. rewrite get_view. intros Hle Hc Hx. by eapply (covers_later s t u). Qed.
Lemma covers_miss s t u m k : t <= u -> covers s t m -> es_get u (f k) s = None -> covers s u (delete k m).
Proof.
  rewrite get_view. intros Hle Hc Hn k' x Hx. assert (k <> k') by congruence.
  rewrite lookup_delete_ne by done. by eapply (covers_later s t u).
Qed.
Lemma covers_set s t u m k v x ttl : 0 < ttl -> t <= u -> enc v x -> covers s t m ->
  covers (es_set u (f k) x ttl s) u (<[k := v]> m).
Proof.
  intros Httl Hle He Hc k' y Hy. destruct (decide (k = k')) as [->|Hne].
  - rewrite lookup_insert_eq. exists v. rewrite set_same in Hy by lia.
    destruct (_ <? _); by simplify_eq.
  - rewrite lookup_insert_ne by done. apply (covers_later s t u m Hle Hc).
    eapply set_other; [|reflexivity|exact Hy]. intros E. by apply Hne, f_inj.
Qed.
Lemma covers_del s t u m k : t <= u -> covers s t m ->
  covers (snd (es_del u (f k) s)) u (delete k m) /\
  (fst (es_del u (f k) s) = true -> is_Some (m !! k)) /\
  (forall t', u <= t' -> shrinks t' s (snd (es_del u (f k) s))).
Proof.
  intros Hle Hc. split; [|split].
  - intros k' x Hx. destruct (decide (k = k')) as [->|Hne]; [by rewrite del_same in Hx by done|].
    rewrite lookup_delete_ne by done. rewrite del_other in Hx by (intros E; by apply Hne, f_inj).
    by apply (covers_later s t u m Hle Hc).
  - rewrite del_reports. intros [x Hx]. destruct (covers_later _ _ _ _ Hle Hc k x Hx) as (v & ? & _). eauto.
  - intros t' Ht' k' x. destruct (decide (f k = k')) as [<-|Hne]; [by rewrite del_same|by rewrite del_other].
Qed.
Lemma shrinks_refl t s : shrinks t s s.
Proof. by intros k x. Qed.
Lemma shrinks_trans t s s' s'' : shrinks t s s' -> shrinks t s' s'' -> shrinks t s s''.
Proof. intros H1 H2 k x Hx. by apply H1, H2. Qed.

(** What is left of a map when the keys [ks] go. *)
Definition delete_keys (ks : list string) m : gmap string V := foldl (fun m k => delete k m) m ks.
Lemma delete_keys_app ks ks' m : delete_keys (ks ++ ks') m = delete_keys ks' (delete_keys ks m).
Proof. apply foldl_app. Qed.
Lemma delete_keys_sub ks m : delete_keys ks m ⊆ m.
Proof.
  revert m. induction ks as [|k ks IH]; intros m; [done|]. etrans; [apply IH|]. apply delete_subseteq.
Qed.
Lemma delete_keys_gone ks m k : In k ks -> delete_keys ks m !! k = None.
Proof.
  revert m. induction ks as [|k' ks IH]; intros m; [done|]. intros [->|Hin]; [|by apply IH].
  change (delete_keys ks (delete k m) !! k = None).
  destruct (delete_keys ks (delete k m) !! k) eqn:E; [|done].
  pose proof (lookup_weaken _ _ _ _ E (delete_keys_sub ks (delete k m))) as E'.
  by rewrite lookup_delete_eq in E'.
Qed.
Lemma without_delete_keys p ks m : (forall k, In k ks -> startswith k p = true) ->
  without_prefix p m ⊆ delete_keys ks m.
Proof.
  revert m. induction ks as [|k ks IH]; intros m Hks; [apply map_filter_subseteq|].
  etrans; [|apply IH; intros; apply Hks; by right].
  apply map_subseteq_spec. intros k' v Hv. apply lookup_without in Hv as [Hv Hp].
  apply lookup_without. split; [|done]. rewrite lookup_delete_ne; [done|].
  intros ->. rewrite (Hks k') in Hp by (by left). done.
Qed.
Lemma count_bound p m m' n : without_prefix p m ⊆ m' -> (n + size m' <= size m)%nat ->
  (n <= size (with_prefix p m))%nat.
Proof. intros Hsub Hn. apply map_subseteq_size in Hsub. pose proof (with_without_size p m). lia. Qed.
Lemma size_delete_some m k : is_Some (m !! k) -> (1 + size (delete k m))%nat = size m.
Proof. intros Hk. rewrite map_size_delete_Some by done. apply map_size_ne_0_lookup_2 in Hk. lia. Qed.
Lemma size_delete_le m k : (size (delete k m) <= size m)%nat.
Proof. apply map_subseteq_size, delete_subseteq. Qed.

(** Everything under the prefix is gone: the store covers the rest. *)
Lemma covers_without p s t m m' : covers s t m' -> m' ⊆ m ->
  (forall k, startswith k p = true -> es_view s t (f k) = None) -> covers s t (without_prefix p m).
Proof.
  intros Hc Hsub Hnone k x Hx. destruct (Hc k x Hx) as (v & Hv & He). exists v. split; [|done].
  apply lookup_without. split; [by eapply lookup_weaken|].
  destruct (startswith k p) eqn:E; [|done]. by rewrite Hnone in Hx.
Qed.
End covers.
