(* ===== verification/CacheSims.v ===== *)
(** * Both cache backends refine the specification of [CacheSpec]

    [InProcess] refines the sound cache; [Redis] refines the fail-open one
    whatever its client does, and the sound one while no command fails. *)
From S2P Require Import Prelude PyStr PyJson Cache CacheSpec.

Local Open Scope string_scope.
Local Open Scope Z_scope.

Lemma within_mono t t' c i j : within t t' c -> (i <= j)%nat -> c i <= c j.
Proof. intros Hw. induction 1 as [|j _ IH]; [lia|]. destruct (Hw j). lia. Qed.
Lemma within_at t t' c i : within t t' c -> t <= c i <= t'.
Proof. intros Hw. destruct (Hw i). lia. Qed.

(** * Prefixes and lists *)
Lemma startswith_app_both a k p : startswith (a ++ k)%string (a ++ p)%string = startswith k p.
Proof.
  unfold startswith. induction a as [|c a IH]; [done|]. simpl. destruct (Ascii.ascii_dec c c); [done|congruence].
Qed.
Lemma startswith_inv a p x : startswith x (a ++ p)%string = true -> exists k, x = (a ++ k)%string /\ startswith k p = true.
Proof.
  unfold startswith. revert x. induction a as [|c a IH]; intros x Hx; [by exists x|].
  destruct x as [|c' x]; [done|]. simpl in Hx. destruct (Ascii.ascii_dec c c') as [<-|]; [|done].
  destruct (IH x Hx) as (k & -> & Hk). by exists k.
Qed.
Lemma map_preimage {A B} (f : A -> B) l (P : A -> Prop) : (forall x, In x l -> exists k, x = f k /\ P k) ->
  exists ks, l = map f ks /\ (forall k, In k ks -> P k).
Proof.
  induction l as [|x l IH]; intros Hl; [by exists []|].
  destruct (Hl x (or_introl eq_refl)) as (k & -> & Hk). destruct IH as (ks & -> & Hks); [intros; apply Hl; by right|].
  exists (k :: ks). split; [done|]. intros k' [<-|Hin]; auto.
Qed.

(** * In process *)
Section inprocess.
Context {T V : Type} `{ExpiringStoreLaws T V}.
Notation B := (InProcess.InProcessBackend T).
Notation self := (fun k : string => k).

Definition ip_sim (b : B) (t : Z) (m : gmap string V) : Prop :=
  0 < InProcess.ip_ttl b /\ covers self eq (InProcess.ip_store b) t m.

Lemma del_item_sim u k b t m : t <= u -> ip_sim b t m ->
  let '(r, b') := InProcess.del_item u k b in
  ip_sim b' u (delete k m) /\
  (forall t', u <= t' -> shrinks (X := V) t' (InProcess.ip_store b) (InProcess.ip_store b')) /\
  match r with Ok _ => is_Some (m !! k) | Raise e => e = KeyError k end.
Proof.
  intros Hle [Hp Hc]. unfold InProcess.del_item.
  destruct (covers_del self ltac:(done) eq (InProcess.ip_store b) t u m k Hle Hc) as (H1 & H2 & H3).
  destruct (es_del u k _) as [live s]; simpl in *. split; [by split|]. split; [done|].
  destruct live; [by apply H2|done].
Qed.

Lemma del_all_sim clock t0 t' ks : forall i b t m, within t0 t' clock -> t <= clock i -> ip_sim b t m ->
  let '(r, b') := InProcess.del_all clock i ks b in
  exists m', ip_sim b' t' m' /\ delete_keys ks m ⊆ m' /\ m' ⊆ m /\
    match r with
    | Ok _ => m' = delete_keys ks m /\ (length ks + size m' <= size m)%nat /\
              shrinks (X := V) t' (InProcess.ip_store b) (InProcess.ip_store b')
    | Raise e => exists k, In k ks /\ e = KeyError k
    end.
Proof.
  induction ks as [|k ks IH]; intros i b t m Hw Hle Hs; simpl.
  - exists m. destruct Hs as [Hp Hc]. split; [|split; [done|split; [done|split; [done|]]]].
    + split; [done|]. eapply covers_later; [|done]. pose proof (within_at _ _ _ i Hw). lia.
    + split; [lia|by apply shrinks_refl].
  - pose proof (del_item_sim (clock i) k b t m Hle Hs) as Hd.
    destruct (InProcess.del_item (clock i) k b) as [[[]|e] b1]; destruct Hd as (Hs1 & Hsh & Hr).
    + specialize (IH (S i) b1 (clock i) (delete k m) Hw (within_mono _ _ _ _ _ Hw (Nat.le_succ_diag_r i)) Hs1).
      destruct (InProcess.del_all clock (S i) ks b1) as [r b2].
      destruct IH as (m' & Hs2 & Hlo & Hhi & Hcase). exists m'. split; [done|]. split; [done|].
      split; [etrans; [done|apply delete_subseteq]|]. destruct r as [[]|e].
      * destruct Hcase as (-> & Hn & Hsh2). split; [done|]. split.
        -- apply size_delete_some in Hr. lia.
        -- eapply shrinks_trans; [|done]. apply Hsh. apply (within_at _ _ _ i Hw).
      * destruct Hcase as (k' & Hin & ->). eauto.
    + exists (delete k m). destruct Hs1 as [Hp Hc1]. split; [split; [done|]|].
      { eapply covers_later; [|done]. pose proof (within_at _ _ _ i Hw). lia. }
      split; [apply delete_keys_sub|]. split; [apply delete_subseteq|]. subst e. eauto.
Qed.

Lemma matching_keys_in u p (b : B) k : In k (InProcess.matching_keys (V := V) u p b) <->
  is_Some (es_view (X := V) (InProcess.ip_store b) u k) /\ startswith k p = true.
Proof. unfold InProcess.matching_keys. by rewrite filter_In, keys_live. Qed.

Lemma ip_invalidate_sim clock t t' p b m : within t t' clock -> ip_sim b t m ->
  let '(r, b') := InProcess.invalidate_prefix (V := V) clock p b in
  exists m', cache_step Sound m (Invalidate p) (match r with Ok n => RCount n | Raise e => RRaise e end) m' /\
    ip_sim b' t' m'.
Proof.
  intros Hw Hs. unfold InProcess.invalidate_prefix. set (ks := InProcess.matching_keys _ _ _).
  assert (Hks : forall k, In k ks -> startswith k p = true) by (intros k Hk; apply (proj1 (matching_keys_in _ _ _ _)) in Hk; tauto).
  pose proof (del_all_sim clock t t' ks 1 b t m Hw ltac:(apply (within_at _ _ _ 1 Hw)) Hs) as Hd.
  destruct (InProcess.del_all clock 1 ks b) as [[[]|e] b']; destruct Hd as (m' & [Hp Hc] & Hlo & Hhi & Hcase).
  - destruct Hcase as (-> & Hn & Hsh). exists (without_prefix p m). split; [|split; [done|]].
    + constructor. pose proof (count_bound p m _ _ (without_delete_keys p ks m Hks) Hn). lia.
    + apply (covers_without _ _ p _ t' m _ Hc Hhi). intros k Hk.
      destruct (es_view (InProcess.ip_store b') t' k) as [v|] eqn:E; [|done]. exfalso.
      assert (Hin : In k ks).
      { apply matching_keys_in. split; [|done]. exists v.
        eapply view_expires; [|apply Hsh, E]. apply (within_at _ _ _ 0 Hw). }
      destruct (Hc k v E) as (v' & Hv' & _). by rewrite delete_keys_gone in Hv'.
  - destruct Hcase as (k & Hin & ->). exists m'. split; [|by split]. apply step_invalidate_expired; [|done|by apply Hks].
    etrans; [|done]. by apply without_delete_keys.
Qed.

Lemma ip_delete_sim clock t t' k b m : within t t' clock -> ip_sim b t m ->
  let '(r, b') := InProcess.delete (V := V) clock k b in
  exists m', cache_step Sound m (Delete k) (match r with Ok x => RBool x | Raise e => RRaise e end) m' /\
    ip_sim b' t' m'.
Proof.
  intros Hw [Hp Hc]. unfold InProcess.delete.
  pose proof (within_at _ _ _ 0 Hw). pose proof (within_at _ _ _ 1 Hw).
  assert (Hlater : forall u (b' : B) m', u <= t' -> ip_sim b' u m' -> ip_sim b' t' m').
  { intros u b' m' Hu [? ?]. split; [done|]. by eapply covers_later. }
  destruct (es_get (clock 0%nat) k _) as [v|] eqn:E.
  - pose proof (del_item_sim (clock 1%nat) k b t m ltac:(lia) (conj Hp Hc)) as Hd.
    destruct (InProcess.del_item _ k b) as [[[]|e] b1]; destruct Hd as (Hs1 & _ & Hr).
    + exists (delete k m). split; [by constructor|]. eapply Hlater; [|exact Hs1]; lia.
    + subst e. exists (delete k m). split; [constructor|]. eapply Hlater; [|exact Hs1]; lia.
  - exists (delete k m). split; [by constructor|]. apply (Hlater (clock 0%nat)); [lia|]. split; [done|].
    eapply (covers_miss self eq _ t); [lia|done|done].
Qed.

#[export] Instance inprocess_refines : Refines B V Sound (fun _ => True).
Proof.
  refine {| sim := ip_sim |}.
  - intros s t t' m Hle [Hp Hc]. split; [done|]. by eapply covers_later.
  - intros b t t' clock o m Hw _ [Hp Hc]. pose proof (within_at _ _ _ 0 Hw).
    assert (Hl : covers self eq (InProcess.ip_store b) t' m) by (eapply covers_later; [|done]; lia).
    destruct o as [k|k v ttl|k|p|p]; simpl.
    + unfold InProcess.get. destruct (es_get _ k _) as [v|] eqn:E.
      * exists m. split; [|by split]. constructor.
        destruct (covers_hit self eq _ t (clock 0%nat) m k v ltac:(lia) Hc E) as (v' & ? & ->). done.
      * exists (delete k m). split; [constructor|]. split; [done|].
        apply (covers_later self eq _ (clock 0%nat)); [lia|]. eapply (covers_miss self eq _ t); [lia|done|done].
    + exists (<[k := v]> m). split; [constructor|]. split; [done|]. simpl.
      apply (covers_later self eq _ (clock 0%nat)); [lia|]. apply (covers_set self ltac:(done) eq _ t); [done|lia|done|done].
    + pose proof (ip_delete_sim clock t t' k b m Hw (conj Hp Hc)) as Hd.
      destruct (InProcess.delete clock k b) as [r b']. exact Hd.
    + pose proof (ip_invalidate_sim clock t t' p b m Hw (conj Hp Hc)) as Hd.
      destruct (InProcess.invalidate_prefix clock p b) as [r b']. exact Hd.
    + unfold InProcess.exists_prefix. destruct (existsb _ _) eqn:E.
      * exists m. split; [|by split]. constructor. apply existsb_exists in E as (k & Hk & Hkp).
        apply keys_live in Hk as [v Hv]. destruct (covers_later self eq _ t (clock 0%nat) m ltac:(lia) Hc k v Hv) as (v' & Hv' & _).
        intros E0. assert (with_prefix p m !! k = Some v') as E1 by (by apply lookup_with). by rewrite E0, lookup_empty in E1.
      * exists (without_prefix p m). split; [constructor|]. split; [done|].
        apply (covers_without self eq p _ t' m m Hl); [done|]. intros k Hk.
        destruct (es_view _ t' k) as [v|] eqn:Ev; [|done]. exfalso.
        enough (existsb (fun k => startswith k p) (es_keys (clock 0%nat) (InProcess.ip_store b)) = true) by congruence.
        apply existsb_exists. exists k. split; [|done]. apply keys_live. exists v. eapply view_expires; [|done]. lia.
Defined.
End inprocess.

(** * Redis *)
Section redis.
Context {R V : Type} `{ExpiringStoreLaws R string} `{RedisGlobLaws}.
Context (GP : string) (serialize : V -> res json) (deserialize : json -> res V) (ns : string) (g : Grade).
(** The caller's callbacks are inverse on the values it stores. *)
Context (storable : V -> Prop)
  (codec : forall v j, storable v -> serialize v = Ok j -> wf_json j /\ deserialize j = Ok v).
Notation B := (Redis.RedisBackend R).
Notation fullk := (fun k => Redis.ns_prefix GP ns ++ k)%string.

Definition encodes (v : V) (x : string) : Prop := storable v /\ exists j, serialize v = Ok j /\ x = dumps false j.
Lemma encodes_decodes v x : encodes v x -> Redis.decodes deserialize x = Ok v.
Proof.
  intros (Hv & j & Hj & ->). destruct (codec v j Hv Hj) as [Hw Hd]. unfold Redis.decodes.
  by rewrite (loads_dumps false j Hw).
Qed.
Lemma fullk_inj a b : fullk a = fullk b -> a = b.
Proof. simpl. induction (Redis.ns_prefix GP ns) as [|c p IH]; simpl; [done|]. intros E. apply IH. congruence. Qed.

(** What no call changes, and a client that has not failed. *)
Definition keeps (b b' : B) : Prop :=
  Redis.rb_namespace b' = Redis.rb_namespace b /\ Redis.rb_ttl b' = Redis.rb_ttl b /\
  (Redis.rb_faults b = [] -> Redis.rb_faults b' = []).
Lemma keeps_refl b : keeps b b.
Proof. done. Qed.
Lemma keeps_trans b b' b'' : keeps b b' -> keeps b' b'' -> keeps b b''.
Proof. unfold keeps. intuition congruence. Qed.

Definition redis_sim (b : B) (t : Z) (m : gmap string V) : Prop :=
  (Redis.rb_namespace b = ns /\ 0 < Redis.rb_ttl b /\ (g = Sound -> Redis.rb_faults b = [])) /\
  covers fullk encodes (Redis.rb_server b) t m.
Lemma redis_sim_keeps b b' t t' m m' : redis_sim b t m -> keeps b b' ->
  covers fullk encodes (Redis.rb_server b') t' m' -> redis_sim b' t' m'.
Proof. intros [(H4 & H5 & H6) _] (E1 & E2 & E3) Hc. split; [|done]. rewrite E1, E2. auto. Qed.

Lemma client_cases (b : B) : let '(up, b') := Redis.client b in
  keeps b b' /\ Redis.rb_server b' = Redis.rb_server b /\ (up = false -> Redis.rb_faults b <> []).
Proof.
  unfold Redis.client, Redis.next_fault. destruct (Redis.rb_faults b) as [|f fs] eqn:E; [done|].
  split; [split; [done|split; [done|congruence]]|]. by destruct f.
Qed.
Lemma command_cases {A} (c : R -> A * R) (b : B) : let '(r, b') := Redis.command c b in
  keeps b b' /\
  match r with
  | Ok a => c (Redis.rb_server b) = (a, Redis.rb_server b')
  | Raise _ => Redis.rb_faults b <> [] /\
      (Redis.rb_server b' = Redis.rb_server b \/ Redis.rb_server b' = snd (c (Redis.rb_server b)))
  end.
Proof.
  unfold Redis.command, Redis.next_fault, keeps. destruct (Redis.rb_faults b) as [|f fs] eqn:E.
  - destruct (c (Redis.rb_server b)) as [a r] eqn:Ec; simpl. by rewrite E.
  - destruct f; simpl; try destruct (c (Redis.rb_server b)) as [a r] eqn:Ec; simpl;
      (split; [split; [done|split; [done|congruence]]|]); auto.
Qed.

Lemma del_keys_sim u ks : forall r t m, t <= u -> covers fullk encodes r t m ->
  let '(n, r') := Redis.del_keys u (map fullk ks) r in
  covers fullk encodes r' u (delete_keys ks m) /\ 0 <= n /\
  n + Z.of_nat (size (delete_keys ks m)) <= Z.of_nat (size m) /\ (forall t', u <= t' -> shrinks t' r r').
Proof.
  induction ks as [|k ks IH]; intros r t m Hle Hc; simpl.
  - split; [by eapply covers_later|]. split; [lia|]. split; [lia|]. intros. by apply shrinks_refl.
  - destruct (covers_del fullk fullk_inj encodes r t u m k Hle Hc) as (H4 & H5 & H6).
    destruct (es_del u _ r) as [live r1]; simpl in *. specialize (IH r1 u (delete k m) ltac:(lia) H4).
    destruct (Redis.del_keys u (map fullk ks) r1) as [n r2]. destruct IH as (Hc2 & Hn & Hs & Hsh).
    split; [done|]. pose proof (size_delete_le m k).
    split; [by destruct live; lia|]. split.
    + destruct live; [|lia]. specialize (H5 eq_refl). apply size_delete_some in H5. lia.
    + intros t' Ht'. eapply shrinks_trans; [by apply H6|by apply Hsh].
Qed.

Lemma del_sim c u t b m ks : t <= u -> covers fullk encodes (Redis.rb_server b) t m ->
  c = Redis.del_keys u (map fullk ks) ->
  let '(r, b') := Redis.command c b in
  keeps b b' /\ exists m', covers fullk encodes (Redis.rb_server b') u m' /\ delete_keys ks m ⊆ m' /\ m' ⊆ m /\
    match r with
    | Ok n => m' = delete_keys ks m /\ 0 <= n /\ n + Z.of_nat (size m') <= Z.of_nat (size m) /\
              (forall t', u <= t' -> shrinks t' (Redis.rb_server b) (Redis.rb_server b'))
    | Raise _ => Redis.rb_faults b <> []
    end.
Proof.
  intros Hle Hc ->. pose proof (command_cases (Redis.del_keys u (map fullk ks)) b) as Hcmd.
  pose proof (del_keys_sim u ks (Redis.rb_server b) t m Hle Hc) as Hd.
  destruct (Redis.command _ b) as [[n|e] b']; destruct Hcmd as [Hk Hr]; split; try done.
  - rewrite Hr in Hd. destruct Hd as (Hc' & Hn & Hs & Hsh). exists (delete_keys ks m). split; [done|].
    split; [done|]. split; [apply delete_keys_sub|done].
  - destruct Hr as [Hf [E|E]]; rewrite E.
    + exists m. split; [by eapply covers_later|]. split; [apply delete_keys_sub|done].
    + destruct (Redis.del_keys _ _ _) as [n r]; simpl in *. destruct Hd as (Hc' & _).
      exists (delete_keys ks m). split; [done|]. split; [done|]. split; [apply delete_keys_sub|done].
Qed.

Lemma drain_sim clock t0 t' broken ks : forall i bs count b t m, within t0 t' clock -> t <= clock i ->
  covers fullk encodes (Redis.rb_server b) t m ->
  let '(n, b') := Redis.drain clock i (map fullk bs) count (map fullk ks) broken b in
  keeps b b' /\ exists m', covers fullk encodes (Redis.rb_server b') t' m' /\
    delete_keys (bs ++ ks) m ⊆ m' /\ m' ⊆ m /\
    count <= n /\ n - count + Z.of_nat (size m') <= Z.of_nat (size m) /\
    (broken = false -> Redis.rb_faults b = [] ->
       m' = delete_keys (bs ++ ks) m /\ shrinks t' (Redis.rb_server b) (Redis.rb_server b')).
Proof.
  assert (Hend : forall i b t m (P : Prop), within t0 t' clock -> t <= clock i ->
    covers fullk encodes (Redis.rb_server b) t m -> covers fullk encodes (Redis.rb_server b) t' m).
  { intros i b t m _ Hw Hle Hc. eapply covers_later; [|done]. pose proof (within_at _ _ _ i Hw). lia. }
  induction ks as [|k ks IH]; intros i bs count b t m Hw Hle Hc; cbn [map Redis.drain].
  - rewrite app_nil_r. destruct (broken || _) eqn:E.
    + split; [apply keeps_refl|]. exists m. split; [by eapply (Hend i _ _ _ True)|]. split; [apply delete_keys_sub|].
      split; [done|]. split; [lia|]. split; [lia|]. intros -> _. simpl in E. apply bool_decide_eq_true in E.
      destruct bs; [|done]. split; [done|by apply shrinks_refl].
    + pose proof (del_sim _ (clock i) t b m bs Hle Hc eq_refl) as Hd.
      destruct (Redis.command _ b) as [[n|e] b']; destruct Hd as (Hk & m' & Hc' & Hlo & Hhi & Hr); (split; [done|]);
        exists m'; (split; [eapply covers_later; [|done]; apply (within_at _ _ _ i Hw)|]); (split; [done|]); (split; [done|]).
      * destruct Hr as (-> & Hn & Hs & Hsh). split; [lia|]. split; [lia|]. intros _ _. split; [done|].
        apply Hsh, (within_at _ _ _ i Hw).
      * apply map_subseteq_size in Hhi. split; [lia|]. split; [lia|]. done.
  - rewrite <- (map_app fullk bs [k] : map fullk (bs ++ [k]) = (map fullk bs ++ [fullk k]))%list.
    replace (bs ++ k :: ks)%list with ((bs ++ [k]) ++ ks)%list by (by rewrite <- app_assoc).
    destruct (_ <=? _)%nat eqn:Eb.
    + pose proof (del_sim _ (clock i) t b m (bs ++ [k])%list Hle Hc eq_refl) as Hd.
      destruct (Redis.command _ b) as [[n|e] b1]; destruct Hd as (Hk & m1 & Hc1 & Hlo & Hhi & Hr).
      * destruct Hr as (-> & Hn & Hs & Hsh).
        specialize (IH (S i) [] (count + n) b1 (clock i) (delete_keys (bs ++ [k]) m) Hw
                      (within_mono _ _ _ _ _ Hw (Nat.le_succ_diag_r i)) Hc1).
        cbn [map] in IH. destruct (Redis.drain _ _ _ _ _ _ b1) as [n2 b2].
        destruct IH as (Hk2 & m2 & Hc2 & Hlo2 & Hhi2 & Hn2 & Hs2 & Hx). split; [by eapply keeps_trans|].
        exists m2. rewrite delete_keys_app. split; [done|]. split; [done|].
        split; [by etrans|]. split; [lia|]. split; [lia|]. intros Hb Hf.
        destruct (Hx Hb) as [-> Hsh2]; [by apply Hk|]. split; [done|].
        eapply shrinks_trans; [|done]. apply Hsh, (within_at _ _ _ i Hw).
      * split; [done|]. exists m1. split; [eapply covers_later; [|done]; apply (within_at _ _ _ i Hw)|].
        rewrite delete_keys_app. split; [etrans; [apply delete_keys_sub|done]|]. split; [done|].
        apply map_subseteq_size in Hhi. split; [lia|]. split; [lia|]. done.
    + apply (IH i (bs ++ [k])%list count b t m Hw Hle Hc).
Qed.

Definition redis_op_ok (o : Op V) : Prop :=
  match o with
  | Set_ k v ttl =>
      storable v /\ match serialize v with Ok _ => True | Raise e => g = FailOpen /\ Redis.decode_error e = true end /\ (forall z, ttl = Some z -> 0 <= z)
  | Invalidate p | Exists p => literal (fullk p) = true
  | _ => True
  end.
Lemma not_sound (l : list Fault) : l <> [] -> (g = Sound -> l = []) -> g = FailOpen.
Proof. destruct g; [|done]. intros H4 H5. by destruct H4, H5. Qed.

(** How every call starts: a state with the same server, and a client unless
    the cache may fail. *)
Lemma client_sim t t' b m : t <= t' -> redis_sim b t m ->
  let '(up, b1) := Redis.client b in
  Redis.rb_server b1 = Redis.rb_server b /\ 0 < Redis.rb_ttl b1 /\ (forall k, Redis.full GP k b1 = fullk k) /\
  (up = false -> g = FailOpen) /\ (Redis.rb_faults b1 <> [] -> g = FailOpen) /\
  (forall b2, keeps b1 b2 -> Redis.rb_server b2 = Redis.rb_server b1 -> redis_sim b2 t' m) /\
  (forall b2 m', keeps b1 b2 -> covers fullk encodes (Redis.rb_server b2) t' m' -> redis_sim b2 t' m').
Proof.
  intros Hle Hs. pose proof Hs as [(Hns & Httl & Hf) Hc]. pose proof (client_cases b) as Hcl.
  destruct (Redis.client b) as [up b1]. destruct Hcl as (Hk & E1 & Hup). pose proof Hk as (E2 & E3 & E4).
  split; [done|]. split; [by rewrite E3|]. split; [intros k; unfold Redis.full; by rewrite E2, Hns|].
  split; [intros Hu; by eapply not_sound; [apply Hup|]|].
  split; [intros Hne; eapply not_sound; [apply Hne|]; auto|]. split.
  - intros b2 Hk2 Er. eapply redis_sim_keeps; [done|by eapply keeps_trans|]. rewrite Er, E1. by eapply covers_later.
  - intros b2 m' Hk2 Hc2. eapply redis_sim_keeps; [done|by eapply keeps_trans|done].
Qed.
Ltac client_step b t t' m Hs :=
  pose proof (client_sim t t' b m ltac:(lia) Hs) as Hcl; destruct (Redis.client b) as [up b1];
  destruct Hcl as (E1 & Httl & Hfull & Hup & Hfault & Hsame & Hnew).

Lemma redis_get_sim clock t t' k b m : within t t' clock -> redis_sim b t m ->
  let '(r, b') := Redis.get GP deserialize clock k b in
  exists m', cache_step g m (Get k) (match r with Ok o => RValue o | Raise e => RRaise e end) m' /\ redis_sim b' t' m'.
Proof.
  intros Hw Hs. pose proof (proj2 Hs) as Hc. pose proof (within_at _ _ _ 0 Hw). unfold Redis.get.
  client_step b t t' m Hs. rewrite (Hfull k).
  destruct up; simpl; [|exists m; split; [apply step_unreachable; auto|by apply Hsame]].
  pose proof (command_cases (fun r => (es_get (clock 0%nat) (fullk k) r, r)) b1) as Hcmd.
  destruct (Redis.command _ b1) as [[[raw|]|e] b2]; destruct Hcmd as [Hk2 Hr].
  - injection Hr as Hg Er. rewrite E1 in Hg.
    destruct (covers_hit fullk encodes _ t (clock 0%nat) m k raw ltac:(lia) Hc Hg) as (v & Hv & He).
    rewrite (encodes_decodes v raw He). exists m. split; [by constructor|]. by apply Hsame.
  - injection Hr as Hg Er. rewrite E1 in Hg. exists (delete k m). split; [constructor|].
    apply Hnew; [done|]. rewrite <- Er, E1.
    apply (covers_later fullk encodes _ (clock 0%nat)); [lia|]. by eapply (covers_miss fullk encodes _ t); [lia|..].
  - destruct Hr as [Hne Hor]. exists m. split; [apply step_unreachable; auto|]. apply Hsame; [done|by destruct Hor].
Qed.

Lemma redis_set_sim clock t t' k v ttl b m : within t t' clock -> redis_op_ok (Set_ k v ttl) -> redis_sim b t m ->
  let '(r, b2) := Redis.set GP serialize clock k v ttl b in
  r = Ok tt /\ exists m', cache_step g m (Set_ k v ttl) RUnit m' /\ redis_sim b2 t' m'.
Proof.
  intros Hw (Hst & Hok & Hz) Hs. pose proof (proj2 Hs) as Hc. pose proof (within_at _ _ _ 0 Hw). unfold Redis.set.
  client_step b t t' m Hs. rewrite (Hfull k).
  destruct up; simpl; [|split; [done|]; exists m; split; [apply step_set_lost; auto|by apply Hsame]].
  destruct (serialize v) as [j|e] eqn:Ej.
  2: { destruct Hok as [Hg ->]. split; [done|]. exists m. split; [by apply step_set_lost|by apply Hsame]. }
  split; [done|].
  match goal with |- context [Redis.command ?c b1] => pose proof (command_cases c b1) as Hcmd end.
  assert (Hset : covers fullk encodes (es_set (clock 0%nat) (fullk k) (dumps false j)
                   (Redis.ttl_or ttl (Redis.rb_ttl b1)) (Redis.rb_server b1)) t' (<[k:=v]> m)).
  { rewrite E1. apply (covers_later fullk encodes _ (clock 0%nat)); [lia|].
    apply (covers_set fullk fullk_inj encodes _ t); [|lia|by split; [|exists j]|done].
    unfold Redis.ttl_or. destruct ttl as [z|]; [|done]. specialize (Hz z eq_refl). destruct (Z.eqb_spec z 0); lia. }
  destruct (Redis.command _ b1) as [[[]|e] b2]; destruct Hcmd as [Hk2 Hr]; simpl.
  - injection Hr as Er. exists (<[k:=v]> m). split; [constructor|]. apply Hnew; [done|]. by rewrite <- Er.
  - destruct Hr as [Hne [E|E]].
    + exists m. split; [apply step_set_lost; auto|by apply Hsame].
    + exists (<[k:=v]> m). split; [constructor|]. apply Hnew; [done|]. by rewrite E.
Qed.

Lemma redis_delete_sim clock t t' k b m : within t t' clock -> redis_sim b t m ->
  let '(x, b') := Redis.delete GP clock k b in
  exists m', cache_step g m (Delete k) (RBool x) m' /\ redis_sim b' t' m'.
Proof.
  intros Hw Hs. pose proof (proj2 Hs) as Hc. pose proof (within_at _ _ _ 0 Hw). unfold Redis.delete.
  client_step b t t' m Hs. rewrite (Hfull k).
  destruct up; simpl; [|exists m; split; [apply step_delete_lost; auto|by apply Hsame]].
  rewrite <- E1 in Hc.
  pose proof (del_sim _ (clock 0%nat) t b1 m [k] ltac:(lia) Hc eq_refl) as Hd.
  cbn [map] in Hd. destruct (Redis.command _ b1) as [[n|e] b2]; destruct Hd as (Hk2 & m' & Hc' & Hlo & Hhi & Hr).
  - destruct Hr as (-> & Hn & Hsz & _). exists (delete k m). split.
    + constructor. intros Hx. destruct (m !! k) eqn:E; [done|].
      change (delete_keys [k] m) with (delete k m) in Hsz.
      rewrite delete_id in Hsz by done. destruct (Z.eqb_spec n 0); [done|lia].
    + apply Hnew; [done|]. by apply (covers_later fullk encodes _ (clock 0%nat)); [lia|].
  - exists m. split; [apply step_delete_lost; auto|]. apply Hnew; [done|].
    intros k' x Hx. destruct (covers_later fullk encodes _ (clock 0%nat) t' m' ltac:(lia) Hc' k' x Hx) as (v & Hv & He).
    exists v. split; [|done]. by eapply lookup_weaken.
Qed.

Lemma scan_sim u p b m : literal (fullk p) = true -> covers fullk encodes (Redis.rb_server b) u m ->
  let '(keys, broken, b') := Redis.scan u (fullk p ++ "*") b in
  keeps b b' /\ Redis.rb_server b' = Redis.rb_server b /\ (broken = true -> Redis.rb_faults b <> []) /\
  exists ks, keys = map fullk ks /\
    (forall k, In k ks -> startswith k p = true /\ is_Some (m !! k)) /\
    (broken = false -> forall k, startswith k p = true -> is_Some (es_view (Redis.rb_server b) u (fullk k)) -> In k ks).
Proof.
  intros Hlit Hc. set (all := List.filter (r_glob (fullk p ++ "*")) (es_keys u (Redis.rb_server b))).
  assert (Hall : forall x, In x all -> exists k, x = fullk k /\ startswith k p = true /\ is_Some (m !! k)).
  { intros x Hx. apply filter_In in Hx as [Hx Hg]. rewrite glob_star in Hg by done.
    destruct (startswith_inv _ _ _ Hg) as (k & -> & Hk). exists k. split; [done|]. split; [done|].
    apply keys_live in Hx as [y Hy]. destruct (Hc k y Hy) as (v & ? & _). eauto. }
  assert (Hcut : forall l, (forall x, In x l -> In x all) -> exists ks, l = map fullk ks /\
    (forall k, In k ks -> startswith k p = true /\ is_Some (m !! k))).
  { intros l Hl. destruct (map_preimage fullk l (fun k => startswith k p = true /\ is_Some (m !! k))) as (ks & -> & Hks).
    - intros x Hx. apply Hall, Hl, Hx.
    - by exists ks. }
  assert (Hfull : forall ks, all = map fullk ks ->
    forall k, startswith k p = true -> is_Some (es_view (Redis.rb_server b) u (fullk k)) -> In k ks).
  { intros ks E k Hk Hlive. assert (Hin : In (fullk k) (map fullk ks)).
    - rewrite <- E. apply filter_In. split; [by apply keys_live|]. rewrite glob_star by done. by rewrite startswith_app_both.
    - apply in_map_iff in Hin as (k' & Ek & Hin). by apply fullk_inj in Ek as <-. }
  unfold Redis.scan, Redis.next_fault, keeps. fold all. destruct (Redis.rb_faults b) as [|f fs] eqn:E.
  - fold all. rewrite E. destruct (Hcut all) as (ks & E2 & Hks); [done|]. split; [done|]. split; [done|]. split; [done|].
    exists ks. split; [done|]. split; [done|]. intros _. by apply Hfull.
  - destruct f; cbn [Redis.rb_server Redis.rb_namespace Redis.rb_ttl Redis.rb_faults]; fold all;
      (split; [split; [done|split; [done|congruence]]|]); (split; [done|]); (split; [done|]).
    1-3: destruct (Hcut all) as (ks & E2 & Hks); [done|]; exists ks; split; [done|]; split; [done|]; intros _; by apply Hfull.
    1-2: exists []; done.
    destruct (Hcut (firstn n all)) as (ks & E2 & Hks); [|exists ks; split; [done|]; split; [done|done]].
    intros x Hx. rewrite <- (firstn_skipn n all). apply in_or_app. by left.
Qed.

Lemma redis_invalidate_sim clock t t' p b m : within t t' clock -> literal (fullk p) = true -> redis_sim b t m ->
  let '(n, b') := Redis.invalidate_prefix GP clock p b in
  exists m', cache_step g m (Invalidate p) (RCount n) m' /\ redis_sim b' t' m'.
Proof.
  intros Hw Hlit Hs. pose proof (proj2 Hs) as Hc. pose proof (within_at _ _ _ 0 Hw). unfold Redis.invalidate_prefix.
  client_step b t t' m Hs. rewrite (Hfull p).
  destruct up; simpl.
  2: { exists m. split; [|by apply Hsame]. apply step_invalidate_partly; [auto|apply map_filter_subseteq|done|lia]. }
  rewrite <- E1 in Hc. pose proof (covers_later fullk encodes (Redis.rb_server b1) t (clock 0%nat) m ltac:(lia) Hc) as Hc0.
  pose proof (scan_sim (clock 0%nat) p b1 m Hlit Hc0) as Hscan.
  destruct (Redis.scan _ _ b1) as [[keys broken] b2]. destruct Hscan as (Hk2 & E2 & Hbr & ks & -> & Hks & Hcomp).
  pose proof (drain_sim clock t t' broken ks 1 [] 0 b2 t m Hw ltac:(apply (within_at _ _ _ 1 Hw))
    ltac:(by rewrite E2)) as Hd.
  cbn [map] in Hd. destruct (Redis.drain _ _ _ _ _ _ b2) as [n b3].
  destruct Hd as (Hk3 & m' & Hc' & Hlo & Hhi & Hn & Hsz & Hex).
  assert (Hsub : without_prefix p m ⊆ m').
  { etrans; [|exact Hlo]. apply without_delete_keys. intros k Hk. by apply Hks. }
  pose proof (count_bound p m m' (Z.to_nat n) Hsub ltac:(lia)) as Hcount.
  assert (Hpart : g = FailOpen -> exists m', cache_step g m (Invalidate p) (RCount n) m' /\ redis_sim b3 t' m').
  { intros Hg. exists m'. split; [|apply Hnew; [by eapply keeps_trans|done]].
    apply step_invalidate_partly; [done..|lia]. }
  destruct (Redis.rb_faults b1) as [|f fs] eqn:Ef; [|by apply Hpart, Hfault].
  destruct broken; [by destruct (Hbr eq_refl)|].
  destruct (Hex eq_refl ltac:(by apply Hk2)) as [-> Hsh].
  exists (without_prefix p m). split; [constructor; lia|]. apply Hnew; [by eapply keeps_trans|].
  apply (covers_without fullk encodes p _ t' m _ Hc' Hhi). intros k Hk.
  destruct (es_view (Redis.rb_server b3) t' (fullk k)) as [x|] eqn:E; [|done]. exfalso.
  destruct (Hc' k x E) as (v & Hv & _). rewrite delete_keys_gone in Hv; [done|].
  apply (Hcomp eq_refl k Hk). exists x. rewrite <- E2. apply (view_expires _ _ t'); [lia|]. by apply Hsh.
Qed.

Lemma redis_exists_sim clock t t' p b m : within t t' clock -> literal (fullk p) = true -> redis_sim b t m ->
  let '(x, b') := Redis.exists_prefix GP clock p b in
  exists m', cache_step g m (Exists p) (RBool x) m' /\ redis_sim b' t' m'.
Proof.
  intros Hw Hlit Hs. pose proof (proj2 Hs) as Hc. pose proof (within_at _ _ _ 0 Hw). unfold Redis.exists_prefix.
  client_step b t t' m Hs. rewrite (Hfull p).
  destruct up; simpl; [|exists m; split; [apply step_exists_unknown; auto|by apply Hsame]].
  rewrite <- E1 in Hc. pose proof (covers_later fullk encodes (Redis.rb_server b1) t (clock 0%nat) m ltac:(lia) Hc) as Hc0.
  pose proof (scan_sim (clock 0%nat) p b1 m Hlit Hc0) as Hscan.
  destruct (Redis.scan _ _ b1) as [[keys broken] b2]. destruct Hscan as (Hk2 & E2 & Hbr & ks & -> & Hks & Hcomp).
  destruct ks as [|k ks]; cbn [map].
  - destruct broken; [exists m; split; [apply step_exists_unknown; auto|by apply Hsame]|].
    exists (without_prefix p m). split; [constructor|]. apply Hnew; [done|]. rewrite E2.
    apply (covers_later _ _ _ (clock 0%nat)); [lia|]. apply (covers_without fullk encodes p _ _ m m Hc0); [done|].
    intros k Hk. destruct (es_view _ _ (fullk k)) as [x|] eqn:E; [|done]. exfalso.
    apply (Hcomp eq_refl k Hk). by rewrite E.
  - exists m. split; [|by apply Hsame]. constructor. destruct (Hks k (or_introl eq_refl)) as [Hp [v Hv]].
    intros E. assert (with_prefix p m !! k = Some v) as E3 by (by apply lookup_with). by rewrite E, lookup_empty in E3.
Qed.

Definition redis_refines : @Refines B V (Redis.backend GP serialize deserialize) g redis_op_ok.
Proof.
  refine (@Build_Refines B V (Redis.backend GP serialize deserialize) g redis_op_ok redis_sim _ _).
  - intros s t t' m Hle [H4 Hc]. split; [done|]. by eapply covers_later.
  - intros b t t' clock o m Hw Hok Hs. destruct o as [k|k v ttl|k|p|p]; simpl.
    + pose proof (redis_get_sim clock t t' k b m Hw Hs) as Hd. by destruct (Redis.get _ _ _ _ b).
    + pose proof (redis_set_sim clock t t' k v ttl b m Hw Hok Hs) as Hd. destruct (Redis.set _ _ _ _ _ _ b) as [r b2]. by destruct Hd as [-> Hd].
    + pose proof (redis_delete_sim clock t t' k b m Hw Hs) as Hd. by destruct (Redis.delete _ _ _ b).
    + pose proof (redis_invalidate_sim clock t t' p b m Hw Hok Hs) as Hd. by destruct (Redis.invalidate_prefix _ _ _ b).
    + pose proof (redis_exists_sim clock t t' p b m Hw Hok Hs) as Hd. by destruct (Redis.exists_prefix _ _ _ b).
Defined.
End redis.
