(* ===== verification/Normalize.v ===== *)
(** * Name normalisation (src/backend/authority/normalize.py)

    [unicodedata.normalize("NFD", _)] followed by dropping the combining marks
    is, below code point 256, a table on letters. *)
From S2P Require Import Prelude PyStr PyJson PyStrFacts.
From Stdlib Require Import Ascii String.

Local Open Scope string_scope.
Local Open Scope list_scope.

(** The base letter of a precomposed Latin-1 letter. *)
Definition strip_char (c : ascii) : ascii :=
  let n := code c in
  let in_ a b := ((a <=? n) && (n <=? b))%N in
  if in_ 192%N 197%N then "A"%char else if in_ 199%N 199%N then "C"%char else if in_ 200%N 203%N then "E"%char
  else if in_ 204%N 207%N then "I"%char else if in_ 209%N 209%N then "N"%char else if in_ 210%N 214%N then "O"%char
  else if in_ 217%N 220%N then "U"%char else if in_ 221%N 221%N then "Y"%char else if in_ 224%N 229%N then "a"%char
  else if in_ 231%N 231%N then "c"%char else if in_ 232%N 235%N then "e"%char else if in_ 236%N 239%N then "i"%char
  else if in_ 241%N 241%N then "n"%char else if in_ 242%N 246%N then "o"%char else if in_ 249%N 252%N then "u"%char
  else if in_ 253%N 253%N || in_ 255%N 255%N then "y"%char else c.
Definition strip_diacritics (text : string) : string := on_chars (map strip_char) text.

(** The class [\w] below 256: letters, digits, superscripts, fractions, ordinals
    and the underscore. *)
Definition is_word (c : ascii) : bool :=
  let n := code c in
  let in_ a b := ((a <=? n) && (n <=? b))%N in
  (in_ 48%N 57%N || in_ 65%N 90%N || in_ 97%N 122%N || in_ 95%N 95%N || in_ 170%N 170%N || in_ 178%N 179%N || in_ 181%N 181%N
   || in_ 185%N 186%N || in_ 188%N 190%N || in_ 192%N 214%N || in_ 216%N 246%N || in_ 248%N 255%N).

(** [re.sub("[^\w\s]", " ", s)] *)
Definition punct_char (c : ascii) : ascii := if is_word c || is_space c then c else " "%char.
(** [re.sub("\s+", " ", s)]: [ws] when the previous character was a space. *)
Fixpoint collapse (ws : bool) (l : list ascii) : list ascii :=
  match l with
  | [] => []
  | c :: l' =>
      if is_space c then (if ws then collapse true l' else " "%char :: collapse true l')
      else c :: collapse false l'
  end.

Definition normalize_name (name : string) : string :=
  let s := strip_diacritics name in
  let s := on_chars (map punct_char) s in
  let s := on_chars (collapse false) s in
  lower (strip s).

Fixpoint cut (l acc : list ascii) : option (list ascii * list ascii) :=
  match l with
  | [] => None
  | c :: l' => if bool_decide (c = ","%char) then Some (rev acc, l') else cut l' (c :: acc)
  end.
Definition reformat_surname_first (name : string) : string :=
  match cut (chars name) [] with
  | Some (surname, rest) => (strip (of_chars rest) ++ " " ++ strip (of_chars surname))%string
  | None => name
  end.

Definition name_variants (name : string) : list string :=
  let reformatted := reformat_surname_first name in
  normalize_name name :: if bool_decide (reformatted = name) then [] else [normalize_name reformatted].

(** * Canonical names *)

(** A character of a normalised word. *)
Definition canon_char (c : ascii) : bool :=
  is_word c && negb (is_space c) && bool_decide (strip_char c = c) && bool_decide (lower_char c = c).
Definition sp : ascii := " "%char.

(** Lower-case words separated by single spaces. *)
Record canonical (l : list ascii) : Prop := {
  canon_chars : Forall (fun c => canon_char c = true \/ c = sp) l;
  canon_single : forall a b, l <> (a ++ sp :: sp :: b)%list;
  canon_head : forall a, l <> sp :: a;
  canon_last : forall a, l <> (a ++ [sp])%list
}.


(** A stripped word character, in lower case, is canonical. *)
Lemma lower_canon c : is_word c = true -> is_space c = false -> strip_char c = c -> canon_char (lower_char c) = true.
Proof. revert c. apply (all_chars (fun c => is_word c = true -> is_space c = false -> strip_char c = c -> canon_char (lower_char c) = true)). vm_compute. reflexivity. Qed.
Lemma strip_stable c : strip_char (strip_char c) = strip_char c.
Proof. revert c. apply (all_chars (fun c => strip_char (strip_char c) = strip_char c)). vm_compute. reflexivity. Qed.
Lemma lower_space c : lower_char c = sp -> c = sp.
Proof. revert c. apply (all_chars (fun c => lower_char c = sp -> c = sp)). vm_compute. reflexivity. Qed.
Lemma canon_facts c : canon_char c = true ->
  is_space c = false /\ strip_char c = c /\ lower_char c = c /\ punct_char c = c /\ c <> "|"%char.
Proof. revert c. apply (all_chars (fun c => canon_char c = true -> is_space c = false /\ strip_char c = c /\ lower_char c = c /\ punct_char c = c /\ c <> "|"%char)). vm_compute. reflexivity. Qed.


Definition strip_list (l : list ascii) : list ascii := rdrop_while is_space (drop_while is_space l).
Lemma normalize_chars s : chars (normalize_name s) =
  map lower_char (strip_list (collapse false (map punct_char (map strip_char (chars s))))).
Proof. unfold normalize_name, lower, strip, strip_diacritics. by rewrite !chars_on. Qed.

(** ** Collapsing and trimming *)
Definition mid (c : ascii) : Prop := is_word c = true /\ is_space c = false /\ strip_char c = c.
Definition single (l : list ascii) : Prop := forall a b, l <> (a ++ sp :: sp :: b)%list.

Lemma single_cons c l : c <> sp -> single l -> single (c :: l).
Proof. intros Hc Hl [|x a] b E; simplify_list_eq. by eapply Hl. Qed.
Lemma single_sp c l : c <> sp -> single (c :: l) -> single (sp :: c :: l).
Proof. intros Hc Hl [|x a] b E; simplify_list_eq. by eapply Hl. Qed.
Lemma single_suffix a l : single (a ++ l) -> single l.
Proof. intros H x y ->. apply (H (a ++ x) y)%list. by rewrite app_assoc. Qed.
Lemma single_prefix a l : single (a ++ l) -> single a.
Proof. intros H x y ->. apply (H x (y ++ l))%list. by rewrite <- app_assoc. Qed.

Lemma collapse_mid l : Forall (fun c => mid c \/ is_space c = true) l -> forall ws,
  Forall (fun c => mid c \/ c = sp) (collapse ws l) /\ single (collapse ws l) /\
  (ws = true -> forall a, collapse ws l <> sp :: a).
Proof.
  induction 1 as [|c l Hc _ IH]; intros ws; simpl.
  - split; [constructor|]. split; [by intros [|? []] ?|done].
  - destruct (is_space c) eqn:E.
    + destruct ws; [by apply IH|]. destruct (IH true) as (H1 & H2 & H3). split; [constructor; [by right|done]|].
      split; [|done]. destruct (collapse true l) as [|x r]; [by intros [|? [|? ?]] ?|].
      apply single_sp; [|done]. intros ->. by apply (H3 eq_refl r).
    + destruct Hc as [Hc|Hc]; [|congruence]. destruct (IH false) as (H1 & H2 & _).
      assert (c <> sp) by (intros ->; by destruct Hc as (? & ? & _)).
      split; [constructor; [by left|done]|]. split; [by apply single_cons|]. intros _ a [=]. done.
Qed.


Lemma strip_list_spec l : exists a b, l = (a ++ strip_list l ++ b)%list /\
  (forall r, strip_list l <> sp :: r) /\ (forall r, strip_list l <> (r ++ [sp])%list).
Proof.
  unfold strip_list. destruct (drop_while_suffix is_space l) as [a E1].
  destruct (rdrop_while_prefix is_space (drop_while is_space l)) as [b E2]. exists a, b.
  split; [by rewrite <- E2|]. split.
  - intros r E. rewrite E in E2. by apply drop_while_head in E2.
  - intros r E. by apply rdrop_while_last in E.
Qed.

Lemma normalize_canonical s : canonical (chars (normalize_name s)).
Proof.
  rewrite normalize_chars. set (l := map punct_char _).
  assert (Hl : Forall (fun c => mid c \/ is_space c = true) l).
  { unfold l. rewrite map_map. apply Forall_forall. intros c Hc. apply list_elem_of_In, in_map_iff in Hc as (x & <- & _).
    unfold punct_char. destruct (is_word (strip_char x)) eqn:Ew; simpl.
    - destruct (is_space (strip_char x)) eqn:Es; [by right|]. left. split; [done|]. split; [done|apply strip_stable].
    - destruct (is_space (strip_char x)) eqn:Es; by right. }
  destruct (collapse_mid l Hl false) as (H1 & H2 & _).
  destruct (strip_list_spec (collapse false l)) as (a & b & E & H3 & H4).
  set (k := strip_list _) in *. rewrite E in H1, H2.
  apply Forall_app in H1 as [_ [H1 _]%Forall_app]. apply single_suffix, single_prefix in H2.
  split.
  - apply Forall_map. eapply Forall_impl; [exact H1|]. intros c [(? & ? & ?)| ->]; [left|by right]. by apply lower_canon.
  - intros x y Ek. apply map_eq_app in Ek as (x' & y' & -> & _ & Ek).
    destruct y' as [|s1 [|s2 y']]; try done. injection Ek as E1 E2 _. apply lower_space in E1, E2. subst.
    by apply (H2 x' y').
  - intros x Ek. destruct k as [|c k']; [done|]. injection Ek as E1 _. apply lower_space in E1 as ->. by apply (H3 k').
  - intros x Ek. apply map_eq_app in Ek as (x' & y' & E1 & _ & Ek).
    destruct y' as [|c [|]]; try done. injection Ek as E2. apply lower_space in E2 as ->. by apply (H4 x').
Qed.

Lemma map_id_on (f : ascii -> ascii) l : Forall (fun c => f c = c) l -> map f l = l.
Proof. induction 1 as [|c l E _ IH]; simpl; [done|]. by rewrite E, IH. Qed.
Lemma collapse_canon l : Forall (fun c => canon_char c = true \/ c = sp) l -> single l ->
  collapse false l = l.
Proof.
  intros Hl. enough (H : single l -> collapse false l = l /\ ((forall a, l <> sp :: a) -> collapse true l = l))
    by (intros; by apply H).
  induction Hl as [|c l Hc _ IH]; [done|]. intros Hs.
  destruct IH as [H1 H2]; [by apply (single_suffix [c])|]. simpl. destruct Hc as [Hc| ->].
  - apply canon_facts in Hc as (-> & _). by rewrite H1.
  - cbn. split; [|intros H; by destruct (H l)]. f_equal. apply H2. intros a ->. by apply (Hs [] a).
Qed.

(** A canonical name is its own normal form. *)
Lemma normalize_fixed s : canonical (chars s) -> normalize_name s = s.
Proof.
  intros [Hc Hs Hh Hl]. rewrite <- (of_chars_chars (normalize_name s)), normalize_chars.
  assert (Hf : forall f : ascii -> ascii, f sp = sp -> (forall c, canon_char c = true -> f c = c) ->
    Forall (fun c => f c = c) (chars s)).
  { intros f H1 H2. eapply Forall_impl; [exact Hc|]. intros c [Hx| ->]; auto. }
  rewrite (map_id_on strip_char) by (apply Hf; [done|intros c Hx; by apply canon_facts in Hx as (_ & ? & _)]).
  rewrite (map_id_on punct_char) by (apply Hf; [done|intros c Hx; by apply canon_facts in Hx as (_ & _ & _ & ? & _)]).
  rewrite collapse_canon by done. unfold strip_list.
  assert (Hns : forall c, c ∈ chars s -> c <> sp -> is_space c = false).
  { intros c Hin Hne. rewrite Forall_forall in Hc. destruct (Hc c Hin) as [Hx|]; [|done]. by apply canon_facts in Hx as (? & _). }
  rewrite drop_while_none, rdrop_while_none.
  - rewrite (map_id_on lower_char) by (apply Hf; [done|intros c Hx; by apply canon_facts in Hx as (_ & _ & ? & _)]).
    apply of_chars_chars.
  - intros c r E. apply Hns; [rewrite E; set_solver|]. intros ->. by apply (Hl r).
  - intros c r E. apply Hns; [rewrite E; set_solver|]. intros ->. by apply (Hh r).
Qed.

Lemma no_char_forall c s : no_char c s = true <-> Forall (fun x => x <> c) (chars s).
Proof.
  induction s as [|x s IH]; simpl; [by split; constructor|]. rewrite Forall_cons, andb_true_iff, negb_true_iff, IH.
  by rewrite bool_decide_eq_false.
Qed.
(** The separator of cache keys does not occur in a normalised name. *)
Lemma normalize_no_bar s : no_char "|"%char (normalize_name s) = true.
Proof.
  apply no_char_forall. eapply Forall_impl; [apply normalize_canonical|].
  intros c [Hx| ->]; [by apply canon_facts in Hx as (_ & _ & _ & _ & ?)|done].
Qed.

(** [normalize_name] returns a normal form: lower-case words without
    diacritics or punctuation, separated by single spaces; a name already in that
    form is unchanged, so the function is idempotent and two names share a form
    exactly when their forms are equal. *)
Theorem normalize_name_normal_form s :
  canonical (chars (normalize_name s)) /\ normalize_name (normalize_name s) = normalize_name s /\
  (canonical (chars s) <-> normalize_name s = s).
Proof.
  split; [apply normalize_canonical|]. split; [apply normalize_fixed, normalize_canonical|].
  split; [apply normalize_fixed|]. intros <-. apply normalize_canonical.
Qed.
