(* ===== verification/AuthorityCache.v ===== *)
(** * The clients of the cache layer

    [get_cache] (src/backend/cache/__init__.py), the health summary of
    cache/client.py, the resolver cache (authority/cache.py) with the candidates
    it stores (authority/base.py), the threshold lookup
    (authority/thresholds.py), and the wrappers of
    services/derived_status_service.py and routers/analytics.py. Scores and
    confidences are opaque numbers, written as integers. *)
From S2P Require Import Prelude PyStr PyJson PyValue Cache CacheSpec Normalize.

Local Open Scope string_scope.
Local Open Scope Z_scope.
Local Open Scope py_scope.

(** * Selection of a backend (cache/__init__.py, cache/client.py) *)
Section selection.
Context {R T V : Type} `{ExpiringStore T V} `{ExpiringStore R string} `{RedisGlob}.
Context (GP : string) (serialize : V -> res json) (deserialize : json -> res V).
(** [TTLCache(maxsize=..., ttl=...)], empty, and the state of the server. *)
Context (ttl_cache : Z -> Z -> T).

Definition AnyBackend : Type := Redis.RedisBackend R + InProcess.InProcessBackend T.
Definition get_cache (REDIS_URL namespace : string) (ttl maxsize : Z) (server : R) (faults : list Fault) : AnyBackend :=
  if truthy REDIS_URL then inl (Redis.mkRedis namespace ttl server faults)
  else inr (InProcess.mkInProcess namespace ttl (ttl_cache maxsize ttl)).

Definition on_any {A} (f : Redis.RedisBackend R -> A * Redis.RedisBackend R)
    (g : InProcess.InProcessBackend T -> A * InProcess.InProcessBackend T) (b : AnyBackend) : A * AnyBackend :=
  match b with
  | inl b => let '(a, b) := f b in (a, inl b)
  | inr b => let '(a, b) := g b in (a, inr b)
  end.
Definition any_backend : CacheBackend AnyBackend V :=
  let rb := Redis.backend GP serialize deserialize in {|
  b_get c k := on_any (b_get (CacheBackend := rb) c k) (b_get (V := V) c k);
  b_set c k v ttl := on_any (b_set (CacheBackend := rb) c k v ttl) (b_set c k v ttl);
  b_delete c k := on_any (b_delete (CacheBackend := rb) c k) (b_delete (V := V) c k);
  b_invalidate_prefix c p := on_any (b_invalidate_prefix (CacheBackend := rb) c p) (b_invalidate_prefix (V := V) c p);
  b_exists_prefix c p := on_any (b_exists_prefix (CacheBackend := rb) c p) (b_exists_prefix (V := V) c p)
|}.
End selection.
Arguments AnyBackend R T : clear implicits.

(** [ping]: [reply] is what the client answers when there is one. *)
Definition ping (REDIS_URL : string) (reply : res bool) : bool :=
  if truthy REDIS_URL then match reply with Ok b => b | Raise _ => false end else false.
Definition cache_status (REDIS_URL : string) (reply : res bool) : list (string * json) :=
  let configured := truthy REDIS_URL in
  [("backend", JStr (if configured then "redis" else "in-process"));
   ("configured", JBool configured);
   ("reachable", JBool (if configured then ping REDIS_URL reply else true))].

(** * The wrappers that translate a miss to [None] *)
Section wrappers.
Context {S : Type} `{CacheBackend S json}.

(** [_StatusCache.get] and [_SimpleCache.get]. *)
Definition wrapper_get (clock : nat -> Z) (key : string) (s : S) : res json * S :=
  match b_get clock key s with
  | (Ok (Some value), s) => (Ok value, s)
  | (Ok None, s) => (Ok JNull, s)
  | (Raise e, s) => (Raise e, s)
  end.
Definition wrapper_set (clock : nat -> Z) (key : string) (value : json) (s : S) : res unit * S :=
  b_set clock key value None s.
(** [_StatusCache.invalidate] *)
Definition status_invalidate (clock : nat -> Z) (domain_id : string) (s : S) : res unit * S :=
  match b_invalidate_prefix clock (domain_id ++ ":") s with
  | (Ok removed, s) => (Ok tt, s)
  | (Raise e, s) => (Raise e, s)
  end.
(** [_SimpleCache.invalidate] *)
Definition simple_invalidate (clock : nat -> Z) (prefix : string) (s : S) : res Z * S :=
  b_invalidate_prefix clock prefix s.
End wrappers.

(** * Candidates (authority/base.py) *)
Record AuthorityCandidate := mkCandidate {
  authority_source : string;
  authority_id : string;
  canonical_label : string;
  aliases : list string;
  description : option string;
  confidence : Z;
  uri : option string;
  score_breakdown : list (string * Z);
  evidence : list string;
  resolution_status : string;
  merged_sources : list string;
  hierarchy_distance : option Z
}.
#[export] Instance candidate_eq_dec : EqDecision AuthorityCandidate.
Proof. solve_decision. Defined.

Definition j_opt {A} (f : A -> json) (o : option A) : json := match o with Some a => f a | None => JNull end.
Definition j_strs (l : list string) : json := JArr (map JStr l).
(** [dataclasses.asdict] *)
Definition asdict (c : AuthorityCandidate) : json := JObj
  [("authority_source", JStr (authority_source c)); ("authority_id", JStr (authority_id c));
   ("canonical_label", JStr (canonical_label c)); ("aliases", j_strs (aliases c));
   ("description", j_opt JStr (description c)); ("confidence", JInt (confidence c));
   ("uri", j_opt JStr (uri c)); ("score_breakdown", JObj (map (fun kv => (kv.1, JInt kv.2)) (score_breakdown c)));
   ("evidence", j_strs (evidence c)); ("resolution_status", JStr (resolution_status c));
   ("merged_sources", j_strs (merged_sources c)); ("hierarchy_distance", j_opt JInt (hierarchy_distance c))].

(** Readers of one field. *)
Definition TypeErr {A} (msg : string) : res A := Raise (Exn "TypeError" msg).
Definition r_str (v : json) : res string := match v with JStr s => Ok s | _ => TypeErr "expected str" end.
Definition r_int (v : json) : res Z := match v with JInt z => Ok z | _ => TypeErr "expected a number" end.
Definition r_opt {A} (f : json -> res A) (v : json) : res (option A) :=
  match v with JNull => Ok None | _ => let? a := f v in Ok (Some a) end.
Fixpoint r_all {A B} (f : A -> res B) (l : list A) : res (list B) :=
  match l with
  | [] => Ok []
  | x :: l => let? y := f x in let? ys := r_all f l in Ok (y :: ys)
  end.
Definition r_list {A} (f : json -> res A) (v : json) : res (list A) :=
  match v with JArr l => r_all f l | _ => TypeErr "expected list" end.
Definition r_scores (v : json) : res (list (string * Z)) :=
  match v with
  | JObj m => r_all (fun kv => let? z := r_int kv.2 in Ok (kv.1, z)) m
  | _ => TypeErr "expected dict"
  end.

Definition CANDIDATE_FIELDS : list string :=
  ["authority_source"; "authority_id"; "canonical_label"; "aliases"; "description"; "confidence"; "uri";
   "score_breakdown"; "evidence"; "resolution_status"; "merged_sources"; "hierarchy_distance"].
Definition required (k : string) (m : list (string * json)) : res json :=
  match dict_get k m with
  | Some v => Ok v
  | None => TypeErr ("AuthorityCandidate.__init__() missing 1 required positional argument: '" ++ k ++ "'")
  end.
Definition default {A} (k : string) (m : list (string * json)) (f : json -> res A) (d : A) : res A :=
  match dict_get k m with Some v => f v | None => Ok d end.

(** [AuthorityCandidate( **m )]: an unknown or a missing keyword is a
    [TypeError]. Python does not check the types of the values; a value that is
    not of the field's declared type is refused here. *)
Definition from_kwargs (m : list (string * json)) : res AuthorityCandidate :=
  match List.find (fun k => negb (bool_decide (k ∈ CANDIDATE_FIELDS))) (dict_keys m) with
  | Some k => TypeErr ("AuthorityCandidate.__init__() got an unexpected keyword argument '" ++ k ++ "'")
  | None =>
      let? source := res_bind (required "authority_source" m) r_str in
      let? aid := res_bind (required "authority_id" m) r_str in
      let? label := res_bind (required "canonical_label" m) r_str in
      let? al := default "aliases" m (r_list r_str) [] in
      let? desc := default "description" m (r_opt r_str) None in
      let? conf := default "confidence" m r_int 0 in
      let? u := default "uri" m (r_opt r_str) None in
      let? sb := default "score_breakdown" m r_scores [] in
      let? ev := default "evidence" m (r_list r_str) [] in
      let? rs := default "resolution_status" m r_str "unresolved" in
      let? ms := default "merged_sources" m (r_list r_str) [] in
      let? hd := default "hierarchy_distance" m (r_opt r_int) None in
      Ok (mkCandidate source aid label al desc conf u sb ev rs ms hd)
  end.

(** What a loader can put in the resolver cache: a list whose elements are
    candidates or other values, or another value. *)
Inductive Cached :=
  | CandidateList (l : list (AuthorityCandidate + json))
  | Plain (v : json).

Definition serialize_candidates (value : Cached) : res json :=
  match value with
  | CandidateList l => Ok (JArr (map (fun c => match c with inl c => asdict c | inr j => j end) l))
  | Plain v => Ok v
  end.
Definition deserialize_candidates (value : json) : res Cached :=
  match value with
  | JArr l =>
      let? l := r_all (fun c => match c with
                                | JObj m => let? c := from_kwargs m in Ok (inl c)
                                | _ => Ok (inr c)
                                end) l in Ok (CandidateList l)
  | _ => Ok (Plain value)
  end.

(** * The resolver cache (authority/cache.py) *)
Definition DEFAULT_TTL : Z := 7 * 24 * 3600.
Definition DEFAULT_MAXSIZE : Z := 10000.

(** [ResolverCache._key] *)
Definition resolver_key (source value entity_type : string) : string :=
  make_key (KeyTuple [JStr source; JStr (normalize_name value); JStr entity_type]).

Section resolver_cache.
Context {S V L : Type} `{CacheBackend S V}.
Definition resolver_get_or_load (clock clock' : nat -> Z) (source value entity_type : string)
    (loader : S -> L -> res V * S * L) (s : S) (l : L) : res V * S * L :=
  get_or_load clock clock' (resolver_key source value entity_type) loader None s l.
Definition resolver_clear (clock : nat -> Z) (s : S) : res Z * S := b_invalidate_prefix clock "" s.
End resolver_cache.

(** * Thresholds (authority/thresholds.py) *)
Record ResolutionThresholds := mkThresholds { exact : Z; probable : Z; ambiguous : Z }.
Record ThresholdRow := mkThresholdRow {
  t_org_id : option Z; t_domain_id : option string; t_field_name : string;
  t_exact : Z; t_probable : Z; t_ambiguous : Z }.
Definition row_to_thresholds (r : ThresholdRow) : ResolutionThresholds :=
  mkThresholds (t_exact r) (t_probable r) (t_ambiguous r).

Definition threshold_key (org_id : option Z) (domain_id : option string) (field_name : string) : string :=
  make_key (KeyTuple [j_opt JInt org_id; j_opt JStr domain_id; JStr field_name]).

(** [_load]: [rows] is what the query answers; an error reads as no override. *)
Definition load_thresholds (rows : res (list ThresholdRow)) (org_id : option Z) (domain_id : option string)
    (field_name : string) : option ResolutionThresholds :=
  match rows with
  | Raise _ => None
  | Ok rows =>
      let candidates := List.filter (fun r => bool_decide (t_org_id r = org_id) &&
                                              bool_decide (t_field_name r = field_name)) rows in
      let exact := List.find (fun r => bool_decide (t_domain_id r = domain_id)) candidates in
      let field_level := List.find (fun r => bool_decide (t_domain_id r = None)) candidates in
      option_map row_to_thresholds (match exact with Some r => Some r | None => field_level end)
  end.
Definition get_thresholds {S} `{CacheBackend S (option ResolutionThresholds)} (clock clock' : nat -> Z)
    (rows : res (list ThresholdRow)) (field_name : string) (domain_id : option string) (org_id : option Z) (s : S)
  : res (option ResolutionThresholds) * S :=
  let '(r, s, _) := get_or_load clock clock' (threshold_key org_id domain_id field_name)
                      (fun s l => (Ok (load_thresholds rows org_id domain_id field_name), s, l)) None s tt in
  (r, s).
