(* ===== verification/CacheClaims.v ===== *)
(** * Theorems on the caches

    The backend the factory chooses refines the map of [CacheSpec]; a hit is
    the last value written; the resolver cache never answers with another
    query's candidates; an outage is memoised. A concrete store instantiates
    the laws of the stores. *)
From S2P Require Import Prelude PyStr PyJson PyValue Cache CacheSpec CacheSims Normalize AuthorityCache CircuitBreaker.
From Stdlib Require Import Ascii String.

Local Open Scope string_scope.
Local Open Scope list_scope.
Local Open Scope Z_scope.

(** * The factory's cache refines the specification *)
Section factory.
Context {R T V : Type} `{ExpiringStoreLaws T V} `{ExpiringStoreLaws R string} `{RedisGlobLaws}.
Context (GP : string) (serialize : V -> res json) (deserialize : json -> res V) (ttl_cache : Z -> Z -> T).
Context (storable : V -> Prop)
  (codec : forall v j, storable v -> serialize v = Ok j -> wf_json j /\ deserialize j = Ok v).
Notation backend := (any_backend (T := T) GP serialize deserialize).

Definition any_sim ns (g : Grade) (b : AnyBackend R T) (t : Z) (m : gmap string V) : Prop :=
  match b with
  | inl b => redis_sim GP serialize ns g storable b t m
  | inr b => ip_sim b t m
  end.
Lemma step_weaken g m o r m' : cache_step (V := V) Sound m o r m' -> cache_step g m o r m'.
Proof. intros Hst. inversion Hst; subst; try done; by constructor. Qed.

#[local] Existing Instance redis_refines.
Definition any_refines ns g : @Refines (AnyBackend R T) V backend g (redis_op_ok GP serialize ns g storable).
Proof.
  refine (@Build_Refines (AnyBackend R T) V backend g _ (any_sim ns g) _ _).
  - intros [b|b] t t' m Hle; simpl; intros [Ha Hb]; (split; [done|]); by eapply covers_later.
  - intros [b|b] t t' clock o m Hw Hok Hs.
    + destruct (@sim_op _ _ _ _ _ (redis_refines GP serialize deserialize ns g storable codec) b t t' clock o m Hw Hok Hs)
        as (m' & Hst & Hs'). exists m'.
      destruct o as [k|k v ttl|k|p|p]; simpl in *; repeat case_match; simplify_eq/=; done.
    + destruct (@sim_op _ _ _ _ _ inprocess_refines b t t' clock o m Hw I Hs) as (m' & Hst & Hs').
      apply (step_weaken g) in Hst. exists m'.
      destruct o as [k|k v ttl|k|p|p]; simpl in *; repeat case_match; simplify_eq/=; done.
Defined.
End factory.

(** * Hits are writes *)
Section hits.
Context {V : Type}.
Implicit Types m : gmap string V.

(** An event after which the value [k] had is gone. *)
Definition removes (k : string) (e : Op V * Reply V) : Prop :=
  match e with
  | (Set_ k' _ _, _) | (Delete k', _) | (Get k', RValue None) => k' = k
  | (Invalidate p, RCount _) | (Exists p, RBool false) => startswith k p = true
  | _ => False
  end.
Definition written (k : string) (v : V) (e : Op V * Reply V) : Prop := exists ttl, e = (Set_ k v ttl, RUnit).

Lemma step_back g m e m' k v : cache_step g m e.1 e.2 m' -> m' !! k = Some v ->
  written k v e \/ m !! k = Some v /\ (g = Sound -> ~ removes k e).
Proof.
  destruct e as [o r]; simpl. intros Hst Hk.
  assert (Hsub : forall p, without_prefix p m ⊆ m) by (intros; apply map_filter_subseteq).
  inversion Hst; subst; try (right; split; [done|congruence]); try (right; split; [done|done]).
  - destruct (decide (k0 = k)) as [->|Hne]; [by rewrite lookup_delete_eq in Hk|].
    rewrite lookup_delete_ne in Hk by done. by right.
  - destruct (decide (k0 = k)) as [->|Hne].
    + rewrite lookup_insert_eq in Hk. injection Hk as ->. left. by exists ttl.
    + rewrite lookup_insert_ne in Hk by done. by right.
  - destruct (decide (k0 = k)) as [->|Hne]; [by rewrite lookup_delete_eq in Hk|].
    rewrite lookup_delete_ne in Hk by done. by right.
  - destruct (decide (k0 = k)) as [->|Hne]; [by rewrite lookup_delete_eq in Hk|].
    rewrite lookup_delete_ne in Hk by done. by right.
  - apply lookup_without in Hk as [Hk Hp]. right. split; [done|]. intros _ Hr. simpl in Hr. congruence.
  - right. split; [by eapply lookup_weaken|done].
  - right. split; [by eapply lookup_weaken|by intros _ []].
  - apply lookup_without in Hk as [Hk Hp]. right. split; [done|]. intros _ Hr. simpl in Hr. congruence.
Qed.

Lemma run_back g m l m' k v : cache_run g m l m' -> m' !! k = Some v ->
  m !! k = Some v \/
  exists l1 e l2, l = l1 ++ e :: l2 /\ written k v e /\ (g = Sound -> Forall (fun x => ~ removes k x) l2).
Proof.
  enough (Hs : cache_run g m l m' -> m' !! k = Some v ->
    (m !! k = Some v /\ (g = Sound -> Forall (fun x => ~ removes k x) l)) \/
    exists l1 e l2, l = l1 ++ e :: l2 /\ written k v e /\ (g = Sound -> Forall (fun x => ~ removes k x) l2))
    by (intros Hr Hk; destruct (Hs Hr Hk) as [[? _]|?]; auto).
  induction 1 as [m|m o r m1 l m2 Hst Hrun IH]; intros Hk; [by left|].
  destruct (IH Hk) as [[Hk1 Hq]|(l1 & e & l2 & -> & Hw & Hq)].
  - destruct (step_back g m (o, r) m1 k v Hst Hk1) as [Hw|[Hk0 Hn]].
    + right. by exists [], (o, r), l.
    + left. split; [done|]. intros Hg. constructor; auto.
  - right. exists ((o, r) :: l1), e, l2. done.
Qed.

Lemma run_app g m l l' m' : cache_run g m (l ++ l') m' -> exists m1, cache_run g m l m1 /\ cache_run g m1 l' m'.
Proof.
  revert m. induction l as [|[o r] l IH]; intros m; simpl; [intros; eexists; split; [constructor|done]|].
  inversion 1; subst. edestruct IH as (m2 & H1 & H2); [done|]. exists m2. split; [by econstructor|done].
Qed.

(** What a hit in a run from the empty map tells. *)
Lemma run_hit g pre k v post m' : cache_run g ∅ (pre ++ (Get k, RValue (Some v)) :: post) m' ->
  exists l1 e l2, pre = l1 ++ e :: l2 /\ written k v e /\ (g = Sound -> Forall (fun x => ~ removes k x) l2).
Proof.
  intros (m1 & H1 & H2)%run_app. inversion H2 as [|? ? ? ? ? ? Hst]; subst. inversion Hst; subst.
  match goal with Hk : _ !! k = Some v |- _ => destruct (run_back g ∅ pre _ k v H1 Hk) as [E|?] end; [|done].
  by rewrite lookup_empty in E.
Qed.
End hits.

(** A caller's log of a run: the operations issued are those of [calls]. *)
Lemma run_ops_ops {S V} `{CacheBackend S V} calls s :
  map fst (fst (run_ops (V := V) calls s)) = map snd calls.
Proof.
  revert s. induction calls as [|[c o] l IH]; intros s; simpl; [done|].
  destruct (run_op c o s) as [r s1]. specialize (IH s1). destruct (run_ops l s1) as [lr s2]. simpl in *. by rewrite IH.
Qed.

(** * The claims *)
Section claims.
Context {R T V : Type} `{ExpiringStoreLaws T V} `{ExpiringStoreLaws R string} `{RedisGlobLaws}.

(** C4: Whichever backend the factory chooses, started without entries of its
    namespace, the replies of a sequence of calls (whatever expires, is evicted or
    fails meanwhile) are replies of the specified cache: the sound one in process
    and for a Redis client that does not fail, the fail-open one otherwise. In
    particular no call raises, except that deleting an entry that expires under
    the call is a [KeyError]. The calls are those whose prefixes, with the
    namespace, hold no character Redis reads as a pattern, that ask for no
    negative time to live, and whose values the deserializer gives back as they
    were serialized, or, on the fail-open cache only, the serializer refuses with
    a [TypeError] or a [ValueError]; the configured time to live is positive. *)
Theorem factory_cache_refines GP serialize deserialize ttl_cache storable REDIS_URL ns ttl maxsize (server : R) faults
    (calls : list ((nat -> Z) * Op V)) t t' :
  (forall v j, storable v -> serialize v = Ok j -> wf_json j /\ deserialize j = Ok v) ->
  let g := match faults with [] => Sound | _ => FailOpen end in
  0 < ttl -> (forall k, es_view (ttl_cache maxsize ttl : T) t k = None) ->
  (forall k, es_view server t (Redis.ns_prefix GP ns ++ k)%string = None) ->
  timed t calls t' -> Forall (fun c => redis_op_ok GP serialize ns g storable (snd c)) calls ->
  exists m', cache_run g ∅
    (fst (run_ops (H := any_backend GP serialize deserialize) calls
            (get_cache ttl_cache REDIS_URL ns ttl maxsize server faults))) m'.
Proof.
  intros codec g Httl Hnew Hserver Htimed Hok.
  destruct (@sim_run _ _ _ g _ (any_refines (T := T) GP serialize deserialize storable codec ns g) calls
    (get_cache ttl_cache REDIS_URL ns ttl maxsize server faults) t t' ∅ Htimed Hok) as (m' & Hrun & _); [|by exists m'].
  unfold get_cache. destruct (truthy REDIS_URL); simpl.
  - split; [split; [done|split; [done|]]|].
    + unfold g. by destruct faults.
    + intros k x Hx. simpl in Hx. by rewrite Hserver in Hx.
  - split; [done|]. intros k x Hx. by rewrite Hnew in Hx.
Qed.
End claims.

(** * The resolver cache *)

Lemma resolver_key_inj s w e s' w' e' : no_char "|"%char s = true -> no_char "|"%char s' = true ->
  resolver_key s w e = resolver_key s' w' e' -> s = s' /\ normalize_name w = normalize_name w' /\ e = e'.
Proof.
  intros Hs Hs' E. unfold resolver_key, make_key, SEP in E. cbn [map join py_str] in E.
  apply app_sep_inj in E as [-> E]; [|done..]. apply app_sep_inj in E as [-> E]; [done|apply normalize_no_bar..].
Qed.

Section candidates.
(** What a resolver returns, and what else can be cached. *)
Definition storable_candidates (v : Cached) : Prop :=
  match v with
  | CandidateList l => Forall (fun c => match c with
                                        | inl c => NoDup (map fst (score_breakdown c))
                                        | inr j => wf_json j /\ (forall m, j <> JObj m)
                                        end) l
  | Plain j => wf_json j /\ (forall l, j <> JArr l)
  end.

Lemma r_all_map {A B C} (f : A -> res B) (g : C -> A) (h : C -> B) l :
  (forall x, In x l -> f (g x) = Ok (h x)) -> r_all f (map g l) = Ok (map h l).
Proof.
  induction l as [|x l IH]; intros Hf; simpl; [done|]. rewrite (Hf x) by (by left). simpl.
  rewrite IH; [done|]. intros y Hy. apply Hf. by right.
Qed.
Lemma r_strs l : r_list r_str (j_strs l) = Ok l.
Proof. unfold j_strs. simpl. rewrite (r_all_map r_str JStr id) by done. by rewrite map_id. Qed.
Lemma r_opt_some {A} (f : json -> res A) (g : A -> json) o : (forall a, f (g a) = Ok a) -> (forall a, g a <> JNull) ->
  r_opt f (j_opt g o) = Ok o.
Proof. intros Hf Hg. destruct o as [a|]; simpl; [|done]. specialize (Hg a). specialize (Hf a). destruct (g a); try done; simpl in *; by rewrite Hf. Qed.
Lemma r_scores_ok l : r_scores (JObj (map (fun kv => (kv.1, JInt kv.2)) l)) = Ok l.
Proof.
  simpl. rewrite (r_all_map _ _ id); [by rewrite map_id|]. by intros [k z] _.
Qed.

Lemma kwargs_fields s i l al d cf u sb ev rs ms hd jal jd ju jsb jev jms jhd :
  r_list r_str jal = Ok al -> r_opt r_str jd = Ok d -> r_opt r_str ju = Ok u -> r_scores jsb = Ok sb ->
  r_list r_str jev = Ok ev -> r_list r_str jms = Ok ms -> r_opt r_int jhd = Ok hd ->
  from_kwargs [("authority_source", JStr s); ("authority_id", JStr i); ("canonical_label", JStr l); ("aliases", jal);
    ("description", jd); ("confidence", JInt cf); ("uri", ju); ("score_breakdown", jsb); ("evidence", jev);
    ("resolution_status", JStr rs); ("merged_sources", jms); ("hierarchy_distance", jhd)]
  = Ok (mkCandidate s i l al d cf u sb ev rs ms hd).
Proof.
  intros H3 H4 H5 H6 H7 H8 H9. cbv -[r_list r_opt r_scores r_str r_int]. rewrite H3, H4. simpl r_int. rewrite H5, H6, H7, H8, H9.
  reflexivity.
Qed.
Lemma kwargs_asdict c : exists m, asdict c = JObj m /\ from_kwargs m = Ok c.
Proof.
  eexists. split; [reflexivity|]. destruct c; apply kwargs_fields; try apply r_strs; try apply r_scores_ok;
    by apply r_opt_some.
Qed.

Lemma wf_strs l : wf_json (j_strs l).
Proof. constructor. apply Forall_map, Forall_forall. constructor. Qed.
Lemma wf_opt {A} (f : A -> json) o : (forall a, wf_json (f a)) -> wf_json (j_opt f o).
Proof. intros Hf. destruct o; simpl; [done|constructor]. Qed.
Lemma wf_asdict c : NoDup (map fst (score_breakdown c)) -> wf_json (asdict c).
Proof.
  intros Hnd. apply wf_obj; [by apply (bool_decide_unpack _)|].
  repeat constructor; simpl; try (apply wf_opt; constructor); try (apply Forall_map, Forall_forall; constructor).
  unfold dict_keys. by rewrite map_map.
Qed.

Lemma candidate_codec v j : storable_candidates v -> serialize_candidates v = Ok j ->
  wf_json j /\ deserialize_candidates j = Ok v.
Proof.
  destruct v as [l|v]; simpl.
  - intros Hl [= <-]. split.
    + constructor. apply Forall_map. eapply Forall_impl; [exact Hl|]. intros [c|x]; [by apply wf_asdict|by intros []].
    + simpl. rewrite (r_all_map _ _ id); [simpl; by rewrite map_id|]. intros c Hc.
      rewrite Forall_forall in Hl. specialize (Hl c). rewrite list_elem_of_In in Hl. specialize (Hl Hc).
      destruct c as [c|x]; cbn beta iota.
      * destruct (kwargs_asdict c) as (m & -> & E). simpl. by rewrite E.
      * destruct Hl as [_ Hx]. destruct x; try done. by destruct (Hx m).
  - intros [Hw Hv] [= <-]. split; [done|]. destruct v; try done. by destruct (Hv l).
Qed.
End candidates.

(** Under any interleaving of lookups, stores and invalidations by any number
    of threads, a hit of the resolver cache for a query is a value that was
    produced by a loader for a query of the same source, entity type and
    normalised name: no other query's candidates are ever returned. On a sound
    backend nothing stored later and no successful invalidation lies between. *)
Theorem resolver_cache_truthful {S V} `{CacheBackend S V} g op_ok `{!Refines S V g op_ok}
    (produced : string -> string -> string -> V -> Prop) calls s t t' pre post source value entity_type v :
  sim s t ∅ -> timed t calls t' -> Forall (fun c => op_ok (snd c)) calls ->
  (forall c k x ttl, In c calls -> snd c = Set_ k x ttl ->
     exists s' w e, k = resolver_key s' w e /\ no_char "|"%char s' = true /\ produced s' w e x) ->
  no_char "|"%char source = true ->
  fst (run_ops calls s) = pre ++ (Get (resolver_key source value entity_type), RValue (Some v)) :: post ->
  exists value' l1 ttl l2, normalize_name value' = normalize_name value /\ produced source value' entity_type v /\
    pre = l1 ++ (Set_ (resolver_key source value entity_type) v ttl, RUnit) :: l2 /\
    (g = Sound -> Forall (fun e => ~ removes (resolver_key source value entity_type) e) l2).
Proof.
  intros Hsim Htimed Hok Hset Hsrc Hlog.
  destruct (sim_run g op_ok calls s t t' ∅ Htimed Hok Hsim) as (m' & Hrun & _). rewrite Hlog in Hrun.
  destruct (run_hit g pre _ v post m' Hrun) as (l1 & e & l2 & Epre & [ttl ->] & Hq).
  assert (Hin : In (Set_ (resolver_key source value entity_type) v ttl) (map snd calls)).
  { rewrite <- (run_ops_ops calls s), Hlog, Epre, map_app, map_app. apply in_or_app. left. apply in_or_app. right. by left. }
  apply in_map_iff in Hin as (c & Ec & Hc). destruct (Hset c _ _ _ Hc Ec) as (s' & w & e & Ek & Hs' & Hp).
  apply resolver_key_inj in Ek as (-> & Ew & ->); [|done..]. by exists w, l1, ttl, l2.
Qed.

(** The loader [resolver.resolve_all] passes: a [ResilientResolver]. *)
Definition resilient_loader {S F} (cfg : Config) (resolve : F -> res (list AuthorityCandidate) * F) (max_attempts : Z)
    (t_enter wall t_fail : Z) (s : S) (l : Breaker * F) : res Cached * S * (Breaker * F) :=
  let '(r, b, f) := resilient_resolve cfg resolve max_attempts t_enter wall t_fail (fst l) (snd l) in
  (res_bind r (fun cs => Ok (CandidateList (map inl cs))), s, (b, f)).

(** An outage is memoised. When the circuit of a source rejects a lookup that
    the cache does not hold, the empty list it answers is stored: until the time
    to live has passed, every lookup of an equivalent name answers the empty list
    without consulting the source, whatever the circuit and the source do
    meanwhile. *)
Theorem outage_is_memoised {T F} `{ExpiringStoreLaws T Cached} cfg (resolve : F -> res (list AuthorityCandidate) * F)
    n te wall tf br f (b : InProcess.InProcessBackend T) clock clock' source value entity_type :
  0 < InProcess.ip_ttl b -> rejects cfg te br = true ->
  es_view (InProcess.ip_store b) (clock 0%nat) (resolver_key source value entity_type) = None ->
  let first := resolver_get_or_load clock clock' source value entity_type
                 (resilient_loader cfg resolve n te wall tf) b (br, f) in
  fst (fst first) = Ok (CandidateList []) /\
  forall L (loader : InProcess.InProcessBackend T -> L -> res Cached * InProcess.InProcessBackend T * L)
      clock2 clock2' value' l,
    normalize_name value' = normalize_name value ->
    clock' 0%nat <= clock2 0%nat < clock' 0%nat + InProcess.ip_ttl b ->
    resolver_get_or_load clock2 clock2' source value' entity_type loader (snd (fst first)) l
    = (Ok (CandidateList []), snd (fst first), l).
Proof.
  intros Httl Hrej Hcold. unfold resolver_get_or_load, get_or_load, resilient_loader, resilient_resolve, call. simpl.
  unfold InProcess.get. rewrite get_view, Hcold, enter_spec, Hrej. simpl. split; [done|].
  intros L loader clock2 clock2' value' l Ew Hc. unfold InProcess.get, resolver_key. rewrite Ew. simpl.
  rewrite get_view, set_same by lia. destruct (Z.ltb_spec (clock2 0%nat) (clock' 0%nat + InProcess.ip_ttl b)); [done|lia].
Qed.

(** * A concrete store *)

(** Entries with the instant they expire. *)
Definition DemoStore (X : Type) : Type := list (string * (X * Z)).
Definition demo_view {X} (s : DemoStore X) (t : Z) (k : string) : option X :=
  match dict_get k s with
  | Some (x, exp) => if t <? exp then Some x else None
  | None => None
  end.
#[export] Instance demo_store X : ExpiringStore (DemoStore X) X := {|
  es_view := demo_view;
  es_get t k s := demo_view s t k;
  es_set t k x ttl s := dict_set k (x, t + ttl) s;
  es_del t k s := (match demo_view s t k with Some _ => true | None => false end, dict_pop k s);
  es_keys t s := List.filter (fun k => match demo_view s t k with Some _ => true | None => false end) (dict_keys s)
|}.

Lemma dict_get_pop {V} (k k' : string) (d : list (string * V)) :
  dict_get k (dict_pop k' d) = if decide (k' = k) then None else dict_get k d.
Proof.
  induction d as [|[k0 v] d IH]; simpl; [by destruct (decide _)|].
  case_bool_decide as Hk; simpl.
  - subst. rewrite IH. destruct (decide (k' = k)) as [->|]; [done|]. by rewrite decide_False by done.
  - rewrite IH. destruct (decide (k = k0)) as [->|]; [by rewrite decide_False by done|done].
Qed.

#[export] Instance demo_store_laws X : ExpiringStoreLaws (DemoStore X) X.
Proof.
  split; unfold es_view, es_set, es_del, es_get, es_keys; simpl; unfold demo_view.
  - intros s t t' k x Hle. destruct (dict_get k s) as [[y exp]|]; [|done].
    destruct (Z.ltb_spec t' exp); [|done]. destruct (Z.ltb_spec t exp); [done|lia].
  - done.
  - intros. by rewrite dict_get_set_eq.
  - intros. by rewrite dict_get_set_ne in * by done.
  - intros s t k. destruct (dict_get k s) as [[y exp]|]; [|split; [done|by intros []]].
    destruct (t <? exp); [split; [by eauto|done]|split; [done|by intros []]].
  - intros. rewrite dict_get_pop. by rewrite decide_True.
  - intros. rewrite dict_get_pop. by rewrite decide_False.
  - intros s t k. rewrite filter_In. destruct (dict_get k s) as [[y exp]|] eqn:E.
    + apply dict_get_Some_elem in E. destruct (t <? exp).
      * split; [by eauto|]. intros _. split; [|done]. apply in_map_iff. exists (k, (y, exp)). split; [done|].
        by apply list_elem_of_In.
      * split; [by intros []|by intros []].
    + split; [by intros []|by intros []].
Qed.

(** A matcher for patterns with stars. *)
Fixpoint demo_match (p : string) : string -> bool :=
  match p with
  | EmptyString => fun k => bool_decide (k = "")
  | String c p' =>
      if bool_decide (c = "*"%char)
      then fix star k := demo_match p' k || match k with String _ k' => star k' | EmptyString => false end
      else fun k => match k with String x k' => bool_decide (x = c) && demo_match p' k' | EmptyString => false end
  end.
#[export] Instance demo_glob : RedisGlob := demo_match.
#[export] Instance demo_glob_laws : RedisGlobLaws.
Proof.
  intros p k Hp. unfold r_glob, demo_glob. revert k. induction p as [|c p IH]; intros k.
  - transitivity true; [|by destruct k]. change (demo_match "*" k = true). induction k as [|x k IHk]; [done|exact IHk].
  - unfold literal in *. cbn [chars existsb] in Hp. rewrite negb_orb in Hp. apply andb_prop in Hp as [Hc Hp]. specialize (IH Hp).
    change (String c p ++ "*")%string with (String c (p ++ "*")). cbn [demo_match].
    rewrite bool_decide_false by (intros ->; by vm_compute in Hc).
    destruct k as [|x k]; [done|]. unfold startswith in *. rewrite IH. simpl.
    destruct (ascii_dec c x) as [->|]; [by rewrite bool_decide_true|by rewrite bool_decide_false by done].
Qed.

(** * Witnesses and examples *)
Definition demo_candidate : AuthorityCandidate :=
  mkCandidate "orcid" "0000-0001" "Garcia, Ana" ["Ana G."] None 90 None [("name", 25)] ["orcid"] "exact_match" [] None.
Definition demo_clock : nat -> Z := fun _ => 10.
Definition demo_calls : list ((nat -> Z) * Op Cached) :=
  [(demo_clock, Set_ (resolver_key "orcid" "Garcia, Ana" "person") (CandidateList [inl demo_candidate]) None);
   (demo_clock, Get (resolver_key "orcid" "garcia ana" "person"));
   (demo_clock, Invalidate "");
   (demo_clock, Get (resolver_key "orcid" "garcia ana" "person"))].

Lemma demo_within t : within t 10 demo_clock <-> t <= 10.
Proof. unfold within, demo_clock. split; [intros H; destruct (H 0%nat); lia|intros H _; lia]. Qed.
Lemma demo_timed : timed 0 demo_calls 10.
Proof.
  exists 10. split; [by apply demo_within|]. exists 10. split; [by apply demo_within|].
  exists 10. split; [by apply demo_within|]. exists 10. split; [by apply demo_within|]. simpl. lia.
Qed.
Lemma demo_storable : storable_candidates (CandidateList [inl demo_candidate]).
Proof. constructor; [|constructor]. apply (bool_decide_unpack _). vm_compute. exact I. Qed.
Lemma demo_calls_ok : Forall (fun c => redis_op_ok "ukip" serialize_candidates "authority:resolver" FailOpen storable_candidates (snd c)) demo_calls.
Proof.
  constructor; [split; [apply demo_storable|split; [done|done]]|].
  constructor; [exact I|]. constructor; [vm_compute; reflexivity|]. constructor; [exact I|constructor].
Qed.

(** A Redis client that refuses the third command: the run is one of the
    fail-open cache. *)
Lemma factory_cache_refines_witness : exists m', cache_run FailOpen ∅
  (fst (run_ops (H := any_backend (T := DemoStore Cached) "ukip" serialize_candidates deserialize_candidates) demo_calls
     (get_cache (R := DemoStore string) (fun _ _ => []) "redis://cache" "authority:resolver" DEFAULT_TTL DEFAULT_MAXSIZE []
        [Reachable; Reachable; Refused (Exn "TimeoutError" "")]))) m'.
Proof.
  apply (factory_cache_refines (T := DemoStore Cached) (R := DemoStore string) "ukip" serialize_candidates deserialize_candidates
    (fun _ _ => []) storable_candidates "redis://cache" "authority:resolver" DEFAULT_TTL DEFAULT_MAXSIZE []
    [Reachable; Reachable; Refused (Exn "TimeoutError" "")] demo_calls 0 10).
  - apply candidate_codec.
  - unfold DEFAULT_TTL. lia.
  - intros k. reflexivity.
  - intros k. reflexivity.
  - apply demo_timed.
  - apply demo_calls_ok.
Defined.

Definition demo_backend : InProcess.InProcessBackend (DemoStore Cached) := InProcess.mkInProcess "authority:resolver" 3600 [].
Definition demo_produced (s v e : string) (x : Cached) : Prop := s = "orcid" /\ v = "Garcia, Ana" /\ e = "person".

Lemma resolver_cache_truthful_witness : exists value' l1 ttl l2,
  normalize_name value' = normalize_name "garcia ana" /\
  demo_produced "orcid" value' "person" (CandidateList [inl demo_candidate]) /\
  firstn 1 (fst (run_ops demo_calls demo_backend)) =
    l1 ++ (Set_ (resolver_key "orcid" "garcia ana" "person") (CandidateList [inl demo_candidate]) ttl, RUnit) :: l2 /\
  (Sound = Sound -> Forall (fun e => ~ removes (resolver_key "orcid" "garcia ana" "person") e) l2).
Proof.
  apply (resolver_cache_truthful Sound (fun _ => True) demo_produced demo_calls demo_backend 0 10 _
    (skipn 2 (fst (run_ops demo_calls demo_backend))) "orcid" "garcia ana" "person" (CandidateList [inl demo_candidate])).
  - split; [reflexivity|]. intros k x Hx. discriminate Hx.
  - apply demo_timed.
  - apply Forall_forall. intros. exact I.
  - intros c k x ttl [<-|[<-|[<-|[<-|[]]]]] E; try discriminate E. injection E as <- <- <-.
    exists "orcid", "Garcia, Ana", "person". split; [reflexivity|]. split; [reflexivity|]. split; [reflexivity|]. split; reflexivity.
  - reflexivity.
  - vm_compute. reflexivity.
Defined.

Definition tripped_breaker : Breaker := run (mkConfig "orcid" 3 60) [Failure 1; Failure 2; Failure 3] new_breaker.
Lemma outage_is_memoised_witness :
  let first := resolver_get_or_load demo_clock demo_clock "orcid" "Garcia, Ana" "person"
                 (resilient_loader (mkConfig "orcid" 3 60) (fun f : unit => (Ok [demo_candidate], f)) 2 10 0 10) demo_backend (tripped_breaker, tt) in
  fst (fst first) = Ok (CandidateList []) /\
  resolver_get_or_load (fun _ => 3000) demo_clock "orcid" "garcia ana" "person"
    (fun s (l : unit) => (Ok (CandidateList [inl demo_candidate]), s, l)) (snd (fst first)) tt
  = (Ok (CandidateList []), snd (fst first), tt).
Proof.
  pose proof (outage_is_memoised (mkConfig "orcid" 3 60) (fun f : unit => (Ok [demo_candidate], f)) 2 10 0 10
    tripped_breaker tt demo_backend demo_clock demo_clock "orcid" "Garcia, Ana" "person"
    ltac:(reflexivity) ltac:(vm_compute; reflexivity) ltac:(vm_compute; reflexivity)) as [H1 H2].
  split; [exact H1|]. apply H2; [vm_compute; reflexivity|]. unfold demo_clock. simpl. lia.
Defined.

(** ** What the code does at the edges *)

(** An entry that expires between the listing and its deletion makes
    [InProcessBackend.invalidate_prefix] raise, and the entries listed after it stay. *)
Lemma invalidate_raises_on_expiry :
  let b := InProcess.mkInProcess "derived_status" 30 [("sci:a", (JNull, 40)); ("sci:b", (JNull, 60))] in
  let '(r, b') := b_invalidate_prefix (V := json) (fun i => if (i =? 0)%nat then 39 else 41) "sci:" b in
  r = Raise (KeyError "sci:a") /\ es_view (InProcess.ip_store b') 41 "sci:b" = Some JNull.
Proof. split; reflexivity. Qed.

(** The two backends disagree on a prefix with a pattern character: Redis drops
    the entries of other domains. *)
Lemma glob_prefix_overreaches :
  let r := Redis.mkRedis "derived_status" 30 [("ukip:derived_status:sci:a", ("1", 100))] [] in
  let b := InProcess.mkInProcess "derived_status" 30 [("sci:a", (JInt 1, 100))] in
  fst (Redis.invalidate_prefix "ukip" demo_clock "s*:" r) = 1 /\
  fst (InProcess.invalidate_prefix (V := json) demo_clock "s*:" b) = Ok 0.
Proof. split; vm_compute; reflexivity. Qed.

(** Two scopes with one key. *)
Lemma threshold_key_collision :
  threshold_key (Some 1) (Some "science|author") "name" = threshold_key (Some 1) (Some "science") "author|name".
Proof. reflexivity. Qed.

(** A query error is remembered as "no override". *)
Lemma threshold_error_is_cached :
  let row := mkThresholdRow (Some 1) None "author" 90 70 50 in
  let '(_, s) := get_thresholds demo_clock demo_clock (Raise (Exn "OperationalError" "database is locked")) "author" None (Some 1)
                   (InProcess.mkInProcess "authority:thresholds" 300 []) in
  fst (get_thresholds (fun _ => 200) demo_clock (Ok [row]) "author" None (Some 1) s) = Ok None /\
  load_thresholds (Ok [row]) (Some 1) None "author" = Some (mkThresholds 90 70 50).
Proof. split; vm_compute; reflexivity. Qed.
