(* ===== verification/Auth.v ===== *)
(** * Authentication (src/backend/auth.py, principal.py, routers/api_keys.py)

    JSON web tokens, bcrypt, sha256 and the random generators are outside the
    program: they are parameters. A token's claims are the members the program
    reads and writes. *)
From S2P Require Import Prelude PyStr PyJson PyValue ApiKeyScopes.

Local Open Scope string_scope.
Local Open Scope Z_scope.
Local Open Scope py_scope.

(** * Accounts, sessions and credentials: the tables

    The rows of [users], [user_sessions], [password_reset_tokens],
    [sso_login_codes], [api_keys] and the audit entries of refused keys
    (src/backend/models.py), with the statements the handlers issue on them.
    An instant is its number of seconds; [locked_until] is the instant its ISO
    string denotes. Primary keys come from a sequence per table. *)
Record User := mkUser {
  u_id : Z; username : string; email : option string; password_hash : string; role : string;
  is_active : option bool; failed_attempts : option Z; locked_until : option Z;
  display_name : option string; bio : option string; avatar_url : option string }.
Record UserSession := mkUserSession {
  us_id : Z; sid : string; us_user_id : Z; created_at : Z; last_seen_at : Z; expires_at : option Z;
  revoked_at : option Z; revoked_by_user_id : option Z; user_agent : option string; ip_address : option string }.
(** A password reset token or an SSO code. *)
Record OneTime := mkOneTime { ot_id : Z; ot_user_id : Z; ot_hash : string; ot_expires_at : Z; ot_used_at : option Z }.
Record ApiKey := mkApiKey {
  k_id : Z; k_user_id : Z; k_name : string; key_prefix : string; key_hash : string; k_scopes : option string;
  k_expires_at : option Z; k_last_used_at : option Z; k_is_active : option bool; k_created_at : Z }.
Record Violation := mkViolation {
  v_key_id : Z; v_user_id : Z; v_endpoint : string; v_method : string; v_status_code : option Z; v_details : string }.

Record AuthDb := mkAuthDb {
  users : list User; sessions : list UserSession; reset_tokens : list OneTime; sso_codes : list OneTime;
  api_keys : list ApiKey; violations : list Violation; seqs : Z }.

(** * Statements *)
Definition with_users (f : list User -> list User) (d : AuthDb) : AuthDb :=
  mkAuthDb (f (users d)) (sessions d) (reset_tokens d) (sso_codes d) (api_keys d) (violations d) (seqs d).
Definition with_sessions (f : list UserSession -> list UserSession) (d : AuthDb) : AuthDb :=
  mkAuthDb (users d) (f (sessions d)) (reset_tokens d) (sso_codes d) (api_keys d) (violations d) (seqs d).
Definition with_resets (f : list OneTime -> list OneTime) (d : AuthDb) : AuthDb :=
  mkAuthDb (users d) (sessions d) (f (reset_tokens d)) (sso_codes d) (api_keys d) (violations d) (seqs d).
Definition with_codes (f : list OneTime -> list OneTime) (d : AuthDb) : AuthDb :=
  mkAuthDb (users d) (sessions d) (reset_tokens d) (f (sso_codes d)) (api_keys d) (violations d) (seqs d).
Definition with_keys (f : list ApiKey -> list ApiKey) (d : AuthDb) : AuthDb :=
  mkAuthDb (users d) (sessions d) (reset_tokens d) (sso_codes d) (f (api_keys d)) (violations d) (seqs d).
Definition with_violations (f : list Violation -> list Violation) (d : AuthDb) : AuthDb :=
  mkAuthDb (users d) (sessions d) (reset_tokens d) (sso_codes d) (api_keys d) (f (violations d)) (seqs d).
Definition next_seq (d : AuthDb) : AuthDb :=
  mkAuthDb (users d) (sessions d) (reset_tokens d) (sso_codes d) (api_keys d) (violations d) (seqs d + 1).

Definition IntegrityError : exn := Exn "IntegrityError" "UNIQUE constraint failed".

(** [db.add(row); db.flush()]: [dup] is a row already there with a value the
    table declares unique. *)
Definition insert {A} (get : AuthDb -> list A) (with_ : (list A -> list A) -> AuthDb -> AuthDb) (dup : A -> bool)
    (mk : Z -> A) : M AuthDb A :=
  do! d <- mget;
  if existsb dup (get d) then mraise IntegrityError
  else let row := mk (seqs d + 1) in
       run! mmodify (fun d => next_seq (with_ (fun l => l ++ [row])%list d));
       mret row.

Lemma run_insert {A B} (get : AuthDb -> list A) with_ dup mk (k : A -> M AuthDb B) s :
  mbind (insert get with_ dup mk) k s =
  if existsb dup (get (sess_db s)) then (Raise IntegrityError, s)
  else let row := mk (seqs (sess_db s) + 1) in
       k row (mkSession (next_seq (with_ (fun l => l ++ [row])%list (sess_db s))) (sess_base s)).
Proof. unfold insert, mbind at 1, mbind at 1, mget. simpl. by destruct (existsb dup (get (sess_db s))). Qed.

Definition is_true (b : option bool) : bool := match b with Some true => true | _ => false end.
Definition find_user (i : Z) (d : AuthDb) : option User := List.find (fun u => u_id u =? i) (users d).
Definition update_user_row (i : Z) (f : User -> User) : M AuthDb unit :=
  mmodify (with_users (update_where (fun u => u_id u =? i) f)).

(** Setters of the columns the handlers assign. *)
Definition set_lock (failed locked : option Z) (u : User) : User :=
  mkUser (u_id u) (username u) (email u) (password_hash u) (role u) (is_active u) failed locked
         (display_name u) (bio u) (avatar_url u).
Definition set_password (h : string) (u : User) : User :=
  mkUser (u_id u) (username u) (email u) h (role u) (is_active u) (failed_attempts u) (locked_until u)
         (display_name u) (bio u) (avatar_url u).
Definition set_role (r : string) (u : User) : User :=
  mkUser (u_id u) (username u) (email u) (password_hash u) r (is_active u) (failed_attempts u) (locked_until u)
         (display_name u) (bio u) (avatar_url u).
Definition set_active (a : option bool) (u : User) : User :=
  mkUser (u_id u) (username u) (email u) (password_hash u) (role u) a (failed_attempts u) (locked_until u)
         (display_name u) (bio u) (avatar_url u).
Definition set_email (e : option string) (u : User) : User :=
  mkUser (u_id u) (username u) e (password_hash u) (role u) (is_active u) (failed_attempts u) (locked_until u)
         (display_name u) (bio u) (avatar_url u).
Definition set_display_name (v : option string) (u : User) : User :=
  mkUser (u_id u) (username u) (email u) (password_hash u) (role u) (is_active u) (failed_attempts u) (locked_until u)
         v (bio u) (avatar_url u).
Definition set_bio (v : option string) (u : User) : User :=
  mkUser (u_id u) (username u) (email u) (password_hash u) (role u) (is_active u) (failed_attempts u) (locked_until u)
         (display_name u) v (avatar_url u).
Definition set_avatar (v : option string) (u : User) : User :=
  mkUser (u_id u) (username u) (email u) (password_hash u) (role u) (is_active u) (failed_attempts u) (locked_until u)
         (display_name u) (bio u) v.
Definition revoke_row (now actor : Z) (r : UserSession) : UserSession :=
  mkUserSession (us_id r) (sid r) (us_user_id r) (created_at r) (last_seen_at r) (expires_at r) (Some now) (Some actor)
                (user_agent r) (ip_address r).
Definition touch_row (seen expires : Z) (r : UserSession) : UserSession :=
  mkUserSession (us_id r) (sid r) (us_user_id r) (created_at r) seen (Some expires) (revoked_at r) (revoked_by_user_id r)
                (user_agent r) (ip_address r).
Definition spend (now : Z) (r : OneTime) : OneTime :=
  mkOneTime (ot_id r) (ot_user_id r) (ot_hash r) (ot_expires_at r) (Some now).
Definition use_key (now : Z) (k : ApiKey) : ApiKey :=
  mkApiKey (k_id k) (k_user_id k) (k_name k) (key_prefix k) (key_hash k) (k_scopes k) (k_expires_at k) (Some now)
           (k_is_active k) (k_created_at k).
Definition disable_key (k : ApiKey) : ApiKey :=
  mkApiKey (k_id k) (k_user_id k) (k_name k) (key_prefix k) (key_hash k) (k_scopes k) (k_expires_at k) (k_last_used_at k)
           (Some false) (k_created_at k).

(** The payload of a token: a member that is absent reads as [None]. *)
Record Claims := mkClaims {
  c_sub : option string; c_role : option string; c_sid : option string; c_exp : Z; c_type : option string }.

(** [Principal] of principal.py, recorded on the request. *)
Record Principal := mkPrincipal { p_user_id : Z; p_session_id : option string; p_api_key_id : option Z }.
Definition log_fields (p : Principal) : list (string * json) :=
  ([("user_id", JInt (p_user_id p))]
   ++ match p_session_id p with Some s => [("session_id", JStr s)] | None => [] end
   ++ match p_api_key_id p with Some k => [("api_key_id", JInt k)] | None => [] end)%list.

Definition ACCESS_TOKEN_EXPIRE_MINUTES : Z := 480.
Definition REFRESH_TOKEN_EXPIRE_MINUTES : Z := 10080.
Definition MAX_FAILED_ATTEMPTS : Z := 5.
Definition LOCKOUT_MINUTES : Z := 15.
Definition TRUTHY : list string := ["1"; "true"; "yes"; "on"].

Definition parse_secret_keys (raw : option string) : list string :=
  match raw with
  | None | Some "" => []
  | Some raw => List.filter truthy (map strip (split_on "," raw))
  end.

Section auth.
Context (SECRET_KEY : string) (RETIRING_SECRET_KEYS : list string).
Context (jwt_encode : Claims -> string -> string) (jwt_decode : Z -> string -> string -> res Claims).
Context (sha256 : string -> string) (checkpw : string -> string -> res bool) (hashpw : string -> string -> string).
Context (isoformat_utc : Z -> string).

(** * Tokens *)
Fixpoint decode_with (now : Z) (token : string) (keys : list string) (last_error : option exn) : res Claims :=
  match keys with
  | [] => Raise (match last_error with Some e => e | None => Exn "PyJWTError" "No JWT keys configured" end)
  | key :: keys =>
      match jwt_decode now token key with
      | Ok c => Ok c
      | Raise e => decode_with now token keys (Some e)
      end
  end.
Definition decode_token (now : Z) (token : string) : res Claims :=
  decode_with now token (SECRET_KEY :: RETIRING_SECRET_KEYS) None.

(** [expires_delta or timedelta(minutes=m)], in seconds. *)
Definition delta_or (expires_delta : option Z) (minutes : Z) : Z :=
  match expires_delta with Some z => if z =? 0 then minutes * 60 else z | None => minutes * 60 end.
Definition create_access_token (now : Z) (subject role sid : string) (expires_delta : option Z) : string :=
  jwt_encode (mkClaims (Some subject) (Some role) (Some sid) (now + delta_or expires_delta ACCESS_TOKEN_EXPIRE_MINUTES)
                       (Some "access")) SECRET_KEY.
Definition create_refresh_token (now : Z) (subject role sid : string) (expires_delta : option Z) : string :=
  jwt_encode (mkClaims (Some subject) (Some role) (Some sid) (now + delta_or expires_delta REFRESH_TOKEN_EXPIRE_MINUTES)
                       (Some "refresh")) SECRET_KEY.

(** * Passwords *)
Definition verify_password (plain hashed : string) : bool :=
  match checkpw plain hashed with Ok b => b | Raise _ => false end.
Definition hash_password (salt password : string) : string := hashpw salt password.

(** * Sessions *)

(** [text or None] *)
Definition non_empty (s : option string) : option string :=
  match s with Some s => if truthy s then Some s else None | None => None end.
Definition start_session (now : Z) (uuid : string) (user : User) (agent ip : option string) : M AuthDb UserSession :=
  do! session <- insert sessions with_sessions (fun r => bool_decide (sid r = uuid))
        (fun i => mkUserSession i uuid (u_id user) now now (Some (now + REFRESH_TOKEN_EXPIRE_MINUTES * 60)) None None
                                (non_empty agent) (non_empty ip));
  run! commit; mret session.

(** The request's user agent and address, when there is a request. *)
Definition request_fingerprint (request : option (option string * option string)) : option string * option string :=
  match request with
  | None => (None, None)
  | Some (agent, host) => (match non_empty agent with Some a => Some (take_str 400 a) | None => None end, host)
  end.

(** The token pair: access token, refresh token. *)
Definition issue_tokens (now : Z) (uuid : string) (user : User) (request : option (option string * option string))
  : M AuthDb (string * string) :=
  let '(agent, ip) := request_fingerprint request in
  do! session <- start_session now uuid user agent ip;
  mret (create_access_token now (username user) (role user) (sid session) None,
        create_refresh_token now (username user) (role user) (sid session) None).

Definition find_username (name : string) (d : AuthDb) : option User :=
  List.find (fun u => bool_decide (username u = name)) (users d).
Definition issue_access_token (now : Z) (uuid subject role : string) (expires_delta : option Z) : M AuthDb string :=
  do! d <- mget;
  match find_username subject d with
  | None => mraise (Exn "ValueError" ("No such user: " ++ repr_str subject))
  | Some user =>
      do! session <- start_session now uuid user None None;
      mret (create_access_token now subject role (sid session) expires_delta)
  end.

(** * Login *)
Definition find_active (name : string) (d : AuthDb) : option User :=
  List.find (fun u => bool_decide (username u = name) && is_true (is_active u)) (users d).
Definition count_or_0 (o : option Z) : Z := match o with Some z => z | None => 0 end.

Definition locked_out (now : Z) (u : User) : bool :=
  match locked_until u with Some t => now <? t | None => false end.
(** The counters after the lock check: an expired lock is reset. *)
Definition after_lock (u : User) : User :=
  match locked_until u with Some _ => set_lock (Some 0) None u | None => u end.
(** The counters after a wrong password. *)
Definition after_failure (now : Z) (u : User) : User :=
  let n := count_or_0 (failed_attempts u) + 1 in
  set_lock (Some n) (if MAX_FAILED_ATTEMPTS <=? n then Some (now + LOCKOUT_MINUTES * 60) else locked_until u) u.

Definition write_lock (u : User) : M AuthDb unit :=
  run! update_user_row (u_id u) (set_lock (failed_attempts u) (locked_until u)); commit.

Definition authenticate_user (now now' : Z) (name password : string) : M AuthDb (option User) :=
  do! d <- mget;
  match find_active name d with
  | None => mret None
  | Some user =>
      if locked_out now user
      then mraise (HTTPException 423 ("Account locked. Try again after "
                     ++ match locked_until user with Some t => isoformat_utc t | None => "" end))
      else
        run! (match locked_until user with Some _ => write_lock (after_lock user) | None => mret tt end);
        let user := after_lock user in
        if verify_password password (password_hash user)
        then let user := set_lock (Some 0) None user in
             run! write_lock user; mret (Some user)
        else run! write_lock (after_failure now' user); mret None
  end.

(** * API keys *)

(** [_granted_scopes]: an unreadable list grants nothing. *)
Definition granted_scopes (k : ApiKey) : list string :=
  match k_scopes k with
  | None | Some "" => []
  | Some raw =>
      match loads raw with
      | Some (JArr l) => omap (fun v => match v with JStr s => Some s | _ => None end) l
      | _ => []
      end
  end.
Definition api_key_scopes_enforced (env : option string) : bool :=
  bool_decide (lower (strip (match env with Some s => s | None => "0" end)) ∈ TRUTHY).

Definition violation_details (k : ApiKey) (method path required : string) (granted : list string) (enforced : bool) : string :=
  dumps false (JObj [("key_prefix", JStr (key_prefix k)); ("method", JStr method); ("path", JStr path);
    ("required", JStr required); ("granted", JArr (map JStr granted)); ("enforced", JBool enforced)]).
(** [refused]: the database does not take the row. *)
Definition record_scope_violation (refused : bool) (k : ApiKey) (method path required : string) (granted : list string)
    (enforced : bool) : M AuthDb unit :=
  mtry (if refused then mraise (Exn "OperationalError" "")
        else run! mmodify (with_violations (fun l => l ++ [mkViolation (k_id k) (k_user_id k) path method
                             (if enforced then Some 403 else None)
                             (violation_details k method path required granted enforced)])%list);
             commit)
       (fun _ => rollback).

(** [granted or 'no scopes'] in a message. *)
Definition scopes_text (granted : list string) : string :=
  match granted with [] => "no scopes" | _ => py_str (JArr (map JStr granted)) end.
Definition enforce_api_key_scope (env : option string) (refused : bool) (k : ApiKey) (method path : string) : M AuthDb unit :=
  let required := scope_required (Some method) path in
  let granted := granted_scopes k in
  if satisfies granted required then mret tt
  else
    let enforced := api_key_scopes_enforced env in
    run! record_scope_violation refused k method path required granted enforced;
    if enforced
    then mraise (HTTPException 403 ("API key scope '" ++ required ++ "' is required for this operation; this key grants "
                                    ++ scopes_text granted ++ "."))
    else mret tt.

(** [verify_api_key] *)
Definition verify_api_key (now : Z) (raw_key : string) : M AuthDb (option ApiKey) :=
  if negb (startswith raw_key "ukip_") then mret None
  else
    do! d <- mget;
    match List.find (fun k => bool_decide (key_hash k = sha256 raw_key) && is_true (k_is_active k)) (api_keys d) with
    | None => mret None
    | Some k =>
        if match k_expires_at k with Some t => t <? now | None => false end then mret None
        else run! mmodify (with_keys (update_where (fun r => k_id r =? k_id k) (use_key now)));
             run! commit;
             mret (Some (use_key now k))
    end.

(** * The dependencies *)

(** [_user_for_live_session]: the first row of the join. *)
Definition live_row (sid_ : string) (u : User) (r : UserSession) : bool :=
  (us_user_id r =? u_id u) && bool_decide (sid r = sid_) && bool_decide (revoked_at r = None).
Definition user_for_live_session (name sid_ : string) (d : AuthDb) : option User :=
  List.find (fun u => bool_decide (username u = name) && is_true (is_active u)
                      && existsb (live_row sid_ u) (sessions d)) (users d).
Definition find_active_id (i : Z) (d : AuthDb) : option User :=
  List.find (fun u => (u_id u =? i) && is_true (is_active u)) (users d).

(** The two members [get_current_user] asks for; [None] when one is missing or
    empty, or the token does not decode. *)
Definition named_session (now : Z) (token : string) : option (string * string) :=
  match decode_token now token with
  | Raise _ => None
  | Ok c => match non_empty (c_sub c), non_empty (c_sid c) with
            | Some u, Some s => Some (u, s)
            | _, _ => None
            end
  end.

Definition credentials_exc : exn := HTTPException 401 "Invalid or expired token".
Record Request := mkRequest { r_method : string; r_path : string }.

Definition get_current_user (now : Z) (env : option string) (refused : bool) (request : Request) (token : string)
  : M AuthDb (User * Principal) :=
  if startswith token "ukip_" then
    do! key <- verify_api_key now token;
    match key with
    | None => mraise credentials_exc
    | Some k =>
        do! d <- mget;
        match find_active_id (k_user_id k) d with
        | None => mraise credentials_exc
        | Some user =>
            run! enforce_api_key_scope env refused k (r_method request) (r_path request);
            mret (user, mkPrincipal (u_id user) None (Some (k_id k)))
        end
    end
  else
    match named_session now token with
    | None => mraise credentials_exc
    | Some (name, sid_) =>
        do! d <- mget;
        match user_for_live_session name sid_ d with
        | None => mraise credentials_exc
        | Some user => mret (user, mkPrincipal (u_id user) (Some sid_) None)
        end
    end.

Definition get_current_user_optional (now : Z) (env : option string) (refused : bool) (request : Request)
    (token : option string) : M AuthDb (option (User * Principal)) :=
  match token with
  | None | Some "" => mret None
  | Some token =>
      if startswith token "ukip_" then
        do! key <- verify_api_key now token;
        match key with
        | None => mret None
        | Some k =>
            do! d <- mget;
            match find_active_id (k_user_id k) d with
            | None => mret None
            | Some user =>
                run! enforce_api_key_scope env refused k (r_method request) (r_path request);
                mret (Some (user, mkPrincipal (u_id user) None (Some (k_id k))))
            end
        end
      else
        match named_session now token with
        | None => mret None
        | Some (name, sid_) =>
            do! d <- mget;
            match user_for_live_session name sid_ d with
            | None => mret None
            | Some user => mret (Some (user, mkPrincipal (u_id user) (Some sid_) None))
            end
        end
  end.

(** [require_role( *roles )] *)
Definition check_role (roles : list string) (user : User) : res User :=
  if bool_decide (role user ∈ roles) then Ok user
  else Raise (HTTPException 403 ("Role '" ++ role user ++ "' is not authorized for this action")).

(** * Managing API keys (routers/api_keys.py) *)
Definition KEY_SCOPES : list string := ["read"; "write"; "admin"].
(** The full key, its prefix and its hash; [rand] is [secrets.token_urlsafe(30)]. *)
Definition generate_key (rand : string) : string * string * string :=
  let full_key := ("ukip_" ++ rand)%string in (full_key, take_str 16 full_key, sha256 full_key).

Definition create_api_key (now : Z) (rand : string) (current_user : User) (name : string) (scopes : list string)
    (expires_days : option Z) : M AuthDb (ApiKey * string) :=
  let invalid := List.filter (fun s => negb (bool_decide (s ∈ KEY_SCOPES))) scopes in
  match invalid, scopes with
  | _ :: _, _ => mraise (HTTPException 422 ("Invalid scopes: " ++ py_str (JArr (map JStr invalid)) ++ ". Valid: "
                                             ++ py_str (JArr (map JStr KEY_SCOPES))))
  | [], [] => mraise (HTTPException 422 "At least one scope is required")
  | [], _ =>
      let '(full_key, prefix, hash) := generate_key rand in
      do! row <- insert api_keys with_keys (fun r => bool_decide (key_hash r = hash))
        (fun i => mkApiKey i (u_id current_user) (strip name) prefix hash (Some (dumps false (JArr (map JStr scopes))))
           (match expires_days with Some d => if d =? 0 then None else Some (now + d * 86400) | None => None end)
           None (Some true) now);
      run! commit; mret (row, full_key)
  end.
Definition list_api_keys (current_user : User) (d : AuthDb) : list ApiKey :=
  sort_by (fun a b => k_id b <=? k_id a) (List.filter (fun k => k_user_id k =? u_id current_user) (api_keys d)).
Definition revoke_api_key (current_user : User) (key_id : Z) : M AuthDb Z :=
  do! d <- mget;
  match List.find (fun k => k_id k =? key_id) (api_keys d) with
  | Some k =>
      if k_user_id k =? u_id current_user
      then run! mmodify (with_keys (update_where (fun r => k_id r =? key_id) disable_key)); run! commit; mret key_id
      else mraise (HTTPException 404 "API key not found")
  | None => mraise (HTTPException 404 "API key not found")
  end.
End auth.
