(* ===== verification/AuthUsers.v ===== *)
(** * Login, sessions, password reset, SSO and user management
    (src/backend/routers/auth_users.py)

    A handler takes the user its dependency resolved. Rate limits, the OAuth
    exchange and the sending of mail are outside; a response is the value its
    body carries. *)
From S2P Require Import Prelude PyStr PyJson PyValue Auth.
From Stdlib Require Import Ascii String.

Local Open Scope string_scope.
Local Open Scope list_scope.
Local Open Scope Z_scope.
Local Open Scope py_scope.

Section users.
Context (SECRET_KEY : string) (RETIRING_SECRET_KEYS : list string).
Context (jwt_encode : Claims -> string -> string) (jwt_decode : Z -> string -> string -> res Claims).
Context (sha256 : string -> string) (checkpw : string -> string -> res bool) (hashpw : string -> string -> string).
Context (isoformat_utc : Z -> string).
Notation decode_token := (decode_token SECRET_KEY RETIRING_SECRET_KEYS jwt_decode).
Notation access_token := (create_access_token SECRET_KEY jwt_encode).
Notation refresh_token_for := (create_refresh_token SECRET_KEY jwt_encode).
Notation issue_tokens := (issue_tokens SECRET_KEY jwt_encode).

(** * Tokens *)
Definition login (now now' : Z) (uuid : string) (request : option (option string * option string))
    (name password : string) : M AuthDb (string * string) :=
  do! user <- authenticate_user checkpw isoformat_utc now now' name password;
  match user with
  | None => mraise (HTTPException 401 "Incorrect username or password")
  | Some user => issue_tokens now' uuid user request
  end.

Definition refresh_exc : exn := HTTPException 401 "Invalid or expired refresh token".
Definition live_session_of (user_id : Z) (sid_ : string) (r : UserSession) : bool :=
  bool_decide (sid r = sid_) && (us_user_id r =? user_id) && bool_decide (revoked_at r = None).
Definition refresh_token (now : Z) (token : string) : M AuthDb (string * string) :=
  match decode_token now token with
  | Raise _ => mraise refresh_exc
  | Ok c =>
      match non_empty (c_sub c), non_empty (c_sid c) with
      | Some name, Some sid_ =>
          if negb (bool_decide (c_type c = Some "refresh")) then mraise refresh_exc
          else
            do! d <- mget;
            match find_active name d with
            | None => mraise refresh_exc
            | Some user =>
                match List.find (live_session_of (u_id user) sid_) (sessions d) with
                | None => mraise refresh_exc
                | Some session =>
                    run! mmodify (with_sessions (update_where (fun r => us_id r =? us_id session)
                                                              (touch_row now (now + REFRESH_TOKEN_EXPIRE_MINUTES * 60))));
                    run! commit;
                    mret (access_token now (username user) (role user) (sid session) None,
                          refresh_token_for now (username user) (role user) (sid session) None)
                end
            end
      | _, _ => mraise refresh_exc
      end
  end.

(** * Sessions *)
Fixpoint after_space (s : string) : option string :=
  match s with
  | EmptyString => None
  | String c s' => if bool_decide (c = " "%char) then Some s' else after_space s'
  end.
Definition current_sid (now : Z) (header : option string) : option string :=
  match header with
  | Some h =>
      if startswith h "Bearer "
      then match after_space h with
           | Some token => match decode_token now token with Ok c => c_sid c | Raise _ => None end
           | None => None
           end
      else None
  | None => None
  end.
Definition is_live (user_id : Z) (r : UserSession) : bool :=
  (us_user_id r =? user_id) && bool_decide (revoked_at r = None).
Definition live_sessions (user_id : Z) (d : AuthDb) : list UserSession :=
  sort_by (fun a b => last_seen_at b <=? last_seen_at a) (List.filter (is_live user_id) (sessions d)).
Definition revoke (now : Z) (rows : list UserSession) (actor_id : Z) : M AuthDb Z :=
  run! mmodify (with_sessions (update_where (fun r => bool_decide (us_id r ∈ map us_id rows)) (revoke_row now actor_id)));
  run! commit;
  mret (Z.of_nat (List.length rows)).

Definition serialize_session (current : option string) (r : UserSession) : UserSession * bool :=
  (r, bool_decide (current = Some (sid r))).
Definition list_my_sessions (now : Z) (header : option string) (current_user : User) (d : AuthDb) : list (UserSession * bool) :=
  map (serialize_session (current_sid now header)) (live_sessions (u_id current_user) d).

Definition find_live (session_id user_id : Z) (d : AuthDb) : option UserSession :=
  List.find (fun r => (us_id r =? session_id) && is_live user_id r) (sessions d).
Definition revoke_my_session (now session_id : Z) (current_user : User) : M AuthDb Z :=
  do! d <- mget;
  match find_live session_id (u_id current_user) d with
  | None => mraise (HTTPException 404 "Session not found")
  | Some row => run! revoke now [row] (u_id current_user); mret session_id
  end.
Definition revoke_my_other_sessions (now : Z) (header : option string) (current_user : User) : M AuthDb Z :=
  let current := current_sid now header in
  do! d <- mget;
  revoke now (List.filter (fun r => negb (bool_decide (Some (sid r) = current))) (live_sessions (u_id current_user) d))
         (u_id current_user).
Definition list_user_sessions (user_id : Z) (current_user : User) (d : AuthDb) : res (list (UserSession * bool)) :=
  let? _ := check_role ["super_admin"] current_user in
  match find_user user_id d with
  | None => Raise (HTTPException 404 "User not found")
  | Some _ => Ok (map (serialize_session None) (live_sessions user_id d))
  end.
Definition revoke_user_session (now user_id session_id : Z) (current_user : User) : M AuthDb Z :=
  run! mlift (check_role ["super_admin"] current_user);
  do! d <- mget;
  match find_live session_id user_id d with
  | None => mraise (HTTPException 404 "Session not found")
  | Some row => run! revoke now [row] (u_id current_user); mret session_id
  end.
Definition revoke_all_user_sessions (now user_id : Z) (current_user : User) : M AuthDb Z :=
  run! mlift (check_role ["super_admin"] current_user);
  do! d <- mget;
  revoke now (live_sessions user_id d) (u_id current_user).

(** * Password reset *)

(** [smtp]: the settings row's [enabled] and [smtp_host]; [send_mail] is whether
    the link to the address with the token was sent. The body is
    [sent] and [reason]. *)
Definition smtp_ready (smtp : option (option bool * option string)) : bool :=
  match smtp with Some (enabled, host) => is_true enabled && match non_empty host with Some _ => true | None => false end
  | None => false end.
Definition request_password_reset (now : Z) (smtp : option (option bool * option string)) (send_mail : string -> string -> bool)
    (raw_token : string) (address : string) : M AuthDb (bool * option string) :=
  let address := lower (strip address) in
  if negb (smtp_ready smtp) then mret (false, Some "smtp_not_configured")
  else
    do! d <- mget;
    match List.find (fun u => match email u with Some e => bool_decide (lower e = address) | None => false end
                              && is_true (is_active u)) (users d) with
    | None => mret (true, None)
    | Some user =>
        run! insert reset_tokens with_resets (fun r => bool_decide (ot_hash r = sha256 raw_token))
               (fun i => mkOneTime i (u_id user) (sha256 raw_token) (now + 30 * 60) None);
        run! commit;
        if send_mail address raw_token then mret (true, None) else mret (false, Some "email_not_sent")
    end.

Definition reset_exc : exn := HTTPException 400 "Invalid or expired reset token".
Definition confirm_password_reset (now : Z) (salt token new_password : string) : M AuthDb bool :=
  do! d <- mget;
  match List.find (fun r => bool_decide (ot_hash r = sha256 token)) (reset_tokens d) with
  | None => mraise reset_exc
  | Some r =>
      if negb (bool_decide (ot_used_at r = None)) then mraise reset_exc
      else if ot_expires_at r <? now then mraise reset_exc
      else match find_user (ot_user_id r) d with
           | None => mraise reset_exc
           | Some user =>
               if negb (is_true (is_active user)) then mraise reset_exc
               else
                 run! update_user_row (u_id user) (fun u => set_lock (Some 0) None (set_password (hash_password hashpw salt new_password) u));
                 run! mmodify (with_resets (update_where (fun x => ot_id x =? ot_id r) (spend now)));
                 run! commit; mret true
           end
  end.

(** * Single sign-on *)
Record AuthSettings := mkAuthSettings {
  sso_enabled : bool; sso_auto_provision : bool; sso_default_role : option string; sso_allowed_domains : option string }.

Definition lstrip_at (s : string) : string := on_chars (drop_while (fun c => bool_decide (c = "@"%char))) s.
Definition allowed_domains (st : AuthSettings) : list string :=
  map (fun d => lstrip_at (lower (strip d)))
      (List.filter (fun d => truthy (strip d)) (split_on "," (match sso_allowed_domains st with Some s => s | None => "" end))).
(** [email.rsplit("@", 1)[-1].lower()] *)
Definition email_domain (address : string) : string :=
  if contains "@" address then lower (List.last (split_on "@" address) "") else "".
Definition SSO_CODE_TTL : Z := 60.

(** [sso_callback] from the point where the provider has returned the user's
    address, name and picture; [uuid6] and [dummy] are random, and the result
    is the code put in the redirect. *)
Definition sso_user (salt dummy uuid6 : string) (st : AuthSettings) (address : string) (name picture : option string)
  : M AuthDb User :=
  do! d <- mget;
  match List.find (fun u => bool_decide (email u = Some address)) (users d) with
  | Some user => mret user
  | None =>
      if negb (sso_auto_provision st) then mraise (HTTPException 403 "SSO user auto-provisioning is disabled")
      else
        let uname := (List.hd "" (split_on "@" address) ++ "_" ++ uuid6)%string in
        do! user <- insert users with_users
               (fun u => bool_decide (username u = uname) || bool_decide (email u = Some address))
               (fun i => mkUser i uname (Some address) (hash_password hashpw salt dummy)
                           (match non_empty (sso_default_role st) with Some r => r | None => "viewer" end)
                           (Some true) (Some 0) None name None picture);
        run! commit; mret user
  end.
Definition sso_callback (now : Z) (code salt dummy uuid6 : string) (st : AuthSettings) (address : option string)
    (name picture : option string) : M AuthDb string :=
  match non_empty address with
  | None => mraise (HTTPException 400 "SSO provider did not return an email address")
  | Some address =>
      if negb (sso_enabled st) then mraise (HTTPException 404 "SSO is disabled")
      else
        let allowed := allowed_domains st in
        if negb (bool_decide (allowed = [])) && negb (bool_decide (email_domain address ∈ allowed))
        then mraise (HTTPException 403 "Email domain is not allowed for SSO")
        else
          do! user <- sso_user salt dummy uuid6 st address name picture;
          if negb (is_true (is_active user)) then mraise (HTTPException 403 "Account is deactivated")
          else
            run! insert sso_codes with_codes (fun r => bool_decide (ot_hash r = sha256 code))
                   (fun i => mkOneTime i (u_id user) (sha256 code) (now + SSO_CODE_TTL) None);
            run! commit; mret code
  end.

Definition sso_exc : exn := HTTPException 400 "Invalid or expired SSO code".
Definition spendable (now : Z) (hash : string) (r : OneTime) : bool :=
  bool_decide (ot_hash r = hash) && bool_decide (ot_used_at r = None) && (now <? ot_expires_at r).
(** The conditional UPDATE and its row count. *)
Definition claim_code (now : Z) (hash : string) : M AuthDb Z :=
  do! d <- mget;
  run! mmodify (with_codes (update_where (spendable now hash) (spend now)));
  run! commit;
  mret (count_where (spendable now hash) (sso_codes d)).
Definition sso_exchange (now : Z) (uuid code : string) (request : option (option string * option string))
  : M AuthDb (string * string) :=
  let hash := sha256 code in
  do! claimed <- claim_code now hash;
  if negb (claimed =? 1) then mraise sso_exc
  else
    do! d <- mget;
    match List.filter (fun r => bool_decide (ot_hash r = hash)) (sso_codes d) with
    | [c] =>
        match find_user (ot_user_id c) d with
        | None => mraise sso_exc
        | Some user => if is_true (is_active user) then issue_tokens now uuid user request else mraise sso_exc
        end
    | _ => mraise (Exn "NoResultFound" "")
    end.

(** * Profiles *)

(** A payload's members: [None] when the request does not set them. *)
Record ProfileUpdate := mkProfileUpdate {
  pf_email : option (option string); pf_display_name : option (option string); pf_bio : option (option string) }.
Definition set_if {A} (v : option A) (set : A -> User -> User) (u : User) : User :=
  match v with Some a => set a u | None => u end.
Definition email_taken (e : string) (other_than : Z) (d : AuthDb) : bool :=
  existsb (fun u => bool_decide (email u = Some e) && negb (u_id u =? other_than)) (users d).
Definition update_my_profile (p : ProfileUpdate) (current_user : User) : M AuthDb unit :=
  do! d <- mget;
  if match pf_email p with Some (Some e) => email_taken e (u_id current_user) d | _ => false end
  then mraise (HTTPException 409 "Email already in use")
  else
    run! update_user_row (u_id current_user)
           (fun u => set_if (pf_bio p) set_bio (set_if (pf_display_name p) set_display_name (set_if (pf_email p) set_email u)));
    commit.
Definition change_my_password (salt current_password new_password : string) (current_user : User) : M AuthDb unit :=
  if negb (verify_password checkpw current_password (password_hash current_user))
  then mraise (HTTPException 400 "Current password is incorrect")
  else run! update_user_row (u_id current_user) (set_password (hash_password hashpw salt new_password)); commit.
Definition upload_my_avatar (url : string) (current_user : User) : M AuthDb unit :=
  if negb (startswith url "data:image/") then mraise (HTTPException 422 "avatar_url must be a data:image/ URL")
  else run! update_user_row (u_id current_user) (set_avatar (Some url)); commit.
Definition delete_my_avatar (current_user : User) : M AuthDb unit :=
  run! update_user_row (u_id current_user) (set_avatar None); commit.

(** * User management: every handler requires a super_admin *)
Definition user_stats (current_user : User) (d : AuthDb) : res (Z * Z * Z * list (string * Z)) :=
  let? _ := check_role ["super_admin"] current_user in
  let by_role := fold_left (fun acc u => dict_set (role u) (count_or_0 (dict_get (role u) acc) + 1) acc) (users d) [] in
  Ok (Z.of_nat (List.length (users d)), count_where (fun u => is_true (is_active u)) (users d),
      count_where (fun u => negb (is_true (is_active u))) (users d), by_role).
Definition list_users (skip limit : nat) (current_user : User) (d : AuthDb) : res (list User) :=
  let? _ := check_role ["super_admin"] current_user in
  Ok (firstn limit (skipn skip (sort_by (fun a b => u_id a <=? u_id b) (users d)))).
Definition create_user (salt uname : string) (address : option string) (password role_ : string) (current_user : User)
  : M AuthDb User :=
  run! mlift (check_role ["super_admin"] current_user);
  do! d <- mget;
  if existsb (fun u => bool_decide (username u = uname)) (users d) then mraise (HTTPException 409 "Username already exists")
  else
    do! user <- insert users with_users
           (fun u => bool_decide (username u = uname)
                     || match address with Some _ => bool_decide (email u = address) | None => false end)
           (fun i => mkUser i uname address (hash_password hashpw salt password) role_ (Some true) (Some 0) None None None None);
    run! commit; mret user.
Definition get_user (user_id : Z) (current_user : User) (d : AuthDb) : res User :=
  let? _ := check_role ["super_admin"] current_user in
  match find_user user_id d with Some u => Ok u | None => Raise (HTTPException 404 "User not found") end.

Record UserUpdate := mkUserUpdate {
  up_email : option (option string); up_password : option (option string); up_role : option (option string);
  up_is_active : option (option bool) }.
Definition active_superadmins (d : AuthDb) : Z :=
  count_where (fun u => bool_decide (role u = "super_admin") && is_true (is_active u)) (users d).
(** The attributes an update assigns; a null password cannot be hashed and a
    null role violates the column's constraint. *)
Definition applied (salt : string) (p : UserUpdate) : res (User -> User) :=
  match up_password p, up_role p with
  | Some None, _ => Raise (Exn "AttributeError" "'NoneType' object has no attribute 'encode'")
  | _, Some None => Raise (Exn "IntegrityError" "NOT NULL constraint failed: users.role")
  | pw, ro => Ok (fun u =>
      let u := set_if (up_is_active p) set_active (set_if (up_email p) set_email u) in
      let u := match pw with Some (Some pw) => set_password (hash_password hashpw salt pw) u | _ => u end in
      match ro with Some (Some r) => set_role r u | _ => u end)
  end.
Definition update_user (salt : string) (user_id : Z) (p : UserUpdate) (current_user : User) : M AuthDb unit :=
  run! mlift (check_role ["super_admin"] current_user);
  do! d <- mget;
  match find_user user_id d with
  | None => mraise (HTTPException 404 "User not found")
  | Some user =>
      let self := u_id user =? u_id current_user in
      let new_role := match up_role p with Some r => r | None => None end in
      if self && match new_role with Some r => negb (bool_decide (r = role current_user)) | None => false end
      then mraise (HTTPException 400 "Cannot change your own role")
      else if self && bool_decide (up_is_active p = Some (Some false))
      then mraise (HTTPException 400 "Cannot deactivate your own account")
      else if match new_role with Some r => bool_decide (role user = "super_admin") && negb (bool_decide (r = "super_admin"))
              | None => false end && (active_superadmins d <=? 1)
      then mraise (HTTPException 400 "Cannot demote the last active super_admin")
      else
        do! f <- mlift (applied salt p);
        if match up_email p with Some (Some e) => email_taken e user_id d | _ => false end then mraise IntegrityError
        else run! update_user_row user_id f; commit
  end.
Definition delete_user (user_id : Z) (current_user : User) : M AuthDb Z :=
  run! mlift (check_role ["super_admin"] current_user);
  do! d <- mget;
  match find_user user_id d with
  | None => mraise (HTTPException 404 "User not found")
  | Some user =>
      if u_id user =? u_id current_user then mraise (HTTPException 400 "Cannot deactivate your own account")
      else if bool_decide (role user = "super_admin") && (active_superadmins d <=? 1)
      then mraise (HTTPException 400 "Cannot deactivate the last active super_admin")
      else run! update_user_row user_id (set_active (Some false)); run! commit; mret user_id
  end.
Definition activate_user (user_id : Z) (current_user : User) : M AuthDb unit :=
  run! mlift (check_role ["super_admin"] current_user);
  do! d <- mget;
  match find_user user_id d with
  | None => mraise (HTTPException 404 "User not found")
  | Some _ => run! update_user_row user_id (set_active (Some true)); commit
  end.
End users.
