(* ===== verification/AuthClaims.v ===== *)
(** * What authentication guarantees

    A history is a list of requests, each run in a session of its own on what is
    committed. Theorems: a revoked session never authenticates again, a one-time
    code is spent once, guessing a password is rate bound, an authenticated
    request acts for an active account with a live credential, and user
    management never leaves the platform without an active super_admin. *)
From S2P Require Import Prelude PyStr PyJson ApiKeyScopes Auth AuthUsers.
From Stdlib Require Import Ascii String.

Local Open Scope string_scope.
Local Open Scope list_scope.
Local Open Scope Z_scope.
Local Open Scope py_scope.

Lemma find_none_iff {A} (p : A -> bool) l : List.find p l = None <-> forall x, In x l -> p x = false.
Proof.
  split; [intros H x; by apply List.find_none|]. induction l as [|x l IH]; intros H; simpl; [done|].
  rewrite (H x) by (by left). apply IH. intros y Hy. apply H. by right.
Qed.

(** A request, with what the outside gives it. *)
Inductive Call :=
  | Login (now now' : Z) (uuid : string) (request : option (option string * option string)) (name password : string)
  | Refresh (now : Z) (token : string)
  | IssueAccess (now : Z) (uuid subject role_ : string) (delta : option Z)
  | Authenticate (now : Z) (env : option string) (refused : bool) (request : Request) (token : string)
  | RevokeMine (now session_id : Z) (caller : User)
  | RevokeOthers (now : Z) (header : option string) (caller : User)
  | RevokeUser (now user_id session_id : Z) (caller : User)
  | RevokeAll (now user_id : Z) (caller : User)
  | ResetRequest (now : Z) (smtp : option (option bool * option string)) (send_mail : string -> string -> bool) (raw address : string)
  | ResetConfirm (now : Z) (salt token password : string)
  | SsoCallback (now : Z) (code salt dummy uuid6 : string) (st : AuthSettings) (address name picture : option string)
  | SsoClaim (now : Z) (code : string)
  | SsoExchange (now : Z) (uuid code : string) (request : option (option string * option string))
  | Profile (p : ProfileUpdate) (caller : User)
  | ChangePassword (salt current new : string) (caller : User)
  | Avatar (url : string) (caller : User)
  | NoAvatar (caller : User)
  | CreateUser (salt uname : string) (address : option string) (password role_ : string) (caller : User)
  | UpdateUser (salt : string) (user_id : Z) (p : UserUpdate) (caller : User)
  | DeleteUser (user_id : Z) (caller : User)
  | ActivateUser (user_id : Z) (caller : User)
  | CreateKey (now : Z) (rand : string) (caller : User) (name : string) (scopes : list string) (days : option Z)
  | RevokeKey (caller : User) (key_id : Z).

Section claims.
Context (SECRET_KEY : string) (RETIRING_SECRET_KEYS : list string).
Context (jwt_encode : Claims -> string -> string) (jwt_decode : Z -> string -> string -> res Claims).
Context (sha256 : string -> string) (checkpw : string -> string -> res bool) (hashpw : string -> string -> string).
Context (isoformat_utc : Z -> string).
Notation sk := SECRET_KEY.
Notation rk := RETIRING_SECRET_KEYS.

Definition ignore {A} (c : M AuthDb A) : M AuthDb unit := run! c; mret tt.
Lemma ignore_base {A} (c : M AuthDb A) s : sess_base (snd (ignore c s)) = sess_base (snd (c s)).
Proof. unfold ignore, mbind. by destruct (c s) as [[a|e] s']. Qed.
Definition handler (c : Call) : M AuthDb unit :=
  match c with
  | Login now now' uuid r n p => ignore (login sk jwt_encode checkpw isoformat_utc now now' uuid r n p)
  | Refresh now t => ignore (refresh_token sk rk jwt_encode jwt_decode now t)
  | IssueAccess now uuid s r d => ignore (issue_access_token sk jwt_encode now uuid s r d)
  | Authenticate now env rf r t => ignore (get_current_user sk rk jwt_decode sha256 now env rf r t)
  | RevokeMine now s u => ignore (revoke_my_session now s u)
  | RevokeOthers now h u => ignore (revoke_my_other_sessions sk rk jwt_decode now h u)
  | RevokeUser now i s u => ignore (revoke_user_session now i s u)
  | RevokeAll now i u => ignore (revoke_all_user_sessions now i u)
  | ResetRequest now smtp m raw a => ignore (request_password_reset sha256 now smtp m raw a)
  | ResetConfirm now salt t p => ignore (confirm_password_reset sha256 hashpw now salt t p)
  | SsoCallback now c s d u st a n p => ignore (sso_callback sha256 hashpw now c s d u st a n p)
  | SsoClaim now c => ignore (claim_code now (sha256 c))
  | SsoExchange now uuid c r => ignore (sso_exchange sk jwt_encode sha256 now uuid c r)
  | Profile p u => update_my_profile p u
  | ChangePassword s c n u => change_my_password checkpw hashpw s c n u
  | Avatar url u => upload_my_avatar url u
  | NoAvatar u => delete_my_avatar u
  | CreateUser s n a p r u => ignore (create_user hashpw s n a p r u)
  | UpdateUser s i p u => update_user hashpw s i p u
  | DeleteUser i u => ignore (delete_user i u)
  | ActivateUser i u => activate_user i u
  | CreateKey now r u n s d => ignore (create_api_key sha256 now r u n s d)
  | RevokeKey u k => ignore (revoke_api_key u k)
  end.
Definition after (c : Call) (d : AuthDb) : AuthDb := sess_base (snd (handler c (clean d))).
Definition history (cs : list Call) (d : AuthDb) : AuthDb := fold_left (fun d c => after c d) cs d.

Lemma history_preserves (P : AuthDb -> Prop) cs d :
  (forall c, preserves P (handler c)) -> P d -> P (history cs d).
Proof.
  intros Hp. revert d. induction cs as [|c cs IH]; intros d Hd; [done|]. simpl. apply IH. by apply (Hp c (clean d)).
Qed.

(** * Preserved predicates *)
Lemma preserves_insert {A} (P : AuthDb -> Prop) (get : AuthDb -> list A) with_ dup mk :
  (forall d i, P d -> existsb dup (get d) = false -> P (next_seq (with_ (fun l => l ++ [mk i]) d))) ->
  preserves P (insert get with_ dup mk).
Proof.
  intros Hi s Hd Hb. unfold insert. unfold mbind, mget. destruct (existsb dup (get (sess_db s))) eqn:E; [done|].
  split; [|done]. by apply Hi.
Qed.

(** A predicate on one table, kept by every statement on the others. *)
Section sessions_only.
Context (Q : list UserSession -> Prop).
Context (Q_insert : forall l r, Q l -> existsb (fun x => bool_decide (sid x = sid r)) l = false -> revoked_at r = None -> Q (l ++ [r])).
Context (Q_update : forall l p f, Q l -> (forall r, sid (f r) = sid r /\ (revoked_at r <> None -> revoked_at (f r) <> None)) ->
  Q (update_where p f l)).
Notation P := (fun d => Q (sessions d)).

Lemma start_session_keeps now uuid u a ip : preserves P (start_session now uuid u a ip).
Proof.
  unfold start_session. preserve. apply preserves_insert. intros d i Hd Hdup. by apply Q_insert.
Qed.
Lemma issue_tokens_keeps now uuid u r : preserves P (issue_tokens sk jwt_encode now uuid u r).
Proof. unfold issue_tokens. destruct (request_fingerprint r). preserve. by apply start_session_keeps. Qed.
Lemma revoke_keeps now rows actor : preserves P (revoke now rows actor).
Proof. unfold revoke. preserve. by apply Q_update. Qed.
Lemma insert_elsewhere {A} (get : AuthDb -> list A) with_ dup mk :
  (forall f d, sessions (with_ f d) = sessions d) -> preserves P (insert get with_ dup mk).
Proof. intros Hw. apply preserves_insert. intros d i Hd _. simpl. by rewrite Hw. Qed.
Lemma verify_api_key_keeps now t : preserves P (verify_api_key sha256 now t).
Proof. unfold verify_api_key. by preserve. Qed.
Lemma enforce_keeps env refused k m p : preserves P (enforce_api_key_scope env refused k m p).
Proof. unfold enforce_api_key_scope, record_scope_violation. by preserve. Qed.
Lemma authenticate_keeps now now' n p : preserves P (authenticate_user checkpw isoformat_utc now now' n p).
Proof. unfold authenticate_user, write_lock, update_user_row. by preserve. Qed.

Lemma handler_keeps_sessions c : preserves P (handler c).
Proof.
  destruct c; simpl; unfold ignore;
    unfold login, refresh_token, issue_access_token, get_current_user, revoke_my_session, revoke_my_other_sessions,
      revoke_user_session, revoke_all_user_sessions, request_password_reset, confirm_password_reset, sso_callback, sso_user,
      claim_code, sso_exchange, update_my_profile, change_my_password, upload_my_avatar, delete_my_avatar, create_user,
      update_user, delete_user, activate_user, create_api_key, revoke_api_key, generate_key, claim_code, update_user_row;
    preserve; try done; auto using authenticate_keeps, issue_tokens_keeps, start_session_keeps, verify_api_key_keeps,
      enforce_keeps, revoke_keeps; try (by apply insert_elsewhere).
  by apply Q_update.
Qed.
End sessions_only.

(** * Revocation *)
Definition dead (sid_ : string) (l : list UserSession) : Prop :=
  (exists r, In r l /\ sid r = sid_) /\ (forall r, In r l -> sid r = sid_ -> revoked_at r <> None).

Lemma dead_kept sid_ c : preserves (fun d => dead sid_ (sessions d)) (handler c).
Proof.
  apply (handler_keeps_sessions (dead sid_)).
  - intros l r [(x & Hx & Ex) Hd] Hdup _. split; [exists x; split; [apply in_or_app; by left|done]|].
    intros y [Hy|[<-|[]]]%in_app_or Ey; [by apply Hd|]. exfalso.
    enough (existsb (fun x => bool_decide (sid x = sid r)) l = true) by congruence.
    apply existsb_exists. exists x. split; [done|]. apply bool_decide_eq_true. by rewrite Ex, Ey.
  - intros l p f [(x & Hx & Ex) Hd] Hf. split.
    + exists (if p x then f x else x). split; [by apply update_where_in|]. destruct (p x); [|done]. by rewrite (proj1 (Hf x)).
    + intros y Hy Ey. apply in_update_where in Hy as (z & Hz & [[_ ->]|[_ ->]]); [|by apply Hd].
      destruct (Hf z) as [E1 E2]. apply E2, Hd; [done|congruence].
Qed.

Lemma dead_no_user name sid_ d : dead sid_ (sessions d) -> user_for_live_session name sid_ d = None.
Proof.
  intros [_ Hd]. unfold user_for_live_session. apply find_none_iff. intros u _. apply andb_false_iff. right.
  apply not_true_is_false. intros (r & Hr & Hl)%existsb_exists. unfold live_row in Hl.
  rewrite !andb_true_iff, !bool_decide_eq_true in Hl. destruct Hl as [[_ E1] E2]. by apply (Hd r).
Qed.

(** C5: Revocation is final. Once every row of a session is revoked, then after
    any further requests (logins, refreshes, password and profile changes, user
    management, new sessions and keys) and at any later time, a bearer token
    naming that session is refused with a 401 by [get_current_user], its refresh
    token cannot be exchanged, and neither attempt changes anything. *)
Theorem revocation_is_final cs d sid_ :
  dead sid_ (sessions d) ->
  let d' := history cs d in
  forall now env refused request token c,
    decode_token sk rk jwt_decode now token = Ok c -> c_sid c = Some sid_ -> startswith token "ukip_" = false ->
    get_current_user sk rk jwt_decode sha256 now env refused request token (clean d') = (Raise credentials_exc, clean d') /\
    refresh_token sk rk jwt_encode jwt_decode now token (clean d') = (Raise refresh_exc, clean d').
Proof.
  intros Hdead d' now env refused request token c Hdec Hsid Hnk.
  assert (Hd : dead sid_ (sessions d')) by (by apply (history_preserves (fun d => dead sid_ (sessions d))); [apply dead_kept|]).
  split.
  - unfold get_current_user, named_session. rewrite Hnk, Hdec, Hsid.
    destruct (non_empty (c_sub c)) as [name|]; [|done]. destruct (non_empty (Some sid_)) as [s|] eqn:Es; [|done].
    assert (s = sid_) as -> by (simpl in Es; destruct (truthy sid_); congruence).
    unfold mbind, mget. simpl. by rewrite dead_no_user.
  - unfold refresh_token. rewrite Hdec, Hsid.
    destruct (non_empty (c_sub c)) as [name|]; [|done]. destruct (non_empty (Some sid_)) as [s|] eqn:Es; [|done].
    assert (s = sid_) as -> by (simpl in Es; destruct (truthy sid_); congruence).
    destruct (negb _); [done|]. unfold mbind, mget. simpl. destruct (find_active name d') as [u|]; [|done].
    assert (List.find (live_session_of (u_id u) sid_) (sessions d') = None) as ->; [|done].
    apply find_none_iff. intros r Hr. apply not_true_is_false. unfold live_session_of.
    rewrite !andb_true_iff, !bool_decide_eq_true. intros [[E1 _] E2]. by apply (proj2 Hd r).
Qed.

(** * One-time secrets *)
Definition one_time (sso : bool) (d : AuthDb) : list OneTime := if sso then sso_codes d else reset_tokens d.
Definition spent (h : string) (l : list OneTime) : Prop :=
  (exists r, In r l /\ ot_hash r = h) /\ (forall r, In r l -> ot_hash r = h -> ot_used_at r <> None).

Lemma spent_insert h l r : spent h l -> existsb (fun x => bool_decide (ot_hash x = ot_hash r)) l = false -> spent h (l ++ [r]).
Proof.
  intros [(x & Hx & Ex) Hd] Hdup. split; [exists x; split; [apply in_or_app; by left|done]|].
  intros y [Hy|[<-|[]]]%in_app_or Ey; [by apply Hd|]. exfalso.
  enough (existsb (fun x => bool_decide (ot_hash x = ot_hash r)) l = true) by congruence.
  apply existsb_exists. exists x. split; [done|]. apply bool_decide_eq_true. by rewrite Ex, Ey.
Qed.
Lemma spent_update h l p now : spent h l -> spent h (update_where p (spend now) l).
Proof.
  intros [(x & Hx & Ex) Hd]. split.
  - exists (if p x then spend now x else x). split; [by apply update_where_in|]. by destruct (p x).
  - intros y Hy Ey. apply in_update_where in Hy as (z & Hz & [[_ ->]|[_ ->]]); [done|by apply Hd].
Qed.

Lemma spent_kept sso h c : preserves (fun d => spent h (one_time sso d)) (handler c).
Proof.
  assert (Hins : forall {A} (get : AuthDb -> list A) with_ dup mk,
    (forall f d, sso_codes (with_ f d) = sso_codes d /\ reset_tokens (with_ f d) = reset_tokens d) ->
    preserves (fun d => spent h (one_time sso d)) (insert get with_ dup mk)).
  { intros A get with_ dup mk Hw. apply preserves_insert. intros d i Hd _. unfold one_time in *. simpl.
    destruct (Hw (fun l => l ++ [mk i]) d) as [E1 E2]. destruct sso; [by rewrite E1|by rewrite E2]. }
  destruct c; simpl; unfold ignore;
    unfold login, authenticate_user, write_lock, refresh_token, issue_access_token, issue_tokens, start_session, get_current_user,
      verify_api_key, enforce_api_key_scope, record_scope_violation, revoke_my_session, revoke_my_other_sessions, revoke,
      revoke_user_session, revoke_all_user_sessions, request_password_reset, confirm_password_reset, sso_callback, sso_user,
      claim_code, sso_exchange, update_my_profile, change_my_password, upload_my_avatar, delete_my_avatar, create_user,
      update_user, delete_user, activate_user, create_api_key, revoke_api_key, generate_key, claim_code, update_user_row,
      issue_tokens, start_session;
    repeat (preserve; unfold one_time in *; try done; try (by apply Hins);
            match goal with
            | |- preserves _ (insert reset_tokens _ _ _) => apply preserves_insert; intros ? ? ? ?; destruct sso; [done|by apply spent_insert]
            | |- preserves _ (insert sso_codes _ _ _) => apply preserves_insert; intros ? ? ? ?; destruct sso; [by apply spent_insert|done]
            | |- spent _ (if _ then _ else _) => destruct sso; simpl in *; [|]; (done || by apply spent_update)
            | |- preserves _ (let '(_, _) := ?x in _) => destruct x
            | _ => idtac
            end).
Qed.

Lemma update_spends h l x now p : NoDup (map ot_hash l) -> In x l -> ot_hash x = h -> p x = true ->
  spent h (update_where p (spend now) l).
Proof.
  intros Hnd Hx Ex Hp. split.
  - exists (spend now x). split; [|done]. pose proof (update_where_in p (spend now) l x Hx) as H. by rewrite Hp in H.
  - intros y Hy Ey. apply in_update_where in Hy as (z & Hz & [[_ ->]|[Hn ->]]); [done|].
    assert (z = x) as -> by (by apply (NoDup_map_inj ot_hash l); [| | |rewrite Ey, Ex]). congruence.
Qed.
Lemma claim_spends now h d n s' : NoDup (map ot_hash (sso_codes d)) ->
  claim_code now h (clean d) = (Ok n, s') -> n <> 0 -> spent h (sso_codes (sess_base s')).
Proof.
  intros Hnd E Hn. unfold claim_code in E. injection E as <- <-. simpl.
  destruct (List.find (spendable now h) (sso_codes d)) as [x|] eqn:Ef.
  - apply List.find_some in Ef as [Hx Hs]. eapply update_spends; eauto. unfold spendable in Hs.
    rewrite !andb_true_iff, bool_decide_eq_true in Hs. by destruct Hs as [[? _] _].
  - exfalso. apply Hn, count_where_0. intros x Hx. by eapply List.find_none.
Qed.
Lemma spent_claim now h d : spent h (sso_codes d) -> fst (claim_code now h (clean d)) = Ok 0.
Proof.
  intros [_ Hd]. unfold claim_code. simpl. f_equal. apply count_where_0. intros x Hx. unfold spendable.
  destruct (bool_decide (ot_hash x = h)) eqn:E; [|done]. apply bool_decide_eq_true in E.
  rewrite bool_decide_false by (by apply Hd). done.
Qed.
Lemma exchange_spends now uuid code request d x s' : NoDup (map ot_hash (sso_codes d)) ->
  sso_exchange sk jwt_encode sha256 now uuid code request (clean d) = (Ok x, s') ->
  spent (sha256 code) (sso_codes (sess_base s')).
Proof.
  intros Hnd. unfold sso_exchange, mbind at 1. destruct (claim_code now (sha256 code) (clean d)) as [[n|e] s1] eqn:Ec; [|done].
  destruct (Z.eqb_spec n 1) as [->|]; [|done]. assert (Hs := claim_spends _ _ _ _ _ Hnd Ec ltac:(done)).
  assert (Hdb : sess_db s1 = sess_base s1) by (unfold claim_code in Ec; injection Ec as _ <-; done).
  cbn [negb]. match goal with |- ?c s1 = _ -> _ => assert (Hp : preserves (fun d => spent (sha256 code) (one_time true d)) c) end.
  { unfold issue_tokens, start_session. destruct (request_fingerprint request). preserve; try done.
    apply preserves_insert. by intros ? ? ? _. }
  intros E. specialize (Hp s1). rewrite E, Hdb in Hp. by apply Hp.
Qed.

(** One-time secrets are spent once. When an exchange of an SSO code has
    succeeded, or just made the conditional UPDATE that claims it, every later
    claim of that code matches no row and every later exchange is refused, after
    any further requests; a password reset token that has been used is refused
    from then on. *)
Theorem one_time_secrets cs d :
  NoDup (map ot_hash (sso_codes d)) -> NoDup (map ot_hash (reset_tokens d)) ->
  (forall now code s',
     (exists n, claim_code now (sha256 code) (clean d) = (Ok n, s') /\ n <> 0) \/
     (exists uuid request x, sso_exchange sk jwt_encode sha256 now uuid code request (clean d) = (Ok x, s')) ->
     forall now2 uuid2 request2, let d' := history cs (sess_base s') in
       fst (claim_code now2 (sha256 code) (clean d')) = Ok 0 /\
       fst (sso_exchange sk jwt_encode sha256 now2 uuid2 code request2 (clean d')) = Raise sso_exc) /\
  (forall now salt token pw s', confirm_password_reset sha256 hashpw now salt token pw (clean d) = (Ok true, s') ->
     forall now2 salt2 pw2, let d' := history cs (sess_base s') in
       confirm_password_reset sha256 hashpw now2 salt2 token pw2 (clean d') = (Raise reset_exc, clean d')).
Proof.
  intros Hn1 Hn2. split.
  - intros now code s' Hc now2 uuid2 request2 d'.
    assert (Hs : spent (sha256 code) (sso_codes d')).
    { apply (history_preserves (fun d => spent (sha256 code) (one_time true d))); [apply spent_kept|].
      destruct Hc as [(n & Hc & Hn)|(uuid & request & x & Hc)]; [by eapply claim_spends|by eapply exchange_spends]. }
    pose proof (spent_claim now2 (sha256 code) d' Hs) as Hcl. split; [done|]. unfold sso_exchange, mbind.
    destruct (claim_code now2 (sha256 code) (clean d')) as [r s1]. simpl in Hcl. by subst r.
  - intros now salt token pw s' Hc now2 salt2 pw2 d'.
    assert (Hs : spent (sha256 token) (reset_tokens d')).
    { apply (history_preserves (fun d => spent (sha256 token) (one_time false d))); [apply spent_kept|].
      revert Hc. unfold confirm_password_reset, mbind, mget. simpl.
      destruct (List.find _ (reset_tokens d)) as [r|] eqn:Ef; [|done]. destruct (negb _); [done|].
      destruct (_ <? now); [done|]. destruct (find_user _ d) as [u|]; [|done]. destruct (negb _); [done|].
      intros E. injection E as <-. simpl. apply List.find_some in Ef as [Hr Eh]. apply bool_decide_eq_true in Eh.
      eapply (update_spends _ _ r); [done..|]. by apply Z.eqb_refl. }
    destruct Hs as [(x & Hx & Ex) Hd]. unfold confirm_password_reset, mbind, mget. simpl.
    destruct (List.find _ (reset_tokens d')) as [r|] eqn:Ef; [|done].
    apply List.find_some in Ef as [Hr Eh]. apply bool_decide_eq_true in Eh.
    rewrite bool_decide_false by (by apply Hd). done.
Qed.

(** * Guessing a password *)
Notation LOCK := (LOCKOUT_MINUTES * 60).

Lemma find_active_locked name d u a b : find_active name d = Some u ->
  find_active name (with_users (update_where (fun x => u_id x =? u_id u) (set_lock a b)) d) = Some (set_lock a b u).
Proof.
  unfold find_active. simpl. induction (users d) as [|x l IH]; simpl; [done|].
  destruct (bool_decide (username x = name) && is_true (is_active x)) eqn:E.
  - intros [= ->]. rewrite Z.eqb_refl. simpl. by rewrite E.
  - intros Hf. destruct (u_id x =? u_id u); simpl; rewrite E; by apply IH.
Qed.

(** The refusal of a locked account. *)
Definition locked_exc (until : string) : exn := HTTPException 423 ("Account locked. Try again after " ++ until)%string.
(** The effect of one attempt with a wrong password. *)
Lemma attempt_run now now' name pw d u :
  find_active name d = Some u -> verify_password checkpw pw (password_hash u) = false ->
  if locked_out now u
  then exists until, authenticate_user checkpw isoformat_utc now now' name pw (clean d) = (Raise (locked_exc until), clean d)
  else exists d', authenticate_user checkpw isoformat_utc now now' name pw (clean d) = (Ok None, clean d') /\
       find_active name d' = Some (after_failure now' (after_lock u)).
Proof.
  intros Hf Hpw.
  assert (Hh : password_hash (after_lock u) = password_hash u) by (unfold after_lock; by destruct (locked_until u)).
  assert (Hi : u_id (after_lock u) = u_id u) by (unfold after_lock; by destruct (locked_until u)).
  destruct (locked_out now u) eqn:Elo; unfold authenticate_user, clean; mrun; rewrite Hf, Elo; [eexists; reflexivity|].
  unfold write_lock, update_user_row.
  destruct (locked_until u) as [t|] eqn:El; mrun; rewrite Hh, Hpw; mrun; eexists; (split; [reflexivity|]).
  - apply (find_active_locked name d u (failed_attempts (after_lock u)) (locked_until (after_lock u))) in Hf.
    pose proof (find_active_locked name _ _ (failed_attempts (after_failure now' (after_lock u)))
      (locked_until (after_failure now' (after_lock u))) Hf) as H.
    change (u_id (after_failure now' (after_lock u))) with (u_id (after_lock u)). rewrite Hi.
    etransitivity; [exact H|]. f_equal.
    unfold after_lock. rewrite El. done.
  - assert (after_lock u = u) as -> by (unfold after_lock; by rewrite El).
    etransitivity; [exact (find_active_locked name d u _ _ Hf)|done].
Qed.

(** The answers of attempts made one after the other, and how many of them had
    the password compared. *)
Fixpoint answers (name : string) (attempts : list (Z * Z * string)) (d : AuthDb) : list (res (option User)) :=
  match attempts with
  | [] => []
  | (now, now', pw) :: rest =>
      let '(r, s) := authenticate_user checkpw isoformat_utc now now' name pw (clean d) in r :: answers name rest (sess_base s)
  end.
Definition guesses (name : string) (attempts : list (Z * Z * string)) (d : AuthDb) : Z := count_where is_ok (answers name attempts d).
Lemma guesses_step name now now' pw rest d :
  guesses name ((now, now', pw) :: rest) d
  = let '(r, s) := authenticate_user checkpw isoformat_utc now now' name pw (clean d) in (if is_ok r then 1 else 0) + guesses name rest (sess_base s).
Proof. unfold guesses. cbn [answers]. destruct (authenticate_user _ _ _ _ _ _ _) as [r s]. by rewrite count_where_cons. Qed.
(** A wrong password is answered with a failure, or refused with the lock. *)
Definition failed_or_locked (r : res (option User)) : Prop := r = Ok None \/ exists until, r = Raise (locked_exc until).
Lemma answers_fail name attempts : forall d u,
  find_active name d = Some u -> Forall (fun a => verify_password checkpw (snd a) (password_hash u) = false) attempts ->
  Forall failed_or_locked (answers name attempts d).
Proof.
  induction attempts as [|[[now now'] pw] rest IH]; intros d u Hf Hwrong; [constructor|]. inversion_clear Hwrong as [|? ? Hpw Hrest]. simpl in Hpw.
  cbn [answers]. pose proof (attempt_run now now' name pw d u Hf Hpw) as Hrun. destruct (locked_out now u).
  - destruct Hrun as [until ->]. constructor; [right; by exists until|]. by apply (IH d u).
  - destruct Hrun as (d' & -> & Hf'). constructor; [by left|]. apply (IH d' _ Hf'). unfold after_lock. by destruct (locked_until u).
Qed.
Fixpoint in_order (t T : Z) (attempts : list (Z * Z * string)) : Prop :=
  match attempts with
  | [] => True
  | (now, now', _) :: rest => t <= now <= now' /\ now' <= T /\ in_order now' T rest
  end.
(** Comparisons left until [T]. *)
Definition allowance (T t : Z) (u : User) : Z :=
  match locked_until u with
  | Some L => if T <? L then 0 else 5 * (1 + (T - Z.max L t) / LOCK)
  | None => Z.max 1 (5 - count_or_0 (failed_attempts u)) + 5 * ((T - t) / LOCK)
  end.

Lemma guesses_allowed T hash name attempts : forall t d u,
  find_active name d = Some u -> password_hash u = hash -> in_order t T attempts ->
  Forall (fun a => verify_password checkpw (snd a) hash = false) attempts ->
  t <= T -> 0 <= count_or_0 (failed_attempts u) -> guesses name attempts d <= allowance T t u.
Proof.
  induction attempts as [|[[now now'] pw] rest IH]; intros t d u Hf Hh Hord Hwrong HtT Hn.
  { change (0 <= allowance T t u). unfold allowance. destruct (locked_until u) as [L|].
    - destruct (Z.ltb_spec T L); [lia|]. pose proof (Z.div_pos (T - Z.max L t) LOCK ltac:(lia) ltac:(unfold LOCKOUT_MINUTES; lia)). lia.
    - pose proof (Z.div_pos (T - t) LOCK ltac:(lia) ltac:(unfold LOCKOUT_MINUTES; lia)). lia. }
  destruct Hord as (H1 & H2 & Hord). inversion_clear Hwrong as [|? ? Hpw Hrest]. simpl in Hpw. rewrite <- Hh in Hpw.
  rewrite guesses_step. pose proof (attempt_run now now' name pw d u Hf Hpw) as Hrun.
  assert (Hmono : forall x y, x <= y -> x / LOCK <= y / LOCK) by (intros; apply Z.div_le_mono; [unfold LOCKOUT_MINUTES|]; lia).
  assert (Hstep : forall x, (x - LOCK) / LOCK = x / LOCK - 1).
  { intros x. replace (x - LOCK) with (x + (-1) * LOCK) by lia. rewrite Z.div_add by (unfold LOCKOUT_MINUTES; lia). lia. }
  destruct (locked_out now u) eqn:El.
  - destruct Hrun as [e ->]. simpl. unfold locked_out in El. unfold allowance.
    specialize (IH now' d u Hf Hh Hord Hrest ltac:(lia) Hn). unfold allowance in IH. destruct (locked_until u) as [L|]; [|done].
    apply Z.ltb_lt in El. destruct (T <? L); [done|]. specialize (Hmono (T - Z.max L now') (T - Z.max L t) ltac:(lia)). lia.
  - destruct Hrun as (d' & -> & Hf'). simpl.
    specialize (IH now' d' _ Hf' ltac:(unfold after_lock; by destruct (locked_until u)) Hord Hrest ltac:(lia)).
    assert (Hlock : forall x, allowance T now' (set_lock x (Some (now' + LOCK)) u) <= 5 * ((T - now') / LOCK)).
    { intros x. unfold allowance. simpl. destruct (Z.ltb_spec T (now' + LOCK)).
      - pose proof (Z.div_pos (T - now') LOCK ltac:(lia) ltac:(unfold LOCKOUT_MINUTES; lia)). lia.
      - rewrite Z.max_l by (unfold LOCKOUT_MINUTES; lia). replace (T - (now' + LOCK)) with (T - now' - LOCK) by lia. rewrite Hstep. lia. }
    unfold allowance. unfold locked_out in El. unfold after_failure, after_lock in IH.
    destruct (locked_until u) as [L|] eqn:EL; simpl in IH; specialize (IH ltac:(lia)).
    + apply Z.ltb_ge in El. destruct (Z.ltb_spec T L); [lia|]. unfold allowance in IH. simpl in IH.
      specialize (Hmono (T - now') (T - Z.max L t) ltac:(lia)). lia.
    + specialize (Hmono (T - now') (T - t) ltac:(lia)). unfold MAX_FAILED_ATTEMPTS in IH.
      destruct (Z.leb_spec 5 (count_or_0 (failed_attempts u) + 1)).
      * specialize (Hlock (Some (count_or_0 (failed_attempts u) + 1))). unfold set_lock in *. lia.
      * unfold allowance in IH. simpl in IH. rewrite EL in IH. lia.
Qed.

(** C6: Guessing is rate bound. Of any number of login attempts with wrong
    passwords against an account that is not locked, made one after the other
    within [T] seconds, at most [5 + 5 * (T / 900)] have their password compared,
    and fail; the others are refused with the lock's 423. *)
Theorem lockout_bounds_guessing name attempts d u t T :
  find_active name d = Some u -> locked_until u = None -> 0 <= count_or_0 (failed_attempts u) ->
  0 <= T -> in_order t (t + T) attempts ->
  Forall (fun a => verify_password checkpw (snd a) (password_hash u) = false) attempts ->
  count_where is_ok (answers name attempts d) <= MAX_FAILED_ATTEMPTS + MAX_FAILED_ATTEMPTS * (T / (LOCKOUT_MINUTES * 60)) /\
  Forall failed_or_locked (answers name attempts d).
Proof.
  intros Hf Hl Hn HT Hord Hwrong. split; [|by eapply answers_fail].
  pose proof (guesses_allowed (t + T) _ name attempts t d u Hf eq_refl Hord Hwrong ltac:(lia) Hn) as H.
  unfold allowance in H. rewrite Hl in H. replace (t + T - t) with T in H by lia. unfold guesses in H. unfold MAX_FAILED_ATTEMPTS. lia.
Qed.

(** * The last super_admin *)
Definition admin (u : User) : Prop := role u = "super_admin" /\ is_active u = Some true.
Definition has_admin (d : AuthDb) : Prop := exists u, In u (users d) /\ admin u.
Lemma has_admin_count d : has_admin d <-> 1 <= active_superadmins d.
Proof.
  unfold active_superadmins. split.
  - intros (u & Hu & Hr & Ha). destruct (Z.le_gt_cases 1 (count_where (fun u => bool_decide (role u = "super_admin") && is_true (is_active u)) (users d))) as [H|H]; [done|].
    assert (count_where (fun u => bool_decide (role u = "super_admin") && is_true (is_active u)) (users d) = 0) as E
      by (unfold count_where in *; lia).
    rewrite count_where_0 in E. specialize (E u Hu). by rewrite Hr, Ha, bool_decide_true in E.
  - intros H. destruct (List.find (fun u => bool_decide (role u = "super_admin") && is_true (is_active u)) (users d)) as [u|] eqn:E.
    + apply List.find_some in E as [Hu E]. rewrite andb_true_iff, bool_decide_eq_true in E. destruct E as [Hr Ha].
      exists u. split; [done|]. split; [done|]. by destruct (is_active u) as [[]|].
    + enough (count_where (fun u => bool_decide (role u = "super_admin") && is_true (is_active u)) (users d) = 0) by lia.
      apply count_where_0. intros u Hu. by eapply List.find_none in E.
Qed.
Lemma has_admin_update p f d : (forall u, In u (users d) -> p u = true -> admin u -> admin (f u)) -> has_admin d ->
  has_admin (with_users (update_where p f) d).
Proof.
  intros Hf (u & Hu & Ha). exists (if p u then f u else u). split; [by apply update_where_in|].
  destruct (p u) eqn:E; [by apply Hf|done].
Qed.
Lemma has_admin_insert {A} (get : AuthDb -> list A) with_ dup mk :
  (forall l d, has_admin d -> has_admin (with_ (fun x => x ++ l) d)) -> preserves has_admin (insert get with_ dup mk).
Proof. intros Hw. apply preserves_insert. intros d i Hd _. destruct (Hw [mk i] d Hd) as (u & Hu & Ha). by exists u. Qed.

Definition caller_of (c : Call) : option User :=
  match c with
  | CreateUser _ _ _ _ _ u | UpdateUser _ _ _ u | DeleteUser _ u | ActivateUser _ u => Some u
  | _ => None
  end.
(** The caller is the row of an active account, as [get_current_user] returns it. *)
Definition authentic (c : Call) (d : AuthDb) : Prop :=
  match caller_of c with Some u => In u (users d) /\ is_active u = Some true | None => True end.
(** Not an update by which the caller sets its own [is_active] to null. *)
Definition not_self_null (c : Call) : Prop :=
  match c with UpdateUser _ i p u => i = u_id u -> up_is_active p <> Some None | _ => True end.

Lemma other_handlers_keep_admin c : caller_of c = None -> preserves has_admin (handler c).
Proof.
  intros Hc. destruct c; try discriminate Hc; simpl; unfold ignore;
    unfold login, authenticate_user, write_lock, refresh_token, issue_access_token, issue_tokens, start_session, get_current_user,
      verify_api_key, enforce_api_key_scope, record_scope_violation, revoke_my_session, revoke_my_other_sessions, revoke,
      revoke_user_session, revoke_all_user_sessions, request_password_reset, confirm_password_reset, sso_callback, sso_user,
      claim_code, sso_exchange, update_my_profile, change_my_password, upload_my_avatar, delete_my_avatar,
      create_api_key, revoke_api_key, generate_key, update_user_row, issue_tokens, start_session, claim_code;
    repeat (preserve; try done;
            match goal with
            | |- preserves _ (insert _ _ _ _) => apply has_admin_insert; intros ? ? (x & Hx & Ha); exists x; simpl; rewrite ?in_app_iff; tauto
            | |- preserves _ (let '(_, _) := ?x in _) => destruct x
            | |- has_admin (with_users _ _) => apply has_admin_update; [|done]; intros ? _ _ []; split; unfold set_if; repeat case_match; done
            | _ => idtac
            end).
Qed.

(** C8: User management never locks the platform out: while some account is an
    active super_admin, no request leaves none (creating, updating, deactivating
    and activating accounts act for an active account; a caller does not set its
    own [is_active] to null). *)
Theorem superadmin_kept c d :
  1 <= active_superadmins d -> authentic c d -> not_self_null c -> 1 <= active_superadmins (after c d).
Proof.
  rewrite <- !has_admin_count. intros Hd Hauth Hnull. unfold after.
  destruct (caller_of c) as [u|] eqn:Ec; [|by apply (other_handlers_keep_admin c Ec (clean d))].
  unfold authentic in Hauth. rewrite Ec in Hauth. destruct Hauth as [Hin Hact].
  destruct c; try discriminate Ec; injection Ec as ->; simpl; rewrite ?ignore_base; unfold create_user, update_user, delete_user, activate_user,
    check_role, update_user_row, clean.
  all: destruct (decide (role u = "super_admin")) as [Hr|Hr]; [|by rewrite bool_decide_false by set_solver].
  all: rewrite bool_decide_true by set_solver; mrun.
  - destruct (existsb _ (users d)); [done|]. rewrite run_insert. destruct (existsb _ _); [done|]. mrun. simpl.
    exists u. split; [apply in_or_app; by left|done].
  - destruct (find_user user_id d) as [x|] eqn:Ef; [|done]. unfold find_user in Ef. apply List.find_some in Ef as [_ Ex%Z.eqb_eq].
    subst user_id. repeat (match goal with |- context [if ?b then mraise _ else _] => destruct b eqn:?; [done|] end).
    destruct (applied hashpw salt p) as [f|e] eqn:Eap; mrun; [|done].
    match goal with |- context [if ?b then mraise _ else _] => destruct b; [done|] end. mrun. simpl.
    exists (if u_id u =? u_id x then f u else u). split; [apply (update_where_in (fun y => u_id y =? u_id x) f (users d) u Hin)|].
    destruct (Z.eqb_spec (u_id u) (u_id x)) as [E|_]; [|done].
    assert (u_id x =? u_id u = true) as Et by (by apply Z.eqb_eq). rewrite Et in *. cbn [andb] in *.
    specialize (Hnull (eq_sym E)). unfold applied in Eap. unfold admin.
    destruct (up_password p) as [[pw|]|], (up_role p) as [[r|]|]; try discriminate Eap; injection Eap as <-;
      destruct (up_is_active p) as [[[]|]|], (up_email p); simpl in *; try done; split; try done;
      repeat match goal with H : negb (bool_decide (_ = role u)) = false |- _ =>
        apply negb_false_iff, bool_decide_eq_true in H; subst end; done.
  - destruct (find_user user_id d) as [x|] eqn:Ef; [|done]. unfold find_user in Ef. apply List.find_some in Ef as [_ Ex%Z.eqb_eq].
    subst user_id. destruct (Z.eqb_spec (u_id x) (u_id u)) as [|Hne]; [done|]. destruct (_ && _); [done|]. mrun. simpl.
    exists u. split; [|done]. pose proof (update_where_in (fun y => u_id y =? u_id x) (set_active (Some false)) (users d) u Hin) as H.
    cbn beta in H. destruct (Z.eqb_spec (u_id u) (u_id x)) as [E|_]; [by rewrite E in Hne|exact H].
  - destruct (find_user user_id d) as [x|] eqn:Ef; [|done]. mrun. simpl. apply has_admin_update; [|done]. by intros ? _ _ [].
Qed.

(** * Accepted requests *)
Lemma decode_with_key now token keys last c : decode_with jwt_decode now token keys last = Ok c ->
  exists key, In key keys /\ jwt_decode now token key = Ok c.
Proof.
  revert last. induction keys as [|k keys IH]; intros last; simpl; [done|].
  destruct (jwt_decode now token k) as [c'|e] eqn:E; [intros [= <-]; eauto|].
  intros H. destruct (IH _ H) as (key & ? & ?). eauto.
Qed.
Lemma non_empty_some o x : non_empty o = Some x -> o = Some x.
Proof. destruct o as [s|]; simpl; [destruct (truthy s); congruence|done]. Qed.

(** The credential a principal names. *)
Definition by_session (now : Z) (token : string) (d : AuthDb) (u : User) (p : Principal) : Prop :=
  exists key c sid_ r, In key (sk :: rk) /\ jwt_decode now token key = Ok c /\
    c_sub c = Some (username u) /\ c_sid c = Some sid_ /\ p = mkPrincipal (u_id u) (Some sid_) None /\
    In r (sessions d) /\ sid r = sid_ /\ us_user_id r = u_id u /\ revoked_at r = None.
Definition by_key (now : Z) (env : option string) (request : Request) (token : string) (d : AuthDb) (u : User) (p : Principal) : Prop :=
  exists k, In k (api_keys d) /\ key_hash k = sha256 token /\ k_is_active k = Some true /\
    (forall t, k_expires_at k = Some t -> now <= t) /\ k_user_id k = u_id u /\
    p = mkPrincipal (u_id u) None (Some (k_id k)) /\
    (api_key_scopes_enforced env = true ->
     satisfies (granted_scopes k) (scope_required (Some (r_method request)) (r_path request)) = true).

Lemma is_true_some b : is_true b = true -> b = Some true.
Proof. by destruct b as [[]|]. Qed.
Lemma verify_api_key_run now token d r s : verify_api_key sha256 now token (clean d) = (Ok (Some r), s) ->
  exists k, In k (api_keys d) /\ key_hash k = sha256 token /\ k_is_active k = Some true /\
    (forall t, k_expires_at k = Some t -> now <= t) /\ r = use_key now k /\ users (sess_db s) = users d.
Proof.
  unfold verify_api_key. destruct (negb _); [done|]. unfold mbind at 1, mget. simpl.
  destruct (List.find _ (api_keys d)) as [k|] eqn:Ef; [|done].
  apply List.find_some in Ef as [Hk E]. rewrite andb_true_iff, bool_decide_eq_true in E. destruct E as [Eh Ea].
  destruct (match k_expires_at k with Some t => t <? now | None => false end) eqn:Ex; [done|].
  intros H. injection H as <- <-. exists k. split; [done|]. split; [done|]. split; [by apply is_true_some|].
  split; [|done]. intros t Et. rewrite Et in Ex. by apply Z.ltb_ge in Ex.
Qed.

(** C7: An authenticated request acts for an active account, and the principal
    recorded for it names the credential that was checked: a session of that
    account that is not revoked, named by a token one of the configured keys
    verifies; or an active, unexpired API key of that account whose scopes cover
    the method and route when enforcement is on. *)
Theorem authenticated_sound now env refused request token d u p s' :
  get_current_user sk rk jwt_decode sha256 now env refused request token (clean d) = (Ok (u, p), s') ->
  In u (users d) /\ is_active u = Some true /\
  (by_session now token d u p \/ startswith token "ukip_" = true /\ by_key now env request token d u p).
Proof.
  unfold get_current_user. destruct (startswith token "ukip_") eqn:Ek.
  - unfold mbind at 1. destruct (verify_api_key sha256 now token (clean d)) as [[[r|]|e] s1] eqn:Ev; try done.
    apply verify_api_key_run in Ev as (k & Hk & Eh & Ea & Hexp & -> & Eu). unfold mbind at 1, mget.
    destruct (find_active_id _ (sess_db s1)) as [x|] eqn:Ef; [|done].
    unfold find_active_id in Ef. apply List.find_some in Ef as [Hx Ex]. rewrite Eu in Hx.
    apply andb_prop in Ex as [Ei%Z.eqb_eq Eact]. unfold mbind at 1.
    destruct (enforce_api_key_scope env refused (use_key now k) _ _ s1) as [[[]|e] s2] eqn:Een; [|done].
    intros E. injection E as <- <- _. split; [done|]. split; [by apply is_true_some|]. right. split; [done|].
    exists k. repeat (split; [done|]). intros Henf. unfold enforce_api_key_scope in Een.
    change (granted_scopes (use_key now k)) with (granted_scopes k) in Een.
    destruct (satisfies _ _) eqn:Esat; [done|]. exfalso. rewrite Henf in Een. unfold mbind in Een.
    by destruct (record_scope_violation _ _ _ _ _ _ _ s1) as [[[]|e] s3].
  - destruct (named_session sk rk jwt_decode now token) as [[name sid_]|] eqn:En; [|done].
    unfold mbind, mget. simpl. destruct (user_for_live_session name sid_ d) as [x|] eqn:Ef; [|done].
    intros E. injection E as <- <- _. unfold user_for_live_session in Ef. apply List.find_some in Ef as [Hx Ex].
    rewrite !andb_true_iff, bool_decide_eq_true in Ex. destruct Ex as [[Ename Eact] (r & Hr & Hl)%existsb_exists].
    split; [done|]. split; [by apply is_true_some|]. left. unfold named_session, decode_token in En.
    destruct (decode_with _ _ _ _ _) as [c|e] eqn:Ed; [|done]. apply decode_with_key in Ed as (key & Hkey & Hdec).
    destruct (non_empty (c_sub c)) as [n'|] eqn:E1; [|done]. destruct (non_empty (c_sid c)) as [s''|] eqn:E2; [|done].
    injection En as -> ->. apply non_empty_some in E1, E2. unfold live_row in Hl.
    rewrite !andb_true_iff, !bool_decide_eq_true in Hl. destruct Hl as [[El1%Z.eqb_eq El2] El3].
    exists key, c, sid_, r. rewrite Ename. done.
Qed.
End claims.

(** * A concrete instance *)
Definition demo_encode (c : Claims) (key : string) : string :=
  let part o := match o with Some s => s | None => "" end in
  join ":" [key; part (c_type c); part (c_sub c); part (c_sid c); part (c_role c)].
Definition demo_decode (now : Z) (token key : string) : res Claims :=
  match split_on ":" token with
  | [k; ty; sub; sid_; ro] =>
      if bool_decide (k = key) then Ok (mkClaims (Some sub) (Some ro) (Some sid_) 0 (Some ty))
      else Raise (Exn "InvalidSignatureError" "Signature verification failed")
  | _ => Raise (Exn "DecodeError" "Not enough segments")
  end.
Definition demo_sha (s : string) : string := ("#" ++ s)%string.
Definition demo_check (plain hashed : string) : res bool := Ok (bool_decide (hashed = ("h" ++ plain)%string)).
Definition demo_hash (salt s : string) : string := ("h" ++ s)%string.
Definition demo_iso (t : Z) : string := str_of_Z t.

Definition ana : User := mkUser 1 "ana" (Some "ana@uba.ar") "hsecret" "super_admin" (Some true) (Some 0) None None None None.
Definition demo_session (revoked : option Z) : UserSession := mkUserSession 1 "s1" 1 0 0 (Some 604800) revoked None None None.
Definition demo_db (revoked : option Z) : AuthDb :=
  mkAuthDb [ana] [demo_session revoked] [mkOneTime 1 1 "#token" 1800 None] [mkOneTime 1 1 "#code" 60 None]
    [mkApiKey 1 1 "ci" "ukip_abc" "#ukip_abc" (Some "[]") None None (Some true) 0] [] 10.
Notation bearer := "k:access:ana:s1:super_admin".
Notation demo_history := (history "k" [] demo_encode demo_decode demo_sha demo_check demo_hash demo_iso).

Definition demo_calls : list Call :=
  [Login 10 11 "s2" None "ana" "secret"; ChangePassword "" "secret" "other" ana; Refresh 20 "k:refresh:ana:s2:super_admin"].

Lemma revocation_is_final_witness :
  get_current_user "k" [] demo_decode demo_sha 50 None false (mkRequest "GET" "/entities") bearer
    (clean (demo_history demo_calls (demo_db (Some 5)))) = (Raise credentials_exc, clean (demo_history demo_calls (demo_db (Some 5)))).
Proof.
  assert (Hdead : dead "s1" (sessions (demo_db (Some 5)))).
  { split; [exists (demo_session (Some 5)); split; [by left|reflexivity]|]. intros r [<-|[]] _. discriminate. }
  apply (revocation_is_final "k" [] demo_encode demo_decode demo_sha demo_check demo_hash demo_iso demo_calls
    (demo_db (Some 5)) "s1" Hdead 50 None false (mkRequest "GET" "/entities") bearer
    (mkClaims (Some "ana") (Some "super_admin") (Some "s1") 0 (Some "access"))); vm_compute; reflexivity.
Defined.

Lemma one_time_secrets_witness :
  let s1 := snd (claim_code 10 (demo_sha "code") (clean (demo_db None))) in
  let s2 := snd (confirm_password_reset demo_sha demo_hash 10 "" "token" "newsecret" (clean (demo_db None))) in
  fst (sso_exchange "k" demo_encode demo_sha 20 "s3" "code" None (clean (demo_history demo_calls (sess_base s1)))) = Raise sso_exc /\
  fst (confirm_password_reset demo_sha demo_hash 20 "" "token" "again1234" (clean (demo_history demo_calls (sess_base s2)))) = Raise reset_exc.
Proof.
  assert (Hn : NoDup ["#code"] /\ NoDup ["#token"]) by (split; apply (bool_decide_unpack _); vm_compute; exact I).
  pose proof (one_time_secrets "k" [] demo_encode demo_decode demo_sha demo_check demo_hash demo_iso demo_calls
    (demo_db None) (proj1 Hn) (proj2 Hn)) as [H1 H2]. split.
  - eapply (H1 10 "code"). left. exists 1. split; [vm_compute; reflexivity|discriminate].
  - rewrite (H2 10 "" "token" "newsecret" _ ltac:(vm_compute; reflexivity)). reflexivity.
Defined.

Definition demo_attempts : list (Z * Z * string) :=
  [(1, 1, "a"); (2, 2, "b"); (3, 3, "c"); (4, 4, "d"); (5, 5, "e"); (6, 6, "f"); (906, 906, "g")].
Lemma lockout_bounds_guessing_witness :
  map is_ok (answers demo_check demo_iso "ana" demo_attempts (demo_db None)) = [true; true; true; true; true; false; true] /\
  count_where is_ok (answers demo_check demo_iso "ana" demo_attempts (demo_db None)) <= 5 + 5 * (1000 / 900) /\
  Forall failed_or_locked (answers demo_check demo_iso "ana" demo_attempts (demo_db None)).
Proof.
  split; [vm_compute; reflexivity|].
  apply (lockout_bounds_guessing demo_check demo_iso "ana" demo_attempts (demo_db None) ana 0 1000);
    [reflexivity|reflexivity|simpl; lia|lia|simpl; lia|].
  repeat constructor.
Defined.

Definition bob : User := mkUser 2 "bob" None "hx" "super_admin" (Some true) (Some 0) None None None None.
Lemma superadmin_kept_witness :
  let d := mkAuthDb [ana; bob] [] [] [] [] [] 10 in
  1 <= active_superadmins (after "k" [] demo_encode demo_decode demo_sha demo_check demo_hash demo_iso (DeleteUser 2 ana) d).
Proof.
  apply (superadmin_kept "k" [] demo_encode demo_decode demo_sha demo_check demo_hash demo_iso (DeleteUser 2 ana)
    (mkAuthDb [ana; bob] [] [] [] [] [] 10)); [vm_compute; discriminate|split; [by left|reflexivity]|exact I].
Defined.

Lemma authenticated_sound_witness :
  In ana (users (demo_db None)) /\ is_active ana = Some true /\
  (by_session "k" [] demo_decode 50 bearer (demo_db None) ana (mkPrincipal 1 (Some "s1") None) \/
   startswith bearer "ukip_" = true /\
   by_key demo_sha 50 None (mkRequest "GET" "/entities") bearer (demo_db None) ana (mkPrincipal 1 (Some "s1") None)).
Proof.
  eapply (authenticated_sound "k" [] demo_decode demo_sha 50 None false (mkRequest "GET" "/entities")).
  vm_compute. reflexivity.
Defined.

(** ** What the code does at the edges *)

(** A refresh token, which lives seven days, is accepted as a bearer token. *)
Lemma refresh_token_authenticates :
  fst (get_current_user "k" [] demo_decode demo_sha 50 None false (mkRequest "GET" "/entities")
         (create_refresh_token "k" demo_encode 0 "ana" "super_admin" "s1" None) (clean (demo_db None)))
  = Ok (ana, mkPrincipal 1 (Some "s1") None).
Proof. vm_compute. reflexivity. Qed.

(** The last super_admin deactivates itself by sending [is_active: null]. *)
Lemma null_deactivates_last_superadmin :
  let d := demo_db None in
  active_superadmins d = 1 /\
  active_superadmins (after "k" [] demo_encode demo_decode demo_sha demo_check demo_hash demo_iso
    (UpdateUser "" 1 (mkUserUpdate None None None (Some None)) ana) d) = 0.
Proof. split; vm_compute; reflexivity. Qed.

(** Neither a password change nor a reset revokes the sessions of the account:
    a token issued before it still authenticates. *)
Lemma password_reset_keeps_sessions :
  let s := snd (confirm_password_reset demo_sha demo_hash 10 "" "token" "newsecret" (clean (demo_db None))) in
  is_ok (fst (get_current_user "k" [] demo_decode demo_sha 50 None false (mkRequest "GET" "/entities") bearer
                (clean (sess_base s)))) = true.
Proof. vm_compute. reflexivity. Qed.
