(* ===== verification/AuthorityJobs.v ===== *)
(** * Batch authority resolution (src/backend/authority)

    The enqueue on ingest (auto_enqueue.py), the resolution of a field's
    distinct values (batch_resolution.py, hierarchical_fallback.py), the worker
    that drains the jobs (batch_worker.py) and the route that asks for a batch
    (routers/authority.py). The resolver of a value is a
    parameter, which may raise. Confidences are in thousandths. *)
From S2P Require Import Prelude PyStr PyJson PyValue TenantAccess JobsApi Entities Normalize AuthorityCache.
From Stdlib Require Import Ascii String DecimalString DecimalZ.

Local Open Scope string_scope.
Local Open Scope list_scope.
Local Open Scope Z_scope.
Local Open Scope py_scope.

(** * Rows *)
Record AuthorityRecord := mkRecord {
  ar_org : option Z; ar_field : string; ar_value : string; ar_source : string; ar_authority_id : string; ar_label : string;
  ar_aliases : string; ar_description : option string; ar_confidence : Z; ar_uri : option string; ar_status : string;
  ar_resolution : string; ar_breakdown : string; ar_evidence : string; ar_merged : string; ar_distance : option Z }.
Record ResolveJob := mkJob {
  job_id : Z; job_org : option Z; job_field : string; job_type : string; job_params : option string; job_status : string;
  job_total : Z; job_processed : Z; job_created : Z; job_error : option string; job_finished : option Z }.
#[export] Instance ResolveJob_eq_dec : EqDecision ResolveJob.
Proof. solve_decision. Defined.
Record AuthorityDb := mkAuthorityDb {
  entities : list Entity; records : list AuthorityRecord; resolve_jobs : list ResolveJob; job_seq : Z }.

Definition with_records (f : list AuthorityRecord -> list AuthorityRecord) (d : AuthorityDb) : AuthorityDb :=
  mkAuthorityDb (entities d) (f (records d)) (resolve_jobs d) (job_seq d).
Definition with_jobs (f : list ResolveJob -> list ResolveJob) (d : AuthorityDb) : AuthorityDb :=
  mkAuthorityDb (entities d) (records d) (f (resolve_jobs d)) (job_seq d).
Definition set_status (s : string) (j : ResolveJob) : ResolveJob :=
  mkJob (job_id j) (job_org j) (job_field j) (job_type j) (job_params j) s (job_total j) (job_processed j) (job_created j)
        (job_error j) (job_finished j).
Definition set_progress (total processed created : Z) (j : ResolveJob) : ResolveJob :=
  mkJob (job_id j) (job_org j) (job_field j) (job_type j) (job_params j) (job_status j) total processed created
        (job_error j) (job_finished j).
Definition finish (s : string) (error : option string) (now : Z) (j : ResolveJob) : ResolveJob :=
  mkJob (job_id j) (job_org j) (job_field j) (job_type j) (job_params j) s (job_total j) (job_processed j) (job_created j)
        error (Some now).
Definition on_job (i : Z) (f : ResolveJob -> ResolveJob) : M AuthorityDb unit :=
  mmodify (with_jobs (update_where (fun j => job_id j =? i) f)).

(** First occurrences, in order. *)
Fixpoint distinct (seen l : list string) : list string :=
  match l with
  | [] => []
  | x :: l => if bool_decide (x ∈ seen) then distinct seen l else x :: distinct (x :: seen) l
  end.

(** * Values to resolve (batch_resolution.py) *)
Definition InvalidFieldError (msg : string) : exn := Exn "InvalidFieldError" msg.
Definition distinct_values (columns : list string) (field : string) (org_id : option Z) (entity_type_filter : option string)
    (d : AuthorityDb) : res (list string) :=
  if negb (bool_decide (field ∈ columns))
  then Raise (InvalidFieldError ("Field '" ++ field ++ "' not found in entity table"))
  else
    let rows := List.filter (fun e => match column field e with Some v => negb (bool_decide (v = "")) | None => false end) (entities d) in
    let rows := scoped en_org org_id rows in
    let rows := match entity_type_filter with
                | Some t => if truthy t then List.filter (fun e => bool_decide (column "entity_type" e = Some t)) rows else rows
                | None => rows
                end in
    Ok (List.filter truthy (distinct [] (omap (column field) rows))).

Definition PUB_AUTHORS : string := "publication_authors".
Definition PUB_AFFILIATIONS : string := "publication_affiliations".
Definition PUB_SCAN_LIMIT : nat := 2000.

(** [x or []] *)
Definition or_empty (v : json) : json := if py_true v then v else JArr [].
(** A stripped non-empty string member of a dict. *)
Definition name_member (k : string) (v : json) : option string :=
  match v with
  | JObj m => match dict_get k m with
              | Some (JStr n) => if truthy (strip n) then Some (strip n) else None
              | _ => None
              end
  | _ => None
  end.
Definition member (k : string) (m : list (string * json)) : json := match dict_get k m with Some v => v | None => JNull end.

Definition names_from_attrs (attrs : list (string * json)) (value_source : string) : res (list string) :=
  if bool_decide (value_source = PUB_AUTHORS) then
    let? items := iterate (or_empty (member "author_affiliations" attrs)) in Ok (omap (name_member "author_name") items)
  else if bool_decide (value_source = PUB_AFFILIATIONS) then
    let? items := iterate (or_empty (member "canonical_affiliations" attrs)) in Ok (omap (name_member "name") items)
  else Ok [].

(** The publications' attributes: text that does not decode and values that are
    no dict are passed over. *)
Definition publication_attrs (org_id : option Z) (scan_limit : nat) (d : AuthorityDb) : list (list (string * json)) :=
  let rows := List.filter (fun e => bool_decide (column "entity_type" e = Some "publication")
                                    && match column "attributes_json" e with Some _ => true | None => false end)
                          (scoped en_org org_id (entities d)) in
  omap (fun e => match column "attributes_json" e with
                 | Some raw => if truthy raw then match loads raw with Some (JObj m) => Some m | _ => None end else Some []
                 | None => None
                 end) (firstn scan_limit rows).
Fixpoint concat_names (l : list (list (string * json))) (value_source : string) : res (list string) :=
  match l with
  | [] => Ok []
  | a :: l => let? ns := names_from_attrs a value_source in let? rest := concat_names l value_source in Ok (ns ++ rest)
  end.
Definition distinct_values_from_publication_attrs (org_id : option Z) (value_source : string) (d : AuthorityDb)
  : res (list string) :=
  let? names := concat_names (publication_attrs org_id PUB_SCAN_LIMIT d) value_source in Ok (distinct [] names).

(** [_publication_author_hints], the ORCID a name is first seen with; the
    affiliation, which no caller reads, is what [insts[0]] may raise on. *)
Definition first_institution (aa : list (string * json)) : res (option string) :=
  match or_empty (member "institutions" aa) with
  | JArr [] => Ok None
  | JArr (x :: _) => Ok (name_member "name" x)
  | JStr _ => Ok None
  | JObj _ => Raise (Exn "KeyError" "0")
  | v => Raise (Exn "TypeError" ("'" ++ type_name v ++ "' object is not subscriptable"))
  end.
Definition Hints : Type := list (string * (option string * option string)).
Definition add_hint (hints : Hints) (aa : json) : res Hints :=
  match name_member "author_name" aa, aa with
  | Some name, JObj m =>
      let entry := match dict_get name hints with Some e => e | None => (None, None) end in
      let orcid := match entry.1 with Some o => Some o | None => name_member "author_orcid" aa end in
      let? affiliation := (match entry.2 with Some a => Ok (Some a) | None => first_institution m end) in
      Ok (dict_set name (orcid, affiliation) hints)
  | _, _ => Ok hints
  end.
Fixpoint add_hints (hints : Hints) (items : list json) : res Hints :=
  match items with
  | [] => Ok hints
  | aa :: items => let? hints := add_hint hints aa in add_hints hints items
  end.
Fixpoint hints_of (hints : Hints) (l : list (list (string * json))) : res Hints :=
  match l with
  | [] => Ok hints
  | a :: l =>
      let? items := iterate (or_empty (member "author_affiliations" a)) in
      let? hints := add_hints hints items in hints_of hints l
  end.
Definition publication_author_hints (org_id : option Z) (d : AuthorityDb) : res Hints :=
  hints_of [] (publication_attrs org_id PUB_SCAN_LIMIT d).

(** * Hierarchical fallback (hierarchical_fallback.py) *)
Definition SUPPORTED_ENTITY_TYPES : list string := ["concept"; "institution"; "organization"].
Definition SUPPORTED_SOURCES : list string := ["wikidata"; "dbpedia"; "openalex"].
Definition STOPWORDS : list string := ["a"; "an"; "and"; "de"; "del"; "for"; "in"; "la"; "las"; "los"; "of"; "the"; "y"].
(** [re.compile("[a-z0-9]+").findall] *)
Definition token_char (c : ascii) : bool :=
  let n := code c in ((97 <=? n) && (n <=? 122) || (48 <=? n) && (n <=? 57))%N.
Fixpoint find_tokens (acc : list ascii) (l : list ascii) : list string :=
  match l with
  | [] => match acc with [] => [] | _ => [of_chars (rev acc)] end
  | c :: l =>
      if token_char c then find_tokens (c :: acc) l
      else match acc with [] => find_tokens [] l | _ => of_chars (rev acc) :: find_tokens [] l end
  end.
Definition tokenize (value : string) : list string :=
  List.filter (fun t => truthy t && negb (bool_decide (t ∈ STOPWORDS))) (find_tokens [] (chars (normalize_name value))).

Definition with_fallback (distance : Z) (c : AuthorityCandidate) : AuthorityCandidate :=
  mkCandidate (authority_source c) (authority_id c) (canonical_label c) (aliases c) (description c) (confidence c) (uri c)
    (score_breakdown c)
    (distinct [] (evidence c ++ ["hierarchical_fallback:" ++ authority_source c; "hierarchy_distance:" ++ str_of_Z distance]%string))
    "partial_ancestor_match" (merged_sources c) (Some distance).
Definition fallback_one (query : list string) (c : AuthorityCandidate) : AuthorityCandidate :=
  let tokens := distinct [] (tokenize (canonical_label c)) in
  let distance := Z.of_nat (List.length (List.filter (fun t => negb (bool_decide (t ∈ tokens))) query)) in
  if negb (bool_decide (authority_source c ∈ SUPPORTED_SOURCES)) then c
  else if bool_decide (resolution_status c = "exact_match") then c
  else if bool_decide (tokens = []) then c
  else if negb (forallb (fun t => bool_decide (t ∈ query)) tokens) then c
  else if (distance <=? 0) || (3 <? distance) then c
  else if confidence c <? 350 then c
  else with_fallback distance c.
Definition apply_hierarchical_fallback (value entity_type : string) (candidates : list AuthorityCandidate)
  : list AuthorityCandidate :=
  if negb (bool_decide (entity_type ∈ SUPPORTED_ENTITY_TYPES)) then candidates
  else
    let query_tokens := tokenize value in
    if (List.length query_tokens <? 2)%nat then candidates
    else map (fallback_one (distinct [] query_tokens)) candidates.

(** * The resolution loop *)
Section batch.
Context (columns : list string).
(** [resolve_fn value entity_type context], the context being its ORCID hint. *)
Context (resolve_fn : string -> string -> option string -> res (list AuthorityCandidate)).

Definition OPEN_RECORD : list string := ["pending"; "confirmed"].
Definition covers (field value : string) (r : AuthorityRecord) : bool :=
  bool_decide (ar_field r = field) && bool_decide (ar_value r = value) && bool_decide (ar_status r ∈ OPEN_RECORD).

Definition new_record (org : option Z) (field value : string) (c : AuthorityCandidate) : AuthorityRecord :=
  mkRecord org field value (authority_source c) (authority_id c) (canonical_label c) (dumps false (j_strs (aliases c)))
    (description c) (confidence c) (uri c) "pending" (resolution_status c)
    (dumps false (JObj (map (fun kv => (kv.1, JInt kv.2)) (score_breakdown c)))) (dumps false (j_strs (evidence c)))
    (dumps false (j_strs (merged_sources c))) (hierarchy_distance c).

(** The records of one value. *)
Definition records_for (org : option Z) (field entity_type : string) (hints : Hints) (value : string)
  : res (list AuthorityRecord) :=
  let orcid := match dict_get value hints with Some (Some o, _) => Some o | _ => None end in
  let? candidates := resolve_fn value entity_type orcid in
  Ok (map (new_record org field value) (apply_hierarchical_fallback value entity_type candidates)).

Fixpoint resolve_values (org : option Z) (field entity_type : string) (hints : Hints)
    (progress : Z -> Z -> Z -> M AuthorityDb unit) (total idx created : Z) (values : list string) : M AuthorityDb Z :=
  match values with
  | [] => mret created
  | value :: values =>
      do! recs <- mlift (records_for org field entity_type hints value);
      run! mmodify (with_records (fun l => l ++ recs));
      let created := created + Z.of_nat (List.length recs) in
      run! progress idx total created;
      resolve_values org field entity_type hints progress total (idx + 1) created values
  end.

Record Summary := mkSummary { resolved_count : Z; skipped_count : Z; already_existed_count : Z; records_created : Z }.
(** [seq[:limit]]: a negative limit cuts from the end. *)
Definition slice_to {A} (limit : Z) (l : list A) : list A :=
  if limit <? 0 then firstn (List.length l - Z.to_nat (- limit)) l else firstn (Z.to_nat limit) l.

Definition is_pub_source (value_source : option string) : bool :=
  bool_decide (value_source = Some PUB_AUTHORS) || bool_decide (value_source = Some PUB_AFFILIATIONS).
Definition all_values_of (org_id : option Z) (field : string) (entity_type_filter value_source : option string)
    (d : AuthorityDb) : res (list string) :=
  match value_source with
  | Some vs => if is_pub_source value_source then distinct_values_from_publication_attrs org_id vs d
               else distinct_values columns field org_id entity_type_filter d
  | None => distinct_values columns field org_id entity_type_filter d
  end.
Definition hints_for (org_id : option Z) (value_source : option string) (d : AuthorityDb) : res Hints :=
  if bool_decide (value_source = Some PUB_AUTHORS) then publication_author_hints org_id d else Ok [].

Definition not_covered (org_id : option Z) (field : string) (d : AuthorityDb) (values : list string) : list string :=
  let existing := scoped ar_org org_id (records d) in
  List.filter (fun v => negb (existsb (covers field v) existing)) values.

Definition execute_batch_resolution (org_id record_org_id : option Z) (field entity_type : string) (limit : Z)
    (skip_existing : bool) (progress : Z -> Z -> Z -> M AuthorityDb unit) (entity_type_filter value_source : option string)
  : M AuthorityDb Summary :=
  do! d <- mget;
  do! all_values <- mlift (all_values_of org_id field entity_type_filter value_source d);
  do! hints <- mlift (hints_for org_id value_source d);
  let filtered := if skip_existing then not_covered org_id field d all_values else all_values in
  let to_resolve := slice_to limit filtered in
  let total := Z.of_nat (List.length to_resolve) in
  do! created <- resolve_values record_org_id field entity_type hints progress total 1 0 to_resolve;
  mret (mkSummary total (Z.of_nat (List.length filtered) - total)
          (Z.of_nat (List.length all_values) - Z.of_nat (List.length filtered)) created).

(** * The worker (batch_worker.py) *)
Definition reset_stale_jobs : M AuthorityDb Z :=
  do! d <- mget;
  run! mmodify (with_jobs (update_where (fun j => bool_decide (job_status j = "processing")) (set_status "pending")));
  run! commit;
  mret (count_where (fun j => bool_decide (job_status j = "processing")) (resolve_jobs d)).

Definition oldest_pending (d : AuthorityDb) : option ResolveJob :=
  hd_error (sort_by (fun a b => job_id a <=? job_id b)
              (List.filter (fun j => bool_decide (job_status j = "pending")) (resolve_jobs d))).
(** [others] is what other workers commit between the SELECT and the UPDATE. *)
Definition claim_one (others : AuthorityDb -> AuthorityDb) : M AuthorityDb (option ResolveJob) :=
  do! d <- mget;
  match oldest_pending d with
  | None => mret None
  | Some job =>
      run! interfere others;
      do! d <- mget;
      let hit j := (job_id j =? job_id job) && bool_decide (job_status j = "pending") in
      run! mmodify (with_jobs (update_where hit (set_status "processing")));
      run! commit;
      if negb (count_where hit (resolve_jobs d) =? 1) then mret None
      else do! d <- mget;
           mret (List.find (fun j => job_id j =? job_id job) (resolve_jobs d))
  end.

(** The parameters of a job; a text that is no JSON object raises. *)
Record Params := mkParams { pr_limit : Z; pr_skip : bool; pr_filter : option string; pr_source : option string }.
Definition str_or_none (v : json) : option string :=
  match v with JStr s => if truthy s then Some s else None | _ => None end.
Definition int_of (v : json) : res Z :=
  match as_int v with
  | Some z => Ok z
  | None => match v with
            | JStr s => match NilEmpty.int_of_string (strip s) with
                        | Some i => Ok (Z.of_int i)
                        | None => Raise (Exn "ValueError" ("invalid literal for int() with base 10: " ++ repr_str s))
                        end
            | _ => Raise (Exn "TypeError" ("int() argument must be a string, a bytes-like object or a real number, not '"
                                           ++ type_name v ++ "'"))
            end
  end.
Definition job_parameters (job : ResolveJob) : res Params :=
  let? params := (match job_params job with
                  | None | Some "" => Ok (JObj [])
                  | Some raw => match loads raw with Some v => Ok v | None => Raise (Exn "JSONDecodeError" "Expecting value") end
                  end) in
  let? l := get_or "limit" (JInt 100) params in
  let? limit := int_of l in
  let? skip := get_or "skip_existing" (JBool false) params in
  let? f := get_or "entity_type_filter" JNull params in
  let? s := get_or "value_source" JNull params in
  Ok (mkParams limit (py_true skip) (str_or_none f) (str_or_none s)).

Definition exn_text (e : exn) : string := match e with Exn _ m => m | HTTPException _ d => d end.
Definition job_progress (job : ResolveJob) (processed total created : Z) : M AuthorityDb unit :=
  run! on_job (job_id job) (set_progress total processed created); commit.
Definition run_job (now : Z) (job : ResolveJob) : M AuthorityDb unit :=
  do! p <- mlift (job_parameters job);
  mtry (do! summary <- execute_batch_resolution (job_org job) (persisted_org_id (job_org job)) (job_field job) (job_type job)
                         (pr_limit p) (pr_skip p) (job_progress job) (pr_filter p) (pr_source p);
        run! commit;
        run! on_job (job_id job) (fun j => finish "done" (job_error j) now
                                    (set_progress (resolved_count summary) (resolved_count summary) (records_created summary) j));
        commit)
       (fun exc =>
        run! rollback;
        run! on_job (job_id job) (finish "failed" (Some (take_str 2000 (exn_text exc))) now);
        commit).

(** One iteration of the worker's loop; closing the session drops what was not
    committed, and an exception is logged. *)
Definition worker_iteration (now : Z) (others : AuthorityDb -> AuthorityDb) : M AuthorityDb unit :=
  mtry (do! job <- claim_one others;
        match job with
        | Some job => run_job now job
        | None => mret tt
        end)
       (fun _ => mret tt).
End batch.

(** * Enqueue on ingest (auto_enqueue.py) *)
Definition ENTITY_TYPE_PLAN : list (string * string) := [("author", "person"); ("affiliation", "institution")].
Definition FIELD : string := "primary_label".
Definition DEFAULT_LIMIT : Z := 500.
Definition auto_resolve_enabled (env : option string) : bool :=
  bool_decide (lower (strip (match env with Some s => s | None => "0" end)) ∈ ["1"; "true"; "yes"; "on"]).

Definition OPEN_JOB : list string := ["pending"; "processing"].
Definition open_for (org : option Z) (entity_type field : string) (j : ResolveJob) : bool :=
  bool_decide (job_org j = org) && bool_decide (job_field j = field) && bool_decide (job_type j = entity_type)
  && bool_decide (job_status j ∈ OPEN_JOB).
Definition has_open_job (org_id : option Z) (entity_type field : string) (d : AuthorityDb) : bool :=
  existsb (open_for (persisted_org_id org_id) entity_type field) (resolve_jobs d).

Definition has_unresolved_values (org_id : option Z) (entity_type_filter : string) (d : AuthorityDb) : bool :=
  existsb (fun e =>
      bool_decide (column "entity_type" e = Some entity_type_filter)
      && match column "primary_label" e with
         | Some v => negb (bool_decide (v = "")) && negb (existsb (covers FIELD v) (scoped ar_org org_id (records d)))
         | None => false
         end) (scoped en_org org_id (entities d)).

(** [db.add(job); db.flush()]. *)
Definition add_job (mk : Z -> ResolveJob) : M AuthorityDb Z :=
  do! d <- mget;
  let i := job_seq d + 1 in
  run! mmodify (fun d => mkAuthorityDb (entities d) (records d) (resolve_jobs d ++ [mk i]) i);
  mret i.
Definition new_job (org : option Z) (field entity_type params : string) (i : Z) : ResolveJob :=
  mkJob i org field entity_type (Some params) "pending" 0 0 0 None None.

(** The loop of both functions over their plan: [refuses] is what a statement
    raises; a failing statement rolls the transaction back. *)
Fixpoint enqueue_plan {P} (refuses : nat -> option exn) (i : nat) (skip : P -> AuthorityDb -> res bool) (mk : P -> Z -> ResolveJob)
    (plan : list P) (created : list Z) : M AuthorityDb (list Z) :=
  match plan with
  | [] => mret created
  | p :: plan =>
      do! d <- mget;
      do! skipped <- mlift (skip p d);
      if skipped then enqueue_plan refuses (S i) skip mk plan created
      else match refuses i with
           | Some e => run! rollback; mraise e
           | None => do! jid <- add_job (mk p);
                     enqueue_plan refuses (S i) skip mk plan (created ++ [jid])
           end
  end.

Definition entity_params (limit : Z) (entity_type_filter : string) : string :=
  dumps false (JObj [("limit", JInt limit); ("skip_existing", JBool true); ("entity_type_filter", JStr entity_type_filter)]).
Definition enqueue_entity_authority_jobs (env : option string) (refuses : nat -> option exn) (org_id : option Z) (limit : Z)
  : M AuthorityDb (list Z) :=
  if negb (auto_resolve_enabled env) then mret []
  else mtry (enqueue_plan refuses 0
               (fun p d => Ok (has_open_job org_id p.2 FIELD d || negb (has_unresolved_values org_id p.1 d)))
               (fun p => new_job (persisted_org_id org_id) FIELD p.2 (entity_params limit p.1)) ENTITY_TYPE_PLAN [])
            (fun _ => mret []).

Definition PUBLICATION_PLAN : list (string * string * string) :=
  [(PUB_AUTHORS, "author", "person"); (PUB_AFFILIATIONS, "affiliation", "institution")].
Definition uncovered_publication_values (org_id : option Z) (value_source field : string) (d : AuthorityDb) : res Z :=
  let? values := distinct_values_from_publication_attrs org_id value_source d in
  Ok (count_where (fun v => negb (existsb (covers field v) (scoped ar_org org_id (records d)))) values).
Definition publication_params (limit : Z) (value_source : string) : string :=
  dumps false (JObj [("limit", JInt limit); ("skip_existing", JBool true); ("value_source", JStr value_source)]).
Definition enqueue_publication_authority_jobs (env : option string) (refuses : nat -> option exn) (org_id : option Z) (limit : Z)
  : M AuthorityDb (list Z) :=
  if negb (auto_resolve_enabled env) then mret []
  else mtry (enqueue_plan refuses 0
               (fun p d => if has_open_job org_id p.2 p.1.2 d then Ok true
                           else let? n := uncovered_publication_values org_id p.1.1 p.1.2 d in Ok (n =? 0))
               (fun p => new_job (persisted_org_id org_id) p.1.2 p.2 (publication_params limit p.1.1)) PUBLICATION_PLAN [])
            (fun _ => mret []).

(** * The route that asks for a batch (routers/authority.py) *)
Section route.
Context (columns : list string) (resolve_fn : string -> string -> option string -> res (list AuthorityCandidate)).
Definition EDITORS : list string := ["super_admin"; "admin"; "editor"].
Record BatchRequest := mkBatch { br_field : string; br_type : string; br_limit : Z; br_skip : bool; br_source : option string }.
Definition field_head (c : ascii) : bool :=
  let n := code c in ((65 <=? n) && (n <=? 90) || (97 <=? n) && (n <=? 122) || (n =? 95))%N.
Definition field_char (c : ascii) : bool := field_head c || ((48 <=? code c) && (code c <=? 57))%N.
(** [_FIELD_RE]: the end of the text may be before a last line feed. *)
Definition field_re (s : string) : bool :=
  match chars s with
  | c :: l => field_head c && match rev l with
                              | n :: before => forallb field_char before && (field_char n || (code n =? 10)%N)
                              | [] => true
                              end
  | [] => false
  end.
Definition validate_field (field : string) : res unit :=
  if negb (field_re field) then Raise (InvalidFieldError ("Invalid field name: " ++ repr_str field))
  else if negb (bool_decide (field ∈ columns)) then Raise (InvalidFieldError ("Field '" ++ field ++ "' not found in entity table"))
  else Ok tt.
Definition PUB_SOURCES : list string := [PUB_AUTHORS; PUB_AFFILIATIONS].
Definition check_batch (payload : BatchRequest) (value_source : option string) : res unit :=
  match value_source with
  | Some vs =>
      if negb (bool_decide (vs ∈ PUB_SOURCES))
      then Raise (HTTPException 422 "value_source must be one of ('publication_authors', 'publication_affiliations')") else Ok tt
  | None => match validate_field (br_field payload) with Ok _ => Ok tt | Raise e => Raise (HTTPException 422 (exn_text e)) end
  end.
Definition batch_params (payload : BatchRequest) (value_source : option string) : string :=
  dumps false (JObj ([("limit", JInt (br_limit payload)); ("skip_existing", JBool (br_skip payload))]
                     ++ match value_source with Some vs => [("value_source", JStr vs)] | None => [] end)).
Definition source_of (payload : BatchRequest) : option string :=
  match br_source payload with Some vs => if truthy vs then Some vs else None | None => None end.
(** The job of a queued request, or the summary of one run inline. [refused]: what
    the commit of the new job raises, if anything. *)
Definition resolve_authority_batch (refused : option exn) (t : Tenants) (u : User) (payload : BatchRequest) (sync : bool)
  : M AuthorityDb (Z + Summary) :=
  do! _ <- mlift (require_role EDITORS u);
  do! org_id <- mlift (resolve_request_org_id t u true true);
  let value_source := source_of payload in
  run! mlift (check_batch payload value_source);
  if negb sync then
    match refused with
    | Some e => run! rollback; mraise e
    | None =>
        do! jid <- add_job (new_job (persisted_org_id org_id) (br_field payload) (br_type payload) (batch_params payload value_source));
        run! commit;
        mret (inl jid)
    end
  else
    do! summary <- execute_batch_resolution columns resolve_fn org_id (persisted_org_id org_id) (br_field payload) (br_type payload)
                     (br_limit payload) (br_skip payload) (fun _ _ _ => mret tt) None value_source;
    run! commit;
    mret (inr summary).
End route.
