(* ===== verification/AuthorityJobsClaims.v ===== *)
(** * Theorems on the batch authority jobs

    What an ingest enqueues never stands beside an open job of its organisation,
    field and type (what the batch route queues may); a run of a job is a pure
    reference function of its parameters, and always ends; a tenant's job
    works on that tenant's rows only; the worker drains the queue. The lemmas at
    the end are where the code and its comments part. *)
From S2P Require Import Prelude PyStr PyJson PyValue TenantAccess JobsApi Entities Normalize AuthorityCache AuthorityJobs.
From Stdlib Require Import Ascii String.

Local Open Scope string_scope.
Local Open Scope list_scope.
Local Open Scope Z_scope.
Local Open Scope py_scope.

(** * The open jobs *)
(** How many requests were made for an organisation, a type and a field. *)
Definition Asked : Type := option Z -> string -> string -> nat.
Definition jobs_wf (asked : Asked) (d : AuthorityDb) : Prop :=
  NoDup (map job_id (resolve_jobs d))
  /\ (forall j, In j (resolve_jobs d) -> job_id j <= job_seq d)
  /\ (forall org ty field, count_where (open_for org ty field) (resolve_jobs d) <= 1 + Z.of_nat (asked org ty field))
  /\ (forall j, In j (resolve_jobs d) -> is_ok (job_parameters j) = true).
Lemma jobs_wf_mono (a b : Asked) d : (forall org ty field, (a org ty field <= b org ty field)%nat) -> jobs_wf a d -> jobs_wf b d.
Proof. intros H (? & ? & Hn & ?). repeat split; try done. intros org ty field. specialize (Hn org ty field). specialize (H org ty field). lia. Qed.

Lemma count_where_le {A} (q p : A -> bool) (f : A -> A) l :
  (forall r, p r = true -> q (f r) = true -> q r = true) -> count_where q (update_where p f l) <= count_where q l.
Proof.
  intros H. induction l as [|r l IH]; [done|]. unfold update_where in *. cbn [map].
  rewrite !count_where_cons. destruct (p r) eqn:E.
  - destruct (q (f r)) eqn:Eq; [rewrite (H r E Eq); lia|destruct (q r); lia].
  - lia.
Qed.

Section invariant.
Context (asked : Asked).
Local Notation jobs_wf := (jobs_wf asked).

(** A rewriting of rows that opens none keeps the invariant. *)
Definition keeps_closed (f : ResolveJob -> ResolveJob) (p : ResolveJob -> bool) : Prop :=
  (forall j, job_id (f j) = job_id j /\ job_params (f j) = job_params j)
  /\ (forall j org ty field, p j = true -> open_for org ty field (f j) = true -> open_for org ty field j = true).
Lemma jobs_wf_update p f d : keeps_closed f p -> jobs_wf d -> jobs_wf (with_jobs (update_where p f) d).
Proof.
  intros [Hid Hopen] (Hnd & Hle & Hone & Hok). split; [|split; [|split]]; cbn.
  - rewrite update_where_map; [done|]. intros j. apply Hid.
  - intros j' (j & Hj & [[_ ->]| [_ ->]])%in_update_where; [rewrite (proj1 (Hid j))|]; by apply Hle.
  - intros org ty field. etransitivity; [|apply (Hone org ty field)]. apply count_where_le. eauto.
  - intros j' (j & Hj & [[_ ->]| [_ ->]])%in_update_where; [|by apply Hok].
    specialize (Hok j Hj). unfold job_parameters in *. by rewrite (proj2 (Hid j)).
Qed.
Lemma keeps_progress p t n c : keeps_closed (set_progress t n c) p.
Proof. done. Qed.
Lemma keeps_finish p s e now f : s ∉ OPEN_JOB -> (forall j, job_id (f j) = job_id j /\ job_params (f j) = job_params j) -> keeps_closed (fun j => finish s (e j) now (f j)) p.
Proof.
  intros Hs Hf. split; [intros j; apply Hf|]. intros j org ty field _. unfold open_for. cbn.
  by rewrite (bool_decide_eq_false_2 _ Hs), andb_false_r.
Qed.
Lemma keeps_reopen p s : (forall j, p j = true -> job_status j ∈ OPEN_JOB) -> keeps_closed (set_status s) p.
Proof.
  intros Hp. split; [done|]. intros j org ty field H. unfold open_for. cbn.
  rewrite (bool_decide_eq_true_2 _ (Hp j H)), !andb_true_r. intros H1. apply andb_prop in H1. tauto.
Qed.
Lemma jobs_wf_add mk d :
  (forall i, job_id (mk i) = i) ->
  (forall i, count_where (open_for (job_org (mk i)) (job_type (mk i)) (job_field (mk i))) (resolve_jobs d) = 0) ->
  (forall i, is_ok (job_parameters (mk i)) = true) ->
  jobs_wf d -> jobs_wf (mkAuthorityDb (entities d) (records d) (resolve_jobs d ++ [mk (job_seq d + 1)]) (job_seq d + 1)).
Proof.
  intros Hid Hnone Hpar (Hnd & Hle & Hone & Hok). split; [|split; [|split]]; cbn.
  - rewrite map_app. apply NoDup_app. split; [done|]. split; [|apply NoDup_singleton].
    cbn. rewrite Hid. intros x Hx ->%list_elem_of_singleton. apply list_elem_of_In, in_map_iff in Hx as (j & E & Hj).
    specialize (Hle j Hj). lia.
  - intros j [Hj|[<-|[]]]%in_app_or; [specialize (Hle j Hj); lia|rewrite Hid; lia].
  - intros org ty field. rewrite count_where_app, count_where_cons. change (count_where _ []) with 0.
    destruct (open_for org ty field (mk (job_seq d + 1))) eqn:E; [|specialize (Hone org ty field); lia].
    unfold open_for in E. rewrite !andb_true_iff, !bool_decide_eq_true in E. destruct E as [[[<- <-] <-] _].
    rewrite Hnone. lia.
  - intros j [Hj|[<-|[]]]%in_app_or; auto.
Qed.

(** The parameters an enqueue writes are read back by the worker. *)
Lemma wf_params l : Forall (fun kv => match kv.2 with JArr _ | JObj _ => false | _ => true end = true) l ->
  NoDup (dict_keys l) -> wf_json (JObj l).
Proof.
  intros H Hnd. constructor; [done|]. eapply Forall_impl; [exact H|]. intros [k []]; cbn; try done; constructor.
Qed.
Lemma enqueued_parameters (org : option Z) field ty key (Hkey : key ∈ ["entity_type_filter"; "value_source"]) limit v i :
  job_parameters (new_job org field ty (dumps false (JObj [("limit", JInt limit); ("skip_existing", JBool true); (key, JStr v)])) i)
  = Ok (mkParams limit true (if bool_decide (key = "entity_type_filter") then str_or_none (JStr v) else None)
          (if bool_decide (key = "value_source") then str_or_none (JStr v) else None)).
Proof.
  unfold job_parameters, new_job. cbn [job_params].
  set (m := [("limit", JInt limit); ("skip_existing", JBool true); (key, JStr v)]).
  assert (Hnd : NoDup (dict_keys m)).
  { rewrite !elem_of_cons in Hkey. unfold m, dict_keys. cbn.
    destruct Hkey as [-> | [-> | Hkey%elem_of_nil]]; [| |done]; by apply (bool_decide_unpack _). }
  assert (Hl : loads (dumps false (JObj m)) = Some (JObj m)) by (apply loads_dumps, wf_params; [by repeat constructor|done]).
  assert (Hc : exists c t, dumps false (JObj m) = String c t) by (cbn; eauto). destruct Hc as (c & t & Hc).
  rewrite Hc in *. rewrite Hl. cbn [res_bind]. subst m.
  rewrite !elem_of_cons in Hkey. destruct Hkey as [-> | [-> | Hkey%elem_of_nil]]; done.
Qed.


End invariant.
#[export] Hint Resolve jobs_wf_update keeps_progress : preserve.

Section parts.
Context (asked : Asked).
Local Notation jobs_wf := (jobs_wf asked).

Lemma wf_on_job i f : keeps_closed f (fun j => job_id j =? i) -> preserves jobs_wf (on_job i f).
Proof. intros H. apply preserves_modify. intros d. by apply jobs_wf_update. Qed.
Lemma wf_records f : preserves jobs_wf (mmodify (with_records f)).
Proof. apply preserves_modify. by intros d H. Qed.
Lemma wf_job_progress job processed total created : preserves jobs_wf (job_progress job processed total created).
Proof. unfold job_progress. preserve. apply wf_on_job, keeps_progress. Qed.
End parts.
#[export] Hint Resolve wf_records wf_job_progress : preserve.

Section wf.
Context (columns : list string) (resolve_fn : string -> string -> option string -> res (list AuthorityCandidate)).
Section steps.
Context (asked : Asked).
Local Notation jobs_wf := (jobs_wf asked).

Lemma wf_resolve_values progress org field ty hints total idx created values :
  (forall n total created, preserves jobs_wf (progress n total created)) ->
  preserves jobs_wf (resolve_values resolve_fn org field ty hints progress total idx created values).
Proof.
  intros Hp. revert idx created. induction values as [|v values IH]; intros; cbn; preserve; first [apply Hp|apply IH|done].
Qed.
Lemma wf_execute org rorg field ty limit skip progress f source :
  (forall n total created, preserves jobs_wf (progress n total created)) ->
  preserves jobs_wf (execute_batch_resolution columns resolve_fn org rorg field ty limit skip progress f source).
Proof. intros Hp. unfold execute_batch_resolution. preserve. by apply wf_resolve_values. Qed.
Lemma wf_run_job now job : preserves jobs_wf (run_job columns resolve_fn now job).
Proof.
  assert (Hd : "done" ∉ OPEN_JOB) by (unfold OPEN_JOB; set_solver).
  assert (Hf : "failed" ∉ OPEN_JOB) by (unfold OPEN_JOB; set_solver).
  unfold run_job. preserve; [by apply wf_execute; intros; auto with preserve| |].
  - apply wf_on_job. by apply (keeps_finish _ "done" job_error now).
  - apply wf_on_job. by apply (keeps_finish _ "failed" (fun _ => Some (take_str 2000 (exn_text e))) now (fun j => j)).
Qed.
Lemma wf_reset_stale : preserves jobs_wf reset_stale_jobs.
Proof.
  unfold reset_stale_jobs. preserve. apply jobs_wf_update; [|done]. apply keeps_reopen.
  intros j ->%bool_decide_eq_true. unfold OPEN_JOB; set_solver.
Qed.
(** The plan's loop, for a guard that looks for the open job first. *)
Lemma wf_enqueue_plan {P} refuses (skip : P -> AuthorityDb -> res bool) mk i plan created :
  (forall p i, job_id (mk p i) = i) ->
  (forall p i, is_ok (job_parameters (mk p i)) = true) ->
  (forall p d i, skip p d = Ok false ->
     existsb (open_for (job_org (mk p i)) (job_type (mk p i)) (job_field (mk p i))) (resolve_jobs d) = false) ->
  preserves jobs_wf (enqueue_plan refuses i skip mk plan created).
Proof.
  intros Hid Hpar Hskip. revert i created. induction plan as [|p plan IH]; intros; cbn; [preserve|].
  intros s Hd Hb. rewrite run_get. destruct (skip p (sess_db s)) as [[|]|e] eqn:E; rewrite ?run_lift_ok, ?run_lift_raise.
  - exact (IH _ _ s Hd Hb).
  - destruct (refuses i) as [e|]; [done|]. unfold add_job. apply IH; cbn; [|done].
    apply jobs_wf_add; [auto| |auto|done]. intros k. apply count_where_0. intros j Hj.
    destruct (open_for _ _ _ j) eqn:Ej; [|done].
    specialize (Hskip p _ k E). rewrite <- not_true_iff_false, existsb_exists in Hskip. naive_solver.
  - done.
Qed.

Lemma wf_enqueue_entities env refuses org_id limit :
  preserves jobs_wf (enqueue_entity_authority_jobs env refuses org_id limit).
Proof.
  unfold enqueue_entity_authority_jobs. preserve. apply wf_enqueue_plan; [done|intros p i; unfold entity_params, publication_params; rewrite enqueued_parameters; set_solver|].
  by intros p d i [= [Ho _]%orb_false_iff].
Qed.
Lemma wf_enqueue_publications env refuses org_id limit :
  preserves jobs_wf (enqueue_publication_authority_jobs env refuses org_id limit).
Proof.
  unfold enqueue_publication_authority_jobs. preserve. apply wf_enqueue_plan; [done|intros p i; unfold entity_params, publication_params; rewrite enqueued_parameters; set_solver|].
  intros p d i. unfold has_open_job. cbn. by destruct (existsb _ _).
Qed.
End steps.

(** ** Several steps: [moves P Q c] starts where [P] holds and ends where [Q] does *)
Definition moves {A} (P Q : AuthorityDb -> Prop) (c : M AuthorityDb A) : Prop :=
  forall s, P (sess_db s) -> P (sess_base s) -> Q (sess_db (c s).2) /\ Q (sess_base (c s).2).
Lemma moves_bind {A B} P Q R (c : M AuthorityDb A) (k : A -> M AuthorityDb B) :
  (forall d, Q d -> R d) -> moves P Q c -> (forall a, moves Q R (k a)) -> moves P R (mbind c k).
Proof.
  intros HQ Hc Hk s Hd Hb. unfold mbind. specialize (Hc s Hd Hb). destruct (c s) as [[a|e] s1]; cbn in *; destruct Hc as [H1 H2].
  - exact (Hk a s1 H1 H2).
  - split; by apply HQ.
Qed.
Lemma moves_from {A} (P Q : AuthorityDb -> Prop) (c : M AuthorityDb A) : (forall d, P d -> Q d) -> preserves Q c -> moves P Q c.
Proof. intros H Hc s Hd Hb. apply Hc; by apply H. Qed.

(** A claim, others working between its two statements. *)
Lemma wf_claim_one (a b : Asked) others :
  (forall d, jobs_wf a d -> jobs_wf b d) -> (forall d, jobs_wf a d -> jobs_wf b (others d)) -> moves (jobs_wf a) (jobs_wf b) (claim_one others).
Proof.
  intros Hab Ho. unfold claim_one. intros s Hd Hb. rewrite run_get.
  destruct (oldest_pending (sess_db s)) as [job|]; [|split; by apply Hab].
  revert s Hd Hb. apply (moves_bind _ (jobs_wf b)); [done|intros s Hd Hb; split; by apply Ho|]. intros _. apply moves_from; [done|].
  preserve; try done. apply jobs_wf_update; [|done]. apply keeps_reopen. intros j [_ Hj]%andb_prop. apply bool_decide_eq_true in Hj as ->.
  unfold OPEN_JOB; set_solver.
Qed.
Lemma wf_worker (a b : Asked) now others :
  (forall d, jobs_wf a d -> jobs_wf b d) -> (forall d, jobs_wf a d -> jobs_wf b (others d)) ->
  moves (jobs_wf a) (jobs_wf b) (worker_iteration columns resolve_fn now others).
Proof.
  intros Hab Ho s Hd Hb. unfold worker_iteration, mtry.
  assert (H : moves (jobs_wf a) (jobs_wf b)
    (do! job <- claim_one others; match job with Some job => run_job columns resolve_fn now job | None => mret tt end)).
  { apply (moves_bind _ (jobs_wf b)); [done|by apply wf_claim_one|]. intros [job|]; apply moves_from; try done. apply wf_run_job. }
  specialize (H s Hd Hb). by destruct (mbind _ _ s) as [[?|?] ?].
Qed.

(** A job the route adds beside whatever is open. *)
Definition asks (org : option Z) (ty field : string) (t : Tenants) (u : User) (payload : BatchRequest) (sync : bool) : bool :=
  negb sync && bool_decide (br_field payload = field) && bool_decide (br_type payload = ty)
  && match resolve_request_org_id t u true true with Ok o => bool_decide (persisted_org_id o = org) | Raise _ => false end.
Definition one_if (b : bool) : nat := if b then 1 else 0.
Lemma jobs_wf_ask (a b : Asked) (mk : Z -> ResolveJob) d :
  (forall i, job_id (mk i) = i) -> (forall i, is_ok (job_parameters (mk i)) = true) ->
  (forall i org ty field, (a org ty field + one_if (open_for org ty field (mk i)) <= b org ty field)%nat) ->
  jobs_wf a d -> jobs_wf b (mkAuthorityDb (entities d) (records d) (resolve_jobs d ++ [mk (job_seq d + 1)]) (job_seq d + 1)).
Proof.
  intros Hid Hpar Hab (Hnd & Hle & Hone & Hok). split; [|split; [|split]]; cbn.
  - rewrite map_app. apply NoDup_app. split; [done|]. split; [|apply NoDup_singleton].
    cbn. rewrite Hid. intros x Hx ->%list_elem_of_singleton. apply list_elem_of_In, in_map_iff in Hx as (j & E & Hj).
    specialize (Hle j Hj). lia.
  - intros j [Hj|[<-|[]]]%in_app_or; [specialize (Hle j Hj); lia|rewrite Hid; lia].
  - intros org ty field. rewrite count_where_app, count_where_cons. change (count_where _ []) with 0.
    specialize (Hab (job_seq d + 1) org ty field). specialize (Hone org ty field).
    destruct (open_for org ty field (mk (job_seq d + 1))); cbn [one_if] in Hab; lia.
  - intros j [Hj|[<-|[]]]%in_app_or; auto.
Qed.
Lemma batch_parameters org payload source i :
  is_ok (job_parameters (new_job org (br_field payload) (br_type payload) (batch_params payload source) i)) = true.
Proof.
  unfold job_parameters, new_job, batch_params. cbn [job_params].
  set (m := _ ++ _).
  assert (Hl : loads (dumps false (JObj m)) = Some (JObj m)).
  { apply loads_dumps, wf_params; subst m; destruct source; try (by repeat constructor); by apply (bool_decide_unpack _). }
  assert (Hc : exists c t, dumps false (JObj m) = String c t) by (cbn; eauto). destruct Hc as (c & t & Hc).
  rewrite Hc in *. rewrite Hl. cbn [res_bind]. subst m. by destruct source.
Qed.
Lemma wf_batch (a b : Asked) refused t u payload sync :
  (forall org ty field, (a org ty field + one_if (asks org ty field t u payload sync) <= b org ty field)%nat) ->
  moves (jobs_wf a) (jobs_wf b) (resolve_authority_batch columns resolve_fn refused t u payload sync).
Proof.
  intros Hab. assert (Hmono : forall d, jobs_wf a d -> jobs_wf b d).
  { intros d. apply jobs_wf_mono. intros org ty field. specialize (Hab org ty field). lia. }
  intros s Hd Hb. unfold resolve_authority_batch. destruct (require_role _ _); [rewrite run_lift_ok|rewrite run_lift_raise; by split; apply Hmono].
  destruct (resolve_request_org_id t u true true) as [o|e] eqn:Ho; [rewrite run_lift_ok|rewrite run_lift_raise; by split; apply Hmono].
  destruct (check_batch _ _ _); [rewrite run_lift_ok|rewrite run_lift_raise; by split; apply Hmono].
  destruct sync; cbn [negb].
  - revert s Hd Hb. apply moves_from; [done|]. preserve. by apply wf_execute.
  - destruct refused as [e|]; [split; by apply Hmono|]. unfold add_job. cbn.
    set (mk := new_job _ _ _ _). assert (H : jobs_wf b (mkAuthorityDb (entities (sess_db s)) (records (sess_db s)) (resolve_jobs (sess_db s) ++ [mk (job_seq (sess_db s) + 1)]) (job_seq (sess_db s) + 1))).
    2: { by split. }
    apply (jobs_wf_ask a); [done|intros; apply batch_parameters| |done].
    intros i org ty field. specialize (Hab org ty field). unfold asks in Hab. rewrite Ho in Hab. unfold open_for, mk. cbn in *.
    revert Hab. repeat case_bool_decide; cbn; lia.
Qed.

(** Calls against the tables, each in a session of its own: the two enqueues of
    an ingest, committed by their caller, a request of a batch, an iteration of a
    worker with what others commit inside its claim, the reset at start-up, and
    any edit of entities and records by the rest of the program. *)
Inductive Call :=
  | CEnqueueEntities (env : option string) (refuses : nat -> option exn) (org_id : option Z) (limit : Z)
  | CEnqueuePublications (env : option string) (refuses : nat -> option exn) (org_id : option Z) (limit : Z)
  | CBatch (refused : option exn) (t : Tenants) (u : User) (payload : BatchRequest) (sync : bool)
  | CWork (now : Z) (others : list Call)
  | CReset
  | CEdit (es : list Entity) (rs : list AuthorityRecord).
Fixpoint exec (c : Call) : M AuthorityDb unit :=
  match c with
  | CEnqueueEntities env refuses org_id limit => run! enqueue_entity_authority_jobs env refuses org_id limit; commit
  | CEnqueuePublications env refuses org_id limit => run! enqueue_publication_authority_jobs env refuses org_id limit; commit
  | CBatch refused t u payload sync => run! resolve_authority_batch columns resolve_fn refused t u payload sync; mret tt
  | CWork now others =>
      worker_iteration columns resolve_fn now (fun d => fold_left (fun d c => sess_base (exec c (clean d)).2) others d)
  | CReset => run! reset_stale_jobs; mret tt
  | CEdit es rs => run! mmodify (fun d => mkAuthorityDb es rs (resolve_jobs d) (job_seq d)); commit
  end.
Definition history (cs : list Call) : AuthorityDb :=
  fold_left (fun d c => sess_base (exec c (clean d)).2) cs (mkAuthorityDb [] [] [] 0).

(** The requests of a history to queue a batch for a key. *)
Fixpoint asked_by (org : option Z) (ty field : string) (c : Call) : nat :=
  match c with
  | CBatch _ t u payload sync => one_if (asks org ty field t u payload sync)
  | CWork _ others => fold_right (fun c n => asked_by org ty field c + n)%nat 0%nat others
  | _ => 0
  end.
Definition requests (org : option Z) (ty field : string) (cs : list Call) : nat :=
  fold_right (fun c n => asked_by org ty field c + n)%nat 0%nat cs.
Definition plus (a : Asked) (n : Asked) : Asked := fun org ty field => (a org ty field + n org ty field)%nat.
Lemma wf_fold (a : Asked) (l : list Call) d :
  (forall c, In c l -> forall a, moves (jobs_wf a) (jobs_wf (plus a (fun o ty f => asked_by o ty f c))) (exec c)) -> jobs_wf a d ->
  jobs_wf (plus a (fun o ty f => requests o ty f l)) (fold_left (fun d c => sess_base (exec c (clean d)).2) l d).
Proof.
  revert a d. induction l as [|c l IH]; intros a d H Hd; cbn [fold_left].
  - eapply jobs_wf_mono; [|exact Hd]. unfold plus. lia.
  - destruct (H c (or_introl eq_refl) a (clean d) Hd Hd) as [_ H1].
    eapply jobs_wf_mono; [|apply (IH _ _ (fun c' Hc => H c' (or_intror Hc)) H1)]. intros. unfold plus, requests. cbn [fold_right]. lia.
Qed.
Lemma wf_exec : forall c a, moves (jobs_wf a) (jobs_wf (plus a (fun o ty f => asked_by o ty f c))) (exec c).
Proof.
  fix IH 1. intros c a. assert (Hmono : forall d, jobs_wf a d -> jobs_wf (plus a (fun o ty f => asked_by o ty f c)) d)
    by (intros d; apply jobs_wf_mono; unfold plus; lia).
  destruct c as [env refuses org_id limit|env refuses org_id limit|refused t u payload sync|now others| |es rs]; cbn [exec].
  - apply moves_from; [done|]. preserve. apply wf_enqueue_entities.
  - apply moves_from; [done|]. preserve. apply wf_enqueue_publications.
  - eapply moves_bind; [intros d; exact id|by apply wf_batch|]. intros _. by apply moves_from.
  - apply wf_worker; [done|]. intros d Hd. clear Hmono. change (fun o ty f => asked_by o ty f (CWork now others)) with (fun o ty f => requests o ty f others).
    revert a d Hd. induction others as [|c others IHo]; intros a d Hd; cbn [fold_left].
    + eapply jobs_wf_mono; [|exact Hd]. unfold plus. lia.
    + destruct (IH c a (clean d) Hd Hd) as [_ H1]. eapply jobs_wf_mono; [|apply (IHo _ _ H1)].
      intros. unfold plus, requests. cbn [fold_right]. lia.
  - apply moves_from; [done|]. preserve. apply wf_reset_stale.
  - apply moves_from; [done|]. preserve. done.
Qed.
Lemma jobs_wf_start a : jobs_wf a (mkAuthorityDb [] [] [] 0).
Proof. split; [apply NoDup_nil_2|]. split; [done|]. split; [|done]. intros org ty field. change (count_where _ _) with 0. lia. Qed.
Lemma history_wf cs : jobs_wf (fun org ty field => requests org ty field cs) (history cs).
Proof.
  eapply jobs_wf_mono; [|apply (wf_fold (fun _ _ _ => 0%nat) cs); [intros; apply wf_exec|apply jobs_wf_start]]. done.
Qed.
(** What an ingest enqueues never stands beside an open job. *)
Lemma enqueue_deduplicates asked d c org ty field :
  match c with CEnqueueEntities _ _ _ _ | CEnqueuePublications _ _ _ _ => True | _ => False end -> jobs_wf asked d ->
  count_where (open_for org ty field) (resolve_jobs (sess_base (exec c (clean d)).2)) <= Z.max 1 (count_where (open_for org ty field) (resolve_jobs d)).
Proof.
  intros Hc (H1 & H2 & _ & H4).
  set (now := fun o t f => Z.to_nat (count_where (open_for o t f) (resolve_jobs d) - 1)).
  assert (Hd : jobs_wf now d) by (repeat split; try done; intros; unfold now; lia).
  assert (Ha : plus now (fun o t f => asked_by o t f c) org ty field = now org ty field) by (unfold plus; destruct c; cbn; try done; lia).
  destruct (wf_exec c now (clean d) Hd Hd) as [_ (_ & _ & Hone & _)]. specialize (Hone org ty field). rewrite Ha in Hone. unfold now in Hone. lia.
Qed.

(** C26: Whatever is enqueued on ingest, requested as a batch, claimed, run,
    reset and edited, whatever the resolver answers and whichever statement
    fails, job ids are unique, and of an organisation, an entity type and a field
    there is at most one pending or processing job beside those that requests to
    the batch route asked for (the route does not look for an open job); an
    ingest adds one only where there is none. *)
Theorem one_open_job cs org ty field :
  let d := history cs in
  let open d := count_where (open_for org ty field) (resolve_jobs d) in
  NoDup (map job_id (resolve_jobs d))
  /\ open d <= 1 + Z.of_nat (requests org ty field cs)
  /\ forall env refuses o limit,
       open (sess_base (exec (CEnqueueEntities env refuses o limit) (clean d)).2) <= Z.max 1 (open d)
       /\ open (sess_base (exec (CEnqueuePublications env refuses o limit) (clean d)).2) <= Z.max 1 (open d).
Proof.
  pose proof (history_wf cs) as Hwf. pose proof Hwf as (Hnd & _ & Hone & _). split; [done|]. split; [apply Hone|].
  intros env refuses o limit. split; by eapply enqueue_deduplicates.
Qed.
End wf.

(** * The outcome of a run *)
Section run.
Context (columns : list string) (resolve_fn : string -> string -> option string -> res (list AuthorityCandidate)).

(** What the resolver gives for the values, up to the first that raises: the
    records, how many values went through, and what stopped it. *)
Fixpoint resolve_prefix (org : option Z) (field ty : string) (hints : Hints) (values : list string)
  : list AuthorityRecord * Z * option exn :=
  match values with
  | [] => ([], 0, None)
  | v :: values =>
      match records_for resolve_fn org field ty hints v with
      | Raise e => ([], 0, Some e)
      | Ok recs => let '(rs, n, e) := resolve_prefix org field ty hints values in (recs ++ rs, 1 + n, e)
      end
  end.

Lemma resolve_prefix_count org field ty hints values :
  let '(rs, n, e) := resolve_prefix org field ty hints values in
  0 <= n /\ (n = 0 -> rs = []) /\ (e = None -> n = Z.of_nat (List.length values)).
Proof.
  induction values as [|v values IH]; cbn; [done|].
  destruct (records_for _ _ _ _ _ v); [|done]. destruct (resolve_prefix _ _ _ _ values) as [[rs n] e].
  destruct IH as (H1 & _ & H3). split; [lia|]. split; [lia|]. intros ->. rewrite H3 by done. lia.
Qed.

Lemma on_job_after i (f : ResolveJob -> ResolveJob) (g : ResolveJob -> ResolveJob) l :
  (forall j, job_id (f j) = job_id j) ->
  update_where (fun j => job_id j =? i) g (update_where (fun j => job_id j =? i) f l)
  = update_where (fun j => job_id j =? i) (fun j => g (f j)) l.
Proof. intros H. apply update_where_twice. intros j. by rewrite H. Qed.

(** The progress written after [n] values. *)
Definition progressed (total n created : Z) (j : ResolveJob) : ResolveJob :=
  if n =? 0 then j else set_progress total n created j.
Definition with_progress (job : ResolveJob) (rs : list AuthorityRecord) (total idx n created : Z) (d : AuthorityDb) : AuthorityDb :=
  mkAuthorityDb (entities d) (records d ++ rs)
    (if n =? 0 then resolve_jobs d
     else update_where (fun j => job_id j =? job_id job) (set_progress total (idx + n - 1) created) (resolve_jobs d)) (job_seq d).

Lemma resolve_values_run job org field ty hints total idx created values d :
  let '(rs, n, e) := resolve_prefix org field ty hints values in
  let created' := created + Z.of_nat (List.length rs) in
  resolve_values resolve_fn org field ty hints (job_progress job) total idx created values (clean d)
  = (match e with None => Ok created' | Some e => Raise e end, clean (with_progress job rs total idx n created' d)).
Proof.
  revert d idx created. induction values as [|v values IH]; intros d idx created; cbn [resolve_values resolve_prefix].
  { unfold with_progress. rewrite app_nil_r, Z.add_0_r. by destruct d. }
  destruct (records_for _ _ _ _ _ v) as [recs|e]; mrun.
  2: { unfold with_progress. rewrite app_nil_r. by destruct d. }
  set (created1 := created + Z.of_nat (List.length recs)).
  specialize (IH (with_progress job recs total idx 1 created1 d) (idx + 1) created1).
  pose proof (resolve_prefix_count org field ty hints values) as Hn.
  destruct (resolve_prefix org field ty hints values) as [[rs n] e]. destruct Hn as (Hn & H0 & _).
  replace (created + Z.of_nat (List.length (recs ++ rs))) with (created1 + Z.of_nat (List.length rs))
    by (rewrite length_app; unfold created1; lia).
  unfold job_progress, on_job, mbind at 1 2. cbn [mmodify commit sess_db sess_base].
  replace (with_jobs _ _) with (with_progress job recs total idx 1 created1 d)
    by (unfold with_progress; cbn; by replace (idx + 1 - 1) with idx by lia).
  etransitivity; [exact IH|]. f_equal. f_equal. unfold with_progress. cbn [resolve_jobs records entities job_seq].
  rewrite <- app_assoc. replace (1 + n =? 0) with false by lia. change (1 =? 0) with false. cbv beta iota. f_equal.
  destruct (n =? 0) eqn:En.
  - f_equal. apply Z.eqb_eq in En. rewrite H0 by done. cbn. f_equal; lia.
  - rewrite on_job_after by done. by replace (idx + 1 + n - 1) with (idx + (1 + n) - 1) by lia.
Qed.

(** The values a job resolves, with their ORCID hints. *)
Definition job_plan (job : ResolveJob) (p : Params) (d : AuthorityDb) : res (list string * Hints) :=
  let? values := all_values_of columns (job_org job) (job_field job) (pr_filter p) (pr_source p) d in
  let? hints := hints_for (job_org job) (pr_source p) d in
  Ok (slice_to (pr_limit p) (if pr_skip p then not_covered (job_org job) (job_field job) d values else values), hints).

(** The run as a function of the tables: the records it adds and what it does
    to the job's row. *)
Definition run_result (now : Z) (job : ResolveJob) (p : Params) (d : AuthorityDb)
  : list AuthorityRecord * (ResolveJob -> ResolveJob) :=
  match job_plan job p d with
  | Raise e => ([], finish "failed" (Some (take_str 2000 (exn_text e))) now)
  | Ok (values, hints) =>
      let '(rs, n, e) := resolve_prefix (persisted_org_id (job_org job)) (job_field job) (job_type job) hints values in
      let total := Z.of_nat (List.length values) in
      let created := Z.of_nat (List.length rs) in
      (rs, match e with
           | None => fun j => finish "done" (job_error j) now (set_progress total total created j)
           | Some e => fun j => finish "failed" (Some (take_str 2000 (exn_text e))) now (progressed total n created j)
           end)
  end.
Definition with_run (job : ResolveJob) (out : list AuthorityRecord * (ResolveJob -> ResolveJob)) (d : AuthorityDb) : AuthorityDb :=
  mkAuthorityDb (entities d) (records d ++ out.1) (update_where (fun j => job_id j =? job_id job) out.2 (resolve_jobs d)) (job_seq d).

Lemma with_run_progress job rs total n c f d :
  with_jobs (update_where (fun j => job_id j =? job_id job) f) (with_progress job rs total 1 n c d)
  = with_run job (rs, fun j => f (progressed total n c j)) d.
Proof.
  unfold with_run, with_progress, with_jobs, progressed. cbn [entities records resolve_jobs job_seq fst snd]. f_equal.
  destruct (n =? 0); [done|]. rewrite on_job_after by done. replace (1 + n - 1) with n by lia. done.
Qed.

Lemma run_job_runs now job p d :
  job_parameters job = Ok p -> run_job columns resolve_fn now job (clean d) = (Ok tt, clean (with_run job (run_result now job p d) d)).
Proof.
  intros Hp. unfold run_job. rewrite Hp. mrun. unfold execute_batch_resolution, run_result, job_plan, mtry, on_job.
  destruct (all_values_of _ _ _ _ _ d) as [values|e] eqn:Ev.
  2: { unfold mbind, mlift, mget; cbn. rewrite Ev. unfold with_run; cbn. by rewrite app_nil_r. }
  destruct (hints_for _ _ d) as [hints|e] eqn:Eh.
  2: { unfold mbind, mlift, mget; cbn. rewrite Ev, Eh. unfold with_run; cbn. by rewrite app_nil_r. }
  cbn [res_bind]. set (vs := slice_to _ _).
  pose proof (resolve_values_run job (persisted_org_id (job_org job)) (job_field job) (job_type job) hints
    (Z.of_nat (List.length vs)) 1 0 vs d) as Hr.
  pose proof (resolve_prefix_count (persisted_org_id (job_org job)) (job_field job) (job_type job) hints vs) as Hn.
  destruct (resolve_prefix _ _ _ hints vs) as [[rs n] e]. destruct Hn as (Hn & H0 & Hend).
  unfold mbind, mlift, mget; cbn [sess_db clean]. rewrite Ev, Eh. fold vs. cbv zeta in Hr |- *. rewrite Hr.
  destruct e as [e|]; cbn [mmodify commit rollback mret sess_db sess_base clean resolved_count records_created].
  - by rewrite with_run_progress.
  - rewrite with_run_progress. unfold progressed. by destruct (n =? 0).
Qed.

Lemma resolve_prefix_records org field ty hints values r :
  In r (resolve_prefix org field ty hints values).1.1 ->
  ar_org r = org /\ ar_field r = field /\ ar_status r = "pending" /\ In (ar_value r) values.
Proof.
  induction values as [|v values IH]; cbn; [done|].
  unfold records_for at 1. destruct (resolve_fn v ty _) as [cs|e]; cbn; [|done].
  destruct (resolve_prefix org field ty hints values) as [[rs n] e]. cbn in *.
  intros [(c & <- & _)%in_map_iff|Hr]%in_app_or; [tauto|]. destruct (IH Hr) as (? & ? & ? & ?). tauto.
Qed.
Lemma run_result_records now job p d r :
  In r (run_result now job p d).1 ->
  ar_org r = persisted_org_id (job_org job) /\ ar_field r = job_field job /\ ar_status r = "pending"
  /\ exists values hints, job_plan job p d = Ok (values, hints) /\ In (ar_value r) values.
Proof.
  unfold run_result. destruct (job_plan job p d) as [[values hints]|e]; [|done].
  destruct (resolve_prefix _ _ _ hints values) as [[rs n] e] eqn:E. cbn. intros Hr.
  destruct (resolve_prefix_records (persisted_org_id (job_org job)) (job_field job) (job_type job) hints values r) as (? & ? & ? & ?);
    [by rewrite E|]. repeat split; eauto.
Qed.
(** The row a run leaves. *)
Lemma run_result_row now job p d :
  let '(rs, f) := run_result now job p d in
  forall j, job_id (f j) = job_id j /\ job_finished (f j) = Some now
  /\ (job_status (f j) = "done" /\ job_error (f j) = job_error j /\ job_processed (f j) = job_total (f j)
        /\ job_created (f j) = Z.of_nat (List.length rs)
      \/ job_status (f j) = "failed" /\ exists e, job_error (f j) = Some (take_str 2000 (exn_text e))).
Proof.
  unfold run_result. destruct (job_plan job p d) as [[values hints]|e]; [|eauto 8].
  destruct (resolve_prefix _ _ _ hints values) as [[rs n] [e|]]; intros j; cbn; [|tauto].
  unfold progressed. destruct (n =? 0); eauto 8.
Qed.

Lemma update_row i (f : ResolveJob -> ResolveJob) l job :
  In job l -> job_id job = i -> In (f job) (update_where (fun j => job_id j =? i) f l).
Proof.
  intros Hj Hi. pose proof (update_where_in (fun j => job_id j =? i) f l job Hj) as H.
  cbn in H. by rewrite (proj2 (Z.eqb_eq _ _) Hi) in H.
Qed.
Lemma update_other i (f : ResolveJob -> ResolveJob) l j :
  In j l -> job_id j <> i -> In j (update_where (fun j => job_id j =? i) f l).
Proof.
  intros Hj Hi. pose proof (update_where_in (fun j => job_id j =? i) f l j Hj) as H.
  cbn in H. by rewrite (proj2 (Z.eqb_neq _ _) Hi) in H.
Qed.

(** running a job whose parameters parse never raises, commits everything
    and is the reference function [run_result]: the job ends done with exact
    counters, or failed with the first exception's text and the progress made;
    other jobs are untouched; the records added are those of the values before
    the failure, all pending, of the job's field and organisation. *)
Theorem run_job_exact now job p d :
  job_parameters job = Ok p -> In job (resolve_jobs d) ->
  let out := run_result now job p d in
  let d' := with_run job out d in
  run_job columns resolve_fn now job (clean d) = (Ok tt, clean d')
  /\ In (out.2 job) (resolve_jobs d')
  /\ (forall j, In j (resolve_jobs d) -> job_id j <> job_id job -> In j (resolve_jobs d'))
  /\ (job_status (out.2 job) = "done" /\ job_processed (out.2 job) = job_total (out.2 job)
        /\ job_created (out.2 job) = Z.of_nat (List.length out.1)
      \/ job_status (out.2 job) = "failed" /\ exists e, job_error (out.2 job) = Some (take_str 2000 (exn_text e)))
  /\ (forall r, In r out.1 -> ar_org r = persisted_org_id (job_org job) /\ ar_field r = job_field job /\ ar_status r = "pending"
        /\ exists values hints, job_plan job p d = Ok (values, hints) /\ In (ar_value r) values).
Proof.
  intros Hp Hj out d'. split; [by apply run_job_runs|]. split; [by apply update_row|].
  split; [intros; by apply update_other|]. split; [|apply run_result_records].
  pose proof (run_result_row now job p d) as H. unfold out. destruct (run_result now job p d) as [rs f].
  cbn. destruct (H job) as (_ & _ & [H1|H1]); tauto.
Qed.

(** * A tenant's job works on the tenant's rows *)
(** The tables without the other organisations' entities and records. *)
Definition only (o : Z) (d : AuthorityDb) : AuthorityDb :=
  mkAuthorityDb (List.filter (fun e => col_eq o (en_org e)) (entities d)) (List.filter (fun r => col_eq o (ar_org r)) (records d))
    (resolve_jobs d) (job_seq d).

Lemma job_plan_only o job p d :
  o <> LEGACY_GLOBAL_ORG_ID -> job_org job = Some o -> job_plan job p (only o d) = job_plan job p d.
Proof.
  intros Ho Hj. unfold job_plan. rewrite Hj.
  assert (Ha : forall n, publication_attrs (Some o) n (only o d) = publication_attrs (Some o) n d)
    by (intros n; unfold publication_attrs, only; cbn [entities]; by rewrite scoped_only_all).
  assert (Hv : all_values_of columns (Some o) (job_field job) (pr_filter p) (pr_source p) (only o d)
               = all_values_of columns (Some o) (job_field job) (pr_filter p) (pr_source p) d).
  { unfold all_values_of, distinct_values_from_publication_attrs, distinct_values. rewrite Ha.
    unfold only; cbn [entities]. by rewrite !scoped_only. }
  assert (Hh : hints_for (Some o) (pr_source p) (only o d) = hints_for (Some o) (pr_source p) d)
    by (unfold hints_for, publication_author_hints; by rewrite Ha).
  rewrite Hv, Hh. unfold not_covered, only; cbn [records]. by rewrite scoped_only_all.
Qed.
Lemma run_result_only o now job p d :
  o <> LEGACY_GLOBAL_ORG_ID -> job_org job = Some o -> run_result now job p (only o d) = run_result now job p d.
Proof. intros Ho Hj. unfold run_result. by rewrite job_plan_only. Qed.
Lemma run_job_unparsable now job e d :
  job_parameters job = Raise e -> run_job columns resolve_fn now job (clean d) = (Raise e, clean d).
Proof. intros Hp. unfold run_job. by rewrite Hp. Qed.

(** the job of an organisation is blind to the others: run with or without
    the entities and records of every other organisation it answers the same,
    does the same to the queue and adds the same records, all of its own
    organisation. *)
Theorem tenant_job_confined o now job d :
  o <> LEGACY_GLOBAL_ORG_ID -> job_org job = Some o ->
  let full := run_job columns resolve_fn now job (clean d) in
  let alone := run_job columns resolve_fn now job (clean (only o d)) in
  full.1 = alone.1
  /\ exists new, records (sess_base full.2) = records d ++ new
     /\ records (sess_base alone.2) = records (only o d) ++ new
     /\ resolve_jobs (sess_base full.2) = resolve_jobs (sess_base alone.2)
     /\ forall r, In r new -> ar_org r = Some o.
Proof.
  intros Ho Hj full alone. destruct (job_parameters job) as [p|e] eqn:Hp.
  - unfold full, alone. rewrite !(run_job_runs now job p) by done. rewrite run_result_only by done.
    split; [done|]. exists (run_result now job p d).1. split; [done|]. split; [done|]. split; [done|].
    intros r Hr. destruct (run_result_records now job p d r Hr) as [-> _]. rewrite Hj.
    unfold persisted_org_id, is_legacy_global_scope. by rewrite bool_decide_eq_false_2 by congruence.
  - unfold full, alone. rewrite !(run_job_unparsable now job e) by done.
    split; [done|]. exists []. cbn. by rewrite !app_nil_r.
Qed.

(** * Draining the queue *)
(** One iteration of an undisturbed worker. *)
Definition tick (now : Z) (d : AuthorityDb) : AuthorityDb :=
  sess_base (worker_iteration columns resolve_fn now (fun d => d) (clean d)).2.
Definition is_pending (j : ResolveJob) : bool := bool_decide (job_status j = "pending").

Lemma oldest_pending_spec d :
  match oldest_pending d with
  | Some j => In j (resolve_jobs d) /\ is_pending j = true
              /\ forall j', In j' (resolve_jobs d) -> is_pending j' = true -> job_id j <= job_id j'
  | None => forall j, In j (resolve_jobs d) -> is_pending j = false
  end.
Proof.
  unfold oldest_pending. set (l := List.filter _ (resolve_jobs d)).
  destruct (hd_error (sort_by (fun a b => job_id a <=? job_id b) l)) as [j|] eqn:E.
  - apply hd_sort_by_least in E as [Hj Hle]; [|intros x y; lia|intros x y z; lia].
    apply filter_In in Hj as [Hj Hp]. split; [done|]. split; [done|]. intros j' Hj' Hp'.
    destruct (Hle j') as [-> |Hle']; [by apply filter_In|lia|lia].
  - apply hd_sort_by_None in E. intros j Hj. destruct (is_pending j) eqn:Hp; [|done].
    assert (In j l) by by apply filter_In. by rewrite E in *.
Qed.

(** The claim of an undisturbed worker. *)
Lemma claim_oldest d job :
  NoDup (map job_id (resolve_jobs d)) -> oldest_pending d = Some job ->
  let d1 := with_jobs (update_where (fun j => job_id j =? job_id job) (set_status "processing")) d in
  claim_one (fun d => d) (clean d) = (Ok (Some (set_status "processing" job)), clean d1).
Proof.
  intros Hnd Hold d1. pose proof (oldest_pending_spec d) as Hspec. rewrite Hold in Hspec.
  destruct Hspec as (Hj & Hpend & _). unfold is_pending in Hpend.
  unfold claim_one, clean. mrun. rewrite Hold. mrun.
  set (hit := fun j => (job_id j =? job_id job) && bool_decide (job_status j = "pending")).
  assert (Hhit : hit job = true) by (unfold hit; by rewrite Z.eqb_refl).
  assert (Hd1 : with_jobs (update_where hit (set_status "processing")) d = d1).
  { unfold d1, with_jobs. f_equal. apply map_ext_in. intros j Hj'. unfold hit.
    destruct (job_id j =? job_id job) eqn:E; [|done]. apply Z.eqb_eq in E.
    rewrite (NoDup_map_inj job_id (resolve_jobs d) j job Hnd Hj' Hj E). by rewrite Hpend. }
  rewrite (count_where_unique job_id hit _ job Hnd Hj Hhit) by (intros y [Hy _]%andb_prop; lia).
  cbn [negb Z.eqb Pos.eqb]. mrun. rewrite Hd1. unfold mret. do 2 f_equal.
  apply (find_unique job_id); [|by apply update_row|apply Z.eqb_refl|intros y Hy; cbn; lia].
  unfold d1; cbn [with_jobs resolve_jobs]. by rewrite update_where_map.
Qed.
(** One iteration takes the oldest pending job out of the queue for good. *)
Lemma tick_step now d job :
  NoDup (map job_id (resolve_jobs d)) -> oldest_pending d = Some job -> is_ok (job_parameters job) = true ->
  exists f, resolve_jobs (tick now d) = update_where (fun j => job_id j =? job_id job) f (resolve_jobs d)
    /\ forall j, job_id (f j) = job_id j /\ job_finished (f j) = Some now /\ job_status (f j) ∈ ["done"; "failed"].
Proof.
  intros Hnd Hold Hp. destruct (job_parameters job) as [p|] eqn:Epar; [clear Hp|done].
  pose proof (claim_oldest d job Hnd Hold) as Hclaim. set (job1 := set_status "processing" job) in *.
  set (d1 := with_jobs _ d) in Hclaim. pose proof (run_result_row now job1 p d1) as Hrow.
  exists (fun j => (run_result now job1 p d1).2 (set_status "processing" j)). split.
  - unfold tick, worker_iteration, mtry, mbind. cbv zeta in Hclaim. rewrite Hclaim.
    rewrite (run_job_runs now job1 p d1 Epar). by apply on_job_after.
  - intros j. destruct (run_result now job1 p d1) as [rs f]. cbn. destruct (Hrow (set_status "processing" j)) as (H1 & H2 & H3).
    repeat split; [done|done|]. destruct H3 as [(-> & _)|(-> & _)]; set_solver.
Qed.

Lemma tick_wf asked now d : jobs_wf asked d -> jobs_wf asked (tick now d).
Proof. intros H. by apply (wf_worker columns resolve_fn asked asked now (fun d => d) (fun _ H => H) (fun _ H => H) (clean d)). Qed.
Lemma count_where_close i (q : ResolveJob -> bool) f l job :
  NoDup (map job_id l) -> In job l -> job_id job = i -> q job = true -> (forall j, q (f j) = false) ->
  count_where q (update_where (fun j => job_id j =? i) f l) = count_where q l - 1.
Proof.
  intros Hnd Hj Hi Hq Hf. induction l as [|x l IH]; [done|]. apply NoDup_cons in Hnd as [Hx Hnd].
  unfold update_where in *. cbn [map]. rewrite !count_where_cons. destruct (decide (x = job)) as [-> |Hne].
  - rewrite Hi, Z.eqb_refl, Hf, Hq. assert (E : forall j, In j l -> (job_id j =? i) = false).
    { intros j Hl. apply Z.eqb_neq. intros E. apply Hx. rewrite Hi, <- E. apply list_elem_of_In. by apply in_map. }
    rewrite (map_ext_in _ (fun j => j)), map_id by (intros j Hl; by rewrite (E j Hl)). lia.
  - destruct Hj as [-> |Hj]; [done|]. rewrite IH by done.
    assert ((job_id x =? i) = false) as ->; [|lia]. apply Z.eqb_neq. intros E. apply Hx. rewrite E, <- Hi.
    apply list_elem_of_In. by apply in_map.
Qed.

Fixpoint drain (n : nat) (now : Z) (d : AuthorityDb) : AuthorityDb :=
  match n with O => d | S n => drain n now (tick now d) end.
Lemma drain_spec asked n now d :
  jobs_wf asked d -> count_where is_pending (resolve_jobs d) = Z.of_nat n ->
  forall j, In j (resolve_jobs d) ->
  if is_pending j
  then exists j', In j' (resolve_jobs (drain n now d)) /\ job_id j' = job_id j /\ job_finished j' = Some now
       /\ job_status j' ∈ ["done"; "failed"]
  else In j (resolve_jobs (drain n now d)).
Proof.
  revert d. induction n as [|n IH]; intros d Hwf Hn j Hj.
  { rewrite (proj1 (count_where_0 _ _) Hn j Hj). done. }
  pose proof Hwf as (Hnd & _ & _ & Hok).
  pose proof (oldest_pending_spec d) as Hspec. destruct (oldest_pending d) as [job|] eqn:Hold.
  2: { rewrite (proj2 (count_where_0 is_pending _) Hspec) in Hn. lia. }
  destruct Hspec as (Hjob & Hpend & _). destruct (tick_step now d job Hnd Hold (Hok job Hjob)) as (f & Hjobs & Hf).
  assert (Hclosed : forall j, is_pending (f j) = false)
    by (intros k; destruct (Hf k) as (_ & _ & Hs); apply bool_decide_eq_false; intros E; rewrite E in Hs; by rewrite !elem_of_cons, elem_of_nil in Hs; naive_solver).
  assert (Hn' : count_where is_pending (resolve_jobs (tick now d)) = Z.of_nat n)
    by (rewrite Hjobs, (count_where_close (job_id job) is_pending f _ job) by done; lia).
  specialize (IH (tick now d) (tick_wf asked now d Hwf) Hn'). cbn [drain].
  destruct (decide (j = job)) as [-> |Hne].
  - rewrite Hpend. pose proof (IH (f job)) as H. rewrite Hclosed in H. destruct (Hf job) as (H1 & H2 & H3).
    exists (f job). split; [|done]. apply H. rewrite Hjobs. by apply update_row.
  - apply IH. rewrite Hjobs. apply update_other; [done|]. intros E. apply Hne.
    by apply (NoDup_map_inj job_id (resolve_jobs d)).
Qed.

(** C27: after any history the queue drains: as many undisturbed iterations of
    the worker as there are pending jobs finish each of them, done or failed,
    whatever the resolver answers, and touch no other job. *)
Theorem queue_drains cs now :
  let d := history columns resolve_fn cs in
  let d' := drain (List.length (List.filter is_pending (resolve_jobs d))) now d in
  forall j, In j (resolve_jobs d) ->
  if is_pending j
  then exists j', In j' (resolve_jobs d') /\ job_id j' = job_id j /\ job_finished j' = Some now
       /\ job_status j' ∈ ["done"; "failed"]
  else In j (resolve_jobs d').
Proof. eapply drain_spec; [apply history_wf|done]. Qed.
End run.

(** * Concrete runs *)
Module Demo.
Definition author (i : Z) (org : option Z) (label : string) : Entity :=
  mkEntity i org [("entity_type", Some "author"); ("primary_label", Some label)].
Definition resolver (value ty : string) (orcid : option string) : res (list AuthorityCandidate) :=
  if bool_decide (value = "Broken") then Raise (Exn "TimeoutError" "no answer")
  else Ok [mkCandidate "orcid" "0000" value [] None 800 None [] [] "unresolved" [] None].
Definition columns : list string := ["entity_type"; "primary_label"].
Definition never (n : nat) : option exn := None.
Definition tenants : AuthorityDb :=
  mkAuthorityDb [author 1 (Some 7) "Ada"; author 2 (Some 7) "Broken"; author 3 (Some 8) "Bob"; author 4 None "Zoe"] [] [] 0.
(** The tables after organisation [org] has enqueued. *)
Definition enqueued (org : option Z) : AuthorityDb :=
  sess_base (exec columns resolver (CEnqueueEntities (Some "1") never org 500) (clean tenants)).2.
Definition job (org : option Z) : ResolveJob := new_job (persisted_org_id org) FIELD "person" (entity_params 500 "author") 1.
Definition outcome (org : option Z) : list (option Z * string) * list (string * Z * Z * option string) :=
  let d := tick columns resolver 9 (enqueued org) in
  (map (fun r => (ar_org r, ar_value r)) (records d),
   map (fun j => (job_status j, job_processed j, job_created j, job_error j)) (resolve_jobs d)).

Example tenant_run : outcome (Some 8) = ([(Some 8, "Bob")], [("done", 1, 1, None)]).
Proof. vm_compute. reflexivity. Qed.
(** The route queues beside an open job, the ingest does not. *)
Definition editor : User := mkUser 1 "editor" None.
Definition batch : Call := CBatch None (mkTenants [] []) editor (mkBatch FIELD "person" 20 true None) false.
Definition open_after (cs : list Call) : Z :=
  count_where (open_for None "person" FIELD) (resolve_jobs (history columns resolver (CEdit (entities tenants) [] :: cs))).
Example two_batches :
  open_after [batch; batch] = 2 /\ requests None "person" FIELD [batch; batch] = 2%nat
  /\ open_after [batch; batch; CEnqueueEntities (Some "1") never (Some LEGACY_GLOBAL_ORG_ID) 500] = 2
  /\ open_after [CEnqueueEntities (Some "1") never (Some LEGACY_GLOBAL_ORG_ID) 500; batch] = 2.
Proof. vm_compute. auto. Qed.
(** The values before the failure keep their records. *)
Example failed_run : outcome (Some 7) = ([(Some 7, "Ada")], [("failed", 1, 1, Some "no answer")]).
Proof. vm_compute. reflexivity. Qed.
End Demo.

(** The job of the unowned scope is stored without an organisation, and the
    worker reads NULL as "every organisation": it resolves the tenants' values
    and files their records outside any tenant. *)
Lemma legacy_job_reads_every_tenant :
  has_unresolved_values (Some LEGACY_GLOBAL_ORG_ID) "author" Demo.tenants = true
  /\ distinct_values Demo.columns FIELD (Some LEGACY_GLOBAL_ORG_ID) (Some "author") Demo.tenants = Ok ["Zoe"]
  /\ Demo.outcome (Some LEGACY_GLOBAL_ORG_ID) = ([(None, "Ada")], [("failed", 1, 1, Some "no answer")]).
Proof. vm_compute. auto. Qed.

(** A text that does not parse raises before the try of [_run_job]: the job
    stays in processing, and no new one is enqueued for its field. *)
Definition stuck : AuthorityDb :=
  mkAuthorityDb (entities Demo.tenants) [] [mkJob 1 (Some 7) FIELD "person" (Some "{") "pending" 0 0 0 None None] 1.
Lemma unparsable_job_blocks :
  let d := tick Demo.columns Demo.resolver 9 stuck in
  map job_status (resolve_jobs d) = ["processing"]
  /\ (enqueue_entity_authority_jobs (Some "1") Demo.never (Some 7) 500 (clean d)).1 = Ok [].
Proof. vm_compute. auto. Qed.

(** The enqueue that "never raises" still loses the caller's pending rows when
    its own insert is refused: the failed flush rolls the transaction back. *)
Lemma refused_enqueue_drops_ingest :
  let ingest := mkSession Demo.tenants (mkAuthorityDb [] [] [] 0) in
  enqueue_entity_authority_jobs (Some "1") (fun _ => Some (Exn "OperationalError" "database is locked")) (Some 7) 500 ingest
  = (Ok [], clean (mkAuthorityDb [] [] [] 0)).
Proof. vm_compute. reflexivity. Qed.

Lemma queue_drains_witness :
  let cs := [CEdit (entities Demo.tenants) []; CEnqueueEntities (Some "1") Demo.never (Some 7) 500;
             CEnqueueEntities (Some "1") Demo.never (Some 8) 500] in
  let d := history Demo.columns Demo.resolver cs in
  let d' := drain Demo.columns Demo.resolver 2 9 d in
  map job_status (resolve_jobs d) = ["pending"; "pending"]
  /\ exists j j', hd_error (resolve_jobs d) = Some j /\ In j' (resolve_jobs d') /\ job_id j' = job_id j /\ job_finished j' = Some 9
     /\ job_status j' ∈ ["done"; "failed"].
Proof.
  intros cs d d'. split; [vm_compute; reflexivity|].
  assert (Hd : exists j, hd_error (resolve_jobs d) = Some j /\ is_pending j = true) by (vm_compute; eexists; split; reflexivity).
  destruct Hd as (j & Hj & Hp). exists j.
  assert (Hin : In j (resolve_jobs d)) by (destruct (resolve_jobs d); [done|left; by injection Hj]).
  pose proof (queue_drains Demo.columns Demo.resolver cs 9 j Hin) as H. rewrite Hp in H.
  destruct H as (j' & H1 & H2). exists j'. split; [exact Hj|]. split; [|exact H2].
  replace (List.length (List.filter is_pending (resolve_jobs (history Demo.columns Demo.resolver cs)))) with 2%nat in H1 by (vm_compute; reflexivity).
  exact H1.
Defined.

Lemma run_job_exact_witness :
  let d := Demo.enqueued (Some 7) in
  let out := run_result Demo.columns Demo.resolver 9 (Demo.job (Some 7)) (mkParams 500 true (Some "author") None) d in
  run_job Demo.columns Demo.resolver 9 (Demo.job (Some 7)) (clean d) = (Ok tt, clean (with_run (Demo.job (Some 7)) out d))
  /\ In (out.2 (Demo.job (Some 7))) (resolve_jobs (with_run (Demo.job (Some 7)) out d)).
Proof.
  pose proof (run_job_exact Demo.columns Demo.resolver 9 (Demo.job (Some 7)) (mkParams 500 true (Some "author") None)
    (Demo.enqueued (Some 7))) as H.
  destruct H as (H1 & H2 & _); [vm_compute; reflexivity|vm_compute; auto|]. split; [exact H1|exact H2].
Defined.
Lemma tenant_job_confined_witness :
  exists new, records (sess_base (run_job Demo.columns Demo.resolver 9 (Demo.job (Some 8)) (clean (Demo.enqueued (Some 8)))).2) = [] ++ new
    /\ forall r, In r new -> ar_org r = Some 8.
Proof.
  destruct (tenant_job_confined Demo.columns Demo.resolver 8 9 (Demo.job (Some 8)) (Demo.enqueued (Some 8)))
    as (_ & new & H1 & _ & _ & H2); [vm_compute; congruence|reflexivity|].
  exists new. split; [exact H1|exact H2].
Defined.
