(* ===== verification/Transform.v ===== *)
(** * The transformation mini-language (src/backend/transformations/engine.py)

    The regular expressions are matched by hand over the characters, greedy as
    in CPython. [html.unescape] is a parameter: its table of entities is data of
    the standard library. *)
From S2P Require Import Prelude PyStr PyJson PyValue.
From Stdlib Require Import Ascii String DecimalString.

Local Open Scope string_scope.
Local Open Scope list_scope.
Local Open Scope Z_scope.
Local Open Scope py_scope.

Definition TransformError (msg : string) : exn := Exn "TransformError" msg.
Definition DQ : ascii := ascii_of_N 34.
Definition SQ : ascii := "'"%char.
Definition is_quote (c : ascii) : bool := bool_decide (c = DQ) || bool_decide (c = SQ).
Definition is_digit (c : ascii) : bool := let n := code c in ((48 <=? n) && (n <=? 57))%N.
Definition ident_start (c : ascii) : bool :=
  let n := code c in ((65 <=? n) && (n <=? 90) || (97 <=? n) && (n <=? 122) || (n =? 95))%N.
Definition ident_char (c : ascii) : bool := ident_start c || is_digit c.

(** * The regular expressions *)
(** [\s*$] from the right. *)
Definition rtrim (l : list ascii) : list ascii := rev (drop_while is_space (rev l)).

(** The group of the quoted-string pattern: a quote, anything, a last quote. *)
Definition QSTR_RE (l : list ascii) : option (list ascii) :=
  match l with
  | c :: l => if is_quote c then
                match drop_while is_space (rev l) with
                | c' :: inner => if is_quote c' then Some (rev inner) else None
                | [] => None
                end
              else None
  | [] => None
  end.
(** [^-?\d+$] *)
Definition INT_RE (l : list ascii) : bool :=
  let digits := match l with "-"%char :: l => l | _ => l end in
  match digits with [] => false | _ => forallb is_digit digits end.
(** The groups of [_SUBSCRIPT_RE], "anything, then a bracketed text without a
    closing bracket, then spaces": the last bracket that leaves a non-empty text. *)
Fixpoint last_open (acc r : list ascii) : option (list ascii * list ascii) :=
  match r with
  | [] => None
  | c :: r =>
      if bool_decide (c = "]"%char) then None
      else if bool_decide (c = "["%char) && match acc with [] => false | _ => true end then Some (rev r, acc)
      else last_open (c :: acc) r
  end.
Definition SUBSCRIPT_RE (l : list ascii) : option (list ascii * list ascii) :=
  match drop_while is_space (rev l) with
  | "]"%char :: r => last_open [] r
  | _ => None
  end.
(** The groups of [_EXPR_RE]: "value", a dot, an identifier, and what stands
    between the parenthesis after it and the last one. *)
Definition after_value (l : list ascii) : option (list ascii) :=
  match l with
  | "v"%char :: "a"%char :: "l"%char :: "u"%char :: "e"%char :: l =>
      match drop_while is_space l with "."%char :: l => Some (drop_while is_space l) | _ => None end
  | _ => None
  end.
Definition call_of (l : list ascii) : option (list ascii * list ascii) :=
  match l with
  | c :: _ =>
      if ident_start c then
        match drop_while is_space (drop_while ident_char l) with
        | "("%char :: l' => match drop_while is_space (rev l') with
                            | ")"%char :: r => Some (take_while ident_char l, rev r)
                            | _ => None
                            end
        | _ => None
        end
      else None
  | [] => None
  end.
Definition EXPR_RE (l : list ascii) : option (list ascii * list ascii) :=
  match after_value l with Some l => call_of l | None => None end.

(** * Arguments *)
Definition parse_str_arg (raw : string) : res string :=
  let raw := strip raw in
  match QSTR_RE (chars raw) with
  | Some l => Ok (of_chars l)
  | None => Raise (TransformError ("Expected a quoted string, got: " ++ repr_str raw))
  end.
(** [int()] refuses more than 4300 digits. *)
Definition INT_MAX_DIGITS : Z := 4300.
Definition py_int (s : string) : res Z :=
  let n := Z.of_nat (List.length (List.filter is_digit (chars s))) in
  if INT_MAX_DIGITS <? n then
    Raise (Exn "ValueError" ("Exceeds the limit (4300 digits) for integer string conversion: value has " ++ str_of_Z n
                             ++ " digits; use sys.set_int_max_str_digits() to increase the limit"))
  else match NilZero.int_of_string s with
       | Some i => Ok (Z.of_int i)
       | None => Raise (Exn "ValueError" ("invalid literal for int() with base 10: " ++ repr_str s))
       end.
Definition parse_int_arg (raw : string) : res Z :=
  let raw := strip raw in
  if negb (INT_RE (chars raw)) then Raise (TransformError ("Expected an integer, got: " ++ repr_str raw))
  else py_int raw.

Fixpoint split_args_go (depth : Z) (in_quote : option ascii) (current : list ascii) (args : list string) (l : list ascii)
  : list string :=
  match l with
  | [] => match current with [] => args | _ => args ++ [strip (of_chars (rev current))] end
  | ch :: l =>
      if is_quote ch && bool_decide (in_quote = None) then split_args_go depth (Some ch) (ch :: current) args l
      else if bool_decide (Some ch = in_quote) then split_args_go depth None (ch :: current) args l
      else if bool_decide (ch = ","%char) && bool_decide (in_quote = None) && (depth =? 0)
      then split_args_go depth in_quote [] (args ++ [strip (of_chars (rev current))]) l
      else
        let depth := if bool_decide (ch = "("%char) && bool_decide (in_quote = None) then depth + 1
                     else if bool_decide (ch = ")"%char) && bool_decide (in_quote = None) then depth - 1 else depth in
        split_args_go depth in_quote (ch :: current) args l
  end.
Definition split_args (raw : string) : list string := split_args_go 0 None [] [] (chars raw).

(** * The functions *)
(** A cased character, below 256. *)
Definition is_cased (c : ascii) : bool :=
  let n := code c in
  let in_ a b := ((a <=? n) && (n <=? b))%N in
  in_ 65%N 90%N || in_ 97%N 122%N || in_ 170%N 170%N || in_ 181%N 181%N || in_ 186%N 186%N || in_ 192%N 214%N
  || in_ 216%N 246%N || in_ 248%N 255%N.
Fixpoint title_go (prev : bool) (l : list ascii) : list ascii :=
  match l with
  | [] => []
  | c :: l => (if prev then lower_char c else upper_char c) :: title_go (is_cased c) l
  end.
Definition title (s : string) : string := on_chars (title_go false) s.

(** [re.sub] of the pattern <[^>]+> by nothing: [skip] counts the characters of a match still to
    be passed over. *)
Definition tag_length (l : list ascii) : option nat :=
  match l with
  | "<"%char :: l =>
      let body := take_while (fun c => negb (bool_decide (c = ">"%char))) l in
      match body, drop_while (fun c => negb (bool_decide (c = ">"%char))) l with
      | _ :: _, _ :: _ => Some (S (List.length body))
      | _, _ => None
      end
  | _ => None
  end.
Fixpoint remove_tags (skip : nat) (l : list ascii) : list ascii :=
  match l with
  | [] => []
  | c :: l' =>
      match skip with
      | S k => remove_tags k l'
      | O => match tag_length l with Some k => remove_tags k l' | None => c :: remove_tags O l' end
      end
  end.

(** What [float] accepts of digits, dots and hyphens. *)
Definition float_text (l : list ascii) : bool :=
  let l := match l with "-"%char :: l => l | _ => l end in
  let rest := drop_while is_digit l in
  match rest with
  | [] => match l with [] => false | _ => true end
  | "."%char :: frac => forallb is_digit frac && match take_while is_digit l ++ frac with [] => false | _ => true end
  | _ => false
  end.
Definition number_chars (l : list ascii) : list ascii :=
  List.filter (fun c => is_digit c || bool_decide (c = "."%char) || bool_decide (c = "-"%char)) l.

(** [value.split(delim)] *)
Definition py_split (delim value : string) : res (list string) :=
  if bool_decide (delim = "") then Raise (Exn "ValueError" "empty separator") else Ok (split_on delim value).

Section engine.
Context (unescape : string -> string).

Definition apply_func (func_name args_raw value : string) : res string :=
  let fn := lower func_name in
  let args := if truthy (strip args_raw) then split_args args_raw else [] in
  if bool_decide (fn = "trim") then Ok (strip value)
  else if bool_decide (fn = "upper") then Ok (upper value)
  else if bool_decide (fn = "lower") then Ok (lower value)
  else if bool_decide (fn = "title") then Ok (title value)
  else if bool_decide (fn = "replace") then
    match args with
    | [a; b] => let? old := parse_str_arg a in let? new := parse_str_arg b in Ok (replace_all old new value)
    | _ => Raise (TransformError "replace() requires exactly 2 arguments: replace('old','new')")
    end
  else if bool_decide (fn = "prefix") then
    match args with
    | [a] => let? pfx := parse_str_arg a in Ok (if negb (startswith value pfx) then (pfx ++ value)%string else value)
    | _ => Raise (TransformError "prefix() requires exactly 1 argument")
    end
  else if bool_decide (fn = "suffix") then
    match args with
    | [a] => let? sfx := parse_str_arg a in Ok (if negb (endswith value sfx) then (value ++ sfx)%string else value)
    | _ => Raise (TransformError "suffix() requires exactly 1 argument")
    end
  else if bool_decide (fn = "strip_html") then Ok (strip (unescape (on_chars (remove_tags 0) value)))
  else if bool_decide (fn = "to_number") then
    let cleaned := number_chars (chars value) in Ok (if float_text cleaned then of_chars cleaned else "")
  else if bool_decide (fn = "slice") then
    match args with
    | [a] => let? start := parse_int_arg a in Ok (on_chars (slice start None) value)
    | [a; b] => let? start := parse_int_arg a in let? stop := parse_int_arg b in Ok (on_chars (slice start (Some stop)) value)
    | _ => Raise (TransformError "slice() requires 1 or 2 integer arguments: slice(start) or slice(start,end)")
    end
  else if bool_decide (fn = "split") then
    match args with
    | [a] => let? delim := parse_str_arg a in let? parts := py_split delim value in Ok (join delim parts)
    | _ => Raise (TransformError "split() requires exactly 1 argument: split(',')")
    end
  else if bool_decide (fn = "strip") then
    match args with
    | [] => Ok (strip value)
    | a :: _ => let? cs := parse_str_arg a in Ok (strip_chars cs value)
    end
  else Raise (TransformError ("Unknown function '" ++ func_name
    ++ "'. Supported: trim, upper, lower, title, replace, prefix, suffix, strip_html, to_number, slice, split, strip")).

Definition invalid_expression (expr : string) : exn :=
  TransformError ("Invalid expression: " ++ repr_str expr
    ++ ". Must be value.function(args) - e.g. value.trim(), value.replace('old','new')").

(** The two cases of a parsed call. *)
Definition apply_call (func_name args_raw : string) (subscript : option Z) (value : string) : res string :=
  match subscript with
  | Some i =>
      if bool_decide (lower func_name = "split") then
        match split_args args_raw with
        | [a] => let? delim := parse_str_arg a in let? parts := py_split delim value in
                 Ok (match nth_item i parts with Some p => strip p | None => "" end)
        | _ => Raise (TransformError "split() requires exactly 1 argument")
        end
      else let? result := apply_func func_name args_raw value in
           Ok (match nth_item i (tokens_of result) with Some p => p | None => "" end)
  | None => apply_func func_name args_raw value
  end.
(** The expression and the subscript it ends with. *)
Definition parse_subscript (expr : string) : res (string * option Z) :=
  match SUBSCRIPT_RE (chars expr) with
  | Some (inner, idx) => let? i := parse_int_arg (strip (of_chars idx)) in Ok (strip (of_chars inner), Some i)
  | None => Ok (expr, None)
  end.
Definition apply_expression (expr : string) (value : option string) : res string :=
  match value with
  | None => Ok ""
  | Some value =>
      let? (expr, subscript) := parse_subscript (strip expr) in
      match EXPR_RE (chars expr) with
      | None => Raise (invalid_expression expr)
      | Some (func_name, args_raw) => apply_call (of_chars func_name) (of_chars args_raw) subscript value
      end
  end.
Definition validate_expression (expr : string) : res unit :=
  let? _ := apply_expression expr (Some "test_value") in Ok tt.
End engine.

Definition TRANSFORMABLE_FIELDS : list string :=
  ["primary_label"; "secondary_label"; "canonical_id"; "entity_type"; "domain"; "validation_status"; "enrichment_source";
   "enrichment_concepts"].
