(* ===== verification/TransformClaims.v ===== *)
(** * Theorems on the transformation language

    Whether an expression is accepted does not depend on the value, so a
    validated expression never fails on a record; a call printed in the
    documented syntax means what its name says; which calls a second application
    leaves alone. *)
From S2P Require Import Prelude PyStr PyJson PyValue PyStrFacts Transform.
From Stdlib Require Import Ascii String DecimalString DecimalZ.

Local Open Scope string_scope.
Local Open Scope list_scope.
Local Open Scope Z_scope.
Local Open Scope py_scope.

(** * Validity does not depend on the value *)
(** Both return, or both raise the same exception. *)
Definition agree {A B} (r : res A) (r' : res B) : Prop :=
  match r, r' with Ok _, Ok _ => True | Raise e, Raise e' => e = e' | _, _ => False end.
Lemma agree_bind {A B C} (r : res A) (k : A -> res B) (k' : A -> res C) :
  (forall a, agree (k a) (k' a)) -> agree (let? a := r in k a) (let? a := r in k' a).
Proof. intros H. destruct r; [apply H|done]. Qed.
Lemma agree_bind2 {A B C E} (r : res A) (r' : res B) (k : A -> res C) (k' : B -> res E) :
  agree r r' -> (forall a b, agree (k a) (k' b)) -> agree (let? a := r in k a) (let? b := r' in k' b).
Proof. intros Hr H. destruct r, r'; try done. apply H. Qed.
Lemma agree_split d v w : agree (py_split d v) (py_split d w).
Proof. unfold py_split. by case_bool_decide. Qed.
Create HintDb transform.
#[export] Hint Resolve agree_bind agree_bind2 agree_split : transform.
Ltac agree_step :=
  match goal with
  | |- agree (if ?b then _ else _) (if ?b then _ else _) => destruct b
  | |- agree (match ?x with _ => _ end) (match ?x with _ => _ end) => destruct x
  | |- agree (res_bind (py_split _ _) _) _ => apply agree_bind2; [apply agree_split|intros ??]
  | |- agree (res_bind ?r _) (res_bind ?r _) => apply agree_bind; intros ?
  | |- agree _ _ => done
  end.

Section engine.
Context (unescape : string -> string).

Lemma apply_func_agree fn args v w : agree (apply_func unescape fn args v) (apply_func unescape fn args w).
Proof. unfold apply_func. repeat agree_step. Qed.
Lemma apply_call_agree fn args i v w : agree (apply_call unescape fn args i v) (apply_call unescape fn args i w).
Proof.
  unfold apply_call. pose proof (apply_func_agree fn args v w). repeat agree_step. by apply agree_bind2.
Qed.
Lemma apply_expression_agree e v w : agree (apply_expression unescape e (Some v)) (apply_expression unescape e (Some w)).
Proof. unfold apply_expression. repeat agree_step. apply apply_call_agree. Qed.

(** C25: validation decides the expression for every value: an accepted
    expression returns a text on every value, and one that fails on any value is
    refused with that very exception. *)
Theorem validated_never_raises e :
  (validate_expression unescape e = Ok tt /\ forall v, exists w, apply_expression unescape e v = Ok w)
  \/ (exists exc, validate_expression unescape e = Raise exc /\ forall v, apply_expression unescape e (Some v) = Raise exc).
Proof.
  unfold validate_expression. destruct (apply_expression unescape e (Some "test_value")) as [t|exc] eqn:E.
  - left. split; [done|]. intros [v|]; [|by eexists]. pose proof (apply_expression_agree e "test_value" v) as H.
    rewrite E in H. destruct (apply_expression _ _ (Some v)); [by eexists|done].
  - right. exists exc. split; [done|]. intros v. pose proof (apply_expression_agree e "test_value" v) as H.
    rewrite E in H. destruct (apply_expression _ _ (Some v)); [done|by rewrite H].
Qed.
End engine.



(** * The printed calls *)
Inductive func :=
  | Trim | Upper | Lower | Title | Replace (old new : string) | Prefix (pfx : string) | Suffix (sfx : string) | StripHtml
  | ToNumber | Slice (start : Z) (stop : option Z) | Split (delim : string) | Strip | StripChars (cs : string).

(** A text between double quotes, without one inside. *)
Definition dquoted (s : string) : string := String DQ (s ++ String DQ "").
Definition func_name (f : func) : string :=
  match f with
  | Trim => "trim" | Upper => "upper" | Lower => "lower" | Title => "title" | Replace _ _ => "replace" | Prefix _ => "prefix"
  | Suffix _ => "suffix" | StripHtml => "strip_html" | ToNumber => "to_number" | Slice _ _ => "slice" | Split _ => "split"
  | Strip => "strip" | StripChars _ => "strip"
  end.
Definition func_args (f : func) : string :=
  match f with
  | Replace a b => (dquoted a ++ "," ++ dquoted b)%string
  | Prefix a | Suffix a | Split a | StripChars a => dquoted a
  | Slice a None => str_of_Z a
  | Slice a (Some b) => (str_of_Z a ++ "," ++ str_of_Z b)%string
  | _ => ""
  end.
Definition print_call (f : func) (subscript : option Z) : string :=
  ("value." ++ func_name f ++ "(" ++ func_args f ++ ")"
   ++ match subscript with Some i => "[" ++ str_of_Z i ++ "]" | None => "" end)%string.

(** Texts hold no double quote, a delimiter is not empty, integers have at most
    4300 digits. *)
Definition text_ok (s : string) : Prop := no_char DQ s = true.
Definition int_ok (z : Z) : Prop := Z.of_nat (String.length (str_of_Z z)) <= INT_MAX_DIGITS.
Definition func_ok (f : func) : Prop :=
  match f with
  | Replace a b => text_ok a /\ text_ok b
  | Prefix a | Suffix a | StripChars a => text_ok a
  | Split a => text_ok a /\ a <> ""
  | Slice a None => int_ok a
  | Slice a (Some b) => int_ok a /\ int_ok b
  | _ => True
  end.

Section meaning.
Context (unescape : string -> string).
(** What a call means. *)
Definition eval (f : func) (v : string) : string :=
  match f with
  | Trim | Strip => strip v
  | Upper => upper v
  | Lower => lower v
  | Title => title v
  | Replace old new => replace_all old new v
  | Prefix p => if startswith v p then v else (p ++ v)%string
  | Suffix s => if endswith v s then v else (v ++ s)%string
  | StripHtml => strip (unescape (on_chars (remove_tags 0) v))
  | ToNumber => let cleaned := number_chars (chars v) in if float_text cleaned then of_chars cleaned else ""
  | Slice a b => on_chars (slice a b) v
  | Split _ => v
  | StripChars cs => strip_chars cs v
  end.
(** With a subscript: a piece of a split, a word of any other result. *)
Definition eval_call (f : func) (subscript : option Z) (v : string) : string :=
  match subscript with
  | None => eval f v
  | Some i => match f with
              | Split d => match nth_item i (split_on d v) with Some p => strip p | None => "" end
              | _ => match nth_item i (tokens_of (eval f v)) with Some p => p | None => "" end
              end
  end.
End meaning.

(** ** The lexical parts of a printed call *)
Lemma dquoted_chars s : dquoted s = of_chars (DQ :: chars s ++ [DQ]).
Proof. unfold dquoted. cbn [of_chars]. f_equal. rewrite of_chars_app. by rewrite of_chars_chars. Qed.
Lemma QSTR_quoted l : QSTR_RE (DQ :: l ++ [DQ]) = Some l.
Proof.
  unfold QSTR_RE. rewrite rev_app_distr. change (rev [DQ] ++ rev l) with (DQ :: rev l). cbn [drop_while].
  change (is_space DQ) with false. change (is_quote DQ) with true. cbn iota. by rewrite rev_involutive.
Qed.
Lemma parse_dquoted s : parse_str_arg (dquoted s) = Ok s.
Proof.
  unfold parse_str_arg. rewrite dquoted_chars, strip_solid by done. rewrite chars_of_chars, QSTR_quoted.
  by rewrite of_chars_chars.
Qed.

(** The digits of an integer. *)
Lemma uint_digits d : forallb is_digit (chars (NilEmpty.string_of_uint d)) = true.
Proof. induction d; cbn; auto. Qed.
Lemma str_of_Z_shape z : exists sign digits, chars (str_of_Z z) = sign ++ digits /\ (sign = [] \/ sign = ["-"%char])
  /\ digits <> [] /\ forallb is_digit digits = true.
Proof.
  unfold str_of_Z, NilZero.string_of_int. destruct (Z.to_int z) as [d|d].
  - exists [], (chars (NilZero.string_of_uint d)). repeat split; [by left|by destruct d|]. destruct d; [done|apply uint_digits..].
  - exists ["-"%char], (chars (NilZero.string_of_uint d)). repeat split; [by right|by destruct d|]. destruct d; [done|apply uint_digits..].
Qed.
Lemma str_of_Z_plain z : Forall (fun c => is_digit c = true \/ c = "-"%char) (chars (str_of_Z z)).
Proof.
  destruct (str_of_Z_shape z) as (sign & digits & -> & Hs & _ & Hd). apply Forall_app. split.
  - destruct Hs as [-> | ->]; [constructor|]. constructor; [by right|constructor].
  - rewrite forallb_forall in Hd. apply Forall_forall. intros c Hc%list_elem_of_In. auto.
Qed.
Lemma plain_char c : is_digit c = true \/ c = "-"%char ->
  is_space c = false /\ is_quote c = false /\ c <> ","%char /\ c <> "("%char /\ c <> ")"%char /\ c <> "["%char /\ c <> "]"%char.
Proof.
  revert c. apply (all_chars (fun c => is_digit c = true \/ c = "-"%char ->
    is_space c = false /\ is_quote c = false /\ c <> ","%char /\ c <> "("%char /\ c <> ")"%char /\ c <> "["%char /\ c <> "]"%char)).
  vm_compute. reflexivity.
Qed.
Lemma strip_Z z : strip (str_of_Z z) = str_of_Z z.
Proof. apply strip_id. eapply Forall_impl; [apply str_of_Z_plain|]. intros c Hc. by destruct (plain_char c Hc). Qed.
Lemma parse_int_Z z : int_ok z -> parse_int_arg (str_of_Z z) = Ok z.
Proof.
  intros Hz. unfold parse_int_arg. rewrite strip_Z.
  assert (INT_RE (chars (str_of_Z z)) = true) as ->.
  { destruct (str_of_Z_shape z) as (sign & digits & -> & Hs & Hne & Hd). unfold INT_RE. destruct Hs as [-> | ->].
    - destruct digits as [|c digits]; [done|]. cbn [app]. destruct (decide (c = "-"%char)) as [-> |Hc]; [done|].
      rewrite <- Hd. destruct c as [[] [] [] [] [] [] [] []]; try done.
    - cbn [app]. by destruct digits. }
  cbn [negb]. unfold py_int, int_ok in *.
  pose proof (filter_length_le is_digit (chars (str_of_Z z))) as Hl. rewrite chars_length in Hl.
  replace (INT_MAX_DIGITS <? _) with false by lia. by rewrite int_of_str_of_Z, of_to.
Qed.

(** ** The arguments *)
Lemma split_quoted a : text_ok a -> forall cur args l,
  split_args_go 0 (Some DQ) cur args (chars a ++ DQ :: l) = split_args_go 0 None (DQ :: rev (chars a) ++ cur) args l.
Proof.
  intros Ha%no_char_chars. induction Ha as [|c s Hc _ IH]; intros cur args l; cbn [app rev].
  - cbn [split_args_go]. by rewrite andb_false_r, bool_decide_true.
  - cbn [split_args_go]. rewrite andb_false_r, (bool_decide_false (Some c = Some DQ)) by congruence.
    rewrite !andb_false_r. cbn [andb]. rewrite IH. by rewrite <- app_assoc.
Qed.
Lemma split_plain l0 : Forall (fun c => is_digit c = true \/ c = "-"%char) l0 -> forall cur args l,
  split_args_go 0 None cur args (l0 ++ l) = split_args_go 0 None (rev l0 ++ cur) args l.
Proof.
  induction 1 as [|c s Hc _ IH]; intros cur args l; cbn [app rev]; [done|].
  destruct (plain_char c Hc) as (_ & Hq & H1 & H2 & H3 & _). cbn [split_args_go]. rewrite Hq. cbn [andb].
  rewrite (bool_decide_false (Some c = None)), (bool_decide_false (c = ","%char)), (bool_decide_false (c = "("%char)),
    (bool_decide_false (c = ")"%char)) by done.
  cbn [andb]. rewrite IH. by rewrite <- app_assoc.
Qed.

(** A text that the splitter takes as one argument. *)
Record argument (t : string) : Prop := {
  arg_scan : forall args l, split_args_go 0 None [] args (chars t ++ l) = split_args_go 0 None (rev (chars t)) args l;
  arg_strip : strip t = t;
  arg_ne : t <> ""
}.
Lemma argument_text a : text_ok a -> argument (dquoted a).
Proof.
  intros Ha. assert (E : chars (dquoted a) = DQ :: chars a ++ [DQ]) by (by rewrite dquoted_chars, chars_of_chars).
  split; [|by rewrite dquoted_chars, strip_solid|done]. intros args l. rewrite E. cbn [app].
  cbn [split_args_go]. change (is_quote DQ && bool_decide (None = None)) with true. cbv iota. rewrite <- app_assoc.
  cbn [app]. rewrite split_quoted by done. f_equal. cbn [rev]. by rewrite rev_app_distr.
Qed.
Lemma argument_Z z : argument (str_of_Z z).
Proof.
  split; [|apply strip_Z|].
  - intros args l. rewrite split_plain by apply str_of_Z_plain. by rewrite app_nil_r.
  - intros E. destruct (str_of_Z_shape z) as (sign & digits & Hc & _ & Hne & _). rewrite E in Hc.
    by destruct sign, digits.
Qed.
Lemma scan_end t args : t <> "" -> split_args_go 0 None (rev (chars t)) args [] = args ++ [strip t].
Proof.
  intros Ht. cbn [split_args_go]. destruct (rev (chars t)) as [|c r] eqn:E.
  - apply (f_equal (@rev ascii)) in E. rewrite rev_involutive in E. by destruct t.
  - by rewrite <- E, rev_involutive, of_chars_chars.
Qed.
Lemma split_one t : argument t -> split_args t = [t].
Proof.
  intros [Hs Ht Hn]. unfold split_args. rewrite <- (app_nil_r (chars t)), Hs, scan_end by done. by rewrite Ht.
Qed.
Lemma split_two t u : argument t -> argument u -> split_args (t ++ "," ++ u)%string = [t; u].
Proof.
  intros [Hs Ht Hn] [Hs' Hu Hn']. unfold split_args. rewrite !chars_app, Hs. cbn [chars app split_args_go].
  change (is_quote ","%char) with false. cbn [andb]. rewrite (bool_decide_false (Some ","%char = None)) by done.
  change (bool_decide (","%char = ","%char) && bool_decide (@None ascii = None) && (0 =? 0)) with true. cbv iota.
  rewrite rev_involutive, of_chars_chars, Ht, <- (app_nil_r (chars u)), Hs', scan_end by done. by rewrite Hu.
Qed.

(** ** A printed call parses back *)
(** Decide the tests on closed names. *)
Ltac names := repeat match goal with
  | |- context [bool_decide (?a = ?b)] => let r := eval vm_compute in (bool_decide (a = b)) in
      match r with true => idtac | false => idtac end; change (bool_decide (a = b)) with r
  end; cbv iota.

Section parse.
Context (unescape : string -> string).

(** The arguments of a printed call, as [_apply_func] reads them. *)
Lemma args_one t : argument t -> (if truthy (strip t) then split_args t else []) = [t].
Proof.
  intros H. pose proof H as [_ Ht Hn]. rewrite Ht. unfold truthy. rewrite bool_decide_false by done. by apply split_one.
Qed.
Lemma args_two t u : argument t -> argument u ->
  (if truthy (strip (t ++ "," ++ u)) then split_args (t ++ "," ++ u)%string else []) = [t; u].
Proof.
  intros Ht Hu. rewrite (strip_truthy _ ","%char); [by apply split_two| |done].
  rewrite !chars_app, !in_app_iff. cbn. auto.
Qed.
Lemma apply_printed f v : func_ok f -> apply_func unescape (func_name f) (func_args f) v = Ok (eval unescape f v).
Proof.
  intros Hf. unfold apply_func. cbv zeta.
  destruct f as [| | | |old new|pfx|sfx| | |a [b|]|d| |cs]; cbn [func_name func_args eval func_ok] in *; names; try done.
  all: try (rewrite args_two by (apply argument_Z || (apply argument_text; tauto))).
  all: try (rewrite args_one by (apply argument_Z || (apply argument_text; tauto))).
  all: rewrite ?parse_dquoted; cbn [res_bind]; try done.
  - by destruct (startswith v pfx).
  - by destruct (endswith v sfx).
  - by rewrite !parse_int_Z by tauto.
  - by rewrite !parse_int_Z by tauto.
  - unfold py_split. rewrite bool_decide_false by tauto. cbn [res_bind]. by rewrite join_split by tauto.
Qed.

(** The printed call without its subscript. *)
Definition base_chars (f : func) : list ascii := chars "value." ++ chars (func_name f) ++ "("%char :: chars (func_args f).
Lemma print_base f : chars (print_call f None) = base_chars f ++ [")"%char].
Proof. unfold print_call, base_chars. by rewrite !chars_app, <- !app_assoc. Qed.
Lemma print_subscript f i :
  chars (print_call f (Some i)) = (base_chars f ++ [")"%char]) ++ "["%char :: chars (str_of_Z i) ++ ["]"%char].
Proof. unfold print_call, base_chars. by rewrite !chars_app, <- !app_assoc. Qed.
Lemma strip_print f l c : is_space c = false -> strip (of_chars (base_chars f ++ l ++ [c])) = of_chars (base_chars f ++ l ++ [c]).
Proof. intros Hc. rewrite app_assoc. by apply (strip_solid "v"%char (tl (base_chars f) ++ l) c). Qed.
Lemma strip_base f : strip (of_chars (base_chars f ++ [")"%char])) = of_chars (base_chars f ++ [")"%char]).
Proof. by apply (strip_print f []). Qed.
Lemma EXPR_print f : EXPR_RE (base_chars f ++ [")"%char]) = Some (chars (func_name f), chars (func_args f)).
Proof.
  assert (H : forall args, match drop_while is_space (rev (args ++ [")"%char])) with
                           | ")"%char :: r => Some (chars (func_name f), rev r) | _ => None end = Some (chars (func_name f), args))
    by (intros args; rewrite rev_app_distr; change (rev [")"%char] ++ rev args) with (")"%char :: rev args); cbn [drop_while];
        change (is_space ")"%char) with false; cbv iota; by rewrite rev_involutive).
  unfold base_chars. rewrite <- !app_assoc. cbn [app]. specialize (H (chars (func_args f))). revert H.
  generalize (chars (func_args f)). intros args H. by destruct f.
Qed.
Lemma SUBSCRIPT_none l : SUBSCRIPT_RE (l ++ [")"%char]) = None.
Proof. unfold SUBSCRIPT_RE. by rewrite rev_app_distr. Qed.
Lemma last_open_plain l acc r :
  Forall (fun c => is_digit c = true \/ c = "-"%char) l -> acc ++ l <> [] -> last_open acc (l ++ "["%char :: r) = Some (rev r, rev l ++ acc).
Proof.
  intros Hl. revert acc. induction Hl as [|c l Hc _ IH]; intros acc Hne; cbn [app last_open rev].
  - rewrite (bool_decide_false ("["%char = "]"%char)), bool_decide_true by done. rewrite app_nil_r in Hne. by destruct acc.
  - destruct (plain_char c Hc) as (_ & _ & _ & _ & _ & H1 & H2). rewrite !bool_decide_false by done. cbn [andb].
    rewrite IH by by destruct acc. by rewrite <- app_assoc.
Qed.
Lemma SUBSCRIPT_print l i : SUBSCRIPT_RE (l ++ "["%char :: chars (str_of_Z i) ++ ["]"%char]) = Some (l, chars (str_of_Z i)).
Proof.
  unfold SUBSCRIPT_RE. rewrite rev_app_distr. cbn [rev]. rewrite rev_app_distr. cbn [rev app drop_while].
  change (is_space "]"%char) with false. cbv iota. rewrite <- !app_assoc. cbn [app].
  rewrite last_open_plain.
  - by rewrite rev_involutive, rev_involutive, app_nil_r.
  - apply Forall_rev, str_of_Z_plain.
  - cbn. intros E. apply (f_equal (@rev ascii)) in E. rewrite rev_involutive in E.
    destruct (str_of_Z_shape i) as (sign & digits & Hc & _ & Hne & _). rewrite E in Hc. by destruct sign, digits.
Qed.

Lemma apply_printed_call f i v : func_ok f ->
  apply_call unescape (func_name f) (func_args f) i v = Ok (eval_call unescape f i v).
Proof.
  intros Hf. unfold apply_call, eval_call. destruct i as [i|]; [|by apply apply_printed].
  destruct (match f with Split _ => true | _ => false end) eqn:Hs.
  - destruct f as [| | | | | | | | | |d| |]; try done. cbn [func_name func_args func_ok] in *. names. rewrite split_one by (apply argument_text; tauto).
    rewrite parse_dquoted. cbn [res_bind]. unfold py_split. rewrite bool_decide_false by tauto. done.
  - rewrite apply_printed by done. by destruct f; cbn [func_name]; names.
Qed.

(** a call printed in the documented syntax, with quoted texts, signed
    integers and an optional subscript, is parsed back and computes its meaning
    on every value; a split without a subscript is the identity. *)
Theorem printed_call_meaning f i v :
  func_ok f -> match i with Some i => int_ok i | None => True end ->
  apply_expression unescape (print_call f i) (Some v) = Ok (eval_call unescape f i v).
Proof.
  intros Hf Hi. unfold apply_expression. rewrite <- (of_chars_chars (print_call f i)).
  destruct i as [i|]; [rewrite print_subscript|rewrite print_base].
  - rewrite <- app_assoc. change ("["%char :: chars (str_of_Z i) ++ ["]"%char]) with (("["%char :: chars (str_of_Z i)) ++ ["]"%char]).
    rewrite (app_assoc [")"%char]), strip_print, <- app_assoc by done. unfold parse_subscript. rewrite chars_of_chars, app_assoc.
    cbn [app]. rewrite SUBSCRIPT_print, of_chars_chars, strip_Z, parse_int_Z by done. cbn [res_bind].
    rewrite strip_base, chars_of_chars, EXPR_print, !of_chars_chars. by apply apply_printed_call.
  - rewrite strip_base. unfold parse_subscript. rewrite chars_of_chars, SUBSCRIPT_none. cbn [res_bind].
    rewrite chars_of_chars, EXPR_print, !of_chars_chars. by apply apply_printed_call.
Qed.
End parse.

(** * Calls that a second application leaves alone *)
Definition idempotent (f : func) : bool :=
  match f with Replace _ _ | StripHtml | Slice _ _ => false | _ => true end.

Lemma cased_case c : is_cased (lower_char c) = is_cased c /\ is_cased (upper_char c) = is_cased c.
Proof. revert c. apply (all_chars (fun c => is_cased (lower_char c) = is_cased c /\ is_cased (upper_char c) = is_cased c)). vm_compute. reflexivity. Qed.
Lemma title_idem b l : title_go b (title_go b l) = title_go b l.
Proof.
  revert b. induction l as [|c l IH]; intros b; cbn [title_go]; [done|]. destruct (cased_case c) as [Hl Hu].
  destruct b; [rewrite Hl, lower_idem|rewrite Hu, upper_idem]; by rewrite IH.
Qed.

Lemma eval_idempotent unescape f v : idempotent f = true -> eval unescape f (eval unescape f v) = eval unescape f v.
Proof.
  destruct f; try done; intros _; cbn [eval].
  - apply on_chars_idem, (trim_both_idem is_space).
  - apply on_chars_idem. rewrite map_map. apply map_ext, upper_idem.
  - apply on_chars_idem. rewrite map_map. apply map_ext, lower_idem.
  - apply on_chars_idem, title_idem.
  - destruct (startswith v pfx) eqn:E; [by rewrite E|]. unfold startswith. by rewrite prefix_app.
  - destruct (endswith v sfx) eqn:E; [by rewrite E|]. unfold endswith. by rewrite chars_app, rev_app_distr, of_chars_app, prefix_app.
  - destruct (float_text (number_chars (chars v))) eqn:E; [|done].
    rewrite chars_of_chars. assert (En : number_chars (number_chars (chars v)) = number_chars (chars v)) by apply filter_idem. by rewrite En, E.
  - apply on_chars_idem, (trim_both_idem is_space).
  - apply on_chars_idem, (trim_both_idem (fun c => bool_decide (c ∈ chars cs))).
Qed.

(** * Edges *)
Section edges.
Context (unescape : string -> string).
(** A chain of calls is accepted, and only its first call is done: the rest of
    the text is taken for arguments of a function that ignores them. *)
Lemma chained_calls_ignored v :
  validate_expression unescape "value.trim().upper()" = Ok tt
  /\ apply_expression unescape "value.trim().upper()" (Some v) = Ok (strip v).
Proof. split; reflexivity. Qed.
(** An empty delimiter is refused with an exception that is no TransformError. *)
Lemma empty_delimiter_escapes :
  validate_expression unescape "value.split('')" = Raise (Exn "ValueError" "empty separator").
Proof. reflexivity. Qed.
(** The documented [value.split(",")] returns its argument. *)
Lemma bare_split_is_identity d v : text_ok d -> d <> "" ->
  apply_expression unescape (print_call (Split d) None) (Some v) = Ok v.
Proof.
  intros Hd Hne. unfold apply_expression. rewrite <- (of_chars_chars (print_call (Split d) None)), print_base, strip_base.
  unfold parse_subscript. rewrite chars_of_chars, SUBSCRIPT_none. cbn [res_bind].
  rewrite chars_of_chars, EXPR_print, !of_chars_chars. by apply (apply_printed_call unescape (Split d) None v).
Qed.
End edges.

Lemma printed_call_meaning_witness :
  text_ok "," /\ int_ok (-1)
  /\ apply_expression (fun s => s) (print_call (Split ",") (Some (-1))) (Some "Doe, Jane") = Ok "Jane".
Proof.
  assert (H1 : text_ok ",") by reflexivity. assert (H2 : int_ok (-1)) by (vm_compute; congruence).
  split; [exact H1|]. split; [exact H2|].
  rewrite (printed_call_meaning (fun s => s) (Split ",") (Some (-1)) "Doe, Jane"); [vm_compute; reflexivity| |exact H2].
  split; [exact H1|congruence].
Defined.
