(* ===== verification/Harmonization.v ===== *)
(** * Harmonization and bulk transformations (src/backend/routers)

    routers/harmonization.py, the four cleaning steps with preview, apply, undo
    and redo, and routers/transformations.py, bulk edits by an expression. Both
    edit columns of [raw_entities] and file rows of [harmonization_logs]. The
    session's [db.commit()] and [db.flush()] are where the code has them;
    [refuses] is what the flush of a log may raise. Timestamps are integers. *)
From S2P Require Import Prelude PyStr PyJson PyValue TenantAccess JobsApi Entities Normalize Transform.
From Stdlib Require Import Ascii String.

Local Open Scope string_scope.
Local Open Scope list_scope.
Local Open Scope Z_scope.
Local Open Scope py_scope.

Record HarmonizationLog := mkLog {
  hl_id : Z; hl_org : option Z; hl_step_id : string; hl_step_name : string; hl_updated : Z; hl_fields : string;
  hl_executed_at : Z; hl_details : option string; hl_reverted : bool }.
Record ChangeRecord := mkChange {
  cr_log : Z; cr_record : option Z; cr_field : string; cr_old : option string; cr_new : option string }.
Record Audit := mkAudit { ha_action : string; ha_user : Z; ha_details : json }.
Record HarmonizeDb := mkHarmonizeDb {
  rows : list Entity; logs : list HarmonizationLog; log_seq : Z; changes : list ChangeRecord; audits : list Audit }.
Definition with_rows (f : list Entity -> list Entity) (d : HarmonizeDb) : HarmonizeDb :=
  mkHarmonizeDb (f (rows d)) (logs d) (log_seq d) (changes d) (audits d).
Definition with_logs (f : list HarmonizationLog -> list HarmonizationLog) (d : HarmonizeDb) : HarmonizeDb :=
  mkHarmonizeDb (rows d) (f (logs d)) (log_seq d) (changes d) (audits d).

(** [models.HarmonizationChangeRecord(...)] for a change of a step. *)
Record StepChange := mkStepChange { sc_record : Z; sc_field : string; sc_old : option string; sc_new : option string }.
Definition change_json (c : StepChange) : json :=
  let txt v := match v with Some s => JStr s | None => JNull end in
  JObj [("record_id", JInt (sc_record c)); ("field", JStr (sc_field c)); ("old_value", txt (sc_old c)); ("new_value", txt (sc_new c))].

(** * The steps *)
Inductive Step := NormalizeLabels | NormalizeCanonicalIds | NormalizeEntityTypes | SetDefaultValidation.
Definition HARMONIZATION_STEPS : list Step := [NormalizeLabels; NormalizeCanonicalIds; NormalizeEntityTypes; SetDefaultValidation].
Definition step_id (s : Step) : string :=
  match s with NormalizeLabels => "normalize_labels" | NormalizeCanonicalIds => "normalize_canonical_ids"
             | NormalizeEntityTypes => "normalize_entity_types" | SetDefaultValidation => "set_default_validation" end.
Definition step_name (s : Step) : string :=
  match s with NormalizeLabels => "Normalize Labels" | NormalizeCanonicalIds => "Normalize Canonical IDs"
             | NormalizeEntityTypes => "Normalize Entity Types" | SetDefaultValidation => "Set Default Validation Status" end.
Definition STEP_FUNCTIONS (id : string) : option Step := List.find (fun s => bool_decide (step_id s = id)) HARMONIZATION_STEPS.

Definition is_some (v : option string) : bool := match v with Some _ => true | None => false end.
(** The rows a step's query selects. *)
Definition step_filter (s : Step) (e : Entity) : bool :=
  match s with
  | NormalizeLabels => is_some (column "primary_label" e) || is_some (column "secondary_label" e)
  | NormalizeCanonicalIds => is_some (column "canonical_id" e)
  | NormalizeEntityTypes => is_some (column "entity_type" e)
  | SetDefaultValidation => match column "validation_status" e with None => true | Some v => bool_decide (v = "") end
  end.
(** [re.sub("\s+", " ", val).strip()] *)
Definition clean_label (v : string) : string := strip (on_chars (collapse false) v).
Definition or_null (v : string) : option string := if truthy v then Some v else None.
Definition changed (e : Entity) (field : string) (clean : string -> option string) : list StepChange :=
  match column field e with
  | None => []
  | Some v => if bool_decide (clean v = Some v) then [] else [mkStepChange (en_id e) field (Some v) (clean v)]
  end.
Definition step_changes (s : Step) (e : Entity) : list StepChange :=
  match s with
  | NormalizeLabels => changed e "primary_label" (fun v => Some (clean_label v)) ++ changed e "secondary_label" (fun v => Some (clean_label v))
  | NormalizeCanonicalIds => changed e "canonical_id" (fun v => or_null (strip v))
  | NormalizeEntityTypes => changed e "entity_type" (fun v => Some (lower (strip v)))
  | SetDefaultValidation => [mkStepChange (en_id e) "validation_status" (column "validation_status" e) (Some "pending")]
  end.
Definition apply_changes (cs : list StepChange) (e : Entity) : Entity :=
  fold_left (fun e c => set_column (sc_field c) (sc_new c) e) cs e.

Definition selected (s : Step) (org_id : option Z) (e : Entity) : bool := in_scope org_id (en_org e) && step_filter s e.
Definition run_step (s : Step) (preview_only : bool) (org_id : option Z) : M HarmonizeDb (list StepChange) :=
  do! d <- mget;
  let cs := flat_map (step_changes s) (List.filter (step_filter s) (scoped en_org org_id (rows d))) in
  if preview_only then mret cs
  else run! mmodify (with_rows (update_where (selected s org_id) (fun e => apply_changes (step_changes s e) e)));
       run! commit;
       mret cs.

(** * Endpoints *)
Section endpoints.
Context (tenants : Tenants).
(** The order a set of field names is listed in. *)
Context (set_order : list string -> list string).

Definition EDITORS : list string := ["super_admin"; "admin"; "editor"].
Definition editor_scope (user : User) : res (option Z) :=
  let? user := require_role EDITORS user in resolve_request_org_id tenants user true true.
Definition unknown_step (id : string) : exn := HTTPException 400 ("Unknown step: " ++ id).
Definition find_step (id : string) : res Step :=
  match STEP_FUNCTIONS id with Some s => Ok s | None => Raise (unknown_step id) end.

Definition PREVIEW_SAMPLE_CAP : nat := 200.
Record Preview := mkPreview { pv_affected : Z; pv_changes : list StepChange; pv_sample : list StepChange }.
Definition preview_harmonization_step (id : string) (user : User) : M HarmonizeDb Preview :=
  do! org_id <- mlift (editor_scope user);
  do! s <- mlift (find_step id);
  do! cs <- run_step s true org_id;
  mret (mkPreview (Z.of_nat (List.length cs)) (firstn PREVIEW_SAMPLE_CAP cs) (firstn 50 cs)).

(** [db.add(log_entry); db.flush()] and the change records. *)
Definition add_log (refuses : option exn) (mk : Z -> HarmonizationLog) : M HarmonizeDb Z :=
  match refuses with
  | Some e => run! rollback; mraise e
  | None =>
      do! d <- mget;
      let i := log_seq d + 1 in
      run! mmodify (fun d => mkHarmonizeDb (rows d) (logs d ++ [mk i]) i (changes d) (audits d));
      mret i
  end.
Definition add_changes (log_id : Z) (cs : list StepChange) : M HarmonizeDb unit :=
  mmodify (fun d => mkHarmonizeDb (rows d) (logs d) (log_seq d)
    (changes d ++ map (fun c => mkChange log_id (Some (sc_record c)) (sc_field c) (sc_old c) (sc_new c)) cs) (audits d)).
Definition add_audit (a : Audit) : M HarmonizeDb unit :=
  mmodify (fun d => mkHarmonizeDb (rows d) (logs d) (log_seq d) (changes d) (audits d ++ [a])).

(** The fields a step changed, each once. *)
Fixpoint dedup (l : list string) : list string :=
  match l with [] => [] | x :: l => if bool_decide (x ∈ l) then dedup l else x :: dedup l end.
Definition fields_modified (cs : list StepChange) : list string := set_order (dedup (map sc_field cs)).
Definition sample_details (cs : list StepChange) : string := dumps false (JObj [("sample", JArr (map change_json (firstn 20 cs)))]).
Definition step_log (s : Step) (log_org : option Z) (now : Z) (details : option string) (cs : list StepChange) (i : Z)
  : HarmonizationLog :=
  mkLog i log_org (step_id s) (step_name s) (Z.of_nat (List.length cs)) (dumps false (JArr (map JStr (fields_modified cs)))) now details false.
Definition step_audit (s : Step) (user : User) (cs : list StepChange) (via : list (string * json)) : Audit :=
  mkAudit "harmonization.apply" (user_id user)
    (JObj ([("step_id", JStr (step_id s)); ("step_name", JStr (step_name s)); ("records_updated", JInt (Z.of_nat (List.length cs)))] ++ via)).

(** What a run of a step answers; [emit_outbound] is handed the same after the
    commit. *)
Record StepResult := mkStepResult { sr_step : Step; sr_updated : Z; sr_fields : list string; sr_log : Z }.
Definition log_step (refuses : option exn) (s : Step) (user : User) (org_id : option Z) (now : Z) (details : list StepChange -> option string)
    (via : list (string * json)) : M HarmonizeDb StepResult :=
  do! cs <- run_step s false org_id;
  do! i <- add_log refuses (step_log s (persisted_org_id org_id) now (details cs) cs);
  run! add_changes i cs;
  run! add_audit (step_audit s user cs via);
  mret (mkStepResult s (Z.of_nat (List.length cs)) (fields_modified cs) i).
Definition apply_harmonization_step (refuses : option exn) (id : string) (user : User) (now : Z) : M HarmonizeDb StepResult :=
  do! org_id <- mlift (editor_scope user);
  do! s <- mlift (find_step id);
  do! r <- log_step refuses s user org_id now (fun cs => Some (sample_details cs)) [];
  run! commit;
  mret r.
Fixpoint apply_steps (refuses : Step -> option exn) (steps : list Step) (user : User) (org_id : option Z) (now : Z)
  : M HarmonizeDb (list StepResult) :=
  match steps with
  | [] => mret []
  | s :: steps =>
      do! r <- log_step (refuses s) s user org_id now (fun _ => None) [("via", JStr "apply_all")];
      do! rs <- apply_steps refuses steps user org_id now;
      mret (r :: rs)
  end.
Definition apply_all_harmonization_steps (refuses : Step -> option exn) (user : User) (now : Z) : M HarmonizeDb (list StepResult) :=
  do! org_id <- mlift (editor_scope user);
  do! rs <- apply_steps refuses HARMONIZATION_STEPS user org_id now;
  run! commit;
  mret rs.

(** * Undo and redo *)
Definition log_model : Model HarmonizationLog := mkModel "HarmonizationLog" hl_id (Some hl_org).
Definition entity_model : Model Entity := mkModel "UniversalEntity" en_id (Some en_org).
Definition changes_of (log_id : Z) (d : HarmonizeDb) : list ChangeRecord := List.filter (fun c => cr_log c =? log_id) (changes d).
(** [entity = get_scoped_record(...); if entity: setattr(entity, field, value)]
    for each record; how many entities were found. *)
Definition scoped_row (org_id : option Z) (record : option Z) (d : HarmonizeDb) : res (option Entity) :=
  match record with
  | Some r => get_scoped_record entity_model (rows d) r org_id
  | None => Ok None
  end.
Fixpoint replay_changes (value : ChangeRecord -> option string) (org_id : option Z) (cs : list ChangeRecord) (count : Z)
  : M HarmonizeDb Z :=
  match cs with
  | [] => mret count
  | c :: cs =>
      do! d <- mget;
      do! found <- mlift (scoped_row org_id (cr_record c) d);
      match found with
      | Some e =>
          run! mmodify (with_rows (update_where (fun e' => en_id e' =? en_id e) (set_column (cr_field c) (value c))));
          replay_changes value org_id cs (count + 1)
      | None => replay_changes value org_id cs count
      end
  end.
Definition set_reverted (b : bool) (l : HarmonizationLog) : HarmonizationLog :=
  mkLog (hl_id l) (hl_org l) (hl_step_id l) (hl_step_name l) (hl_updated l) (hl_fields l) (hl_executed_at l) (hl_details l) b.
Definition mark_reverted (log_id : Z) (b : bool) : M HarmonizeDb unit :=
  mmodify (with_logs (update_where (fun l => hl_id l =? log_id) (set_reverted b))).
Definition find_log (log_id : Z) (org_id : option Z) : M HarmonizeDb HarmonizationLog :=
  do! d <- mget;
  do! found <- mlift (get_scoped_record log_model (logs d) log_id org_id);
  match found with Some l => mret l | None => mraise (HTTPException 404 "Log entry not found") end.

Definition undo_harmonization (log_id : Z) (user : User) : M HarmonizeDb Z :=
  do! org_id <- mlift (editor_scope user);
  do! log_entry <- find_log log_id org_id;
  if hl_reverted log_entry then mraise (HTTPException 400 "This operation has already been reverted")
  else
    do! d <- mget;
    if match changes_of log_id d with [] => true | _ => false end && (0 <? hl_updated log_entry)
    then mraise (HTTPException 400 "No change records found for this log entry (pre-undo data not available)")
    else do! restored <- replay_changes cr_old org_id (changes_of log_id d) 0;
         run! mark_reverted log_id true;
         run! commit;
         mret restored.
Definition redo_harmonization (log_id : Z) (user : User) : M HarmonizeDb Z :=
  do! org_id <- mlift (editor_scope user);
  do! log_entry <- find_log log_id org_id;
  if negb (hl_reverted log_entry) then mraise (HTTPException 400 "This operation has not been reverted, cannot redo")
  else
    do! d <- mget;
    do! reapplied <- replay_changes cr_new org_id (changes_of log_id d) 0;
    run! mark_reverted log_id false;
    run! commit;
    mret reapplied.

(** The 50 newest logs of the scope. *)
Definition get_harmonization_logs (user : User) (d : HarmonizeDb) : res (list HarmonizationLog) :=
  let? org_id := editor_scope user in
  let? mine := scope_query_to_org log_model (logs d) org_id in
  Ok (firstn 50 (sort_by (fun a b => hl_id b <=? hl_id a) mine)).
(** A step with its status and last run. *)
Definition get_harmonization_steps (user : User) (d : HarmonizeDb) : res (list (Step * option HarmonizationLog) * Z) :=
  let? org_id := editor_scope user in
  let? mine := scope_query_to_org log_model (logs d) org_id in
  let? es := scope_query_to_org entity_model (rows d) org_id in
  Ok (map (fun s => (s, hd_error (sort_by (fun a b => hl_id b <=? hl_id a)
                          (List.filter (fun l => bool_decide (hl_step_id l = step_id s)) mine)))) HARMONIZATION_STEPS,
      Z.of_nat (List.length es)).
End endpoints.

(** * Bulk transformations (routers/transformations.py) *)
Section transformations.
Context (unescape : string -> string).
(** [sorted(TRANSFORMABLE_FIELDS)] in a message. *)
Definition not_transformable (field : string) : exn :=
  HTTPException 422 ("Field '" ++ field ++ "' is not transformable. Allowed: "
    ++ py_repr (JArr (map JStr (sort_by str_le TRANSFORMABLE_FIELDS)))).
Record TransformPayload := mkPayload { tp_field : string; tp_expression : string; tp_domain : option string }.
(** The field, then the expression: a TransformError is a 422, any other
    exception goes through. *)
Definition check_payload (p : TransformPayload) : res unit :=
  if negb (bool_decide (tp_field p ∈ TRANSFORMABLE_FIELDS)) then Raise (not_transformable (tp_field p))
  else match validate_expression unescape (tp_expression p) with
       | Raise (Exn "TransformError" m) => Raise (HTTPException 422 m)
       | r => r
       end.
Definition matches_payload (p : TransformPayload) (e : Entity) : bool :=
  match column (tp_field p) e with
  | None => false
  | Some v => negb (bool_decide (v = ""))
              && match tp_domain p with
                 | Some dom => if truthy dom then bool_decide (column "domain" e = Some dom) else true
                 | None => true
                 end
  end.

Definition TRANSFORM_SAMPLE : nat := 20.
(** One row of a preview: the original, and what it becomes or the error. *)
Definition preview_row (expr : string) (v : option string) : res (option string * option string * option string) :=
  match apply_expression unescape expr v with
  | Ok t => Ok (v, Some t, None)
  | Raise (Exn "TransformError" m) => Ok (v, None, Some m)
  | Raise e => Raise e
  end.
Fixpoint preview_rows (expr : string) (l : list (option string)) : res (list (option string * option string * option string)) :=
  match l with
  | [] => Ok []
  | v :: l => let? r := preview_row expr v in let? rs := preview_rows expr l in Ok (r :: rs)
  end.
Definition preview_transformation (p : TransformPayload) (d : HarmonizeDb) : res (list (option string * option string * option string)) :=
  let? _ := check_payload p in
  preview_rows (tp_expression p) (map (column (tp_field p)) (firstn TRANSFORM_SAMPLE (List.filter (matches_payload p) (rows d)))).

(** The loop over the entities: each is set when its value changes; a
    TransformError is counted, any other exception ends the request. *)
Definition transform_row (p : TransformPayload) (e : Entity) : res (Entity * Z * Z) :=
  match apply_expression unescape (tp_expression p) (column (tp_field p) e) with
  | Ok t => if bool_decide (Some t = column (tp_field p) e) then Ok (e, 0, 0) else Ok (set_column (tp_field p) (Some t) e, 1, 0)
  | Raise (Exn "TransformError" _) => Ok (e, 0, 1)
  | Raise exc => Raise exc
  end.
Fixpoint transform_rows (p : TransformPayload) (l : list Entity) : res (list Entity * Z * Z) :=
  match l with
  | [] => Ok ([], 0, 0)
  | e :: l =>
      let? (e, a, x) := (if matches_payload p e then transform_row p e else Ok (e, 0, 0)) in
      let? (l, affected, errors) := transform_rows p l in
      Ok (e :: l, a + affected, x + errors)
  end.
Definition j_opt (v : option string) : json := match v with Some s => JStr s | None => JNull end.
Definition transform_params (p : TransformPayload) : string :=
  dumps false (JObj [("field", JStr (tp_field p)); ("expression", JStr (tp_expression p)); ("domain_id", j_opt (tp_domain p))]).
Definition snapshot (p : TransformPayload) (l : list Entity) : string :=
  dumps false (JArr (map (fun e => JObj [("id", JInt (en_id e)); ("value", j_opt (column (tp_field p) e))]) l)).

Record TransformResult := mkTransformResult { tr_affected : Z; tr_errors : Z; tr_scanned : Z; tr_log : Z }.
Definition apply_transformation (refuses : option exn) (uuid : string) (p : TransformPayload) (user : User) (now : Z)
  : M HarmonizeDb TransformResult :=
  do! user <- mlift (require_role EDITORS user);
  run! mlift (check_payload p);
  do! d <- mget;
  let hits := List.filter (matches_payload p) (rows d) in
  do! (rows', affected, errors) <- mlift (transform_rows p (rows d));
  run! mmodify (with_rows (fun _ => rows'));
  do! i <- add_log refuses (fun i => mkLog i None ("transform:" ++ uuid) "transformation" affected (transform_params p) now
                                      (Some (snapshot p hits)) false);
  run! add_audit (mkAudit "transformation.apply" (user_id user)
    (JObj [("field", JStr (tp_field p)); ("expression", JStr (tp_expression p)); ("domain_id", j_opt (tp_domain p));
           ("affected", JInt affected); ("errors", JInt errors)]));
  run! commit;
  mret (mkTransformResult affected errors (Z.of_nat (List.length hits)) i).

Definition get_transformation_history (skip limit : nat) (d : HarmonizeDb) : list HarmonizationLog :=
  firstn limit (skipn skip (sort_by (fun a b => hl_id b <=? hl_id a)
    (List.filter (fun l => bool_decide (hl_step_name l = "transformation")) (logs d)))).
End transformations.
