(* ===== verification/HarmonizationClaims.v ===== *)
(** * Theorems on harmonization

    Undo restores and redo repeats a step exactly; an apply does what the preview
    showed and leaves nothing to do; no call reaches another organisation's
    entities. The lemmas at the end are where the bulk endpoints part from what
    they say. *)
From S2P Require Import Prelude PyStr PyJson PyValue PyStrFacts TenantAccess JobsApi Entities Normalize Transform TransformClaims Harmonization.
From Stdlib Require Import Ascii String.

Local Open Scope string_scope.
Local Open Scope list_scope.
Local Open Scope Z_scope.
Local Open Scope py_scope.

(** * Cleaning is idempotent *)
(** Spaces are plain and single. *)
Fixpoint tidy (ws : bool) (l : list ascii) : bool :=
  match l with
  | [] => true
  | c :: l => if is_space c then bool_decide (c = sp) && negb ws && tidy true l else tidy false l
  end.
Lemma collapse_tidy l ws : tidy ws (collapse ws l) = true.
Proof.
  revert ws. induction l as [|c l IH]; intros ws; cbn; [done|]. destruct (is_space c) eqn:E.
  - destruct ws; [apply IH|]. cbn. apply IH.
  - cbn. rewrite E. apply IH.
Qed.
Lemma collapse_id l ws : tidy ws l = true -> collapse ws l = l.
Proof.
  revert ws. induction l as [|c l IH]; intros ws; cbn; [done|]. destruct (is_space c).
  - intros [[->%bool_decide_eq_true Hw]%andb_prop Hl]%andb_prop. destruct ws; [done|]. by rewrite IH.
  - intros Hl. by rewrite IH.
Qed.
Lemma tidy_weaken l : tidy true l = true -> tidy false l = true.
Proof. destruct l as [|c l]; cbn; [done|]. destruct (is_space c); [|done]. by rewrite andb_false_r. Qed.
Lemma tidy_suffix a b ws : tidy ws (a ++ b) = true -> tidy false b = true.
Proof.
  revert ws. induction a as [|c a IH]; intros ws; cbn; [destruct ws; [apply tidy_weaken|done]|].
  destruct (is_space c); [intros [_ H]%andb_prop|intros H]; eauto.
Qed.
Lemma tidy_prefix a b ws : tidy ws (a ++ b) = true -> tidy ws a = true.
Proof.
  revert ws. induction a as [|c a IH]; intros ws; cbn; [done|].
  destruct (is_space c); [intros [-> H]%andb_prop|intros H]; cbn; eauto.
Qed.
Lemma clean_label_idem v : clean_label (clean_label v) = clean_label v.
Proof.
  unfold clean_label, strip. set (t := fun l => rdrop_while is_space (drop_while is_space l)).
  unfold on_chars. rewrite !chars_of_chars. f_equal.
  assert (Ht : tidy false (t (collapse false (chars v))) = true).
  { unfold t. destruct (drop_while_suffix is_space (collapse false (chars v))) as [a Ha].
    destruct (rdrop_while_prefix is_space (drop_while is_space (collapse false (chars v)))) as [b Hb].
    eapply tidy_prefix. rewrite <- Hb. eapply tidy_suffix. rewrite <- Ha. apply collapse_tidy. }
  rewrite (collapse_id _ _ Ht). apply trim_both_idem.
Qed.
Lemma strip_lower v : strip (lower v) = lower (strip v).
Proof.
  unfold strip, lower, on_chars. rewrite !chars_of_chars. f_equal. unfold rdrop_while.
  rewrite drop_while_map by apply lower_is_space. rewrite <- map_rev, drop_while_map by apply lower_is_space.
  by rewrite map_rev.
Qed.
Lemma strip_idem v : strip (strip v) = strip v.
Proof. apply on_chars_idem, (trim_both_idem is_space). Qed.
Lemma clean_type_idem v : lower (strip (lower (strip v))) = lower (strip v).
Proof.
  rewrite strip_lower, strip_idem. apply on_chars_idem. rewrite map_map. apply map_ext, lower_idem.
Qed.

(** * Columns *)
Lemma column_set_eq f v e : column f (set_column f v e) = v.
Proof. unfold column, set_column. cbn. by rewrite dict_get_set_eq. Qed.
Lemma column_set_ne f g v e : f <> g -> column f (set_column g v e) = column f e.
Proof. intros H. unfold column, set_column. cbn. by rewrite dict_get_set_ne. Qed.
Lemma dict_set_same {V} (k : string) (v : V) d : dict_get k d = Some v -> dict_set k v d = d.
Proof. induction d as [|[k' v'] d IH]; cbn; [done|]. destruct (decide (k = k')) as [-> |]; [by intros [= ->]|]. intros H. by rewrite IH. Qed.
Lemma dict_set_set {V} (k : string) (v w : V) d : dict_set k v (dict_set k w d) = dict_set k v d.
Proof.
  induction d as [|[k' v'] d IH]; cbn; [by destruct (decide (k = k))|].
  destruct (decide (k = k')) as [-> |H]; cbn; [by destruct (decide (k' = k'))|]. rewrite decide_False by done. by rewrite IH.
Qed.
Lemma dict_set_comm {V} (k k' : string) (v v' : V) d : k <> k' -> k ∈ dict_keys d -> dict_set k v (dict_set k' v' d) = dict_set k' v' (dict_set k v d).
Proof.
  intros Hne. induction d as [|[j w] d IH]; cbn; [by intros ?%elem_of_nil|]. intros Hk.
  destruct (decide (k = j)) as [->|Hj]; destruct (decide (k' = j)) as [->|Hj']; try done; cbn;
    repeat (case_decide; [|]; simplify_eq; cbn); try done.
  f_equal. apply IH. apply elem_of_cons in Hk as [->|Hk]; done.
Qed.

(** Values written over a set of columns and then put back. *)
Definition write (cs : list (string * option string)) (e : Entity) : Entity := fold_left (fun e c => set_column c.1 c.2 e) cs e.
Lemma write_set cs k v e : k ∉ map fst cs -> k ∈ dict_keys (en_cols e) ->
  write cs (set_column k v e) = set_column k v (write cs e) /\ k ∈ dict_keys (en_cols (write cs e)).
Proof.
  revert e. induction cs as [|[k' v'] cs IH]; intros e Hn Hk; cbn in *; [done|].
  apply not_elem_of_cons in Hn as [Hne Hn].
  assert (Hk' : k ∈ dict_keys (en_cols (set_column k' v' e))) by (unfold set_column; cbn [en_cols]; rewrite dict_keys_set; case_decide; [done|by apply elem_of_app; left]).
  assert (set_column k' v' (set_column k v e) = set_column k v (set_column k' v' e)) as ->
    by (unfold set_column; cbn; by rewrite (dict_set_comm k k')).
  by apply IH.
Qed.
Lemma write_back (cs : list StepChange) e :
  NoDup (map sc_field cs) -> (forall c, In c cs -> dict_get (sc_field c) (en_cols e) = Some (sc_old c)) ->
  write (map (fun c => (sc_field c, sc_old c)) cs) (write (map (fun c => (sc_field c, sc_new c)) cs) e) = e.
Proof.
  revert e. induction cs as [|c cs IH]; intros e; [done|]. cbn [map]. intros [Hc Hnd]%NoDup_cons Hold.
  assert (Hold' : dict_get (sc_field c) (en_cols e) = Some (sc_old c)) by (apply Hold; by left).
  assert (Hk : sc_field c ∈ dict_keys (en_cols e)).
  { apply dict_get_Some_elem in Hold'. apply list_elem_of_In. unfold dict_keys. apply in_map_iff.
    exists (sc_field c, sc_old c). split; [done|]. by apply list_elem_of_In. }
  assert (Hn : sc_field c ∉ map fst (map (fun c => (sc_field c, sc_new c)) cs)) by by rewrite map_map.
  cbn [write fold_left fst snd]. fold (write (map (fun c => (sc_field c, sc_new c)) cs) (set_column (sc_field c) (sc_new c) e)).
  destruct (write_set _ _ (sc_new c) e Hn Hk) as [-> _].
  assert (E : forall x, set_column (sc_field c) (sc_old c) (set_column (sc_field c) (sc_new c) x) = set_column (sc_field c) (sc_old c) x)
    by (intros x; unfold set_column; cbn; by rewrite dict_set_set).
  rewrite E. destruct (write_set _ _ (sc_old c) e Hn Hk) as [<- _].
  assert (set_column (sc_field c) (sc_old c) e = e) as -> by (unfold set_column; rewrite dict_set_same by done; by destruct e).
  apply IH; [done|]. intros c' Hc'. apply Hold. by right.
Qed.

(** * Steps *)
Definition STEP_FIELDS : list string := ["primary_label"; "secondary_label"; "canonical_id"; "entity_type"; "validation_status"].
(** A row has the columns the steps clean. *)
Definition has_columns (e : Entity) : Prop := forall f, f ∈ STEP_FIELDS -> f ∈ dict_keys (en_cols e).

Lemma dict_get_column f e : f ∈ dict_keys (en_cols e) -> dict_get f (en_cols e) = Some (column f e).
Proof.
  intros H. unfold column. destruct (dict_get f (en_cols e)) eqn:E; [done|]. by apply dict_get_None in E.
Qed.
Lemma changed_spec e f clean c : In c (changed e f clean) -> f ∈ dict_keys (en_cols e) ->
  sc_record c = en_id e /\ sc_field c = f /\ dict_get f (en_cols e) = Some (sc_old c).
Proof.
  unfold changed. intros Hc Hk. pose proof (dict_get_column f e Hk) as Hd. destruct (column f e) as [v|]; [|done].
  case_bool_decide; [done|]. destruct Hc as [<-|[]]. by rewrite Hd.
Qed.
Lemma changed_fields e f clean : map sc_field (changed e f clean) = [] \/ map sc_field (changed e f clean) = [f].
Proof. unfold changed. destruct (column f e); [|by left]. case_bool_decide; [by left|by right]. Qed.

Lemma step_changes_spec s e c : has_columns e -> In c (step_changes s e) ->
  sc_record c = en_id e /\ dict_get (sc_field c) (en_cols e) = Some (sc_old c).
Proof.
  intros Hcols Hc. assert (Hk : forall f, f ∈ STEP_FIELDS -> f ∈ dict_keys (en_cols e)) by exact Hcols.
  assert (Hch : forall f clean, f ∈ STEP_FIELDS -> In c (changed e f clean) ->
    sc_record c = en_id e /\ dict_get (sc_field c) (en_cols e) = Some (sc_old c)).
  { intros f clean Hf Hin. destruct (changed_spec e f clean c Hin (Hk f Hf)) as (H1 & H2 & H3). by rewrite H2. }
  destruct s; cbn in Hc; [apply in_app_or in Hc as [Hc|Hc]|..].
  1-4: by eapply Hch; [|exact Hc]; apply (bool_decide_unpack _).
  destruct Hc as [<-|[]]. split; [done|]. apply dict_get_column, Hk. by apply (bool_decide_unpack _).
Qed.
Lemma step_changes_fields s e : NoDup (map sc_field (step_changes s e)).
Proof.
  destruct s; cbn [step_changes]; rewrite ?map_app.
  - destruct (changed_fields e "primary_label" (fun v => Some (clean_label v))) as [-> | ->];
      destruct (changed_fields e "secondary_label" (fun v => Some (clean_label v))) as [-> | ->]; by apply (bool_decide_unpack _).
  - destruct (changed_fields e "canonical_id" (fun v => or_null (strip v))) as [-> | ->]; by apply (bool_decide_unpack _).
  - destruct (changed_fields e "entity_type" (fun v => Some (lower (strip v)))) as [-> | ->]; by apply (bool_decide_unpack _).
  - by apply (bool_decide_unpack _).
Qed.
Lemma fold_write (value : StepChange -> option string) cs e :
  fold_left (fun e c => set_column (sc_field c) (value c) e) cs e = write (map (fun c => (sc_field c, value c)) cs) e.
Proof. revert e. induction cs as [|c cs IH]; intros e; [done|]. apply IH. Qed.
(** A step undone on one entity. *)
Lemma step_undone s e : has_columns e ->
  fold_left (fun e c => set_column (sc_field c) (sc_old c) e) (step_changes s e) (apply_changes (step_changes s e) e) = e.
Proof.
  intros H. unfold apply_changes. rewrite !fold_write. apply write_back; [apply step_changes_fields|].
  intros c Hc. by apply (step_changes_spec s).
Qed.
Lemma fold_identity (value : StepChange -> option string) cs e :
  let e' := fold_left (fun e c => set_column (sc_field c) (value c) e) cs e in en_id e' = en_id e /\ en_org e' = en_org e.
Proof. revert e. induction cs as [|c cs IH]; intros e; [done|]. apply (IH (set_column (sc_field c) (value c) e)). Qed.

(** A cleaned column stays clean. *)
Lemma apply_changed_eq e0 f clean e : column f e = column f e0 ->
  column f (apply_changes (changed e0 f clean) e) = column f e0 ≫= clean.
Proof.
  intros E. unfold changed. destruct (column f e0) as [v|] eqn:E0; [|done].
  case_bool_decide as Hc; cbn; [by rewrite E|by rewrite column_set_eq].
Qed.
Lemma apply_changed_ne e0 f g clean e : f <> g -> column f (apply_changes (changed e0 g clean) e) = column f e.
Proof.
  intros Hne. unfold changed. destruct (column g e0); [|done]. case_bool_decide; [done|]. by apply column_set_ne.
Qed.
Lemma changed_nil e e0 f clean : (forall v w, clean v = Some w -> clean w = Some w) ->
  column f e = column f e0 ≫= clean -> changed e f clean = [].
Proof.
  intros H E. unfold changed. rewrite E. destruct (column f e0) as [v|]; [|done]. cbn.
  destruct (clean v) as [w|] eqn:Ew; [|done]. by rewrite bool_decide_true by eauto.
Qed.
Lemma apply_changes_app cs cs' e : apply_changes (cs ++ cs') e = apply_changes cs' (apply_changes cs e).
Proof. apply fold_left_app. Qed.
Lemma step_settled s e : let e' := apply_changes (step_changes s e) e in step_filter s e' = true -> step_changes s e' = [].
Proof.
  intros e' Hf. destruct s; cbn [step_changes] in *.
  - assert (Hc : forall v w : string, Some (clean_label v) = Some w -> Some (clean_label w) = Some w)
      by (intros v w [= <-]; by rewrite clean_label_idem).
    unfold e'. rewrite apply_changes_app. set (p := fun v => Some (clean_label v)) in *.
    rewrite (changed_nil _ e "primary_label" p Hc), (changed_nil _ e "secondary_label" p Hc); [done|..].
    + rewrite apply_changed_eq; [done|]. by rewrite apply_changed_ne.
    + rewrite apply_changed_ne by done. by rewrite apply_changed_eq.
  - apply (changed_nil _ e); [|by apply apply_changed_eq]. unfold or_null. intros v w.
    destruct (truthy (strip v)) eqn:E; [|done]. intros [= <-]. by rewrite strip_idem, E.
  - apply (changed_nil _ e); [|by apply apply_changed_eq]. intros v w [= <-]. by rewrite clean_type_idem.
  - unfold e' in Hf. cbn in Hf. unfold step_filter, apply_changes in Hf. cbn [fold_left sc_field sc_new] in Hf.
    by rewrite column_set_eq in Hf.
Qed.

(** * Runs *)
Section runs.
Context (tenants : Tenants) (set_order : list string -> list string).

Definition step_row (s : Step) (org_id : option Z) (e : Entity) : Entity :=
  if selected s org_id e then apply_changes (step_changes s e) e else e.
Definition step_list (s : Step) (org_id : option Z) (d : HarmonizeDb) : list StepChange :=
  flat_map (step_changes s) (List.filter (selected s org_id) (rows d)).
Definition recorded (log_id : Z) (c : StepChange) : ChangeRecord := mkChange log_id (Some (sc_record c)) (sc_field c) (sc_old c) (sc_new c).
(** The tables after a logged step. *)
Definition applied (s : Step) (user : User) (org_id : option Z) (now : Z) (details : list StepChange -> option string)
    (via : list (string * json)) (d : HarmonizeDb) : HarmonizeDb :=
  let cs := step_list s org_id d in
  mkHarmonizeDb (map (step_row s org_id) (rows d))
    (logs d ++ [step_log set_order s (persisted_org_id org_id) now (details cs) cs (log_seq d + 1)]) (log_seq d + 1)
    (changes d ++ map (recorded (log_seq d + 1)) cs) (audits d ++ [step_audit s user cs via]).

Lemma run_step_run s preview org_id d b :
  run_step s preview org_id (mkSession d b)
  = (Ok (step_list s org_id d), if preview then mkSession d b else clean (with_rows (map (step_row s org_id)) d)).
Proof.
  unfold run_step, step_list. mrun. rewrite scoped_filter, filter_filter. by destruct preview.
Qed.
Lemma log_step_run s user org_id now details via d b :
  log_step set_order None s user org_id now details via (mkSession d b)
  = (Ok (mkStepResult s (Z.of_nat (List.length (step_list s org_id d))) (fields_modified set_order (step_list s org_id d)) (log_seq d + 1)),
     mkSession (applied s user org_id now details via d) (with_rows (map (step_row s org_id)) d)).
Proof. unfold log_step. by rewrite (run_ok _ _ _ _ _ (run_step_run s false org_id d b)). Qed.
Lemma apply_step_run id s user org_id now d :
  editor_scope tenants user = Ok org_id -> find_step id = Ok s ->
  let details cs := Some (sample_details cs) in
  apply_harmonization_step tenants set_order None id user now (clean d)
  = (Ok (mkStepResult s (Z.of_nat (List.length (step_list s org_id d))) (fields_modified set_order (step_list s org_id d)) (log_seq d + 1)),
     clean (applied s user org_id now details [] d)).
Proof.
  intros Ho Hs details. unfold apply_harmonization_step. rewrite Ho, Hs. mrun.
  unfold clean at 1. by rewrite (run_ok _ _ _ _ _ (log_step_run s user org_id now details [] d d)).
Qed.

(** ** Replaying change records *)
Definition replay_one (value : ChangeRecord -> option string) (org_id : option Z) (c : ChangeRecord) (e : Entity) : Entity :=
  if in_scope org_id (en_org e) && bool_decide (cr_record c = Some (en_id e)) then set_column (cr_field c) (value c) e else e.
Definition reaches (org_id : option Z) (l : list Entity) (c : ChangeRecord) : bool :=
  existsb (fun e => in_scope org_id (en_org e) && bool_decide (cr_record c = Some (en_id e))) l.

Lemma replay_one_same value org_id c e : en_id (replay_one value org_id c e) = en_id e /\ en_org (replay_one value org_id c e) = en_org e.
Proof. unfold replay_one. by destruct (_ && _). Qed.
Lemma scoped_row_spec org_id record d :
  NoDup (map en_id (rows d)) ->
  exists found, scoped_row org_id record d = Ok found /\
  match found with
  | Some e => In e (rows d) /\ in_scope org_id (en_org e) = true /\ record = Some (en_id e)
  | None => forall e, In e (rows d) -> in_scope org_id (en_org e) = true -> record <> Some (en_id e)
  end.
Proof.
  intros Hnd. unfold scoped_row. destruct record as [r|]; [|by exists None].
  unfold get_scoped_record. rewrite (scoped_query entity_model en_org) by done. cbn [res_bind model_id entity_model].
  rewrite scoped_filter. set (l := List.filter _ _). exists (List.find (fun e => en_id e =? r) l). split; [done|].
  destruct (List.find _ l) as [e|] eqn:E.
  - apply find_some in E as [[Hi Hs]%filter_In He%Z.eqb_eq]. by rewrite He.
  - intros e Hi Hs [= ->]. assert (H : (en_id e =? en_id e) = false) by by apply (find_none _ _ E), filter_In. lia.
Qed.
Lemma replay_row value org_id c found l :
  NoDup (map en_id l) ->
  match found with
  | Some e => In e l /\ in_scope org_id (en_org e) = true /\ cr_record c = Some (en_id e)
  | None => forall e, In e l -> in_scope org_id (en_org e) = true -> cr_record c <> Some (en_id e)
  end ->
  map (replay_one value org_id c) l
  = match found with Some e => update_where (fun e' => en_id e' =? en_id e) (set_column (cr_field c) (value c)) l | None => l end
  /\ reaches org_id l c = match found with Some _ => true | None => false end.
Proof.
  intros Hnd H. destruct found as [e|].
  - destruct H as (He & Hs & Hr). split.
    + apply map_ext_in. intros e' He'. unfold replay_one. destruct (en_id e' =? en_id e) eqn:E.
      * apply Z.eqb_eq in E. rewrite (NoDup_map_inj en_id l e' e Hnd He' He E), Hs, bool_decide_true by done. done.
      * rewrite bool_decide_false, andb_false_r by (rewrite Hr; intros [= E']; lia). done.
    + apply existsb_exists. exists e. split; [done|]. by rewrite Hs, bool_decide_true.
  - split.
    + rewrite <- (map_id l) at 2. apply map_ext_in. intros e He. unfold replay_one.
      destruct (in_scope org_id (en_org e)) eqn:Hs; [|done]. by rewrite bool_decide_false by eauto.
    + apply not_true_iff_false. unfold reaches. rewrite existsb_exists. intros (e & He & [Hs Hr%bool_decide_eq_true]%andb_prop).
      by eapply H.
Qed.

Lemma reaches_map value org_id c c' l : reaches org_id (map (replay_one value org_id c') l) c = reaches org_id l c.
Proof.
  unfold reaches. induction l as [|e l IH]; cbn; [done|]. destruct (replay_one_same value org_id c' e) as [-> ->]. by rewrite IH.
Qed.
(** Every record rewrites the entity it names, where the scope reaches it. *)
Lemma replay_run value org_id cs n d b :
  NoDup (map en_id (rows d)) ->
  replay_changes value org_id cs n (mkSession d b)
  = (Ok (n + count_where (reaches org_id (rows d)) cs),
     mkSession (with_rows (map (fun e => fold_left (fun e c => replay_one value org_id c e) cs e)) d) b).
Proof.
  revert n d. induction cs as [|c cs IH]; intros n d Hnd.
  { cbn. unfold count_where, mret. cbn. rewrite Z.add_0_r. unfold with_rows. rewrite map_id. by destruct d. }
  cbn [replay_changes]. mrun. destruct (scoped_row_spec org_id (cr_record c) d Hnd) as (found & Hf & Hspec).
  rewrite Hf. mrun. destruct (replay_row value org_id c found (rows d) Hnd Hspec) as [Hmap Hr].
  set (d1 := with_rows (map (replay_one value org_id c)) d).
  assert (Hd1 : forall k, replay_changes value org_id cs k (mkSession d1 b)
    = (Ok (k + count_where (reaches org_id (rows d)) cs),
       mkSession (with_rows (map (fun e => fold_left (fun e c => replay_one value org_id c e) (c :: cs) e)) d) b)).
  { intros k. rewrite IH.
    - f_equal; [|unfold d1, with_rows; cbn; by rewrite map_map].
      do 2 f_equal. unfold count_where. do 2 f_equal. apply filter_ext. intros c'. apply reaches_map.
    - unfold d1; cbn. rewrite map_map. erewrite map_ext; [exact Hnd|]. intros e. apply replay_one_same. }
  assert (Hcount : count_where (reaches org_id (rows d)) (c :: cs)
    = (if reaches org_id (rows d) c then 1 else 0) + count_where (reaches org_id (rows d)) cs).
  { unfold count_where. cbn. destruct (reaches _ _ c); cbn; lia. }
  rewrite Hcount, Hr. destruct found as [e|]; mrun.
  - replace (with_rows (update_where (fun e' => en_id e' =? en_id e) (set_column (cr_field c) (value c))) d) with d1
      by (unfold d1, with_rows; cbn; by rewrite Hmap).
    rewrite Hd1. do 2 f_equal; lia.
  - assert (d = d1) as Ed by (unfold d1, with_rows; cbn; rewrite Hmap; by destruct d).
    rewrite Ed at 1. rewrite Hd1. do 3 f_equal. 
Qed.

(** The rows and logs of the program: distinct ids, the columns of the table,
    and no change record ahead of its log. *)
Record harmonize_wf (d : HarmonizeDb) : Prop := {
  wf_ids : NoDup (map en_id (rows d));
  wf_columns : forall e, In e (rows d) -> has_columns e;
  wf_logs : forall l, In l (logs d) -> hl_id l <= log_seq d;
  wf_changes : forall c, In c (changes d) -> cr_log c <= log_seq d
}.

Section step_replay.
Context (vr : ChangeRecord -> option string) (vs : StepChange -> option string) (i : Z) (org_id : option Z) (s : Step).
Context (Hval : forall c, vr (recorded i c) = vs c).
Let replay (cs : list StepChange) (e : Entity) : Entity :=
  fold_left (fun e c => replay_one vr org_id c e) (map (recorded i) cs) e.
Let put (cs : list StepChange) (e : Entity) : Entity := fold_left (fun e c => set_column (sc_field c) (vs c) e) cs e.

Lemma replay_own cs e : in_scope org_id (en_org e) = true -> (forall c, In c cs -> sc_record c = en_id e) -> replay cs e = put cs e.
Proof.
  unfold replay, put. revert e. induction cs as [|c cs IH]; intros e Hs Hr; [done|]. cbn [map fold_left].
  assert (replay_one vr org_id (recorded i c) e = set_column (sc_field c) (vs c) e) as ->.
  { unfold replay_one. rewrite Hs, bool_decide_true by (cbn; f_equal; apply Hr; by left). by rewrite Hval. }
  apply IH; [done|]. intros c' Hc'. apply Hr. by right.
Qed.
Lemma replay_foreign cs e : (forall c, In c cs -> sc_record c <> en_id e) -> replay cs e = e.
Proof.
  unfold replay. revert e. induction cs as [|c cs IH]; intros e Hr; [done|]. cbn [map fold_left].
  assert (replay_one vr org_id (recorded i c) e = e) as ->.
  { unfold replay_one. rewrite bool_decide_false, andb_false_r by (cbn; intros [= E]; apply (Hr c); [by left|done]). done. }
  apply IH. intros c' Hc'. apply Hr. by right.
Qed.
Lemma replay_app cs cs' e : replay (cs ++ cs') e = replay cs' (replay cs e).
Proof. unfold replay. by rewrite map_app, fold_left_app. Qed.

(** The change records of a step rewrite each selected entity by its own. *)
Lemma replay_step l e e1 :
  NoDup (map en_id l) -> (forall x, In x l -> has_columns x) -> In e l -> en_id e1 = en_id e -> en_org e1 = en_org e ->
  replay (flat_map (step_changes s) (List.filter (selected s org_id) l)) e1
  = if selected s org_id e then put (step_changes s e) e1 else e1.
Proof.
  intros Hnd Hcol He Hid Horg.
  assert (Hrec : forall x c, In x l -> In c (step_changes s x) -> sc_record c = en_id x)
    by (intros x c Hx Hc; by apply (step_changes_spec s x c (Hcol x Hx))).
  assert (Hother : forall l', (forall x, In x l' -> In x l /\ en_id x <> en_id e) ->
    forall e2, en_id e2 = en_id e -> replay (flat_map (step_changes s) (List.filter (selected s org_id) l')) e2 = e2).
  { intros l' Hl' e2 H2. apply replay_foreign. intros c (x & [Hx _]%filter_In & Hc)%in_flat_map.
    destruct (Hl' x Hx) as [Hxl Hne]. rewrite (Hrec x c Hxl Hc). congruence. }
  destruct (in_split e l He) as (a & b & ->).
  rewrite map_app in Hnd. cbn in Hnd. apply NoDup_app in Hnd as (_ & Hab & [Hb _]%NoDup_cons).
  assert (Ha : forall x, In x a -> In x (a ++ e :: b) /\ en_id x <> en_id e).
  { intros x Hx. split; [apply in_or_app; by left|]. intros E. apply (Hab (en_id x)).
    - apply list_elem_of_In. by apply in_map.
    - rewrite E. by left. }
  assert (Hb' : forall x, In x b -> In x (a ++ e :: b) /\ en_id x <> en_id e).
  { intros x Hx. split; [apply in_or_app; right; by right|]. intros E. apply Hb. rewrite <- E. apply list_elem_of_In. by apply in_map. }
  rewrite List.filter_app, flat_map_app, replay_app. rewrite (Hother a Ha e1 Hid). cbn [List.filter].
  destruct (selected s org_id e) eqn:Hsel; cbn [flat_map].
  - rewrite replay_app, (replay_own (step_changes s e) e1).
    + apply (Hother b Hb' (put (step_changes s e) e1)). unfold put.
      destruct (fold_identity vs (step_changes s e) e1) as [-> _]. done.
    + rewrite Horg. by apply andb_prop in Hsel as [? _].
    + intros c Hc. rewrite Hid. by apply Hrec.
  - by apply (Hother b Hb' e1).
Qed.
End step_replay.

(** ** Undo, then redo *)
Definition replayed (value : ChangeRecord -> option string) (org_id : option Z) (log_id : Z) (d : HarmonizeDb) : HarmonizeDb :=
  with_rows (map (fun e => fold_left (fun e c => replay_one value org_id c e) (changes_of log_id d) e)) d.
Definition marked (log_id : Z) (b : bool) (d : HarmonizeDb) : HarmonizeDb :=
  with_logs (update_where (fun l => hl_id l =? log_id) (set_reverted b)) d.

Lemma find_log_run log_id org_id l d b :
  List.find (fun l => hl_id l =? log_id) (List.filter (fun l => in_scope org_id (hl_org l)) (logs d)) = Some l ->
  find_log log_id org_id (mkSession d b) = (Ok l, mkSession d b).
Proof.
  intros H. unfold find_log. mrun. unfold get_scoped_record. rewrite (scoped_query log_model hl_org) by done.
  rewrite scoped_filter. cbn [res_bind model_id log_model]. rewrite H. by mrun.
Qed.
Lemma undo_run log_id user org_id l d :
  editor_scope tenants user = Ok org_id -> NoDup (map en_id (rows d)) ->
  List.find (fun l => hl_id l =? log_id) (List.filter (fun l => in_scope org_id (hl_org l)) (logs d)) = Some l ->
  hl_reverted l = false -> (hl_updated l = Z.of_nat (List.length (changes_of log_id d))) ->
  undo_harmonization tenants log_id user (clean d)
  = (Ok (count_where (reaches org_id (rows d)) (changes_of log_id d)), clean (marked log_id true (replayed cr_old org_id log_id d))).
Proof.
  intros Ho Hnd Hl Hr Hu. unfold undo_harmonization. rewrite Ho. mrun. unfold clean at 1.
  rewrite (run_ok _ _ _ _ _ (find_log_run log_id org_id l d d Hl)), Hr. mrun.
  assert (match changes_of log_id d with [] => true | _ => false end && (0 <? hl_updated l) = false) as ->
    by (rewrite Hu; by destruct (changes_of log_id d)).
  by rewrite (run_ok _ _ _ _ _ (replay_run cr_old org_id _ 0 d d Hnd)).
Qed.
Lemma redo_run log_id user org_id l d :
  editor_scope tenants user = Ok org_id -> NoDup (map en_id (rows d)) ->
  List.find (fun l => hl_id l =? log_id) (List.filter (fun l => in_scope org_id (hl_org l)) (logs d)) = Some l ->
  hl_reverted l = true ->
  redo_harmonization tenants log_id user (clean d)
  = (Ok (count_where (reaches org_id (rows d)) (changes_of log_id d)), clean (marked log_id false (replayed cr_new org_id log_id d))).
Proof.
  intros Ho Hnd Hl Hr. unfold redo_harmonization. rewrite Ho. mrun. unfold clean at 1.
  rewrite (run_ok _ _ _ _ _ (find_log_run log_id org_id l d d Hl)), Hr. cbn [negb]. mrun.
  by rewrite (run_ok _ _ _ _ _ (replay_run cr_new org_id _ 0 d d Hnd)).
Qed.

Lemma step_row_same s org_id e : en_id (step_row s org_id e) = en_id e /\ en_org (step_row s org_id e) = en_org e.
Proof.
  unfold step_row. destruct (selected s org_id e); [|done]. exact (fold_identity sc_new (step_changes s e) e).
Qed.
Lemma find_new_log org_id ls n l :
  (forall l, In l ls -> hl_id l <= n) -> hl_id l = n + 1 -> in_scope org_id (hl_org l) = true ->
  List.find (fun l => hl_id l =? n + 1) (List.filter (fun l => in_scope org_id (hl_org l)) (ls ++ [l])) = Some l.
Proof.
  intros Hle Hid Hs. induction ls as [|l' ls IH]; cbn.
  - rewrite Hs. cbn. by rewrite (proj2 (Z.eqb_eq _ _) Hid).
  - assert (E : (hl_id l' =? n + 1) = false) by (specialize (Hle l' (or_introl eq_refl)); lia).
    destruct (in_scope org_id (hl_org l')); cbn; rewrite ?E; apply IH; intros k Hk; apply Hle; by right.
Qed.
Lemma changes_of_new i new old (cs : list StepChange) :
  (forall c, In c old -> cr_log c <= i) -> new = i + 1 ->
  List.filter (fun c => cr_log c =? new) (old ++ map (recorded new) cs) = map (recorded new) cs.
Proof.
  intros Hle ->. rewrite List.filter_app. 
  assert (List.filter (fun c => cr_log c =? i + 1) old = []) as ->.
  { induction old as [|c old IH]; [done|]. cbn. pose proof (Hle c (or_introl eq_refl)).
    replace (cr_log c =? i + 1) with false by lia. apply IH. intros c' Hc'. apply Hle. by right. }
  induction cs as [|c cs IH]; [done|]. cbn in *. rewrite Z.eqb_refl. by rewrite IH.
Qed.

(** The change records of a logged step, and what replaying them does. *)
Lemma applied_changes s user org_id now details via d : harmonize_wf d ->
  changes_of (log_seq d + 1) (applied s user org_id now details via d) = map (recorded (log_seq d + 1)) (step_list s org_id d).
Proof. intros [_ _ _ Hc]. by apply (changes_of_new (log_seq d)). Qed.
Lemma replay_all value vs s org_id log_id (g : Entity -> Entity) d :
  harmonize_wf d -> (forall c, value (recorded log_id c) = vs c) -> (forall e, en_id (g e) = en_id e /\ en_org (g e) = en_org e) ->
  map (fun e => fold_left (fun e c => replay_one value org_id c e) (map (recorded log_id) (step_list s org_id d)) e) (map g (rows d))
  = map (fun e => if selected s org_id e then fold_left (fun e c => set_column (sc_field c) (vs c) e) (step_changes s e) (g e) else g e) (rows d).
Proof.
  intros [Hnd Hcol _ _] Hv Hg. rewrite map_map. apply map_ext_in. intros e He. destruct (Hg e) as [H1 H2].
  by apply (replay_step value vs log_id org_id s Hv (rows d) e (g e)).
Qed.
Lemma reaches_all s org_id log_id (g : Entity -> Entity) d :
  harmonize_wf d -> (forall e, en_id (g e) = en_id e /\ en_org (g e) = en_org e) ->
  count_where (reaches org_id (map g (rows d))) (map (recorded log_id) (step_list s org_id d)) = Z.of_nat (List.length (step_list s org_id d)).
Proof.
  intros [Hnd Hcol _ _] Hg. unfold count_where.
  assert (List.filter (reaches org_id (map g (rows d))) (map (recorded log_id) (step_list s org_id d))
          = map (recorded log_id) (step_list s org_id d)) as ->; [|by rewrite length_map].
  apply forallb_filter_id, forallb_forall. intros c (sc & <- & (e & [He Hs]%filter_In & Hc)%in_flat_map)%in_map_iff.
  apply existsb_exists. exists (g e). destruct (Hg e) as [H1 H2]. split; [by apply in_map|].
  apply andb_prop in Hs as [Hs _]. rewrite H2, Hs, bool_decide_true; [done|].
  cbn. rewrite H1. f_equal. by apply (step_changes_spec s e sc (Hcol e He)).
Qed.

Lemma marked_new f ls n l : (forall l, In l ls -> hl_id l <= n) -> hl_id l = n + 1 ->
  update_where (fun l => hl_id l =? n + 1) f (ls ++ [l]) = ls ++ [f l].
Proof.
  intros Hle Hid. unfold update_where. rewrite map_app. cbn. rewrite (proj2 (Z.eqb_eq _ _) Hid). f_equal.
  rewrite <- (map_id ls) at 2. apply map_ext_in. intros k Hk. specialize (Hle k Hk). by replace (hl_id k =? n + 1) with false by lia.
Qed.
Definition new_log (s : Step) (org_id : option Z) (now : Z) (d : HarmonizeDb) : HarmonizationLog :=
  let cs := step_list s org_id d in
  step_log set_order s (persisted_org_id org_id) now (Some (sample_details cs)) cs (log_seq d + 1).
Definition after_apply (s : Step) (user : User) (org_id : option Z) (now : Z) (d : HarmonizeDb) : HarmonizeDb :=
  applied s user org_id now (fun cs => Some (sample_details cs)) [] d.

Lemma undo_applied s user org_id now d :
  harmonize_wf d -> editor_scope tenants user = Ok org_id ->
  exists d2, undo_harmonization tenants (log_seq d + 1) user (clean (after_apply s user org_id now d))
             = (Ok (Z.of_nat (List.length (step_list s org_id d))), clean d2)
    /\ rows d2 = rows d /\ logs d2 = logs d ++ [set_reverted true (new_log s org_id now d)]
    /\ changes_of (log_seq d + 1) d2 = map (recorded (log_seq d + 1)) (step_list s org_id d).
Proof.
  intros Hwf Ho. pose proof Hwf as [Hnd Hcol Hlogs _]. set (d1 := after_apply s user org_id now d).
  assert (Hc : changes_of (log_seq d + 1) d1 = map (recorded (log_seq d + 1)) (step_list s org_id d)) by by apply applied_changes.
  exists (marked (log_seq d + 1) true (replayed cr_old org_id (log_seq d + 1) d1)). split; [|split; [|split]].
  - rewrite (undo_run (log_seq d + 1) user org_id (new_log s org_id now d)); [|done| | |done|].
    + rewrite Hc. unfold d1, after_apply, applied. cbn [rows]. rewrite (reaches_all s org_id _ (step_row s org_id)); [done|done|].
      apply step_row_same.
    + unfold d1, after_apply, applied. cbn [rows]. rewrite map_map. erewrite map_ext; [exact Hnd|]. intros e. apply step_row_same.
    + by apply find_new_log; [| |apply in_scope_persisted].
    + by rewrite Hc, length_map.
  - unfold marked, replayed, with_logs, with_rows. cbn [rows]. rewrite Hc. unfold d1, after_apply, applied. cbn [rows].
    rewrite (replay_all cr_old sc_old s org_id _ (step_row s org_id)); [|done|done|apply step_row_same].
    rewrite <- (map_id (rows d)) at 2. apply map_ext_in. intros e He. unfold step_row.
    destruct (selected s org_id e); [|done]. by apply step_undone, Hcol.
  - unfold marked, replayed, with_logs, with_rows. cbn [logs]. by apply marked_new.
  - exact Hc.
Qed.
Lemma redo_undone s user org_id now d d2 :
  harmonize_wf d -> editor_scope tenants user = Ok org_id ->
  rows d2 = rows d -> logs d2 = logs d ++ [set_reverted true (new_log s org_id now d)] ->
  changes_of (log_seq d + 1) d2 = map (recorded (log_seq d + 1)) (step_list s org_id d) ->
  exists d3, redo_harmonization tenants (log_seq d + 1) user (clean d2) = (Ok (Z.of_nat (List.length (step_list s org_id d))), clean d3)
    /\ rows d3 = rows (after_apply s user org_id now d) /\ logs d3 = logs (after_apply s user org_id now d).
Proof.
  intros Hwf Ho Hr Hl Hc. pose proof Hwf as [Hnd Hcol Hlogs _].
  assert (Hrows : rows d = map (fun e => e) (rows d)) by by rewrite map_id.
  exists (marked (log_seq d + 1) false (replayed cr_new org_id (log_seq d + 1) d2)). split; [|split].
  - rewrite (redo_run (log_seq d + 1) user org_id (set_reverted true (new_log s org_id now d))); [|done|by rewrite Hr| |done].
    + rewrite Hc, Hr, Hrows. by rewrite (reaches_all s org_id _ (fun e => e)).
    + rewrite Hl. by apply find_new_log; [| |apply in_scope_persisted].
  - unfold marked, replayed, with_logs, with_rows. cbn [rows]. rewrite Hc, Hr, Hrows.
    by rewrite (replay_all cr_new sc_new s org_id _ (fun e => e)).
  - unfold marked, replayed, with_logs, with_rows. cbn [logs]. rewrite Hl. by rewrite marked_new.
Qed.

(** C9: undo is the inverse of apply and redo of undo: after a step is applied,
    undoing its log restores every entity to what it was, column for column, and
    redoing it brings back exactly the applied state; both touch as many fields
    as the apply reported. *)
Theorem undo_redo_roundtrip id user now d r d1 :
  harmonize_wf d ->
  apply_harmonization_step tenants set_order None id user now (clean d) = (Ok r, clean d1) ->
  exists d2 d3,
    undo_harmonization tenants (sr_log r) user (clean d1) = (Ok (sr_updated r), clean d2) /\ rows d2 = rows d
    /\ redo_harmonization tenants (sr_log r) user (clean d2) = (Ok (sr_updated r), clean d3) /\ rows d3 = rows d1 /\ logs d3 = logs d1.
Proof.
  intros Hwf Happ. pose proof Hwf as [Hnd Hcol Hlogs Hchanges].
  destruct (editor_scope tenants user) as [org_id|e] eqn:Ho.
  2: { unfold apply_harmonization_step in Happ. by rewrite Ho in Happ. }
  destruct (find_step id) as [s|e] eqn:Hs.
  2: { unfold apply_harmonization_step in Happ. by rewrite Ho, Hs in Happ. }
  rewrite (apply_step_run id s user org_id now d Ho Hs) in Happ. injection Happ as <- <-. cbn [sr_log sr_updated].
  destruct (undo_applied s user org_id now d Hwf Ho) as (d2 & Hu & Hr2 & Hl2 & Hc2).
  destruct (redo_undone s user org_id now d d2 Hwf Ho Hr2 Hl2 Hc2) as (d3 & Hd & Hr3 & Hl3).
  exists d2, d3. auto.
Qed.
End runs.

(** * The scope of a call *)
Definition others (org_id : option Z) (d : HarmonizeDb) : list Entity := List.filter (fun e => negb (in_scope org_id (en_org e))) (rows d).
Definition kept (org_id : option Z) (l : list Entity) (d : HarmonizeDb) : Prop := NoDup (map en_id (rows d)) /\ others org_id d = l.

Lemma kept_rows org_id l (f : Entity -> Entity) d :
  (forall e, In e (rows d) -> en_id (f e) = en_id e /\ en_org (f e) = en_org e /\ (in_scope org_id (en_org e) = false -> f e = e)) ->
  kept org_id l d -> kept org_id l (with_rows (map f) d).
Proof.
  intros Hf [Hnd Ho]. split; cbn.
  - rewrite map_map. erewrite map_ext_in; [exact Hnd|]. intros e He. apply (Hf e He).
  - rewrite <- Ho. unfold others. cbn. clear Hnd Ho. induction (rows d) as [|e es IH]; [done|]. cbn.
    destruct (Hf e (or_introl eq_refl)) as (_ & -> & He). rewrite IH by (intros; apply Hf; by right).
    destruct (in_scope org_id (en_org e)); cbn; [done|]. by rewrite He.
Qed.

Section confined.
Context (tenants : Tenants) (set_order : list string -> list string) (org_id : option Z) (l : list Entity).

Lemma kept_run_step s preview : preserves (kept org_id l) (run_step s preview org_id).
Proof.
  unfold run_step. preserve. apply kept_rows; [|done]. intros e _.
  destruct (step_row_same s org_id e) as [H1 H2]. unfold step_row in H1, H2. repeat split; [done|done|].
  intros Hs. unfold selected. by rewrite Hs.
Qed.
Lemma kept_add_log refuses mk : preserves (kept org_id l) (add_log refuses mk).
Proof. unfold add_log. by preserve. Qed.
Lemma kept_add_changes i cs : preserves (kept org_id l) (add_changes i cs).
Proof. unfold add_changes. by preserve. Qed.
Lemma kept_add_audit a : preserves (kept org_id l) (add_audit a).
Proof. unfold add_audit. by preserve. Qed.
Lemma kept_mark i b : preserves (kept org_id l) (mark_reverted i b).
Proof. unfold mark_reverted. by preserve. Qed.
Lemma kept_find_log i : preserves (kept org_id l) (find_log i org_id).
Proof. unfold find_log. by preserve. Qed.
Lemma kept_replay value cs n : preserves (kept org_id l) (replay_changes value org_id cs n).
Proof.
  revert n. induction cs as [|c cs IH]; intros n; cbn; [preserve|].
  intros st [Hnd Ho] Hb. rewrite run_get. destruct (scoped_row_spec org_id (cr_record c) (sess_db st) Hnd) as (found & Hf & Hspec).
  rewrite Hf, run_lift_ok. destruct found as [e|]; [|by apply IH].
  apply IH; [|done]. cbn. apply kept_rows; [|done]. intros e' He'. destruct (en_id e' =? en_id e) eqn:E; [|done].
  repeat split. intros Hs. apply Z.eqb_eq in E. destruct Hspec as (He & Hse & _).
  rewrite (NoDup_map_inj en_id (rows (sess_db st)) e' e Hnd He' He E) in Hs. congruence.
Qed.
Hint Resolve kept_run_step kept_add_log kept_add_changes kept_add_audit kept_mark kept_find_log kept_replay : preserve.

Lemma kept_log_step refuses s user now details via : preserves (kept org_id l) (log_step set_order refuses s user org_id now details via).
Proof. unfold log_step. preserve. Qed.
Hint Resolve kept_log_step : preserve.
Lemma kept_apply_steps refuses steps user now : preserves (kept org_id l) (apply_steps set_order refuses steps user org_id now).
Proof. induction steps as [|s steps IH]; cbn; preserve. Qed.
Hint Resolve kept_apply_steps : preserve.
End confined.

(** The calls of the harmonization router that write. *)
Inductive HCall :=
  | HApply (refuses : option exn) (id : string) (now : Z)
  | HApplyAll (refuses : Step -> option exn) (now : Z)
  | HUndo (log_id : Z)
  | HRedo (log_id : Z).
Definition hexec (tenants : Tenants) (set_order : list string -> list string) (user : User) (c : HCall) : M HarmonizeDb unit :=
  match c with
  | HApply refuses id now => run! apply_harmonization_step tenants set_order refuses id user now; mret tt
  | HApplyAll refuses now => run! apply_all_harmonization_steps tenants set_order refuses user now; mret tt
  | HUndo i => run! undo_harmonization tenants i user; mret tt
  | HRedo i => run! redo_harmonization tenants i user; mret tt
  end.
Lemma hexec_kept tenants set_order user org_id l c :
  editor_scope tenants user = Ok org_id -> preserves (kept org_id l) (hexec tenants set_order user c).
Proof.
  intros Ho. pose proof kept_log_step as H1. pose proof kept_apply_steps as H2. pose proof kept_find_log as H3.
  pose proof kept_replay as H4. pose proof kept_mark as H5.
  destruct c; cbn; apply preserves_bind; try (intros; apply preserves_ret).
  - unfold apply_harmonization_step. rewrite Ho. apply preserves_lift_ok. preserve.
  - unfold apply_all_harmonization_steps. rewrite Ho. apply preserves_lift_ok. preserve.
  - unfold undo_harmonization. rewrite Ho. apply preserves_lift_ok. preserve.
  - unfold redo_harmonization. rewrite Ho. apply preserves_lift_ok. preserve.
Qed.

(** no harmonization call reaches another organisation: whatever step is
    applied, undone or redone, and whether or not it raises, the entities outside
    the caller's scope are the same rows, committed and pending; a caller without
    an editor's role or a scope changes nothing at all. *)
Theorem harmonization_confined tenants set_order user c d :
  NoDup (map en_id (rows d)) ->
  let s := (hexec tenants set_order user c (clean d)).2 in
  match editor_scope tenants user with
  | Ok org_id => others org_id (sess_db s) = others org_id d /\ others org_id (sess_base s) = others org_id d
  | Raise _ => s = clean d
  end.
Proof.
  intros Hnd s. destruct (editor_scope tenants user) as [org_id|e] eqn:Ho.
  - destruct (hexec_kept tenants set_order user org_id (others org_id d) c Ho (clean d)) as [[_ H1] [_ H2]]; [by split..|]. by split.
  - unfold s. destruct c; cbn;
      unfold apply_harmonization_step, apply_all_harmonization_steps, undo_harmonization, redo_harmonization; by rewrite Ho.
Qed.

(** * What an apply does *)
Lemma column_write cs k v e : NoDup (map fst cs) -> In (k, v) cs -> column k (write cs e) = v.
Proof.
  assert (Hout : forall cs e, k ∉ map fst cs -> column k (write cs e) = column k e).
  { intros cs'. induction cs' as [|[k' v'] cs' IH]; intros e' Hk; [done|]. cbn in *. apply not_elem_of_cons in Hk as [Hne Hk].
    fold (write cs' (set_column k' v' e')). rewrite IH by done. by apply column_set_ne. }
  revert e. induction cs as [|[k' v'] cs IH]; intros e; [done|]. cbn [map fst]. intros [Hk Hnd]%NoDup_cons [[= -> ->]|Hin].
  - cbn [write fold_left fst snd]. fold (write cs (set_column k v e)). rewrite Hout by done. apply column_set_eq.
  - by apply IH.
Qed.
Lemma step_row_column s org_id e c : selected s org_id e = true -> In c (step_changes s e) ->
  column (sc_field c) (step_row s org_id e) = sc_new c.
Proof.
  intros Hs Hc. unfold step_row. rewrite Hs. unfold apply_changes. rewrite fold_write. apply column_write.
  - rewrite map_map. cbn. apply step_changes_fields.
  - apply in_map_iff. eauto.
Qed.
Lemma step_row_settled s org_id e : selected s org_id (step_row s org_id e) = true -> step_changes s (step_row s org_id e) = [].
Proof.
  intros Hs. destruct (selected s org_id e) eqn:He.
  - unfold step_row in *. rewrite He in *. apply andb_prop in Hs as [_ Hs]. by apply step_settled.
  - unfold step_row in Hs. rewrite He in Hs. congruence.
Qed.
Lemma step_list_settled s org_id d d' : rows d' = map (step_row s org_id) (rows d) ->
  step_list s org_id d' = [] /\ map (step_row s org_id) (rows d') = rows d'.
Proof.
  intros E. unfold step_list. rewrite E. split.
  - clear E. induction (rows d) as [|e es IH]; [done|]. cbn. destruct (selected s org_id (step_row s org_id e)) eqn:Hs; [|exact IH].
    cbn. by rewrite step_row_settled.
  - rewrite map_map. apply map_ext. intros e. unfold step_row at 1. destruct (selected s org_id (step_row s org_id e)) eqn:Hs; [|done].
    by rewrite step_row_settled.
Qed.

(** An apply does what the preview shows: it files one change record per
    previewed change, in order, writes the new value of each and nothing else,
    and leaves nothing to do: a second apply finds no change and edits no row. *)
Theorem apply_does_preview tenants set_order id user now d org_id s :
  editor_scope tenants user = Ok org_id -> find_step id = Ok s ->
  exists cs r d1 r2 d2,
    preview_harmonization_step tenants id user (clean d)
      = (Ok (mkPreview (Z.of_nat (List.length cs)) (firstn PREVIEW_SAMPLE_CAP cs) (firstn 50 cs)), clean d)
    /\ apply_harmonization_step tenants set_order None id user now (clean d) = (Ok r, clean d1)
    /\ sr_updated r = Z.of_nat (List.length cs) /\ changes d1 = changes d ++ map (recorded (sr_log r)) cs
    /\ rows d1 = map (step_row s org_id) (rows d)
    /\ (forall e c, In e (rows d) -> selected s org_id e = true -> In c (step_changes s e) ->
          In c cs /\ column (sc_field c) (step_row s org_id e) = sc_new c)
    /\ apply_harmonization_step tenants set_order None id user now (clean d1) = (Ok r2, clean d2)
    /\ sr_updated r2 = 0 /\ rows d2 = rows d1 /\ changes d2 = changes d1.
Proof.
  intros Ho Hs. set (d1 := applied set_order s user org_id now (fun cs => Some (sample_details cs)) [] d).
  destruct (step_list_settled s org_id d d1 eq_refl) as [Hl Hr].
  exists (step_list s org_id d), (mkStepResult s (Z.of_nat (List.length (step_list s org_id d))) (fields_modified set_order (step_list s org_id d)) (log_seq d + 1)), d1,
    (mkStepResult s 0 (fields_modified set_order []) (log_seq d1 + 1)), (applied set_order s user org_id now (fun cs => Some (sample_details cs)) [] d1).
  split; [|split; [by apply apply_step_run|]].
  { unfold preview_harmonization_step. rewrite Ho, Hs. mrun. unfold clean at 1. by rewrite (run_ok _ _ _ _ _ (run_step_run s true org_id d d)). }
  do 3 (split; [done|]). split.
  { intros e c He Hsel Hc. split; [|by apply step_row_column]. apply in_flat_map. exists e. split; [by apply filter_In|done]. }
  split; [rewrite (apply_step_run tenants set_order id s user org_id now d1 Ho Hs); by rewrite Hl|].
  split; [done|]. split; [exact Hr|]. unfold applied at 1. cbn [changes]. rewrite Hl. by rewrite app_nil_r.
Qed.

(** ** Bulk transformations *)
(** Reapplying an idempotent call edits nothing. *)
Lemma transform_settles unescape f p l l' a x :
  func_ok f -> idempotent f = true -> tp_expression p = print_call f None ->
  transform_rows unescape p l = Ok (l', a, x) -> transform_rows unescape p l' = Ok (l', 0, 0).
Proof.
  intros Hf Hi He. assert (Hap : forall v, apply_expression unescape (tp_expression p) (Some v) = Ok (eval unescape f v)).
  { intros v. rewrite He. unfold apply_expression. rewrite <- (of_chars_chars (print_call f None)), print_base, strip_base.
    unfold parse_subscript. rewrite chars_of_chars, SUBSCRIPT_none. cbn [res_bind].
    rewrite chars_of_chars, EXPR_print, !of_chars_chars. by apply (apply_printed_call unescape f None). }
  revert l' a x. induction l as [|e l IH]; intros l' a x; cbn [transform_rows]; [by intros [= <- _ _]|].
  set (one := fun e => if matches_payload p e then transform_row unescape p e else Ok (e, 0, 0)).
  assert (Hone : forall e, exists e' k, one e = Ok (e', k, 0) /\ one e' = Ok (e', 0, 0)).
  { intros e0. unfold one, transform_row. destruct (matches_payload p e0) eqn:Hm; [|exists e0, 0; by rewrite Hm].
    assert (Hv : exists v, column (tp_field p) e0 = Some v) by (unfold matches_payload in Hm; destruct (column (tp_field p) e0); [by eexists|done]).
    destruct Hv as [v Hv]. rewrite Hv, Hap. case_bool_decide as Hb.
    - exists e0, 0. split; [done|]. rewrite Hm, Hv, Hap. by rewrite bool_decide_true.
    - exists (set_column (tp_field p) (Some (eval unescape f v)) e0), 1. split; [done|].
      rewrite column_set_eq, Hap, eval_idempotent, bool_decide_true by done. by case_match. }
  destruct (Hone e) as (e' & k & H1 & H2). unfold one in H1, H2. rewrite H1. cbn [res_bind].
  destruct (transform_rows unescape p l) as [[[l1 a1] x1]|exc] eqn:El; [|done]. cbn. intros [= <- <- <-].
  cbn [transform_rows]. rewrite H2. cbn. by rewrite (IH _ _ _ eq_refl).
Qed.

(** * Edges, on concrete tables *)
Module HarmonizeDemo.
Definition tenants : Tenants := mkTenants [mkOrg 7 "acme" "Acme" None (Some true)] [mkMember 7 3].
Definition editor : User := mkUser 3 "editor" (Some 7).
Definition root : User := mkUser 1 "super_admin" None.
Definition row (i : Z) (org : option Z) (label ty : string) : Entity :=
  mkEntity i org [("primary_label", Some label); ("secondary_label", None); ("canonical_id", None); ("entity_type", Some ty);
                  ("validation_status", Some "valid"); ("domain", None)].
Definition tables : HarmonizeDb :=
  mkHarmonizeDb [row 1 (Some 7) " Ada  L. " " Person"; row 2 (Some 8) " Bob " "Org"] [] 0 [] [].
Definition same (l : list string) : list string := l.
Definition apply (id : string) (d : HarmonizeDb) : HarmonizeDb :=
  sess_base (apply_harmonization_step tenants same None id editor 5 (clean d)).2.
Definition trim : TransformPayload := mkPayload "primary_label" "value.trim()" None.
End HarmonizeDemo.

Lemma undo_redo_roundtrip_witness :
  exists d2 d3, undo_harmonization HarmonizeDemo.tenants 1 HarmonizeDemo.editor (clean (HarmonizeDemo.apply "normalize_labels" HarmonizeDemo.tables))
      = (Ok 1, clean d2) /\ rows d2 = rows HarmonizeDemo.tables /\ rows d3 = rows (HarmonizeDemo.apply "normalize_labels" HarmonizeDemo.tables).
Proof.
  assert (Hwf : harmonize_wf HarmonizeDemo.tables).
  { split; [by apply (bool_decide_unpack _)| |done|done]. intros e He f Hf.
    assert (Hall : Forall (fun e => Forall (fun f => f ∈ dict_keys (en_cols e)) STEP_FIELDS) (rows HarmonizeDemo.tables))
      by (apply (bool_decide_unpack _); vm_compute; exact I).
    rewrite Forall_forall in Hall. specialize (Hall e (proj2 (list_elem_of_In _ _) He)). rewrite Forall_forall in Hall. by apply Hall. }
  destruct (undo_redo_roundtrip HarmonizeDemo.tenants HarmonizeDemo.same "normalize_labels" HarmonizeDemo.editor 5 HarmonizeDemo.tables
    (mkStepResult NormalizeLabels 1 ["primary_label"] 1) (HarmonizeDemo.apply "normalize_labels" HarmonizeDemo.tables))
    as (d2 & d3 & H1 & H2 & _ & H3 & _); [exact Hwf|vm_compute; reflexivity|].
  exists d2, d3. split; [exact H1|]. split; [exact H2|exact H3].
Defined.
Lemma harmonization_confined_witness :
  others (Some 7) (sess_base (hexec HarmonizeDemo.tenants HarmonizeDemo.same HarmonizeDemo.editor (HApplyAll (fun _ => None) 5) (clean HarmonizeDemo.tables)).2)
  = [HarmonizeDemo.row 2 (Some 8) " Bob " "Org"].
Proof.
  pose proof (harmonization_confined HarmonizeDemo.tenants HarmonizeDemo.same HarmonizeDemo.editor (HApplyAll (fun _ => None) 5) HarmonizeDemo.tables) as H.
  destruct H as [_ H]; [by apply (bool_decide_unpack _)|]. exact H.
Defined.
Lemma apply_does_preview_witness :
  exists r d1, apply_harmonization_step HarmonizeDemo.tenants HarmonizeDemo.same None "normalize_entity_types" HarmonizeDemo.editor 5
    (clean HarmonizeDemo.tables) = (Ok r, clean d1) /\ sr_updated r = 1.
Proof.
  destruct (apply_does_preview HarmonizeDemo.tenants HarmonizeDemo.same "normalize_entity_types" HarmonizeDemo.editor 5 HarmonizeDemo.tables (Some 7)
    NormalizeEntityTypes) as (cs & r & d1 & _ & _ & H0 & H1 & H2 & _); [vm_compute; reflexivity|vm_compute; reflexivity|].
  exists r, d1. split; [exact H1|]. rewrite H2. symmetry.
  etransitivity; [|exact (f_equal (fun o => match o.1 with Ok v => pv_affected v | Raise _ => 0 end) H0)]. vm_compute. reflexivity.
Defined.

(** Undo writes the recorded values back whatever happened since: an edit made
    after the apply is lost. *)
Lemma undo_overwrites_later_edit :
  let d := HarmonizeDemo.apply "normalize_labels" HarmonizeDemo.tables in
  let edited := with_rows (update_where (fun e => en_id e =? 1) (set_column "primary_label" (Some "Ada Lovelace"))) d in
  let undone := sess_base (undo_harmonization HarmonizeDemo.tenants 1 HarmonizeDemo.editor (clean edited)).2 in
  map (column "primary_label") (rows undone) = [Some " Ada  L. "; Some " Bob "].
Proof. vm_compute. reflexivity. Qed.

(** A step commits its edits before its log is written: when the log is refused
    the edits stay, with nothing to undo them by. *)
Lemma refused_log_keeps_edits :
  let out := apply_harmonization_step HarmonizeDemo.tenants HarmonizeDemo.same (Some (Exn "OperationalError" "disk full")) "normalize_labels"
               HarmonizeDemo.editor 5 (clean HarmonizeDemo.tables) in
  out.1 = Raise (Exn "OperationalError" "disk full")
  /\ map (column "primary_label") (rows (sess_base out.2)) = [Some "Ada L."; Some " Bob "]
  /\ logs (sess_base out.2) = [] /\ changes (sess_base out.2) = [].
Proof. vm_compute. auto. Qed.

(** A transformation has no scope: an editor of organisation 7 rewrites the rows
    of organisation 8. *)
Lemma transformation_crosses_tenants unescape :
  let d := sess_base (apply_transformation unescape None "u" HarmonizeDemo.trim HarmonizeDemo.editor 5 (clean HarmonizeDemo.tables)).2 in
  map (fun e => (en_org e, column "primary_label" e)) (rows d) = [(Some 7, Some "Ada  L."); (Some 8, Some "Bob")].
Proof. vm_compute. reflexivity. Qed.

(** Its log keeps a snapshot for undo that no undo reads: the endpoint refuses
    the log for want of change records, and the editor does not even see it. *)
Lemma transformation_is_not_undoable unescape :
  let d := sess_base (apply_transformation unescape None "u" HarmonizeDemo.trim HarmonizeDemo.editor 5 (clean HarmonizeDemo.tables)).2 in
  (undo_harmonization HarmonizeDemo.tenants 1 HarmonizeDemo.root (clean d)).1
    = Raise (HTTPException 400 "No change records found for this log entry (pre-undo data not available)")
  /\ (undo_harmonization HarmonizeDemo.tenants 1 HarmonizeDemo.editor (clean d)).1 = Raise (HTTPException 404 "Log entry not found").
Proof. vm_compute. auto. Qed.

(** The empty delimiter is not answered with a 422. *)
Lemma empty_delimiter_is_500 unescape :
  check_payload unescape (mkPayload "primary_label" "value.split('')" None) = Raise (Exn "ValueError" "empty separator").
Proof. vm_compute. reflexivity. Qed.
