(* ===== verification/Organizations.v ===== *)
(** * Organisations and memberships (src/backend/routers/organizations.py)

    The endpoints over the tables of organisations, memberships and
    accounts. [view] is what the tenancy and quota modules read of them. *)
From S2P Require Import Prelude PyStr PyJson PyValue TenantAccess TenantQuotas.
From Stdlib Require Import Ascii String.

Local Open Scope string_scope.
Local Open Scope list_scope.
Local Open Scope Z_scope.
Local Open Scope py_scope.

Record Org := mkOrganization {
  og_id : Z; og_slug : string; og_name : string; og_description : option string; og_plan : option string; og_owner : Z;
  og_active : option bool; og_profile : option string; og_overrides : option string }.
Record Member := mkMembership { mb_org : Z; mb_user : Z; mb_role : string }.
Record Account := mkAccount { ac_id : Z; ac_username : string; ac_role : string; ac_org : option Z }.
Record OrgDb := mkOrgDb { orgs : list Org; memberships : list Member; accounts : list Account; org_seq : Z }.

Definition with_orgs (f : list Org -> list Org) (d : OrgDb) : OrgDb := mkOrgDb (f (orgs d)) (memberships d) (accounts d) (org_seq d).
Definition with_memberships (f : list Member -> list Member) (d : OrgDb) : OrgDb := mkOrgDb (orgs d) (f (memberships d)) (accounts d) (org_seq d).
Definition with_accounts (f : list Account -> list Account) (d : OrgDb) : OrgDb := mkOrgDb (orgs d) (memberships d) (f (accounts d)) (org_seq d).

(** What other modules read: [backend/tenant_access.py], [backend/tenant_quotas.py]. *)
Definition view_row (o : Org) : Organization := mkOrg (og_id o) (og_slug o) (og_name o) (og_plan o) (og_active o).
Definition view (d : OrgDb) : Tenants :=
  mkTenants (map view_row (orgs d)) (map (fun m => TenantAccess.mkMember (mb_org m) (mb_user m)) (memberships d)).
Definition as_user (a : Account) : User := mkUser (ac_id a) (ac_role a) (ac_org a).
(** The quota module's tables, of which an invitation only counts members. *)
Definition quota_view (d : OrgDb) : QuotaDb := mkQuotaDb (view d) [] [] [] [] [] [].

(** * Payloads *)
(** [^[a-z0-9][a-z0-9\-]{1,98}[a-z0-9]$] with [re.match]: the dollar also
    matches before a final newline. *)
Definition slug_end (c : ascii) : bool := let n := code c in ((97 <=? n) && (n <=? 122) || (48 <=? n) && (n <=? 57))%N.
Definition slug_mid (c : ascii) : bool := slug_end c || bool_decide (c = "-"%char).
Definition slug_core (l : list ascii) : bool :=
  match l, rev l with
  | a :: _, z :: _ => slug_end a && slug_end z && forallb slug_mid l
                      && (3 <=? List.length l)%nat && (List.length l <=? 100)%nat
  | _, _ => false
  end.
Definition newline : ascii := ascii_of_N 10.
Definition SLUG_RE (s : string) : bool :=
  let l := chars s in
  slug_core l || match rev l with c :: r => bool_decide (c = newline) && slug_core (rev r) | [] => false end.
Definition valid_slug (s : string) : bool :=
  (3 <=? String.length s)%nat && (String.length s <=? 100)%nat && SLUG_RE s.

Record OrgCreate := mkOrgCreate { c_name : string; c_slug : string; c_description : option string; c_plan : string }.
Record OrgUpdate := mkOrgUpdate {
  u_name : option string; u_description : option string; u_plan : option string; u_profile : option string;
  u_overrides : option json }.

(** * Guards *)
Definition find_org (i : Z) (d : OrgDb) : option Org := List.find (fun o => og_id o =? i) (orgs d).
Definition is_true_opt (b : option bool) : bool := match b with Some b => b | None => false end.
Definition get_org_or_404 (org_id : Z) (d : OrgDb) : res Org :=
  match find_org org_id d with
  | Some o => if is_true_opt (og_active o) then Ok o else Raise (HTTPException 404 "Organization not found")
  | None => Raise (HTTPException 404 "Organization not found")
  end.
Definition of_member (org_id user : Z) (m : Member) : bool := (mb_org m =? org_id) && (mb_user m =? user).
Definition get_membership (org_id user : Z) (d : OrgDb) : option Member := List.find (of_member org_id user) (memberships d).
Definition role_rank (r : string) : Z :=
  if bool_decide (r = "owner") then 3 else if bool_decide (r = "admin") then 2 else if bool_decide (r = "member") then 1 else 0.
Definition require_membership (org_id : Z) (user : Account) (min_role : string) (d : OrgDb) : res Member :=
  if bool_decide (ac_role user = "super_admin") then
    Ok (match get_membership org_id (ac_id user) d with Some m => m | None => mkMembership org_id (ac_id user) "owner" end)
  else match get_membership org_id (ac_id user) d with
       | None => Raise (HTTPException 403 "You are not a member of this organization")
       | Some m => if role_rank (mb_role m) <? role_rank min_role
                   then Raise (HTTPException 403 ("Role '" ++ mb_role m ++ "' is insufficient (need '" ++ min_role ++ "')"))
                   else Ok m
       end.
(** Both guards of an endpoint. *)
Definition guard (org_id : Z) (user : Account) (min_role : string) (d : OrgDb) : res (Org * Member) :=
  let? o := get_org_or_404 org_id d in
  let? m := require_membership org_id user min_role d in Ok (o, m).

(** * Endpoints *)
Definition set_active_org (user org_id : Z) : M OrgDb unit :=
  mmodify (with_accounts (update_where (fun a => ac_id a =? user)
    (fun a => mkAccount (ac_id a) (ac_username a) (ac_role a) (Some org_id)))).
Definition add_member (m : Member) : M OrgDb unit := mmodify (with_memberships (fun l => l ++ [m])).

(** Whether the caller's organisation is falsy. *)
Definition no_active_org (u : Account) : bool := match ac_org u with None => true | Some o => o =? 0 end.
Definition create_organization (p : OrgCreate) (user : Account) : M OrgDb Z :=
  do! d <- mget;
  if existsb (fun o => bool_decide (og_slug o = c_slug p)) (orgs d) then mraise (HTTPException 409 "Slug already taken")
  else
    let i := org_seq d + 1 in
    run! mmodify (fun d => mkOrgDb (orgs d ++ [mkOrganization i (c_slug p) (c_name p) (c_description p) (Some (c_plan p)) (ac_id user)
                                                 (Some true) None (Some "{}")]) (memberships d) (accounts d) i);
    run! add_member (mkMembership i (ac_id user) "owner");
    run! (if no_active_org user then set_active_org (ac_id user) i else mret tt);
    run! commit;
    mret i.

Definition members_of (org_id : Z) (d : OrgDb) : list Member := List.filter (fun m => mb_org m =? org_id) (memberships d).
(** Each organisation with its number of members. *)
Definition list_organizations (user : Account) (d : OrgDb) : list (Org * Z) :=
  let active := List.filter (fun o => is_true_opt (og_active o)) (orgs d) in
  let mine := if bool_decide (ac_role user = "super_admin") then active
              else List.filter (fun o => existsb (fun m => (mb_user m =? ac_id user) && (mb_org m =? og_id o)) (memberships d)) active in
  map (fun o => (o, Z.of_nat (List.length (members_of (og_id o) d)))) mine.
Definition get_organization (org_id : Z) (user : Account) (d : OrgDb) : res (Org * Z) :=
  let? (o, _) := guard org_id user "member" d in Ok (o, Z.of_nat (List.length (members_of org_id d))).

Definition BUILTIN_PROFILE_IDS : list string := ["research_portfolio_baseline"; "ref_readiness_baseline"; "sni_readiness_baseline"].
Definition update_org (org_id : Z) (f : Org -> Org) : M OrgDb unit :=
  mmodify (with_orgs (update_where (fun o => og_id o =? org_id) f)).
(** The fields that are set before the profile is checked. *)
Definition with_fields (p : OrgUpdate) (o : Org) : Org :=
  mkOrganization (og_id o) (og_slug o) (match u_name p with Some n => n | None => og_name o end)
    (match u_description p with Some t => Some t | None => og_description o end)
    (match u_plan p with Some t => Some t | None => og_plan o end) (og_owner o) (og_active o) (og_profile o) (og_overrides o).
Definition set_profile (v : option string) (o : Org) : Org :=
  mkOrganization (og_id o) (og_slug o) (og_name o) (og_description o) (og_plan o) (og_owner o) (og_active o) v (og_overrides o).
Definition set_overrides (v : string) (o : Org) : Org :=
  mkOrganization (og_id o) (og_slug o) (og_name o) (og_description o) (og_plan o) (og_owner o) (og_active o) (og_profile o) (Some v).
Definition set_active (b : bool) (o : Org) : Org :=
  mkOrganization (og_id o) (og_slug o) (og_name o) (og_description o) (og_plan o) (og_owner o) (Some b) (og_profile o) (og_overrides o).
Definition update_organization (p : OrgUpdate) (org_id : Z) (user : Account) : M OrgDb unit :=
  do! d <- mget;
  do! _ <- mlift (guard org_id user "admin" d);
  run! update_org org_id (with_fields p);
  run! (match u_profile p with
        | None => mret tt
        | Some v => if truthy v && negb (bool_decide (v ∈ BUILTIN_PROFILE_IDS)) then mraise (HTTPException 422 "Unknown benchmark profile")
                    else update_org org_id (set_profile (if truthy v then Some v else None))
        end);
  run! (match u_overrides p with None => mret tt | Some j => update_org org_id (set_overrides (dumps false j)) end);
  commit.
Definition delete_organization (org_id : Z) (user : Account) : M OrgDb unit :=
  do! d <- mget;
  do! _ <- mlift (guard org_id user "owner" d);
  run! update_org org_id (set_active false);
  commit.

Definition list_members (org_id : Z) (user : Account) (d : OrgDb) : res (list (Member * Account)) :=
  let? _ := guard org_id user "member" d in
  Ok (omap (fun m => match List.find (fun a => ac_id a =? mb_user m) (accounts d) with Some a => Some (m, a) | None => None end)
        (members_of org_id d)).
Definition invite_member (username role : string) (org_id : Z) (user : Account) : M OrgDb Member :=
  do! d <- mget;
  do! _ <- mlift (guard org_id user "admin" d);
  match List.find (fun a => bool_decide (ac_username a = username)) (accounts d) with
  | None => mraise (HTTPException 404 "User not found")
  | Some target =>
      match get_membership org_id (ac_id target) d with
      | Some _ => mraise (HTTPException 409 "User is already a member")
      | None =>
          run! mlift (assert_org_quota_available (quota_view d) (Some org_id) "members" (Some (as_user user)));
          let m := mkMembership org_id (ac_id target) role in
          run! add_member m;
          run! commit;
          mret m
      end
  end.
(** [db.delete(target_m)]: the membership that was found. *)
Fixpoint delete_first (p : Member -> bool) (l : list Member) : list Member :=
  match l with [] => [] | m :: l => if p m then l else m :: delete_first p l end.
Definition remove_member (org_id member_user_id : Z) (user : Account) : M OrgDb unit :=
  do! d <- mget;
  do! (_, caller) <- mlift (guard org_id user "admin" d);
  if negb (member_user_id =? ac_id user) && negb (bool_decide (mb_role caller ∈ ["owner"; "admin"]))
  then mraise (HTTPException 403 "Insufficient role to remove others")
  else
    match get_membership org_id member_user_id d with
    | None => mraise (HTTPException 404 "Member not found")
    | Some target =>
        if bool_decide (mb_role target = "owner") && negb (member_user_id =? ac_id user)
        then mraise (HTTPException 403 "Cannot remove the organization owner")
        else run! mmodify (with_memberships (delete_first (of_member org_id member_user_id)));
             commit
    end.
Definition switch_organization (org_id : Z) (user : Account) : M OrgDb Z :=
  do! d <- mget;
  do! _ <- mlift (guard org_id user "member" d);
  run! set_active_org (ac_id user) org_id;
  run! commit;
  mret org_id.
