(* ===== verification/OrgClaims.v ===== *)
(** * Theorems on organisations

    Ownership and uniqueness hold in every reachable state; the switch endpoint
    and the gate of every other request ([resolve_request_org_id]) agree, so
    access follows membership; what an outsider calls changes nothing of an
    organisation. *)
From S2P Require Import Prelude PyStr PyJson PyValue TenantAccess TenantQuotas Organizations.
From Stdlib Require Import Ascii String.

Local Open Scope string_scope.
Local Open Scope list_scope.
Local Open Scope Z_scope.
Local Open Scope py_scope.

(** * The invariant *)
Definition pair_of (m : Member) : Z * Z := (mb_org m, mb_user m).
Record org_wf (d : OrgDb) : Prop := {
  wf_org_ids : NoDup (map og_id (orgs d));
  wf_org_seq : forall o, In o (orgs d) -> og_id o <= org_seq d;
  wf_slugs : NoDup (map og_slug (orgs d));
  wf_pairs : NoDup (map pair_of (memberships d));
  wf_refs : forall m, In m (memberships d) -> exists o, In o (orgs d) /\ og_id o = mb_org m;
  wf_owner : forall m o, In m (memberships d) -> In o (orgs d) -> og_id o = mb_org m -> mb_role m = "owner" -> mb_user m = og_owner o;
  wf_roles : forall m, In m (memberships d) -> 1 <= role_rank (mb_role m)
}.

Lemma in_delete_first p l m : In m (delete_first p l) -> In m l.
Proof. induction l as [|x l IH]; cbn; [done|]. destruct (p x); [by right|]. intros [->|H]; [by left|right; auto]. Qed.
Lemma NoDup_delete_first p l : NoDup (map pair_of l) -> NoDup (map pair_of (delete_first p l)).
Proof.
  induction l as [|x l IH]; cbn; [done|]. intros [Hx Hnd]%NoDup_cons. destruct (p x); [done|]. cbn. apply NoDup_cons. split; [|auto].
  intros H. apply Hx. apply list_elem_of_In, in_map_iff in H as (y & E & Hy). apply list_elem_of_In, in_map_iff.
  exists y. split; [done|]. by eapply in_delete_first.
Qed.
Lemma get_membership_None org_id user d : get_membership org_id user d = None <-> (org_id, user) ∉ map pair_of (memberships d).
Proof.
  unfold get_membership. rewrite list_elem_of_In, in_map_iff. split.
  - intros H (m & [= <- <-] & Hm). pose proof (find_none _ _ H m Hm) as Hf. unfold of_member in Hf. rewrite !Z.eqb_refl in Hf. done.
  - intros H. destruct (List.find _ _) as [m|] eqn:E; [|done]. exfalso. apply H. apply find_some in E as [Hm E]. exists m.
    unfold of_member in E. apply andb_prop in E as [?%Z.eqb_eq ?%Z.eqb_eq]. split; [|done]. unfold pair_of. congruence.
Qed.

Lemma wf_update_org i f d :
  (forall o, og_id (f o) = og_id o /\ og_slug (f o) = og_slug o /\ og_owner (f o) = og_owner o) ->
  org_wf d -> org_wf (with_orgs (update_where (fun o => og_id o =? i) f) d).
Proof.
  intros Hf [H1 H2 H3 H4 H5 H6 H7]. split; cbn; try done.
  - rewrite update_where_map; [done|]. intros o. apply Hf.
  - intros o' (o & Ho & [[_ ->]|[_ ->]])%in_update_where; [rewrite (proj1 (Hf o))|]; auto.
  - rewrite update_where_map; [done|]. intros o. apply Hf.
  - intros m Hm. destruct (H5 m Hm) as (o & Ho & E). eexists. split; [by apply update_where_in|].
    destruct (og_id o =? i); [by rewrite (proj1 (Hf o))|done].
  - intros m o' Hm (o & Ho & [[_ ->]|[_ ->]])%in_update_where; [|by apply H6].
    destruct (Hf o) as (-> & _ & ->). by apply H6.
Qed.
Lemma wf_add_member org_id user role d :
  get_membership org_id user d = None -> (exists o, In o (orgs d) /\ og_id o = org_id) ->
  (forall o, In o (orgs d) -> og_id o = org_id -> role = "owner" -> user = og_owner o) -> 1 <= role_rank role ->
  org_wf d -> org_wf (with_memberships (fun l => l ++ [mkMembership org_id user role]) d).
Proof.
  intros Hnone Href Hown Hrank [H1 H2 H3 H4 H5 H6 H7]. split; cbn; try done.
  - rewrite map_app. apply NoDup_app. split; [done|]. split; [|apply NoDup_singleton].
    intros x Hx ->%list_elem_of_singleton. by apply get_membership_None in Hnone.
  - intros m [Hm|[<-|[]]]%in_app_or; [by apply H5|done].
  - intros m o [Hm|[<-|[]]]%in_app_or Ho; [by apply H6|]. cbn. intros E Er. by apply Hown.
  - intros m [Hm|[<-|[]]]%in_app_or; [by apply H7|done].
Qed.
Lemma wf_delete p d : org_wf d -> org_wf (with_memberships (delete_first p) d).
Proof.
  intros [H1 H2 H3 H4 H5 H6 H7]. split; cbn; try done; [by apply NoDup_delete_first| | |].
  - intros m Hm. apply H5. by eapply in_delete_first.
  - intros m o Hm. apply H6. by eapply in_delete_first.
  - intros m Hm. apply H7. by eapply in_delete_first.
Qed.
Lemma wf_accounts f d : org_wf d -> org_wf (with_accounts f d).
Proof. intros []. by split. Qed.
(** The new organisation with its owner. *)
Lemma wf_create o d :
  og_id o = org_seq d + 1 -> og_slug o ∉ map og_slug (orgs d) -> org_wf d ->
  org_wf (mkOrgDb (orgs d ++ [o]) (memberships d ++ [mkMembership (og_id o) (og_owner o) "owner"]) (accounts d) (org_seq d + 1)).
Proof.
  intros Hid Hslug [H1 H2 H3 H4 H5 H6 H7].
  assert (Hold : forall m, In m (memberships d) -> mb_org m <= org_seq d).
  { intros m Hm. destruct (H5 m Hm) as (o' & Ho' & <-). by apply H2. }
  split; cbn.
  - rewrite map_app. apply NoDup_app. split; [done|]. split; [|apply NoDup_singleton]. intros x Hx ->%list_elem_of_singleton.
    apply list_elem_of_In, in_map_iff in Hx as (o' & E & Ho'). specialize (H2 o' Ho'). lia.
  - intros o' [Ho'|[<-|[]]]%in_app_or; [specialize (H2 o' Ho')|]; lia.
  - rewrite map_app. apply NoDup_app. split; [done|]. split; [|apply NoDup_singleton]. by intros x Hx ->%list_elem_of_singleton.
  - rewrite map_app. apply NoDup_app. split; [done|]. split; [|apply NoDup_singleton]. intros x Hx ->%list_elem_of_singleton.
    apply list_elem_of_In, in_map_iff in Hx as (m & [= E _] & Hm). specialize (Hold m Hm). lia.
  - intros m [Hm|[<-|[]]]%in_app_or.
    + destruct (H5 m Hm) as (o' & Ho' & E). exists o'. split; [apply in_or_app; by left|done].
    + exists o. split; [apply in_or_app; right; by left|done].
  - intros m o' [Hm|[<-|[]]]%in_app_or [Ho'|[<-|[]]]%in_app_or E; cbn in *; try done.
    + by apply H6.
    + specialize (Hold m Hm). lia.
    + specialize (H2 o' Ho'). lia.
  - intros m [Hm|[<-|[]]]%in_app_or; [by apply H7|done].
Qed.

(** * Calls *)
Definition INVITE_ROLES : list string := ["admin"; "member"].
Inductive OCall :=
  | OCreate (p : OrgCreate)
  | OUpdate (p : OrgUpdate) (org_id : Z)
  | ODelete (org_id : Z)
  | OInvite (username role : string) (org_id : Z)
  | ORemove (org_id member_user_id : Z)
  | OSwitch (org_id : Z).
(** A call of [user]; a payload that does not validate does not reach the
    handler. *)
Definition oexec (user : Account) (c : OCall) : M OrgDb unit :=
  match c with
  | OCreate p => if valid_slug (c_slug p) then run! create_organization p user; mret tt else mret tt
  | OUpdate p i => update_organization p i user
  | ODelete i => delete_organization i user
  | OInvite name role i => if bool_decide (role ∈ INVITE_ROLES) then run! invite_member name role i user; mret tt else mret tt
  | ORemove i u => remove_member i u user
  | OSwitch i => run! switch_organization i user; mret tt
  end.

Lemma guard_org org_id user r d o m : guard org_id user r d = Ok (o, m) -> In o (orgs d) /\ og_id o = org_id /\ og_active o = Some true.
Proof.
  unfold guard, get_org_or_404, find_org. destruct (List.find _ (orgs d)) as [o'|] eqn:E; [|done]. cbn.
  destruct (is_true_opt (og_active o')) eqn:Ea; [|done]. cbn. destruct (require_membership _ _ _ _); [|done]. intros [= <- _].
  apply find_some in E as [Ho Eo%Z.eqb_eq]. split; [done|]. split; [done|]. unfold is_true_opt in Ea. destruct (og_active o'); congruence.
Qed.
Lemma wf_update_call i f : (forall o, og_id (f o) = og_id o /\ og_slug (f o) = og_slug o /\ og_owner (f o) = og_owner o) ->
  preserves org_wf (update_org i f).
Proof. intros Hf. apply preserves_modify. intros d. by apply wf_update_org. Qed.

Lemma create_wf p user : preserves org_wf (create_organization p user).
Proof.
  intros s Hd Hb. unfold create_organization. rewrite run_get. destruct (existsb _ (orgs (sess_db s))) eqn:E; [done|].
  assert (Hslug : c_slug p ∉ map og_slug (orgs (sess_db s))).
  { intros H. apply list_elem_of_In, in_map_iff in H as (o & Eo & Ho). apply not_true_iff_false in E. apply E.
    apply existsb_exists. exists o. split; [done|]. by apply bool_decide_eq_true. }
  assert (Hwf : org_wf (mkOrgDb (orgs (sess_db s) ++ [mkOrganization (org_seq (sess_db s) + 1) (c_slug p) (c_name p) (c_description p)
      (Some (c_plan p)) (ac_id user) (Some true) None (Some "{}")])
    (memberships (sess_db s) ++ [mkMembership (org_seq (sess_db s) + 1) (ac_id user) "owner"]) (accounts (sess_db s)) (org_seq (sess_db s) + 1)))
    by by apply (wf_create (mkOrganization (org_seq (sess_db s) + 1) (c_slug p) (c_name p) (c_description p)
      (Some (c_plan p)) (ac_id user) (Some true) None (Some "{}"))).
  unfold add_member, set_active_org. destruct (no_active_org user); cbn; [|done]. split; by apply wf_accounts.
Qed.
Lemma invite_wf name role i user : role ∈ INVITE_ROLES -> preserves org_wf (invite_member name role i user).
Proof.
  intros Hrole s Hd Hb. unfold invite_member. rewrite run_get. destruct (guard i user "admin" (sess_db s)) as [[o m]|e] eqn:Eg; [|done].
  rewrite run_lift_ok. destruct (List.find _ (accounts (sess_db s))) as [target|]; [|done].
  destruct (get_membership i (ac_id target) (sess_db s)) eqn:Em; [done|].
  destruct (assert_org_quota_available _ _ _ _) as [[]|e]; [|done]. cbn.
  apply guard_org in Eg as (Ho & Eo & _). split; (apply wf_add_member; [done|by exists o| | |done]).
  all: try (intros o' _ _ ->; by apply (bool_decide_eq_true_2 _) in Hrole).
  all: unfold INVITE_ROLES in Hrole; rewrite !elem_of_cons, elem_of_nil in Hrole; by destruct Hrole as [-> |[-> |[]]].
Qed.
Lemma oexec_wf user c : preserves org_wf (oexec user c).
Proof.
  destruct c as [p|p i|i|name role i|i u|i]; cbn.
  - destruct (valid_slug _); preserve. apply create_wf.
  - unfold update_organization. preserve; by apply wf_update_call.
  - unfold delete_organization. preserve. by apply wf_update_call.
  - case_bool_decide; preserve. by apply invite_wf.
  - unfold remove_member. preserve. by apply wf_delete.
  - unfold switch_organization, set_active_org. preserve. by apply wf_accounts.
Qed.

(** Calls of any users one after the other, each in a session of its own. *)
Definition ohistory (d : OrgDb) (cs : list (Account * OCall)) : OrgDb :=
  fold_left (fun d uc => sess_base (oexec uc.1 uc.2 (clean d)).2) cs d.
Lemma ohistory_wf cs d : org_wf d -> org_wf (ohistory d cs).
Proof.
  revert d. induction cs as [|[u c] cs IH]; intros d H; [done|]. apply IH. by apply (oexec_wf u c (clean d)).
Qed.

(** C24: whoever calls whatever, organisation ids and slugs stay unique, a user
    has at most one membership of an organisation, every membership is of an
    organisation that exists, and only the user who created an organisation is
    ever its owner. *)
Theorem ownership_invariant accs cs :
  let d := ohistory (mkOrgDb [] [] accs 0) cs in
  NoDup (map og_id (orgs d)) /\ NoDup (map og_slug (orgs d)) /\ NoDup (map pair_of (memberships d))
  /\ (forall m, In m (memberships d) -> exists o, In o (orgs d) /\ og_id o = mb_org m /\ (mb_role m = "owner" -> mb_user m = og_owner o)).
Proof.
  intros d. destruct (ohistory_wf cs (mkOrgDb [] [] accs 0)) as [H1 H2 H3 H4 H5 H6 H7].
  { split; try done; apply NoDup_nil_2. }
  do 3 (split; [done|]). intros m Hm. destruct (H5 m Hm) as (o & Ho & E). exists o. eauto.
Qed.

(** * Access follows membership *)
Definition request_scope (d : OrgDb) (a : Account) (i : Z) : res (option Z) :=
  resolve_request_org_id (view d) (mkUser (ac_id a) (ac_role a) (Some i)) true true.

Lemma view_org i d : NoDup (map og_id (orgs d)) ->
  match get_org_or_404 i d with
  | Ok _ => exists o, List.find (active_org i) (organizations (view d)) = Some o
  | Raise _ => List.find (active_org i) (organizations (view d)) = None
  end.
Proof.
  intros Hnd. unfold get_org_or_404, find_org. destruct (List.find (active_org i) (organizations (view d))) as [o'|] eqn:E.
  - apply find_some in E as [(o & <- & Ho)%in_map_iff Ha]. apply active_org_spec in Ha as [Hi Ha]. cbn in Hi, Ha.
    rewrite (find_unique og_id _ (orgs d) o Hnd Ho) by (cbn; lia). rewrite Ha. cbn. by eexists.
  - destruct (List.find _ (orgs d)) as [o|] eqn:Eo; [|done]. destruct (is_true_opt (og_active o)) eqn:Ea; [|done]. exfalso.
    apply find_some in Eo as [Ho Hi]. assert (Ha : o_is_active (view_row o) = Some true)
      by (cbn; unfold is_true_opt in Ea; destruct (og_active o); congruence).
    pose proof (find_none _ _ E (view_row o) (in_map view_row _ o Ho)) as Hn. unfold active_org in Hn. rewrite Ha in Hn.
    cbn in Hn. by rewrite Hi in Hn.
Qed.
Lemma view_member i u d :
  match get_membership i u d with
  | Some _ => exists m, List.find (membership i u) (members (view d)) = Some m
  | None => List.find (membership i u) (members (view d)) = None
  end.
Proof.
  unfold get_membership, view. cbn [members]. induction (memberships d) as [|m l IH]; [done|]. cbn [map List.find].
  change (membership i u (TenantAccess.mkMember (mb_org m) (mb_user m))) with (of_member i u m).
  destruct (of_member i u m); [by eexists|exact IH].
Qed.
(** The gate of every request, on these tables. *)
Lemma request_scope_spec d a i : org_wf d ->
  request_scope d a i =
  match get_org_or_404 i d with
  | Raise _ => Raise (HTTPException 404 "Active organization not found")
  | Ok _ => if bool_decide (ac_role a = "super_admin") then Ok (Some i)
            else match get_membership i (ac_id a) d with
                 | Some _ => Ok (Some i)
                 | None => Raise (HTTPException 403 "You are not a member of the active organization")
                 end
  end.
Proof.
  intros Hwf. unfold request_scope, resolve_request_org_id, is_super_admin. cbn [user_org_id role user_id].
  pose proof (view_org i d (wf_org_ids d Hwf)) as Ho. destruct (get_org_or_404 i d) as [o|e].
  - destruct Ho as [o' ->]. case_bool_decide; [done|]. cbn [negb]. pose proof (view_member i (ac_id a) d) as Hm.
    destruct (get_membership _ _ _); [by destruct Hm as [m' ->]|by rewrite Hm].
  - by rewrite Ho.
Qed.
Lemma guard_member d a i : org_wf d -> is_ok (guard i a "member" d) = is_ok (request_scope d a i).
Proof.
  intros Hwf. rewrite request_scope_spec by done. unfold guard, require_membership.
  destruct (get_org_or_404 i d); [|done]. cbn [res_bind]. case_bool_decide; [by destruct (get_membership _ _ _)|].
  destruct (get_membership i (ac_id a) d) as [m|] eqn:E; [|done]. apply find_some in E as [Hm _].
  pose proof (wf_roles d Hwf m Hm). by replace (role_rank (mb_role m) <? role_rank "member") with false by (change (role_rank "member") with 1; lia).
Qed.

Lemma delete_first_member i u l : NoDup (map pair_of l) -> (i, u) ∉ map pair_of (delete_first (of_member i u) l).
Proof.
  induction l as [|m l IH]; cbn; [intros _ H; by apply elem_of_nil in H|]. intros [Hm Hnd]%NoDup_cons.
  destruct (of_member i u m) eqn:E.
  - apply andb_prop in E as [E1%Z.eqb_eq E2%Z.eqb_eq]. assert (pair_of m = (i, u)) as <- by (unfold pair_of; congruence). exact Hm.
  - cbn. apply not_elem_of_cons. split; [|by apply IH]. unfold pair_of. intros E'. injection E' as E1 E2.
    unfold of_member in E. rewrite <- E1, <- E2, !Z.eqb_refl in E. done.
Qed.

(** In every reachable state access follows membership: an account can
    switch to an organisation exactly when the gate of every other request would
    let it act there, and then its stored active organisation passes the gate;
    removing a member shuts the gate for that user at once, and deleting an
    organisation shuts it for everyone. *)
Theorem access_follows_membership accs cs :
  let d := ohistory (mkOrgDb [] [] accs 0) cs in
  forall a i,
  (is_ok (switch_organization i a (clean d)).1 = is_ok (request_scope d a i)
   /\ forall d', switch_organization i a (clean d) = (Ok i, clean d') -> request_scope d' a i = Ok (Some i)
        /\ forall a', In a' (accounts d') -> ac_id a' = ac_id a -> ac_org a' = Some i)
  /\ (forall u d', remove_member i (ac_id a) u (clean d) = (Ok tt, clean d') -> ac_role a <> "super_admin" ->
        request_scope d' a i = Raise (HTTPException 403 "You are not a member of the active organization"))
  /\ (forall u d', delete_organization i u (clean d) = (Ok tt, clean d') ->
        request_scope d' a i = Raise (HTTPException 404 "Active organization not found")).
Proof.
  intros d a i. assert (Hwf : org_wf d) by (apply ohistory_wf; split; try done; apply NoDup_nil_2).
  assert (Hwf' : forall u c d', oexec u c (clean d) = (Ok tt, clean d') -> org_wf d').
  { intros u c d' E. pose proof (oexec_wf u c (clean d) Hwf Hwf) as [H _]. by rewrite E in H. }
  split; [split|split].
  - rewrite <- guard_member by done. unfold switch_organization, clean. mrun. by destruct (guard i a "member" d).
  - intros d' E. pose proof (Hwf' a (OSwitch i) d') as H. unfold oexec in H. rewrite (run_ok _ _ _ _ _ E) in H. specialize (H eq_refl).
    pose proof (guard_member d a i Hwf) as Hg. revert E. unfold switch_organization, clean. mrun.
    destruct (guard i a "member" d) as [[o m]|e]; [|done]. mrun. unfold set_active_org. mrun. intros [= <-].
    split.
    + pose proof Hwf as Hwf1. rewrite request_scope_spec in * by done. cbn in Hg. revert Hg.
      unfold get_org_or_404, find_org, get_membership. cbn. repeat case_match; done.
    + intros a' (a0 & _ & [[Ha ->]|[Ha ->]])%in_update_where E; [done|]. cbn in E. lia.
  - intros u d' E Hs. pose proof (Hwf' u (ORemove i (ac_id a)) d' E) as H. rewrite request_scope_spec by done.
    revert E. unfold remove_member, clean. mrun. destruct (guard i u "admin" d) as [[o m]|e] eqn:Eg; [|done]. mrun.
    destruct (_ && _); [done|]. destruct (get_membership i (ac_id a) d) as [t|]; [|done]. destruct (_ && _); [done|]. mrun.
    intros [= <-]. unfold guard in Eg. unfold get_org_or_404, find_org in *. cbn [with_memberships orgs].
    destruct (List.find _ (orgs d)) as [o1|]; [|done]. destruct (is_true_opt (og_active o1)); [|done].
    rewrite bool_decide_false by done. assert (E : get_membership i (ac_id a) (with_memberships (delete_first (of_member i (ac_id a))) d) = None); [|by rewrite E].
    apply get_membership_None. cbn. apply delete_first_member, Hwf.
  - intros u d' E. pose proof (Hwf' u (ODelete i) d' E) as H. rewrite request_scope_spec by done.
    revert E. unfold delete_organization, clean. mrun. destruct (guard i u "owner" d) as [[o m]|e] eqn:Eg; [|done].
    mrun. unfold update_org. mrun. intros [= <-]. unfold get_org_or_404, find_org. cbn [with_orgs orgs].
    destruct (List.find _ (update_where _ _ (orgs d))) as [o1|] eqn:E1; [|done].
    apply find_some in E1 as [Ho1 E1]. apply in_update_where in Ho1 as (o2 & _ & [[_ ->]|[E2 ->]]); [done|congruence].
Qed.

(** * Edges, on concrete tables *)
Module OrgDemo.
Definition ann : Account := mkAccount 1 "ann" "editor" None.
Definition bob : Account := mkAccount 2 "bob" "editor" None.
Definition acme : OrgCreate := mkOrgCreate "Acme" "acme" None "free".
Definition founded : OrgDb := ohistory (mkOrgDb [] [] [ann; bob] 0) [(ann, OCreate acme); (ann, OInvite "bob" "member" 1)].
End OrgDemo.

(** The endpoint asks for an admin before it looks whether the caller removes
    himself: a plain member cannot leave. *)
Lemma member_cannot_leave :
  (remove_member 1 2 OrgDemo.bob (clean OrgDemo.founded)).1 = Raise (HTTPException 403 "Role 'member' is insufficient (need 'admin')").
Proof. vm_compute. reflexivity. Qed.
(** The owner may leave, and the organisation goes on without one. *)
Lemma owner_can_orphan :
  let d := ohistory OrgDemo.founded [(OrgDemo.ann, ORemove 1 1)] in
  map mb_role (memberships d) = ["member"] /\ map og_active (orgs d) = [Some true].
Proof. vm_compute. auto. Qed.
(** A slug with a final newline validates and is a second organisation. *)
Lemma newline_slug_accepted :
  let p := mkOrgCreate "Acme" ("acme" ++ String newline "") None "free" in
  valid_slug (c_slug p) = true /\ map og_slug (orgs (ohistory OrgDemo.founded [(OrgDemo.bob, OCreate p)])) = ["acme"; c_slug p].
Proof. vm_compute. auto. Qed.
(** A removed member keeps the organisation as active one: every scoped request
    is refused until he switches. *)
Lemma removed_member_keeps_active_org :
  let d := ohistory OrgDemo.founded [(OrgDemo.bob, OSwitch 1); (OrgDemo.ann, ORemove 1 2)] in
  map ac_org (accounts d) = [Some 1; Some 1] /\ request_scope d OrgDemo.bob 1 = Raise (HTTPException 403 "You are not a member of the active organization").
Proof. vm_compute. auto. Qed.
