(* ===== verification/AuthorityReview.v ===== *)
(** * Review of authority candidates (src/backend/routers/authority_records.py)

    Confirm, reject, delete, the bulk calls, auto-confirm and purge, with what a
    confirmation sets off: the feedback counters (authority/feedback.py), the
    write-back of the identity to graph entities (authority/entity_writeback.py)
    and to publications (authority/publication_writeback.py), the normalisation
    rule and the decision event ([RetroEmit], whose tables carry these ones as
    their operational part). The sessions of the program do not flush before a
    query: where a query would miss pending rows it is given the flushed ones.
    Confidences are in thousandths. Entity attributes hold floats, for which
    [json] has no constructor: [parse] and [render] stand for json.loads and
    json.dumps(ensure_ascii=False, default=str) with the floats carried as
    [conf_json] carries a confidence. The database's LIKE and its order on text
    are parameters. *)
From S2P Require Import Prelude PyStr PyJson PyValue DateTime TenantAccess JobsApi JobMigration Entities RetroStore RetroEmit Harmonization UnionFind.
From Stdlib Require Import Ascii String.

Local Open Scope string_scope.
Local Open Scope list_scope.
Local Open Scope Z_scope.
Local Open Scope py_scope.

Record Candidate := mkCandidate {
  rr_id : Z; rr_org : option Z; rr_field : string; rr_value : string; rr_source : string; rr_authority_id : string;
  rr_label : string; rr_confidence : Z; rr_uri : option string; rr_status : string; rr_confirmed_at : option DateTime;
  rr_evidence : option string }.
Record Feedback := mkFeedback { fb_org : option Z; fb_field : string; fb_source : string; fb_confirmed : Z; fb_rejected : Z }.
Record Rule := mkRule { rl_org : option Z; rl_field : string; rl_value : string; rl_canonical : string }.
Record Link := mkLink { lk_id : Z; lk_org : option Z; lk_type : string; lk_status : string; lk_confirmed_at : option DateTime }.
Record AuditRow := mkAuditRow { ra_action : string; ra_user : Z; ra_type : string; ra_id : Z; ra_details : json }.
Record Review := mkReview {
  candidates : list Candidate; nodes : list Entity; feedbacks : list Feedback; rules : list Rule; links : list Link;
  trail : list AuditRow }.
Notation ReviewDb := (RetroDb Review).

Definition with_ops (f : Review -> Review) (d : ReviewDb) : ReviewDb := mkRetroDb (ev_table d) (sn_table d) (f (ops d)).
Definition on_candidates (f : list Candidate -> list Candidate) (r : Review) : Review :=
  mkReview (f (candidates r)) (nodes r) (feedbacks r) (rules r) (links r) (trail r).
Definition on_nodes (f : list Entity -> list Entity) (r : Review) : Review :=
  mkReview (candidates r) (f (nodes r)) (feedbacks r) (rules r) (links r) (trail r).
Definition on_feedbacks (f : list Feedback -> list Feedback) (r : Review) : Review :=
  mkReview (candidates r) (nodes r) (f (feedbacks r)) (rules r) (links r) (trail r).
Definition on_rules (f : list Rule -> list Rule) (r : Review) : Review :=
  mkReview (candidates r) (nodes r) (feedbacks r) (f (rules r)) (links r) (trail r).
Definition on_links (f : list Link -> list Link) (r : Review) : Review :=
  mkReview (candidates r) (nodes r) (feedbacks r) (rules r) (f (links r)) (trail r).
Definition audit_row (a : AuditRow) (r : Review) : Review :=
  mkReview (candidates r) (nodes r) (feedbacks r) (rules r) (links r) (trail r ++ [a]).
Definition set_decision (status : string) (at_ : option DateTime) (c : Candidate) : Candidate :=
  mkCandidate (rr_id c) (rr_org c) (rr_field c) (rr_value c) (rr_source c) (rr_authority_id c) (rr_label c) (rr_confidence c)
    (rr_uri c) status at_ (rr_evidence c).
Definition decide_candidate (i : Z) (f : Candidate -> Candidate) : Review -> Review :=
  on_candidates (update_where (fun c => rr_id c =? i) f).

(** * Write-back to graph entities (entity_writeback.py) *)
Definition WEAK_PREFIXES : list string := ["author:"; "affiliation:"].
Definition STRONG_PREFIXES : list string := ["orcid:"; "wikidata:"; "viaf:"; "openalex:"; "dbpedia:"; "ror:"; "doi:"].
Definition ELIGIBLE_ENTITY_TYPES : list string := ["author"; "affiliation"].
Definition NIL_SOURCE : string := "internal_nil".
Definition writeback_enabled (env : Env) : bool :=
  negb (bool_decide (lower (strip (getenv env "UKIP_AUTHORITY_WRITEBACK" "1")) ∈ ["0"; "false"; "no"; "off"])).
Definition is_weak (canonical_id : option string) : bool :=
  match canonical_id with
  | None | Some "" => true
  | Some cid =>
      let cid := lower (strip cid) in
      if existsb (startswith cid) STRONG_PREFIXES then false else existsb (startswith cid) WEAK_PREFIXES
  end.
Definition build_authority_canonical_id (source authority_id : string) : option string :=
  let src := lower (strip source) in
  let aid := strip authority_id in
  if negb (truthy src) || negb (truthy aid) || bool_decide (src = NIL_SOURCE) || bool_decide (upper aid = "NIL")
  then None else Some (src ++ ":" ++ aid)%string.

Section review.
Context (env : Env) (tenants : Tenants) (parse : string -> option json) (render : json -> string)
  (conf_json : Z -> json) (like collate : string -> string -> bool).

(** [datetime.now(timezone.utc).isoformat()] *)
Definition utc_iso (now : DateTime) : string := (isoformat now ++ "+00:00")%string.
Definition identity_json (c : Candidate) (new_cid : string) (stamp : string) (now : DateTime) : json :=
  JObj [("canonical_id", JStr new_cid); ("source", JStr (rr_source c)); ("authority_id", JStr (rr_authority_id c));
        ("canonical_label", JStr (rr_label c)); ("uri", js (rr_uri c)); ("confidence", conf_json (rr_confidence c));
        ("authority_record_id", JInt (rr_id c)); (stamp, JStr (utc_iso now))].
(** The attributes of an entity, {} when the text is no JSON object. *)
Definition attrs_of (e : Entity) : list (string * json) :=
  match column "attributes_json" e with
  | Some raw => if truthy raw then match parse raw with Some (JObj m) => m | _ => [] end else []
  | None => []
  end.
Definition merge_authority_provenance (c : Candidate) (new_cid : string) (now : DateTime) (e : Entity) : Entity :=
  set_column "attributes_json" (Some (render (JObj (dict_set "authority" (identity_json c new_cid "promoted_at" now) (attrs_of e))))) e.

(** The rows the query selects, and what the loop does with one. *)
Definition promotable (c : Candidate) (e : Entity) : bool :=
  in_scope (rr_org c) (en_org e)
  && match column "entity_type" e with Some t => bool_decide (t ∈ ELIGIBLE_ENTITY_TYPES) | None => false end
  && bool_decide (column "primary_label" e = Some (strip (rr_value c))).
Definition promotes (c : Candidate) (new_cid : string) (e : Entity) : bool :=
  promotable c e && negb (bool_decide (column "canonical_id" e = Some new_cid)) && is_weak (column "canonical_id" e).
Definition promote_entity (c : Candidate) (new_cid : string) (now : DateTime) (e : Entity) : Entity :=
  merge_authority_provenance c new_cid now (set_column "canonical_id" (Some new_cid) e).
(** [org_id] is the record's own at every call. *)
Definition promote_confirmed_identity (c : Candidate) (now : DateTime) : M ReviewDb Z :=
  if negb (writeback_enabled env) then mret 0
  else match build_authority_canonical_id (rr_source c) (rr_authority_id c) with
       | None => mret 0
       | Some new_cid =>
           if negb (truthy (strip (rr_value c))) then mret 0
           else do! d <- mget;
                run! mmodify (with_ops (on_nodes (update_where (promotes c new_cid) (promote_entity c new_cid now))));
                mret (count_where (promotes c new_cid) (nodes (ops d)))
       end.

(** * Write-back to publications (publication_writeback.py) *)
(** [_author_names]: an [aa.get] is only reached on a dict with a text name. *)
Definition author_names (attrs : list (string * json)) : res (list string) :=
  let v := match dict_get "author_affiliations" attrs with Some v => v | None => JNull end in
  let? items := iterate (if py_true v then v else JArr []) in
  Ok (omap (fun aa => match aa with
                      | JObj m => match dict_get "author_name" m with Some (JStr n) => Some (strip n) | _ => None end
                      | _ => None
                      end) items).
Definition PUB_SCAN_LIMIT : nat := 2000.
(** The query sees the flushed rows, the loop the session's objects. *)
Definition flushed (vis : list Entity) (e : Entity) : Entity := default e (List.find (fun x => en_id x =? en_id e) vis).
Definition stampable (c : Candidate) (label : string) (e : Entity) : bool :=
  in_scope (rr_org c) (en_org e) && bool_decide (column "entity_type" e = Some "publication")
  && match column "attributes_json" e with Some raw => like label raw | None => false end.
(** One selected publication: None when it is passed over. *)
Definition stamp_entity (c : Candidate) (label cid : string) (now : DateTime) (e : Entity) : res (option Entity) :=
  let parsed := match column "attributes_json" e with
                | Some raw => if truthy raw then parse raw else Some (JObj [])
                | None => Some (JObj [])
                end in
  match parsed with
  | Some (JObj attrs) =>
      let? names := author_names attrs in
      if negb (bool_decide (label ∈ names)) then Ok None
      else
        let authors := match dict_get "canonical_authors" attrs with Some (JObj m) => m | _ => [] end in
        let same := match dict_get label authors with
                    | Some (JObj existing) => bool_decide (dict_get "canonical_id" existing = Some (JStr cid))
                    | _ => false
                    end in
        if same : bool then Ok None
        else let authors := dict_set label (identity_json c cid "confirmed_at" now) authors in
             Ok (Some (set_column "attributes_json" (Some (render (JObj (dict_set "canonical_authors" (JObj authors) attrs)))) e))
  | _ => Ok None
  end.
(** The loop over the selected rows, at most [n] of them; the edits before an
    exception stay. *)
Fixpoint stamp_rows (vis : list Entity) (c : Candidate) (label cid : string) (now : DateTime) (n : nat) (l : list Entity) : list Entity * Z * bool :=
  match l with
  | [] => ([], 0, false)
  | e :: l =>
      if stampable c label (flushed vis e) then
        match n with
        | O => (e :: l, 0, false)
        | S n =>
            match stamp_entity c label cid now e with
            | Raise _ => (e :: l, 0, true)
            | Ok None => let '(l, k, x) := stamp_rows vis c label cid now n l in (e :: l, k, x)
            | Ok (Some e') => let '(l, k, x) := stamp_rows vis c label cid now n l in (e' :: l, 1 + k, x)
            end
        end
      else let '(l, k, x) := stamp_rows vis c label cid now n l in (e :: l, k, x)
  end.
Definition promote_confirmed_author_to_publications (vis : list Entity) (c : Candidate) (now : DateTime) : M ReviewDb Z :=
  if negb (writeback_enabled env) then mret 0
  else if negb (bool_decide (rr_field c = "author")) then mret 0
  else
    let label := strip (rr_value c) in
    match build_authority_canonical_id (rr_source c) (rr_authority_id c) with
    | Some cid =>
        if negb (truthy label) then mret 0
        else do! d <- mget;
             let '(es, updated, raised) := stamp_rows vis c label cid now PUB_SCAN_LIMIT (nodes (ops d)) in
             run! mmodify (with_ops (on_nodes (fun _ => es)));
             mret (if raised : bool then 0 else updated)
    | None => mret 0
    end.

(** * Feedback counters (feedback.py) *)
Definition same_scope (org : option Z) (field src : string) (f : Feedback) : bool :=
  bool_decide (fb_org f = org) && bool_decide (fb_field f = field) && bool_decide (fb_source f = src).
Definition bump (confirmed rejected : bool) (f : Feedback) : Feedback :=
  mkFeedback (fb_org f) (fb_field f) (fb_source f) (fb_confirmed f + (if confirmed then 1 else 0)) (fb_rejected f + (if rejected then 1 else 0)).
Fixpoint bump_first (p : Feedback -> bool) (f : Feedback -> Feedback) (l : list Feedback) : list Feedback :=
  match l with [] => [] | x :: l => if p x then f x :: l else x :: bump_first p f l end.
(** The counters of the scope, inserted when missing; the memoised prior is
    dropped by its key. *)
Definition record_outcome (confirmed rejected : bool) (field src : string) (org : option Z) : M ReviewDb (option Z * string * string) :=
  run! mmodify (with_ops (on_feedbacks (fun l =>
    let l := if existsb (same_scope org field src) l then l else l ++ [mkFeedback org field src 0 0] in
    bump_first (same_scope org field src) (bump confirmed rejected) l)));
  mret (org, field, src).
(** Of a candidate with a field and a source. *)
Definition candidate_outcome (confirmed : bool) (c : Candidate) : M ReviewDb unit :=
  if truthy (rr_field c) && truthy (rr_source c)
  then run! record_outcome confirmed (negb confirmed) (rr_field c) (rr_source c) (rr_org c); mret tt
  else mret tt.

(** * The endpoints *)
Definition candidate_model : Model Candidate := mkModel "AuthorityRecord" rr_id (Some rr_org).
Definition link_model : Model Link := mkModel "AuthorityRecordLink" lk_id (Some lk_org).
Definition add_trail (a : AuditRow) : M ReviewDb unit := mmodify (with_ops (audit_row a)).
Definition scoped_candidate (org_id : option Z) (i : Z) : M ReviewDb (option Candidate) :=
  do! d <- mget; mlift (get_scoped_record candidate_model (candidates (ops d)) i org_id).
Definition write_candidate (i : Z) (f : Candidate -> Candidate) : M ReviewDb unit := mmodify (with_ops (decide_candidate i f)).

(** The rule of a confirmation, against the rules a query sees. *)
Definition has_rule (org_id : option Z) (c : Candidate) (visible : list Rule) : bool :=
  existsb (fun r => bool_decide (rl_field r = rr_field c) && bool_decide (rl_value r = rr_value c)) (scoped rl_org org_id visible).
Definition create_rule (c : Candidate) : M ReviewDb unit :=
  mmodify (with_ops (on_rules (fun l => l ++ [mkRule (rr_org c) (rr_field c) (rr_value c) (rr_label c)]))).

Definition decide_link (confirm : bool) (now : DateTime) (link_id : Z) (user : User) : M ReviewDb Link :=
  do! org_id <- mlift (editor_scope tenants user);
  do! d <- mget;
  do! found <- mlift (get_scoped_record link_model (links (ops d)) link_id org_id);
  match found with
  | None => mraise (HTTPException 404 "AuthorityRecordLink not found")
  | Some l =>
      let l' := mkLink (lk_id l) (lk_org l) (lk_type l) (if confirm then "confirmed" else "rejected")
                       (if confirm then Some now else lk_confirmed_at l) in
      run! mmodify (with_ops (on_links (update_where (fun x => lk_id x =? lk_id l) (fun _ => l'))));
      run! add_trail (mkAuditRow (if confirm then "authority.link.confirm" else "authority.link.reject") (user_id user)
                        "authority_record_link" (lk_id l) (JObj [("link_type", JStr (lk_type l))]));
      run! commit;
      mret l'
  end.

(** Confirm and reject one record. *)
Record Confirmed := mkConfirmed { cf_rule : bool; cf_entities : Z; cf_publications : Z }.
Definition emit_decision (now : DateTime) (uuid : string) (decision : string) (c : Candidate) (at_ : DateTime) (user : User) : M ReviewDb Z :=
  emit_authority_decision env now uuid (rr_org c) (rr_id c) decision at_ (Some (str_of_Z (user_id user))) (Some (rr_field c))
    (Some (rr_source c)) (Some (rr_authority_id c)) (Some (rr_label c)) (Some (conf_json (rr_confidence c))) (fun d => d).
Definition confirm_authority_record (now : DateTime) (uuid : string) (record_id : Z) (also_create_rule : bool) (user : User) : M ReviewDb Confirmed :=
  do! org_id <- mlift (editor_scope tenants user);
  do! found <- scoped_candidate org_id record_id;
  match found with
  | None => mraise (HTTPException 404 "AuthorityRecord not found")
  | Some c =>
      run! write_candidate (rr_id c) (set_decision "confirmed" (Some now));
      run! candidate_outcome true c;
      do! entities_updated <- promote_confirmed_identity c now;
      do! d <- mget;
      do! publications_updated <- promote_confirmed_author_to_publications (nodes (ops d)) c now;
      let make := also_create_rule && negb (has_rule org_id c (rules (ops d))) in
      run! (if make then create_rule c else mret tt);
      run! add_trail (mkAuditRow "authority.confirm" (user_id user) "authority_record" record_id
             (JObj [("canonical_label", JStr (rr_label c)); ("rule_created", JBool make); ("entities_updated", JInt entities_updated)]));
      run! emit_decision now uuid "accepted" c now user;
      run! commit;
      mret (mkConfirmed make entities_updated publications_updated)
  end.
Definition reject_authority_record (now : DateTime) (uuid : string) (record_id : Z) (user : User) : M ReviewDb unit :=
  do! org_id <- mlift (editor_scope tenants user);
  do! found <- scoped_candidate org_id record_id;
  match found with
  | None => mraise (HTTPException 404 "AuthorityRecord not found")
  | Some c =>
      run! write_candidate (rr_id c) (fun c => set_decision "rejected" (rr_confirmed_at c) c);
      run! candidate_outcome false c;
      run! add_trail (mkAuditRow "authority.reject" (user_id user) "authority_record" record_id JNull);
      run! emit_decision now uuid "rejected" c now user;
      commit
  end.
Definition delete_authority_record (record_id : Z) (user : User) : M ReviewDb unit :=
  do! org_id <- mlift (editor_scope tenants user);
  do! found <- scoped_candidate org_id record_id;
  match found with
  | None => mraise (HTTPException 404 "AuthorityRecord not found")
  | Some c => run! mmodify (with_ops (on_candidates (List.filter (fun x => negb (rr_id x =? rr_id c))))); commit
  end.

(** ** Bulk calls: no counters, no audit row, no decision event *)
Record Bulk := mkBulk { bk_confirmed : Z; bk_rules : Z; bk_entities : Z; bk_publications : Z }.
(** [vis], [known]: the entities and rules at the last flush. *)
Fixpoint bulk_confirm_loop (vis : list Entity) (known : list Rule) (now : DateTime) (also_create_rules : bool) (org_id : option Z)
    (ids : list Z) (acc : Bulk) : M ReviewDb Bulk :=
  match ids with
  | [] => mret acc
  | i :: ids =>
      do! found <- scoped_candidate org_id i;
      match found with
      | None => bulk_confirm_loop vis known now also_create_rules org_id ids acc
      | Some c =>
          if bool_decide (rr_status c = "confirmed") then bulk_confirm_loop vis known now also_create_rules org_id ids acc
          else
            run! write_candidate (rr_id c) (set_decision "confirmed" (Some now));
            do! entities <- promote_confirmed_identity c now;
            do! publications <- promote_confirmed_author_to_publications vis c now;
            let make := also_create_rules && negb (has_rule org_id c known) in
            run! (if make then create_rule c else mret tt);
            bulk_confirm_loop vis known now also_create_rules org_id ids
              (mkBulk (bk_confirmed acc + 1) (bk_rules acc + if make then 1 else 0) (bk_entities acc + entities)
                      (bk_publications acc + publications))
      end
  end.
Definition bulk_confirm_authority_records (now : DateTime) (ids : list Z) (also_create_rules : bool) (user : User) : M ReviewDb Bulk :=
  do! org_id <- mlift (editor_scope tenants user);
  do! d <- mget;
  do! acc <- bulk_confirm_loop (nodes (ops d)) (rules (ops d)) now also_create_rules org_id ids (mkBulk 0 0 0 0);
  run! commit;
  mret acc.
Fixpoint bulk_reject_loop (org_id : option Z) (ids : list Z) (rejected : Z) : M ReviewDb Z :=
  match ids with
  | [] => mret rejected
  | i :: ids =>
      do! found <- scoped_candidate org_id i;
      match found with
      | None => bulk_reject_loop org_id ids rejected
      | Some c =>
          if bool_decide (rr_status c = "rejected") then bulk_reject_loop org_id ids rejected
          else run! write_candidate (rr_id c) (fun c => set_decision "rejected" (rr_confirmed_at c) c);
               bulk_reject_loop org_id ids (rejected + 1)
      end
  end.
Definition bulk_reject_authority_records (ids : list Z) (user : User) : M ReviewDb Z :=
  do! org_id <- mlift (editor_scope tenants user);
  do! rejected <- bulk_reject_loop org_id ids 0;
  run! commit;
  mret rejected.

(** ** Auto-confirm: the best pending candidate of each (field, value) *)
Definition is_auto_confirmable (c : Candidate) (min_confidence : Z) : bool :=
  contains (default "" (rr_evidence c)) "orcid_hint_matched" || (min_confidence <=? rr_confidence c).
Definition of_field (field_name : option string) (c : Candidate) : bool :=
  match field_name with Some f => if truthy f then bool_decide (rr_field c = f) else true | None => true end.
Definition with_status (org_id : option Z) (status : string) (field_name : option string) (l : list Candidate) : list Candidate :=
  List.filter (fun c => bool_decide (rr_status c = status) && of_field field_name c) (scoped rr_org org_id l).
(** ORDER BY original_value, confidence DESC. *)
Definition before (a b : Candidate) : bool :=
  collate (rr_value a) (rr_value b) && (negb (collate (rr_value b) (rr_value a)) || (rr_confidence b <=? rr_confidence a)).
Definition group_key (c : Candidate) : string * string := (rr_field c, rr_value c).
Definition candidate_groups (l : list Candidate) : list (list Candidate) := map snd (group_by group_key (sort_by before l)).
Definition loses (losers : list Candidate) (c : Candidate) : bool :=
  bool_decide (rr_id c ∈ map rr_id losers) && bool_decide (rr_status c = "pending").
Definition reject_losing (losers : list Candidate) : M ReviewDb Z :=
  do! d <- mget;
  run! mmodify (with_ops (on_candidates (update_where (loses losers) (fun c => set_decision "rejected" (rr_confirmed_at c) c))));
  mret (count_where (loses losers) (candidates (ops d))).
(** A missing counter row is inserted with a flush. *)
Definition outcome_flushes (c : Candidate) (d : ReviewDb) : bool :=
  truthy (rr_field c) && truthy (rr_source c)
  && negb (existsb (same_scope (rr_org c) (rr_field c) (rr_source c)) (feedbacks (ops d))).
Fixpoint auto_confirm_loop (vis : list Entity) (now : DateTime) (min_confidence : Z) (reject_losers : bool)
    (groups : list (list Candidate)) (acc : Z * Z) : M ReviewDb (Z * Z) :=
  match groups with
  | [] => mret acc
  | [] :: groups => auto_confirm_loop vis now min_confidence reject_losers groups acc
  | (best :: losers) :: groups =>
      if negb (is_auto_confirmable best min_confidence)
      then auto_confirm_loop vis now min_confidence reject_losers groups acc
      else
        run! write_candidate (rr_id best) (set_decision "confirmed" (Some now));
        do! d <- mget;
        let vis := if outcome_flushes best d then nodes (ops d) else vis in
        run! candidate_outcome true best;
        do! _ <- promote_confirmed_identity best now;
        do! _ <- promote_confirmed_author_to_publications vis best now;
        do! rejected <- (if reject_losers then reject_losing losers else mret 0);
        auto_confirm_loop vis now min_confidence reject_losers groups (acc.1 + 1, acc.2 + rejected)
  end.
Definition auto_confirm_authority_records (now : DateTime) (field_name : option string) (min_confidence : Z)
    (reject_losers : bool) (max_groups : nat) (user : User) : M ReviewDb (Z * Z) :=
  do! org_id <- mlift (editor_scope tenants user);
  do! d <- mget;
  do! acc <- auto_confirm_loop (nodes (ops d)) now min_confidence reject_losers
               (firstn max_groups (candidate_groups (with_status org_id "pending" field_name (candidates (ops d))))) (0, 0);
  run! add_trail (mkAuditRow "authority.auto_confirm" (user_id user) "authority_record" 0
         (JObj [("field_name", js field_name); ("min_confidence", conf_json min_confidence);
                ("confirmed", JInt acc.1); ("rejected", JInt acc.2)]));
  run! commit;
  mret acc.

(** ** Grouped view: best candidate, count, whether auto-confirmable, alternatives *)
Definition group_item (recs : list Candidate) : option (Candidate * Z * bool * list Candidate) :=
  match recs with
  | [] => None
  | best :: others => Some (best, Z.of_nat (List.length recs), is_auto_confirmable best 950, firstn 4 others)
  end.
Definition grouped_authority_records (org_id : option Z) (field_name : option string) (status : string) (skip limit : nat)
    (d : ReviewDb) : Z * list (Candidate * Z * bool * list Candidate) :=
  let items := omap group_item (candidate_groups (with_status org_id status field_name (candidates (ops d)))) in
  let items := sort_by (fun a b => rr_confidence b.1.1.1 <=? rr_confidence a.1.1.1) items in
  (Z.of_nat (List.length items), firstn limit (skipn skip items)).

(** ** Maintenance, for admins *)
Definition ADMINS : list string := ["super_admin"; "admin"].
Definition admin_scope (user : User) : res (option Z) :=
  let? user := require_role ADMINS user in resolve_request_org_id tenants user true true.
Fixpoint reapply_loop (vis : list Entity) (now : DateTime) (records : list Candidate) (pubs : Z) : M ReviewDb Z :=
  match records with
  | [] => mret pubs
  | c :: records =>
      do! n <- promote_confirmed_author_to_publications vis c now;
      reapply_loop vis now records (pubs + n)
  end.
Definition reapply_publication_writeback (now : DateTime) (field_name : string) (limit : nat) (user : User) : M ReviewDb (Z * Z) :=
  do! org_id <- mlift (admin_scope user);
  do! d <- mget;
  let records := firstn limit (List.filter (fun c => bool_decide (rr_status c = "confirmed") && bool_decide (rr_field c = field_name))
                                 (scoped rr_org org_id (candidates (ops d)))) in
  do! pubs <- reapply_loop (nodes (ops d)) now records 0;
  run! commit;
  mret (Z.of_nat (List.length records), pubs).
Definition purgeable (org_id : option Z) (field_name : option string) (status : string) (c : Candidate) : bool :=
  in_scope org_id (rr_org c) && (bool_decide (rr_status c = status) && of_field field_name c).
(** [status] is "pending" or "rejected" by the pattern of the parameter. *)
Definition purge_authority_records (field_name : option string) (status : string) (user : User) : M ReviewDb Z :=
  do! org_id <- mlift (if bool_decide (status ∈ ["pending"; "rejected"]) then admin_scope user
                       else Raise (HTTPException 422 "String should match pattern '^(pending|rejected)$'"));
  do! d <- mget;
  let deleted := count_where (purgeable org_id field_name status) (candidates (ops d)) in
  run! mmodify (with_ops (on_candidates (List.filter (fun c => negb (purgeable org_id field_name status c)))));
  run! add_trail (mkAuditRow "authority.purge" (user_id user) "authority_record" 0
         (JObj [("field_name", js field_name); ("status", JStr status); ("deleted", JInt deleted)]));
  run! commit;
  mret deleted.
End review.
