(* ===== verification/AuthorityReviewClaims.v ===== *)
(** * Theorems on the review of authority candidates

    No history of review calls overwrites a strong identity or another column or
    attribute of an entity; a reviewer of one organisation changes nothing of the
    others. *)
From S2P Require Import Prelude PyStr PyJson PyValue PyStrFacts DateTime TenantAccess JobsApi JobMigration Entities RetroStore RetroEmit Harmonization HarmonizationClaims UnionFind AuthorityReview.
From Stdlib Require Import Ascii String.

Local Open Scope string_scope.
Local Open Scope list_scope.
Local Open Scope Z_scope.
Local Open Scope py_scope.

(** * What the decision event leaves alone *)
Lemma preserves_emit (Q : Review -> Prop) env now uuid org rid dec occ actor fname asrc aid label conf :
  preserves (fun d : ReviewDb => Q (ops d))
    (emit_authority_decision env now uuid org rid dec occ actor fname asrc aid label conf (fun d => d)).
Proof.
  assert (Hrec : forall a, preserves (fun d : ReviewDb => Q (ops d)) (emit_with now uuid a (fun d => d))).
  { intros a. unfold emit_with, record_event, record. preserve.
    intros s Hd Hb. unfold insert_or_get. destruct (collides _ _).
    - rewrite run_rollback, run_get. cbn [sess_db sess_base]. by destruct (find_existing _ _ _ _).
    - by split. }
  unfold emit_authority_decision. destruct (negb _); [preserve|]. destruct (dict_get _ _); preserve.
Qed.

(** * Calls and histories *)
Inductive RCall :=
  | RLink (confirm : bool) (now : DateTime) (link_id : Z)
  | RConfirm (now : DateTime) (uuid : string) (record_id : Z) (also_create_rule : bool)
  | RReject (now : DateTime) (uuid : string) (record_id : Z)
  | RDelete (record_id : Z)
  | RBulkConfirm (now : DateTime) (ids : list Z) (also_create_rules : bool)
  | RBulkReject (ids : list Z)
  | RAuto (now : DateTime) (field_name : option string) (min_confidence : Z) (reject_losers : bool) (max_groups : nat)
  | RReapply (now : DateTime) (field_name : string) (limit : nat)
  | RPurge (field_name : option string) (status : string).

Section history.
Context (env : Env) (tenants : Tenants) (parse : string -> option json) (render : json -> string)
  (conf_json : Z -> json) (like collate : string -> string -> bool).
Notation attrs := (attrs_of parse).

Definition rexec (user : User) (c : RCall) : M ReviewDb unit :=
  match c with
  | RLink confirm now i => run! decide_link tenants confirm now i user; mret tt
  | RConfirm now uuid i r => run! confirm_authority_record env tenants parse render conf_json like now uuid i r user; mret tt
  | RReject now uuid i => reject_authority_record env tenants conf_json now uuid i user
  | RDelete i => delete_authority_record tenants i user
  | RBulkConfirm now ids r => run! bulk_confirm_authority_records env tenants parse render conf_json like now ids r user; mret tt
  | RBulkReject ids => run! bulk_reject_authority_records tenants ids user; mret tt
  | RAuto now f m r n => run! auto_confirm_authority_records env tenants parse render conf_json like collate now f m r n user; mret tt
  | RReapply now f n => run! reapply_publication_writeback env tenants parse render conf_json like now f n user; mret tt
  | RPurge f s => run! purge_authority_records tenants f s user; mret tt
  end.
(** Each request on a session of its own. *)
Fixpoint review_history (calls : list (User * RCall)) (d : ReviewDb) : ReviewDb :=
  match calls with
  | [] => d
  | (u, c) :: calls => review_history calls (sess_base (rexec u c (clean d)).2)
  end.

(** * What a write-back does to an entity *)
Definition WRITTEN : list string := ["canonical_id"; "attributes_json"].
Record enriched (e e' : Entity) : Prop := {
  en_same : en_id e' = en_id e /\ en_org e' = en_org e;
  en_columns : forall f, f ∉ WRITTEN -> column f e' = column f e;
  en_strong : is_weak (column "canonical_id" e) = false -> column "canonical_id" e' = column "canonical_id" e;
  en_attrs : forall k, k ∉ ["authority"; "canonical_authors"] -> dict_get k (attrs e') = dict_get k (attrs e)
}.
Lemma enriched_refl e : enriched e e.
Proof. by split. Qed.
Lemma enriched_trans a b c : enriched a b -> enriched b c -> enriched a c.
Proof.
  intros [[H1 H2] H3 H4 H5] [[K1 K2] K3 K4 K5]. split.
  - split; congruence.
  - intros f Hf. by rewrite K3, H3.
  - intros Hw. specialize (H4 Hw). rewrite K4; [done|by rewrite H4].
  - intros k Hk. by rewrite K5, H5.
Qed.

(** The JSON functions: what is read is a value of distinct keys, and what is
    written is read back. *)
Context (Hparse : forall s v, parse s = Some v -> wf_json v) (Hround : forall v, wf_json v -> parse (render v) = Some v)
  (Htext : forall m, truthy (render (JObj m)) = true) (Hconf : forall z, wf_json (conf_json z)).

Lemma wf_attrs e : wf_json (JObj (attrs e)).
Proof.
  assert (H0 : wf_json (JObj [])) by (constructor; constructor).
  unfold attrs_of. destruct (column _ _) as [raw|]; [|done]. destruct (truthy raw); [|done].
  destruct (parse raw) as [[]|] eqn:E; try done. by eapply Hparse.
Qed.
Lemma wf_identity c cid stamp now : stamp ∉ ["canonical_id"; "source"; "authority_id"; "canonical_label"; "uri"; "confidence"; "authority_record_id"] ->
  wf_json (identity_json conf_json c cid stamp now).
Proof.
  intros Hs. constructor.
  - change (NoDup (["canonical_id"; "source"; "authority_id"; "canonical_label"; "uri"; "confidence"; "authority_record_id"] ++ [stamp])).
    apply NoDup_app. split; [by apply (bool_decide_unpack _)|]. split; [|by apply NoDup_singleton].
    intros x Hx ->%list_elem_of_singleton. done.
  - repeat apply Forall_cons_2; cbn; auto with pyjson. by destruct (rr_uri c); constructor.
Qed.
Lemma attrs_written m e : wf_json (JObj m) -> attrs (set_column "attributes_json" (Some (render (JObj m))) e) = m.
Proof. intros Hm. unfold attrs_of. rewrite column_set_eq, Htext, Hround; done. Qed.
(** Attributes rewritten under one key. *)
Lemma enriched_attrs k v e : k ∈ ["authority"; "canonical_authors"] -> wf_json v ->
  enriched e (set_column "attributes_json" (Some (render (JObj (dict_set k v (attrs e))))) e).
Proof.
  intros Hk Hv. split; [done|..].
  - intros f Hf. apply column_set_ne. intros ->. apply Hf. by apply (bool_decide_unpack _).
  - intros _. by apply column_set_ne.
  - intros k' Hk'. rewrite attrs_written by (apply wf_dict_set; [done|apply wf_attrs]). apply dict_get_set_ne. by intros ->.
Qed.
Lemma enriched_promote c cid now e : promotes c cid e = true -> enriched e (promote_entity parse render conf_json c cid now e).
Proof.
  intros [_ Hw]%andb_prop. unfold promote_entity, merge_authority_provenance.
  apply (enriched_trans _ (set_column "canonical_id" (Some cid) e)).
  - split; [done|..].
    + intros f Hf. apply column_set_ne. intros ->. apply Hf. by apply (bool_decide_unpack _).
    + by rewrite Hw.
    + intros k Hk. unfold attrs_of. by rewrite column_set_ne.
  - apply enriched_attrs; [by apply (bool_decide_unpack _)|]. apply wf_identity. by apply (bool_decide_unpack _).
Qed.
Lemma enriched_stamp c label cid now e e' : stamp_entity parse render conf_json c label cid now e = Ok (Some e') -> enriched e e'.
Proof.
  unfold stamp_entity.
  assert (Hattrs : forall m, match column "attributes_json" e with Some raw => if truthy raw then parse raw else Some (JObj []) | None => Some (JObj []) end
    = Some (JObj m) -> m = attrs e).
  { intros m. unfold attrs_of. destruct (column _ e) as [raw|]; [|by intros [= <-]].
    destruct (truthy raw); [|by intros [= <-]]. by intros ->. }
  destruct (match column "attributes_json" e with Some _ => _ | None => _ end) as [[| | | | |m]|] eqn:E; try done.
  rewrite (Hattrs m eq_refl). destruct (author_names (attrs e)) as [names|]; cbn [res_bind]; [|done].
  destruct (negb _); [done|]. match goal with |- (if ?b then _ else _) = _ -> _ => destruct b end; [done|]. intros [= <-].
  apply enriched_attrs; [by apply (bool_decide_unpack _)|]. apply wf_dict_set; [apply wf_identity; by apply (bool_decide_unpack _)|].
  destruct (dict_get "canonical_authors" (attrs e)) as [v|] eqn:Ev; [|constructor; constructor].
  pose proof (wf_attrs e) as Hwf. inversion Hwf as [| | | | |m' _ Hall]; subst. rewrite Forall_forall in Hall.
  specialize (Hall _ (dict_get_Some_elem _ _ _ Ev)). cbn in Hall. by destruct v; try (constructor; constructor).
Qed.
Lemma enriched_rows vis c label cid now n l :
  Forall2 enriched l (stamp_rows parse render conf_json like vis c label cid now n l).1.1.
Proof.
  revert n. induction l as [|e l IH]; intros n; cbn [stamp_rows]; [constructor|].
  assert (Hrest : forall k e', enriched e e' -> forall f : list Entity * Z * bool -> Z,
    Forall2 enriched (e :: l) (let '(l, j, x) := stamp_rows parse render conf_json like vis c label cid now k l in (e' :: l, f (l, j, x), x)).1.1).
  { intros k e' He f. specialize (IH k). destruct (stamp_rows _ _ _ _ _ _ _ _ _ k l) as [[l1 j] x]. by constructor. }
  assert (Hall : Forall2 enriched (e :: l) (e :: l)).
  { constructor; [apply enriched_refl|]. clear. induction l; constructor; [apply enriched_refl|done]. }
  destruct (stampable _ _ _ _); [|by apply (Hrest n e (enriched_refl e) (fun r => r.1.2))].
  destruct n as [|n]; [done|]. destruct (stamp_entity _ _ _ c label cid now e) as [[e'|]|x] eqn:E; [..|done].
  - apply (Hrest n e' (enriched_stamp c label cid now e e' E) (fun r => 1 + r.1.2)).
  - by apply (Hrest n e (enriched_refl e) (fun r => r.1.2)).
Qed.

(** * No call takes anything from an entity *)
Definition unharmed (l : list Entity) (d : ReviewDb) : Prop := Forall2 enriched l (nodes (ops d)).
Lemma Forall2_enriched_refl l : Forall2 enriched l l.
Proof. induction l; constructor; [apply enriched_refl|done]. Qed.
Lemma Forall2_enriched_trans l l1 l2 : Forall2 enriched l l1 -> Forall2 enriched l1 l2 -> Forall2 enriched l l2.
Proof.
  intros H1. revert l2. induction H1; intros l2 H2; inversion H2; subst; constructor; [by eapply enriched_trans|auto].
Qed.
Lemma unharmed_modify l f : (forall r, Forall2 enriched (nodes r) (nodes (f r))) ->
  preserves (unharmed l) (mmodify (with_ops f : ReviewDb -> ReviewDb)).
Proof. intros Hf. apply preserves_modify. intros d Hd. eapply Forall2_enriched_trans; [exact Hd|apply Hf]. Qed.
Lemma unharmed_other l f : (forall r, nodes (f r) = nodes r) -> preserves (unharmed l) (mmodify (with_ops f : ReviewDb -> ReviewDb)).
Proof. intros Hf. apply unharmed_modify. intros r. rewrite Hf. apply Forall2_enriched_refl. Qed.
Lemma unharmed_identity l c now : preserves (unharmed l) (promote_confirmed_identity env parse render conf_json c now).
Proof.
  unfold promote_confirmed_identity. destruct (negb _); [preserve|]. destruct (build_authority_canonical_id _ _) as [cid|]; [|preserve].
  destruct (negb _); [preserve|]. apply preserves_bind_get. intros d _. apply preserves_bind; [|intros; preserve].
  apply unharmed_modify. intros r. cbn [on_nodes nodes]. induction (nodes r) as [|e es IH]; [constructor|].
  constructor; [|exact IH]. destruct (promotes c cid e) eqn:E; [by apply enriched_promote|apply enriched_refl].
Qed.
Lemma unharmed_publications l vis c now : preserves (unharmed l) (promote_confirmed_author_to_publications env parse render conf_json like vis c now).
Proof.
  unfold promote_confirmed_author_to_publications. destruct (negb _); [preserve|]. destruct (negb _); [preserve|].
  destruct (build_authority_canonical_id _ _) as [cid|]; [|preserve]. destruct (negb _); [preserve|].
  apply preserves_bind_get. intros d Hd.
  pose proof (enriched_rows vis c (strip (rr_value c)) cid now PUB_SCAN_LIMIT (nodes (ops d))) as H.
  destruct (stamp_rows _ _ _ _ _ _ _ _ _ _ _) as [[es n] x]. apply preserves_bind; [|intros; preserve].
  apply preserves_modify. intros d' _. cbn in *. by eapply Forall2_enriched_trans.
Qed.
Lemma unharmed_outcome l b c : preserves (unharmed l) (candidate_outcome b c).
Proof. unfold candidate_outcome, record_outcome. by preserve. Qed.
Lemma unharmed_candidate l org i : preserves (unharmed l) (scoped_candidate org i).
Proof. unfold scoped_candidate. preserve. Qed.
Lemma unharmed_write l i f : preserves (unharmed l) (write_candidate i f).
Proof. by apply unharmed_other. Qed.
Lemma unharmed_rule l c : preserves (unharmed l) (create_rule c).
Proof. by apply unharmed_other. Qed.
Lemma unharmed_trail l a : preserves (unharmed l) (add_trail a).
Proof. by apply unharmed_other. Qed.
Lemma unharmed_decision l now uuid dec c at_ user : preserves (unharmed l) (emit_decision env conf_json now uuid dec c at_ user).
Proof. apply (preserves_emit (fun r => Forall2 enriched l (nodes r))). Qed.
Lemma unharmed_reject l losers : preserves (unharmed l) (reject_losing losers).
Proof. unfold reject_losing. by preserve. Qed.
#[local] Hint Resolve unharmed_identity unharmed_publications unharmed_outcome unharmed_candidate unharmed_write unharmed_rule
  unharmed_trail unharmed_decision unharmed_reject : preserve.

Lemma unharmed_bulk l vis known now rules org ids acc :
  preserves (unharmed l) (bulk_confirm_loop env parse render conf_json like vis known now rules org ids acc).
Proof. revert acc. induction ids as [|i ids IH]; intros acc; cbn; preserve. Qed.
Lemma unharmed_bulk_reject l org ids n : preserves (unharmed l) (bulk_reject_loop org ids n).
Proof. revert n. induction ids as [|i ids IH]; intros n; cbn; preserve. Qed.
Lemma unharmed_auto l vis now m rej groups acc :
  preserves (unharmed l) (auto_confirm_loop env parse render conf_json like vis now m rej groups acc).
Proof. revert vis acc. induction groups as [|[|b ls] groups IH]; intros vis acc; cbn; preserve. Qed.
Lemma unharmed_reapply l vis now cs n : preserves (unharmed l) (reapply_loop env parse render conf_json like vis now cs n).
Proof. revert n. induction cs as [|c cs IH]; intros n; cbn; preserve. Qed.
#[local] Hint Resolve unharmed_bulk unharmed_bulk_reject unharmed_auto unharmed_reapply : preserve.

Lemma rexec_unharmed user c l : preserves (unharmed l) (rexec user c).
Proof.
  destruct c; cbn [rexec]; try (apply preserves_bind; [|intros; apply preserves_ret]).
  all: unfold decide_link, confirm_authority_record, reject_authority_record, delete_authority_record, bulk_confirm_authority_records,
    bulk_reject_authority_records, auto_confirm_authority_records, reapply_publication_writeback, purge_authority_records.
  all: by preserve.
Qed.
Lemma history_unharmed calls l d : unharmed l d -> unharmed l (review_history calls d).
Proof.
  revert d. induction calls as [|[u c] calls IH]; intros d H; [done|]. cbn. apply IH.
  by apply (rexec_unharmed u c l (clean d)).
Qed.
End history.

(** C22: reviews only enrich. Over any history of review requests of any users
    (confirm, reject, delete, bulk, auto-confirm, re-apply, purge, links), whatever
    raises, every entity keeps its id, its organisation, every column but the two
    the write-backs own, every attribute but [authority] and [canonical_authors],
    and a canonical id that is not weak is never replaced. *)
Theorem reviews_only_enrich env tenants parse render conf_json like collate calls d :
  (forall s v, parse s = Some v -> wf_json v) -> (forall v, wf_json v -> parse (render v) = Some v) ->
  (forall m, truthy (render (JObj m)) = true) -> (forall z, wf_json (conf_json z)) ->
  Forall2 (enriched parse) (nodes (ops d)) (nodes (ops (review_history env tenants parse render conf_json like collate calls d))).
Proof. intros H1 H2 H3 H4. apply history_unharmed; try done. apply Forall2_enriched_refl. Qed.

(** * An example *)
Definition rv_env : Env := fun _ => None.
Definition rv_tenants : Tenants := mkTenants [mkOrg 7 "acme" "Acme" None (Some true)] [mkMember 7 3].
Definition rv_editor : User := mkUser 3 "editor" (Some 7).
Definition rv_unscoped : User := mkUser 4 "editor" None.
Definition rv_like : string -> string -> bool := fun label raw => contains label raw.
Definition rv_collate (a b : string) : bool := bool_decide (a = b) || String.leb a b.
Definition rv_candidate (i : Z) (org : option Z) (confidence : Z) (status : string) : Candidate :=
  mkCandidate i org "author" "Ada" "orcid" ("000" ++ str_of_Z i) "Ada Lovelace" confidence None status None None.
Definition rv_author (i : Z) (org : option Z) (cid : string) : Entity :=
  mkEntity i org [("primary_label", Some "Ada"); ("entity_type", Some "author"); ("canonical_id", Some cid); ("attributes_json", None)].
Definition rv_publication (i : Z) (org : option Z) : Entity :=
  mkEntity i org [("entity_type", Some "publication"); ("canonical_id", None);
    ("attributes_json", Some (dumps false (JObj [("year", JInt 1843); ("author_affiliations", JArr [JObj [("author_name", JStr "Ada")]])])))].
Definition rv_db (cs : list Candidate) (es : list Entity) : ReviewDb :=
  mkRetroDb (mkTable [] 1) (mkTable [] 1) (mkReview cs es [] [] [] []).
Definition rv_run (user : User) (c : RCall) : ReviewDb -> Session ReviewDb := fun d =>
  (rexec rv_env rv_tenants loads (dumps false) JInt rv_like rv_collate user c (clean d)).2.
Definition rv_cid (i : Z) (d : ReviewDb) : list (option string) := map (column "canonical_id") (List.filter (fun e => en_id e =? i) (nodes (ops d))).
Definition rv_attrs (i : Z) (d : ReviewDb) : list (list string) :=
  map (fun e => dict_keys (attrs_of loads e)) (List.filter (fun e => en_id e =? i) (nodes (ops d))).
Definition rv_noon : DateTime := noon.

Lemma reviews_only_enrich_witness :
  let d := rv_db [rv_candidate 1 (Some 7) 980 "pending"; rv_candidate 2 (Some 7) 990 "pending"]
             [rv_author 11 (Some 7) "author:ada"; rv_author 12 (Some 7) "viaf:9"; rv_publication 13 (Some 7)] in
  let calls := [(rv_editor, RConfirm noon "u1" 1 true); (rv_editor, RAuto noon None 950 true 10)] in
  let d' := review_history rv_env rv_tenants loads (dumps false) JInt rv_like rv_collate calls d in
  (map rr_status (candidates (ops d')) = ["confirmed"; "confirmed"] /\ rv_cid 11 d' = [Some "orcid:0001"] /\ rv_cid 12 d' = [Some "viaf:9"]
   /\ rv_attrs 13 d' = [["year"; "author_affiliations"; "canonical_authors"]])
  /\ Forall2 (enriched loads) (nodes (ops d)) (nodes (ops d')).
Proof.
  intros d calls d'. split; [vm_compute; done|].
  apply (reviews_only_enrich rv_env rv_tenants loads (dumps false) JInt rv_like rv_collate calls d).
  - exact loads_wf.
  - exact (loads_dumps false).
  - done.
  - intros z. constructor.
Defined.

(** * A reviewer stays in his organisation *)
Definition outside {A} (org : A -> option Z) (o : Z) (l : list A) : list A := List.filter (fun x => negb (col_eq o (org x))) l.
Definition foreign (o : Z) (r : Review) : list Candidate * list Entity * list Feedback * list Rule * list Link :=
  (outside rr_org o (candidates r), outside en_org o (nodes r), outside fb_org o (feedbacks r), outside rl_org o (rules r),
   outside lk_org o (links r)).
Section outside.
Context {A : Type} (org : A -> option Z) (o : Z).
Lemma outside_update p f l : (forall x, In x l -> p x = true -> org x = Some o) -> (forall x, In x l -> p x = true -> org (f x) = org x) ->
  outside org o (update_where p f l) = outside org o l.
Proof.
  intros Hp Hf. unfold outside, update_where. induction l as [|x l IH]; cbn; [done|].
  rewrite IH by (intros y Hy; first [apply Hp|apply Hf]; by right). destruct (p x) eqn:E; [|done].
  rewrite Hf, Hp by (auto; by left). cbn. by rewrite Z.eqb_refl.
Qed.
Lemma outside_app x l : org x = Some o -> outside org o (l ++ [x]) = outside org o l.
Proof. intros E. unfold outside. rewrite List.filter_app. cbn. rewrite E. cbn. rewrite Z.eqb_refl. apply app_nil_r. Qed.
Lemma outside_removed p l : (forall x, In x l -> p x = true -> org x = Some o) -> outside org o (List.filter (fun x => negb (p x)) l) = outside org o l.
Proof.
  intros H. unfold outside. induction l as [|x l IH]; cbn; [done|]. rewrite <- IH by (intros y Hy; apply H; by right).
  destruct (p x) eqn:E; cbn; [|done]. rewrite (H x) by (auto; by left). cbn. by rewrite Z.eqb_refl.
Qed.
End outside.
Lemma outside_bump o p f l : (forall x, p x = true -> fb_org x = Some o) -> (forall x, fb_org (f x) = fb_org x) ->
  outside fb_org o (bump_first p f l) = outside fb_org o l.
Proof.
  intros Hp Hf. unfold outside. induction l as [|x l IH]; cbn; [done|]. destruct (p x) eqn:E; cbn; [|by rewrite IH].
  rewrite Hf, (Hp x E). cbn. by rewrite Z.eqb_refl.
Qed.
(** Rows rewritten one by one, those outside left as they are. *)
Definition fenced (o : Z) (e e' : Entity) : Prop := en_id e' = en_id e /\ en_org e' = en_org e /\ (en_org e <> Some o -> e' = e).
Lemma fenced_outside o l l' : Forall2 (fenced o) l l' ->
  outside en_org o l' = outside en_org o l /\ map (fun e => (en_id e, en_org e)) l' = map (fun e => (en_id e, en_org e)) l.
Proof.
  induction 1 as [|e e' l l' (Hi & Ho & He) _ [IH1 IH2]]; [done|]. unfold outside in *. cbn. rewrite IH1, IH2, Hi, Ho. split; [|done].
  destruct (col_eq o (en_org e)) eqn:E; cbn; [done|]. rewrite He; [done|]. intros E'. rewrite E' in E. cbn in E. by rewrite Z.eqb_refl in E.
Qed.
Lemma in_scope_own o c : o <> LEGACY_GLOBAL_ORG_ID -> in_scope (Some o) c = true -> c = Some o.
Proof.
  intros Ho. unfold in_scope, org_scope_filter, is_legacy_global_scope. rewrite bool_decide_eq_false_2 by congruence.
  destruct c as [x|]; cbn; [|done]. intros ->%Z.eqb_eq. done.
Qed.

Section confined.
Context (env : Env) (tenants : Tenants) (parse : string -> option json) (render : json -> string)
  (conf_json : Z -> json) (like collate : string -> string -> bool).
Context (o : Z) (Ho : o <> LEGACY_GLOBAL_ORG_ID) (r0 : Review)
  (Hcands : NoDup (map rr_id (candidates r0))) (Hnodes : NoDup (map en_id (nodes r0))) (Hlinks : NoDup (map lk_id (links r0))).
Notation ident := (fun e => (en_id e, en_org e)).

Record within (r : Review) : Prop := {
  wi_foreign : foreign o r = foreign o r0;
  wi_cands : forall c, In c (candidates r) -> exists c0, In c0 (candidates r0) /\ rr_id c0 = rr_id c /\ rr_org c0 = rr_org c;
  wi_nodes : map ident (nodes r) = map ident (nodes r0);
  wi_links : forall l, In l (links r) -> exists l0, In l0 (links r0) /\ lk_id l0 = lk_id l /\ lk_org l0 = lk_org l
}.
Definition inside (d : ReviewDb) : Prop := within (ops d).
(** A candidate of the organisation, by its id. *)
Definition own (c : Candidate) : Prop := rr_org c = Some o /\ exists c0, In c0 (candidates r0) /\ rr_id c0 = rr_id c /\ rr_org c0 = Some o.

Lemma own_hit r c x : within r -> own c -> In x (candidates r) -> rr_id x = rr_id c -> rr_org x = Some o.
Proof.
  intros Hr (_ & c0 & H0 & Hi & Hc) Hx E. destruct (wi_cands r Hr x Hx) as (x0 & Hx0 & Hxi & <-).
  by rewrite (NoDup_map_inj rr_id (candidates r0) x0 c0 Hcands Hx0 H0) by congruence.
Qed.
Lemma within_on_candidates f r : within r -> outside rr_org o (f (candidates r)) = outside rr_org o (candidates r) ->
  (forall c, In c (f (candidates r)) -> exists c', In c' (candidates r) /\ rr_id c' = rr_id c /\ rr_org c' = rr_org c) ->
  within (on_candidates f r).
Proof.
  intros [H1 H2 H3 H4] Hf Hin. split; [rewrite <- H1; unfold foreign; cbn [candidates nodes feedbacks rules links on_candidates on_nodes on_feedbacks on_rules]; by rewrite Hf|cbn..]; try done.
  intros c (c' & Hc' & <- & <-)%Hin. by apply H2.
Qed.
Lemma within_write r c f : within r -> own c -> (forall x, rr_id (f x) = rr_id x /\ rr_org (f x) = rr_org x) ->
  within (decide_candidate (rr_id c) f r).
Proof.
  intros Hr Hc Hf. apply within_on_candidates; [done|..].
  - apply outside_update; [|intros; by apply Hf]. intros x Hx E%Z.eqb_eq. by eapply own_hit.
  - intros x (y & Hy & [[_ ->]|[_ ->]])%in_update_where; exists y; [destruct (Hf y) as [-> ->]|]; done.
Qed.
Lemma within_nodes f r : within r -> Forall2 (fenced o) (nodes r) (f (nodes r)) -> within (on_nodes f r).
Proof.
  intros [H1 H2 H3 H4] [Hout Hmap]%fenced_outside. split; [rewrite <- H1; unfold foreign; cbn [candidates nodes feedbacks rules links on_candidates on_nodes on_feedbacks on_rules]; by rewrite Hout|cbn..]; try done. congruence.
Qed.
Lemma within_feedbacks f r : within r -> outside fb_org o (f (feedbacks r)) = outside fb_org o (feedbacks r) -> within (on_feedbacks f r).
Proof. intros [H1 H2 H3 H4] Hf. split; [rewrite <- H1; unfold foreign; cbn [candidates nodes feedbacks rules links on_candidates on_nodes on_feedbacks on_rules]; by rewrite Hf|done..]. Qed.
Lemma within_rules f r : within r -> outside rl_org o (f (rules r)) = outside rl_org o (rules r) -> within (on_rules f r).
Proof. intros [H1 H2 H3 H4] Hf. split; [rewrite <- H1; unfold foreign; cbn [candidates nodes feedbacks rules links on_candidates on_nodes on_feedbacks on_rules]; by rewrite Hf|done..]. Qed.
Lemma within_audit a r : within r -> within (audit_row a r).
Proof. by intros [H1 H2 H3 H4]. Qed.

Lemma inside_scoped {B} i (k : option Candidate -> M ReviewDb B) :
  (forall found, (forall c, found = Some c -> own c) -> preserves inside (k found)) ->
  preserves inside (mbind (scoped_candidate (Some o) i) k).
Proof.
  intros Hk s Hd Hb. unfold scoped_candidate, mbind, mget, mlift, get_scoped_record.
  rewrite (scoped_query candidate_model rr_org) by done. cbn [res_bind].
  apply Hk; [|done|done]. intros c [Hc _]%find_some. rewrite scoped_filter, filter_In in Hc.
  destruct Hc as [Hc Hs%in_scope_own]; [|done]. split; [done|].
  destruct (wi_cands _ Hd c Hc) as (c0 & H0 & Hi & Hc0). exists c0. split_and!; [done..|congruence].
Qed.

Lemma inside_modify f : (forall r, within r -> within (f r)) -> preserves inside (mmodify (with_ops f : ReviewDb -> ReviewDb)).
Proof. intros Hf. apply preserves_modify. intros d Hd. by apply Hf. Qed.
Lemma inside_identity c now : own c -> preserves inside (promote_confirmed_identity env parse render conf_json c now).
Proof.
  intros [Hc _]. unfold promote_confirmed_identity. destruct (negb _); [preserve|].
  destruct (build_authority_canonical_id _ _) as [cid|]; [|preserve]. destruct (negb _); [preserve|].
  apply preserves_bind_get. intros d _. apply preserves_bind; [|intros; preserve].
  apply inside_modify. intros r Hr. apply within_nodes; [done|]. clear Hr. induction (nodes r) as [|e es IH]; [constructor|].
  constructor; [|exact IH]. destruct (promotes c cid e) eqn:E; [|done]. split_and!; [done..|]. intros Hne. exfalso. apply Hne.
  apply (in_scope_own o); [done|]. rewrite <- Hc. by apply andb_prop in E as [[[[? _]%andb_prop _]%andb_prop _]%andb_prop _].
Qed.
Lemma stamp_same c label cid now e e' : stamp_entity parse render conf_json c label cid now e = Ok (Some e') -> ident e' = ident e.
Proof.
  unfold stamp_entity. destruct (match column "attributes_json" e with Some _ => _ | None => _ end) as [[| | | | |m]|]; try done.
  destruct (author_names m) as [names|]; cbn [res_bind]; [|done].
  destruct (negb _); [done|]. match goal with |- (if ?b then _ else _) = _ -> _ => destruct b end; [done|]. by intros [= <-].
Qed.
Lemma fenced_rows vis c label cid now l n :
  rr_org c = Some o -> (forall e, In e l -> en_org (flushed vis e) = en_org e) ->
  Forall2 (fenced o) l (stamp_rows parse render conf_json like vis c label cid now n l).1.1.
Proof.
  intros Hc. revert n. induction l as [|e l IH]; intros n Hl; cbn [stamp_rows]; [constructor|].
  assert (Hself : fenced o e e) by done.
  assert (Hrest : forall k e', fenced o e e' -> forall f : list Entity * Z * bool -> Z,
    Forall2 (fenced o) (e :: l) (let '(l, j, x) := stamp_rows parse render conf_json like vis c label cid now k l in (e' :: l, f (l, j, x), x)).1.1).
  { intros k e' He f. specialize (IH k (fun e He => Hl e (or_intror He))).
    destruct (stamp_rows _ _ _ _ _ _ _ _ _ k l) as [[l1 j] x]. by constructor. }
  assert (Hall : Forall2 (fenced o) (e :: l) (e :: l)) by (clear; induction (e :: l); constructor; done).
  destruct (stampable _ _ _ _) eqn:Es; [|by apply (Hrest n e Hself (fun r => r.1.2))].
  destruct n as [|n]; [done|]. destruct (stamp_entity _ _ _ c label cid now e) as [[e'|]|x] eqn:E; [..|done].
  - assert (fenced o e e') as He; [|by apply (Hrest n e' He (fun r => 1 + r.1.2))]. pose proof (stamp_same c label cid now e e' E) as [= Hi Horg].
    split_and!; [done..|]. intros Hne. exfalso. apply Hne. rewrite <- (Hl e) by by left. apply in_scope_own; [done|].
    rewrite <- Hc. by apply andb_prop in Es as [[? _]%andb_prop _].
  - by apply (Hrest n e Hself (fun r => r.1.2)).
Qed.
(** The rows of the last flush name the same entities. *)
Definition view (vis : list Entity) : Prop := map ident vis = map ident (nodes r0).
Lemma flushed_org vis r e : within r -> view vis -> In e (nodes r) -> en_org (flushed vis e) = en_org e.
Proof.
  intros Hr Hv He. unfold flushed. destruct (List.find _ vis) as [x|] eqn:E; [|done]. cbn.
  apply find_some in E as [Hx Hi%Z.eqb_eq].
  assert (H1 : In (ident x) (map ident (nodes r0))) by (rewrite <- Hv; by apply (in_map ident)).
  assert (H2 : In (ident e) (map ident (nodes r0))) by (rewrite <- (wi_nodes r Hr); by apply (in_map ident)).
  apply in_map_iff in H1 as (x0 & [= Ex Ox] & Hx0), H2 as (e0 & [= Ee Oe] & He0).
  rewrite (NoDup_map_inj en_id (nodes r0) x0 e0 Hnodes Hx0 He0) in Ox by congruence. congruence.
Qed.
Lemma inside_publications vis c now : own c -> view vis ->
  preserves inside (promote_confirmed_author_to_publications env parse render conf_json like vis c now).
Proof.
  intros [Hc _] Hv. unfold promote_confirmed_author_to_publications. destruct (negb _); [preserve|]. destruct (negb _); [preserve|].
  destruct (build_authority_canonical_id _ _) as [cid|]; [|preserve]. destruct (negb _); [preserve|].
  intros s Hd Hb. rewrite run_get.
  pose proof (fenced_rows vis c (strip (rr_value c)) cid now (nodes (ops (sess_db s))) PUB_SCAN_LIMIT Hc
    (fun e He => flushed_org vis _ e Hd Hv He)) as H.
  destruct (stamp_rows _ _ _ _ _ _ _ _ _ _ _) as [[es n] x]. rewrite run_modify. cbn. split; [|done].
  apply within_nodes; done.
Qed.
Lemma inside_outcome b c : own c -> preserves inside (candidate_outcome b c).
Proof.
  intros [Hc _]. unfold candidate_outcome, record_outcome. preserve. apply within_feedbacks; [done|].
  assert (Hp : forall x, same_scope (rr_org c) (rr_field c) (rr_source c) x = true -> fb_org x = Some o).
  { intros x. unfold same_scope. intros [[->%bool_decide_eq_true _]%andb_prop _]%andb_prop. done. }
  rewrite outside_bump by done. destruct (existsb _ _); [done|]. by apply outside_app.
Qed.
Lemma inside_write c f : own c -> (forall x, rr_id (f x) = rr_id x /\ rr_org (f x) = rr_org x) -> preserves inside (write_candidate (rr_id c) f).
Proof. intros Hc Hf. apply inside_modify. intros r Hr. by apply within_write. Qed.
Lemma inside_rule c : own c -> preserves inside (create_rule c).
Proof. intros [Hc _]. apply inside_modify. intros r Hr. apply within_rules; [done|]. by apply outside_app. Qed.
Lemma inside_trail a : preserves inside (add_trail a).
Proof. apply inside_modify. intros r Hr. by apply within_audit. Qed.
Lemma inside_decision now uuid dec c at_ user : preserves inside (emit_decision env conf_json now uuid dec c at_ user).
Proof. apply (preserves_emit within). Qed.
Lemma inside_reject losers : (forall c, In c losers -> own c) -> preserves inside (reject_losing losers).
Proof.
  intros Hl. unfold reject_losing. preserve. apply within_on_candidates; [done|..].
  - apply outside_update; [|done]. intros x Hx [Hi%bool_decide_eq_true _]%andb_prop.
    apply list_elem_of_In, in_map_iff in Hi as (c & E & Hc). eapply own_hit; eauto.
  - intros x (y & Hy & [[_ ->]|[_ ->]])%in_update_where; exists y; done.
Qed.
Lemma inside_confirmed c at_ : own c -> preserves inside (write_candidate (rr_id c) (set_decision "confirmed" at_)).
Proof. intros Hc. by apply inside_write. Qed.
Lemma inside_rejected c : own c -> preserves inside (write_candidate (rr_id c) (fun c => set_decision "rejected" (rr_confirmed_at c) c)).
Proof. intros Hc. by apply inside_write. Qed.
#[local] Hint Resolve inside_identity inside_publications inside_outcome inside_rule inside_trail inside_decision inside_reject
  inside_confirmed inside_rejected : preserve.

Lemma inside_bulk vis known now rules ids acc : view vis ->
  preserves inside (bulk_confirm_loop env parse render conf_json like vis known now rules (Some o) ids acc).
Proof.
  intros Hv. revert acc. induction ids as [|i ids IH]; intros acc; cbn; [preserve|].
  apply inside_scoped. intros [c|] Hc; [|apply IH]. specialize (Hc c eq_refl). preserve.
Qed.
Lemma inside_bulk_reject ids n : preserves inside (bulk_reject_loop (Some o) ids n).
Proof.
  revert n. induction ids as [|i ids IH]; intros n; cbn; [preserve|].
  apply inside_scoped. intros [c|] Hc; [|apply IH]. specialize (Hc c eq_refl). preserve.
Qed.
Lemma inside_auto vis now m rej groups acc : view vis -> (forall g c, In g groups -> In c g -> own c) ->
  preserves inside (auto_confirm_loop env parse render conf_json like vis now m rej groups acc).
Proof.
  revert vis acc. induction groups as [|[|b ls] groups IH]; intros vis acc Hv Hg; cbn; [preserve|..].
  - apply IH; [done|]. intros g c H. apply Hg. by right.
  - assert (IH' : forall vis acc, view vis -> preserves inside (auto_confirm_loop env parse render conf_json like vis now m rej groups acc))
      by (intros vis1 acc1 Hv1; apply IH; [done|]; intros g c Hin; apply Hg; by right).
    assert (Hb : own b) by (apply (Hg (b :: ls)); by left).
    assert (Hls : forall c, In c ls -> own c) by (intros c H; apply (Hg (b :: ls)); [by left|by right]).
    destruct (negb _); [by apply IH'|]. apply preserves_bind; [by apply inside_confirmed|intros _].
    apply preserves_bind_get. intros d Hd.
    assert (Hv' : view (if outcome_flushes b d then nodes (ops d) else vis)) by (destruct (outcome_flushes b d); [apply Hd|done]).
    preserve.
Qed.
Lemma inside_reapply vis now cs n : view vis -> (forall c, In c cs -> own c) ->
  preserves inside (reapply_loop env parse render conf_json like vis now cs n).
Proof.
  intros Hv. revert n. induction cs as [|c cs IH]; intros n Hc; cbn; [preserve|].
  apply preserves_bind; [apply inside_publications; [apply Hc; by left|done]|]. intros k. apply IH. intros x Hx. apply Hc. by right.
Qed.
(** What a scoped query selects. *)
Lemma own_scoped d c : inside d -> In c (scoped rr_org (Some o) (candidates (ops d))) -> own c.
Proof.
  intros Hd. rewrite scoped_filter, filter_In. intros [Hc Hs%in_scope_own]; [|done]. split; [done|].
  destruct (wi_cands _ Hd c Hc) as (c0 & H0 & Hi & Hc0). exists c0. split_and!; [done..|congruence].
Qed.
Lemma own_group d status f n g c : inside d ->
  In g (firstn n (candidate_groups collate (with_status (Some o) status f (candidates (ops d))))) -> In c g -> own c.
Proof.
  intros Hd Hg Hc. assert (Hg' : In g (candidate_groups collate (with_status (Some o) status f (candidates (ops d)))))
    by (rewrite <- (firstn_skipn n); apply in_or_app; by left). clear Hg. revert Hg' Hc. unfold candidate_groups.
  rewrite group_by_values. intros Hg Hc. apply in_map_iff in Hg as (k & <- & _). apply filter_In in Hc as [Hc _].
  apply (own_scoped d c Hd). apply sort_by_in in Hc. unfold with_status in Hc. by apply filter_In in Hc as [Hc _].
Qed.

Context (user : User) (Hscope : resolve_request_org_id tenants user true true = Ok (Some o)).
Lemma inside_editor {B} (k : option Z -> M ReviewDb B) : preserves inside (k (Some o)) -> preserves inside (mbind (mlift (editor_scope tenants user)) k).
Proof.
  intros Hk. unfold editor_scope, require_role. case_bool_decide; cbn [res_bind]; [by rewrite Hscope|apply preserves_lift_raise].
Qed.
Lemma inside_admin {B} (k : option Z -> M ReviewDb B) : preserves inside (k (Some o)) -> preserves inside (mbind (mlift (admin_scope tenants user)) k).
Proof.
  intros Hk. unfold admin_scope, require_role. case_bool_decide; cbn [res_bind]; [by rewrite Hscope|apply preserves_lift_raise].
Qed.
#[local] Hint Resolve inside_bulk inside_bulk_reject : preserve.
Lemma inside_link confirm now i : preserves inside (decide_link tenants confirm now i user).
Proof.
  apply inside_editor. apply preserves_bind_get. intros d Hd. unfold get_scoped_record.
  rewrite (scoped_query link_model lk_org) by done. cbn [res_bind]. apply preserves_lift_ok.
  destruct (List.find _ _) as [l|] eqn:E; [|preserve]. apply find_some in E as [Hl _]. rewrite scoped_filter, filter_In in Hl.
  destruct Hl as [Hl Hs%in_scope_own]; [|done]. destruct (wi_links _ Hd l Hl) as (l0 & H0 & Hi & Horg).
  preserve. destruct H as [H1 H2 H3 H4].
  assert (Hit : forall x, In x (links (ops d0)) -> lk_id x = lk_id l -> lk_org x = Some o).
  { intros x Hx Ex. destruct (H4 x Hx) as (x0 & Hx0 & Ex0 & <-). rewrite (NoDup_map_inj lk_id (links r0) x0 l0 Hlinks Hx0 H0); congruence. }
  split; [|done..|].
  - rewrite <- H1. unfold foreign. cbn [ops with_ops candidates nodes feedbacks rules links on_links]. rewrite outside_update; [done|..].
    + intros x Hx Ex%Z.eqb_eq. by apply Hit.
    + intros x Hx Ex%Z.eqb_eq. rewrite (Hit x Hx Ex). by cbn.
  - intros x (y & Hy & [[Ey ->]|[_ ->]])%in_update_where; [|by apply H4]. exists l0. split_and!; [done..|]. by cbn.
Qed.
Lemma within_removed p r : within r -> (forall c, In c (candidates r) -> p c = true -> rr_org c = Some o) ->
  within (on_candidates (List.filter (fun c => negb (p c))) r).
Proof.
  intros Hr Hp. apply within_on_candidates; [done|by apply outside_removed|]. intros c [Hc _]%filter_In. by exists c.
Qed.
Lemma rexec_inside c : preserves inside (rexec env tenants parse render conf_json like collate user c).
Proof.
  destruct c; cbn [rexec]; try (apply preserves_bind; [|intros; apply preserves_ret]).
  - apply inside_link.
  - apply inside_editor, inside_scoped. intros [c|] Hc; [|preserve]. specialize (Hc c eq_refl).
    do 3 (apply preserves_bind; [eauto with preserve|intros ?]). apply preserves_bind_get. intros d Hd.
    apply preserves_bind; [apply inside_publications; [done|apply Hd]|intros ?]. cbv zeta. preserve.
  - apply inside_editor, inside_scoped. intros [c|] Hc; [|preserve]. specialize (Hc c eq_refl). preserve.
  - apply inside_editor, inside_scoped. intros [c|] Hc; [|preserve]. specialize (Hc c eq_refl). preserve.
    apply within_removed; [done|]. intros x Hx E%Z.eqb_eq. by eapply own_hit.
  - apply inside_editor, preserves_bind_get. intros d Hd. apply preserves_bind; [apply inside_bulk, Hd|intros ?]. preserve.
  - apply inside_editor. preserve.
  - apply inside_editor, preserves_bind_get. intros d Hd. apply preserves_bind; [|intros ?; preserve].
    apply inside_auto; [apply Hd|]. intros g c. by apply own_group.
  - apply inside_admin, preserves_bind_get. intros d Hd. apply preserves_bind; [|intros ?; preserve].
    apply inside_reapply; [apply Hd|]. intros c Hc. apply (own_scoped d c Hd).
    assert (Hc' : In c (List.filter (fun c => bool_decide (rr_status c = "confirmed") && bool_decide (rr_field c = field_name))
      (scoped rr_org (Some o) (candidates (ops d))))) by (rewrite <- (firstn_skipn limit); apply in_or_app; by left).
    by apply filter_In in Hc' as [? _].
  - unfold purge_authority_records. destruct (bool_decide _); [|apply preserves_lift_raise]. apply inside_admin. preserve.
    apply within_removed; [done|]. intros x Hx [E _]%andb_prop. by apply in_scope_own.
Qed.
End confined.

(** a reviewer changes nothing of other organisations. Whatever a reviewer
    of an active organisation calls, and whether or not it raises, the candidates,
    entities, counters, rules and links outside that organisation are the same
    rows, committed and pending: the write-backs of a confirmation included. *)
Theorem review_confined env tenants parse render conf_json like collate user o c d :
  resolve_request_org_id tenants user true true = Ok (Some o) -> o <> LEGACY_GLOBAL_ORG_ID ->
  NoDup (map rr_id (candidates (ops d))) -> NoDup (map en_id (nodes (ops d))) -> NoDup (map lk_id (links (ops d))) ->
  let s := (rexec env tenants parse render conf_json like collate user c (clean d)).2 in
  foreign o (ops (sess_db s)) = foreign o (ops d) /\ foreign o (ops (sess_base s)) = foreign o (ops d).
Proof.
  intros Hscope Ho H1 H2 H3 s.
  assert (Hd : within o (ops d) (ops d)) by (split; [done|eauto|done|eauto]).
  destruct (rexec_inside env tenants parse render conf_json like collate o Ho (ops d) H1 H2 H3 user Hscope c (clean d) Hd Hd) as [Ha Hb].
  split; [apply Ha|apply Hb].
Qed.
Lemma review_confined_witness :
  let d := rv_db [rv_candidate 1 (Some 7) 980 "pending"; rv_candidate 2 (Some 8) 990 "pending"]
             [rv_author 11 (Some 7) "author:ada"; rv_author 12 (Some 8) "author:ada"] in
  let s := rv_run rv_editor (RBulkConfirm noon [1; 2] true) d in
  rv_cid 11 (sess_base s) = [Some "orcid:0001"] /\ foreign 7 (ops (sess_base s)) = foreign 7 (ops d).
Proof.
  intros d s. split; [vm_compute; done|].
  apply (review_confined rv_env rv_tenants loads (dumps false) JInt rv_like rv_collate rv_editor 7 (RBulkConfirm noon [1; 2] true) d);
    [done|done|apply (bool_decide_unpack _); vm_compute; exact I..].
Defined.

(** * Where the calls part from what they say *)
(** A reviewer without an organisation sees the records of no organisation, but
    confirming one writes into every organisation's entities. *)
Lemma unowned_record_reaches_every_tenant :
  let d := rv_db [rv_candidate 1 None 980 "pending"] [rv_author 11 None "author:ada"; rv_author 12 (Some 7) "author:ada"] in
  let s := rv_run rv_unscoped (RConfirm noon "u1" 1 false) d in
  editor_scope rv_tenants rv_unscoped = Ok (Some LEGACY_GLOBAL_ORG_ID)
  /\ rv_cid 11 (sess_base s) = [Some "orcid:0001"] /\ rv_cid 12 (sess_base s) = [Some "orcid:0001"].
Proof. vm_compute. done. Qed.
(** Confirming two candidates of one value in bulk writes its rule twice: the
    second check does not see the first, pending, row. *)
Lemma bulk_confirm_duplicates_rule :
  let d := rv_db [rv_candidate 1 (Some 7) 980 "pending"; rv_candidate 2 (Some 7) 990 "pending"] [] in
  let s := rv_run rv_editor (RBulkConfirm noon [1; 2] true) d in
  map rl_value (rules (ops (sess_base s))) = ["Ada"; "Ada"].
Proof. vm_compute. done. Qed.
(** One at a time, the second finds it. *)
Lemma confirm_in_turn_writes_one_rule :
  let d := rv_db [rv_candidate 1 (Some 7) 980 "pending"; rv_candidate 2 (Some 7) 990 "pending"] [] in
  let d' := review_history rv_env rv_tenants loads (dumps false) JInt rv_like rv_collate
    [(rv_editor, RConfirm noon "u1" 1 true); (rv_editor, RConfirm noon "u2" 2 true)] d in
  map rl_value (rules (ops d')) = ["Ada"].
Proof. vm_compute. done. Qed.
(** Auto-confirm looks at pending candidates only: a value already confirmed gets
    a second identity. *)
Lemma auto_confirm_adds_second_identity :
  let d := rv_db [rv_candidate 1 (Some 7) 990 "confirmed"; rv_candidate 2 (Some 7) 960 "pending"] [rv_publication 13 (Some 7)] in
  let s := rv_run rv_editor (RAuto noon None 950 true 10) d in
  map rr_status (candidates (ops (sess_base s))) = ["confirmed"; "confirmed"].
Proof. vm_compute. done. Qed.
(** Bulk decisions leave no counter, audit row or decision event. *)
Lemma bulk_confirm_leaves_no_trace :
  let d := rv_db [rv_candidate 1 (Some 7) 980 "pending"] [] in
  let one := ops (sess_base (rv_run rv_editor (RConfirm noon "u1" 1 true) d)) in
  let many := ops (sess_base (rv_run rv_editor (RBulkConfirm noon [1] true) d)) in
  candidates one = candidates many /\ List.length (trail one) = 1%nat /\ trail many = []
  /\ map fb_confirmed (feedbacks one) = [1] /\ feedbacks many = [].
Proof. vm_compute. done. Qed.
