(* ===== verification/AuthorityAutoConfirm.v ===== *)
(** * Theorem on auto-confirm

    What one call decides, exactly: the winners are a best pending candidate per
    (field, value), the losers the rest of their groups, and every other record is
    as it was. *)
From S2P Require Import Prelude PyStr PyJson DateTime TenantAccess JobsApi JobMigration Entities RetroStore RetroEmit Harmonization UnionFind AuthorityReview AuthorityReviewClaims.
From Stdlib Require Import Ascii String.

Local Open Scope string_scope.
Local Open Scope list_scope.
Local Open Scope Z_scope.
Local Open Scope py_scope.

(** * What leaves the records alone *)
Definition quiet {A} (c : M ReviewDb A) : Prop :=
  forall s, exists a d', c s = (Ok a, mkSession d' (sess_base s)) /\ candidates (ops d') = candidates (ops (sess_db s)).
Lemma quiet_ret {A} (a : A) : quiet (mret a : M ReviewDb A).
Proof. intros [d b]. by exists a, d. Qed.
Lemma quiet_modify f : (forall r, candidates (f r) = candidates r) -> quiet (mmodify (with_ops f : ReviewDb -> ReviewDb)).
Proof. intros Hf [d b]. exists tt, (with_ops f d). split; [done|]. apply Hf. Qed.
Lemma quiet_bind {A B} (c : M ReviewDb A) (k : A -> M ReviewDb B) : quiet c -> (forall a, quiet (k a)) -> quiet (mbind c k).
Proof.
  intros Hc Hk s. destruct (Hc s) as (a & d1 & E & H1). destruct (Hk a (mkSession d1 (sess_base s))) as (x & d2 & E2 & H2).
  exists x, d2. unfold mbind. rewrite E. split; [exact E2|]. rewrite H2. exact H1.
Qed.
Lemma quiet_get {B} (k : ReviewDb -> M ReviewDb B) : (forall d, quiet (k d)) -> quiet (mbind mget k).
Proof. intros Hk s. apply (Hk (sess_db s) s). Qed.

Section auto.
Context (env : Env) (tenants : Tenants) (parse : string -> option json) (render : json -> string)
  (conf_json : Z -> json) (like collate : string -> string -> bool).
Lemma quiet_identity c now : quiet (promote_confirmed_identity env parse render conf_json c now).
Proof.
  unfold promote_confirmed_identity. destruct (negb _); [apply quiet_ret|]. destruct (build_authority_canonical_id _ _); [|apply quiet_ret].
  destruct (negb _); [apply quiet_ret|]. apply quiet_get. intros d. apply quiet_bind; [by apply quiet_modify|]. intros. apply quiet_ret.
Qed.
Lemma quiet_publications vis c now : quiet (promote_confirmed_author_to_publications env parse render conf_json like vis c now).
Proof.
  unfold promote_confirmed_author_to_publications. do 2 (destruct (negb _); [apply quiet_ret|]).
  destruct (build_authority_canonical_id _ _); [|apply quiet_ret]. destruct (negb _); [apply quiet_ret|]. apply quiet_get. intros d.
  destruct (stamp_rows _ _ _ _ _ _ _ _ _ _ _) as [[es n] x]. apply quiet_bind; [by apply quiet_modify|]. intros. apply quiet_ret.
Qed.
Lemma quiet_outcome b c : quiet (candidate_outcome b c).
Proof.
  unfold candidate_outcome, record_outcome. destruct (_ && _); [|apply quiet_ret].
  apply quiet_bind; [|intros; apply quiet_ret]. apply quiet_bind; [by apply quiet_modify|]. intros. apply quiet_ret.
Qed.

(** * The loop *)
Definition winner (m : Z) (g : list Candidate) : option Candidate :=
  match g with b :: _ => if is_auto_confirmable b m then Some b else None | [] => None end.
Definition beaten (m : Z) (rej : bool) (g : list Candidate) : list Candidate :=
  match g with b :: ls => if is_auto_confirmable b m && rej then ls else [] | [] => [] end.
Definition verdict (now : DateTime) (W L : list Candidate) (c : Candidate) : Candidate :=
  if bool_decide (rr_id c ∈ map rr_id W) then set_decision "confirmed" (Some now) c
  else if loses L c then set_decision "rejected" (rr_confirmed_at c) c else c.

Lemma count_map_sum {A B C} (p : B -> bool) (q : C -> bool) (r : A -> bool) (f : A -> B) (g : A -> C) l :
  (forall x, (if p (f x) then 1 else 0) + (if q (g x) then 1 else 0) = (if r x then 1 else 0)) ->
  count_where p (map f l) + count_where q (map g l) = count_where r l.
Proof.
  intros H. unfold count_where. induction l as [|x l IH]; cbn; [done|]. specialize (H x).
  destruct (p (f x)), (q (g x)), (r x); cbn [List.length] in *; lia.
Qed.
Lemma reject_losing_run losers d b :
  reject_losing losers (mkSession d b)
  = (Ok (count_where (loses losers) (candidates (ops d))),
     mkSession (with_ops (on_candidates (update_where (loses losers) (fun c => set_decision "rejected" (rr_confirmed_at c) c))) d) b).
Proof. done. Qed.

Section step.
Context (now : DateTime) (b : Candidate) (ls W L : list Candidate)
  (Hb : rr_id b ∉ map rr_id (ls ++ W ++ L)) (Hls : forall i, i ∈ map rr_id ls -> i ∉ map rr_id (W ++ L)).
Let confirm (c : Candidate) : Candidate := if rr_id c =? rr_id b then set_decision "confirmed" (Some now) c else c.
Let reject (c : Candidate) : Candidate := if loses ls c then set_decision "rejected" (rr_confirmed_at c) c else c.
Lemma loses_app c : loses (ls ++ L) c = loses ls c || loses L c.
Proof.
  unfold loses. rewrite map_app, <- andb_orb_distrib_l. f_equal.
  rewrite <- bool_decide_or. apply bool_decide_ext. by rewrite elem_of_app.
Qed.
Lemma loses_not l c : rr_id c ∉ map rr_id l -> loses l c = false.
Proof. intros H. unfold loses. by rewrite bool_decide_false. Qed.
Lemma verdict_not c : rr_id c ∉ map rr_id W -> rr_id c ∉ map rr_id L -> verdict now W L c = c.
Proof. intros H1 H2. unfold verdict. by rewrite bool_decide_false, loses_not. Qed.
Lemma step_verdict c : verdict now W L (reject (confirm c)) = verdict now (b :: W) (ls ++ L) c
  /\ (if loses ls (confirm c) then 1 else 0) + (if loses L (reject (confirm c)) then 1 else 0) = (if loses (ls ++ L) c then 1 else 0).
Proof.
  rewrite !map_app in Hb. apply not_elem_of_app in Hb as [Hb1 [Hb2 Hb3]%not_elem_of_app].
  rewrite loses_app. unfold confirm. destruct (rr_id c =? rr_id b) eqn:E.
  - apply Z.eqb_eq in E. rewrite <- E in Hb1, Hb2, Hb3. unfold reject.
    rewrite (loses_not ls (set_decision _ _ c)), (loses_not ls c), (loses_not L c), (loses_not L (set_decision _ _ c)) by done.
    rewrite verdict_not by done. unfold verdict. by rewrite bool_decide_true by (rewrite E; by left).
  - apply Z.eqb_neq in E. assert (Hw : bool_decide (rr_id c ∈ map rr_id (b :: W)) = bool_decide (rr_id c ∈ map rr_id W)).
    { apply bool_decide_ext. cbn. rewrite elem_of_cons. naive_solver. }
    unfold reject. destruct (loses ls c) eqn:El; cbn [orb].
    + pose proof El as [Hc%bool_decide_eq_true _]%andb_prop. specialize (Hls _ Hc). rewrite map_app in Hls.
      apply not_elem_of_app in Hls as [H1 H2]. rewrite verdict_not, loses_not by done. split; [|done].
      unfold verdict. by rewrite Hw, bool_decide_false, loses_app, El.
    + split; [|by destruct (loses L c)]. unfold verdict. by rewrite Hw, loses_app, El.
Qed.
End step.

Lemma reject_step_run (rej : bool) losers d b : exists d',
  (if rej then reject_losing losers else mret 0) (mkSession d b)
  = (Ok (count_where (loses (if rej then losers else [])) (candidates (ops d))), mkSession d' b)
  /\ candidates (ops d') = update_where (loses (if rej then losers else [])) (fun c => set_decision "rejected" (rr_confirmed_at c) c) (candidates (ops d)).
Proof.
  destruct rej; [by eexists|]. exists d. unfold loses. cbn. rewrite update_where_id by done. split; [|done].
  unfold mret, count_where. do 3 f_equal. by induction (candidates (ops d)).
Qed.
Lemma winners_in m gs w : In w (omap (winner m) gs) -> In w (List.concat gs).
Proof.
  intros (g & Hg & Hw)%list_elem_of_In%list_elem_of_omap. apply in_concat. exists g. split; [by apply list_elem_of_In|].
  destruct g as [|b ls]; [done|]. cbn in Hw. destruct (is_auto_confirmable b m); [|done]. injection Hw as ->. by left.
Qed.
Lemma losers_in m rej gs c : In c (flat_map (beaten m rej) gs) -> In c (List.concat gs).
Proof.
  intros (g & Hg & Hc)%in_flat_map. apply in_concat. exists g. split; [done|].
  destruct g as [|b ls]; [done|]. cbn in Hc. destruct (_ && _); [by right|done].
Qed.
Lemma auto_loop_run now m rej gs : forall vis acc d b, NoDup (map rr_id (List.concat gs)) ->
  let W := omap (winner m) gs in let L := flat_map (beaten m rej) gs in
  exists d', auto_confirm_loop env parse render conf_json like vis now m rej gs acc (mkSession d b)
    = (Ok (acc.1 + Z.of_nat (List.length W), acc.2 + count_where (loses L) (candidates (ops d))), mkSession d' b)
    /\ candidates (ops d') = map (verdict now W L) (candidates (ops d)).
Proof.
  induction gs as [|[|best ls] gs IH]; intros vis acc d b Hnd W L.
  { exists d. cbn. unfold mret. destruct acc. cbn. rewrite !Z.add_0_r. split; [|].
    - do 3 f_equal. unfold L, count_where. cbn. induction (candidates (ops d)); cbn; [lia|done].
    - unfold verdict, loses. cbn. by rewrite map_id. }
  { exact (IH vis acc d b Hnd). }
  cbn [List.concat map] in Hnd.
  assert (Hnd' : NoDup (map rr_id (List.concat gs))) by (cbn in Hnd; rewrite map_app in Hnd; by apply NoDup_cons in Hnd as [_ [_ [_ ?]]%NoDup_app]).
  cbn [auto_confirm_loop]. subst W L. cbn [omap list_omap winner flat_map beaten].
  destruct (is_auto_confirmable best m) eqn:Em; cbn [negb andb]; [|exact (IH vis acc d b Hnd')].
  change (if rej then ls else []) with (if rej then ls else []).
  set (ls' := if rej then ls else []). set (W := omap (winner m) gs). set (L := flat_map (beaten m rej) gs).
  unfold write_candidate. rewrite run_modify, run_get. cbn [sess_db sess_base].
  set (vis' := if outcome_flushes _ _ then _ else _). set (d1 := with_ops _ d).
  destruct (quiet_outcome true best (mkSession d1 b)) as (x1 & d2 & E1 & H1). rewrite (run_ok _ _ _ _ _ E1).
  destruct (quiet_identity best now (mkSession d2 b)) as (x2 & d3 & E2 & H2). rewrite (run_ok _ _ _ _ _ E2).
  destruct (quiet_publications vis' best now (mkSession d3 b)) as (x3 & d4 & E3 & H3). rewrite (run_ok _ _ _ _ _ E3).
  destruct (reject_step_run rej ls d4 b) as (d5 & E4 & H4). rewrite (run_ok _ _ _ _ _ E4). fold ls' in H4 |- *.
  cbn [sess_db] in H1, H2, H3. rewrite H3, H2, H1 in *. unfold d1 in H4. cbn in H4.
  assert (Hin : forall i, i ∈ map rr_id (W ++ L) -> i ∈ map rr_id (List.concat gs)).
  { intros i (c & -> & Hc)%list_elem_of_fmap. apply list_elem_of_fmap_2, list_elem_of_In. apply list_elem_of_In, in_app_or in Hc as [Hc|Hc];
      [by eapply winners_in|by eapply losers_in]. }
  assert (Hls : forall i, i ∈ map rr_id ls' -> i ∈ map rr_id ls) by (unfold ls'; destruct rej; [done|by intros i ?%elem_of_nil]).
  rewrite map_app in Hnd. cbn [map app] in Hnd. apply NoDup_cons in Hnd as [Hbest (_ & Hdis & _)%NoDup_app].
  apply not_elem_of_app in Hbest as [Hb1 Hb2].
  assert (Hstep : forall c, _) by (refine (step_verdict now best ls' W L _ _);
    [rewrite map_app; apply not_elem_of_app; split; [by intros ?%Hls|by intros ?%Hin]|by intros i ?%Hls%Hdis ?%Hin]).
  destruct (IH vis' (acc.1 + 1, acc.2 + count_where (loses ls') (candidates (ops d1))) d5 b Hnd') as (d' & E5 & H5).
  fold W L in E5, H5. exists d'. rewrite E5, H5, H4. unfold d1. cbn [with_ops ops decide_candidate on_candidates candidates fst snd]. split.
  - do 2 f_equal. f_equal; [cbn [List.length]; lia|]. rewrite <- Z.add_assoc. f_equal. unfold update_where. rewrite map_map.
    apply count_map_sum. intros c. apply Hstep.
  - unfold update_where. rewrite !map_map. apply map_ext. intros c. apply Hstep.
Qed.

(** * The groups *)
Context (Htot : total_le collate) (Htrans : trans_le collate).
Notation before := (before collate).
Lemma ranked_total : total_le before.
Proof.
  intros a b. unfold AuthorityReview.before. destruct (Htot (rr_value a) (rr_value b)) as [-> | ->];
    [destruct (collate (rr_value b) (rr_value a))|destruct (collate (rr_value a) (rr_value b))]; cbn; try (by auto); lia.
Qed.
Lemma ranked_trans : trans_le before.
Proof.
  intros a b c. unfold AuthorityReview.before. intros [H1 H2]%andb_prop [H3 H4]%andb_prop.
  rewrite (Htrans _ _ _ H1 H3). cbn [andb]. destruct (collate (rr_value c) (rr_value a)) eqn:E; cbn; [|done].
  rewrite (Htrans _ _ _ E H1) in H4. rewrite (Htrans _ _ _ H3 E) in H2. cbn in *. lia.
Qed.
Lemma sorted_filter {A} (R : A -> A -> Prop) p l : StronglySorted R l -> StronglySorted R (List.filter p l).
Proof.
  induction 1 as [|x l _ IH Hx]; cbn; [constructor|]. destruct (p x); [|done]. constructor; [done|].
  rewrite Forall_forall in *. intros y Hy%list_elem_of_In. apply filter_In in Hy as [Hy _]. by apply Hx, list_elem_of_In.
Qed.
(** A group's first member is a best one. *)
Lemma group_head l g b ls : In g (candidate_groups collate l) -> g = b :: ls ->
  forall c, In c g <-> In c l /\ group_key c = group_key b.
Proof.
  unfold candidate_groups. rewrite group_by_values. intros (k & Hg & _)%in_map_iff ->.
  assert (Hk : forall c, In c (b :: ls) <-> In c l /\ group_key c = k).
  { intros c. rewrite <- Hg, filter_In, sort_by_in, bool_decide_eq_true. done. }
  intros c. rewrite Hk. by destruct (proj1 (Hk b) (or_introl eq_refl)) as [_ ->].
Qed.
Lemma group_best l b ls : In (b :: ls) (candidate_groups collate l) ->
  forall c, In c l -> group_key c = group_key b -> rr_confidence c <= rr_confidence b.
Proof.
  intros Hg c Hc Hk. pose proof (proj2 (group_head l _ b ls Hg eq_refl c) (conj Hc Hk)) as Hin.
  unfold candidate_groups in Hg. rewrite group_by_values in Hg. apply in_map_iff in Hg as (k & Hg & _).
  pose proof (sorted_filter _ (fun x => bool_decide (group_key x = k)) _ (sort_by_sorted before l ranked_total ranked_trans)) as Hs.
  rewrite Hg in Hs. apply StronglySorted_inv in Hs as [_ Hs]. rewrite Forall_forall in Hs.
  destruct Hin as [->|Hin]; [done|]. specialize (Hs c (proj2 (list_elem_of_In _ _) Hin)).
  unfold AuthorityReview.before in Hs. injection Hk as _ Hv. rewrite Hv in Hs. apply andb_prop in Hs as [H1 H2]. rewrite H1 in H2. cbn in H2. lia.
Qed.
Lemma NoDup_groups {A K} `{EqDecision K} (f : A -> K) l ks : NoDup l -> NoDup ks ->
  NoDup (List.concat (map (fun k => List.filter (fun x => bool_decide (f x = k)) l) ks)).
Proof.
  intros Hl. induction 1 as [|k ks Hk Hks IH]; cbn; [constructor|]. apply NoDup_app. split; [|split; [|done]].
  - apply NoDup_ListNoDup. apply List.NoDup_filter. by apply NoDup_ListNoDup.
  - intros x Hx%list_elem_of_In Hx'%list_elem_of_In. apply filter_In in Hx as [_ Hx%bool_decide_eq_true].
    apply in_concat in Hx' as (g & Hg & Hx'). apply in_map_iff in Hg as (k' & <- & Hk'). apply filter_In in Hx' as [_ Hx'%bool_decide_eq_true].
    apply Hk. subst. by apply list_elem_of_In.
Qed.
Lemma groups_elements l c : In c (List.concat (candidate_groups collate l)) <-> In c l.
Proof.
  unfold candidate_groups. rewrite group_by_values, in_concat. split.
  - intros (g & Hg & Hc). apply in_map_iff in Hg as (k & <- & _). apply filter_In in Hc as [Hc _]. by apply sort_by_in in Hc.
  - intros Hc. assert (Hs : In c (sort_by before l)) by by apply sort_by_in.
    exists (List.filter (fun x => bool_decide (group_key x = group_key c)) (sort_by before l)). split.
    + apply in_map_iff. exists (group_key c). split; [done|]. apply list_elem_of_In, first_seen_in, list_elem_of_In. by apply in_map.
    + apply filter_In. split; [done|]. by apply bool_decide_true.
Qed.
Lemma groups_ids n l : NoDup (map rr_id l) -> NoDup (map rr_id (List.concat (firstn n (candidate_groups collate l)))).
Proof.
  intros Hl. set (gs := candidate_groups collate l).
  assert (Hall : NoDup (map rr_id (List.concat gs))).
  { assert (Hinj : forall x y, In x l -> In y l -> rr_id x = rr_id y -> x = y) by (intros x y Hx Hy; by apply (NoDup_map_inj rr_id l)).
    assert (Hnd : NoDup (List.concat gs)).
    { unfold gs, candidate_groups. rewrite group_by_values. apply NoDup_groups; [|apply first_seen_NoDup].
      rewrite (sort_by_perm before l). by apply NoDup_fmap_1 in Hl. }
    apply NoDup_ListNoDup. apply NoDup_map_NoDup_ForallPairs; [|by apply NoDup_ListNoDup].
    intros x y Hx Hy. apply Hinj; by apply groups_elements. }
  rewrite <- (firstn_skipn n gs), concat_app, map_app in Hall. by apply NoDup_app in Hall as [? _].
Qed.

Section verdicts.
Context (m : Z) (rej : bool) (n : nat) (pend : list Candidate) (Hids : NoDup (map rr_id pend)).
Let gs := firstn n (candidate_groups collate pend).
Let W := omap (winner m) gs.
Let L := flat_map (beaten m rej) gs.

Lemma in_groups g : In g gs -> In g (candidate_groups collate pend).
Proof. intros H. rewrite <- (firstn_skipn n). apply in_or_app. by left. Qed.
Lemma winner_spec w : In w W <-> exists ls, In (w :: ls) gs /\ is_auto_confirmable w m = true.
Proof.
  unfold W. rewrite <- list_elem_of_In, list_elem_of_omap. split.
  - intros ([|b ls] & Hg%list_elem_of_In & Hw); [done|]. cbn in Hw. destruct (is_auto_confirmable b m) eqn:E; [|done].
    injection Hw as ->. by exists ls.
  - intros (ls & Hg & Hw). exists (w :: ls). split; [by apply list_elem_of_In|]. cbn. by rewrite Hw.
Qed.
Lemma winner_best w : In w W -> In w pend /\ is_auto_confirmable w m = true
  /\ forall c, In c pend -> group_key c = group_key w -> rr_confidence c <= rr_confidence w.
Proof.
  intros (ls & Hg%in_groups & Hw)%winner_spec. split_and!; [|done|by eapply group_best].
  by apply (proj1 (group_head pend _ w ls Hg eq_refl w)); left.
Qed.
Lemma group_unique g g' b b' ls ls' : In g (candidate_groups collate pend) -> In g' (candidate_groups collate pend) ->
  g = b :: ls -> g' = b' :: ls' -> group_key b = group_key b' -> g = g'.
Proof.
  unfold candidate_groups. rewrite group_by_values. intros (k & Hk & _)%in_map_iff (k' & Hk' & _)%in_map_iff Eg Eg' E.
  assert (Hb : In b g) by (rewrite Eg; by left). assert (Hb' : In b' g') by (rewrite Eg'; by left).
  rewrite <- Hk in Hb. rewrite <- Hk' in Hb'. apply filter_In in Hb as [_ Hb%bool_decide_eq_true], Hb' as [_ Hb'%bool_decide_eq_true].
  rewrite <- Hk, <- Hk'. replace k' with k by congruence. done.
Qed.
Lemma winner_unique w w' : In w W -> In w' W -> group_key w = group_key w' -> w = w'.
Proof.
  intros (ls & Hg%in_groups & _)%winner_spec (ls' & Hg'%in_groups & _)%winner_spec E.
  by injection (group_unique _ _ w w' ls ls' Hg Hg' eq_refl eq_refl E) as ->.
Qed.
Lemma loser_spec c : In c L <-> rej = true /\ In c pend /\ exists w, In w W /\ group_key w = group_key c /\ c <> w.
Proof.
  unfold L. rewrite in_flat_map. split.
  - intros ([|b ls] & Hg & Hc); [done|]. cbn in Hc. destruct (is_auto_confirmable b m) eqn:Eb, rej; try done.
    destruct (proj1 (group_head pend _ b ls (in_groups _ Hg) eq_refl c) (or_intror Hc)) as [Hp Hk]. split_and!; [done..|].
    exists b. split_and!; [apply winner_spec; by exists ls|done|]. intros ->.
    pose proof (groups_ids n pend Hids) as Hnd. apply (NoDup_fmap_1 rr_id) in Hnd.
    apply in_split in Hg as (a & z & Hg). unfold gs in Hg. rewrite Hg, concat_app in Hnd. cbn in Hnd.
    apply NoDup_app in Hnd as (_ & _ & [Hnd _]%NoDup_cons). apply Hnd, elem_of_app. left. by apply list_elem_of_In.
  - intros (-> & Hp & w & (ls & Hg & Hw)%winner_spec & Hk & Hne). exists (w :: ls). split; [done|]. cbn. rewrite Hw. cbn.
    destruct (proj2 (group_head pend _ w ls (in_groups _ Hg) eq_refl c) (conj Hp (eq_sym Hk))) as [->|Hc]; [done|done].
Qed.
Lemma groups_decided : (List.length (candidate_groups collate pend) <= n)%nat -> forall c, In c pend ->
  (exists w, In w W /\ group_key w = group_key c)
  \/ exists best, In best pend /\ group_key best = group_key c /\ rr_confidence c <= rr_confidence best /\ is_auto_confirmable best m = false.
Proof.
  intros Hn c Hc. pose proof Hc as Hin. apply groups_elements, in_concat in Hin as (g & Hg & Hcg).
  destruct g as [|b ls]; [done|]. assert (Hgs : In (b :: ls) gs) by (unfold gs; by rewrite firstn_all2).
  destruct (proj1 (group_head pend _ b ls Hg eq_refl c) Hcg) as [_ Hk].
  destruct (is_auto_confirmable b m) eqn:E; [left|right]; exists b.
  - split; [|done]. apply winner_spec. by exists ls.
  - split_and!; [|done|by eapply group_best|done]. by apply (proj1 (group_head pend _ b ls Hg eq_refl b)); left.
Qed.
End verdicts.
End auto.

(** C23: auto-confirm decides exactly what it should. The confirmed records [W] are
    pending records in scope that are auto-confirmable, one per (field, value),
    each with the highest confidence of its group; the rejected ones [L] are, when
    losers are rejected, the rest of the winners' groups; every other record is
    as it was, all of it is committed, the counts are the answer; and when
    [max_groups] does not cut, every group without a winner has a best candidate
    that does not qualify. *)
Theorem auto_confirm_exact env tenants parse render conf_json like collate now field m rej n user org_id d :
  total_le collate -> trans_le collate -> editor_scope tenants user = Ok org_id -> NoDup (map rr_id (candidates (ops d))) ->
  let pend := with_status org_id "pending" field (candidates (ops d)) in
  exists W L s,
    auto_confirm_authority_records env tenants parse render conf_json like collate now field m rej n user (clean d)
    = (Ok (Z.of_nat (List.length W), count_where (loses L) (candidates (ops d))), s)
    /\ candidates (ops (sess_base s)) = map (verdict now W L) (candidates (ops d))
    /\ (forall w, In w W -> In w pend /\ is_auto_confirmable w m = true
                  /\ forall c, In c pend -> group_key c = group_key w -> rr_confidence c <= rr_confidence w)
    /\ (forall w w', In w W -> In w' W -> group_key w = group_key w' -> w = w')
    /\ (forall c, In c L <-> rej = true /\ In c pend /\ exists w, In w W /\ group_key w = group_key c /\ c <> w)
    /\ ((List.length (candidate_groups collate pend) <= n)%nat -> forall c, In c pend ->
         (exists w, In w W /\ group_key w = group_key c)
         \/ exists best, In best pend /\ group_key best = group_key c /\ rr_confidence c <= rr_confidence best
                         /\ is_auto_confirmable best m = false).
Proof.
  intros Htot Htr Ho Hids pend.
  assert (Hp : NoDup (map rr_id pend)).
  { unfold pend, with_status. rewrite scoped_filter. by do 2 apply NoDup_map_filter. }
  set (gs := firstn n (candidate_groups collate pend)).
  destruct (auto_loop_run env parse render conf_json like now m rej gs (nodes (ops d)) (0, 0) d d (groups_ids collate n pend Hp))
    as (d' & E & Hd').
  set (W := omap (winner m) gs) in *. set (L := flat_map (beaten m rej) gs) in *. exists W, L. eexists. split; [|split].
  - unfold auto_confirm_authority_records. rewrite Ho, run_lift_ok. unfold clean. rewrite run_get. cbn [sess_db].
    fold pend gs. rewrite (run_ok _ _ _ _ _ E). unfold add_trail. rewrite run_modify, run_commit. reflexivity.
  - cbn. exact Hd'.
  - split_and!.
    + intros w Hw. by eapply winner_best.
    + intros w w' Hw Hw' Hk. by eapply winner_unique.
    + intros c. by eapply loser_spec.
    + intros Hn c Hc. by eapply groups_decided.
Qed.

Definition shorter (a b : string) : bool := (String.length a <=? String.length b)%nat.
Lemma shorter_total : total_le shorter.
Proof. intros a b. unfold shorter. rewrite !Nat.leb_le. lia. Qed.
Lemma shorter_trans : trans_le shorter.
Proof. intros a b c. unfold shorter. rewrite !Nat.leb_le. lia. Qed.
Lemma auto_confirm_exact_witness :
  let d := rv_db [rv_candidate 1 (Some 7) 960 "pending"; rv_candidate 2 (Some 7) 990 "pending"; rv_candidate 3 (Some 8) 990 "pending"] [] in
  exists (W L : list Candidate) s, auto_confirm_authority_records rv_env rv_tenants loads (dumps false) JInt rv_like shorter noon None 950 true 10 rv_editor (clean d)
    = (Ok (Z.of_nat (List.length W), count_where (loses L) (candidates (ops d))), s)
    /\ map rr_status (candidates (ops (sess_base s))) = ["rejected"; "confirmed"; "pending"].
Proof.
  intros d. destruct (auto_confirm_exact rv_env rv_tenants loads (dumps false) JInt rv_like shorter noon None 950 true 10 rv_editor (Some 7) d)
    as (W & L & s & E & _); [exact shorter_total|exact shorter_trans|done|apply (bool_decide_unpack _); vm_compute; exact I|].
  exists W, L, s. split; [exact E|]. apply (f_equal snd) in E. cbn [snd] in E. rewrite <- E. vm_compute. reflexivity.
Defined.
