(* ===== verification/Graph.v ===== *)
(** * Graph analytics and entity relationships
      (src/backend/graph_analytics.py, routers/relationships.py)

    The algorithms over fetched edges, and the endpoints of the relationship graph
    over the tables. Weights are floats: [F] with the operations the code uses is
    a parameter, and so is the order in which Python iterates over a set. Loops
    over a queue run on fuel, computed from the edges; [GraphPaths] and
    [GraphComponents] show that it is enough. *)
From S2P Require Import Prelude PyStr DateTime TenantAccess JobsApi Entities DomainScope Harmonization UnionFind.
From Stdlib Require Import Ascii String.

Local Open Scope string_scope.
Local Open Scope list_scope.
Local Open Scope Z_scope.
Local Open Scope py_scope.

Section graph.
Context {F : Type} (fadd fsub fmul fdiv : F -> F -> F) (fabs fround : F -> F) (flt feq : F -> F -> bool) (of_Z : Z -> F)
  (set_order : list Z -> list Z).

Definition Edge : Type := Z * Z * string * option F.
Definition src (e : Edge) : Z := e.1.1.1.
Definition dst (e : Edge) : Z := e.1.1.2.
Definition rel (e : Edge) : string := e.1.2.
Definition weight (e : Edge) : option F := e.2.
(** A Python set of the elements added in this order. *)
Definition py_set (l : list Z) : list Z := set_order (first_seen l).
Definition endpoints (edges : list Edge) : list Z := flat_map (fun e => [src e; dst e]) edges.

(** * Degree centrality *)
Record Degree := mkDegree {
  in_degree : Z; out_degree : Z; total_degree : Z; in_by_type : list (string * Z); out_by_type : list (string * Z) }.
(** [d[k] += 1] on a defaultdict(int). *)
Definition tally {K} `{EqDecision K} (k : K) (d : list (K * Z)) : list (K * Z) :=
  dict_set k (match dict_get k d with Some n => n | None => 0 end + 1) d.
Definition sum_values {K} (d : list (K * Z)) : Z := fold_left (fun n kv => n + kv.2) d 0.
Definition degree_centrality (entity_id : Z) (edges : list Edge) : Degree :=
  let out := fold_left (fun d e => if src e =? entity_id then tally (rel e) d else d) edges [] in
  let inn := fold_left (fun d e => if dst e =? entity_id then tally (rel e) d else d) edges [] in
  mkDegree (sum_values inn) (sum_values out) (sum_values inn + sum_values out) inn out.

(** * PageRank *)
Definition fsum (l : list F) : F := fold_left fadd l (of_Z 0).
Section pagerank.
Context (damping tol : F) (edges : list Edge).
Definition out_neighbors (n : Z) : list Z := map dst (List.filter (fun e => src e =? n) edges).
Definition in_neighbors (n : Z) : list Z := map src (List.filter (fun e => dst e =? n) edges).
Definition rank_of (rank : list (Z * F)) (n : Z) : F := match dict_get n rank with Some r => r | None => of_Z 0 end.
Definition new_rank (N : Z) (rank : list (Z * F)) (n : Z) : F :=
  fold_left (fun r pred =>
    let out_deg := Z.of_nat (List.length (out_neighbors pred)) in
    if 0 <? out_deg then fadd r (fdiv (fmul damping (rank_of rank pred)) (of_Z out_deg)) else r)
    (in_neighbors n) (fdiv (fsub (of_Z 1) damping) (of_Z N)).
Fixpoint iterate_rank (max_iter : nat) (nodes : list Z) (rank : list (Z * F)) : list (Z * F) :=
  match max_iter with
  | O => rank
  | S k =>
      let next := map (fun n => (n, new_rank (Z.of_nat (List.length nodes)) rank n)) nodes in
      let diff := fsum (map (fun n => fabs (fsub (rank_of next n) (rank_of rank n))) nodes) in
      if flt diff tol then next else iterate_rank k nodes next
  end.
Definition pagerank (max_iter : nat) : list (Z * F) :=
  let nodes := py_set (endpoints edges) in
  match nodes with
  | [] => []
  | _ =>
      let rank := iterate_rank max_iter nodes (map (fun n => (n, fdiv (of_Z 1) (of_Z (Z.of_nat (List.length nodes))))) nodes) in
      let total := fsum (map snd rank) in
      let total := if feq total (of_Z 0) then of_Z 1 else total in
      map (fun nr => (nr.1, fround (fdiv nr.2 total))) rank
  end.
End pagerank.

(** * Weakly connected components *)
Definition neighbors_of (edges : list Edge) (v : Z) : list Z :=
  flat_map (fun e => (if src e =? v then [dst e] else []) ++ (if dst e =? v then [src e] else [])) edges.
Definition adjacent (edges : list Edge) (v : Z) : list Z := py_set (neighbors_of edges v).
Definition is_key (v : Z) (visited : list (Z * Z)) : bool := match dict_get v visited with Some _ => true | None => false end.
(** The queue of one component. *)
Fixpoint flood (adj : Z -> list Z) (fuel : nat) (comp_id : Z) (queue : list Z) (visited : list (Z * Z)) : option (list (Z * Z)) :=
  match queue with
  | [] => Some visited
  | curr :: queue =>
      match fuel with
      | O => None
      | S f =>
          if is_key curr visited then flood adj f comp_id queue visited
          else let visited := dict_set curr comp_id visited in
               flood adj f comp_id (queue ++ List.filter (fun n => negb (is_key n visited)) (adj curr)) visited
      end
  end.
Fixpoint label_components (adj : Z -> list Z) (fuel : nat) (nodes : list Z) (comp_id : Z) (visited : list (Z * Z)) : option (list (Z * Z)) :=
  match nodes with
  | [] => Some visited
  | n :: nodes =>
      if is_key n visited then label_components adj fuel nodes comp_id visited
      else match flood adj fuel comp_id [n] visited with
           | Some visited => label_components adj fuel nodes (comp_id + 1) visited
           | None => None
           end
  end.
(** What the queues can grow to: one entry per adjacency. *)
Definition adjacency_count (adj : Z -> list Z) (nodes : list Z) : nat := list_sum (map (fun v => List.length (adj v)) nodes).
Definition connected_components (edges : list Edge) : option (list (Z * Z)) :=
  let nodes := py_set (endpoints edges) in
  let adj := adjacent edges in
  label_components adj (S (adjacency_count adj nodes)) nodes 0 [].
Definition component_sizes (components : list (Z * Z)) : list (Z * Z) := fold_left (fun d c => tally c.2 d) components [].

(** * Communities by label propagation *)
(** [float(weight or 1.0)] *)
Definition edge_weight (e : Edge) : F :=
  match weight e with Some w => if feq w (of_Z 0) then of_Z 1 else w | None => of_Z 1 end.
Definition add_weight (a b : Z) (w : F) (adj : list (Z * list (Z * F))) : list (Z * list (Z * F)) :=
  let row := match dict_get a adj with Some r => r | None => [] end in
  dict_set a (dict_set b (fadd (match dict_get b row with Some x => x | None => of_Z 0 end) w) row) adj.
Definition weighted_adjacency (edges : list Edge) : list (Z * list (Z * F)) :=
  fold_left (fun adj e => add_weight (dst e) (src e) (edge_weight e) (add_weight (src e) (dst e) (edge_weight e) adj)) edges [].
Definition label_of (labels : list (Z * Z)) (v : Z) : Z := match dict_get v labels with Some l => l | None => v end.
Definition label_scores (labels : list (Z * Z)) (row : list (Z * F)) : list (Z * F) :=
  fold_left (fun s nw => let l := label_of labels nw.1 in
                         dict_set l (fadd (match dict_get l s with Some x => x | None => of_Z 0 end) nw.2) s) row [].
(** [max(values)]: the first of the greatest. *)
Definition py_max (l : list F) : option F :=
  match l with [] => None | x :: l => Some (fold_left (fun m y => if flt m y then y else m) l x) end.
Definition least (l : list Z) (d : Z) : Z := match l with [] => d | x :: l => fold_left Z.min l x end.
Definition best_label (labels : list (Z * Z)) (row : list (Z * F)) (own : Z) : Z :=
  let scores := label_scores labels row in
  match py_max (map snd scores) with
  | None => own
  | Some m => least (map fst (List.filter (fun s => feq s.2 m) scores)) own
  end.
(** One pass over the sorted nodes; labels change as it goes. *)
Definition propagate_node (adj : list (Z * list (Z * F))) (st : list (Z * Z) * bool) (node : Z) : list (Z * Z) * bool :=
  match dict_get node adj with
  | None | Some [] => st
  | Some row =>
      let own := label_of st.1 node in
      let best := best_label st.1 row own in
      if best =? own then st else (dict_set node best st.1, true)
  end.
Fixpoint propagate (max_iter : nat) (adj : list (Z * list (Z * F))) (nodes : list Z) (labels : list (Z * Z)) : list (Z * Z) :=
  match max_iter with
  | O => labels
  | S k => let '(labels, changed) := fold_left (propagate_node adj) nodes (labels, false) in
           if changed : bool then propagate k adj nodes labels else labels
  end.
(** The labels renumbered in order of appearance: [len(label_map)] for a new one. *)
Fixpoint renumber (nodes : list Z) (labels : list (Z * Z)) (label_map : list (Z * Z)) : list (Z * Z) :=
  match nodes with
  | [] => []
  | n :: nodes =>
      let l := label_of labels n in
      let label_map := match dict_get l label_map with
                       | Some _ => label_map
                       | None => dict_set l (Z.of_nat (List.length label_map)) label_map
                       end in
      (n, label_of label_map l) :: renumber nodes labels label_map
  end.
Definition detect_communities (edges : list Edge) (max_iter : nat) : list (Z * Z) :=
  let nodes := sort_by Z.leb (first_seen (endpoints edges)) in
  let labels := propagate max_iter (weighted_adjacency edges) nodes (map (fun n => (n, n)) nodes) in
  renumber nodes labels [].

(** * Shortest directed path *)
Record PathResult := mkPath { p_path : list Z; p_relations : list string; p_length : Z }.
Definition Item : Type := Z * list Z * list string.
Inductive Scan := Found (r : PathResult) | Continue (queue : list Item) (visited : list Z).
Fixpoint scan (target : Z) (path : list Z) (rels : list string) (nbrs : list (Z * string)) (queue : list Item) (visited : list Z) : Scan :=
  match nbrs with
  | [] => Continue queue visited
  | (n, r) :: nbrs =>
      if bool_decide (n ∈ visited) then scan target path rels nbrs queue visited
      else if n =? target then Found (mkPath (path ++ [n]) (rels ++ [r]) (Z.of_nat (List.length (path ++ [n])) - 1))
      else scan target path rels nbrs (queue ++ [(n, path ++ [n], rels ++ [r])]) (n :: visited)
  end.
Fixpoint search (adj : Z -> list (Z * string)) (fuel : nat) (target : Z) (queue : list Item) (visited : list Z) : option (option PathResult) :=
  match queue with
  | [] => Some None
  | (curr, path, rels) :: queue =>
      match fuel with
      | O => None
      | S f => match scan target path rels (adj curr) queue visited with
               | Found r => Some (Some r)
               | Continue queue visited => search adj f target queue visited
               end
      end
  end.
Definition out_edges (edges : list Edge) (v : Z) : list (Z * string) :=
  match dict_get v (group_by src edges) with Some l => map (fun e => (dst e, rel e)) l | None => [] end.
(** The outer option is the fuel. *)
Definition shortest_path (source target : Z) (edges : list Edge) : option (option PathResult) :=
  if source =? target then Some (Some (mkPath [source] [] 0))
  else search (out_edges edges) (S (List.length edges)) target [(source, [source], [])] [source].

(** * The relationship graph of the tables (routers/relationships.py) *)
Record Relationship := mkRel {
  re_id : Z; re_org : option Z; re_source : Z; re_target : Z; re_type : string; re_weight : option F;
  re_notes : option string; re_created : Z }.
Record GraphDb := mkGraphDb { entities : list Entity; relationships : list Relationship; rel_seq : Z }.
Definition with_relationships (f : list Relationship -> list Relationship) (d : GraphDb) : GraphDb :=
  mkGraphDb (entities d) (f (relationships d)) (rel_seq d).
Definition entity_model : Model Entity := mkModel "RawEntity" en_id (Some en_org).
Definition rel_model : Model Relationship := mkModel "EntityRelationship" re_id (Some re_org).

Definition fetch_edges (org_id : option Z) (d : GraphDb) : list Edge :=
  map (fun r => (re_source r, re_target r, re_type r, re_weight r)) (scoped re_org org_id (relationships d)).
Definition get_entity (entity_id : Z) (org_id : option Z) (d : GraphDb) : option Entity :=
  List.find (fun e => en_id e =? entity_id) (scoped en_org org_id (entities d)).
Definition entity_missing (entity_id : Z) : exn := HTTPException 404 ("Entity " ++ str_of_Z entity_id ++ " not found").
Definition get_entity_or_404 (entity_id : Z) (org_id : option Z) (d : GraphDb) : res Entity :=
  match get_entity entity_id org_id d with Some e => Ok e | None => Raise (entity_missing entity_id) end.

(** None for the scopes that do not filter. *)
Definition normalize_graph_domain (domain : option string) : option string :=
  match domain with
  | None | Some "" => None
  | Some raw =>
      let value := strip raw in
      if negb (truthy value) then None
      else let scope := parse_scope (Some value) in
           if startswith scope DOMAIN_PREFIX then Some (drop_str (String.length DOMAIN_PREFIX) scope) else None
  end.
Definition filter_edges_by_domain (edges : list Edge) (org_id : option Z) (domain : option string) (d : GraphDb) : list Edge :=
  match normalize_graph_domain domain, edges with
  | Some dom, _ :: _ =>
      if truthy dom then
        let in_domain v := existsb (fun e => (en_id e =? v) && bool_decide (column "domain" e = Some dom)) (scoped en_org org_id (entities d)) in
        List.filter (fun e => in_domain (src e) && in_domain (dst e)) edges
      else edges
  | _, _ => edges
  end.
(** [GET /graph/path]: None when there is no path; each step with its label. *)
Definition label_in (org_id : option Z) (d : GraphDb) (v : Z) : option string :=
  match get_entity v org_id d with Some e => column "primary_label" e | None => None end.
Definition get_shortest_path (from_id to_id : Z) (domain : option string) (org_id : option Z) (d : GraphDb)
    : option (res (option (PathResult * list (Z * option string)))) :=
  if from_id =? to_id then Some (Raise (HTTPException 400 "from_id and to_id must be different"))
  else match get_entity_or_404 from_id org_id d, get_entity_or_404 to_id org_id d with
       | Raise e, _ => Some (Raise e)
       | _, Raise e => Some (Raise e)
       | _, _ =>
           let edges := filter_edges_by_domain (fetch_edges org_id d) org_id (normalize_graph_domain domain) d in
           match shortest_path from_id to_id edges with
           | None => None
           | Some None => Some (Ok None)
           | Some (Some r) => Some (Ok (Some (r, map (fun v => (v, label_in org_id d v)) (p_path r))))
           end
       end.
(** [GET /graph/components]: size and members, largest first. *)
Definition get_graph_components (org_id : option Z) (d : GraphDb) : option (list (Z * Z * list Z)) :=
  match connected_components (fetch_edges org_id d) with
  | None => None
  | Some node_to_comp =>
      let members c := map fst (List.filter (fun nc => nc.2 =? c) node_to_comp) in
      Some (map (fun cs => (cs.1, cs.2, sort_by Z.leb (members cs.1)))
              (sort_by (fun a b => b.2 <=? a.2) (component_sizes node_to_comp)))
  end.

(** ** The subgraph around an entity *)
Definition NODE_CAP : nat := 50.
Definition touching (org_id : option Z) (d : GraphDb) (v : Z) : list Relationship :=
  List.filter (fun r => (re_source r =? v) || (re_target r =? v)) (scoped re_org org_id (relationships d)).
Definition other_end (v : Z) (r : Relationship) : Z := if re_source r =? v then re_target r else re_source r.
Definition visited_in (visited : list Z) (v : Z) : bool := bool_decide (v ∈ visited).
Fixpoint explore (rels_of : Z -> list Relationship) (depth : Z) (fuel : nat) (queue : list (Z * Z)) (visited : list Z)
    (collected : list Relationship) : option (list Z * list Relationship) :=
  match queue with
  | [] => Some (visited, collected)
  | (current_id, current_depth) :: queue =>
      if negb (List.length visited <? NODE_CAP)%nat then Some (visited, collected)
      else match fuel with
           | O => None
           | S f =>
               if visited_in visited current_id then explore rels_of depth f queue visited collected
               else
                 let visited := current_id :: visited in
                 if depth <=? current_depth then explore rels_of depth f queue visited collected
                 else
                   let rels := rels_of current_id in
                   let open v := negb (visited_in visited v) && (List.length visited <? NODE_CAP)%nat in
                   explore rels_of depth f
                     (queue ++ map (fun v => (v, current_depth + 1)) (List.filter open (map (other_end current_id) rels)))
                     visited (collected ++ rels)
           end
  end.
Fixpoint unique_edges (seen : list Z) (l : list Relationship) : list Relationship :=
  match l with
  | [] => []
  | r :: l => if visited_in seen (re_id r) then unique_edges seen l else r :: unique_edges (re_id r :: seen) l
  end.
Record GraphNode := mkNode { gn_id : Z; gn_label : string; gn_type : option string; gn_domain : option string; gn_center : bool }.
Definition graph_node (entity_id : Z) (org_id : option Z) (d : GraphDb) (v : Z) : GraphNode :=
  let fallback := ("Entity #" ++ str_of_Z v)%string in
  match get_entity v org_id d with
  | Some e => mkNode v (match column "primary_label" e with Some l => if truthy l then l else fallback | None => fallback end)
                (column "entity_type" e) (column "domain" e) (v =? entity_id)
  | None => mkNode v fallback None None (v =? entity_id)
  end.
(** One entry per relationship that the queue can get from every endpoint. *)
Definition explore_fuel (org_id : option Z) (d : GraphDb) : nat :=
  S (list_sum (map (fun v => List.length (touching org_id d v)) (first_seen (endpoints (fetch_edges org_id d))))).
Definition get_entity_graph (entity_id depth : Z) (org_id : option Z) (d : GraphDb) : option (res (list GraphNode * list Relationship)) :=
  match get_entity_or_404 entity_id org_id d with
  | Raise e => Some (Raise e)
  | Ok _ =>
      match explore (touching org_id d) depth (explore_fuel org_id d) [(entity_id, 0)] [] [] with
      | None => None
      | Some (visited, collected) =>
          let visited := rev visited in
          let edges := List.filter (fun r => visited_in visited (re_source r) && visited_in visited (re_target r)) (unique_edges [] collected) in
          Some (Ok (map (graph_node entity_id org_id d) (set_order visited), edges))
      end
  end.

(** ** Listing, creating and deleting *)
Definition list_relationships (entity_id : Z) (org_id : option Z) (d : GraphDb) : res (list Relationship) :=
  let? _ := get_entity_or_404 entity_id org_id d in
  Ok (sort_by (fun a b => re_created b <=? re_created a) (touching org_id d entity_id)).
Definition VALID_RELATION_TYPES : list string :=
  ["cites"; "authored-by"; "belongs-to"; "related-to"; "published-in"; "has-concept"; "identified-by"; "coauthor-with";
   "keyword-co-occurs-with"; "same-as"; "equivalent-to"; "external-signal-for"; "semantic-neighbor"; "derived-keyword"; "emerging-from"].
Record RelCreate := mkRelCreate { rc_target : Z; rc_type : string; rc_weight : F; rc_notes : option string }.
Definition valid_payload (p : RelCreate) : bool := let w := rc_weight p in
  (1 <=? rc_target p) && bool_decide (rc_type p ∈ VALID_RELATION_TYPES)
  && (flt (of_Z 0) w || feq w (of_Z 0)) && (flt w (of_Z 10) || feq w (of_Z 10))
  && match rc_notes p with Some n => (String.length n <=? 500)%nat | None => true end.
Definition same_relation (s t : Z) (ty : string) (r : Relationship) : bool :=
  (re_source r =? s) && (re_target r =? t) && bool_decide (re_type r = ty).
Definition create_relationship (tenants : Tenants) (p : RelCreate) (entity_id now : Z) (user : User) : M GraphDb Relationship :=
  do! user <- mlift (require_role EDITORS user);
  if negb (valid_payload p) then mraise (HTTPException 422 "Unprocessable Entity")
  else
    do! org_id <- mlift (resolve_request_org_id tenants user true true);
    do! d <- mget;
    do! source <- mlift (get_entity_or_404 entity_id org_id d);
    do! _ <- mlift (get_entity_or_404 (rc_target p) org_id d);
    if entity_id =? rc_target p then mraise (HTTPException 400 "Self-referential relationships are not allowed.")
    else if existsb (same_relation entity_id (rc_target p) (rc_type p)) (scoped re_org org_id (relationships d))
    then mraise (HTTPException 409 "This relationship already exists.")
    else
      let r := mkRel (rel_seq d + 1) (en_org source) entity_id (rc_target p) (rc_type p) (Some (rc_weight p)) (rc_notes p) now in
      run! mmodify (fun d => mkGraphDb (entities d) (relationships d ++ [r]) (rel_seq d + 1));
      run! commit;
      mret r.
Definition delete_relationship (tenants : Tenants) (rel_id : Z) (user : User) : M GraphDb unit :=
  do! org_id <- mlift (editor_scope tenants user);
  do! d <- mget;
  match List.find (fun r => re_id r =? rel_id) (scoped re_org org_id (relationships d)) with
  | None => mraise (HTTPException 404 "Relationship not found")
  | Some r => run! mmodify (with_relationships (List.filter (fun x => negb (re_id x =? re_id r)))); commit
  end.
End graph.
