(* ===== verification/GraphPaths.v ===== *)
(** * Theorems on paths and neighbourhoods of the relationship graph

    The breadth-first searches against their specifications: the shortest directed
    path, and the subgraph of an entity. Both end on the fuel they are given. *)
From stdpp Require Import relations.
From S2P Require Import Prelude PyStr TenantAccess Entities UnionFind Graph.
From Stdlib Require Import String.

Local Open Scope string_scope.
Local Open Scope list_scope.
Local Open Scope Z_scope.

Section paths.
Context {F : Type} (edges : list (Edge (F := F))).

(** A walk: its nodes and the relation of each of its edges. *)
Inductive walk : list Z -> list string -> Prop :=
  | walk_one v : walk [v] []
  | walk_edge u v p r rs w : In (u, v, r, w) edges -> walk (v :: p) rs -> walk (u :: v :: p) (r :: rs).
Definition walks (s t : Z) (p : list Z) (rs : list string) : Prop := walk p rs /\ head p = Some s /\ last p = Some t.
Definition links (u v : Z) : Prop := exists r w, In (u, v, r, w) edges.

Lemma walk_snoc p rs u v r w : walk p rs -> last p = Some u -> In (u, v, r, w) edges -> walk (p ++ [v]) (rs ++ [r]).
Proof.
  induction 1 as [x|x y p q rs w' He Hp IH]; cbn.
  - intros [= ->] H. eapply walk_edge; [exact H|constructor].
  - intros Hl H. eapply walk_edge; [exact He|]. apply IH; [|done]. by destruct p.
Qed.
Lemma walk_nsteps p rs s t : walks s t p rs -> nsteps links (List.length rs) s t.
Proof.
  intros (Hw & Hs & Ht). revert s Hs. induction Hw as [x|x y p r rs w He Hp IH]; intros s [= <-].
  - injection Ht as <-. constructor.
  - econstructor; [by exists r, w|]. apply IH; [by rewrite last_cons_cons in Ht|done].
Qed.
Lemma walk_length p rs : walk p rs -> List.length p = S (List.length rs).
Proof. induction 1; cbn in *; congruence. Qed.
Lemma out_edges_spec u v r : In (v, r) (out_edges edges u) <-> exists w, In (u, v, r, w) edges.
Proof.
  unfold out_edges. rewrite group_by_get. cbn zeta. set (m := List.filter _ edges).
  assert (Hm : forall e, In e m <-> In e edges /\ src e = u) by (intros e; unfold m; by rewrite filter_In, bool_decide_eq_true).
  assert (Hin : In (v, r) (map (fun e => (dst e, rel e)) m) <-> exists w, In (u, v, r, w) edges).
  { rewrite in_map_iff. split.
    - intros ([[[a b] q] w] & [= <- <-] & [He <-]%Hm). by exists w.
    - intros [w He]. exists (u, v, r, w). split; [done|]. by apply Hm. }
  destruct m; [|exact Hin]. rewrite <- Hin. done.
Qed.

(** ** The search *)
Context (source target : Z).
Definition exact (d : nat) (v : Z) : Prop := nsteps links d source v /\ forall m, nsteps links m source v -> (d <= m)%nat.
Definition depth_of (i : Item) : nat := List.length i.2.
Definition item_ok (i : Item) : Prop := walks source i.1.1 i.1.2 i.2 /\ exact (depth_of i) i.1.1.
(** The queue's depths are in order and span at most one step. *)
Definition level (d : nat) (queue : list Item) : Prop :=
  StronglySorted (fun a b => (depth_of a <= depth_of b)%nat) queue /\ Forall (fun i => (d <= depth_of i <= S d)%nat) queue.
Definition closed (visited : list Z) (v : Z) : Prop := forall w, links v w -> w ∈ visited.

Record search_inv (queue : list Item) (visited : list Z) : Prop := {
  si_source : source ∈ visited;
  si_target : target ∉ visited;
  si_nodup : NoDup visited;
  si_nodes : forall v, v ∈ visited -> v = source \/ In v (map dst edges);
  si_queue : forall i, In i queue -> i.1.1 ∈ visited /\ item_ok i;
  si_closed : forall v, v ∈ visited -> v ∈ map (fun i => i.1.1) queue \/ closed visited v
}.
(** What is nearer than the queue has been visited. *)
Lemma near_visited queue visited d n v :
  source ∈ visited -> (forall i, In i queue -> (d <= depth_of i)%nat /\ item_ok i) ->
  (forall v, v ∈ visited -> v ∈ map (fun i => i.1.1) queue \/ closed visited v) ->
  nsteps links n source v -> (n <= d)%nat -> v ∈ visited.
Proof.
  intros Hs Hq Hc. revert v. induction n as [|n IH]; intros v Hn Hd.
  - by inversion Hn; subst.
  - apply nsteps_inv_r in Hn as (u & Hu & Huv). assert (Hv : u ∈ visited) by (apply IH; [done|lia]).
    destruct (Hc u Hv) as [Hin|Hcl]; [|by apply Hcl]. exfalso.
    apply list_elem_of_In, in_map_iff in Hin as (i & <- & Hi). destruct (Hq i Hi) as [H1 [_ [_ H2]]]. specialize (H2 n Hu). lia.
Qed.

(** ** Scanning the neighbours of the node that was popped *)
Section scan.
Context (curr : Z) (path : list Z) (rels : list string) (Hitem : item_ok (curr, path, rels)).
Let d : nat := List.length rels.
Record scan_inv (nbrs : list (Z * string)) (queue : list Item) (visited : list Z) : Prop := {
  sc_source : source ∈ visited;
  sc_target : target ∉ visited;
  sc_nodup : NoDup visited;
  sc_nodes : forall v, v ∈ visited -> v = source \/ In v (map dst edges);
  sc_queue : forall i, In i queue -> i.1.1 ∈ visited /\ item_ok i;
  sc_level : level d queue;
  sc_closed : forall v, v ∈ visited -> v ∈ map (fun i => i.1.1) ((curr, path, rels) :: queue) \/ closed visited v;
  sc_todo : forall n r, In (n, r) nbrs -> In (n, r) (out_edges edges curr);
  sc_done : forall n r, In (n, r) (out_edges edges curr) -> In (n, r) nbrs \/ n ∈ visited
}.
Definition found_ok (r : PathResult) : Prop :=
  walks source target (p_path r) (p_relations r) /\ p_length r = Z.of_nat (List.length (p_relations r))
  /\ exact (List.length (p_relations r)) target.

Lemma new_item nbrs queue visited n r :
  scan_inv ((n, r) :: nbrs) queue visited -> n ∉ visited ->
  exists w, In (curr, n, r, w) edges /\ item_ok (n, path ++ [n], rels ++ [r]).
Proof.
  intros H Hn. destruct (proj1 (out_edges_spec curr n r) (sc_todo _ _ _ H n r (or_introl eq_refl))) as [w Hw].
  exists w. split; [done|]. destruct Hitem as [(Hp & Hs & Ht) _]. cbn in Hp, Hs, Ht.
  assert (Hwalk : walks source n (path ++ [n]) (rels ++ [r])).
  { split; [by eapply walk_snoc|]. split; [by destruct path|]. apply last_snoc. }
  split; [exact Hwalk|]. split; [exact (walk_nsteps _ _ _ _ Hwalk)|].
  intros m Hm. unfold depth_of. cbn. rewrite length_app. cbn. destruct (decide (m <= d)%nat) as [Hle|]; [|unfold d in *; lia].
  exfalso. apply Hn. eapply (near_visited ((curr, path, rels) :: queue) visited d m n); [apply H| |apply H|done|done].
  intros i [<-|Hi]; [by split|]. destruct (sc_level _ _ _ H) as [_ Hl]. rewrite Forall_forall in Hl.
  split; [apply Hl, list_elem_of_In, Hi|by apply (sc_queue _ _ _ H)].
Qed.
Lemma scan_push nbrs queue visited n r :
  scan_inv ((n, r) :: nbrs) queue visited -> n ∉ visited -> n <> target ->
  scan_inv nbrs (queue ++ [(n, path ++ [n], rels ++ [r])]) (n :: visited).
Proof.
  intros H Hn Ht. destruct (new_item _ _ _ _ _ H Hn) as (w & Hw & Hnew). destruct H as [H1 H2 H3 H4 H5 [H6a H6b] H7 H8 H9].
  assert (Hd : depth_of (n, path ++ [n], rels ++ [r]) = S d) by (unfold depth_of; cbn; rewrite length_app; cbn; unfold d; lia).
  split.
  - by right.
  - intros [E|E]%elem_of_cons; [by apply Ht|done].
  - by constructor.
  - intros v [->|Hv]%elem_of_cons; [right|by apply H4]. apply in_map_iff. by exists (curr, n, r, w).
  - intros i [Hi|[<-|[]]]%in_app_or; [destruct (H5 i Hi); split; [by right|done]|by split; [left|]].
  - rewrite Forall_forall in H6b. split.
    + apply StronglySorted_app_2; [intros a b Ha%H6b ->%list_elem_of_singleton; lia|done|repeat constructor].
    + rewrite Forall_forall. intros i [Hi| ->%list_elem_of_singleton]%elem_of_app; [by apply H6b|lia].
  - intros v [->|Hv]%elem_of_cons.
    + left. cbn. right. rewrite map_app. apply elem_of_app. right. by left.
    + destruct (H7 v Hv) as [Hq|Hc]; [left|right; intros x Hx; right; by apply Hc].
      cbn in *. rewrite map_app. apply elem_of_cons in Hq as [->|Hq]; [by left|]. right. apply elem_of_app. by left.
  - intros x q Hx. apply H8. by right.
  - intros x q [[E|Hx]|Hx]%H9; [injection E as -> ->; right; by left|by left|right; by right].
Qed.
Lemma scan_spec nbrs : forall queue visited, scan_inv nbrs queue visited ->
  match scan target path rels nbrs queue visited with
  | Found r => found_ok r
  | Continue queue' visited' => scan_inv [] queue' visited' /\ (List.length visited' + List.length queue = List.length visited + List.length queue')%nat
  end.
Proof.
  induction nbrs as [|[n r] nbrs IH]; intros queue visited H; cbn [scan]; [done|].
  case_bool_decide as Hn.
  - apply IH. destruct H. split; try done; [intros; apply sc_todo0; by right|].
    intros x q [[E|Hx]|Hx]%sc_done0; [injection E as -> ->; by right|by left|by right].
  - destruct (n =? target) eqn:E.
    + apply Z.eqb_eq in E as ->. destruct (new_item _ _ _ _ _ H Hn) as (w & Hw & [H1 H2]).
      split; [exact H1|]. split; [|exact H2]. cbn in *. destruct H1 as [Hw1 _]. apply walk_length in Hw1. cbn in Hw1. rewrite Hw1. lia.
    + apply Z.eqb_neq in E. specialize (IH _ _ (scan_push _ _ _ _ _ H Hn E)).
      destruct (scan _ _ _ nbrs _ _); [done|]. destruct IH as [IH1 IH2]. split; [done|]. rewrite length_app in IH2. cbn in IH2. lia.
Qed.
End scan.

Lemma visited_bound queue visited : search_inv queue visited -> (List.length visited <= S (List.length edges))%nat.
Proof.
  intros H. rewrite <- (length_map dst edges). change (S (List.length (map dst edges))) with (List.length (source :: map dst edges)).
  apply NoDup_incl_length; [apply NoDup_ListNoDup, H|]. intros v Hv%list_elem_of_In. destruct (si_nodes _ _ H v Hv) as [->|]; [by left|by right].
Qed.
(** Popping the head leaves a scan to do. *)
Lemma pop_scan curr path rels queue visited d :
  search_inv ((curr, path, rels) :: queue) visited -> level d ((curr, path, rels) :: queue) ->
  item_ok (curr, path, rels) /\ scan_inv curr path rels (out_edges edges curr) queue visited.
Proof.
  intros H [Hs Hl]. destruct (si_queue _ _ H (curr, path, rels)) as [_ Hitem]; [by left|]. split; [done|].
  apply StronglySorted_inv in Hs as [Hs Hhd]. rewrite Forall_forall in Hhd. apply Forall_cons in Hl as [Hd Hl].
  rewrite Forall_forall in Hl. destruct H as [H1 H2 H3 H4 H5 H6]. split; try done.
  - intros i Hi. apply H5. by right.
  - split; [done|]. rewrite Forall_forall. intros i Hi. specialize (Hhd i Hi). specialize (Hl i Hi). unfold depth_of in *. cbn in *. lia.
  - by left.
Qed.
Lemma scan_search curr path rels queue visited :
  scan_inv curr path rels [] queue visited -> search_inv queue visited.
Proof.
  intros [H1 H2 H3 H4 H5 H6 H7 _ H9]. split; try done. intros v Hv. destruct (H7 v Hv) as [Hq|Hc]; [|by right].
  cbn in Hq. apply elem_of_cons in Hq as [->|Hq]; [right|by left].
  intros w (r & x & Hw). destruct (H9 w r) as [[]|]; [|done]. apply out_edges_spec. by exists x.
Qed.
Lemma search_spec fuel : forall queue visited d, search_inv queue visited -> level d queue ->
  (S (List.length edges) - List.length visited + List.length queue <= fuel)%nat ->
  match search (out_edges edges) fuel target queue visited with
  | Some (Some r) => found_ok r
  | Some None => forall p rs, ~ walks source target p rs
  | None => False
  end.
Proof.
  induction fuel as [|f IH]; intros [|[[curr path] rels] queue] visited d H Hl Hf; cbn [search]; try (cbn in Hf; lia).
  1-2: intros p rs Hw; apply (si_target _ _ H); apply walk_nsteps in Hw;
    eapply (near_visited [] visited _ _ target (si_source _ _ H)); [intros i []|exact (si_closed _ _ H)|exact Hw|done].
  destruct (pop_scan _ _ _ _ _ _ H Hl) as [Hitem Hscan].
  pose proof (scan_spec curr path rels Hitem (out_edges edges curr) queue visited Hscan) as Hs.
  destruct (scan _ _ _ _ _ _) as [r|queue' visited']; [exact Hs|]. destruct Hs as [Hs Hlen].
  apply (IH queue' visited' (List.length rels)); [by eapply scan_search|by apply (sc_level _ _ _ _ _ _ Hs)|].
  pose proof (visited_bound _ _ (scan_search _ _ _ _ _ Hs)). pose proof (visited_bound _ _ H). cbn [List.length] in Hf. lia.
Qed.
End paths.

(** C10: the path endpoint's search is exact. It always ends; when it answers, the
    nodes and relations are a walk of the given edges from the source to the target
    of the stated length, and no walk between them is shorter; when it answers
    nothing, there is none. *)
Theorem shortest_path_exact {F} (edges : list (Edge (F := F))) source target :
  match shortest_path source target edges with
  | Some (Some r) => walks edges source target (p_path r) (p_relations r)
                     /\ p_length r = Z.of_nat (List.length (p_relations r))
                     /\ forall p rs, walks edges source target p rs -> (List.length (p_relations r) <= List.length rs)%nat
  | Some None => forall p rs, ~ walks edges source target p rs
  | None => False
  end.
Proof.
  unfold shortest_path. destruct (source =? target) eqn:E.
  - apply Z.eqb_eq in E as ->. cbn. split; [split; [constructor|done]|]. split; [done|]. intros. lia.
  - apply Z.eqb_neq in E.
    assert (Hexact : exact edges source 0 source) by (split; [constructor|lia]).
    assert (Hinv : search_inv edges source target [(source, [source], [])] [source]).
    { split; [by left|by intros ->%list_elem_of_singleton|apply NoDup_singleton|..].
      - intros v ->%list_elem_of_singleton. by left.
      - intros i [<-|[]]. split; [by left|]. split; [|exact Hexact]. split; [constructor|done].
      - intros v ->%list_elem_of_singleton. left. by left. }
    assert (Hlevel : level 0 [(source, [source], [] : list string)]) by (split; repeat constructor).
    pose proof (search_spec edges source target (S (List.length edges)) _ _ 0 Hinv Hlevel) as H. cbn [List.length] in H.
    destruct (search _ _ _ _ _) as [[r|]|]; try (apply H; lia).
    destruct H as (H1 & H2 & _ & H3); [lia|]. split; [done|]. split; [done|]. intros p rs Hw. apply H3. by eapply walk_nsteps.
Qed.

(** * What a queue can still grow by *)
Section pending.
Context (weight_of : Z -> nat).
Definition pending (seen : Z -> bool) (nodes : list Z) : nat := list_sum (map (fun v => if seen v then 0%nat else weight_of v) nodes).
Lemma pending_mono seen seen' nodes : (forall v, seen v = true -> seen' v = true) -> (pending seen' nodes <= pending seen nodes)%nat.
Proof.
  intros H. unfold pending, list_sum. induction nodes as [|v nodes IH]; cbn [map fold_right]; [done|].
  destruct (seen v) eqn:E; [rewrite (H v E); lia|]. destruct (seen' v); lia.
Qed.
Lemma pending_visit seen seen' nodes u : (forall v, seen v = true -> seen' v = true) -> seen u = false -> seen' u = true ->
  u ∈ nodes \/ weight_of u = 0%nat -> (pending seen' nodes + weight_of u <= pending seen nodes)%nat.
Proof.
  intros H Hu Hu' [Hin|H0]; [|pose proof (pending_mono seen seen' nodes H); lia].
  induction nodes as [|v nodes IH]; [by apply elem_of_nil in Hin|]. pose proof (pending_mono seen seen' nodes H) as Hm.
  unfold pending, list_sum in *. cbn [map fold_right].
  apply elem_of_cons in Hin as [<-|Hin]; [rewrite Hu, Hu'; lia|]. specialize (IH Hin).
  destruct (seen v) eqn:E; [rewrite (H v E); lia|]. destruct (seen' v); lia.
Qed.
End pending.

(** * The subgraph of an entity *)
Section explore.
Context {F : Type} (rels_of : Z -> list (Relationship (F := F))) (start depth : Z) (Hdepth : 0 <= depth).
Definition near (v w : Z) : Prop := In w (map (other_end v) (rels_of v)).
Definition exactly (n : nat) (v : Z) : Prop := nsteps near n start v /\ forall m, nsteps near m start v -> (n <= m)%nat.
Definition ordered (queue : list (Z * Z)) : Prop :=
  StronglySorted (fun a b => a.2 <= b.2) queue /\ exists k, Forall (fun i => k <= i.2 <= k + 1) queue.

Record sound (queue : list (Z * Z)) (visited : list Z) (collected : list Relationship) : Prop := {
  ex_nodup : NoDup visited;
  ex_size : (List.length visited <= NODE_CAP)%nat;
  ex_queue : forall v k, In (v, k) queue -> 0 <= k <= depth /\ nsteps near (Z.to_nat k) start v;
  ex_visited : forall v, v ∈ visited -> exists n, Z.of_nat n <= depth /\ exactly n v
                 /\ (Z.of_nat n < depth -> forall r, In r (rels_of v) -> In r collected);
  ex_edges : forall r, In r collected -> exists v n, v ∈ visited /\ exactly n v /\ Z.of_nat n < depth /\ In r (rels_of v)
}.
Record complete (queue : list (Z * Z)) (visited : list Z) : Prop := {
  co_start : start ∈ visited \/ In (start, 0) queue;
  co_order : ordered queue;
  co_next : forall v n w, v ∈ visited -> exactly n v -> Z.of_nat n < depth -> near v w ->
    w ∈ visited \/ exists k, In (w, k) queue /\ k <= Z.of_nat n + 1
}.
Lemma nearer_visited queue visited collected n v : sound queue visited collected -> complete queue visited ->
  nsteps near n start v -> Z.of_nat n <= depth -> (forall w k, In (w, k) queue -> Z.of_nat n < k) -> v ∈ visited.
Proof.
  intros Hs Hc. revert v. induction n as [|n IH]; intros v Hn Hd Hq.
  - inversion Hn; subst. destruct (co_start _ _ Hc) as [|H]; [done|]. specialize (Hq _ _ H). lia.
  - apply nsteps_inv_r in Hn as (u & Hu & Huv).
    assert (Hv : u ∈ visited) by (apply IH; [done|lia|intros w k H; specialize (Hq w k H); lia]).
    destruct (ex_visited _ _ _ Hs u Hv) as (l & Hl & Hex & _). pose proof (proj2 Hex n Hu) as Hle.
    destruct (co_next _ _ Hc u l v Hv Hex ltac:(lia) Huv) as [|(k & Hk & Hk')]; [done|]. specialize (Hq _ _ Hk). lia.
Qed.
(** What the loop ends with. *)
Definition explored (visited : list Z) (collected : list Relationship) : Prop :=
  sound [] visited collected
  /\ forall ball, (forall n v, Z.of_nat n <= depth -> nsteps near n start v -> v ∈ ball) -> (List.length ball <= NODE_CAP)%nat ->
     forall n v, Z.of_nat n <= depth -> nsteps near n start v -> v ∈ visited.
Lemma sound_end queue visited collected : sound queue visited collected -> sound [] visited collected.
Proof. intros [H1 H2 _ H4 H5]. split; try done. Qed.
Lemma full_visited queue visited collected : sound queue visited collected -> ~ (List.length visited < NODE_CAP)%nat -> explored visited collected.
Proof.
  intros Hs Hn. split; [by eapply sound_end|]. intros ball Hball Hlen n v Hd Hv.
  assert (Hincl : incl visited ball).
  { intros x Hx%list_elem_of_In. destruct (ex_visited _ _ _ Hs x Hx) as (m & Hm & [Hx' _] & _). apply list_elem_of_In. by eapply Hball. }
  apply list_elem_of_In. eapply (NoDup_length_incl (l' := ball)); [apply NoDup_ListNoDup, Hs|lia|exact Hincl|].
  apply list_elem_of_In. by eapply Hball.
Qed.
Lemma empty_visited visited collected : sound [] visited collected -> complete [] visited -> explored visited collected.
Proof. intros Hs Hc. split; [done|]. intros ball _ _ n v Hd Hv. by eapply (nearer_visited [] visited collected n v Hs Hc). Qed.
Lemma pop_exact u k queue visited collected : sound ((u, k) :: queue) visited collected -> complete ((u, k) :: queue) visited ->
  u ∉ visited -> exactly (Z.to_nat k) u.
Proof.
  intros Hs Hc Hu. destruct (ex_queue _ _ _ Hs u k (or_introl eq_refl)) as [Hk Hn]. split; [done|]. intros m Hm.
  destruct (decide (Z.to_nat k <= m)%nat) as [|Hlt]; [done|]. exfalso. apply Hu. eapply nearer_visited; [exact Hs|exact Hc|exact Hm|lia|].
  destruct (co_order _ _ Hc) as [Ho _]. apply StronglySorted_inv in Ho as [_ Ho]. rewrite Forall_forall in Ho.
  intros w j [[= -> ->]|Hj]; [lia|]. specialize (Ho _ (proj2 (list_elem_of_In _ _) Hj)). cbn in Ho. lia.
Qed.
Lemma ordered_tail i queue : ordered (i :: queue) -> ordered queue.
Proof. intros [H1 [k H2]]. apply StronglySorted_inv in H1 as [H1 _]. apply Forall_cons in H2 as [_ H2]. split; [done|by exists k]. Qed.
Lemma ordered_push u k queue ws : ordered ((u, k) :: queue) -> ordered (queue ++ map (fun v => (v, k + 1)) ws).
Proof.
  intros [H1 [j H2]]. apply StronglySorted_inv in H1 as [H1 H1']. apply Forall_cons in H2 as [H2 H2']. cbn in *.
  rewrite Forall_forall in H1', H2'. split.
  - apply StronglySorted_app_2; [|done|].
    + intros a b Ha Hb%list_elem_of_In. apply in_map_iff in Hb as (w & <- & _). cbn. specialize (H2' a Ha). lia.
    + clear. induction ws as [|w ws IH]; constructor; [done|]. rewrite Forall_forall. intros a Ha%list_elem_of_In.
      apply in_map_iff in Ha as (x & <- & _). cbn. lia.
  - exists k. rewrite Forall_forall. intros a [Ha|Ha%list_elem_of_In]%elem_of_app.
    + specialize (H1' a Ha). specialize (H2' a Ha). cbn in *. lia.
    + apply in_map_iff in Ha as (w & <- & _). cbn. lia.
Qed.

Lemma exactly_unique n m v : exactly n v -> exactly m v -> n = m.
Proof. intros [H1 H2] [H3 H4]. specialize (H2 _ H3). specialize (H4 _ H1). lia. Qed.
Lemma sound_tail i queue visited collected : sound (i :: queue) visited collected -> sound queue visited collected.
Proof. intros [H1 H2 H3 H4 H5]. split; try done. intros v k Hi. apply H3. by right. Qed.
Lemma complete_tail u k queue visited : u ∈ visited -> complete ((u, k) :: queue) visited -> complete queue visited.
Proof.
  intros Hu [H1 H2 H3]. split; [|by eapply ordered_tail|].
  - destruct H1 as [|[[= -> ->]|H1]]; auto.
  - intros v n w Hv Hn Hd Hw. destruct (H3 v n w Hv Hn Hd Hw) as [|(j & [[= -> ->]|Hj] & Hle)]; [by left|by left|right; by exists j].
Qed.
(** The popped node is visited; it is expanded below the depth. *)
Lemma sound_visit u k queue visited collected : sound ((u, k) :: queue) visited collected -> complete ((u, k) :: queue) visited ->
  u ∉ visited -> (List.length visited < NODE_CAP)%nat ->
  forall queue' collected',
  (forall r, In r collected -> In r collected') -> (k < depth -> forall r, In r (rels_of u) -> In r collected') ->
  (forall r, In r collected' -> In r collected \/ (k < depth /\ In r (rels_of u))) ->
  (forall w j, In (w, j) queue' -> In (w, j) queue \/ (k < depth /\ near u w /\ j = k + 1)) ->
  sound queue' (u :: visited) collected'.
Proof.
  intros Hs Hc Hu Hlen queue' collected' Hsub Hnew Hfrom Hq. pose proof (pop_exact _ _ _ _ _ Hs Hc Hu) as Hex.
  destruct (ex_queue _ _ _ Hs u k (or_introl eq_refl)) as [Hk Hn]. destruct Hs as [H1 H2 H3 H4 H5]. split.
  - by constructor.
  - cbn. lia.
  - intros w j [Hj|(Hd & Hw & ->)]%Hq; [apply H3; by right|]. split; [lia|].
    rewrite Z.add_1_r, Z2Nat.inj_succ by lia. by eapply nsteps_r.
  - intros v [->|Hv]%elem_of_cons.
    + exists (Z.to_nat k). rewrite Z2Nat.id by lia. split; [lia|]. by split.
    + destruct (H4 v Hv) as (n & Hd & He & Hr). exists n. split; [done|]. split; [done|]. eauto.
  - intros r [Hr|[Hd Hr]]%Hfrom.
    + destruct (H5 r Hr) as (v & n & Hv & Hr'). exists v, n. split; [by right|done].
    + exists u, (Z.to_nat k). rewrite Z2Nat.id by lia. split; [by left|]. split_and!; done.
Qed.
Lemma complete_visit u k queue visited collected queue' : sound ((u, k) :: queue) visited collected -> complete ((u, k) :: queue) visited ->
  u ∉ visited -> ordered queue' -> (forall i, In i queue -> In i queue') ->
  (k < depth -> forall w, near u w -> w ∈ u :: visited \/ In (w, k + 1) queue') ->
  complete queue' (u :: visited).
Proof.
  intros Hs Hc Hu Ho Hsub Hnear. pose proof (pop_exact _ _ _ _ _ Hs Hc Hu) as Hex.
  destruct (ex_queue _ _ _ Hs u k (or_introl eq_refl)) as [Hk Hn]. destruct Hc as [H1 H2 H3]. split; [|done|].
  - destruct H1 as [|[[= -> ->]|H1]]; [left; by right|left; by left|right; by apply Hsub].
  - intros v n w [->|Hv]%elem_of_cons Hn' Hd Hw.
    + rewrite (exactly_unique _ _ _ Hn' Hex) in *. rewrite Z2Nat.id in * by lia.
      destruct (Hnear Hd w Hw) as [|Hin]; [by left|right]. exists (k + 1). split; [done|lia].
    + destruct (H3 v n w Hv Hn' Hd Hw) as [|(j & [[= -> ->]|Hj] & Hle)]; [left; by right|left; by left|right; exists j; auto].
Qed.
Context (nodes : list Z) (Hnodes : forall u, u ∈ nodes \/ rels_of u = []).
Notation load := (pending (fun v => List.length (rels_of v))).
Lemma load_visit u visited : u ∉ visited ->
  (load (visited_in (u :: visited)) nodes + List.length (rels_of u) <= load (visited_in visited) nodes)%nat.
Proof.
  intros Hu. apply (pending_visit (fun v => List.length (rels_of v))).
  - intros v. unfold visited_in. rewrite !bool_decide_eq_true. by right.
  - by apply bool_decide_eq_false.
  - apply bool_decide_eq_true. by left.
  - destruct (Hnodes u) as [|E]; [by left|right; by rewrite E].
Qed.
Lemma explore_spec fuel : forall queue visited collected, sound queue visited collected ->
  ((List.length visited < NODE_CAP)%nat -> complete queue visited) ->
  (List.length queue + load (visited_in visited) nodes <= fuel)%nat ->
  exists visited' collected', explore rels_of depth fuel queue visited collected = Some (visited', collected') /\ explored visited' collected'.
Proof.
  induction fuel as [|f IH]; intros [|[u k] queue] visited collected Hs Hc Hf; cbn [explore]; try (cbn in Hf; lia).
  1-2: exists visited, collected; split; [done|];
    destruct (decide (List.length visited < NODE_CAP)%nat); [by apply empty_visited; auto|by eapply full_visited].
  destruct (List.length visited <? NODE_CAP)%nat eqn:Hlen; cbn [negb];
    [apply Nat.ltb_lt in Hlen|apply Nat.ltb_ge in Hlen; exists visited, collected; split; [done|eapply full_visited; [done|lia]]].
  specialize (Hc Hlen). destruct (visited_in visited u) eqn:Hu; [apply bool_decide_eq_true in Hu|apply bool_decide_eq_false in Hu].
  { apply IH; [by eapply sound_tail|intros _; by eapply complete_tail|cbn in Hf; lia]. }
  pose proof (load_visit u visited Hu) as Hload. cbn [List.length] in Hf. destruct (depth <=? k) eqn:Hk.
  - apply Z.leb_le in Hk. apply IH; [eapply sound_visit; eauto; intros; lia| |lia].
    intros _. eapply complete_visit; eauto; [|intros; lia]. eapply ordered_tail. apply (co_order _ _ Hc).
  - apply Z.leb_gt in Hk. apply IH.
    + eapply sound_visit; eauto; [intros; apply in_or_app; by left|intros; apply in_or_app; by right|intros r Hr; apply in_app_or in Hr as [|]; auto|].
      intros w j [Hj|Hj]%in_app_or; [by left|right]. apply in_map_iff in Hj as (x & [= -> ->] & [Hx _]%filter_In). done.
    + intros Hlen'. eapply complete_visit; eauto; [eapply ordered_push, Hc|intros; apply in_or_app; by left|].
      intros _ w Hw. destruct (decide (w ∈ u :: visited)) as [|Hnw]; [by left|right]. apply in_or_app. right.
      apply in_map_iff. exists w. split; [done|]. apply filter_In. split; [exact Hw|]. unfold visited_in.
      rewrite bool_decide_false by done. cbn [negb andb]. by apply Nat.ltb_lt.
    + rewrite length_app, length_map.
      pose proof (filter_length_le (fun v => negb (visited_in (u :: visited) v) && (List.length (u :: visited) <? NODE_CAP)%nat) (map (other_end u) (rels_of u))) as Hle.
      rewrite length_map in Hle. lia.
Qed.
End explore.

Lemma in_unique {F} (l : list (Relationship (F := F))) r : (forall a b, In a l -> In b l -> re_id a = re_id b -> a = b) -> In r (unique_edges [] l) <-> In r l.
Proof.
  intros Hid. assert (H : forall l' seen, incl l' l -> In r (unique_edges seen l') <-> In r l' /\ re_id r ∉ seen).
  { induction l' as [|x l' IH]; intros seen Hl; cbn; [tauto|].
    assert (Hl' : incl l' l) by (intros y Hy; apply Hl; by right). unfold visited_in. case_bool_decide as E.
    - rewrite IH by done. split; [tauto|]. intros [[->|?] Hn]; [done|done].
    - cbn. rewrite IH by done. rewrite not_elem_of_cons. split; [intros [->|?]; tauto|]. intros [[->|Hr] Hn]; [by left|].
      destruct (decide (re_id r = re_id x)) as [Ei|]; [left|right; tauto]. apply Hid; [apply Hl; by left|by apply Hl'|done]. }
  rewrite H by apply incl_refl. split; [tauto|]. intros Hr. split; [done|apply not_elem_of_nil].
Qed.

(** ** Of the tables *)
Section entity_graph.
Context {F : Type} (set_order : list Z -> list Z) (org_id : option Z) (d : GraphDb (F := F)).
Definition visible_rels : list Relationship := scoped re_org org_id (relationships d).
Definition linked (v w : Z) : Prop := exists r, In r visible_rels /\ ((re_source r = v /\ re_target r = w) \/ (re_source r = w /\ re_target r = v)).
(** At most [depth] steps away. *)
Definition around (entity_id depth v : Z) : Prop := exists n, Z.of_nat n <= depth /\ nsteps linked n entity_id v.

Lemma touching_spec v r : In r (touching org_id d v) <-> In r visible_rels /\ (re_source r = v \/ re_target r = v).
Proof. unfold touching. rewrite filter_In, orb_true_iff, !Z.eqb_eq. done. Qed.
Lemma near_linked v w : near (touching org_id d) v w <-> linked v w.
Proof.
  unfold near, linked, other_end. rewrite in_map_iff. setoid_rewrite touching_spec. split.
  - intros (r & <- & Hr & [E|E]); exists r; (split; [done|]).
    + left. by rewrite E, Z.eqb_refl.
    + destruct (re_source r =? v) eqn:E'; [left; apply Z.eqb_eq in E'; done|by right].
  - intros (r & Hr & [[<- <-]|[<- <-]]); exists r; (split; [|by auto]).
    + by rewrite Z.eqb_refl.
    + destruct (re_source r =? re_target r) eqn:E; [by apply Z.eqb_eq in E|done].
Qed.
Lemma nsteps_near n v w : nsteps (near (touching org_id d)) n v w <-> nsteps linked n v w.
Proof.
  revert v. induction n as [|n IH]; intros v; split; inversion 1; subst; try constructor;
    (econstructor; [by apply near_linked|by apply IH]).
Qed.
Lemma entity_graph_run entity_id depth e : 0 <= depth -> get_entity entity_id org_id d = Some e ->
  exists visited collected, explored (touching org_id d) entity_id depth visited collected
  /\ get_entity_graph set_order entity_id depth org_id d
     = Some (Ok (map (graph_node entity_id org_id d) (set_order (rev visited)),
                 List.filter (fun r => visited_in (rev visited) (re_source r) && visited_in (rev visited) (re_target r)) (unique_edges [] collected))).
Proof.
  intros Hd He. set (nodes := first_seen (endpoints (fetch_edges org_id d))).
  assert (Hnodes : forall u, u ∈ nodes \/ touching org_id d u = []).
  { intros u. destruct (touching org_id d u) as [|r l] eqn:E; [by right|left]. unfold nodes. apply first_seen_in, list_elem_of_In.
    assert (Hr : In r (touching org_id d u)) by (rewrite E; by left). apply touching_spec in Hr as [Hr Hu].
    apply in_flat_map. exists (re_source r, re_target r, re_type r, re_weight r). split; [by apply (in_map (fun r => (re_source r, re_target r, re_type r, re_weight r)))|].
    cbn. tauto. }
  assert (Hs : sound (touching org_id d) entity_id depth [(entity_id, 0)] [] []).
  { split; try done; [apply NoDup_nil_2|cbn; lia|..].
    - intros v k [[= <- <-]|[]]. split; [lia|constructor].
    - intros v Hv. by apply elem_of_nil in Hv. }
  assert (Hc : complete (touching org_id d) entity_id depth [(entity_id, 0)] []).
  { split; [right; by left|split; [repeat constructor|exists 0; repeat constructor; cbn; lia]|]. intros v n w Hv. by apply elem_of_nil in Hv. }
  destruct (explore_spec (touching org_id d) entity_id depth Hd nodes Hnodes (explore_fuel org_id d) _ _ _ Hs (fun _ => Hc))
    as (visited & collected & E & Hx).
  { pose proof (pending_mono (fun v => List.length (touching org_id d v)) (fun _ => false) (visited_in []) nodes (fun v H => ltac:(done))) as Hle.
    cbn [List.length]. unfold explore_fuel. fold nodes. unfold pending in Hle at 2. lia. }
  exists visited, collected. split; [done|]. unfold get_entity_graph, get_entity_or_404. by rewrite He, E.
Qed.
End entity_graph.

(** C12: the subgraph of an entity is exact up to its cap. The exploration always
    ends; it returns at most fifty distinct nodes, each within [depth] steps of the
    entity over the relationships in scope, and only relationships in scope
    between them. When the neighbourhood has at most fifty nodes, the nodes are all
    of it, and the relationships are all those that touch a node at a distance
    below [depth]. *)
Theorem entity_graph_exact {F} set_order entity_id depth org_id (d : GraphDb (F := F)) e :
  0 <= depth -> (forall l, set_order l ≡ₚ l) -> NoDup (map re_id (relationships d)) -> get_entity entity_id org_id d = Some e ->
  exists nodes edges, get_entity_graph set_order entity_id depth org_id d = Some (Ok (nodes, edges))
  /\ (List.length nodes <= NODE_CAP)%nat /\ NoDup (map gn_id nodes)
  /\ (forall v, In v (map gn_id nodes) -> around org_id d entity_id depth v)
  /\ (forall r, In r edges -> In r (visible_rels org_id d) /\ In (re_source r) (map gn_id nodes) /\ In (re_target r) (map gn_id nodes))
  /\ forall ball, (forall v, around org_id d entity_id depth v -> v ∈ ball) -> (List.length ball <= NODE_CAP)%nat ->
     (forall v, In v (map gn_id nodes) <-> around org_id d entity_id depth v)
     /\ forall r, In r edges <-> In r (visible_rels org_id d)
                   /\ exists v, around org_id d entity_id (depth - 1) v /\ (re_source r = v \/ re_target r = v).
Proof.
  intros Hd Hset Hids He. destruct (entity_graph_run set_order org_id d entity_id depth e Hd He) as (visited & collected & [Hs Hfull] & ->).
  eexists _, _. split; [reflexivity|].
  assert (Hmap : map gn_id (map (graph_node entity_id org_id d) (set_order (rev visited))) ≡ₚ visited).
  { rewrite map_map. rewrite (map_ext _ id), map_id by (intros v; unfold graph_node; destruct (get_entity v org_id d); reflexivity). by rewrite Hset, <- Permutation_rev. }
  assert (Hin : forall v, In v (map gn_id (map (graph_node entity_id org_id d) (set_order (rev visited)))) <-> v ∈ visited)
    by (intros v; rewrite <- list_elem_of_In; by rewrite Hmap).
  assert (Hsee : forall v, visited_in (rev visited) v = true <-> v ∈ visited)
    by (intros v; unfold visited_in; rewrite bool_decide_eq_true, !list_elem_of_In; symmetry; apply in_rev).
  assert (Hcol : forall r, In r collected -> In r (visible_rels org_id d)).
  { intros r Hr. destruct (ex_edges _ _ _ _ _ _ Hs r Hr) as (v & n & _ & _ & _ & Hv). by apply touching_spec in Hv as [? _]. }
  assert (Hvis : incl (visible_rels org_id d) (relationships d)) by (intros r Hr; unfold visible_rels in Hr; rewrite scoped_filter in Hr; by apply filter_In in Hr as [? _]).
  assert (Huniq : forall r, In r (unique_edges [] collected) <-> In r collected)
    by (intros r; refine (in_unique collected r _); intros a b Ha Hb E; exact (NoDup_map_inj re_id (relationships d) a b Hids (Hvis a (Hcol a Ha)) (Hvis b (Hcol b Hb)) E)).
  assert (Hwithin : forall v, v ∈ visited -> around org_id d entity_id depth v).
  { intros v Hv. destruct (ex_visited _ _ _ _ _ _ Hs v Hv) as (n & Hn & [Hx _] & _). exists n. split; [done|]. by apply nsteps_near. }
  assert (Hedge : forall r, In r (List.filter (fun r => visited_in (rev visited) (re_source r) && visited_in (rev visited) (re_target r)) (unique_edges [] collected))
    <-> In r collected /\ re_source r ∈ visited /\ re_target r ∈ visited).
  { intros r. rewrite filter_In, Huniq, andb_true_iff, !Hsee. done. }
  split_and!.
  - rewrite <- (length_map gn_id), Hmap. apply (ex_size _ _ _ _ _ _ Hs).
  - rewrite Hmap. apply (ex_nodup _ _ _ _ _ _ Hs).
  - intros v Hv%Hin. by apply Hwithin.
  - intros r (Hr & H1 & H2)%Hedge. rewrite !Hin. auto.
  - intros ball Hball Hlen.
    assert (Hall : forall n v, Z.of_nat n <= depth -> nsteps (near (touching org_id d)) n entity_id v -> v ∈ visited).
    { apply (Hfull ball); [|done]. intros n v Hn Hv. apply Hball. exists n. split; [done|]. by apply nsteps_near. }
    split; [intros v; rewrite Hin; split; [apply Hwithin|intros (n & Hn & Hv); eapply Hall; [done|by apply nsteps_near]]|].
    intros r. rewrite Hedge. split.
    + intros (Hr & _). destruct (ex_edges _ _ _ _ _ _ Hs r Hr) as (v & n & _ & [Hx _] & Hn & Hv). apply touching_spec in Hv as [Hv Hend].
      split; [done|]. exists v. split; [|done]. exists n. split; [lia|]. by apply nsteps_near.
    + intros (Hr & v & (n & Hn & Hv) & Hend). apply nsteps_near in Hv.
      assert (Hv' : v ∈ visited) by (eapply Hall; [|exact Hv]; lia).
      destruct (ex_visited _ _ _ _ _ _ Hs v Hv') as (m & _ & Hx & Hrels). pose proof (proj2 Hx n Hv) as Hle.
      split; [apply Hrels; [lia|by apply touching_spec]|].
      assert (Hstep : forall w, linked org_id d v w -> w ∈ visited).
      { intros w Hw. apply (Hall (S n)); [lia|]. eapply nsteps_r; [exact Hv|]. by apply near_linked. }
      destruct Hend as [<-|<-]; (split; [|]); try done; apply Hstep; exists r; (split; [done|]); auto.
Qed.

(** * An example: a chain of three entities *)
Definition gp_entity (i : Z) : Entity := mkEntity i (Some 7) [("primary_label", Some ("E" ++ str_of_Z i)%string)].
Definition gp_rel (i s t : Z) : Relationship (F := Z) := mkRel i (Some 7) s t "cites" (Some 1) None 0.
Definition gp_chain : GraphDb (F := Z) := mkGraphDb (map gp_entity [1; 2; 3]) [gp_rel 1 1 2; gp_rel 2 2 3] 2.
Lemma entity_graph_exact_witness :
  exists nodes edges, get_entity_graph (fun l => l) 1 1 (Some 7) gp_chain = Some (Ok (nodes, edges))
  /\ map gn_id nodes = [1; 2] /\ NoDup (map gn_id nodes).
Proof.
  assert (Hids : NoDup (map re_id (relationships gp_chain))) by (apply (bool_decide_unpack _); vm_compute; exact I).
  destruct (entity_graph_exact (fun l => l) 1 1 (Some 7) gp_chain (gp_entity 1) ltac:(lia)
    (fun l => Permutation_refl l) Hids eq_refl) as (nodes & edges & E & _ & Hnd & _).
  exists nodes, edges. split; [exact E|]. split; [|exact Hnd]. vm_compute in E. by injection E as <- <-.
Defined.
