(* ===== verification/GraphComponents.v ===== *)
(** * Theorems on components, communities and the relationship table

    The flood labels exactly the weakly connected components and ends on its
    fuel; label propagation never joins what is not connected; the relationship
    table stays a simple graph whatever is created and deleted. *)
From stdpp Require Import relations.
From S2P Require Import Prelude PyStr TenantAccess JobsApi Entities DomainScope Harmonization UnionFind Graph GraphPaths.
From Stdlib Require Import String.

Local Open Scope string_scope.
Local Open Scope list_scope.
Local Open Scope Z_scope.
Local Open Scope py_scope.

Section undirected.
Context {F : Type} (edges : list (Edge (F := F))).
Definition joined (v w : Z) : Prop := exists e, In e edges /\ ((src e = v /\ dst e = w) \/ (src e = w /\ dst e = v)).
Lemma joined_sym v w : joined v w -> joined w v.
Proof. intros (e & He & H). exists e. tauto. Qed.
Lemma rtc_joined_sym v w : rtc joined v w -> rtc joined w v.
Proof. induction 1 as [|x y z Hxy _ IH]; [done|]. eapply rtc_r; [exact IH|by apply joined_sym]. Qed.
Lemma neighbors_spec v w : In w (neighbors_of edges v) <-> joined v w.
Proof.
  unfold neighbors_of, joined. rewrite in_flat_map. split; intros (e & He & H); exists e; (split; [done|]).
  - apply in_app_or in H as [H|H].
    + destruct (src e =? v) eqn:E; [|done]. destruct H as [<-|[]]. left. by apply Z.eqb_eq in E.
    + destruct (dst e =? v) eqn:E; [|done]. destruct H as [<-|[]]. right. by apply Z.eqb_eq in E.
  - apply in_or_app. destruct H as [[<- <-]|[<- <-]]; [left|right]; rewrite Z.eqb_refl; by left.
Qed.
Lemma joined_endpoint v w : joined v w -> In w (endpoints edges).
Proof. intros (e & He & H). apply in_flat_map. exists e. split; [done|]. cbn. tauto. Qed.
Lemma rtc_endpoint v w : rtc joined v w -> In v (endpoints edges) -> In w (endpoints edges).
Proof. induction 1 as [|x y z Hxy _ IH]; [done|]. intros _. by eapply IH, joined_endpoint. Qed.

(** * Components *)
Context (set_order : list Z -> list Z) (Hset : forall l, set_order l ≡ₚ l).
Lemma py_set_in l v : In v (py_set set_order l) <-> In v l.
Proof. unfold py_set. rewrite <- !list_elem_of_In, Hset. apply first_seen_in. Qed.
Lemma adjacent_spec v w : In w (adjacent set_order edges v) <-> joined v w.
Proof. unfold adjacent. rewrite py_set_in. apply neighbors_spec. Qed.
Notation adj := (adjacent set_order edges).
Notation nodes := (py_set set_order (endpoints edges)).

Lemma is_key_spec v m : is_key v m = true <-> is_Some (dict_get v m).
Proof. unfold is_key. destruct (dict_get v m); [by split|]. split; [done|by intros []]. Qed.
Lemma is_key_set v c m x : is_key x (dict_set v c m) = (x =? v) || is_key x m.
Proof.
  unfold is_key. destruct (x =? v) eqn:E; [apply Z.eqb_eq in E as ->; by rewrite dict_get_set_eq|].
  apply Z.eqb_neq in E. by rewrite dict_get_set_ne.
Qed.
(** The labels closed under the edges. *)
Definition saturated (m : list (Z * Z)) : Prop := forall v w, is_key v m = true -> joined v w -> is_key w m = true.

Section flood.
Context (start comp : Z) (m0 : list (Z * Z)) (Hm0 : saturated m0) (Hstart : is_key start m0 = false) (Hnode : In start (endpoints edges)).
Record flood_inv (queue : list Z) (m : list (Z * Z)) : Prop := {
  fl_old : forall x k, dict_get x m0 = Some k -> dict_get x m = Some k;
  fl_new : forall x k, dict_get x m = Some k -> dict_get x m0 = Some k \/ (k = comp /\ is_key x m0 = false /\ rtc joined start x);
  fl_queue : forall x, In x queue -> rtc joined start x;
  fl_next : forall x w, is_key x m = true -> is_key x m0 = false -> joined x w -> is_key w m = true \/ In w queue;
  fl_start : is_key start m = true \/ In start queue;
  fl_nodup : NoDup (dict_keys m)
}.
Definition flooded (m : list (Z * Z)) : Prop :=
  NoDup (dict_keys m)
  /\ forall x, dict_get x m = match dict_get x m0 with Some k => Some k | None => dict_get x m end
  /\ (is_key x m0 = false -> (dict_get x m = Some comp <-> rtc joined start x) /\ (is_key x m = true -> dict_get x m = Some comp)).
Lemma flood_end m : flood_inv [] m -> flooded m.
Proof.
  intros [H1 H2 _ H4 H5 H6]. split; [done|].
  assert (Hreach : forall x, rtc joined start x -> is_key x m0 = false /\ is_key x m = true).
  { apply (rtc_ind_r (fun x => is_key x m0 = false /\ is_key x m = true) start); [|intros x y _ Hxy [IH1 IH2]].
    - split; [done|]. by destruct H5 as [|[]].
    - split.
      + destruct (is_key y m0) eqn:E; [|done]. rewrite (Hm0 y x E) in IH1; [done|by apply joined_sym].
      + by destruct (H4 x y IH2 IH1 Hxy) as [|[]]. }
  assert (Hcomp : forall x, is_key x m0 = false -> is_key x m = true -> dict_get x m = Some comp).
  { intros x H0 Hx. apply is_key_spec in Hx as [k Hk]. destruct (H2 x k Hk) as [Hold|[-> _]]; [|done].
    exfalso. assert (Hk0 : is_key x m0 = true) by (apply is_key_spec; by exists k). congruence. }
  intros x. split; [destruct (dict_get x m0) eqn:E; [by apply H1|done]|]. intros H0. split; [|by apply Hcomp]. split.
  - intros Hk. destruct (H2 x comp Hk) as [Hold|(_ & _ & Hr)]; [|done].
    exfalso. assert (Hk0 : is_key x m0 = true) by (apply is_key_spec; by exists comp). congruence.
  - intros Hr. apply Hcomp; [done|]. by apply Hreach.
Qed.
Lemma flood_visit v queue m : flood_inv (v :: queue) m -> is_key v m = false ->
  let m' := dict_set v comp m in
  flood_inv (queue ++ List.filter (fun n => negb (is_key n m')) (adj v)) m'.
Proof.
  intros [H1 H2 H3 H4 H5 H6] Hv m'. assert (Hr : rtc joined start v) by (apply H3; by left).
  assert (Hv0 : is_key v m0 = false).
  { destruct (is_key v m0) eqn:E; [|done]. apply is_key_spec in E as [k Hk]. apply H1 in Hk.
    assert (is_key v m = true) by (apply is_key_spec; by exists k). congruence. }
  split.
  - intros x k Hk. unfold m'. rewrite dict_get_set_ne; [by apply H1|]. intros ->. unfold is_key in Hv0. by rewrite Hk in Hv0.
  - intros x k. unfold m'. destruct (decide (x = v)) as [->|Hne].
    + rewrite dict_get_set_eq. intros [= <-]. by right.
    + rewrite dict_get_set_ne by done. apply H2.
  - intros x [Hx|[Hx _]%filter_In]%in_app_or; [apply H3; by right|]. eapply rtc_r; [exact Hr|by apply adjacent_spec].
  - intros x w Hx Hx0 Hw. unfold m' in Hx |- *. destruct (is_key w (dict_set v comp m)) eqn:Ew; [by left|right].
    rewrite is_key_set in Hx, Ew. apply orb_false_iff in Ew as [Ew1 Ew2]. apply in_or_app.
    destruct (x =? v) eqn:E.
    + apply Z.eqb_eq in E as ->. right. apply filter_In. split; [by apply adjacent_spec|]. fold m'. unfold m'. by rewrite is_key_set, Ew1, Ew2.
    + destruct (H4 x w Hx Hx0 Hw) as [|[<-|]]; [congruence|by rewrite Z.eqb_refl in Ew1|by left].
  - unfold m'. rewrite is_key_set. destruct H5 as [->|[->|H5]]; [left; apply orb_true_r|left; by rewrite Z.eqb_refl|right; apply in_or_app; by left].
  - unfold m'. rewrite dict_keys_set. case_decide as Hin; [done|]. apply NoDup_app. split; [done|]. split; [|apply NoDup_singleton].
    intros y Hy ->%list_elem_of_singleton. done.
Qed.
Lemma flood_spec fuel : forall queue m, flood_inv queue m ->
  (List.length queue + pending (fun v => List.length (adj v)) (fun v => is_key v m) nodes <= fuel)%nat ->
  exists m', flood adj fuel comp queue m = Some m' /\ flooded m'.
Proof.
  induction fuel as [|f IH]; intros [|v queue] m H Hf; cbn [flood]; try (cbn in Hf; lia).
  1-2: exists m; split; [done|by apply flood_end].
  cbn [List.length] in Hf. destruct (is_key v m) eqn:Hv.
  - apply IH; [|lia]. destruct H as [H1 H2 H3 H4 H5 H6]. split; try done.
    + intros x Hx. apply H3. by right.
    + intros x w Hx Hx0 Hw. destruct (H4 x w Hx Hx0 Hw) as [|[<-|]]; auto.
    + destruct H5 as [|[->|]]; auto.
  - apply IH; [by apply flood_visit|]. rewrite length_app.
    pose proof (filter_length_le (fun n => negb (is_key n (dict_set v comp m))) (adj v)) as Hle.
    pose proof (pending_visit (fun v => List.length (adj v)) (fun v => is_key v m) (fun x => is_key x (dict_set v comp m)) nodes v) as Hp.
    assert (Hn : v ∈ nodes).
    { apply list_elem_of_In, py_set_in. eapply rtc_endpoint; [apply (fl_queue _ _ H); by left|done]. }
    cbn beta in Hp. specialize (Hp ltac:(intros x Hx; rewrite is_key_set, Hx; apply orb_true_r) Hv
      ltac:(rewrite is_key_set, Z.eqb_refl; done) (or_introl Hn)). lia.
Qed.
End flood.

(** The labels given so far: whole components, numbered from 0. *)
Record labelled (n : Z) (m : list (Z * Z)) : Prop := {
  la_nodup : NoDup (dict_keys m);
  la_nodes : forall x, is_key x m = true -> In x (endpoints edges);
  la_saturated : saturated m;
  la_same : forall x y k l, dict_get x m = Some k -> dict_get y m = Some l -> (k = l <-> rtc joined x y);
  la_ids : forall k, (exists x, dict_get x m = Some k) <-> 0 <= k < n;
  la_n : 0 <= n
}.
Lemma labelled_flood n m start m' : labelled n m -> is_key start m = false -> In start (endpoints edges) -> flooded start n m m' ->
  labelled (n + 1) m' /\ is_key start m' = true /\ forall x, is_key x m = true -> is_key x m' = true.
Proof.
  intros [H1 H2 H3 H4 H5 H6] Hs Hn [Hnd Hf].
  assert (Hold : forall x k, dict_get x m = Some k -> dict_get x m' = Some k) by (intros x k Hk; rewrite (proj1 (Hf x)), Hk; done).
  assert (Hmono : forall x, is_key x m = true -> is_key x m' = true).
  { intros x [k Hk]%is_key_spec. apply is_key_spec. exists k. by apply Hold. }
  assert (Hnew : forall x, is_key x m = false -> is_key x m' = true -> dict_get x m' = Some n /\ rtc joined start x).
  { intros x Hx Hx'. destruct (proj2 (Hf x) Hx) as [Hr Hc]. specialize (Hc Hx'). split; [done|by apply Hr]. }
  assert (Hin : forall x, is_key x m = false -> rtc joined start x -> dict_get x m' = Some n).
  { intros x Hx Hr. destruct (proj2 (Hf x) Hx) as [[_ H] _]. by apply H. }
  assert (Hsep : forall x y, is_key x m = true -> rtc joined x y -> is_key y m = true).
  { intros x y Hx Hr. induction Hr as [|x y z Hxy _ IH]; [done|]. apply IH. by eapply H3. }
  assert (Hlt : forall x k, dict_get x m = Some k -> 0 <= k < n) by (intros x k Hk; apply H5; by exists x).
  assert (Hstart : dict_get start m' = Some n) by (apply Hin; [done|constructor]).
  split; [|split; [apply is_key_spec; by exists n|done]]. split; try done.
  - intros x Hx'. destruct (is_key x m) eqn:Hx; [by apply H2|]. destruct (Hnew x Hx Hx') as [_ Hr]. by eapply rtc_endpoint.
  - intros x y Hx' Hxy. destruct (is_key x m) eqn:Hx; [by apply Hmono, (H3 x)|]. destruct (Hnew x Hx Hx') as [_ Hr].
    assert (Hy : is_key y m = false).
    { destruct (is_key y m) eqn:E; [|done]. rewrite (H3 y x E) in Hx; [done|by apply joined_sym]. }
    apply is_key_spec. exists n. apply Hin; [done|]. by eapply rtc_r.
  - assert (Hcase : forall x k, dict_get x m' = Some k -> (is_key x m = true /\ dict_get x m = Some k) \/ (is_key x m = false /\ k = n /\ rtc joined start x)).
    { intros x k Hk. destruct (is_key x m) eqn:Hx; [left|right].
      - split; [done|]. apply is_key_spec in Hx as [j Hj]. rewrite (Hold x j Hj) in Hk. congruence.
      - destruct (Hnew x Hx) as [E Hr]; [apply is_key_spec; by exists k|]. split_and!; [done|congruence|done]. }
    intros x y k l Hk Hl. destruct (Hcase x k Hk) as [[Hx Hk']|(Hx & -> & Hrx)], (Hcase y l Hl) as [[Hy Hl']|(Hy & -> & Hry)].
    + by apply H4.
    + split; [intros ->; specialize (Hlt x n Hk'); lia|]. intros Hr. rewrite (Hsep x y Hx Hr) in Hy. done.
    + split; [intros <-; specialize (Hlt y n Hl'); lia|]. intros Hr. apply rtc_joined_sym in Hr. rewrite (Hsep y x Hy Hr) in Hx. done.
    + split; [intros _|done]. transitivity start; [by apply rtc_joined_sym|done].
  - intros k. split.
    + intros [x Hk]. destruct (is_key x m) eqn:Hx.
      * apply is_key_spec in Hx as [j Hj]. rewrite (Hold x j Hj) in Hk. specialize (Hlt x j Hj). injection Hk as <-. lia.
      * destruct (Hnew x Hx) as [E _]; [apply is_key_spec; by exists k|]. rewrite E in Hk. injection Hk as <-. lia.
    + intros Hk. destruct (decide (k = n)) as [->|Hne]; [by exists start|]. destruct (proj2 (H5 k)) as [x Hx]; [lia|]. exists x. by apply Hold.
  - lia.
Qed.
Lemma label_components_spec todo : forall n m, labelled n m -> (forall x, In x todo -> In x (endpoints edges)) ->
  exists n' m', label_components adj (S (adjacency_count adj nodes)) todo n m = Some m' /\ labelled n' m'
  /\ (forall x, In x todo \/ is_key x m = true -> is_key x m' = true).
Proof.
  induction todo as [|v todo IH]; intros n m H Hin; cbn [label_components].
  { exists n, m. split; [done|]. split; [done|]. by intros x [[]|]. }
  assert (Hin' : forall x, In x todo -> In x (endpoints edges)) by (intros x Hx; apply Hin; by right).
  destruct (is_key v m) eqn:Hv.
  - destruct (IH n m H Hin') as (n' & m' & E & Hl & Hk). exists n', m'. split; [done|]. split; [done|]. intros x [[<-|Hx]|Hx]; auto.
  - assert (Hinv : flood_inv v n m [v] m).
    { split; [done|by left| |intros x w Hx Hx0; congruence|right; by left|apply (la_nodup _ _ H)]. intros x [->|[]]. constructor. }
    destruct (flood_spec v n m (la_saturated _ _ H) Hv (Hin v (or_introl eq_refl)) (S (adjacency_count adj nodes)) [v] m Hinv) as (m1 & E & Hf).
    { pose proof (pending_mono (fun v => List.length (adj v)) (fun _ => false) (fun v => is_key v m) nodes (fun x Hx => ltac:(done))) as Hle.
      unfold adjacency_count. cbn [List.length]. unfold pending in Hle at 2. lia. }
    rewrite E. destruct (labelled_flood n m v m1 H Hv (Hin v (or_introl eq_refl)) Hf) as (H1 & Hv1 & Hmono).
    destruct (IH (n + 1) m1 H1 Hin') as (n' & m' & E' & Hl & Hk). exists n', m'. split; [done|]. split; [done|].
    intros x [[<-|Hx]|Hx]; auto.
Qed.
Lemma components_labelled : exists n m, connected_components set_order edges = Some m /\ labelled n m
  /\ forall x, In x (endpoints edges) <-> is_key x m = true.
Proof.
  destruct (label_components_spec nodes 0 []) as (n & m & E & Hl & Hk).
  - split; try done; [apply NoDup_nil_2|]. intros k. split; [by intros []|lia].
  - intros x. apply py_set_in.
  - exists n, m. split; [exact E|]. split; [done|]. intros x. split; [|apply (la_nodes _ _ Hl)]. intros Hx. apply Hk. left. by apply py_set_in.
Qed.
End undirected.

(** C11: the components endpoint labels exactly the weakly connected components.
    Whatever order the sets are iterated in, the flood ends; every endpoint of an
    edge is labelled, once, and nothing else; two nodes have the same label exactly
    when a chain of edges, in whatever direction, joins them; and the labels are
    0, 1, ... without gaps. *)
Theorem components_exact {F} set_order (edges : list (Edge (F := F))) : (forall l, set_order l ≡ₚ l) ->
  exists n m, connected_components set_order edges = Some m
  /\ NoDup (dict_keys m)
  /\ (forall x, In x (endpoints edges) <-> is_Some (dict_get x m))
  /\ (forall x y k l, dict_get x m = Some k -> dict_get y m = Some l -> (k = l <-> rtc (joined edges) x y))
  /\ (forall k, (exists x, dict_get x m = Some k) <-> 0 <= k < n).
Proof.
  intros Hset. destruct (components_labelled edges set_order Hset) as (n & m & E & Hl & Hk). exists n, m.
  split_and!; [done|apply Hl|intros x; rewrite Hk; apply is_key_spec|apply Hl|apply Hl].
Qed.

(** * Communities *)
Section communities.
Context {F : Type} (fadd : F -> F -> F) (flt feq : F -> F -> bool) (of_Z : Z -> F) (edges : list (Edge (F := F))).
Notation adjacency := (weighted_adjacency fadd feq of_Z edges).

(** The rows hold neighbours. *)
Definition rows_ok (adj : list (Z * list (Z * F))) : Prop :=
  forall v row w x, dict_get v adj = Some row -> In (w, x) row -> joined edges v w.
Lemma in_dict_set {K V} `{EqDecision K} (k k' : K) (v v' : V) d : In (k', v') (dict_set k v d) -> k' = k \/ In (k', v') d.
Proof.
  induction d as [|[j u] d IH]; cbn; [intros [[= -> _]|[]]; by left|]. case_decide as E; cbn.
  - intros [[= -> _]|H]; [by left|right; by right].
  - intros [H|H]; [right; by left|]. destruct (IH H); [by left|right; by right].
Qed.
Lemma rows_add a b w adj : joined edges a b -> rows_ok adj -> rows_ok (add_weight fadd of_Z a b w adj).
Proof.
  intros Hab H v row y x. unfold add_weight. destruct (decide (v = a)) as [->|Hne].
  - rewrite dict_get_set_eq. intros [= <-] [->|Hin]%in_dict_set; [done|].
    destruct (dict_get a adj) as [r|] eqn:E; [by eapply H|done].
  - rewrite dict_get_set_ne by done. by apply H.
Qed.
Lemma rows_adjacency : rows_ok adjacency.
Proof.
  unfold weighted_adjacency. assert (H : forall l adj, incl l edges -> rows_ok adj ->
    rows_ok (fold_left (fun adj e => add_weight fadd of_Z (dst e) (src e) (edge_weight feq of_Z e)
                                       (add_weight fadd of_Z (src e) (dst e) (edge_weight feq of_Z e) adj)) l adj)).
  { induction l as [|e l IH]; intros adj Hl Ha; [done|]. cbn [fold_left].
    assert (He : In e edges) by (apply Hl; by left). apply IH; [intros x Hx; apply Hl; by right|].
    apply rows_add; [exists e; auto|]. apply rows_add; [exists e; auto|done]. }
  apply H; [apply incl_refl|]. by intros v row w x.
Qed.
(** Every label is joined to its node. *)
Definition labels_ok (labels : list (Z * Z)) : Prop := forall v, rtc (joined edges) v (label_of labels v).

Lemma scores_keys labels row l x : In (l, x) (label_scores fadd of_Z labels row) -> exists w y, In (w, y) row /\ l = label_of labels w.
Proof.
  unfold label_scores. assert (H : forall r s, incl r row -> (forall l x, In (l, x) s -> exists w y, In (w, y) row /\ l = label_of labels w) ->
    forall l x, In (l, x) (fold_left (fun s nw => dict_set (label_of labels nw.1) (fadd (match dict_get (label_of labels nw.1) s with Some x => x | None => of_Z 0 end) nw.2) s) r s) ->
    exists w y, In (w, y) row /\ l = label_of labels w).
  { induction r as [|[w y] r IH]; intros s Hr Hs; [exact Hs|]. cbn [fold_left fst snd]. apply IH; [intros z Hz; apply Hr; by right|].
    intros l' x' [->|Hin]%in_dict_set; [exists w, y; split; [apply Hr; by left|done]|by eapply Hs]. }
  apply H; [apply incl_refl|]. by intros ? ? [].
Qed.
Lemma least_in l d : least l d = d \/ In (least l d) l.
Proof.
  destruct l as [|x l]; [by left|right]. cbn [least]. assert (H : forall r m, In (fold_left Z.min r m) (m :: r)).
  { induction r as [|y r IH]; intros m; [by left|]. cbn [fold_left]. destruct (IH (Z.min m y)) as [E|E].
    - rewrite <- E. destruct (Z.min_spec m y) as [[_ ->]|[_ ->]]; [by left|right; by left].
    - right. by right. }
  apply H.
Qed.
Lemma best_label_from labels row own :
  best_label fadd flt feq of_Z labels row own = own \/ exists w y, In (w, y) row /\ best_label fadd flt feq of_Z labels row own = label_of labels w.
Proof.
  unfold best_label. destruct (py_max _ _) as [m|]; [|by left].
  destruct (least_in (map fst (List.filter (fun s => feq s.2 m) (label_scores fadd of_Z labels row))) own) as [->|H]; [by left|right].
  apply in_map_iff in H as ([l x] & E & [Hin _]%filter_In). cbn in E. rewrite <- E. by eapply scores_keys.
Qed.
Lemma label_of_set v l labels w : label_of (dict_set v l labels) w = if w =? v then l else label_of labels w.
Proof.
  unfold label_of. destruct (w =? v) eqn:E; [apply Z.eqb_eq in E as ->; by rewrite dict_get_set_eq|].
  apply Z.eqb_neq in E. by rewrite dict_get_set_ne.
Qed.
Lemma labels_node adj st v : rows_ok adj -> labels_ok st.1 -> labels_ok (propagate_node fadd flt feq of_Z adj st v).1.
Proof.
  intros Ha Hl. unfold propagate_node. destruct (dict_get v adj) as [[|p row]|] eqn:E; [done| |done].
  destruct (_ =? _); [done|]. intros x. cbn [fst]. rewrite label_of_set. destruct (x =? v) eqn:Ex; [|apply Hl].
  apply Z.eqb_eq in Ex as ->. destruct (best_label_from st.1 (p :: row) (label_of st.1 v)) as [->|(w & y & Hin & ->)]; [apply Hl|].
  eapply rtc_l; [by eapply Ha|apply Hl].
Qed.
Lemma labels_pass adj nodes : forall st, rows_ok adj -> labels_ok st.1 -> labels_ok (fold_left (propagate_node fadd flt feq of_Z adj) nodes st).1.
Proof. induction nodes as [|v nodes IH]; intros st Ha Hl; [done|]. cbn [fold_left]. apply IH; [done|]. by apply labels_node. Qed.
Lemma labels_propagate adj nodes n : forall labels, rows_ok adj -> labels_ok labels -> labels_ok (propagate fadd flt feq of_Z n adj nodes labels).
Proof.
  induction n as [|n IH]; intros labels Ha Hl; cbn [propagate]; [done|].
  pose proof (labels_pass adj nodes (labels, false) Ha Hl) as H. destruct (fold_left _ _ _) as [labels' []]; [by apply IH|done].
Qed.
Lemma label_of_identity nodes v : label_of (map (fun n => (n, n)) nodes) v = v.
Proof.
  unfold label_of. destruct (dict_get v _) as [l|] eqn:E; [|done]. apply dict_get_Some_elem, list_elem_of_In, in_map_iff in E as (x & [= -> ->] & _). done.
Qed.

(** Renumbering keeps labels apart. *)
Definition numbered (lm : list (Z * Z)) : Prop :=
  (forall l k, dict_get l lm = Some k -> 0 <= k < Z.of_nat (List.length lm)) /\ (forall l l' k, dict_get l lm = Some k -> dict_get l' lm = Some k -> l = l').
Lemma numbered_add l lm : numbered lm -> dict_get l lm = None -> numbered (dict_set l (Z.of_nat (List.length lm)) lm).
Proof.
  intros [H1 H2] Hl. assert (Hlen : List.length (dict_set l (Z.of_nat (List.length lm)) lm) = S (List.length lm))
    by (rewrite dict_set_fresh by (by apply dict_get_None); rewrite length_app; cbn; lia). split.
  - intros x k. rewrite Hlen. destruct (decide (x = l)) as [->|Hne]; [rewrite dict_get_set_eq; intros [= <-]; lia|].
    rewrite dict_get_set_ne by done. intros Hk%H1. lia.
  - intros x y k. destruct (decide (x = l)) as [->|Hx], (decide (y = l)) as [->|Hy]; try done;
      rewrite ?dict_get_set_eq, ?dict_get_set_ne by done; [intros [= <-] Hk%H1; lia|intros Hk%H1 [= <-]; lia|apply H2].
Qed.
Lemma renumber_spec labels nodes : forall lm, numbered lm ->
  exists lm', numbered lm' /\ (forall l k, dict_get l lm = Some k -> dict_get l lm' = Some k)
  /\ dict_keys (renumber nodes labels lm) = nodes
  /\ forall v k, In (v, k) (renumber nodes labels lm) -> dict_get (label_of labels v) lm' = Some k.
Proof.
  induction nodes as [|v nodes IH]; intros lm H; cbn [renumber].
  { exists lm. split_and!; [done|done|done|by intros ? ? []]. }
  set (lm1 := match dict_get (label_of labels v) lm with Some _ => lm | None => _ end).
  assert (H1 : numbered lm1 /\ (exists k, dict_get (label_of labels v) lm1 = Some k) /\ forall l k, dict_get l lm = Some k -> dict_get l lm1 = Some k).
  { unfold lm1. destruct (dict_get (label_of labels v) lm) as [k|] eqn:E; [split_and!; [done|by exists k|done]|].
    split_and!; [by apply numbered_add|eexists; apply dict_get_set_eq|]. intros l k Hk. rewrite dict_get_set_ne; [done|]. congruence. }
  destruct H1 as (H1 & [k Hk] & Hsub). destruct (IH lm1 H1) as (lm' & Hn & Hsub' & Hkeys & Hin). exists lm'. split_and!; [done|auto| |].
  - unfold dict_keys in *. cbn. by rewrite Hkeys.
  - intros x j [[= <- <-]|Hx]; [|by apply Hin]. unfold label_of at 2. rewrite Hk. by apply Hsub'.
Qed.
Lemma communities_joined n x y c : In (x, c) (detect_communities fadd flt feq of_Z edges n) -> In (y, c) (detect_communities fadd flt feq of_Z edges n) ->
  rtc (joined edges) x y.
Proof.
  unfold detect_communities. set (nodes := sort_by _ _). set (labels := propagate _ _ _ _ _ _ _ _).
  destruct (renumber_spec labels nodes []) as (lm & [_ Hinj] & _ & _ & Hin); [by split|].
  intros Hx%Hin Hy%Hin. pose proof (Hinj _ _ _ Hx Hy) as E.
  assert (Hl : labels_ok labels) by (apply labels_propagate; [apply rows_adjacency|intros v; rewrite label_of_identity; constructor]).
  transitivity (label_of labels x); [apply Hl|]. rewrite E. apply rtc_joined_sym, Hl.
Qed.
Lemma communities_keys n : dict_keys (detect_communities fadd flt feq of_Z edges n) = sort_by Z.leb (first_seen (endpoints edges)).
Proof. unfold detect_communities. destruct (renumber_spec (propagate fadd flt feq of_Z n adjacency (sort_by Z.leb (first_seen (endpoints edges))) (map (fun n => (n, n)) (sort_by Z.leb (first_seen (endpoints edges))))) (sort_by Z.leb (first_seen (endpoints edges))) []) as (_ & _ & _ & H & _); [by split|exact H]. Qed.
End communities.

(** communities refine components. Whatever the weights and the float
    arithmetic, label propagation gives every endpoint one community, in order of
    id, and two nodes of one community are in one component. *)
Theorem communities_refine_components {F} fadd flt feq of_Z set_order (edges : list (Edge (F := F))) n m :
  (forall l, set_order l ≡ₚ l) -> connected_components set_order edges = Some m ->
  let communities := detect_communities fadd flt feq of_Z edges n in
  dict_keys communities = sort_by Z.leb (first_seen (endpoints edges)) /\ NoDup (dict_keys communities)
  /\ forall x y c, In (x, c) communities -> In (y, c) communities -> is_Some (dict_get x m) /\ dict_get x m = dict_get y m.
Proof.
  intros Hset Hm communities. pose proof (communities_keys fadd flt feq of_Z edges n) as Hkeys. split; [exact Hkeys|]. split.
  { unfold communities. rewrite Hkeys, (sort_by_perm Z.leb). apply first_seen_NoDup. }
  intros x y c Hx Hy. pose proof (communities_joined fadd flt feq of_Z edges n x y c Hx Hy) as Hr.
  destruct (components_labelled edges set_order Hset) as (k & m' & E & Hl & Hk). rewrite Hm in E. injection E as <-.
  assert (Hkey : forall v, In (v, c) communities -> is_Some (dict_get v m)).
  { intros v Hv. apply is_key_spec, Hk, list_elem_of_In, first_seen_in, list_elem_of_In. apply (sort_by_in Z.leb).
    rewrite <- Hkeys. by apply (in_map fst _ (v, c)). }
  destruct (Hkey x Hx) as [a Ha], (Hkey y Hy) as [b Hb]. rewrite Ha, Hb. split; [done|]. f_equal. by apply (la_same _ _ _ Hl x y a b Ha Hb).
Qed.

(** * The relationship table stays a simple graph *)
Section table.
Context {F : Type} (flt feq : F -> F -> bool) (of_Z : Z -> F) (tenants : Tenants) (es : list Entity) (Hes : NoDup (map en_id es)).
Inductive GCall :=
  | GCreate (p : RelCreate (F := F)) (entity_id now : Z)
  | GDelete (rel_id : Z).
Definition gexec (user : User) (c : GCall) : M (GraphDb (F := F)) unit :=
  match c with
  | GCreate p i now => run! create_relationship flt feq of_Z tenants p i now user; mret tt
  | GDelete i => delete_relationship tenants i user
  end.
Fixpoint graph_history (calls : list (User * GCall)) (d : GraphDb) : GraphDb :=
  match calls with
  | [] => d
  | (u, c) :: calls => graph_history calls (sess_base (gexec u c (clean d)).2)
  end.
Definition rel_key (r : Relationship (F := F)) : Z * Z * string := (re_source r, re_target r, re_type r).
Record simple (d : GraphDb (F := F)) : Prop := {
  sg_entities : entities d = es;
  sg_ids : NoDup (map re_id (relationships d));
  sg_seq : forall r, In r (relationships d) -> re_id r <= rel_seq d;
  sg_keys : NoDup (map rel_key (relationships d));
  sg_loops : forall r, In r (relationships d) -> re_source r <> re_target r;
  sg_ends : forall r, In r (relationships d) -> (exists e, In e es /\ en_id e = re_source r /\ re_org r = en_org e) /\ exists e, In e es /\ en_id e = re_target r;
  sg_types : forall r, In r (relationships d) -> re_type r ∈ VALID_RELATION_TYPES
}.
Lemma get_entity_in i org_id (d : GraphDb (F := F)) e : get_entity i org_id d = Some e -> In e (entities d) /\ en_id e = i /\ in_scope org_id (en_org e) = true.
Proof. unfold get_entity. intros [He Hi%Z.eqb_eq]%find_some. rewrite scoped_filter in He. by apply filter_In in He as [? ?]. Qed.
Lemma simple_add (d : GraphDb (F := F)) p i now org_id source target : simple d -> valid_payload flt feq of_Z p = true ->
  get_entity i org_id d = Some source -> get_entity (rc_target p) org_id d = Some target -> i <> rc_target p ->
  existsb (same_relation i (rc_target p) (rc_type p)) (scoped re_org org_id (relationships d)) = false ->
  let r := mkRel (rel_seq d + 1) (en_org source) i (rc_target p) (rc_type p) (Some (rc_weight p)) (rc_notes p) now in
  simple (mkGraphDb (entities d) (relationships d ++ [r]) (rel_seq d + 1)).
Proof.
  intros [H1 H2 H3 H4 H5 H6 H7] Hp Hs Ht Hne Hdup r. apply get_entity_in in Hs as (Hs & Hsi & Hscope), Ht as (Ht & Hti & _).
  assert (Hin : forall x, In x (relationships d ++ [r]) -> In x (relationships d) \/ x = r).
  { intros x [Hx|[<-|[]]]%in_app_or; auto. }
  split; cbn [entities relationships rel_seq]; try done.
  - rewrite map_app. apply NoDup_app. split; [done|]. split; [|apply NoDup_singleton].
    intros x Hx ->%list_elem_of_singleton. apply list_elem_of_In, in_map_iff in Hx as (y & E & Hy). specialize (H3 y Hy). cbn in E. lia.
  - intros x [Hx| ->]%Hin; [specialize (H3 x Hx); lia|cbn; lia].
  - rewrite map_app. apply NoDup_app. split; [done|]. split; [|apply NoDup_singleton].
    intros x Hx ->%list_elem_of_singleton. apply list_elem_of_In, in_map_iff in Hx as (y & E & Hy). injection E as E1 E2 E3.
    destruct (H6 y Hy) as [(e & He & Hei & Horg) _]. apply not_true_iff_false in Hdup. apply Hdup, existsb_exists. exists y. split.
    + rewrite scoped_filter. apply filter_In. split; [done|]. rewrite Horg. replace e with source; [done|].
      rewrite H1 in Hs. apply (NoDup_map_inj en_id es); [done..|]. congruence.
    + unfold same_relation. rewrite E1, E2, E3, !Z.eqb_refl. by rewrite bool_decide_true.
  - intros x [Hx| ->]%Hin; [by apply H5|done].
  - intros x [Hx| ->]%Hin; [by apply H6|]. cbn. rewrite H1 in Hs, Ht. split; [by exists source|by exists target].
  - intros x [Hx| ->]%Hin; [by apply H7|]. cbn. unfold valid_payload in Hp. do 3 apply andb_prop in Hp as [Hp _].
    by apply andb_prop in Hp as [_ Hp%bool_decide_eq_true].
Qed.
Lemma simple_filter p (d : GraphDb (F := F)) : simple d -> simple (with_relationships (List.filter p) d).
Proof.
  intros [H1 H2 H3 H4 H5 H6 H7]. assert (Hin : forall r, In r (List.filter p (relationships d)) -> In r (relationships d)) by (intros r [? _]%filter_In; done).
  split; cbn [with_relationships entities relationships rel_seq]; auto using NoDup_map_filter.
Qed.
Lemma gexec_simple user c : preserves simple (gexec user c).
Proof.
  destruct c as [p i now|i]; cbn [gexec].
  - apply preserves_bind; [|intros; preserve]. unfold create_relationship. apply preserves_bind; [preserve|intros u].
    destruct (negb _) eqn:Hp; [preserve|]. apply negb_false_iff in Hp. apply preserves_bind; [preserve|intros org_id].
    intros s Hd Hb. rewrite run_get. unfold get_entity_or_404.
    destruct (get_entity i org_id (sess_db s)) as [source|] eqn:Hs; [rewrite run_lift_ok|by rewrite run_lift_raise].
    destruct (get_entity (rc_target p) org_id (sess_db s)) as [target|] eqn:Ht; [rewrite run_lift_ok|by rewrite run_lift_raise].
    destruct (i =? rc_target p) eqn:Hne; [done|]. apply Z.eqb_neq in Hne. destruct (existsb _ _) eqn:Hdup; [done|].
    rewrite run_modify, run_commit. cbn [sess_db sess_base]. unfold mret. cbn [snd sess_db sess_base].
    pose proof (simple_add (sess_db s) p i now org_id source target Hd Hp Hs Ht Hne Hdup) as H. by split.
  - unfold delete_relationship. preserve. by apply simple_filter.
Qed.
Lemma history_simple calls d : simple d -> simple (graph_history calls d).
Proof.
  revert d. induction calls as [|[u c] calls IH]; intros d H; [done|]. cbn. apply IH. by apply (gexec_simple u c (clean d)).
Qed.
End table.

(** the relationship table stays a simple graph. After any history of
    creations and deletions by any users, over entities of distinct ids: no
    relationship joins an entity to itself, no two have the same source, target
    and type, whatever scope each caller had, both ends exist, the type is a known
    one, and the organisation is that of the source. *)
Theorem relationships_simple {F} flt feq of_Z tenants es calls : NoDup (map en_id es) ->
  simple es (graph_history (F := F) flt feq of_Z tenants calls (mkGraphDb es [] 0)).
Proof.
  intros Hes. apply history_simple; [done|]. split; cbn; try done; try apply NoDup_nil_2.
Qed.

(** * Examples *)
Definition gr_entity (i : Z) (org : option Z) (domain : string) : Entity :=
  mkEntity i org [("primary_label", Some ("E" ++ str_of_Z i)%string); ("domain", Some domain)].
Definition gr_es : list Entity := [gr_entity 1 (Some 7) "science"; gr_entity 2 (Some 7) "science"; gr_entity 3 (Some 7) "default"; gr_entity 4 (Some 8) "science"].
Definition gr_tenants : Tenants := mkTenants [mkOrg 7 "acme" "Acme" None (Some true)] [mkMember 7 3].
Definition gr_editor : User := mkUser 3 "editor" (Some 7).
Definition gr_root : User := mkUser 1 "super_admin" None.
Definition gr_new (t : Z) (ty : string) : RelCreate (F := Z) := mkRelCreate t ty 1 None.
Definition gr_db (calls : list (User * GCall (F := Z))) : GraphDb (F := Z) := graph_history Z.ltb Z.eqb (fun z => z) gr_tenants calls (mkGraphDb gr_es [] 0).
Definition gr_chain : GraphDb (F := Z) := gr_db [(gr_editor, GCreate (gr_new 2 "cites") 1 0); (gr_editor, GCreate (gr_new 3 "cites") 2 1)].
Definition gr_edges : list (Edge (F := Z)) := fetch_edges (Some 7) gr_chain.

Lemma relationships_simple_witness :
  let d := gr_db [(gr_editor, GCreate (gr_new 2 "cites") 1 0); (gr_root, GCreate (gr_new 2 "cites") 1 1); (gr_editor, GCreate (gr_new 1 "cites") 2 2)] in
  map rel_key (relationships d) = [(1, 2, "cites"); (2, 1, "cites")] /\ simple gr_es d.
Proof.
  intros d. split; [vm_compute; reflexivity|]. apply (relationships_simple Z.ltb Z.eqb (fun z => z) gr_tenants gr_es).
  apply (bool_decide_unpack _). vm_compute. exact I.
Defined.
Lemma components_exact_witness :
  exists n m, connected_components (fun l => l) gr_edges = Some m /\ (forall k, (exists x, dict_get x m = Some k) <-> 0 <= k < n) /\ m = [(1, 0); (2, 0); (3, 0)].
Proof.
  destruct (components_exact (fun l => l) gr_edges (fun l => Permutation_refl l)) as (n & m & E & _ & _ & _ & H).
  exists n, m. split; [exact E|]. split; [exact H|]. vm_compute in E. by injection E as <-.
Defined.
Lemma communities_refine_components_witness :
  let communities := detect_communities Z.add Z.ltb Z.eqb (fun z => z) gr_edges 25 in
  map fst communities = [1; 2; 3] /\ NoDup (dict_keys communities).
Proof.
  intros communities. split; [vm_compute; reflexivity|].
  refine (proj1 (proj2 (communities_refine_components Z.add Z.ltb Z.eqb (fun z => z) (fun l => l) gr_edges 25 [(1, 0); (2, 0); (3, 0)]
    (fun l => Permutation_refl l) _))). vm_compute. reflexivity.
Defined.

(** * Where the endpoints part from what they say *)
(** The path endpoint normalises the domain twice: for a domain whose bare name
    is that of a scope, the second pass drops the filter. *)
Lemma default_domain_is_not_filtered :
  normalize_graph_domain (Some "domain:default") = Some "default" /\ normalize_graph_domain (Some "default") = None
  /\ option_map is_ok (get_shortest_path 1 2 (Some "domain:default") (Some 7) gr_chain) = Some true
  /\ match get_shortest_path 1 2 (Some "domain:default") (Some 7) gr_chain with Some (Ok (Some (r, _))) => p_path r = [1; 2] | _ => False end.
Proof. vm_compute. auto. Qed.
(** A super admin can join entities of two organisations: the row belongs to the
    source's, whose editors then see a node they cannot open. *)
Lemma relationship_crosses_tenants :
  let d := gr_db [(gr_root, GCreate (gr_new 4 "cites") 1 0)] in
  map (fun e => (src e, dst e)) (fetch_edges (Some 7) d) = [(1, 4)] /\ get_entity 4 (Some 7) d = None
  /\ fetch_edges (Some 8) d = [].
Proof. vm_compute. auto. Qed.
(** At depth 1 the relationships between two neighbours are left out, although
    both are nodes of the answer. *)
Lemma neighbour_relationship_left_out :
  let d := gr_db [(gr_editor, GCreate (gr_new 2 "cites") 1 0); (gr_editor, GCreate (gr_new 3 "cites") 1 1); (gr_editor, GCreate (gr_new 3 "cites") 2 2)] in
  match get_entity_graph (fun l => l) 1 1 (Some 7) d with
  | Some (Ok (nodes, edges)) => map gn_id nodes = [1; 2; 3] /\ map rel_key edges = [(1, 2, "cites"); (1, 3, "cites")]
  | _ => False
  end.
Proof. vm_compute. auto. Qed.
