(* ===== verification/NameKey.v ===== *)
(** * Canonical name keys (src/backend/coauthorship/identity.py)

    [name_key] is the identity of an author. Below code point 256 no character is
    Han or Hangul, so the branch for East-Asian names is never taken. The key does
    not depend on case, on diacritics or on whether the name is written in
    natural order or as "Last, First". *)
From S2P Require Import Prelude PyStr PyJson PyStrFacts Normalize.
From Stdlib Require Import Ascii String.

Local Open Scope string_scope.
Local Open Scope list_scope.

Definition STRIP_PARTS : list string :=
  ["dr"; "dr."; "prof"; "prof."; "mr"; "mr."; "mrs"; "mrs."; "ms"; "ms.";
   "phd"; "ph.d"; "md"; "m.d"; "jr"; "jr."; "sr"; "sr."; "iii"; "iv"; "ii"].
Definition PARTICLES : list string :=
  ["van"; "der"; "den"; "de"; "du"; "la"; "del"; "da"; "dos"; "el"; "al"; "von"; "di"].

(** [str.isalpha] below 256. *)
Definition is_alpha (c : ascii) : bool :=
  let n := code c in
  let in_ a b := ((a <=? n) && (n <=? b))%N in
  in_ 65%N 90%N || in_ 97%N 122%N || in_ 170%N 170%N || in_ 181%N 181%N || in_ 186%N 186%N
  || in_ 192%N 214%N || in_ 216%N 246%N || in_ 248%N 255%N.
Definition is_dot (c : ascii) : bool := bool_decide (c = "."%char).
Definition rstrip_dots (s : string) : string := on_chars (rdrop_while is_dot) s.
Definition kept (c : ascii) : bool := is_alpha c || bool_decide (c = "-"%char).
Definition alpha_lower (tok : string) : string := lower (on_chars (List.filter kept) tok).

Definition is_strip_part (t : string) : bool := bool_decide (lower (rstrip_dots t) ∈ STRIP_PARTS).
Definition is_particle (t : string) : bool := bool_decide (rstrip_dots (lower t) ∈ PARTICLES).
Definition meaningful (toks : list string) : list string := List.filter (fun t => negb (is_strip_part t)) toks.

(** The particles before the last token belong to the family name; the given
    names are in reverse order. *)
Fixpoint take_particles (rev_first last : list string) : list string * list string :=
  match rev_first with
  | t :: r => if is_particle t then take_particles r (t :: last) else (rev (t :: r), last)
  | [] => ([], last)
  end.

(** The first given name of two letters, or else the initial of the first one. *)
Fixpoint long_name (toks : list string) : option string :=
  match toks with
  | [] => None
  | t :: toks =>
      let cleaned := rstrip_dots (alpha_lower t) in
      if (2 <=? String.length cleaned)%nat then Some cleaned else long_name toks
  end.
Definition first_part (toks : list string) : string :=
  match long_name toks, toks with
  | Some n, _ => n
  | None, t :: _ => take_str 1 (alpha_lower t)
  | None, [] => ""
  end.
Definition last_part (toks : list string) : string :=
  let joined := String.concat "" (map alpha_lower toks) in
  if truthy joined then joined else match toks with t :: _ => lower t | [] => "" end.
Definition key_of (toks_first toks_last : list string) : string :=
  match meaningful toks_last with
  | [] => ""
  | toks => (last_part toks ++ "_" ++ first_part (meaningful toks_first))%string
  end.

(** A name in natural order. *)
Definition natural_key (l : list ascii) : string :=
  match rev (meaningful (split_ws [] l)) with
  | [] => ""
  | t :: r => let '(toks_first, toks_last) := take_particles r [t] in key_of toks_first toks_last
  end.

Definition name_key (surface_form : string) : string :=
  if negb (truthy (strip surface_form)) then ""
  else
    let s := chars (strip_diacritics surface_form) in
    match cut s [] with
    | Some (lhs, rhs) =>
        let toks_last := split_ws [] lhs in
        let toks_first := split_ws [] rhs in
        if bool_decide (meaningful toks_first = []) && (1 <? List.length toks_last)%nat
        then natural_key lhs
        else key_of toks_first toks_last
    | None => natural_key s
    end.

(** * Case and diacritics *)
Ltac by_chars P := apply (all_chars P); vm_compute; reflexivity.

Lemma strip_is_space c : is_space (strip_char c) = is_space c.
Proof. revert c. by_chars (fun c => is_space (strip_char c) = is_space c). Qed.
Lemma lower_is_dot c : is_dot (lower_char c) = is_dot c.
Proof. revert c. by_chars (fun c => is_dot (lower_char c) = is_dot c). Qed.
Lemma lower_kept c : kept (lower_char c) = kept c.
Proof. revert c. by_chars (fun c => kept (lower_char c) = kept c). Qed.
Lemma lower_strip_char c : strip_char (lower_char c) = lower_char (strip_char c).
Proof. revert c. by_chars (fun c => strip_char (lower_char c) = lower_char (strip_char c)). Qed.
Lemma lower_comma c : bool_decide (lower_char c = ","%char) = bool_decide (c = ","%char).
Proof. revert c. by_chars (fun c => bool_decide (lower_char c = ","%char) = bool_decide (c = ","%char)). Qed.
Lemma strip_comma c : bool_decide (strip_char c = ","%char) = bool_decide (c = ","%char).
Proof. revert c. by_chars (fun c => bool_decide (strip_char c = ","%char) = bool_decide (c = ","%char)). Qed.

Lemma truthy_strip s : truthy (strip s) = existsb (fun c => negb (is_space c)) (chars s).
Proof.
  destruct (existsb _ _) eqn:E.
  - apply existsb_exists in E as (c & Hc & Hs). apply (strip_truthy s c Hc). by apply negb_true_iff.
  - assert (Hall : Forall (fun c => is_space c = true) (chars s)).
    { apply List.Forall_forall. intros c Hc. destruct (is_space c) eqn:Ec; [done|].
      enough (existsb (fun c => negb (is_space c)) (chars s) = true) by congruence. apply existsb_exists. exists c. by rewrite Ec. }
    unfold strip, on_chars. replace (drop_while is_space (chars s)) with (@nil ascii); [done|].
    clear E. induction Hall as [|c l Hc _ IH]; cbn; [done|]. by rewrite Hc.
Qed.
Lemma existsb_map {A B} (f : A -> B) p l : existsb p (map f l) = existsb (fun x => p (f x)) l.
Proof. induction l as [|x l IH]; cbn; [done|]. by rewrite IH. Qed.
Lemma existsb_ext {A} (p q : A -> bool) l : (forall x, p x = q x) -> existsb p l = existsb q l.
Proof. intros H. induction l as [|x l IH]; cbn; [done|]. by rewrite H, IH. Qed.

(** A map of characters that keeps whitespace and commas where they are. *)
Section char_map.
Context (f : ascii -> ascii).
Hypothesis f_space : forall c, is_space (f c) = is_space c.
Hypothesis f_comma : forall c, bool_decide (f c = ","%char) = bool_decide (c = ","%char).

Lemma of_chars_map l : of_chars (map f l) = on_chars (map f) (of_chars l).
Proof. unfold on_chars. by rewrite chars_of_chars. Qed.
Lemma split_ws_map l : forall acc, split_ws (map f acc) (map f l) = map (on_chars (map f)) (split_ws acc l).
Proof.
  induction l as [|c l IH]; intros acc; cbn [map split_ws].
  - destruct acc as [|a acc]; [done|]. cbn [map]. by rewrite <- map_cons, <- map_rev, of_chars_map.
  - rewrite f_space. destruct (is_space c).
    + destruct acc as [|a acc]; [apply (IH [])|]. cbn [map]. rewrite <- map_cons, <- map_rev, of_chars_map. f_equal. apply (IH []).
    + apply (IH (c :: acc)).
Qed.
Lemma cut_map l : forall acc, cut (map f l) (map f acc) =
  match cut l acc with Some (a, b) => Some (map f a, map f b) | None => None end.
Proof.
  induction l as [|c l IH]; intros acc; cbn; [done|]. rewrite f_comma. case_bool_decide; [by rewrite map_rev|apply (IH (c :: acc))].
Qed.
End char_map.

Lemma lower_words l : split_ws [] (map lower_char l) = map lower (split_ws [] l).
Proof. apply (split_ws_map lower_char lower_is_space l []). Qed.

Lemma rstrip_dots_lower t : rstrip_dots (lower t) = lower (rstrip_dots t).
Proof.
  unfold rstrip_dots, lower, on_chars, rdrop_while. rewrite !chars_of_chars. f_equal.
  rewrite <- map_rev, drop_while_map by apply lower_is_dot. by rewrite map_rev.
Qed.
Lemma lower_lower t : lower (lower t) = lower t.
Proof.
  unfold lower, on_chars. rewrite chars_of_chars, map_map. f_equal. apply map_ext, lower_idem.
Qed.
Lemma is_strip_part_lower t : is_strip_part (lower t) = is_strip_part t.
Proof. unfold is_strip_part. by rewrite rstrip_dots_lower, lower_lower. Qed.
Lemma is_particle_lower t : is_particle (lower t) = is_particle t.
Proof. unfold is_particle. by rewrite lower_lower. Qed.
Lemma alpha_lower_lower t : alpha_lower (lower t) = alpha_lower t.
Proof.
  unfold alpha_lower, lower, on_chars. rewrite !chars_of_chars. f_equal.
  induction (chars t) as [|c l IH]; cbn; [done|]. rewrite lower_kept. destruct (kept c); cbn; [|done]. by rewrite lower_idem, IH.
Qed.
Lemma meaningful_lower l : meaningful (map lower l) = map lower (meaningful l).
Proof.
  unfold meaningful. induction l as [|t l IH]; cbn; [done|]. rewrite is_strip_part_lower.
  destruct (is_strip_part t); cbn; [done|]. by rewrite IH.
Qed.
Lemma first_part_lower l : first_part (map lower l) = first_part l.
Proof.
  unfold first_part. replace (long_name (map lower l)) with (long_name l); [|induction l as [|t l IH]; cbn; [done|]; by rewrite alpha_lower_lower, <- IH].
  destruct (long_name l); [done|]. destruct l; cbn; [done|]. by rewrite alpha_lower_lower.
Qed.
Lemma key_of_lower a b : key_of (map lower a) (map lower b) = key_of a b.
Proof.
  unfold key_of. rewrite !meaningful_lower, first_part_lower. destruct (meaningful b) as [|t l] eqn:E; cbn [map]; [done|].
  unfold last_part. rewrite <- map_cons, map_map.
  rewrite (map_ext _ alpha_lower) by (intros; apply alpha_lower_lower). cbn [map]. by rewrite lower_lower.
Qed.
Lemma take_particles_lower r : forall l,
  take_particles (map lower r) (map lower l) = (map lower (take_particles r l).1, map lower (take_particles r l).2).
Proof.
  induction r as [|t r IH]; intros l; cbn -[rev]; [done|]. rewrite is_particle_lower.
  destruct (is_particle t); [apply (IH (t :: l))|]. cbn [fst snd]. by rewrite map_rev.
Qed.
Lemma natural_key_lower l : natural_key (map lower_char l) = natural_key l.
Proof.
  unfold natural_key. rewrite lower_words, meaningful_lower, <- map_rev.
  destruct (rev (meaningful (split_ws [] l))) as [|t r]; cbn [map]; [done|].
  change [lower t] with (map lower [t]). rewrite take_particles_lower.
  destruct (take_particles r [t]) as [a b]. cbn [fst snd]. apply key_of_lower.
Qed.

Lemma name_key_lower s : name_key (lower s) = name_key s.
Proof.
  unfold name_key. rewrite !truthy_strip. unfold lower at 1, on_chars at 1. rewrite chars_of_chars, existsb_map.
  rewrite (existsb_ext _ (fun c => negb (is_space c))) by (intros; by rewrite lower_is_space).
  destruct (existsb _ _); [|done]. cbn [negb].
  replace (chars (strip_diacritics (lower s))) with (map lower_char (chars (strip_diacritics s))).
  2:{ unfold strip_diacritics, lower, on_chars. rewrite !chars_of_chars, !map_map. apply map_ext. intros c. by rewrite lower_strip_char. }
  pose proof (cut_map lower_char lower_comma (chars (strip_diacritics s)) []) as Hc. cbn [map] in Hc.
  rewrite Hc. clear Hc. destruct (cut (chars (strip_diacritics s)) []) as [[a b]|]; [|apply natural_key_lower].
  rewrite !lower_words, meaningful_lower, length_map, natural_key_lower, key_of_lower.
  rewrite (bool_decide_ext (map lower (meaningful (split_ws [] b)) = []) (meaningful (split_ws [] b) = [])); [done|].
  by destruct (meaningful (split_ws [] b)).
Qed.
Lemma name_key_diacritics s : name_key (strip_diacritics s) = name_key s.
Proof.
  unfold name_key. rewrite !truthy_strip. replace (strip_diacritics (strip_diacritics s)) with (strip_diacritics s).
  2:{ unfold strip_diacritics, on_chars. rewrite chars_of_chars, map_map. f_equal. apply map_ext. intros c. by rewrite strip_stable. }
  replace (existsb _ (chars (strip_diacritics s))) with (existsb (fun c => negb (is_space c)) (chars s)); [done|].
  unfold strip_diacritics, on_chars. rewrite chars_of_chars, existsb_map. apply existsb_ext. intros. by rewrite strip_is_space.
Qed.

(** * Natural and inverted order *)
(** A token that is a word of a name and no title. *)
Definition word (t : string) : Prop :=
  t <> "" /\ Forall (fun c => is_space c = false /\ c <> ","%char) (chars t) /\ is_strip_part (strip_diacritics t) = false.
#[export] Instance word_dec t : Decision (word t).
Proof. unfold word. apply _. Defined.

Definition comma_free (l : list ascii) : Prop := Forall (fun c => c <> ","%char) l.
Lemma cut_none l : comma_free l -> forall acc, cut l acc = None.
Proof. induction 1 as [|c l Hc _ IH]; intros acc; cbn; [done|]. by rewrite bool_decide_eq_false_2. Qed.
Lemma cut_comma a b : comma_free a -> forall acc, cut (a ++ ","%char :: b) acc = Some (rev acc ++ a, b).
Proof.
  induction 1 as [|c a Hc _ IH]; intros acc; cbn; [by rewrite app_nil_r|].
  rewrite bool_decide_eq_false_2 by done. rewrite IH. cbn. by rewrite <- app_assoc.
Qed.

Lemma split_ws_word t l acc : Forall (fun c => is_space c = false) t -> split_ws acc (t ++ l) = split_ws (rev t ++ acc) l.
Proof.
  intros H. revert acc. induction H as [|c t Hc _ IH]; intros acc; cbn; [done|]. rewrite Hc, IH. by rewrite <- app_assoc.
Qed.
Lemma split_ws_end t : t <> [] -> split_ws (rev t) [] = [of_chars t].
Proof.
  intros Ht. destruct (rev t) as [|c r] eqn:E.
  - exfalso. apply Ht. apply (f_equal (@rev ascii)) in E. by rewrite rev_involutive in E.
  - cbn [split_ws]. by rewrite <- E, rev_involutive.
Qed.
Definition solid_word (t : string) : Prop := t <> "" /\ Forall (fun c => is_space c = false) (chars t).
Lemma chars_ne t : t <> "" -> chars t <> [].
Proof. by destruct t. Qed.
Lemma split_ws_join ws : Forall solid_word ws -> split_ws [] (chars (join " " ws)) = ws.
Proof.
  induction 1 as [|t ws [Hne Ht] Hws IH]; [done|]. destruct ws as [|u ws].
  - cbn [join]. rewrite <- (app_nil_r (chars t)), split_ws_word, app_nil_r by done.
    rewrite split_ws_end by (by apply chars_ne). by rewrite of_chars_chars.
  - rewrite join_cons_ne by done. rewrite !chars_app. cbn [chars]. rewrite split_ws_word by done. cbn [app].
    cbn [split_ws]. rewrite app_nil_r. destruct (rev (chars t)) as [|c r] eqn:E.
    + exfalso. apply (chars_ne t Hne). apply (f_equal (@rev ascii)) in E. by rewrite rev_involutive in E.
    + replace (is_space " "%char) with true by done. by rewrite <- E, rev_involutive, of_chars_chars, IH.
Qed.

Lemma strip_join ws : strip_diacritics (join " " ws) = join " " (map strip_diacritics ws).
Proof.
  induction ws as [|t ws IH]; [done|]. destruct ws as [|u ws]; [done|].
  rewrite join_cons_ne by done. change (map strip_diacritics (t :: u :: ws)) with (strip_diacritics t :: map strip_diacritics (u :: ws)).
  rewrite (join_cons_ne _ (strip_diacritics t)) by done. rewrite <- IH.
  unfold strip_diacritics, on_chars. by rewrite !chars_app, !map_app, !of_chars_app.
Qed.
Lemma strip_app s t : chars (strip_diacritics (s ++ t)) = chars (strip_diacritics s) ++ chars (strip_diacritics t).
Proof. unfold strip_diacritics, on_chars. by rewrite !chars_of_chars, chars_app, map_app. Qed.

Lemma word_strip t : word t -> solid_word (strip_diacritics t) /\ comma_free (chars (strip_diacritics t)).
Proof.
  intros (Hne & Hc & _). unfold solid_word, comma_free, strip_diacritics, on_chars. rewrite chars_of_chars.
  split; [split|].
  - intros E. apply (chars_ne t Hne). apply (f_equal chars) in E. rewrite chars_of_chars in E. by destruct (chars t).
  - apply Forall_map. apply (Forall_impl _ _ _ Hc). intros c [H _]. cbn. by rewrite strip_is_space.
  - apply Forall_map. apply (Forall_impl _ _ _ Hc). intros c [_ H]. cbn. intros E.
    pose proof (strip_comma c) as Hs. rewrite bool_decide_eq_true_2, bool_decide_eq_false_2 in Hs; done.
Qed.
Lemma comma_free_join ws : Forall (fun t => comma_free (chars t)) ws -> comma_free (chars (join " " ws)).
Proof.
  unfold comma_free. induction 1 as [|t ws Ht Hws IH]; [done|]. destruct ws as [|u ws]; [exact Ht|].
  rewrite join_cons_ne by done. rewrite !chars_app. apply Forall_app. split; [exact Ht|]. apply Forall_app. split; [|done]. repeat constructor. done.
Qed.
Lemma meaningful_words ws : Forall word ws -> meaningful (map strip_diacritics ws) = map strip_diacritics ws.
Proof.
  unfold meaningful. induction 1 as [|t ws (_ & _ & Hp) Hws IH]; cbn; [done|]. by rewrite Hp, IH.
Qed.
Lemma take_particles_split parts r : forall l, Forall (fun t => is_particle t = true) parts ->
  (forall t r', r = t :: r' -> is_particle t = false) ->
  take_particles (parts ++ r) l = (rev r, rev parts ++ l).
Proof.
  intros l Hp. revert l. induction Hp as [|t parts Ht _ IH]; intros l Hr.
  - cbn [app rev]. destruct r as [|t r]; [done|]. cbn [take_particles]. by rewrite (Hr t r eq_refl).
  - cbn [app take_particles]. rewrite Ht, IH by done. cbn [rev]. by rewrite <- app_assoc.
Qed.
Lemma natural_words firsts parts last :
  Forall word (firsts ++ parts ++ [last]) -> Forall (fun t => is_particle (strip_diacritics t) = true) parts ->
  (forall t r, firsts = r ++ [t] -> is_particle (strip_diacritics t) = false) ->
  natural_key (chars (strip_diacritics (join " " (firsts ++ parts ++ [last]))))
  = key_of (map strip_diacritics firsts) (map strip_diacritics (parts ++ [last])).
Proof.
  intros Hw Hp Hf. unfold natural_key. rewrite strip_join, split_ws_join.
  2:{ apply Forall_map. apply (Forall_impl _ _ _ Hw). intros t Ht. by apply word_strip. }
  rewrite meaningful_words by done. rewrite !map_app, !rev_app_distr. cbn [map rev app].
  rewrite take_particles_split.
  - by rewrite !rev_involutive.
  - apply Forall_rev. by apply Forall_map.
  - intros t r E. apply (f_equal (@rev string)) in E. rewrite rev_involutive in E. cbn [rev] in E.
    destruct firsts as [|x l _] using rev_ind; [by destruct (rev r)|]. rewrite map_app in E. cbn [map] in E.
    apply app_inj_tail in E as [_ <-]. by eapply Hf.
Qed.
Lemma join_truthy ws : ws <> [] -> Forall word ws -> truthy (strip (join " " ws)) = true.
Proof.
  intros Hne H. destruct H as [|t ws (Ht & Hc & _) _]; [done|]. destruct t as [|c t]; [done|].
  apply Forall_cons in Hc as [[Hc _] _]. apply (strip_truthy _ c); [|done].
  destruct ws as [|u ws]; [by left|]. rewrite join_cons_ne by done. by left.
Qed.

Lemma name_key_natural firsts parts last :
  Forall word (firsts ++ parts ++ [last]) -> Forall (fun t => is_particle (strip_diacritics t) = true) parts ->
  (forall t r, firsts = r ++ [t] -> is_particle (strip_diacritics t) = false) ->
  name_key (join " " (firsts ++ parts ++ [last])) = key_of (map strip_diacritics firsts) (map strip_diacritics (parts ++ [last])).
Proof.
  intros Hw Hp Hf. unfold name_key. rewrite join_truthy; [|by destruct firsts, parts|done]. cbn [negb].
  rewrite cut_none; [by apply natural_words|]. rewrite strip_join. apply comma_free_join, Forall_map.
  apply (Forall_impl _ _ _ Hw). intros t Ht. by apply word_strip.
Qed.
Lemma name_key_inverted firsts parts last :
  Forall word (firsts ++ parts ++ [last]) -> Forall (fun t => is_particle (strip_diacritics t) = true) parts ->
  name_key (join " " (parts ++ [last]) ++ ", " ++ join " " firsts) = key_of (map strip_diacritics firsts) (map strip_diacritics (parts ++ [last])).
Proof.
  intros Hw Hp. pose proof Hw as [Hw1 Hw2]%Forall_app. unfold name_key.
  set (lhs := join " " (parts ++ [last])).
  assert (Ht : truthy (strip (lhs ++ ", " ++ join " " firsts)) = true).
  { pose proof (join_truthy (parts ++ [last]) ltac:(by destruct parts) Hw2) as H. rewrite truthy_strip in *.
    rewrite chars_app, existsb_app. fold lhs in H. by rewrite H. }
  rewrite Ht. cbn [negb]. rewrite strip_app. change (chars (strip_diacritics (", " ++ join " " firsts))) with
    (","%char :: " "%char :: chars (strip_diacritics (join " " firsts))).
  rewrite cut_comma.
  2:{ unfold lhs. rewrite strip_join. apply comma_free_join, Forall_map. apply (Forall_impl _ _ _ Hw2). intros t Hx. by apply word_strip. }
  cbn [rev app split_ws]. replace (is_space " "%char) with true by done.
  assert (Hs : forall ws, Forall word ws -> split_ws [] (chars (strip_diacritics (join " " ws))) = map strip_diacritics ws).
  { intros ws H. rewrite strip_join. apply split_ws_join, Forall_map. apply (Forall_impl _ _ _ H). intros t Hx. by apply word_strip. }
  unfold lhs. rewrite !Hs by done. rewrite meaningful_words by done.
  destruct firsts as [|f firsts]; [|by rewrite bool_decide_eq_false_2].
  rewrite bool_decide_eq_true_2 by done. cbn [andb map]. destruct (1 <? _)%nat; [|done].
  apply (natural_words [] parts last Hw2 Hp). intros t r E. by destruct r.
Qed.

(** one key per name. Written in natural order or as "Last, First", with the
    particles (van, de la) before the family name, in any case and with or without
    diacritics, a name of ordinary words has the same key. *)
Theorem one_key_per_name firsts parts last :
  Forall word (firsts ++ parts ++ [last]) -> Forall (fun t => is_particle (strip_diacritics t) = true) parts ->
  (forall t r, firsts = r ++ [t] -> is_particle (strip_diacritics t) = false) ->
  let natural := join " " (firsts ++ parts ++ [last]) in
  let inverted := (join " " (parts ++ [last]) ++ ", " ++ join " " firsts)%string in
  name_key inverted = name_key natural /\
  (forall s, name_key (lower s) = name_key s) /\ (forall s, name_key (strip_diacritics s) = name_key s).
Proof.
  intros Hw Hp Hf natural inverted. split; [|split; [apply name_key_lower|apply name_key_diacritics]].
  unfold natural, inverted. by rewrite name_key_natural, name_key_inverted.
Qed.
Lemma one_key_per_name_witness :
  name_key "de la Cruz, Juan Pablo" = name_key "Juan Pablo de la Cruz" /\ name_key "Juan Pablo de la Cruz" = "delacruz_juan".
Proof.
  split; [|vm_compute; reflexivity]. refine (proj1 (one_key_per_name ["Juan"; "Pablo"] ["de"; "la"] "Cruz" _ _ _)).
  - apply (bool_decide_unpack _). vm_compute. exact I.
  - repeat constructor.
  - intros t r E. change ["Juan"; "Pablo"] with (["Juan"] ++ ["Pablo"]) in E. apply app_inj_tail in E as [_ <-]. vm_compute. reflexivity.
Defined.
