(* ===== verification/Coauthor.v ===== *)
(** * The coauthorship graph
      (src/backend/coauthorship/, enrichment_worker.py, analyzers/coauthorship.py,
      routers/coauthorship.py, authority/coauthorship_signal.py)

    Authors, their publications and the weighted edges between them, with the log
    of contributions that makes an edge count each work once; merging and its
    review queue; the statistics that a recompute materialises per scope. The
    decoder of entity attributes and the graph library (Louvain, components,
    centrality, degree) are parameters. JSON columns hold their value. *)
From S2P Require Import Prelude PyStr PyJson PyValue TenantAccess JobsApi Entities UnionFind NameKey.
From Stdlib Require Import Ascii String.

Local Open Scope string_scope.
Local Open Scope list_scope.
Local Open Scope Z_scope.
Local Open Scope py_scope.

(** * Tables (models.py) *)
Record Author := mkAuthor {
  au_id : Z; au_key : string; au_name : string; au_aliases : list string; au_orcid : option string; au_seen : Z }.
Record Publication := mkPub { pb_author : Z; pb_entity : Z; pb_org : Z; pb_domain : string; pb_position : option Z }.
Record CoEdge := mkEdge { ce_a : Z; ce_b : Z; ce_org : Z; ce_domain : string; ce_weight : Z; ce_seen : Z }.
Record Contribution := mkContrib { cc_entity : Z; cc_a : Z; cc_b : Z; cc_org : Z; cc_domain : string }.
Record DirtyScope := mkDirty { ds_scope : Z * string; ds_at : Z; ds_reason : string }.
Record Suggestion := mkSug {
  sg_id : Z; sg_a : Z; sg_b : Z; sg_reason : string; sg_evidence : json; sg_status : string;
  sg_resolved_at : option Z; sg_resolved_by : option Z }.
Record MergeAudit := mkAudit {
  ma_winner : Z; ma_loser : Z; ma_tier : string; ma_reason : string; ma_evidence : json; ma_by : option Z }.
Record AuthorStats (F : Type) := mkStats {
  st_author : Z; st_scope : Z * string; st_degree : Z; st_centrality : F; st_community : Z; st_pubs : Z; st_at : Z }.
Arguments mkStats {F}. Arguments st_author {F}. Arguments st_scope {F}. Arguments st_degree {F}.
Arguments st_centrality {F}. Arguments st_community {F}. Arguments st_pubs {F}. Arguments st_at {F}.

Record CoDb (F : Type) := mkCo {
  authors : list Author; au_seq : Z; pubs : list Publication; edges : list CoEdge; contribs : list Contribution;
  dirty : list DirtyScope; suggestions : list Suggestion; sg_seq : Z; audits : list MergeAudit;
  stats : list (AuthorStats F); raw_entities : list Entity }.
Arguments mkCo {F}. Arguments authors {F}. Arguments au_seq {F}. Arguments pubs {F}. Arguments edges {F}. Arguments contribs {F}.
Arguments dirty {F}. Arguments suggestions {F}. Arguments sg_seq {F}. Arguments audits {F}. Arguments stats {F}. Arguments raw_entities {F}.

Definition pb_scope (p : Publication) : Z * string := (pb_org p, pb_domain p).
Definition ce_scope (e : CoEdge) : Z * string := (ce_org e, ce_domain e).
Definition ce_key (e : CoEdge) : Z * Z * Z * string := (ce_a e, ce_b e, ce_org e, ce_domain e).
(** The primary key of the log, and the edge a row of it counts for. *)
Definition cc_key (c : Contribution) : Z * Z * Z := (cc_entity c, cc_a c, cc_b c).
Definition cc_edge (c : Contribution) : Z * Z * Z * string := (cc_a c, cc_b c, cc_org c, cc_domain c).
Definition touches (i : Z) (ab : Z * Z) : bool := (ab.1 =? i) || (ab.2 =? i).

Section tables.
Context {F : Type}.
Implicit Types d : CoDb F.
Definition with_authors (f : list Author -> list Author) d : CoDb F :=
  mkCo (f (authors d)) (au_seq d) (pubs d) (edges d) (contribs d) (dirty d) (suggestions d) (sg_seq d) (audits d) (stats d) (raw_entities d).
Definition insert_author (a : Author) d : CoDb F :=
  mkCo (authors d ++ [a]) (au_id a) (pubs d) (edges d) (contribs d) (dirty d) (suggestions d) (sg_seq d) (audits d) (stats d) (raw_entities d).
Definition with_pubs (f : list Publication -> list Publication) d : CoDb F :=
  mkCo (authors d) (au_seq d) (f (pubs d)) (edges d) (contribs d) (dirty d) (suggestions d) (sg_seq d) (audits d) (stats d) (raw_entities d).
Definition with_edges (f : list CoEdge -> list CoEdge) d : CoDb F :=
  mkCo (authors d) (au_seq d) (pubs d) (f (edges d)) (contribs d) (dirty d) (suggestions d) (sg_seq d) (audits d) (stats d) (raw_entities d).
Definition with_contribs (f : list Contribution -> list Contribution) d : CoDb F :=
  mkCo (authors d) (au_seq d) (pubs d) (edges d) (f (contribs d)) (dirty d) (suggestions d) (sg_seq d) (audits d) (stats d) (raw_entities d).
Definition with_dirty (f : list DirtyScope -> list DirtyScope) d : CoDb F :=
  mkCo (authors d) (au_seq d) (pubs d) (edges d) (contribs d) (f (dirty d)) (suggestions d) (sg_seq d) (audits d) (stats d) (raw_entities d).
Definition with_suggestions (f : list Suggestion -> list Suggestion) (n : Z) d : CoDb F :=
  mkCo (authors d) (au_seq d) (pubs d) (edges d) (contribs d) (dirty d) (f (suggestions d)) n (audits d) (stats d) (raw_entities d).
Definition add_merge_audit (a : MergeAudit) d : CoDb F :=
  mkCo (authors d) (au_seq d) (pubs d) (edges d) (contribs d) (dirty d) (suggestions d) (sg_seq d) (audits d ++ [a]) (stats d) (raw_entities d).
Definition with_stats (f : list (AuthorStats F) -> list (AuthorStats F)) d : CoDb F :=
  mkCo (authors d) (au_seq d) (pubs d) (edges d) (contribs d) (dirty d) (suggestions d) (sg_seq d) (audits d) (f (stats d)) (raw_entities d).
End tables.

Definition IntegrityError (columns : string) : exn := Exn "IntegrityError" ("UNIQUE constraint failed: " ++ columns).

(** * Author lists of an entity (analyzers/coauthorship.py) *)
Definition MAX_AUTHORS_FOR_COAUTH : nat := 15.
Definition get_key (k : string) (m : list (string * json)) : json := match dict_get k m with Some v => v | None => JNull end.
Definition py_or (a b : json) : json := if py_true a then a else b.
Fixpoint normalize_author_payload (raw : json) : list string :=
  match raw with
  | JStr s => List.filter truthy (map strip (split_on ";" (replace_all "|" ";" s)))
  | JObj m =>
      let name := py_or (py_or (py_or (get_key "name" m) (get_key "author_name" m)) (get_key "display_name" m)) (get_key "full_name" m) in
      let text := strip (py_str name) in
      if py_true name && truthy text then [text] else []
  | JArr l =>
      first_seen ((fix go l := match l with [] => [] | x :: l => normalize_author_payload x ++ go l end) l)
  | _ => []
  end.
Fixpoint first_author_list (candidates : list json) : list string :=
  match candidates with
  | [] => []
  | raw :: rest =>
      let authors := normalize_author_payload raw in
      if (2 <=? List.length authors)%nat then authors else first_author_list rest
  end.
Section decoder.
Context (loads : string -> option json).
Definition authors_from_attrs (attrs_json : option string) : res (list string) :=
  match attrs_json with
  | None => Ok []
  | Some s =>
      if negb (truthy s) then Ok []
      else match loads s with
           | None => Ok []
           | Some v =>
               match py_or v (JObj []) with
               | JObj m =>
                   let raw_record := match get_key "raw_record" m with
                     | JObj r => [get_key "authors" r; get_key "author" r; get_key "AU" r; get_key "AF" r]
                     | _ => [] end in
                   Ok (first_author_list ([get_key "enrichment_authors" m; get_key "authors" m; get_key "canonical_authors" m;
                                           get_key "author_affiliations" m] ++ raw_record))
               | v => Raise (no_attr v "get")
               end
           end
  end.
Definition authors_of (e : Entity) : res (list string) := authors_from_attrs (column "attributes_json" e).
End decoder.

(** [itertools.combinations(l, 2)] *)
Fixpoint combinations2 {A} (l : list A) : list (A * A) :=
  match l with [] => [] | x :: l => map (fun y => (x, y)) l ++ combinations2 l end.

(** * Authors (coauthorship/identity.py) *)
Definition ALIAS_CAP : nat := 50.
Definition set_aliases (items : list string) : list string := firstn ALIAS_CAP (first_seen (List.filter truthy items)).
Definition or_text (o : option string) : bool := match o with Some s => truthy s | None => false end.
Definition find_author (key : string) (l : list Author) : option Author := List.find (fun a => bool_decide (au_key a = key)) l.
Definition author_by_id (i : Z) (l : list Author) : option Author := List.find (fun a => au_id a =? i) l.
Definition orcid_taken (a : Author) (l : list Author) : bool :=
  match au_orcid a with
  | None => false
  | Some o => existsb (fun b => negb (au_id b =? au_id a) && bool_decide (au_orcid b = Some o)) l
  end.
Definition seen_as (surface_form : string) (orcid : option string) (now : Z) (a : Author) : Author :=
  let aliases := if bool_decide (surface_form ∈ au_aliases a) then au_aliases a else set_aliases (surface_form :: au_aliases a) in
  let o := if or_text orcid && negb (or_text (au_orcid a)) then orcid else au_orcid a in
  mkAuthor (au_id a) (au_key a) (au_name a) aliases o now.

Section coauthor.
Context {F : Type} (loads : string -> option json).
Implicit Types d : CoDb F.

(** [others]: what other writers commit between the query and the insert. A
    unique violation rolls the transaction back. *)
Definition get_or_create_author (others : CoDb F -> CoDb F) (now : Z) (surface_form : string) (orcid : option string) : M (CoDb F) Author :=
  let key := name_key surface_form in
  if negb (truthy key) then mraise (Exn "ValueError" "empty name_key from surface form")
  else
    do! d <- mget;
    match find_author key (authors d) with
    | Some existing =>
        let a := seen_as surface_form orcid now existing in
        if orcid_taken a (authors d) then run! rollback; mraise (IntegrityError "authors.orcid")
        else
          run! mmodify (with_authors (update_where (fun r => au_id r =? au_id existing) (fun _ => a)));
          run! commit;
          mret a
    | None =>
        run! interfere others;
        do! d <- mget;
        let a := mkAuthor (au_seq d + 1) key surface_form (set_aliases [surface_form]) orcid now in
        match find_author key (authors d) with
        | None =>
            if orcid_taken a (authors d) then
              run! rollback;
              mraise (Exn "NoResultFound" "No row was found when one was required")
            else run! mmodify (insert_author a); run! commit; mret a
        | Some _ =>
            run! rollback;
            do! d <- mget;
            match find_author key (authors d) with
            | Some b => mret b
            | None => mraise (Exn "NoResultFound" "No row was found when one was required")
            end
        end
    end.

(** * Writing the artifacts of one work (enrichment_worker.py) *)
Definition scope_of (e : Entity) : Z * string :=
  (match en_org e with Some o => o | None => 0 end,
   match column "domain" e with Some s => if truthy s then s else "default" | None => "default" end).

(** [db.merge] of a marker: the reason of an existing one changes, its time
    stays. *)
Definition mark_dirty (reason : string) (now : Z) d (scope : Z * string) : CoDb F :=
  with_dirty (fun l => if existsb (fun s => bool_decide (ds_scope s = scope)) l
                       then update_where (fun s => bool_decide (ds_scope s = scope)) (fun s => mkDirty (ds_scope s) (ds_at s) reason) l
                       else l ++ [mkDirty scope now reason]) d.

Definition of_entity (i : Z) (p : Publication) : bool := pb_entity p =? i.
Definition entity_scopes (i : Z) d : list (Z * string) := first_seen (map pb_scope (List.filter (of_entity i) (pubs d))).
(** Whether a write moves the entity to another scope. *)
Definition moves (e : Entity) d : bool :=
  let prior := entity_scopes (en_id e) d in
  negb (bool_decide (prior = [])) && negb (bool_decide (scope_of e ∈ prior)).
Definition reassign (now : Z) (e : Entity) d : CoDb F :=
  if moves e d then
    let i := en_id e in
    let '(org, domain) := scope_of e in
    let d := fold_left (mark_dirty "reassign" now) (entity_scopes i d) d in
    let d := with_pubs (update_where (of_entity i) (fun p => mkPub (pb_author p) i org domain (pb_position p))) d in
    with_contribs (List.filter (fun c => negb (cc_entity c =? i))) d
  else d.

Definition new_pubs (e : Entity) (author_ids : list (Z * Z)) d : list Publication :=
  let existing := map pb_author (List.filter (of_entity (en_id e)) (pubs d)) in
  map (fun ap => mkPub ap.1 (en_id e) (scope_of e).1 (scope_of e).2 (Some ap.2))
    (List.filter (fun ap => negb (bool_decide (ap.1 ∈ existing))) author_ids).

Definition bump_edge (now : Z) (key : Z * Z * Z * string) (l : list CoEdge) : list CoEdge :=
  let '(a, b, org, domain) := key in
  if existsb (fun e => bool_decide (ce_key e = key)) l
  then update_where (fun e => bool_decide (ce_key e = key)) (fun e => mkEdge a b org domain (ce_weight e + 1) now) l
  else l ++ [mkEdge a b org domain 1 now].
(** One pair: its row in the log is the primary key, and a pair that has it is
    skipped. *)
Definition contribute (now : Z) (e : Entity) d (ab : Z * Z) : CoDb F :=
  let '(a, b) := ab in
  if a =? b then d
  else
    let lo := Z.min a b in
    let hi := Z.max a b in
    if existsb (fun c => bool_decide (cc_key c = (en_id e, lo, hi))) (contribs d) then d
    else
      let '(org, domain) := scope_of e in
      with_edges (bump_edge now (lo, hi, org, domain))
        (with_contribs (fun l => l ++ [mkContrib (en_id e) lo hi org domain]) d).

Fixpoint resolve_authors (now : Z) (names : list string) (pos : Z) : M (CoDb F) (list (Z * Z)) :=
  match names with
  | [] => mret []
  | name :: names =>
      do! a <- get_or_create_author (fun d => d) now name None;
      do! rest <- resolve_authors now names (pos + 1);
      mret ((au_id a, pos) :: rest)
  end.

Definition write_coauthor_artifacts (v2_write force : bool) (now : Z) (e : Entity) : M (CoDb F) unit :=
  if negb force && negb v2_write then mret tt
  else
    do! names <- mlift (authors_of loads e);
    if (List.length names <? 2)%nat then mret tt
    else
      do! author_ids <- resolve_authors now (firstn MAX_AUTHORS_FOR_COAUTH names) 1;
      run! mmodify (reassign now e);
      do! d <- mget;
      let news := new_pubs e author_ids d in
      if negb (bool_decide (NoDup (map pb_author news))) then
        run! rollback; mraise (IntegrityError "author_publications.author_id, author_publications.entity_id")
      else
        run! mmodify (with_pubs (fun l => l ++ news));
        run! mmodify (fun d => fold_left (contribute now e) (combinations2 (map fst author_ids)) d);
        mmodify (fun d => mark_dirty "enrichment" now d (scope_of e)).
(** The step of [_after_enrichment_commit]: its own unit of work. *)
Definition coauthor_hook (v2_write : bool) (now : Z) (e : Entity) : M (CoDb F) unit :=
  mtry (run! write_coauthor_artifacts v2_write false now e; commit) (fun _ => rollback).

(** * Identity decisions (coauthorship/identity.py) *)
Record MergeDecision := mkDecision { md_tier : string; md_reason : string; md_evidence : json }.

Fixpoint cut_under (l acc : list ascii) : option (string * string) :=
  match l with
  | [] => None
  | c :: l => if bool_decide (c = "_"%char) then Some (of_chars (rev acc), of_chars l) else cut_under l (c :: acc)
  end.
(** One key holds the initial of the other's first name. *)
Definition last_initial_pair (a_key b_key : string) : bool :=
  match cut_under (chars a_key) [], cut_under (chars b_key) [] with
  | Some (la, fa), Some (lb, fb) =>
      if negb (bool_decide (la = lb)) || negb (truthy fa) || negb (truthy fb) then false
      else xorb (String.length fa =? 1)%nat (String.length fb =? 1)%nat && (startswith fa (take_str 1 fb) || startswith fb (take_str 1 fa))
  | _, _ => false
  end.

Definition publication_entity_ids (author : Z) d : list Z := first_seen (map pb_entity (List.filter (fun p => pb_author p =? author) (pubs d))).
Definition shared_publication_ids (a b : Z) d : list Z :=
  sort_by Z.leb (List.filter (fun i => bool_decide (i ∈ publication_entity_ids b d)) (publication_entity_ids a d)).
Definition affiliation_of (e : Entity) : res (list string) :=
  match loads (match column "attributes_json" e with Some s => if truthy s then s else "{}" | None => "{}" end) with
  | None => Ok []
  | Some v =>
      let? a := get_or "affiliation" JNull v in
      let? b := get_or "enrichment_affiliation" JNull v in
      match py_or a b with
      | JStr s => Ok (if truthy (strip s) then [lower (strip s)] else [])
      | _ => Ok []
      end
  end.
Fixpoint affiliations_of (es : list Entity) : res (list string) :=
  match es with
  | [] => Ok []
  | e :: es => let? x := affiliation_of e in let? rest := affiliations_of es in Ok (x ++ rest)
  end.
Definition affiliations_for_entities (ids : list Z) d : res (list string) :=
  let? l := affiliations_of (List.filter (fun e => bool_decide (en_id e ∈ ids)) (raw_entities d)) in Ok (first_seen l).
Definition shared_affiliations (a b : Z) d : res (list string) :=
  match publication_entity_ids a d, publication_entity_ids b d with
  | [], _ | _, [] => Ok []
  | ia, ib =>
      let? fa := affiliations_for_entities ia d in
      let? fb := affiliations_for_entities ib d in
      Ok (sort_by str_le (List.filter (fun x => bool_decide (x ∈ fb)) fa))
  end.
Definition orcid_text (o : option string) : string := match o with Some s => s | None => "" end.

Definition classify_merge d (a b : Author) : res MergeDecision :=
  let both := or_text (au_orcid a) && or_text (au_orcid b) in
  if both && bool_decide (au_orcid a = au_orcid b) then
    Ok (mkDecision "strong" "orcid match" (JObj [("orcid", JStr (orcid_text (au_orcid a)))]))
  else if both then
    Ok (mkDecision "distinct" "orcid conflict" (JObj [("a", JStr (orcid_text (au_orcid a))); ("b", JStr (orcid_text (au_orcid b)))]))
  else if bool_decide (au_key a = au_key b) then
    match shared_publication_ids (au_id a) (au_id b) d with
    | _ :: _ as shared =>
        Ok (mkDecision "strong" "name_key + shared publications" (JObj [("shared_entity_ids", JArr (map JInt (firstn 10 shared)))]))
    | [] =>
        let? shared := shared_affiliations (au_id a) (au_id b) d in
        match shared with
        | _ :: _ => Ok (mkDecision "probable" "name_key + shared affiliation" (JObj [("affiliations", JArr (map JStr (firstn 5 shared)))]))
        | [] => Ok (mkDecision "ambiguous" "name_key collision without disambiguator" (JObj []))
        end
    end
  else if last_initial_pair (au_key a) (au_key b) then
    Ok (mkDecision "ambiguous" "last+initial match across name forms" (JObj []))
  else Ok (mkDecision "distinct" "no overlap" (JObj [])).

(** ** Merging *)
Definition repoint (loser winner i : Z) : Z := if i =? loser then winner else i.
Definition merge_pubs (winner loser : Z) (l : list Publication) : list Publication :=
  let winner_entities := map pb_entity (List.filter (fun p => pb_author p =? winner) l) in
  let kept := List.filter (fun p => negb ((pb_author p =? loser) && bool_decide (pb_entity p ∈ winner_entities))) l in
  update_where (fun p => pb_author p =? loser) (fun p => mkPub winner (pb_entity p) (pb_org p) (pb_domain p) (pb_position p)) kept.
Definition merged_author (winner loser : Author) : Author :=
  mkAuthor (au_id winner) (au_key winner) (au_name winner)
    (set_aliases (au_aliases winner ++ au_aliases loser ++ [au_name loser]))
    (if or_text (au_orcid loser) && negb (or_text (au_orcid winner)) then au_orcid loser else au_orcid winner) (au_seen winner).
Definition merged_db (winner loser : Author) (audit : MergeAudit) d : CoDb F :=
  let w := au_id winner in
  let l := au_id loser in
  mkCo (List.filter (fun a => negb (au_id a =? l)) (update_where (fun a => au_id a =? w) (fun _ => merged_author winner loser) (authors d)))
    (au_seq d)
    (merge_pubs w l (pubs d))
    (List.filter (fun e => negb (touches l (ce_a e, ce_b e))) (edges d))
    (List.filter (fun c => negb (touches l (cc_a c, cc_b c))) (contribs d))
    (dirty d)
    (map (fun s => mkSug (sg_id s) (repoint l w (sg_a s)) (repoint l w (sg_b s)) (sg_reason s) (sg_evidence s) (sg_status s)
                     (sg_resolved_at s) (sg_resolved_by s)) (suggestions d))
    (sg_seq d) (audits d ++ [audit])
    (List.filter (fun s => negb (st_author s =? l)) (stats d)) (raw_entities d).
(** The flush updates the winner before it deletes the loser: an ORCID that moves
    is held by both rows at that moment, and the column is unique. *)
Definition merge_authors (winner loser : Author) (tier reason : string) (by_ : option Z) (evidence : json) : M (CoDb F) unit :=
  if au_id winner =? au_id loser then mret tt
  else if or_text (au_orcid loser) && negb (or_text (au_orcid winner)) then run! rollback; mraise (IntegrityError "authors.orcid")
  else mmodify (merged_db winner loser (mkAudit (au_id winner) (au_id loser) tier reason evidence by_)).

(** * The review queue (coauthorship/suggestions.py) *)
Definition MAX_GROUP_SIZE : nat := 200.
Definition family_name (key : string) : string := match cut_under (chars key) [] with Some (fam, _) => fam | None => key end.
Definition family_groups (l : list Author) : list (list Author) :=
  map (fun k => List.filter (fun a => bool_decide (family_name (au_key a) = k)) l) (first_seen (map (fun a => family_name (au_key a)) l)).
Definition pair_key (a b : Z) : Z * Z := (Z.min a b, Z.max a b).
Definition sg_pair (s : Suggestion) : Z * Z := pair_key (sg_a s) (sg_b s).
Fixpoint compare_pairs d (pairs : list (Author * Author)) (existing : list (Z * Z)) : res (list (Z * Z * MergeDecision)) :=
  match pairs with
  | [] => Ok []
  | (a, b) :: pairs =>
      let key := pair_key (au_id a) (au_id b) in
      if bool_decide (key ∈ existing) then compare_pairs d pairs existing
      else
        let? decision := classify_merge d a b in
        if bool_decide (md_tier decision = "ambiguous") then
          let? rest := compare_pairs d pairs (key :: existing) in Ok ((key, decision) :: rest)
        else compare_pairs d pairs existing
  end.
Fixpoint new_suggestions (n : Z) (found : list (Z * Z * MergeDecision)) : list Suggestion :=
  match found with
  | [] => []
  | (key, dec) :: found => mkSug (n + 1) key.1 key.2 (md_reason dec) (md_evidence dec) "pending" None None :: new_suggestions (n + 1) found
  end.
Record ScanStats := mkScan { authors_scanned : nat; groups_compared : nat; groups_skipped_too_large : nat; pairs_compared : nat; suggestions_created : nat }.
Definition comparable (max_group_size : nat) (g : list Author) : bool := (2 <=? List.length g)%nat && (List.length g <=? max_group_size)%nat.
Definition generate_merge_suggestions (max_group_size : nat) : M (CoDb F) ScanStats :=
  do! d <- mget;
  let groups := family_groups (authors d) in
  let compared := List.filter (comparable max_group_size) groups in
  let pairs := flat_map combinations2 compared in
  do! found <- mlift (compare_pairs d pairs (map sg_pair (suggestions d)));
  let n := List.length found in
  run! mmodify (with_suggestions (fun l => l ++ new_suggestions (sg_seq d) found) (sg_seq d + Z.of_nat n));
  run! commit;
  mret (mkScan (List.length (authors d)) (List.length compared) (List.length (List.filter (fun g => (max_group_size <? List.length g)%nat && (2 <=? List.length g)%nat) groups))
          (List.length pairs) n).

(** ** Decisions (routers/coauthorship.py) *)
Definition REVIEWERS : list string := ["super_admin"; "admin"].
Definition pending_suggestion (sid : Z) d : res Suggestion :=
  match List.find (fun s => sg_id s =? sid) (suggestions d) with
  | None => Raise (HTTPException 404 "merge suggestion not found")
  | Some s => if bool_decide (sg_status s = "pending") then Ok s else Raise (HTTPException 409 ("suggestion already " ++ sg_status s))
  end.
Definition resolve_suggestion (sid : Z) (status : string) (now : Z) (user : User) d : CoDb F :=
  with_suggestions (update_where (fun s => sg_id s =? sid)
    (fun s => mkSug (sg_id s) (sg_a s) (sg_b s) (sg_reason s) (sg_evidence s) status (Some now) (Some (user_id user)))) (sg_seq d) d.
Definition enqueue_author_scopes (author : Z) (reason : string) (now : Z) d : CoDb F :=
  fold_left (mark_dirty reason now) (first_seen (map pb_scope (List.filter (fun p => pb_author p =? author) (pubs d)))) d.
Definition confirm_merge_suggestion (sid now : Z) (user : User) : M (CoDb F) (Z * Z) :=
  do! user <- mlift (require_role REVIEWERS user);
  do! d <- mget;
  do! s <- mlift (pending_suggestion sid d);
  match author_by_id (sg_a s) (authors d), author_by_id (sg_b s) (authors d) with
  | Some winner, Some loser =>
      run! merge_authors winner loser "manual" (if truthy (sg_reason s) then sg_reason s else "manual merge") (Some (user_id user))
        (JObj [("suggestion_id", JInt (sg_id s))]);
      run! mmodify (enqueue_author_scopes (au_id winner) "merge" now);
      run! mmodify (resolve_suggestion sid "merged" now user);
      run! commit;
      mret (au_id winner, au_id loser)
  | _, _ => mraise (HTTPException 409 "one of the authors no longer exists")
  end.
Definition reject_merge_suggestion (sid now : Z) (user : User) : M (CoDb F) unit :=
  do! user <- mlift (require_role REVIEWERS user);
  do! d <- mget;
  do! _ <- mlift (pending_suggestion sid d);
  run! mmodify (resolve_suggestion sid "rejected" now user);
  commit.

(** * Statistics of a scope (coauthorship/recompute.py) *)
(** The graph library on weighted edges. *)
Definition WEdge : Type := Z * Z * Z.
Context (best_partition : list WEdge -> list (Z * Z)) (nx_components : list WEdge -> list (list Z))
  (nx_centrality : list WEdge -> list (Z * F)) (nx_degree : list WEdge -> list (Z * Z)) (fzero : F).

Definition LOUVAIN_MIN_NODES : Z := 50.
Definition LOUVAIN_MAX_NODES : Z := 3000.
Definition LOUVAIN_MAX_EDGES : Z := 25000.
Definition should_use_louvain (n_nodes n_edges : Z) : bool :=
  (LOUVAIN_MIN_NODES <=? n_nodes) && (n_nodes <=? LOUVAIN_MAX_NODES) && (n_edges <=? LOUVAIN_MAX_EDGES).
Fixpoint number_components (cid : Z) (comps : list (list Z)) : list (Z * Z) :=
  match comps with [] => [] | c :: comps => map (fun n => (n, cid)) c ++ number_components (cid + 1) comps end.
Definition connected_components (g : list WEdge) : list (Z * Z) := dict_update [] (number_components 0 (nx_components g)).
Definition scope_edges (scope : Z * string) d : list CoEdge := List.filter (fun e => bool_decide (ce_scope e = scope)) (edges d).
Definition graph_of (es : list CoEdge) : list WEdge := map (fun e => (ce_a e, ce_b e, ce_weight e)) es.
Definition graph_nodes (g : list WEdge) : list Z := first_seen (flat_map (fun e => [e.1.1; e.1.2]) g).
Definition graph_edge_count (g : list WEdge) : nat := List.length (first_seen (map (fun e => pair_key e.1.1 e.1.2) g)).
Definition communities_of (g : list WEdge) : list (Z * Z) :=
  if should_use_louvain (Z.of_nat (List.length (graph_nodes g))) (Z.of_nat (graph_edge_count g)) then best_partition g else connected_components g.
Definition get_dflt {V} (dflt : V) (k : Z) (m : list (Z * V)) : V := match dict_get k m with Some v => v | None => dflt end.
Definition clear_dirty_scope (scope : Z * string) d : CoDb F :=
  with_dirty (List.filter (fun s => negb (bool_decide (ds_scope s = scope)))) d.
Definition publication_count (scope : Z * string) (author : Z) d : Z :=
  count_where (fun p => (pb_author p =? author) && bool_decide (pb_scope p = scope)) (pubs d).
Definition stats_row (scope : Z * string) (g : list WEdge) (communities : list (Z * Z)) (t0 : Z) d (node : Z) : AuthorStats F :=
  mkStats node scope (get_dflt 0 node (nx_degree g)) (get_dflt fzero node (nx_centrality g)) (get_dflt 0 node communities)
    (publication_count scope node d) t0.

(** Nodes, edges and communities; [others]: what other writers commit after the
    edges are read. *)
Definition recompute_coauthor_stats (others : CoDb F -> CoDb F) (t0 : Z) (scope : Z * string) : M (CoDb F) (nat * nat * nat) :=
  do! d <- mget;
  let es := scope_edges scope d in
  run! interfere others;
  run! mmodify (with_stats (List.filter (fun s => negb (bool_decide (st_scope s = scope)))));
  match es with
  | [] => run! mmodify (clear_dirty_scope scope); run! commit; mret (0%nat, 0%nat, 0%nat)
  | _ =>
      let g := graph_of es in
      let communities := communities_of g in
      run! mmodify (fun d => with_stats (fun l => l ++ map (stats_row scope g communities t0 d) (graph_nodes g)) d);
      run! mmodify (clear_dirty_scope scope);
      run! commit;
      mret (List.length (graph_nodes g), List.length es, List.length (first_seen (map snd communities)))
  end.

(** ** The worker that drains the markers (enrichment_worker.py) *)
Definition DEBOUNCE_S : Z := 30.
Fixpoint recompute_all (now : Z) (scopes : list (Z * string)) : M (CoDb F) unit :=
  match scopes with
  | [] => mret tt
  | s :: scopes =>
      run! mtry (do! _ <- recompute_coauthor_stats (fun d => d) now s; mret tt) (fun _ => mret tt);
      recompute_all now scopes
  end.
Definition recompute_tick (now : Z) : M (CoDb F) unit :=
  do! d <- mget;
  recompute_all now (map ds_scope (List.filter (fun s => ds_at s <? now - DEBOUNCE_S) (dirty d))).

(** * The migration (coauthorship/migration.py) *)
Record MigrationStats := mkMigration {
  entities_scanned : nat; entities_with_authors : nat; self_pairs_skipped : nat; authors_created : nat; publications_created : nat;
  edges_created : nat; migration_suggestions : nat; scopes_recomputed : nat }.
Fixpoint publish_self_pairs (now : Z) (e : Entity) (names : list string) : M (CoDb F) unit :=
  match names with
  | [] => mret tt
  | name :: names =>
      do! a <- get_or_create_author (fun d => d) now name None;
      run! mmodify (with_pubs (fun l => if existsb (fun p => (pb_author p =? au_id a) && of_entity (en_id e) p) l then l
                                        else l ++ [mkPub (au_id a) (en_id e) (scope_of e).1 (scope_of e).2 (Some 1)]));
      publish_self_pairs now e names
  end.
Fixpoint recompute_each (t0 : Z) (scopes : list (Z * string)) : M (CoDb F) unit :=
  match scopes with
  | [] => mret tt
  | s :: scopes => do! _ <- recompute_coauthor_stats (fun d => d) t0 s; recompute_each t0 scopes
  end.
(** Entities with authors and self pairs so far. *)
Fixpoint migrate_entities (dry_run : bool) (now : Z) (es : list Entity) (with_authors self_pairs : nat) : M (CoDb F) (nat * nat) :=
  match es with
  | [] => mret (with_authors, self_pairs)
  | e :: es =>
      do! names <- mlift (authors_of loads e);
      if (List.length names <? 2)%nat then migrate_entities dry_run now es with_authors self_pairs
      else if dry_run then migrate_entities dry_run now es (S with_authors) self_pairs
      else if (List.length (first_seen (List.filter truthy (map name_key names))) <? 2)%nat then
        run! publish_self_pairs now e names;
        run! commit;
        migrate_entities dry_run now es (S with_authors) (S self_pairs)
      else
        run! write_coauthor_artifacts false true now e;
        run! commit;
        migrate_entities dry_run now es (S with_authors) self_pairs
  end.
Definition in_migrated_domain (domain : option string) (e : Entity) : bool :=
  if or_text domain then bool_decide (column "domain" e = domain) else true.
Definition migrate_coauthor_graph (dry_run : bool) (domain : option string) (now : Z) : M (CoDb F) MigrationStats :=
  do! d0 <- mget;
  let es := List.filter (in_migrated_domain domain) (raw_entities d0) in
  do! (n, self_pairs) <- migrate_entities dry_run now es 0 0;
  if dry_run then mret (mkMigration (List.length es) n self_pairs 0 0 0 0 0)
  else
    do! d <- mget;
    do! sug <- generate_merge_suggestions MAX_GROUP_SIZE;
    let scopes := first_seen (map ce_scope (if or_text domain then List.filter (fun e => bool_decide (Some (ce_domain e) = domain)) (edges d) else edges d)) in
    run! recompute_each now scopes;
    mret (mkMigration (List.length es) n self_pairs (List.length (authors d) - List.length (authors d0)) (List.length (pubs d))
            (List.length (edges d)) (suggestions_created sug) (List.length scopes)).

(** * Reading (routers/coauthorship.py, authority/coauthorship_signal.py) *)
(** The legacy scope of a request is stored as 0. *)
Definition scope_org_id (resolved : option Z) : option Z :=
  match resolved with None => None | Some o => if is_legacy_global_scope (Some o) then Some 0 else Some o end.
Definition org_matches (org_id : option Z) (o : Z) : bool := match org_id with None => true | Some x => o =? x end.
Definition coauthor_edge_count (org_id : option Z) (domain : string) d : Z :=
  count_where (fun e => bool_decide (ce_domain e = domain) && org_matches org_id (ce_org e)) (edges d).
Fixpoint recompute_scopes (t0 : Z) (domain : string) (orgs : list Z) : M (CoDb F) (list (Z * (nat * nat * nat))) :=
  match orgs with
  | [] => mret []
  | o :: orgs =>
      do! r <- recompute_coauthor_stats (fun d => d) t0 (o, domain);
      do! rest <- recompute_scopes t0 domain orgs;
      mret ((o, r) :: rest)
  end.
Definition edge_orgs (domain : string) d : list Z := first_seen (map ce_org (List.filter (fun e => bool_decide (ce_domain e = domain)) (edges d))).
Definition ensure_coauthor_stats_ready (t0 : Z) (org_id : option Z) (domain : string) : M (CoDb F) unit :=
  do! d <- mget;
  let n := count_where (fun s => bool_decide ((st_scope s).2 = domain) && org_matches org_id (st_scope s).1) (stats d) in
  if (0 <? n) || (coauthor_edge_count org_id domain d =? 0) then mret tt
  else
    do! _ <- recompute_scopes t0 domain (match org_id with Some o => [o] | None => edge_orgs domain d end);
    mret tt.

Definition RECOMPUTE_MIN_INTERVAL_S : Z := 30.
(** The endpoint, throttled per process: [last_call] is the module's dict. *)
Definition coauthorship_recompute (tenants : Tenants) (monotonic t0 : Z) (domain : string) (user : User)
    (last_call : list (option Z * string * Z)) : list (option Z * string * Z) * M (CoDb F) (list (Z * (nat * nat * nat))) :=
  match (let? user := require_role REVIEWERS user in resolve_request_org_id tenants user true true) with
  | Raise e => (last_call, mraise e)
  | Ok resolved =>
      let org_id := scope_org_id resolved in
      let throttled := match dict_get (org_id, domain) last_call with
        | Some last => if monotonic - last <? RECOMPUTE_MIN_INTERVAL_S then Some (RECOMPUTE_MIN_INTERVAL_S - (monotonic - last)) else None
        | None => None end in
      match throttled with
      | Some n => (last_call, mraise (HTTPException 429 ("recompute throttled; retry in ~" ++ str_of_Z n ++ "s")))
      | None =>
          (dict_set (org_id, domain) monotonic last_call,
           do! d <- mget; recompute_scopes t0 domain (match org_id with Some o => [o] | None => edge_orgs domain d end))
      end
  end.

Definition MAX_LOCAL_COAUTHORS : nat := 200.
Definition local_coauthor_names (name : string) (org_id : option Z) (domain : option string) (limit : nat) d : list string :=
  let key := name_key name in
  if negb (truthy key) then []
  else match find_author key (authors d) with
       | None => []
       | Some a =>
           let mine e := touches (au_id a) (ce_a e, ce_b e) && org_matches org_id (ce_org e)
                         && (if or_text domain then bool_decide (Some (ce_domain e) = domain) else true) in
           let es := firstn limit (sort_by (fun x y => ce_weight y <=? ce_weight x) (List.filter mine (edges d))) in
           let neighbors := List.filter (fun i => negb (i =? au_id a)) (map (fun e => if ce_a e =? au_id a then ce_b e else ce_a e) es) in
           List.filter truthy (map au_name (List.filter (fun x => bool_decide (au_id x ∈ neighbors)) (authors d)))
       end.
End coauthor.
