(* ===== verification/CoauthorClaims.v ===== *)
(** * What the coauthorship graph promises

    The accounts of edges and contributions, idempotence of a write, what a
    merge and the review queue do; at the end, where the code parts from what it
    says. *)
From S2P Require Import Prelude PyStr PyJson PyValue TenantAccess JobsApi Entities UnionFind NameKey Coauthor.
From Stdlib Require Import Ascii String.

Local Open Scope string_scope.
Local Open Scope list_scope.
Local Open Scope Z_scope.
Local Open Scope py_scope.

(** * Counting *)
Abbreviation Key := (Z * Z * Z * string)%type.
Definition weight_at (k : Key) (l : list CoEdge) : Z := foldr (fun e n => (if bool_decide (ce_key e = k) then ce_weight e else 0) + n) 0 l.
Definition works_of (k : Key) (l : list Contribution) : Z := count_where (fun c => bool_decide (cc_edge c = k)) l.

Lemma count_where_filter {A} (p q : A -> bool) v l : (forall x, q x = true -> p x = v) ->
  count_where q (List.filter p l) = if v then count_where q l else 0.
Proof.
  intros H. induction l as [|x l IH]; [by destruct v|]. cbn [List.filter]. rewrite count_where_cons.
  destruct (q x) eqn:Eq; [rewrite (H x Eq)|]; destruct v; try destruct (p x); rewrite ?count_where_cons, ?Eq, ?IH; lia.
Qed.
Lemma weight_at_cons k e l : weight_at k (e :: l) = (if bool_decide (ce_key e = k) then ce_weight e else 0) + weight_at k l.
Proof. done. Qed.
Lemma weight_at_app k l l' : weight_at k (l ++ l') = weight_at k l + weight_at k l'.
Proof. induction l as [|e l IH]; [done|]. cbn [app]. rewrite !weight_at_cons, IH. lia. Qed.
Lemma weight_at_absent k l : (forall e, In e l -> ce_key e <> k) -> weight_at k l = 0.
Proof.
  induction l as [|e l IH]; intros H; [done|]. rewrite weight_at_cons, bool_decide_eq_false_2 by (apply H; by left).
  rewrite IH; [done|]. intros x Hx. apply H. by right.
Qed.
Lemma weight_at_filter (p : CoEdge -> bool) k l : (forall e, In e l -> ce_key e = k -> p e = true) -> weight_at k (List.filter p l) = weight_at k l.
Proof.
  induction l as [|e l IH]; intros H; [done|]. cbn [List.filter]. rewrite weight_at_cons, <- IH by (intros x Hx; apply H; by right).
  destruct (p e) eqn:E; [by rewrite weight_at_cons|]. case_bool_decide as Hk; [|lia]. rewrite (H e) in E; [done|by left|done].
Qed.
Lemma weight_at_in k l e : NoDup (map ce_key l) -> In e l -> ce_key e = k -> weight_at k l = ce_weight e.
Proof.
  intros Hnd He <-. induction l as [|x l IH]; [done|]. rewrite weight_at_cons. cbn [map In] in *. apply NoDup_cons in Hnd as [Hx Hnd]. destruct He as [->|He].
  - rewrite bool_decide_eq_true_2 by done. rewrite weight_at_absent; [lia|]. intros y Hy E. apply Hx. rewrite <- E.
    apply list_elem_of_In. by apply in_map.
  - rewrite bool_decide_eq_false_2; [by rewrite IH|]. intros E. apply Hx. rewrite E. apply list_elem_of_In. by apply in_map.
Qed.

Lemma bump_edge_keys now k l :
  map ce_key (bump_edge now k l) = if bool_decide (k ∈ map ce_key l) then map ce_key l else map ce_key l ++ [k].
Proof.
  destruct k as [[[a b] o] dm]. unfold bump_edge. set (k := (a, b, o, dm)).
  assert (Hex : existsb (fun e => bool_decide (ce_key e = k)) l = bool_decide (k ∈ map ce_key l)).
  { apply Bool.eq_iff_eq_true. rewrite existsb_exists, bool_decide_eq_true, list_elem_of_In, in_map_iff. split.
    - intros (e & He & Hk). apply bool_decide_eq_true in Hk. eauto.
    - intros (e & Hk & He). exists e. split; [done|]. by apply bool_decide_eq_true. }
  rewrite Hex. case_bool_decide; [|by rewrite map_app]. unfold update_where. rewrite map_map. apply map_ext.
  intros e. case_bool_decide as E; [by rewrite E|done].
Qed.
Lemma weight_at_update k k' f l : NoDup (map ce_key l) -> In k (map ce_key l) ->
  (forall e, ce_key (f e) = k /\ ce_weight (f e) = ce_weight e + 1) ->
  weight_at k' (update_where (fun e => bool_decide (ce_key e = k)) f l) = weight_at k' l + (if bool_decide (k = k') then 1 else 0).
Proof.
  intros Hnd Hin Hf. induction l as [|x l IH]; [done|].
  change (update_where (fun e => bool_decide (ce_key e = k)) f (x :: l)) with
    ((if bool_decide (ce_key x = k) then f x else x) :: update_where (fun e => bool_decide (ce_key e = k)) f l).
  cbn [map In] in *. apply NoDup_cons in Hnd as [Hx Hnd]. rewrite !weight_at_cons.
  destruct (decide (ce_key x = k)) as [Ex|Ex].
  - rewrite (bool_decide_eq_true_2 (ce_key x = k)) by done. rewrite update_where_id.
    2:{ intros y Hy Ey. apply bool_decide_eq_true in Ey. exfalso. apply Hx. rewrite Ex, <- Ey. apply list_elem_of_In. by apply in_map. }
    destruct (Hf x) as [-> ->]. rewrite Ex. case_bool_decide; lia.
  - rewrite (bool_decide_eq_false_2 (ce_key x = k)) by done. destruct Hin as [?|Hin]; [done|]. rewrite IH by done. lia.
Qed.
Lemma bump_edge_weight now k k' l : NoDup (map ce_key l) ->
  weight_at k' (bump_edge now k l) = weight_at k' l + (if bool_decide (k = k') then 1 else 0).
Proof.
  intros Hnd. destruct k as [[[a b] o] dm]. unfold bump_edge. destruct (existsb _ l) eqn:E.
  - apply existsb_exists in E as (e & He & Hk). apply bool_decide_eq_true in Hk.
    apply weight_at_update; [done| |done]. apply in_map_iff. eauto.
  - rewrite weight_at_app, weight_at_cons. change (ce_key (mkEdge a b o dm 1 now)) with (a, b, o, dm). cbn [ce_weight weight_at foldr]. case_bool_decide; lia.
Qed.

(** * The ledger *)
(** [strict]: an edge weighs exactly the works logged for it; otherwise at least
    that. *)
Record ledger_of (strict : bool) (es : list CoEdge) (cs : list Contribution) : Prop := mkLedger {
  led_edges : NoDup (map ce_key es);
  led_log : NoDup (map cc_key cs);
  led_positive : Forall (fun e => 1 <= ce_weight e) es;
  led_counts : forall k, if strict then weight_at k es = works_of k cs else works_of k cs <= weight_at k es }.
Definition ledger {F} (strict : bool) (d : CoDb F) : Prop := ledger_of strict (edges d) (contribs d).

Lemma bump_positive now k l : Forall (fun e => 1 <= ce_weight e) l -> Forall (fun e => 1 <= ce_weight e) (bump_edge now k l).
Proof.
  destruct k as [[[a b] o] dm]. unfold bump_edge. intros H. destruct (existsb _ l).
  - apply Forall_map. apply (Forall_impl _ _ _ H). intros e He. case_bool_decide; cbn; lia.
  - apply Forall_app. split; [done|]. repeat constructor. cbn. lia.
Qed.
Lemma ledger_contribute {F} strict now e (d : CoDb F) ab : ledger strict d -> ledger strict (contribute now e d ab).
Proof.
  intros [He Hl Hp Hc]. destruct ab as [a b]. unfold contribute. destruct (a =? b); [by split|].
  destruct (existsb _ (contribs d)) eqn:Ex; [by split|]. destruct (scope_of e) as [org dm].
  set (k := (Z.min a b, Z.max a b, org, dm)). unfold ledger. cbn [with_edges with_contribs edges contribs]. split.
  - rewrite bump_edge_keys. case_bool_decide; [done|]. apply NoDup_app. split; [done|]. split; [|repeat constructor; by apply not_elem_of_nil].
    intros x Hx Hy. apply list_elem_of_singleton in Hy as ->. done.
  - rewrite map_app. apply NoDup_app. split; [done|]. split; [|repeat constructor; by apply not_elem_of_nil].
    intros x Hx Hy. apply list_elem_of_singleton in Hy as ->. apply list_elem_of_In, in_map_iff in Hx as (c & Hk & Hin).
    enough (existsb (fun c => bool_decide (cc_key c = (en_id e, Z.min a b, Z.max a b))) (contribs d) = true) by congruence.
    apply existsb_exists. exists c. split; [done|]. by apply bool_decide_eq_true.
  - by apply bump_positive.
  - intros k'. unfold works_of. rewrite bump_edge_weight by done. rewrite count_where_app. rewrite count_where_cons.
    change (cc_edge (mkContrib (en_id e) (Z.min a b) (Z.max a b) org dm)) with k. change (count_where _ []) with 0. specialize (Hc k'). unfold works_of in Hc. destruct strict; case_bool_decide; lia.
Qed.
Lemma ledger_contribute_all {F} strict now e ps (d : CoDb F) : ledger strict d -> ledger strict (fold_left (contribute now e) ps d).
Proof. revert d. induction ps as [|ab ps IH]; intros d H; cbn; [done|]. by apply IH, ledger_contribute. Qed.

Lemma Forall_filter_keep {A} (P : A -> Prop) p l : Forall P l -> Forall P (List.filter p l).
Proof. rewrite !List.Forall_forall. intros H x [Hx _]%filter_In. by apply H. Qed.
(** Forgetting an author: its edges and its rows of the log go together. *)
Lemma ledger_forget strict i es cs : ledger_of strict es cs ->
  ledger_of strict (List.filter (fun e => negb (touches i (ce_a e, ce_b e))) es) (List.filter (fun c => negb (touches i (cc_a c, cc_b c))) cs).
Proof.
  intros [He Hl Hp Hc]. split; [by apply NoDup_map_filter|by apply NoDup_map_filter|by apply Forall_filter_keep|].
  intros k. destruct k as [[[a b] o] dm]. set (k := (a, b, o, dm)).
  assert (Hw : forall l, weight_at k (List.filter (fun e => negb (touches i (ce_a e, ce_b e))) l) = if touches i (a, b) then 0 else weight_at k l).
  { intros l. destruct (touches i (a, b)) eqn:Et.
    - apply weight_at_absent. intros e [_ Hn]%filter_In Ek. unfold ce_key, k in Ek. simplify_eq. rewrite Et in Hn. done.
    - apply weight_at_filter. intros e _ Ek. unfold ce_key, k in Ek. simplify_eq. by rewrite Et. }
  assert (Hn : forall l, works_of k (List.filter (fun c => negb (touches i (cc_a c, cc_b c))) l) = if touches i (a, b) then 0 else works_of k l).
  { intros l. unfold works_of. rewrite (count_where_filter _ _ (negb (touches i (a, b)))); [by destruct (touches _ _)|].
    intros c Ek. apply bool_decide_eq_true in Ek. unfold cc_edge, k in Ek. by simplify_eq. }
  rewrite Hw, Hn. specialize (Hc k). destruct strict, (touches i (a, b)); lia.
Qed.
(** Dropping a work's rows of the log leaves its weight on the edges. *)
Lemma ledger_drop_work p es cs : ledger_of false es cs -> ledger_of false es (List.filter p cs).
Proof.
  intros [He Hl Hp Hc]. split; [done|by apply NoDup_map_filter|done|]. intros k. specialize (Hc k). cbn in *.
  enough (works_of k (List.filter p cs) <= works_of k cs) by lia. unfold works_of, count_where. clear.
  induction cs as [|c cs IH]; cbn; [done|]. destruct (p c); cbn; case_bool_decide; cbn; lia.
Qed.

(** * Every call keeps the ledger *)
Section calls.
Context {F : Type} (loads : string -> option json)
  (best_partition : list WEdge -> list (Z * Z)) (nx_components : list WEdge -> list (list Z))
  (nx_centrality : list WEdge -> list (Z * F)) (nx_degree : list WEdge -> list (Z * Z)) (fzero : F).
Implicit Types d : CoDb F.

Lemma moves_spec e d : moves e d = false <-> (forall p, In p (pubs d) -> pb_entity p = en_id e -> scope_of e ∈ entity_scopes (en_id e) d).
Proof.
  unfold moves. set (l := entity_scopes (en_id e) d).
  assert (Hl : l = [] <-> forall p, In p (pubs d) -> pb_entity p <> en_id e).
  { unfold l, entity_scopes. split.
    - intros E p Hp Hi. assert (Hin : pb_scope p ∈ first_seen (map pb_scope (List.filter (of_entity (en_id e)) (pubs d)))).
      { apply first_seen_in, list_elem_of_In. apply in_map, filter_In. split; [done|]. by apply Z.eqb_eq. }
      rewrite E in Hin. by apply elem_of_nil in Hin.
    - intros H. replace (List.filter _ _) with (@nil Publication); [done|]. symmetry.
      induction (pubs d) as [|p ps IH]; [done|]. cbn. unfold of_entity at 1.
      destruct (Z.eqb_spec (pb_entity p) (en_id e)); [exfalso; apply (H p); [by left|done]|]. apply IH. intros x Hx. apply H. by right. }
  destruct (decide (l = [])) as [E|E].
  - rewrite bool_decide_eq_true_2 by done. cbn. split; [|done]. intros _ p Hp Hi. exfalso. by apply (proj1 Hl E p).
  - rewrite bool_decide_eq_false_2 by done. cbn. rewrite negb_false_iff, bool_decide_eq_true. split; [done|]. intros H.
    assert (Hex : exists p, In p (pubs d) /\ pb_entity p = en_id e).
    { destruct (existsb (of_entity (en_id e)) (pubs d)) eqn:Ex.
      - apply existsb_exists in Ex as (p & Hp & Hi). exists p. split; [done|]. by apply Z.eqb_eq.
      - exfalso. apply E, Hl. intros p Hp Hi. enough (existsb (of_entity (en_id e)) (pubs d) = true) by congruence.
        apply existsb_exists. exists p. split; [done|]. by apply Z.eqb_eq. }
    destruct Hex as (p & Hp & Hi). by apply (H p).
Qed.

(** [es]: the entities that must stay in their scope for exact counts. *)
Definition safe (strict : bool) (es : list Entity) d : Prop :=
  ledger strict d /\ (strict = true -> forall e, In e es -> moves e d = false).
Lemma safe_same strict es d d' :
  edges d' = edges d -> contribs d' = contribs d -> pubs d' = pubs d -> safe strict es d -> safe strict es d'.
Proof.
  intros He Hc Hp [Hl Hm]. split; [unfold ledger in *; by rewrite He, Hc|]. intros Hs e Hin. rewrite <- (Hm Hs e Hin).
  unfold moves, entity_scopes. by rewrite Hp.
Qed.
Lemma safe_authors strict es f d : safe strict es d -> safe strict es (with_authors f d).
Proof. by apply safe_same. Qed.
Lemma safe_insert strict es a d : safe strict es d -> safe strict es (insert_author a d).
Proof. by apply safe_same. Qed.
Lemma safe_dirty strict es f d : safe strict es d -> safe strict es (with_dirty f d).
Proof. by apply safe_same. Qed.
Lemma safe_mark strict es r now s d : safe strict es d -> safe strict es (mark_dirty r now d s).
Proof. apply safe_dirty. Qed.
Lemma safe_marks strict es r now l d : safe strict es d -> safe strict es (fold_left (mark_dirty r now) l d).
Proof. revert d. induction l as [|s l IH]; intros d H; cbn; [done|]. by apply IH, safe_mark. Qed.
Lemma safe_suggestions strict es f n d : safe strict es d -> safe strict es (with_suggestions f n d).
Proof. by apply safe_same. Qed.
Lemma safe_stats strict es f d : safe strict es d -> safe strict es (with_stats f d).
Proof. by apply safe_same. Qed.
Hint Resolve safe_authors safe_insert safe_dirty safe_mark safe_marks safe_suggestions safe_stats : safe.

Lemma preserves_get_or_create strict es now name orcid :
  preserves (safe strict es) (get_or_create_author (F := F) (fun d => d) now name orcid).
Proof.
  unfold get_or_create_author. cbv zeta. preserve; eauto with safe.
Qed.
Hint Resolve preserves_get_or_create : preserve.
Lemma preserves_resolve strict es now names : forall pos, preserves (safe strict es) (resolve_authors (F := F) now names pos).
Proof. induction names as [|n names IH]; intros pos; cbn; preserve. Qed.
Hint Resolve preserves_resolve : preserve.

Lemma safe_reassign strict es now e d : (strict = true -> In e es) -> safe strict es d -> safe strict es (reassign now e d).
Proof.
  intros Hin [Hl Hm]. unfold reassign. destruct (moves e d) eqn:Em; [|by split].
  destruct strict; [rewrite (Hm eq_refl e (Hin eq_refl)) in Em; done|]. destruct (scope_of e) as [org dm]. split; [|done].
  unfold ledger. cbn. set (d' := fold_left _ _ d).
  assert (H : edges d' = edges d /\ contribs d' = contribs d).
  { unfold d'. generalize (entity_scopes (en_id e) d). intros l. revert d Hl Hm Em d'. induction l as [|s l IH]; intros; cbn; [done|].
    exact (IH (mark_dirty "reassign" now d s) Hl ltac:(done) Em). }
  destruct H as [-> ->]. apply ledger_drop_work. exact Hl.
Qed.
(** A publication in the entity's own scope moves nothing. *)
Lemma safe_publish strict es e news d :
  NoDup (map en_id es) -> (strict = true -> In e es) ->
  Forall (fun p => pb_entity p = en_id e /\ pb_scope p = scope_of e) news ->
  safe strict es d -> safe strict es (with_pubs (fun l => l ++ news) d).
Proof.
  intros Hnd Hin Hnews [Hl Hm]. split; [exact Hl|]. intros Hs x Hx. specialize (Hm Hs x Hx). specialize (Hin Hs).
  rewrite moves_spec in *. intros p Hp Hi. cbn in Hp. apply in_app_iff in Hp.
  unfold entity_scopes in *. cbn. rewrite List.filter_app, map_app. apply first_seen_in, elem_of_app.
  rewrite List.Forall_forall in Hnews. destruct Hp as [Hp|Hp].
  - left. apply first_seen_in. by eapply Hm.
  - right. destruct (Hnews p Hp) as [H1 H2]. assert (x = e) as -> by (apply (NoDup_map_inj en_id es); congruence).
    rewrite <- H2. apply list_elem_of_In, in_map, filter_In. split; [done|]. by apply Z.eqb_eq.
Qed.
Lemma contribute_pubs now e ps d : pubs (fold_left (contribute now e) ps d) = pubs d.
Proof.
  revert d. induction ps as [|[a b] ps IH]; intros d; cbn [fold_left]; [done|]. rewrite IH. unfold contribute.
  destruct (a =? b); [done|]. destruct (existsb _ _); [done|]. by destruct (scope_of e).
Qed.
Lemma safe_contribute strict es now e ps d : safe strict es d -> safe strict es (fold_left (contribute now e) ps d).
Proof.
  intros [Hl Hm]. split; [by apply ledger_contribute_all|]. intros Hs x Hx. rewrite <- (Hm Hs x Hx).
  unfold moves, entity_scopes. by rewrite contribute_pubs.
Qed.
Lemma new_pubs_scope e ids d : Forall (fun p => pb_entity p = en_id e /\ pb_scope p = scope_of e) (new_pubs e ids d).
Proof. unfold new_pubs. apply Forall_map. apply List.Forall_forall. intros ap _. split; [done|]. symmetry. apply surjective_pairing. Qed.

Lemma preserves_write strict es v2 force now e : NoDup (map en_id es) -> (strict = true -> In e es) ->
  preserves (safe strict es) (write_coauthor_artifacts (F := F) loads v2 force now e).
Proof.
  intros Hnd Hin. unfold write_coauthor_artifacts. cbv zeta. preserve.
  - by apply safe_reassign.
  - apply safe_publish with e; auto using new_pubs_scope.
  - by apply safe_contribute.
  - by apply safe_mark.
Qed.
Hint Resolve preserves_write : preserve.
Lemma safe_publish_unless strict es e (c : list Publication -> bool) p d : NoDup (map en_id es) -> (strict = true -> In e es) ->
  pb_entity p = en_id e -> pb_scope p = scope_of e -> safe strict es d ->
  safe strict es (with_pubs (fun l => if c l then l else l ++ [p]) d).
Proof.
  intros Hnd Hin He Hs Hd. destruct (c (pubs d)) eqn:Ec.
  - apply (safe_same strict es d); try done. cbn. by rewrite Ec.
  - apply (safe_same strict es (with_pubs (fun l => l ++ [p]) d)); try done; [cbn; by rewrite Ec|].
    apply safe_publish with e; [done|done| |done]. by repeat constructor.
Qed.
Lemma preserves_self_pairs strict es now e names : NoDup (map en_id es) -> (strict = true -> In e es) ->
  preserves (safe strict es) (publish_self_pairs (F := F) now e names).
Proof.
  intros Hnd Hin. induction names as [|n names IH]; cbn [publish_self_pairs]; preserve.
  apply (safe_publish_unless strict es e (fun l => existsb (fun p => (pb_author p =? au_id a) && of_entity (en_id e) p) l)); try done.
Qed.
Hint Resolve preserves_self_pairs : preserve.
Lemma preserves_recompute strict es t0 scope :
  preserves (safe strict es) (recompute_coauthor_stats best_partition nx_components nx_centrality nx_degree fzero (fun d => d) t0 scope).
Proof. unfold recompute_coauthor_stats. cbv zeta. preserve; eauto with safe; by apply safe_dirty. Qed.
Hint Resolve preserves_recompute : preserve.
Lemma preserves_recompute_all strict es t0 scopes :
  preserves (safe strict es) (recompute_all best_partition nx_components nx_centrality nx_degree fzero t0 scopes).
Proof. induction scopes as [|s scopes IH]; cbn; preserve. Qed.
Lemma preserves_recompute_each strict es t0 scopes :
  preserves (safe strict es) (recompute_each best_partition nx_components nx_centrality nx_degree fzero t0 scopes).
Proof. induction scopes as [|s scopes IH]; cbn; preserve. Qed.
Lemma preserves_generate strict es n : preserves (safe strict es) (generate_merge_suggestions (F := F) loads n).
Proof. unfold generate_merge_suggestions. cbv zeta. preserve. by apply safe_suggestions. Qed.
Hint Resolve preserves_recompute_all preserves_recompute_each preserves_generate : preserve.
Lemma preserves_migrate_entities strict es dry now l : NoDup (map en_id es) -> (strict = true -> incl l es) ->
  forall a b, preserves (safe strict es) (migrate_entities (F := F) loads dry now l a b).
Proof.
  intros Hnd. induction l as [|e l IH]; intros Hin a b; cbn [migrate_entities]; [preserve|].
  assert (Hl : strict = true -> incl l es) by (intros Hs x Hx; apply (Hin Hs); by right).
  assert (He : strict = true -> In e es) by (intros Hs; apply (Hin Hs); by left).
  specialize (IH Hl). preserve.
Qed.
Lemma preserves_migrate strict es dry dom now d : NoDup (map en_id es) ->
  (strict = true -> incl (List.filter (in_migrated_domain dom) (raw_entities d)) es) -> safe strict es d ->
  safe strict es (sess_base (snd (migrate_coauthor_graph loads best_partition nx_components nx_centrality nx_degree fzero dry dom now (clean d)))).
Proof.
  intros Hnd Hin Hd. unfold migrate_coauthor_graph, clean. mrun. cbv zeta.
  eapply proj2, (preserves_bind (safe strict es)); [|intros [? ?]; preserve|done|done]. by apply preserves_migrate_entities.
Qed.
Lemma ledger_marks strict r now l d : ledger strict d -> ledger strict (fold_left (mark_dirty r now) l d).
Proof. intros H. by apply (safe_marks strict [] r now l d). Qed.
Lemma ledger_merged strict w l audit d : ledger strict d -> ledger strict (merged_db w l audit d).
Proof. apply ledger_forget. Qed.
Lemma preserves_confirm strict sid now user : preserves (ledger strict) (confirm_merge_suggestion (F := F) sid now user).
Proof.
  unfold confirm_merge_suggestion, merge_authors. preserve; [by apply ledger_merged|by apply ledger_marks|done].
Qed.
Lemma preserves_reject strict sid now user : preserves (ledger strict) (reject_merge_suggestion (F := F) sid now user).
Proof. unfold reject_merge_suggestion. preserve. done. Qed.

(** ** Histories *)
(** The committed state after each call: the worker's step for an enriched entity,
    the recompute endpoint and loop, the review queue, the migration. *)
Inductive CoCall :=
  | Enriched (v2_write : bool) (now : Z) (e : Entity)
  | Recompute (t0 : Z) (scope : Z * string)
  | RecomputeTick (now : Z)
  | GenerateSuggestions (max_group_size : nat)
  | Confirm (sid now : Z) (user : User)
  | Reject (sid now : Z) (user : User)
  | Migrate (dry_run : bool) (domain : option string) (now : Z).
Definition co_exec (c : CoCall) d : CoDb F :=
  let committed {A} (m : M (CoDb F) A) := sess_base (snd (m (clean d))) in
  match c with
  | Enriched v2 now e => committed (coauthor_hook loads v2 now e)
  | Recompute t0 scope => committed (recompute_coauthor_stats best_partition nx_components nx_centrality nx_degree fzero (fun d => d) t0 scope)
  | RecomputeTick now => committed (recompute_tick best_partition nx_components nx_centrality nx_degree fzero now)
  | GenerateSuggestions n => committed (generate_merge_suggestions loads n)
  | Confirm sid now user => committed (confirm_merge_suggestion sid now user)
  | Reject sid now user => committed (reject_merge_suggestion sid now user)
  | Migrate dry dom now => committed (migrate_coauthor_graph loads best_partition nx_components nx_centrality nx_degree fzero dry dom now)
  end.
Definition co_history (cs : list CoCall) d : CoDb F := fold_left (fun d c => co_exec c d) cs d.
(** No call moves an entity's publications to another scope. *)
Definition stays (c : CoCall) d : Prop :=
  match c with
  | Enriched _ _ e => moves e d = false
  | Migrate _ dom _ => NoDup (map en_id (raw_entities d)) /\
      forall e, In e (List.filter (in_migrated_domain dom) (raw_entities d)) -> moves e d = false
  | _ => True
  end.
Fixpoint steady (cs : list CoCall) d : Prop :=
  match cs with [] => True | c :: cs => stays c d /\ steady cs (co_exec c d) end.

Lemma committed_keeps {A} (P : CoDb F -> Prop) (m : M (CoDb F) A) d : preserves P m -> P d -> P (sess_base (snd (m (clean d)))).
Proof. intros H Hd. by apply (H (clean d)). Qed.
Lemma safe_nil strict d : safe strict [] d <-> ledger strict d.
Proof. unfold safe. split; [by intros [H _]|]. intros H. by split. Qed.
Lemma co_exec_keeps strict c d : (strict = true -> stays c d) -> ledger strict d -> ledger strict (co_exec c d).
Proof.
  intros Hs Hd. assert (H0 : safe strict [] d) by by apply safe_nil.
  destruct c as [v2 now e|t0 scope|now|n|sid now user|sid now user|dry dom now]; cbn [co_exec].
  - assert (H : safe strict (if strict then [e] else []) d).
    { destruct strict; [|done]. split; [done|]. intros _ x [<-|[]]. by apply Hs. }
    refine (proj1 (committed_keeps _ _ d _ H)). unfold coauthor_hook.
    apply preserves_try; [|intros ?; apply preserves_rollback]. apply preserves_bind; [|intros ?; apply preserves_commit].
    apply preserves_write; [destruct strict; repeat constructor; by intros ?%elem_of_nil|intros ->; by left].
  - exact (proj1 (committed_keeps _ _ d (preserves_recompute strict [] t0 scope) H0)).
  - refine (proj1 (committed_keeps _ _ d _ H0)). unfold recompute_tick. preserve.
  - exact (proj1 (committed_keeps _ _ d (preserves_generate strict [] n) H0)).
  - exact (committed_keeps _ _ d (preserves_confirm strict sid now user) Hd).
  - exact (committed_keeps _ _ d (preserves_reject strict sid now user) Hd).
  - set (es := List.filter (in_migrated_domain dom) (raw_entities d)).
    refine (proj1 (preserves_migrate strict (if strict then es else []) dry dom now d _ _ _)).
    + destruct strict; [|constructor]. apply NoDup_map_filter. by apply Hs.
    + intros ->. apply incl_refl.
    + destruct strict; [|done]. split; [done|]. intros _. by apply Hs.
Qed.
Lemma co_history_keeps strict cs : forall d, (strict = true -> steady cs d) -> ledger strict d -> ledger strict (co_history cs d).
Proof.
  induction cs as [|c cs IH]; intros d Hs Hd; [done|]. cbn. apply IH.
  - intros E. by apply (Hs E).
  - apply co_exec_keeps; [|done]. intros E. by apply (Hs E).
Qed.
End calls.

(** C13: the edges are accounted for. Whatever enrichments, merges, decisions,
    recomputes and migrations run on an empty graph, an edge is at least as heavy as
    the number of works logged for its pair and scope, and no pair of authors is
    logged twice for a work; as long as no entity changes its scope, each edge weighs
    exactly the works that are logged for it and every logged pair has its edge. *)
Theorem edges_accounted {F} loads best_partition nx_components nx_centrality nx_degree fzero (cs : list CoCall) (d0 : CoDb F) :
  edges d0 = [] -> contribs d0 = [] ->
  let d := co_history loads best_partition nx_components nx_centrality nx_degree fzero cs d0 in
  NoDup (map cc_key (contribs d)) /\ NoDup (map ce_key (edges d)) /\
  (forall c, In c (contribs d) -> exists e, In e (edges d) /\ ce_key e = cc_edge c /\ works_of (cc_edge c) (contribs d) <= ce_weight e) /\
  (steady loads best_partition nx_components nx_centrality nx_degree fzero cs d0 ->
   forall e, In e (edges d) -> ce_weight e = works_of (ce_key e) (contribs d)).
Proof.
  intros He Hc d. assert (H0 : forall strict, ledger strict d0).
  { intros strict. unfold ledger. rewrite He, Hc. split; try constructor. intros k. by destruct strict. }
  pose proof (co_history_keeps loads best_partition nx_components nx_centrality nx_degree fzero false cs d0 ltac:(done) (H0 false)) as [Hk Hl Hp Hn].
  fold d in Hk, Hl, Hp, Hn. split; [done|]. split; [done|]. split.
  - intros c Hin. specialize (Hn (cc_edge c)). assert (1 <= works_of (cc_edge c) (contribs d)).
    { eapply count_where_pos; [exact Hin|]. by apply bool_decide_eq_true. }
    destruct (decide (cc_edge c ∈ map ce_key (edges d))) as [Hin'|Hn'].
    + apply list_elem_of_In, in_map_iff in Hin' as (e & Ek & Hin'). exists e. split; [done|]. split; [done|].
      by rewrite <- (weight_at_in _ _ _ Hk Hin' Ek).
    + rewrite weight_at_absent in Hn; [lia|]. intros e Hin' Ek. apply Hn'. rewrite <- Ek. apply list_elem_of_In. by apply in_map.
  - intros Hs e Hin. pose proof (co_history_keeps loads best_partition nx_components nx_centrality nx_degree fzero true cs d0 (fun _ => Hs) (H0 true)) as [_ _ _ Hn'].
    rewrite <- (weight_at_in _ _ e Hk Hin eq_refl). apply Hn'.
Qed.

(** * Examples *)
Definition ex_attrs (names : string) : json := JObj [("authors", JStr names)].
Definition ex_loads (s : string) : option json :=
  dict_get s [("w1", ex_attrs "Ana Ruiz; Smith, John"); ("w2", ex_attrs "John Smith; Ruiz, Ana; Eva Sanz");
              ("w3", ex_attrs "John Smith; Smith, John; Ana Ruiz"); ("w4", ex_attrs "J. Smith; Eva Sanz")].
Definition ex_work (i : Z) (org : option Z) (w : string) : Entity :=
  mkEntity i org [("attributes_json", Some w); ("domain", Some "science")].
Definition ex_db : CoDb Z := mkCo [] 0 [] [] [] [] [] 0 [] [] [].
Definition ex_run : list CoCall -> CoDb Z -> CoDb Z :=
  co_history ex_loads (fun _ => []) (fun g => [graph_nodes g]) (fun g => map (fun n => (n, 1)) (graph_nodes g)) (fun _ => []) 0.
Definition ex_admin : User := mkUser 9 "admin" (Some 7).
Definition ex_calls : list CoCall :=
  [Enriched true 1 (ex_work 10 (Some 7) "w1"); Enriched true 2 (ex_work 10 (Some 7) "w1"); Enriched true 3 (ex_work 11 (Some 7) "w2"); RecomputeTick 50].
Definition edge_row (e : CoEdge) : Z * Z * Z := (ce_a e, ce_b e, ce_weight e).

Lemma edges_accounted_witness :
  let d := ex_run ex_calls ex_db in
  map edge_row (edges d) = [(1, 2, 2); (2, 3, 1); (1, 3, 1)] /\ (forall e, In e (edges d) -> ce_weight e = works_of (ce_key e) (contribs d)).
Proof.
  intros d. split; [vm_compute; reflexivity|].
  destruct (edges_accounted ex_loads (fun _ => []) (fun g => [graph_nodes g]) (fun g => map (fun n => (n, 1)) (graph_nodes g)) (fun _ => []) 0
    ex_calls ex_db eq_refl eq_refl) as (_ & _ & _ & H). apply H. cbn [steady ex_calls stays]. repeat split; vm_compute; reflexivity.
Defined.
