(* ===== verification/CoauthorIdentity.v ===== *)
(** * Authors and the writes of one work

    The directory of authors is well formed and an author is found again under the
    same id, whatever is written in between; a work that is written again adds
    nothing. *)
From S2P Require Import Prelude PyStr PyJson PyValue TenantAccess JobsApi Entities UnionFind NameKey Coauthor CoauthorClaims.
From Stdlib Require Import Ascii String.

Local Open Scope string_scope.
Local Open Scope list_scope.
Local Open Scope Z_scope.
Local Open Scope py_scope.

(** Ids and keys are unique, a key is the key of the display name, no ORCID is
    held twice. *)
Record directory_of (l : list Author) (seq : Z) : Prop := mkDirectory {
  dir_ids : NoDup (map au_id l);
  dir_seq : Forall (fun a => au_id a <= seq) l;
  dir_keys : NoDup (map au_key l);
  dir_names : Forall (fun a => au_key a = name_key (au_name a) /\ truthy (au_key a) = true) l;
  dir_orcids : NoDup (omap au_orcid l) }.
Definition directory {F} (d : CoDb F) : Prop := directory_of (authors d) (au_seq d).
(** What identifies an author. *)
Definition identity (a : Author) : Z * string * string := (au_id a, au_key a, au_name a).
Definition id_of {F} (d : CoDb F) (name : string) : option Z := option_map au_id (find_author (name_key name) (authors d)).

Lemma find_author_spec key l a : find_author key l = Some a -> In a l /\ au_key a = key.
Proof. intros H. apply find_some in H as [H1 H2]. by apply bool_decide_eq_true in H2. Qed.
Lemma find_author_unique l a : NoDup (map au_key l) -> In a l -> find_author (au_key a) l = Some a.
Proof.
  intros Hnd Hin. apply (find_unique au_key); [done|done|by apply bool_decide_eq_true|]. intros y Hy. by apply bool_decide_eq_true in Hy.
Qed.
Lemma find_author_app key l l' : find_author key (l ++ l') = match find_author key l with Some a => Some a | None => find_author key l' end.
Proof. unfold find_author. induction l as [|a l IH]; cbn; [done|]. by case_bool_decide. Qed.
(** Two lists of authors with the same identities find the same ids. *)
Lemma find_author_identity key l l' : map identity l = map identity l' -> option_map au_id (find_author key l) = option_map au_id (find_author key l').
Proof.
  revert l'. induction l as [|a l IH]; intros [|a' l'] H; try done. cbn in H. injection H as Hi Hk Hn H. cbn.
  rewrite Hk. case_bool_decide; cbn; [by rewrite Hi|]. by apply IH.
Qed.

Lemma omap_orcid_in l o : o ∈ omap au_orcid l <-> exists a, In a l /\ au_orcid a = Some o.
Proof. rewrite list_elem_of_omap. split; intros (a & H1 & H2); exists a; (split; [|done]); by apply list_elem_of_In. Qed.
Lemma orcid_own l a : NoDup (map au_id l) -> NoDup (omap au_orcid l) -> In a l -> orcid_taken a l = false.
Proof.
  intros Hi Ho Ha. unfold orcid_taken. destruct (au_orcid a) as [o|] eqn:E; [|done].
  destruct (existsb _ l) eqn:Ex; [|done]. exfalso. apply existsb_exists in Ex as (b & Hb & H).
  apply andb_prop in H as [Hne Hbo]. apply bool_decide_eq_true in Hbo. apply negb_true_iff, Z.eqb_neq in Hne.
  clear Hi. induction l as [|x l IH]; [done|]. cbn in Ho. destruct Ha as [->|Ha], Hb as [->|Hb].
  - done.
  - rewrite E in Ho. apply NoDup_cons in Ho as [Hn _]. apply Hn, omap_orcid_in. eauto.
  - rewrite Hbo in Ho. apply NoDup_cons in Ho as [Hn _]. apply Hn, omap_orcid_in. eauto.
  - apply IH; [|done|done]. destruct (au_orcid x); [by apply NoDup_cons in Ho as [_ ?]|done].
Qed.
(** Rewriting an author in place. *)
Lemma update_author {B} (k : Author -> B) a b l : NoDup (map au_id l) -> In a l -> k b = k a ->
  map k (update_where (fun r => au_id r =? au_id a) (fun _ => b) l) = map k l.
Proof.
  intros Hnd Ha Hk. unfold update_where. rewrite map_map. apply map_ext_in. intros r Hr.
  destruct (Z.eqb_spec (au_id r) (au_id a)) as [E|]; [|done]. rewrite Hk. by rewrite (NoDup_map_inj au_id l r a).
Qed.
Lemma omap_map_eq l l' : map au_orcid l = map au_orcid l' -> omap au_orcid l = omap au_orcid l'.
Proof.
  revert l'. induction l as [|a l IH]; intros [|a' l'] H; try done. cbn in H. injection H as H1 H2. cbn. rewrite H1.
  destruct (au_orcid a'); [f_equal|]; by apply IH.
Qed.
Lemma Forall_of_map {A B} (k : A -> B) (P : B -> Prop) l : Forall (fun a => P (k a)) l <-> Forall P (map k l).
Proof. by rewrite Forall_map. Qed.
(** A list with the same identities and ORCIDs is as good. *)
Lemma directory_same l l' seq : map identity l = map identity l' -> map au_orcid l = map au_orcid l' -> directory_of l seq -> directory_of l' seq.
Proof.
  intros Hi Ho [H1 H2 H3 H4 H5].
  assert (E : forall {B} (f : Z * string * string -> B), map (fun a => f (identity a)) l = map (fun a => f (identity a)) l').
  { intros B f. rewrite <- !(map_map identity f). by rewrite Hi. }
  assert (E1 : map au_id l = map au_id l') by exact (E _ (fun x => x.1.1)).
  assert (E2 : map au_key l = map au_key l') by exact (E _ (fun x => x.1.2)).
  split.
  - by rewrite <- E1.
  - rewrite (Forall_of_map au_id (fun i => i <= seq)), <- E1. by rewrite (Forall_of_map au_id (fun i => i <= seq)) in H2.
  - by rewrite <- E2.
  - pose (P := fun x : Z * string * string => x.1.2 = name_key x.2 /\ truthy x.1.2 = true).
    apply (Forall_of_map identity P). rewrite <- Hi. by apply (Forall_of_map identity P).
  - by rewrite <- (omap_map_eq l l').
Qed.
Lemma directory_add l seq a : directory_of l seq -> au_id a = seq + 1 -> au_key a = name_key (au_name a) -> truthy (au_key a) = true ->
  find_author (au_key a) l = None -> orcid_taken a l = false -> directory_of (l ++ [a]) (seq + 1).
Proof.
  intros [H1 H2 H3 H4 H5] Hi Hk Ht Hf Ho. rewrite List.Forall_forall in H2.
  assert (Hfresh : forall x, In x l -> au_id x <> au_id a) by (intros x Hx; specialize (H2 x Hx); lia).
  split.
  - rewrite map_app. apply NoDup_app. split; [done|]. split; [|repeat constructor; by apply not_elem_of_nil].
    intros x Hx ->%list_elem_of_singleton. apply list_elem_of_In, in_map_iff in Hx as (y & E & Hy). by apply (Hfresh y).
  - apply Forall_app. split; [apply List.Forall_forall; intros x Hx; specialize (H2 x Hx); lia|]. repeat constructor. lia.
  - rewrite map_app. apply NoDup_app. split; [done|]. split; [|repeat constructor; by apply not_elem_of_nil].
    intros x Hx ->%list_elem_of_singleton. apply list_elem_of_In, in_map_iff in Hx as (y & E & Hy).
    pose proof (find_none _ _ Hf y Hy) as H. cbn in H. apply bool_decide_eq_false in H. done.
  - apply Forall_app. by repeat constructor.
  - rewrite omap_app. apply NoDup_app. split; [done|]. unfold orcid_taken in Ho. cbn. destruct (au_orcid a) as [o|]; [|split; [intros ? _; apply not_elem_of_nil|constructor]].
    split; [|repeat constructor; by apply not_elem_of_nil]. intros x Hx ->%list_elem_of_singleton. apply omap_orcid_in in Hx as (b & Hb & Eb).
    enough (existsb (fun b => negb (au_id b =? au_id a) && bool_decide (au_orcid b = Some o)) l = true) by congruence.
    apply existsb_exists. exists b. split; [done|]. apply andb_true_intro. split; [|by apply bool_decide_eq_true].
    apply negb_true_iff, Z.eqb_neq. by apply Hfresh.
Qed.

(** * Finding or creating an author *)
Section identity.
Context {F : Type} (loads : string -> option json).
Implicit Types d : CoDb F.

Definition same_graph d d' : Prop := pubs d' = pubs d /\ edges d' = edges d /\ contribs d' = contribs d /\ dirty d' = dirty d.
(** Later lookups: ids stay. *)
Definition extends d d' : Prop := forall n i, id_of d n = Some i -> id_of d' n = Some i.

Lemma existing_runs now name d a : directory d -> find_author (name_key name) (authors d) = Some a ->
  exists b d', get_or_create_author (fun d => d) now name None (clean d) = (Ok b, clean d') /\ au_id b = au_id a /\
    directory d' /\ map identity (authors d') = map identity (authors d) /\ same_graph d d'.
Proof.
  intros Hd Hf. pose proof (find_author_spec _ _ _ Hf) as [Ha Hk]. pose proof Hd as [H1 H2 H3 H4 H5].
  rewrite List.Forall_forall in H4. specialize (H4 a Ha). unfold get_or_create_author, clean. rewrite <- Hk, (proj2 H4). cbn [negb]. mrun.
  rewrite Hk, Hf. set (b := seen_as name None now a).
  assert (Hb : identity b = identity a /\ au_orcid b = au_orcid a /\ au_id b = au_id a) by (unfold b, seen_as; cbn; by destruct (au_orcid a)).
  destruct Hb as (Hb1 & Hb2 & Hb3). assert (Ht : orcid_taken b (authors d) = false).
  { unfold orcid_taken. rewrite Hb2, Hb3. exact (orcid_own (authors d) a H1 H5 Ha). }
  rewrite Ht. mrun. eexists b, _. split; [reflexivity|]. split; [done|]. cbn.
  assert (Hi : map identity (update_where (fun r => au_id r =? au_id a) (fun _ => b) (authors d)) = map identity (authors d)) by by apply update_author.
  split; [|by split]. eapply directory_same; [symmetry; exact Hi| |exact Hd]. symmetry. by apply update_author.
Qed.
Lemma created_runs now name d : directory d -> truthy (name_key name) = true -> find_author (name_key name) (authors d) = None ->
  let a := mkAuthor (au_seq d + 1) (name_key name) name (set_aliases [name]) None now in
  get_or_create_author (fun d => d) now name None (clean d) = (Ok a, clean (insert_author a d)) /\ directory (insert_author a d).
Proof.
  intros Hd Ht Hf a. split.
  - unfold get_or_create_author, clean. rewrite Ht. cbn [negb]. mrun. rewrite Hf. mrun. rewrite Hf. reflexivity.
  - apply directory_add; try done.
Qed.
Lemma get_or_create_runs now name d : directory d -> truthy (name_key name) = true ->
  exists a d', get_or_create_author (fun d => d) now name None (clean d) = (Ok a, clean d') /\ directory d' /\
    id_of d' name = Some (au_id a) /\ extends d d' /\ same_graph d d' /\
    (forall i, id_of d name = Some i -> map identity (authors d') = map identity (authors d)).
Proof.
  intros Hd Ht. destruct (find_author (name_key name) (authors d)) as [a|] eqn:Hf.
  - destruct (existing_runs now name d a Hd Hf) as (b & d' & E & Hb & Hd' & Hi & Hs). exists b, d'.
    assert (Hid : forall n, id_of d' n = id_of d n) by (intros n; by apply find_author_identity).
    split; [done|]. split; [done|]. split; [|split; [|by split]].
    + rewrite Hid. unfold id_of. by rewrite Hf, Hb.
    + intros n i. by rewrite Hid.
  - destruct (created_runs now name d Hd Ht Hf) as [E Hd']. eexists _, _. split; [exact E|]. split; [done|]. unfold id_of, extends. cbn [insert_author authors].
    split; [|split; [|split; [by split|]]].
    + rewrite find_author_app, Hf. cbn. by rewrite bool_decide_eq_true_2.
    + intros n i H. unfold id_of in *. cbn [insert_author authors]. rewrite find_author_app. by destruct (find_author (name_key n) (authors d)).
    + intros i. by rewrite Hf.
Qed.
(** Also when other writers commit between the query and the insert: whoever
    wins, the author that is returned is the one the committed directory has. *)
Lemma get_or_create_raced others now name d : directory d -> directory (others d) -> truthy (name_key name) = true ->
  exists a s, get_or_create_author others now name None (clean d) = (Ok a, s) /\ directory (sess_base s) /\
    id_of (sess_base s) name = Some (au_id a).
Proof.
  intros Hd Ho Ht. destruct (find_author (name_key name) (authors d)) as [a|] eqn:Hf.
  - destruct (get_or_create_runs now name d Hd Ht) as (b & d' & E & Hd' & Hi & _). exists b, (clean d').
    split; [|by split]. rewrite <- E. unfold get_or_create_author, clean. rewrite Ht. cbn [negb]. mrun. by rewrite Hf.
  - unfold get_or_create_author, clean. rewrite Ht. cbn [negb]. mrun. rewrite Hf. mrun.
    destruct (find_author (name_key name) (authors (others d))) as [b|] eqn:Hf'.
    + mrun. rewrite Hf'. eexists _, _. split; [reflexivity|]. cbn. split; [done|]. unfold id_of. by rewrite Hf'.
    + eexists _, _. split; [reflexivity|]. cbn [sess_base]. split; [by apply directory_add|]. unfold id_of. cbn [sess_db insert_author authors]. rewrite find_author_app, Hf'. cbn.
      by rewrite bool_decide_eq_true_2.
Qed.

Lemma resolve_runs now names : forall pos d, directory d -> Forall (fun n => truthy (name_key n) = true) names ->
  exists ids d', resolve_authors now names pos (clean d) = (Ok ids, clean d') /\ directory d' /\ extends d d' /\ same_graph d d' /\
    map (fun x => Some x.1) ids = map (id_of d') names /\ map snd ids = seqZ pos (Z.of_nat (List.length names)) /\
    (Forall (fun n => is_Some (id_of d n)) names -> map identity (authors d') = map identity (authors d)).
Proof.
  induction names as [|n names IH]; intros pos d Hd Hn.
  - exists [], d. cbn. rewrite seqZ_nil by lia. repeat split; try done; try apply Hd. intros n i H. exact H.
  - apply Forall_cons in Hn as [Hn Hns]. destruct (get_or_create_runs now n d Hd Hn) as (a & d1 & E1 & Hd1 & Hi1 & Hx1 & Hs1 & Hid1).
    destruct (IH (pos + 1) d1 Hd1 Hns) as (ids & d2 & E2 & Hd2 & Hx2 & Hs2 & Hm & Hp & Hid2).
    exists ((au_id a, pos) :: ids), d2. cbn [resolve_authors]. rewrite (run_ok _ _ _ _ _ E1), (run_ok _ _ _ _ _ E2).
    split; [done|]. split; [done|]. split; [by intros m i H; apply Hx2, Hx1|].
    split; [destruct Hs1 as (-> & -> & -> & ->) || (destruct Hs1 as (A1 & A2 & A3 & A4), Hs2 as (B1 & B2 & B3 & B4); repeat split; congruence)|].
    split; [cbn; rewrite Hm; f_equal; by rewrite (Hx2 n (au_id a))|].
    split; [cbn [map snd List.length]; rewrite Hp, (seqZ_cons pos) by lia; f_equal; f_equal; lia|].
    intros [[i Hi] Hrest]%Forall_cons. rewrite <- (Hid1 i Hi). apply Hid2. apply (Forall_impl _ _ _ Hrest). intros m [j Hj]. exists j. by apply Hx1.
Qed.

(** * Writing a work twice *)
Lemma moves_reassign now e d : moves e (reassign now e d) = false.
Proof.
  unfold reassign. destruct (moves e d) eqn:Em; [|done]. destruct (scope_of e) as [org dm] eqn:Es. apply moves_spec. intros p Hp Hi.
  cbn in Hp. apply in_update_where in Hp as (p0 & Hp0 & H). unfold entity_scopes. apply first_seen_in, list_elem_of_In, in_map_iff.
  exists (mkPub (pb_author p) (en_id e) org dm (pb_position p)). rewrite Es. split; [done|]. apply filter_In. cbn.
  split; [|apply Z.eqb_refl]. destruct H as [[Hq ->]|[Hq ->]]; [|unfold of_entity in Hq; rewrite Hi, Z.eqb_refl in Hq; done].
  set (f := fun p => mkPub (pb_author p) (en_id e) org dm (pb_position p)).
  pose proof (update_where_in (of_entity (en_id e)) f _ p0 Hp0) as Hin. rewrite Hq in Hin. exact Hin.
Qed.
Lemma moves_publish e news d : Forall (fun p => pb_entity p = en_id e /\ pb_scope p = scope_of e) news ->
  moves e d = false -> moves e (with_pubs (fun l => l ++ news) d) = false.
Proof.
  intros Hn Hm. assert (H : safe true [e] (with_pubs (fun l => l ++ news) (with_edges (fun _ => []) (with_contribs (fun _ => []) d)))).
  { apply safe_publish with e; [repeat constructor; by intros ?%elem_of_nil|intros _; by left|done|]. split.
    - split; try constructor.
    - intros _ x [<-|[]]. exact Hm. }
  exact (proj2 H eq_refl e (or_introl eq_refl)).
Qed.
Lemma moves_marked r now s e d : moves e (mark_dirty r now d s) = moves e d.
Proof. done. Qed.

Definition logged (i a b : Z) d : Prop := In (i, Z.min a b, Z.max a b) (map cc_key (contribs d)).
Lemma logged_spec i a b d : existsb (fun c => bool_decide (cc_key c = (i, Z.min a b, Z.max a b))) (contribs d) = true <-> logged i a b d.
Proof.
  unfold logged. rewrite existsb_exists, in_map_iff. split; intros (c & H1 & H2).
  - apply bool_decide_eq_true in H2. eauto.
  - exists c. split; [done|]. by apply bool_decide_eq_true.
Qed.
Lemma contribute_logs now e d a b : a <> b -> logged (en_id e) a b (contribute now e d (a, b)).
Proof.
  intros Hne. unfold contribute. apply Z.eqb_neq in Hne as ->. destruct (existsb _ _) eqn:Ex; [by apply logged_spec|].
  destruct (scope_of e). unfold logged. cbn. rewrite map_app. apply in_or_app. right. by left.
Qed.
Lemma contribute_keeps_log now e d ab i a b : logged i a b d -> logged i a b (contribute now e d ab).
Proof.
  intros H. destruct ab as [x y]. unfold contribute. destruct (x =? y); [done|]. destruct (existsb _ _); [done|].
  destruct (scope_of e). unfold logged. cbn. rewrite map_app. apply in_or_app. by left.
Qed.
Lemma contribute_all_logs now e ps : forall d a b, a <> b -> In (a, b) ps \/ logged (en_id e) a b d -> logged (en_id e) a b (fold_left (contribute now e) ps d).
Proof.
  induction ps as [|p ps IH]; intros d a b Hne H; cbn; [by destruct H|]. apply IH; [done|].
  destruct H as [[->|H]|H]; [right; by apply contribute_logs|by left|right; by apply contribute_keeps_log].
Qed.
Lemma contribute_noop now e ps d : (forall a b, In (a, b) ps -> a <> b -> logged (en_id e) a b d) -> fold_left (contribute now e) ps d = d.
Proof.
  induction ps as [|[a b] ps IH]; intros H; cbn [fold_left]; [done|].
  assert (Hn : contribute now e d (a, b) = d).
  { unfold contribute. destruct (Z.eqb_spec a b); [done|]. by rewrite (proj2 (logged_spec _ _ _ _)) by (apply H; [by left|done]). }
  rewrite Hn. apply IH. intros x y Hx. apply H. by right.
Qed.

(** The state after the authors are known. *)
Definition written now e ids d : CoDb F :=
  mark_dirty "enrichment" now
    (fold_left (contribute now e) (combinations2 (map fst ids)) (with_pubs (fun l => l ++ new_pubs e ids d) d)) (scope_of e).
Lemma write_runs v2 force now e names ids d d1 :
  force || v2 = true -> authors_of loads e = Ok names -> (2 <= List.length names)%nat ->
  resolve_authors now (firstn MAX_AUTHORS_FOR_COAUTH names) 1 (clean d) = (Ok ids, clean d1) ->
  let d2 := reassign now e d1 in
  write_coauthor_artifacts loads v2 force now e (clean d) =
  if bool_decide (NoDup (map pb_author (new_pubs e ids d2))) then (Ok tt, mkSession (written now e ids d2) d1)
  else (Raise (IntegrityError "author_publications.author_id, author_publications.entity_id"), clean d1).
Proof.
  intros Hf Ha Hl Hr d2. unfold write_coauthor_artifacts. replace (negb force && negb v2) with false by (destruct force, v2; done).
  rewrite Ha. mrun. replace (List.length names <? 2)%nat with false by (symmetry; apply Nat.ltb_ge; lia).
  rewrite (run_ok _ _ _ _ _ Hr). unfold clean. mrun. cbv zeta. fold d2. case_bool_decide; cbn [negb]; by mrun.
Qed.
Lemma resolved_names now names : forall pos d ids s, directory d -> resolve_authors now names pos (clean d) = (Ok ids, s) ->
  Forall (fun n => truthy (name_key n) = true) names.
Proof.
  induction names as [|n names IH]; intros pos d ids s Hd H; [constructor|]. cbn [resolve_authors] in H.
  destruct (truthy (name_key n)) eqn:Et.
  - destruct (get_or_create_runs now n d Hd Et) as (a & d1 & E & Hd1 & _). rewrite (run_ok _ _ _ _ _ E) in H.
    destruct (resolve_authors now names (pos + 1) (clean d1)) as [[rest|x] s1] eqn:Er; [|rewrite (run_fails _ _ _ _ _ Er) in H; done].
    constructor; [done|]. by eapply IH.
  - unfold mbind, get_or_create_author in H. rewrite Et in H. done.
Qed.
Lemma new_pubs_none e ids d : (forall i, In i (map fst ids) -> i ∈ map pb_author (List.filter (of_entity (en_id e)) (pubs d))) -> new_pubs e ids d = [].
Proof.
  intros H. unfold new_pubs. replace (List.filter _ ids) with (@nil (Z * Z)); [done|]. symmetry.
  induction ids as [|[i p] ids IH]; [done|]. cbn. rewrite bool_decide_eq_true_2 by (apply H; by left). cbn. apply IH. intros j Hj. apply H. by right.
Qed.
Lemma written_authors now e ids d i : In i (map fst ids) -> i ∈ map pb_author (List.filter (of_entity (en_id e)) (pubs (written now e ids d))).
Proof.
  intros Hi. unfold written, mark_dirty. cbn [with_dirty pubs]. rewrite contribute_pubs. cbn [with_pubs pubs].
  rewrite List.filter_app, map_app. apply elem_of_app.
  destruct (decide (i ∈ map pb_author (List.filter (of_entity (en_id e)) (pubs d)))) as [Hd|Hd]; [by left|right].
  apply in_map_iff in Hi as ([j p] & <- & Hi). apply list_elem_of_In, in_map_iff. exists (mkPub j (en_id e) (scope_of e).1 (scope_of e).2 (Some p)).
  split; [done|]. apply filter_In. split; [|by apply Z.eqb_refl]. unfold new_pubs. apply in_map_iff. exists (j, p). split; [done|].
  apply filter_In. split; [done|]. cbn. apply negb_true_iff, bool_decide_eq_false. exact Hd.
Qed.
Lemma same_ids d d' ids ids' names : map (fun x : Z * Z => Some x.1) ids = map (id_of d) names -> map (fun x : Z * Z => Some x.1) ids' = map (id_of d') names ->
  extends d d' -> map fst ids' = map fst ids.
Proof.
  revert ids ids'. induction names as [|n names IH]; intros [|x ids] [|y ids'] H H' Hx; try done. cbn in *. injection H as H1 H2. injection H' as H1' H2'.
  rewrite (IH ids ids') by done. f_equal. specialize (Hx n x.1 (eq_sym H1)). congruence.
Qed.

Lemma marks_authors r now l d : authors (fold_left (mark_dirty r now) l d) = authors d /\ au_seq (fold_left (mark_dirty r now) l d) = au_seq d.
Proof. revert d. induction l as [|x l IH]; intros d; cbn; [done|]. apply (IH (mark_dirty r now d x)). Qed.
Lemma contribute_authors now e ps d : authors (fold_left (contribute now e) ps d) = authors d /\ au_seq (fold_left (contribute now e) ps d) = au_seq d.
Proof.
  revert d. induction ps as [|[a b] ps IH]; intros d; cbn [fold_left]; [done|]. destruct (IH (contribute now e d (a, b))) as [-> ->].
  unfold contribute. destruct (a =? b); [done|]. destruct (existsb _ _); [done|]. by destruct (scope_of e).
Qed.
Lemma written_directory now e ids d : authors (written now e ids (reassign now e d)) = authors d /\ au_seq (written now e ids (reassign now e d)) = au_seq d.
Proof.
  unfold written, mark_dirty. cbn [with_dirty authors au_seq]. destruct (contribute_authors now e (combinations2 (map fst ids))
    (with_pubs (fun l => l ++ new_pubs e ids (reassign now e d)) (reassign now e d))) as [-> ->].
  cbn. unfold reassign. destruct (moves e d); [|done]. destruct (scope_of e). apply marks_authors.
Qed.
Lemma moves_written now e ids d : moves e d = false -> moves e (written now e ids d) = false.
Proof.
  intros H. unfold written. rewrite moves_marked. unfold moves, entity_scopes. rewrite contribute_pubs.
  apply (moves_publish e (new_pubs e ids d) d); [apply new_pubs_scope|done].
Qed.
Lemma written_logged now e ids d a b : In (a, b) (combinations2 (map fst ids)) -> a <> b -> logged (en_id e) a b (written now e ids d).
Proof. intros Hin Hne. exact (contribute_all_logs now e _ _ a b Hne (or_introl Hin)). Qed.

Lemma pairs_eq {A B} (l l' : list (A * B)) : map fst l = map fst l' -> map snd l = map snd l' -> l = l'.
Proof.
  revert l'. induction l as [|[x y] l IH]; intros [|[x' y'] l'] H1 H2; try done. cbn in *. injection H1 as -> H1. injection H2 as -> H2. by rewrite (IH l').
Qed.
Lemma all_found (f : string -> option Z) (ids : list (Z * Z)) names : map (fun x => Some x.1) ids = map f names -> Forall (fun n => is_Some (f n)) names.
Proof.
  revert ids. induction names as [|n names IH]; intros [|x ids] H; try done. cbn in H. injection H as H1 H2. constructor.
  - rewrite <- H1. by eexists.
  - by apply (IH ids).
Qed.
(** A state that holds all of a work's artifacts. *)
Definition holds (e : Entity) (ids : list (Z * Z)) d : Prop :=
  moves e d = false /\ (forall i, In i (map fst ids) -> i ∈ map pb_author (List.filter (of_entity (en_id e)) (pubs d))) /\
  (forall a b, In (a, b) (combinations2 (map fst ids)) -> a <> b -> logged (en_id e) a b d).
Lemma written_holds now e ids d : holds e ids (written now e ids (reassign now e d)).
Proof.
  split; [apply moves_written, moves_reassign|]. split; [intros i; apply written_authors|intros a b; apply written_logged].
Qed.
Lemma holds_same e ids d d' : same_graph d d' -> holds e ids d -> holds e ids d'.
Proof. intros (H1 & _ & H3 & _). unfold holds, moves, entity_scopes, logged. by rewrite H1, H3. Qed.
Lemma written_noop now e ids d : holds e ids d -> reassign now e d = d /\ new_pubs e ids d = [] /\
  pubs (written now e ids d) = pubs d /\ edges (written now e ids d) = edges d /\ contribs (written now e ids d) = contribs d.
Proof.
  intros (Hm & Hp & Hl). unfold reassign. rewrite Hm. split; [done|]. pose proof (new_pubs_none e ids d Hp) as Hn. split; [done|].
  unfold written. rewrite Hn. set (d' := with_pubs (fun l => l ++ []) d). rewrite (contribute_noop now e _ d') by exact Hl.
  cbn. split; [apply app_nil_r|done].
Qed.
(** The two ways a write can be empty, and the way it runs. *)
Lemma written_cases v2 force now e d s : directory d -> write_coauthor_artifacts loads v2 force now e (clean d) = (Ok tt, s) ->
  (forall now' d', write_coauthor_artifacts loads v2 force now' e (clean d') = (Ok tt, clean d')) \/
  exists names, force || v2 = true /\ authors_of loads e = Ok names /\ (2 <= List.length names)%nat /\
    Forall (fun n => truthy (name_key n) = true) (firstn MAX_AUTHORS_FOR_COAUTH names).
Proof.
  intros Hd H. destruct (force || v2) eqn:Hf.
  2:{ left. intros. apply orb_false_iff in Hf as [-> ->]. done. }
  unfold write_coauthor_artifacts in *. replace (negb force && negb v2) with false in * by (destruct force, v2; done).
  destruct (authors_of loads e) as [names|x]; [|done]. destruct (Nat.ltb_spec (List.length names) 2) as [Hl|Hl].
  - left. intros. rewrite run_lift_ok. apply Nat.ltb_lt in Hl. by rewrite Hl.
  - right. exists names. split; [done|]. split; [done|]. split; [done|]. rewrite run_lift_ok in H.
    replace (List.length names <? 2)%nat with false in H by (symmetry; apply Nat.ltb_ge; lia).
    destruct (resolve_authors now (firstn MAX_AUTHORS_FOR_COAUTH names) 1 (clean d)) as [[ids|x] s1] eqn:Er; [by eapply resolved_names|].
    by rewrite (run_fails _ _ _ _ _ Er) in H.
Qed.

(** C14: writing is idempotent. When the artifacts of a work have been written, to a
    well-formed directory and committed, writing them again, at any later time,
    succeeds and changes no author's identity, no publication, no edge or its weight
    and no row of the log. *)
Theorem rewrite_adds_nothing v2 force now now' e d s : directory d ->
  write_coauthor_artifacts loads v2 force now e (clean d) = (Ok tt, s) ->
  exists s', write_coauthor_artifacts loads v2 force now' e (clean (sess_db s)) = (Ok tt, s') /\
    map identity (authors (sess_db s')) = map identity (authors (sess_db s)) /\ pubs (sess_db s') = pubs (sess_db s) /\
    edges (sess_db s') = edges (sess_db s) /\ contribs (sess_db s') = contribs (sess_db s).
Proof.
  intros Hd H. destruct (written_cases _ _ _ _ _ _ Hd H) as [Hnoop|(names & Hf & Ha & Hl & Hn)]; [eexists; split; [apply Hnoop|done]|].
  destruct (resolve_runs now _ 1 d Hd Hn) as (ids & d1 & E1 & Hd1 & _ & _ & Hm1 & Hp1 & _).
  rewrite (write_runs _ _ _ _ _ _ _ _ Hf Ha Hl E1) in H. cbv zeta in H.
  case_bool_decide as Hnd; [|done]. injection H as <-. cbn [sess_db]. set (d3 := written now e ids (reassign now e d1)).
  destruct (written_directory now e ids d1) as [Hau Hsq]. fold d3 in Hau, Hsq.
  assert (Hd3 : directory d3) by (unfold directory; by rewrite Hau, Hsq).
  assert (Hid : forall n, id_of d3 n = id_of d1 n) by (intros n; unfold id_of; by rewrite Hau).
  destruct (resolve_runs now' _ 1 d3 Hd3 Hn) as (ids' & d4 & E4 & _ & Hx & Hs & Hm4 & Hp4 & Hi4).
  rewrite <- (map_ext _ _ Hid) in Hm1. pose proof (same_ids _ _ _ _ _ Hm1 Hm4 Hx) as Hfst.
  assert (ids' = ids) as ->.
  { apply pairs_eq; [done|congruence]. }
  destruct (written_noop now' e ids d4 (holds_same _ _ _ _ Hs (written_holds now e ids d1))) as (Hr & Hnew & Hw1 & Hw2 & Hw3).
  pose proof (write_runs v2 force now' e names ids d3 d4 Hf Ha Hl E4) as E. cbv zeta in E. rewrite Hr, Hnew in E.
  eexists. split; [exact E|]. cbn [sess_db]. rewrite Hw1, Hw2, Hw3. destruct Hs as (S1 & S2 & S3 & _).
  split; [|done]. destruct (written_directory now' e ids d4) as [Hau4 _]. rewrite Hr in Hau4. rewrite Hau4. apply Hi4.
  by eapply all_found.
Qed.
End identity.

Lemma rewrite_adds_nothing_witness :
  exists s s', write_coauthor_artifacts (F := Z) ex_loads true false 5 (ex_work 11 (Some 7) "w2") (clean ex_db) = (Ok tt, s) /\
    map edge_row (edges (sess_db s)) = [(1, 2, 1); (1, 3, 1); (2, 3, 1)] /\
    write_coauthor_artifacts ex_loads true false 9 (ex_work 11 (Some 7) "w2") (clean (sess_db s)) = (Ok tt, s') /\
    edges (sess_db s') = edges (sess_db s).
Proof.
  assert (Hd : directory ex_db) by (split; constructor).
  destruct (write_coauthor_artifacts (F := Z) ex_loads true false 5 (ex_work 11 (Some 7) "w2") (clean ex_db)) as [r s] eqn:E.
  assert (Hr : r = Ok tt) by (apply (f_equal fst) in E; vm_compute in E; congruence). subst r.
  destruct (rewrite_adds_nothing ex_loads true false 5 9 (ex_work 11 (Some 7) "w2") ex_db s Hd E) as (s' & E' & _ & _ & He & _).
  exists s, s'. split; [reflexivity|]. split; [|by split].
  change s with (snd (@Ok unit tt, s)). rewrite <- E. vm_compute. reflexivity.
Defined.
