(* ===== verification/CoauthorReview.v ===== *)
(** * The review queue of author identities

    What the scan suggests and what a confirmed suggestion does; at the end, where
    the coauthorship graph parts from what it says. *)
From S2P Require Import Prelude PyStr PyJson PyValue TenantAccess JobsApi Entities UnionFind NameKey Coauthor CoauthorClaims CoauthorIdentity.
From Stdlib Require Import Ascii String.

Local Open Scope string_scope.
Local Open Scope list_scope.
Local Open Scope Z_scope.
Local Open Scope py_scope.

(** * Ambiguous pairs *)
(** The pairs the classifier leaves to a reviewer: one key is the other with the
    first name cut to its initial, and not both have an ORCID. *)
Definition ambiguous (a b : Author) : bool :=
  last_initial_pair (au_key a) (au_key b) && negb (or_text (au_orcid a) && or_text (au_orcid b)).

Lemma last_initial_pair_sym a b : last_initial_pair a b = last_initial_pair b a.
Proof.
  unfold last_initial_pair. destruct (cut_under (chars a) []) as [[la fa]|], (cut_under (chars b) []) as [[lb fb]|]; try done.
  rewrite (bool_decide_ext (la = lb) (lb = la)) by done. destruct (bool_decide (lb = la)), (truthy fa), (truthy fb); try done. cbn.
  by rewrite xorb_comm, orb_comm.
Qed.
Lemma ambiguous_sym a b : ambiguous a b = ambiguous b a.
Proof. unfold ambiguous. by rewrite last_initial_pair_sym, (andb_comm (or_text (au_orcid a))). Qed.
Lemma ambiguous_family a b : ambiguous a b = true -> family_name (au_key a) = family_name (au_key b).
Proof.
  unfold ambiguous, last_initial_pair, family_name. destruct (cut_under (chars (au_key a)) []) as [[la fa]|]; [|done].
  destruct (cut_under (chars (au_key b)) []) as [[lb fb]|]; [|done]. by case_bool_decide.
Qed.
Lemma ambiguous_ne a b : ambiguous a b = true -> au_key a <> au_key b.
Proof.
  intros H E. unfold ambiguous, last_initial_pair in H. rewrite E in H. destruct (cut_under (chars (au_key b)) []) as [[l f]|]; [|done].
  rewrite bool_decide_eq_true_2 in H by done. destruct (truthy f); [|done]. cbn in H. by rewrite xorb_nilpotent in H.
Qed.

Lemma combinations2_in {A} (l : list A) a b : In (a, b) (combinations2 l) -> In a l /\ In b l.
Proof.
  induction l as [|x l IH]; [done|]. cbn. rewrite in_app_iff, in_map_iff. intros [(y & E & Hy)|H]; [simplify_eq; auto|naive_solver].
Qed.
Lemma combinations2_all {A} (l : list A) a b : In a l -> In b l -> a <> b -> In (a, b) (combinations2 l) \/ In (b, a) (combinations2 l).
Proof.
  induction l as [|x l IH]; [done|]. cbn. rewrite !in_app_iff, !in_map_iff. intros [->|Ha] [->|Hb] Hne; [done| | |].
  - left. left. eauto.
  - right. left. eauto.
  - destruct (IH Ha Hb Hne); auto.
Qed.
Lemma pair_key_comm a b : pair_key a b = pair_key b a.
Proof. unfold pair_key. by rewrite Z.min_comm, Z.max_comm. Qed.
Lemma pair_key_idem a b : pair_key (pair_key a b).1 (pair_key a b).2 = pair_key a b.
Proof. unfold pair_key. cbn. f_equal; lia. Qed.

Section review.
Context {F : Type} (loads : string -> option json).
Implicit Types d : CoDb F.

Lemma classify_distinct d a b : au_key a <> au_key b ->
  exists dec, classify_merge loads d a b = Ok dec /\ bool_decide (md_tier dec = "ambiguous") = ambiguous a b.
Proof.
  intros Hne. unfold classify_merge, ambiguous. destruct (or_text (au_orcid a) && or_text (au_orcid b)) eqn:E; cbn [andb negb].
  - rewrite andb_false_r. destruct (bool_decide (au_orcid a = au_orcid b)); eexists; (split; [reflexivity|done]).
  - rewrite bool_decide_eq_false_2 by done. rewrite andb_true_r. destruct (last_initial_pair _ _); eexists; (split; [reflexivity|done]).
Qed.

Definition found_keys (found : list (Z * Z * MergeDecision)) : list (Z * Z) := map fst found.
Lemma compare_pairs_spec d pairs : (forall a b, In (a, b) pairs -> au_key a <> au_key b) -> forall existing,
  exists found, compare_pairs loads d pairs existing = Ok found /\ NoDup (found_keys found) /\
    forall k, k ∈ found_keys found <-> k ∉ existing /\ exists a b, In (a, b) pairs /\ ambiguous a b = true /\ k = pair_key (au_id a) (au_id b).
Proof.
  induction pairs as [|[a b] pairs IH]; intros Hne existing.
  - exists []. split; [done|]. split; [constructor|]. intros k. split; [by intros ?%elem_of_nil|]. by intros (_ & ? & ? & [] & _).
  - assert (Hne' : forall a b, In (a, b) pairs -> au_key a <> au_key b) by (intros x y Hx; apply Hne; by right).
    cbn [compare_pairs]. set (key := pair_key (au_id a) (au_id b)). case_bool_decide as Hk.
    + destruct (IH Hne' existing) as (found & E & Hnd & Hf). exists found. split; [done|]. split; [done|]. intros k. rewrite Hf. split.
      * intros (H1 & x & y & Hx & H2). split; [done|]. exists x, y. split; [by right|done].
      * intros (H1 & x & y & [Hx|Hx] & H2 & H3); [|split; [done|]; by exists x, y]. simplify_eq. done.
    + destruct (classify_distinct d a b (Hne a b (or_introl eq_refl))) as (dec & -> & Hdec). cbn [res_bind]. rewrite Hdec. destruct (ambiguous a b) eqn:Ea.
      * destruct (IH Hne' (key :: existing)) as (found & E & Hnd & Hf). rewrite E. exists ((key, dec) :: found). split; [done|].
        assert (Hkf : key ∉ found_keys found) by (rewrite Hf; intros [H _]; apply H; by left).
        split; [by constructor|]. intros k. cbn. rewrite elem_of_cons, Hf. split.
        -- intros [->|(H1 & x & y & Hx & H2)]; [split; [done|]; exists a, b; split; [by left|done]|].
           split; [intros H; apply H1; by right|]. exists x, y. split; [by right|done].
        -- intros (H1 & x & y & [Hx|Hx] & H2 & H3); [left; by simplify_eq|].
           destruct (decide (k = key)) as [->|Hn]; [by left|right]. split; [by rewrite not_elem_of_cons|]. by exists x, y.
      * destruct (IH Hne' existing) as (found & E & Hnd & Hf). exists found. split; [done|]. split; [done|]. intros k. rewrite Hf. split.
        -- intros (H1 & x & y & Hx & H2). split; [done|]. exists x, y. split; [by right|done].
        -- intros (H1 & x & y & [Hx|Hx] & H2 & H3); [simplify_eq; congruence|]. split; [done|]. by exists x, y.
Qed.

(** The authors that share a family name. *)
Definition family_of (a : Author) (l : list Author) : list Author :=
  List.filter (fun b => bool_decide (family_name (au_key b) = family_name (au_key a))) l.
Definition scanned_pairs (n : nat) (l : list Author) : list (Author * Author) :=
  flat_map combinations2 (List.filter (comparable n) (family_groups l)).
Definition wanted (n : nat) (l : list Author) (k : Z * Z) : Prop :=
  exists a b, In a l /\ In b l /\ ambiguous a b = true /\ (List.length (family_of a l) <= n)%nat /\ k = pair_key (au_id a) (au_id b).

Lemma in_family_groups g l : In g (family_groups l) <-> exists a, In a l /\ g = family_of a l.
Proof.
  unfold family_groups. rewrite in_map_iff. split.
  - intros (k & <- & Hk). apply list_elem_of_In, first_seen_in, list_elem_of_In, in_map_iff in Hk as (a & <- & Ha). by exists a.
  - intros (a & Ha & ->). exists (family_name (au_key a)). split; [done|]. apply list_elem_of_In, first_seen_in, list_elem_of_In.
    by apply (in_map (fun a => family_name (au_key a))).
Qed.
Lemma NoDup_combinations2 {A} (l : list A) a b : NoDup l -> In (a, b) (combinations2 l) -> a <> b.
Proof.
  induction 1 as [|x l Hx Hnd IH]; [done|]. cbn. rewrite in_app_iff, in_map_iff. intros [(y & E & Hy)|H]; [|auto].
  simplify_eq. intros ->. apply Hx. by apply list_elem_of_In.
Qed.
Lemma scanned_distinct n l a b : NoDup (map au_key l) -> In (a, b) (scanned_pairs n l) -> In a l /\ In b l /\ au_key a <> au_key b.
Proof.
  intros Hnd. unfold scanned_pairs. rewrite in_flat_map. intros (g & [Hg _]%filter_In & Hab).
  apply in_family_groups in Hg as (x & Hx & ->). pose proof (combinations2_in _ _ _ Hab) as [Ha Hb]. apply filter_In in Ha as [Ha _], Hb as [Hb _].
  split; [done|]. split; [done|]. intros E. eapply (NoDup_combinations2 (family_of x l)); [|exact Hab|by apply (NoDup_map_inj au_key l)].
  apply (NoDup_fmap_1 au_key). by apply NoDup_map_filter.
Qed.
Lemma scanned_wanted n l k : (exists a b, In (a, b) (scanned_pairs n l) /\ ambiguous a b = true /\ k = pair_key (au_id a) (au_id b)) <-> wanted n l k.
Proof.
  unfold scanned_pairs. split.
  - intros (a & b & Hab & Hamb & ->). apply in_flat_map in Hab as (g & [Hg Hc]%filter_In & Hab). apply in_family_groups in Hg as (x & Hx & ->).
    pose proof (combinations2_in _ _ _ Hab) as [Ha Hb]. apply filter_In in Ha as [Ha Hfa], Hb as [Hb _]. apply bool_decide_eq_true in Hfa.
    exists a, b. split; [done|]. split; [done|]. split; [done|]. split; [|done]. unfold comparable in Hc. apply andb_prop in Hc as [_ Hc%Nat.leb_le].
    unfold family_of in *. by rewrite Hfa.
  - intros (a & b & Ha & Hb & Hamb & Hsz & ->).
    assert (Hga : In a (family_of a l)) by (apply filter_In; split; [done|]; by apply bool_decide_eq_true).
    assert (Hgb : In b (family_of a l)) by (apply filter_In; split; [done|]; apply bool_decide_eq_true; by rewrite (ambiguous_family _ _ Hamb)).
    assert (Hne : a <> b) by (intros ->; by apply (ambiguous_ne b b)).
    assert (Hg : In (family_of a l) (List.filter (comparable n) (family_groups l))).
    { apply filter_In. split; [apply in_family_groups; by exists a|]. unfold comparable. apply andb_true_intro. split; apply Nat.leb_le; [|done].
      destruct (family_of a l) as [|x [|y r]]; [done| |cbn; lia]. destruct Hga as [->|[]], Hgb as [->|[]]. done. }
    destruct (combinations2_all (family_of a l) a b Hga Hgb Hne) as [H|H].
    + exists a, b. split; [|done]. apply in_flat_map. eauto.
    + exists b, a. split; [apply in_flat_map; eauto|]. split; [by rewrite ambiguous_sym|apply pair_key_comm].
Qed.
Lemma new_suggestions_pairs n found : Forall (fun k => pair_key k.1 k.2 = k) (found_keys found) -> map sg_pair (new_suggestions n found) = found_keys found.
Proof.
  revert n. induction found as [|[k dec] found IH]; intros n H; [done|]. cbn in *. apply Forall_cons in H as [Hk H]. rewrite IH by done.
  unfold sg_pair. cbn. by rewrite Hk.
Qed.
Lemma new_suggestions_pending n found : Forall (fun s => sg_status s = "pending") (new_suggestions n found).
Proof. revert n. induction found as [|[k dec] found IH]; intros n; constructor; [done|apply IH]. Qed.
Lemma generate_runs n d found : compare_pairs loads d (scanned_pairs n (authors d)) (map sg_pair (suggestions d)) = Ok found ->
  exists st, generate_merge_suggestions loads n (clean d) =
    (Ok st, clean (with_suggestions (fun l => l ++ new_suggestions (sg_seq d) found) (sg_seq d + Z.of_nat (List.length found)) d)) /\
    suggestions_created st = List.length found.
Proof.
  intros H. unfold generate_merge_suggestions, clean. mrun. cbv zeta. unfold scanned_pairs in H. rewrite H. mrun. eexists. split; [reflexivity|done].
Qed.

(** C16: the review queue. A scan succeeds, keeps every suggestion and adds pending
    ones only; the pairs it adds are exactly the ambiguous pairs of authors, in
    families of at most the given size, that no suggestion, of whatever status,
    mentions yet, each once; a second scan adds none. *)
Theorem suggestions_exact n d : directory d ->
  exists st d' new, generate_merge_suggestions loads n (clean d) = (Ok st, clean d') /\
    suggestions d' = suggestions d ++ new /\ authors d' = authors d /\ pubs d' = pubs d /\ edges d' = edges d /\
    Forall (fun s => sg_status s = "pending") new /\ NoDup (map sg_pair new) /\
    (forall k, k ∈ map sg_pair new <-> k ∉ map sg_pair (suggestions d) /\ wanted n (authors d) k) /\
    exists st' d'', generate_merge_suggestions loads n (clean d') = (Ok st', clean d'') /\ suggestions d'' = suggestions d'.
Proof.
  intros Hd. pose proof (dir_keys _ _ Hd) as Hk.
  assert (Hne : forall a b, In (a, b) (scanned_pairs n (authors d)) -> au_key a <> au_key b) by (intros a b Hab; by eapply scanned_distinct).
  destruct (compare_pairs_spec d _ Hne (map sg_pair (suggestions d))) as (found & E & Hnd & Hf).
  destruct (generate_runs n d found E) as (st & Eg & _). set (d' := with_suggestions _ _ d) in Eg. set (new := new_suggestions (sg_seq d) found).
  assert (Hp : map sg_pair new = found_keys found).
  { apply new_suggestions_pairs. apply Forall_forall. intros k Hin. apply Hf in Hin as (_ & a & b & _ & _ & ->). apply pair_key_idem. }
  exists st, d', new. split; [done|]. split; [done|]. split; [done|]. split; [done|]. split; [done|]. split; [apply new_suggestions_pending|].
  split; [by rewrite Hp|]. split; [intros k; by rewrite Hp, Hf, scanned_wanted|].
  destruct (compare_pairs_spec d' _ Hne (map sg_pair (suggestions d'))) as (found' & E' & _ & Hf').
  destruct (generate_runs n d' found' E') as (st' & Eg' & _). exists st'. eexists. split; [exact Eg'|]. cbn [with_suggestions suggestions].
  destruct found' as [|[k dec] r]; [apply app_nil_r|]. exfalso. destruct (proj1 (Hf' k) (list_elem_of_here _ _)) as (Hnot & Hex).
  apply Hnot. cbn [d' with_suggestions suggestions]. rewrite map_app. apply elem_of_app.
  destruct (decide (k ∈ map sg_pair (suggestions d))) as [?|Hn]; [by left|right]. change (k ∈ map sg_pair new). rewrite Hp. apply Hf. by split.
Qed.
End review.

(** * Merging *)
Definition pub_key (p : Publication) : Z * Z := (pb_author p, pb_entity p).
Lemma merge_pubs_exact w l ps a i : w <> l ->
  In (a, i) (map pub_key (merge_pubs w l ps)) <-> exists a0, In (a0, i) (map pub_key ps) /\ a = repoint l w a0.
Proof.
  intros Hne. unfold merge_pubs. set (we := map pb_entity (List.filter (fun p => pb_author p =? w) ps)).
  assert (Hwe : forall i, i ∈ we <-> In (w, i) (map pub_key ps)).
  { intros j. unfold we. rewrite list_elem_of_In, !in_map_iff. split.
    - intros (p & <- & [Hp Hw]%filter_In). exists p. apply Z.eqb_eq in Hw. split; [|done]. unfold pub_key. by rewrite Hw.
    - intros (p & E & Hp). unfold pub_key in E. simplify_eq. exists p. split; [done|]. apply filter_In. split; [done|]. apply Z.eqb_refl. }
  split.
  - intros (p & E & Hp)%in_map_iff. apply in_update_where in Hp as (q & [Hq _]%filter_In & [[Hl ->]|[Hl ->]]);
      unfold pub_key in E; simplify_eq; exists (pb_author q); (split; [apply in_map_iff; by exists q|]); unfold repoint; by rewrite Hl.
  - intros (a0 & (q & E & Hq)%in_map_iff & ->). unfold pub_key in E. simplify_eq. unfold repoint. apply in_map_iff.
    destruct (Z.eqb_spec (pb_author q) l) as [El|Hnl].
    + destruct (decide (pb_entity q ∈ we)) as [Hin|Hin].
      * apply Hwe, in_map_iff in Hin as (r & E & Hr). exists r. split; [done|]. unfold pub_key in E. injection E as Ew Ei.
        set (f := fun p => mkPub w (pb_entity p) (pb_org p) (pb_domain p) (pb_position p)).
        match goal with |- In _ (update_where ?p _ ?l) => pose proof (update_where_in p f l r) as H end.
        cbn in H. assert (Hr' : pb_author r =? l = false) by (apply Z.eqb_neq; congruence). rewrite Hr' in H. apply H, filter_In.
        split; [done|]. by rewrite Hr'.
      * exists (mkPub w (pb_entity q) (pb_org q) (pb_domain q) (pb_position q)). split; [done|].
        match goal with |- In _ (update_where ?p ?f ?l) => pose proof (update_where_in p f l q) as H end. cbn in H. rewrite El, Z.eqb_refl in H.
        apply H. apply filter_In. split; [done|]. rewrite El, Z.eqb_refl. cbn. by apply negb_true_iff, bool_decide_eq_false.
    + exists q. split; [done|]. apply Z.eqb_neq in Hnl.
      match goal with |- In _ (update_where ?p ?f ?l) => pose proof (update_where_in p f l q) as H end. cbn in H. rewrite Hnl in H.
      apply H. apply filter_In. split; [done|]. by rewrite Hnl.
Qed.
Lemma merge_pubs_key w l ps : w <> l -> NoDup (map pub_key ps) -> NoDup (map pub_key (merge_pubs w l ps)).
Proof.
  intros Hne Hnd. unfold merge_pubs. set (we := map pb_entity (List.filter (fun p => pb_author p =? w) ps)).
  assert (Hwe : forall p, In p ps -> pb_author p = w -> pb_entity p ∈ we).
  { intros p Hp Hw. apply list_elem_of_In, in_map, filter_In. split; [done|]. by apply Z.eqb_eq. }
  clearbody we. induction ps as [|p ps IH]; [constructor|]. cbn in Hnd. apply NoDup_cons in Hnd as [Hp Hnd].
  assert (IH' : NoDup (map pub_key (update_where (fun p => pb_author p =? l) (fun p => mkPub w (pb_entity p) (pb_org p) (pb_domain p) (pb_position p))
    (List.filter (fun p => negb ((pb_author p =? l) && bool_decide (pb_entity p ∈ we))) ps)))).
  { apply IH; [done|]. intros q Hq. apply Hwe. by right. }
  cbn [List.filter]. destruct (negb _) eqn:Ek; [|done]. cbn. constructor; [|done].
  rewrite list_elem_of_In, in_map_iff. intros (q & E & Hq). apply in_update_where in Hq as (r & [Hr Hkr]%filter_In & Hcase).
  assert (Hin : forall k, k = pub_key r -> k <> pub_key p) by (intros k -> E'; apply Hp; rewrite <- E'; apply list_elem_of_In; by apply in_map).
  destruct Hcase as [[Hl ->]|[Hl ->]], (pb_author p =? l) eqn:El; unfold pub_key in E; cbn in E.
  - apply Z.eqb_eq in Hl, El. injection E as E. apply (Hin (pub_key r) eq_refl). unfold pub_key. congruence.
  - rewrite Hl in Hkr. cbn in Hkr. apply negb_true_iff, bool_decide_eq_false in Hkr. apply Hkr. injection E as E1 E2. rewrite E2. apply Hwe; [by left|done].
  - cbn in Ek. apply negb_true_iff, bool_decide_eq_false in Ek. apply Ek. injection E as E1 E2. rewrite <- E2. apply Hwe; [by right|done].
  - apply (Hin (pub_key r) eq_refl). exact E.
Qed.

Section confirm.
Context {F : Type}.
Implicit Types d : CoDb F.
Lemma marks_dirty r now (l : list (Z * string)) d s : In s l \/ In s (map ds_scope (dirty d)) -> In s (map ds_scope (dirty (fold_left (mark_dirty r now) l d))).
Proof.
  revert d. induction l as [|x l IH]; intros d H; cbn; [by destruct H|]. apply IH. destruct H as [[->|H]|H]; [right|by left|right]; cbn.
  - destruct (existsb _ (dirty d)) eqn:Ex; [|rewrite map_app; apply in_or_app; right; by left].
    rewrite update_where_map by done. apply existsb_exists in Ex as (y & Hy & E). apply bool_decide_eq_true in E. rewrite <- E. by apply in_map.
  - destruct (existsb _ (dirty d)); [by rewrite update_where_map|]. rewrite map_app. apply in_or_app. by left.
Qed.
Lemma marks_tables r now l d : let d' := fold_left (mark_dirty r now) l d in
  authors d' = authors d /\ pubs d' = pubs d /\ edges d' = edges d /\ contribs d' = contribs d /\ suggestions d' = suggestions d /\ audits d' = audits d /\ stats d' = stats d.
Proof. revert d. induction l as [|x l IH]; intros d; [done|]. apply (IH (mark_dirty r now d x)). Qed.

(** C15: a confirmed suggestion merges exactly. Unless the ORCID of the second author
    would move (the request then fails and changes nothing), the second author
    disappears: every work of either author is a work of the first, once; no
    publication, edge, log row, statistic or suggestion refers to the second any
    more; all other authors, edges and log rows stay; the suggestion is merged, the
    audit holds one more row, and every scope of the surviving author is marked for
    recompute. *)
Theorem confirm_merges_exactly sid now user s w l d :
  directory d -> NoDup (map pub_key (pubs d)) -> NoDup (map sg_id (suggestions d)) -> In (role user) REVIEWERS ->
  In s (suggestions d) -> sg_id s = sid -> sg_status s = "pending" -> In w (authors d) -> In l (authors d) ->
  sg_a s = au_id w -> sg_b s = au_id l -> au_id w <> au_id l ->
  let r := confirm_merge_suggestion sid now user (clean d) in
  if or_text (au_orcid l) && negb (or_text (au_orcid w)) then r = (Raise (IntegrityError "authors.orcid"), clean d)
  else exists d', r = (Ok (au_id w, au_id l), clean d') /\
    map identity (authors d') = map identity (List.filter (fun a => negb (au_id a =? au_id l)) (authors d)) /\
    NoDup (map pub_key (pubs d')) /\
    (forall a i, In (a, i) (map pub_key (pubs d')) <-> exists a0, In (a0, i) (map pub_key (pubs d)) /\ a = repoint (au_id l) (au_id w) a0) /\
    edges d' = List.filter (fun e => negb (touches (au_id l) (ce_a e, ce_b e))) (edges d) /\
    contribs d' = List.filter (fun c => negb (touches (au_id l) (cc_a c, cc_b c))) (contribs d) /\
    Forall (fun x => st_author x <> au_id l) (stats d') /\ Forall (fun x => sg_a x <> au_id l /\ sg_b x <> au_id l) (suggestions d') /\
    map (fun x => (sg_id x, sg_status x)) (suggestions d') = map (fun x => (sg_id x, if sg_id x =? sid then "merged" else sg_status x)) (suggestions d) /\
    List.length (audits d') = S (List.length (audits d)) /\
    (forall p, In p (pubs d') -> pb_author p = au_id w -> In (pb_scope p) (map ds_scope (dirty d'))).
Proof.
  intros [Hids _ _ _ _] Hpk Hsg Hrole Hs Hsid Hst Hw Hl Ha Hb Hne r.
  assert (Hf : List.find (fun x => sg_id x =? sid) (suggestions d) = Some s).
  { apply (find_unique sg_id); [done|done|by apply Z.eqb_eq|]. intros y Hy. apply Z.eqb_eq in Hy. congruence. }
  assert (Hau : forall a, In a (authors d) -> author_by_id (au_id a) (authors d) = Some a).
  { intros a Hin. apply (find_unique au_id); [done|done|apply Z.eqb_refl|]. intros y Hy. by apply Z.eqb_eq. }
  unfold r, confirm_merge_suggestion, require_role, pending_suggestion, clean. rewrite bool_decide_eq_true_2 by by apply list_elem_of_In.
  mrun. rewrite Hf, bool_decide_eq_true_2 by done. mrun. rewrite Ha, Hb, (Hau w Hw), (Hau l Hl). unfold merge_authors.
  apply Z.eqb_neq in Hne as Hne'. rewrite Hne'. destruct (or_text (au_orcid l) && _) eqn:Eo; [done|]. mrun.
  eexists. split; [reflexivity|]. set (audit := mkAudit _ _ _ _ _ _). set (d1 := merged_db w l audit d). unfold enqueue_author_scopes.
  set (ss := first_seen _). destruct (marks_tables "merge" now ss d1) as (T1 & T2 & T3 & T4 & T5 & T6 & T7).
  unfold resolve_suggestion. cbn [with_suggestions authors pubs edges contribs stats suggestions audits dirty sess_db]. rewrite T1, T2, T3, T4, T5, T6, T7. cbn [d1 merged_db authors pubs edges contribs stats suggestions audits].
  split; [|split; [by apply merge_pubs_key|split; [intros a i; by apply merge_pubs_exact|split; [done|split; [done|split; [|split; [|split; [|split]]]]]]]].
  - pose proof (update_author identity w (merged_author w l) (authors d) Hids Hw eq_refl) as Hi. clear - Hi.
    revert Hi. generalize (update_where (fun a => au_id a =? au_id w) (fun _ => merged_author w l) (authors d)). intros l0. revert l0.
    induction (authors d) as [|a as_ IH]; intros [|b bs] H; try done. cbn in H. injection H as H1 H2 H3 H. cbn. rewrite H1.
    destruct (negb _); [cbn; rewrite (IH bs H); unfold identity; congruence|by apply IH].
  - apply List.Forall_forall. intros x [_ Hx]%filter_In. by apply negb_true_iff, Z.eqb_neq in Hx.
  - apply List.Forall_forall. intros x Hx. apply in_update_where in Hx as (y & (z & <- & _)%in_map_iff & [[_ ->]|[_ ->]]); cbn;
      unfold repoint; split; case_match; congruence || (by apply Z.eqb_neq).
  - unfold update_where. rewrite !map_map. apply map_ext. intros x. cbn. by destruct (sg_id x =? sid).
  - rewrite length_app. cbn. lia.
  - intros p Hp Hpw. apply marks_dirty. left. unfold ss. apply list_elem_of_In, first_seen_in, list_elem_of_In, in_map, filter_In.
    split; [exact Hp|]. by apply Z.eqb_eq.
Qed.
End confirm.

(** * Examples *)
(** Works of Ana Ruiz with John Smith, and of J. Smith with Eva Sanz. *)
Definition ex_authors_db : CoDb Z :=
  ex_run [Enriched true 1 (ex_work 10 (Some 7) "w1"); Enriched true 2 (ex_work 12 (Some 7) "w4")] ex_db.
Definition ex_queue_db : CoDb Z := ex_run [GenerateSuggestions 200] ex_authors_db.
Lemma ex_directory : directory ex_authors_db.
Proof.
  split; [by apply (bool_decide_unpack _); vm_compute| |by apply (bool_decide_unpack _); vm_compute|by apply (bool_decide_unpack _); vm_compute|by apply (bool_decide_unpack _); vm_compute].
  apply (bool_decide_unpack _). vm_compute. exact I.
Qed.

Lemma suggestions_exact_witness :
  map (fun a => (au_id a, au_key a)) (authors ex_authors_db) = [(1, "ruiz_ana"); (2, "smith_john"); (3, "smith_j"); (4, "sanz_eva")] /\
  exists st d' new, generate_merge_suggestions ex_loads 200 (clean ex_authors_db) = (Ok st, clean d') /\ suggestions d' = [] ++ new /\ map sg_pair new = [(2, 3)].
Proof.
  split; [vm_compute; reflexivity|].
  destruct (suggestions_exact ex_loads 200 ex_authors_db ex_directory) as (st & d' & new & E & Hs & _ & _ & _ & _ & _ & _ & _).
  exists st, d', new. split; [exact E|]. split; [exact Hs|].
  assert (Hd : map sg_pair (suggestions d') = [(2, 3)]).
  { change d' with (sess_base (snd (@Ok ScanStats st, clean d'))). rewrite <- E. vm_compute. reflexivity. }
  rewrite Hs in Hd. exact Hd.
Defined.

Lemma confirm_merges_exactly_witness :
  exists s w l d', suggestions ex_queue_db = [s] /\ author_by_id 2 (authors ex_queue_db) = Some w /\ author_by_id 3 (authors ex_queue_db) = Some l /\
    confirm_merge_suggestion 1 9 ex_admin (clean ex_queue_db) = (Ok (2, 3), clean d') /\ contribs d' = List.filter (fun c => negb (touches 3 (cc_a c, cc_b c))) (contribs ex_queue_db).
Proof.
  set (s := mkSug 1 2 3 "last+initial match across name forms" (JObj []) "pending" None None).
  set (w := mkAuthor 2 "smith_john" "Smith, John" ["Smith, John"] None 1). set (l := mkAuthor 3 "smith_j" "J. Smith" ["J. Smith"] None 2).
  assert (Hn : au_id w <> au_id l) by discriminate.
  assert (Hd : directory ex_queue_db) by exact ex_directory.
  assert (Hr : In (role ex_admin) REVIEWERS) by (right; by left).
  assert (Eq : suggestions ex_queue_db = [s]) by (vm_compute; reflexivity).
  assert (Ew : nth_error (authors ex_queue_db) 1 = Some w) by (vm_compute; reflexivity).
  assert (El : nth_error (authors ex_queue_db) 2 = Some l) by (vm_compute; reflexivity).
  assert (Hs : In s (suggestions ex_queue_db)) by (rewrite Eq; by left).
  assert (Hp : NoDup (map pub_key (pubs ex_queue_db))) by (apply (bool_decide_unpack _); vm_compute; exact I).
  assert (Hg : NoDup (map sg_id (suggestions ex_queue_db))) by (apply (bool_decide_unpack _); vm_compute; exact I).
  pose proof (confirm_merges_exactly 1 9 ex_admin s w l ex_queue_db Hd Hp Hg Hr Hs eq_refl eq_refl (nth_error_In _ _ Ew) (nth_error_In _ _ El)
    eq_refl eq_refl Hn) as H. cbv zeta in H. cbn [or_text au_orcid l andb] in H.
  destruct H as (d' & E & _ & _ & _ & _ & Hc & _). exists s, w, l, d'.
  split; [exact Eq|]. split; [vm_compute; reflexivity|]. split; [vm_compute; reflexivity|]. split; [exact E|exact Hc].
Defined.

(** * Where the graph parts from what it says *)
(** Two spellings of one author in a work with a third author: both are new
    publications of the same author, the flush fails and the work gets no
    publication and no edge at all. *)
Lemma name_collision_aborts_write :
  fst (write_coauthor_artifacts (F := Z) ex_loads true false 1 (ex_work 13 (Some 7) "w3") (clean ex_db))
    = Raise (IntegrityError "author_publications.author_id, author_publications.entity_id") /\
  let d := ex_run [Enriched true 1 (ex_work 13 (Some 7) "w3")] ex_db in
  map au_key (authors d) = ["smith_john"; "ruiz_ana"] /\ pubs d = [] /\ edges d = [].
Proof. vm_compute. auto. Qed.
(** A work that changes its organisation leaves its weight on the edges of the
    old scope: the recompute builds statistics from edges and never rebuilds
    edges, so the old tenant keeps the pair and its authors. *)
Lemma reassignment_keeps_old_weight :
  let d := ex_run [Enriched true 1 (ex_work 10 (Some 7) "w1"); Enriched true 2 (ex_work 10 (Some 8) "w1"); RecomputeTick 100] ex_db in
  map (fun e => (ce_org e, ce_weight e, works_of (ce_key e) (contribs d))) (edges d) = [(7, 1, 0); (8, 1, 1)] /\
  map (fun s => (st_author s, (st_scope s).1, st_pubs s)) (stats d) = [(1, 7, 0); (2, 7, 0); (1, 8, 1); (2, 8, 1)] /\ dirty d = [].
Proof. vm_compute. auto. Qed.
(** A merge deletes the edges of the second author; the recompute that it asks
    for does not bring them back on the first, although both authors keep the
    common work. *)
Lemma merge_loses_coauthors :
  let d := ex_run [Confirm 1 9 ex_admin; RecomputeTick 100] ex_queue_db in
  map (fun p => (pb_author p, pb_entity p)) (pubs d) = [(1, 10); (2, 10); (2, 12); (4, 12)] /\ map edge_row (edges d) = [(1, 2, 1)] /\ dirty d = [].
Proof. vm_compute. auto. Qed.
(** A merge is undone by the next enrichment of a work of the second author:
    authors are looked up by key, not by alias, so the key comes back as a new
    author. *)
Lemma enrichment_resurrects_merged_author :
  let d := ex_run [Confirm 1 9 ex_admin; Enriched true 50 (ex_work 12 (Some 7) "w4")] ex_queue_db in
  map (fun a => (au_id a, au_key a)) (authors d) = [(1, "ruiz_ana"); (2, "smith_john"); (4, "sanz_eva"); (5, "smith_j")] /\
  match author_by_id 2 (authors d) with Some a => au_aliases a = ["Smith, John"; "J. Smith"] | None => False end.
Proof. vm_compute. auto. Qed.
(** The first author takes over the second's ORCID before the second's row is
    deleted: the unique column refuses it. *)
Lemma merge_with_orcid_fails :
  let d := with_authors (update_where (fun a => au_id a =? 3) (fun a => mkAuthor (au_id a) (au_key a) (au_name a) (au_aliases a) (Some "0000-1") (au_seen a))) ex_queue_db in
  fst (confirm_merge_suggestion 1 9 ex_admin (clean d)) = Raise (IntegrityError "authors.orcid").
Proof. vm_compute. auto. Qed.
(** A work that is written while its scope is recomputed: the recompute deletes
    the marker of the write, and the statistics stay without it. *)
Lemma recompute_drops_concurrent_marker :
  let d := ex_run [Enriched true 1 (ex_work 10 (Some 7) "w1")] ex_db in
  let s := snd (recompute_coauthor_stats (fun _ => []) (fun g => [graph_nodes g]) (fun g => map (fun n => (n, 1)) (graph_nodes g)) (fun _ => []) 0
                  (fun d => ex_run [Enriched true 40 (ex_work 11 (Some 7) "w2")] d) 50 (7, "science") (clean d)) in
  map edge_row (edges (sess_base s)) = [(1, 2, 2); (2, 3, 1); (1, 3, 1)] /\ map (fun x => st_author x) (stats (sess_base s)) = [1; 2] /\ dirty (sess_base s) = [].
Proof. vm_compute. auto. Qed.
