(* ===== verification/Enrichment.v ===== *)
(** * Enrichment (src/backend/enrichment_worker.py)

    The cascade over external sources with their circuit breakers, what a match
    writes on the entity, failures, the queue (claim, requeue, reset at startup)
    and the worker's loop. An entity is its id, its organisation and its other
    columns as JSON values. Sources, scrapers, the journal lookups, the country
    extractor, the epistemic scores and the JSON functions of attributes are
    parameters, and so is what the database answers to a write ([Database]): a
    refused commit makes the enrichment of a record raise, with nothing kept. *)
From S2P Require Import Prelude PyStr PyJson PyValue TenantAccess DomainScope Entities CircuitBreaker UnionFind Coauthor.
From Stdlib Require Import Ascii String.

Local Open Scope string_scope.
Local Open Scope list_scope.
Local Open Scope Z_scope.
Local Open Scope py_scope.

(** * Rows *)
Record Row := mkRow { row_id : Z; row_org : option Z; row_cols : list (string * json) }.
Definition col (k : string) (r : Row) : json := get_key k (row_cols r).
Definition set (k : string) (v : json) (r : Row) : Row := mkRow (row_id r) (row_org r) (dict_set k v (row_cols r)).
Definition text (k : string) (r : Row) : option string := match col k r with JStr s => Some s | _ => None end.
Definition opt_str (o : option string) : json := match o with Some s => JStr s | None => JNull end.

(** ** Statuses (schemas.py) *)
Definition NONE : string := "none".
Definition PENDING : string := "pending".
Definition PROCESSING : string := "processing".
Definition COMPLETED : string := "completed".
Definition FAILED : string := "failed".
Definition status (r : Row) : json := col "enrichment_status" r.
Definition has_status (s : string) (r : Row) : bool := bool_decide (status r = JStr s).
Definition set_status (s : string) : Row -> Row := set "enrichment_status" (JStr s).

(** * Providers *)
Definition DEFAULT_CASCADE : list string := ["scopus"; "wos"; "openalex"; "crossref"; "pubmed"; "semantic_scholar"; "dblp"; "scholar"].
Definition provider_config (name : string) : Config :=
  if bool_decide (name = "semantic_scholar") then mkConfig name 3 90
  else if bool_decide (name = "scholar") then mkConfig name 5 120
  else mkConfig name 3 60.
Definition parse_cascade (env : option string) : list string :=
  let raw := strip (match env with Some s => s | None => "" end) in
  if negb (truthy raw) then DEFAULT_CASCADE
  else
    let names := List.filter truthy (map strip (split_on "," raw)) in
    let valid := List.filter (fun n => bool_decide (n ∈ DEFAULT_CASCADE)) names in
    match valid with [] => DEFAULT_CASCADE | _ => valid end.

(** ** What a source returns (schemas_enrichment.py) *)
Record Journal := mkJournal { jo_issn_l : option string; jo_source_id : option string; jo_name : option string; jo_in_doaj : bool }.
Record EnrichedRecord := mkEnriched {
  ed_doi : option string; ed_authors : list string; ed_orcids : list (option string); ed_citations : Z; ed_concepts : list string;
  ed_concept_ids : list (option string); ed_affiliations : list string; ed_canonical_affiliations : list json;
  ed_author_affiliations : list json; ed_funding : option (list string); ed_references : option Z; ed_tldr : option string;
  ed_influential : option Z; ed_license : option string; ed_mesh : option (list string); ed_venue : option string;
  ed_journal : option Journal; ed_work_type : option string }.

(** * Failures *)
Definition message_ref (key : string) (params : list (string * json)) : json :=
  JObj [("type", JStr "i18n_ref"); ("key", JStr key); ("params", JObj params)].
Definition RECOMMENDATION : string := "validation.enrichment_failure.recommendation.".
Definition EVIDENCE : string := "validation.enrichment_failure.evidence.".
Definition recommendations (code : string) : list json :=
  let refs c n := map (fun i => message_ref (RECOMMENDATION ++ c ++ "." ++ str_of_Z i) []) (map Z.of_nat (seq 0 n)) in
  if bool_decide (code = "missing_title") then refs code 2%nat
  else if bool_decide (code = "no_provider_match") then refs code 3%nat
  else if bool_decide (code = "data_error") then refs code 2%nat
  else refs "unexpected_error" 2%nat.

Definition non_empty {A} (l : list A) : bool := match l with [] => false | _ => true end.
Definition any_text (l : list (option string)) : bool := existsb or_text l.
Definition jarr (l : list string) : json := JArr (map JStr l).
Definition some_list (o : option (list string)) : list string := match o with Some l => l | None => [] end.
Definition jint (o : option Z) : json := match o with Some z => JInt z | None => JNull end.
Definition is_some {A} (o : option A) : bool := match o with Some _ => true | None => false end.

(** The attributes a match may set: condition, key, value, in the order of the
    code. *)
Definition journal_name (e : EnrichedRecord) : option string :=
  let n := match ed_journal e with Some j => jo_name j | None => None end in
  if or_text n then n else ed_venue e.
Definition match_attributes (e : EnrichedRecord) : list (bool * string * json) :=
  [(non_empty (ed_authors e), "enrichment_authors", jarr (ed_authors e));
   (non_empty (ed_authors e) && any_text (ed_orcids e), "enrichment_author_orcids", JArr (map opt_str (ed_orcids e)));
   (any_text (ed_concept_ids e), "enrichment_concept_ids", JArr (map opt_str (ed_concept_ids e)));
   (non_empty (ed_affiliations e), "affiliation", JStr (join "; " (ed_affiliations e)));
   (non_empty (ed_affiliations e), "affiliations", jarr (ed_affiliations e));
   (non_empty (ed_canonical_affiliations e), "canonical_affiliations", JArr (ed_canonical_affiliations e));
   (non_empty (ed_author_affiliations e), "author_affiliations", JArr (ed_author_affiliations e));
   (non_empty (some_list (ed_funding e)), "funding", jarr (some_list (ed_funding e)));
   (or_text (ed_tldr e), "tldr", opt_str (ed_tldr e));
   (non_empty (some_list (ed_mesh e)), "mesh_terms", jarr (some_list (ed_mesh e)));
   (is_some (ed_influential e), "influential_citation_count", jint (ed_influential e));
   (is_some (ed_references e), "references_count", jint (ed_references e));
   (or_text (ed_license e), "license", opt_str (ed_license e));
   (or_text (ed_venue e), "venue", opt_str (ed_venue e));
   (match journal_name e with Some n => truthy (strip n) | None => false end, "journal",
    JStr (match journal_name e with Some n => strip n | None => "" end))].

Definition item_assignment (v : json) : exn := Exn "TypeError" ("'" ++ type_name v ++ "' object does not support item assignment").
Definition put (c : bool) (k : string) (v attrs : json) : res json :=
  if c then match attrs with JObj m => Ok (JObj (dict_set k v m)) | _ => Raise (item_assignment attrs) end else Ok attrs.
Fixpoint put_all (l : list (bool * string * json)) (attrs : json) : res json :=
  match l with
  | [] => Ok attrs
  | (c, k, v) :: l => let? attrs := put c k v attrs in put_all l attrs
  end.

(** The exceptions of the first handler, with the subclasses the standard
    library raises. *)
Definition is_data_error (e : exn) : bool :=
  bool_decide (exn_name e ∈ ["ValueError"; "KeyError"; "AttributeError"; "JSONDecodeError"; "UnicodeError"; "UnicodeDecodeError"; "UnicodeEncodeError"]).
Definition exn_str (e : exn) : string := match e with Exn _ m => m | HTTPException _ m => m end.

(** The synchronisation after the commit, a list of best-effort steps each with its
    own error handler. *)
Inductive AfterStep :=
  | InvalidateAnalytics (domain : string) | InvalidateDerivedStatus (domain : string) | WriteCoauthors | EmitLifecycle
  | FireEnrichedTrigger | IndexForRag | MaterializeImportGraph (batch : json) | EnqueuePublicationAuthority | KeywordSignals (domain : string).
Definition domain_or_default (r : Row) : string := match text "domain" r with Some s => if truthy s then s else "default" | None => "default" end.
Definition after_enrichment_commit (r : Row) : list AfterStep :=
  let d := domain_or_default r in
  [InvalidateAnalytics d; InvalidateDerivedStatus d; WriteCoauthors; EmitLifecycle] ++
  (if has_status COMPLETED r
   then [FireEnrichedTrigger; IndexForRag] ++ (if py_true (col "import_batch_id" r) then [MaterializeImportGraph (col "import_batch_id" r)] else [])
        ++ [EnqueuePublicationAuthority; KeywordSignals d]
   else []).

Record Scraper := mkScraper { sc_id : Z; sc_org : option Z; sc_active : bool; sc_name : string }.
(** A row of [entity_relationships] of type CO_AUTHOR. *)
Record CoRel := mkCoRel { cr_entity : Z; cr_org : option Z; cr_notes : string }.

(** * The database
    [refuses]: what it raises for a record and the coauthor rows, when it does not
    take them; [refuses_metric]: the same for a row of journal_metrics;
    [int_of_text]: the integer it reads in a text bound for an integer column. *)
Record Database := mkDatabase {
  refuses : Row -> list CoRel -> option exn; refuses_metric : Journal -> option Z -> json -> option exn; int_of_text : string -> option Z }.

(** * One record *)
(** [moved]: the texts assigned to the id and the organisation, which are written
    at the commit; [broken]: a flush failed, and the session takes nothing more
    until it is rolled back. *)
Record Work := mkWork { row : Row; rels : list CoRel; moved : list (string * string); broken : bool }.
Definition start (r : Row) (l : list CoRel) : Work := mkWork r l [] false.
Definition on_row (f : Row -> Row) (w : Work) : Work := mkWork (f (row w)) (rels w) (moved w) (broken w).
Definition with_rels (f : list CoRel -> list CoRel) (w : Work) : Work := mkWork (row w) (f (rels w)) (moved w) (broken w).
Definition break_session (w : Work) : Work := mkWork (row w) (rels w) (moved w) true.
Definition IDENTITY : list string := ["id"; "org_id"].
Definition set_col (k : string) (v : json) : M Work unit := mmodify (on_row (set k v)).
Record Ext (X : Type) := mkExt { breakers : list (string * Breaker); net : X }.
Arguments mkExt {X}. Arguments breakers {X}. Arguments net {X}.
Definition breaker_of {X} (name : string) (x : Ext X) : Breaker :=
  match dict_get name (breakers x) with Some b => b | None => new_breaker end.

(** ** Legacy coauthor rows (analyzers/coauthorship.py) *)
Definition str_min (a b : string) : string := if str_le a b then a else b.
Definition str_max (a b : string) : string := if str_le a b then b else a.
Definition coauthor_pairs (names : list string) : list (string * string) :=
  let clean := first_seen (List.filter truthy (map strip names)) in
  if (List.length clean <? 2)%nat then []
  else
    let pairs := if (MAX_AUTHORS_FOR_COAUTH <? List.length clean)%nat
                 then match clean with first :: rest => map (fun a => (first, a)) rest | [] => [] end
                 else combinations2 clean in
    map (fun ab => (str_min ab.1 ab.2, str_max ab.1 ab.2)) (List.filter (fun ab => negb (bool_decide (ab.1 = ab.2))) pairs).
Definition extract_coauthor_edges (entity : Z) (names : list string) (org : option Z) (l : list CoRel) : list CoRel :=
  match coauthor_pairs names with
  | [] => l
  | pairs =>
      let notes := join (String newline EmptyString) (map (fun ab => (ab.1 ++ "||" ++ ab.2)%string) pairs) in
      let same r := (cr_entity r =? entity) && bool_decide (cr_org r = org) in
      if existsb same l then update_where same (fun r => mkCoRel (cr_entity r) (cr_org r) notes) l
      else l ++ [mkCoRel entity org notes]
  end.

Section worker.
Context {X : Type} (loads : string -> option json) (dumps : bool -> json -> string)
  (present is_active : string -> bool) (search_by_title : string -> string -> X -> res (list EnrichedRecord) * X)
  (fetch_source_metrics : string -> res (option Journal)) (fetch_apc : string -> res json)
  (database : Database)
  (extract_country : string -> option string) (profile : Row -> option json)
  (setattr : string -> option (res bool)) (scrape : Scraper -> string -> res (list (string * string))).

(** ** What reaches the database *)
Definition DataError (k s : string) : exn := Exn "DataError" ("invalid input syntax for type integer: " ++ k ++ " " ++ s).
Definition move (r : Row) (kv : string * string) : res Row :=
  match int_of_text database kv.2 with
  | None => Raise (DataError kv.1 kv.2)
  | Some n => Ok (if bool_decide (kv.1 = "id") then mkRow n (row_org r) (row_cols r) else mkRow (row_id r) (Some n) (row_cols r))
  end.
Fixpoint moves (r : Row) (l : list (string * string)) : res Row :=
  match l with [] => Ok r | kv :: l => let? r := move r kv in moves r l end.
Definition written (w : Work) : res Row :=
  let? r := moves (row w) (moved w) in match refuses database r (rels w) with Some e => Raise e | None => Ok r end.
Definition PendingRollbackError : exn :=
  Exn "PendingRollbackError" "This Session's transaction has been rolled back due to a previous exception during flush.".
(** [db.commit()] at the end of a record. *)
Definition commit_work (w : Work) : res Work :=
  if broken w then Raise PendingRollbackError else let? r := written w in Ok (start r (rels w)).

(** ** Attributes and failures *)
Definition attributes_text (r : Row) : string := match text "attributes_json" r with Some s => if truthy s then s else "{}" | None => "{}" end.
Definition attrs_of (r : Row) : list (string * json) := match loads (attributes_text r) with Some (JObj m) => m | _ => [] end.
Definition set_attrs (m : list (string * json)) : Row -> Row := set "attributes_json" (JStr (dumps false (JObj m))).
Definition clear_enrichment_failure (r : Row) : Row :=
  match dict_get "enrichment_failure" (attrs_of r) with
  | None | Some JNull => r
  | Some _ => set_attrs (dict_pop "enrichment_failure" (attrs_of r)) r
  end.
Definition set_enrichment_failed (failed_at : string) (code : string) (evidence : json) (attempts : list string)
    (exception_type failure_reason : option string) (r : Row) : Row :=
  let failure := JObj
    [("code", JStr code); ("evidence", evidence); ("recommendations", JArr (recommendations code));
     ("provider_attempts", jarr attempts); ("exception_type", opt_str exception_type);
     ("record_snapshot", JObj [("primary_label", col "primary_label" r); ("canonical_id", col "canonical_id" r);
                               ("enrichment_doi", col "enrichment_doi" r); ("domain", col "domain" r)]);
     ("failed_at", JStr failed_at)] in
  let r := set_status FAILED (set_attrs (dict_set "enrichment_failure" failure (attrs_of r)) r) in
  match failure_reason with Some f => set "enrichment_failure_reason" (JStr f) r | None => r end.

(** ** The cascade *)
Inductive Found := Match (e : EnrichedRecord) (source : string) | NoMatch | Broke (x : exn).
Record CascadeRun := mkCascade { ca_found : Found; ca_attempts : list string; ca_opens : nat; ca_ext : Ext X }.
Definition usable (name : string) : bool := present name && is_active name.
(** [clock]: the readings of a provider's call, at its start and at a failure. *)
Fixpoint cascade (clock : string -> Z * Z * Z) (title : string) (names attempts : list string) (opens : nat) (x : Ext X) : CascadeRun :=
  match names with
  | [] => mkCascade NoMatch attempts opens x
  | name :: names =>
      if negb (usable name) then cascade clock title names attempts opens x
      else
        let attempts := attempts ++ [name] in
        let '(t, wall, t_fail) := clock name in
        let '(r, b, n) := call (provider_config name) (search_by_title name title) t wall t_fail (breaker_of name x) (net x) in
        let x := mkExt (dict_set name b (breakers x)) n in
        match r with
        | Ok (e :: _) => mkCascade (Match e name) attempts opens x
        | Ok [] => cascade clock title names attempts opens x
        | Raise e =>
            if bool_decide (exn_name e = "CircuitOpenError") then cascade clock title names attempts (S opens) x
            else mkCascade (Broke e) attempts opens x
        end
  end.

(** ** What a match writes *)
(** [upsert_journal_metric] (services/journal_metrics_service.py): the flush
    writes the record and the row of the journal, whose columns nothing else here
    reads. *)
Definition upsert_journal_metric (j : Journal) (org : option Z) (apc : json) : M Work unit :=
  if negb (or_text (jo_issn_l j)) then mret tt
  else
    do! w <- mget;
    match written w, refuses_metric database j org apc with
    | Ok _, None => mret tt
    | Raise e, _ | _, Some e => run! mmodify break_session; mraise e
    end.
Definition journal_issn (org : option Z) (e : EnrichedRecord) : M Work (option string) :=
  match ed_journal e with
  | Some j =>
      match jo_source_id j with
      | Some sid =>
          if negb (truthy sid) then mret None
          else
            do! fetched <- mlift (fetch_source_metrics sid);
            let full := match fetched with Some f => f | None => j end in
            let issn := if or_text (jo_issn_l full) then jo_issn_l full else jo_issn_l j in
            match issn with
            | Some i =>
                if negb (truthy i) then mret None
                else
                  let apc := if jo_in_doaj full then match fetch_apc i with Ok a => a | Raise _ => JNull end else JNull in
                  run! upsert_journal_metric (mkJournal issn (jo_source_id full) (jo_name full) (jo_in_doaj full)) org apc;
                  mret (Some i)
            | None => mret None
            end
      | None => mret None
      end
  | None => mret None
  end.
Definition journal_step (e : EnrichedRecord) (attrs : json) : M Work json :=
  do! w <- mget;
  mtry (do! issn <- journal_issn (row_org (row w)) e;
        match issn with
        | Some i =>
            do! attrs <- mlift (put true "issn_l" (JStr i) attrs);
            run! set_col "enrichment_issn_l" (JStr i);
            mret attrs
        | None => mret attrs
        end)
       (fun _ => mret attrs).

Definition first_true (l : list json) : option json := List.find py_true l.
Definition extract_and_cache_country : M Work unit :=
  do! w <- mget;
  match loads (attributes_text (row w)) with
  | None => mret tt
  | Some v =>
      let attrs := py_or v (JObj []) in
      do! cached <- mlift (get_or "extracted_country" JNull attrs);
      if py_true cached then mret tt
      else match attrs with
           | JObj m =>
               match first_true [get_key "affiliation" m; get_key "affiliations" m; get_key "institution" m] with
               | None => mret tt
               | Some v =>
                   match extract_country (py_str v) with
                   | Some code => if truthy code then set_col "attributes_json" (JStr (dumps true (JObj (dict_set "extracted_country" (JStr code) m)))) else mret tt
                   | None => mret tt
                   end
               end
           | _ => mret tt
           end
  end.
Definition persist_coauthor_edges : M Work unit :=
  do! w <- mget;
  do! names <- mlift (authors_from_attrs loads (text "attributes_json" (row w)));
  if (List.length names <? 2)%nat then mret tt
  else mmodify (fun w => with_rels (extract_coauthor_edges (row_id (row w)) names (row_org (row w))) w).

(** [classify_entity] (analyzers/epistemic_classifier.py) under the handler of
    [_try_epistemic_classify]; [profile]: the scores, if the domain asks for them. *)
Definition classify (r : Row) : Row :=
  match profile r with
  | None => r
  | Some p =>
      match loads (attributes_text r) with
      | None => set_attrs [("epistemic_profile", p)] r
      | Some v => match py_or v (JObj []) with JObj m => set_attrs (dict_set "epistemic_profile" p m) r | _ => r end
      end
  end.

Definition apply_match (e : EnrichedRecord) (source : string) : M Work unit :=
  run! set_col "enrichment_doi" (opt_str (ed_doi e));
  run! set_col "enrichment_citation_count" (JInt (ed_citations e));
  run! set_col "enrichment_work_type" (opt_str (ed_work_type e));
  run! set_col "enrichment_concepts" (if non_empty (ed_concepts e) then JStr (join ", " (ed_concepts e)) else JNull);
  run! set_col "enrichment_source" (JStr source);
  run! mmodify (on_row (set_status COMPLETED));
  run! mmodify (on_row clear_enrichment_failure);
  do! w <- mget;
  do! attrs <- mlift (match text "attributes_json" (row w) with
                      | Some s => if truthy s then match loads s with Some v => Ok v | None => Raise (Exn "JSONDecodeError" "") end else Ok (JObj [])
                      | None => Ok (JObj []) end);
  do! attrs <- mlift (put_all (match_attributes e) attrs);
  do! attrs <- journal_step e attrs;
  run! set_col "attributes_json" (JStr (dumps false attrs));
  run! extract_and_cache_country;
  run! persist_coauthor_edges;
  mmodify (on_row classify).

(** ** Web scrapers *)
(** [if hasattr(...): setattr(...)] for each scraped field, whatever attribute of
    the entity it names: [setattr k] is [None] when there is none, [Ok true] for a
    column, [Ok false] for another attribute, the exception it raises otherwise. *)
Fixpoint assign_fields (fields : list (string * string)) : M Work unit :=
  match fields with
  | [] => mret tt
  | (k, v) :: fields =>
      match setattr k with
      | Some (Raise e) => mraise e
      | Some (Ok true) =>
          run! (if bool_decide (k ∈ IDENTITY) then mmodify (fun w => mkWork (row w) (rels w) (moved w ++ [(k, v)]) (broken w))
                else set_col k (JStr v));
          assign_fields fields
      | _ => assign_fields fields
      end
  end.
Definition scraper_breaker (c : Scraper) : Config := mkConfig ("web_scraper_" ++ str_of_Z (sc_id c)) 3 60.
Fixpoint try_scrapers (t : Z) (label : string) (configs : list Scraper) : M Work bool :=
  match configs with
  | [] => mret false
  | c :: configs =>
      let '(r, _, _) := call (scraper_breaker c) (fun u : unit => (scrape c label, u)) t t t new_breaker tt in
      match r with
      | Ok [] => try_scrapers t label configs
      | Ok fields =>
          run! assign_fields fields;
          run! set_col "enrichment_source" (JStr (sc_name c));
          run! mmodify (on_row (set_status COMPLETED));
          mret true
      | Raise e =>
          if bool_decide (exn_name e ∈ ["CircuitOpenError"; "ScrapeError"]) then try_scrapers t label configs else mraise e
      end
  end.
Definition scraper_configs (org : option Z) (configs : list Scraper) : list Scraper :=
  List.filter sc_active (scoped sc_org (Some (match org with Some o => o | None => LEGACY_GLOBAL_ORG_ID end)) configs).
Definition enrich_with_web_scrapers (t : Z) (configs : list Scraper) : M Work bool :=
  do! w <- mget;
  match text "primary_label" (row w) with
  | Some label => if truthy label then try_scrapers t label (scraper_configs (row_org (row w)) configs) else mret false
  | None => mret false
  end.

(** ** The record *)
Record Clock := mkClock { of_provider : string -> Z * Z * Z; of_scraper : Z; iso_now : string }.
Definition fail_with (k : Clock) (code : string) (params : list (string * json)) (attempts : list string) (exc reason : option string) : M Work unit :=
  mmodify (on_row (set_enrichment_failed (iso_now k) code (message_ref (EVIDENCE ++ code) params) attempts exc reason)).
Definition conclude (k : Clock) (names : list string) (configs : list Scraper) (title : string) (c : CascadeRun) : M Work unit :=
  mtry
    (match ca_found c with
     | Match e source => apply_match e source
     | Broke x => mraise x
     | NoMatch =>
         do! scraped <- enrich_with_web_scrapers (of_scraper k) configs;
         if scraped then mret tt
         else
           run! set_col "enrichment_source" (JStr "None");
           let active := List.filter usable names in
           let reason := if non_empty active && (List.length active <=? ca_opens c)%nat then "circuit_open" else "no_match" in
           fail_with k "no_provider_match" [("query", JStr title)] (ca_attempts c) None (Some reason)
     end)
    (fun x =>
       if is_data_error x then fail_with k "data_error" [("error", JStr (exn_str x))] (ca_attempts c) (Some (exn_name x)) (Some "api_error")
       else fail_with k "unexpected_error" [("error_type", JStr (exn_name x)); ("error", JStr (exn_str x))] (ca_attempts c)
              (Some (exn_name x)) (Some "all_sources_failed")).
(** The record as committed and the steps after the commit, or what the commit
    raised. *)
Definition enrich_single_record (k : Clock) (names : list string) (configs : list Scraper) (x : Ext X) (w : Work)
    : Ext X * res (Work * list AfterStep) :=
  let title := match text "primary_label" (row w) with Some s => s | None => "" end in
  if negb (truthy title) then
    let w' := on_row (set_enrichment_failed (iso_now k) "missing_title" (message_ref (EVIDENCE ++ "missing_title") []) [] None None) w in
    (x, let? w' := commit_work w' in Ok (w', after_enrichment_commit (row w')))
  else
    let c := cascade (of_provider k) title names [] 0 x in
    let w' := sess_db (snd (conclude k names configs title c (clean w))) in
    (ca_ext c,
     let? w' := commit_work w' in
     Ok (w', if negb (bool_decide (status (row w) = status (row w'))) || has_status COMPLETED (row w') then after_enrichment_commit (row w') else [])).
End worker.
