(* ===== verification/EnrichmentQueue.v ===== *)
(** * The enrichment queue and its scheduler
      (src/backend/enrichment_worker.py, services/enrichment_scheduler.py,
      services/entity_query.py, routers/enrichment_schedule.py, routers/entities.py)

    The operations on the status column of the entities: the claim, the worker's
    tick with the edge that announces a finished batch, the requests that queue
    records, the reset at startup, the scheduler per domain. Percentages are
    floats: [F] with the operations the code uses is a parameter. *)
From S2P Require Import Prelude PyStr PyJson TenantAccess JobsApi DateTime JobMigration DomainScope Entities CircuitBreaker Coauthor Enrichment.
From Stdlib Require Import Ascii String.

Local Open Scope string_scope.
Local Open Scope list_scope.
Local Open Scope Z_scope.
Local Open Scope py_scope.

Record Policy (F : Type) := mkPolicy {
  po_domain : string; po_enabled : bool; po_min_pct : F; po_budget : Z; po_staleness : Z; po_updated : Z }.
Arguments mkPolicy {F}. Arguments po_domain {F}. Arguments po_enabled {F}. Arguments po_min_pct {F}. Arguments po_budget {F}.
Arguments po_staleness {F}. Arguments po_updated {F}.
Record SchedulerRun := mkRun { ru_id : Z; ru_domain : string; ru_triggered_by : string; ru_queued : Z; ru_at : Z }.
Record QDb (F : Type) := mkQ {
  rows : list Row; corels : list CoRel; scrapers : list Scraper; policies : list (Policy F); runs : list SchedulerRun; run_seq : Z }.
Arguments mkQ {F}. Arguments rows {F}. Arguments corels {F}. Arguments scrapers {F}. Arguments policies {F}. Arguments runs {F}. Arguments run_seq {F}.

Section queue.
Context {F X : Type} (loads : string -> option json) (dumps : bool -> json -> string)
  (present is_active : string -> bool) (search_by_title : string -> string -> X -> res (list EnrichedRecord) * X)
  (fetch_source_metrics : string -> res (option Journal)) (fetch_apc : string -> res json)
  (database : Database)
  (extract_country : string -> option string) (profile : Row -> option json)
  (setattr : string -> option (res bool)) (scrape : Scraper -> string -> res (list (string * string))).
Implicit Types d : QDb F.

Definition with_rows (f : list Row -> list Row) d : QDb F := mkQ (f (rows d)) (corels d) (scrapers d) (policies d) (runs d) (run_seq d).
Definition by_id (i : Z) (r : Row) : bool := row_id r =? i.

(** * The worker *)
Definition reset_stale_processing_records : M (QDb F) Z :=
  do! d <- mget;
  run! mmodify (with_rows (update_where (has_status PROCESSING) (set_status PENDING)));
  run! commit;
  mret (count_where (has_status PROCESSING) (rows d)).

(** The query, and the conditional update that takes its answer. *)
Definition candidate d : option Z := option_map row_id (List.find (has_status PENDING) (rows d)).
Definition takeable (i : Z) (r : Row) : bool := by_id i r && has_status PENDING r.
Definition claim_update (i : Z) : M (QDb F) (option Z) :=
  do! d <- mget;
  run! mmodify (with_rows (update_where (takeable i) (set_status PROCESSING)));
  run! commit;
  mret (if count_where (takeable i) (rows d) =? 0 then None else Some i).
(** [others]: what other sessions commit between the two. *)
Definition atomic_claim_next (others : QDb F -> QDb F) : M (QDb F) (option Z) :=
  do! d <- mget;
  match candidate d with
  | None => mret None
  | Some i => run! interfere others; claim_update i
  end.

(** The batch edge: the new count, and the count to announce. *)
Definition next_batch_state (entity_claimed : bool) (processed : Z) : Z * option Z :=
  if entity_claimed then (processed + 1, None) else if 0 <? processed then (0, Some processed) else (0, None).

Definition enriched (k : Clock) (names : list string) (x : Ext X) (r : Row) d : Ext X * res (Work * list AfterStep) :=
  enrich_single_record loads dumps present is_active search_by_title fetch_source_metrics fetch_apc database extract_country profile
    setattr scrape k names (scrapers d) x (start r (corels d)).
Definition stored (i : Z) (w : Work) d : QDb F :=
  mkQ (update_where (by_id i) (fun _ => row w) (rows d)) (rels w) (scrapers d) (policies d) (runs d) (run_seq d).
(** A refused commit raises, and the table is as before. *)
Definition enrich_row (k : Clock) (names : list string) (i : Z) (x : Ext X) d : Ext X * res (QDb F) :=
  match List.find (by_id i) (rows d) with
  | None => (x, Ok d)
  | Some r => let '(x, out) := enriched k names x r d in (x, let? w := out in Ok (stored i w.1 d))
  end.

Record WorkerState := mkWorker { wk_db : QDb F; wk_ext : Ext X; wk_processed : Z; wk_emitted : list Z }.
(** One turn of the loop; [emitted] are the counts of the [enrichment.completed]
    events. A record whose enrichment raises stays claimed and is not counted. *)
Definition worker_tick (k : Clock) (names : list string) (others : QDb F -> QDb F) (s : WorkerState) : WorkerState :=
  match atomic_claim_next others (clean (wk_db s)) with
  | (Ok (Some i), sess) =>
      match enrich_row k names i (wk_ext s) (sess_base sess) with
      | (x, Ok d) => mkWorker d x (next_batch_state true (wk_processed s)).1 (wk_emitted s)
      | (x, Raise _) => mkWorker (sess_base sess) x (wk_processed s) (wk_emitted s)
      end
  | (Ok None, sess) =>
      let '(n, emit) := next_batch_state false (wk_processed s) in
      mkWorker (sess_base sess) (wk_ext s) n (wk_emitted s ++ match emit with Some c => [c] | None => [] end)
  | (Raise _, sess) => mkWorker (sess_base sess) (wk_ext s) (wk_processed s) (wk_emitted s)
  end.

(** * Requests that queue records *)
Definition requeue (r : Row) : Row := clear_enrichment_failure loads dumps (set_status PENDING r).
Definition in_ids (ids : list Z) (r : Row) : bool := bool_decide (row_id r ∈ ids).
Definition requeueable (r : Row) : bool := has_status NONE r || has_status FAILED r.
Definition in_domain (f : option (option string -> bool)) (r : Row) : bool := match f with Some p => p (text "domain" r) | None => true end.
Definition trigger_enrichment_bulk (skip limit : Z) (org_id : option Z) (domain_id : option string) : M (QDb F) (list Z) :=
  do! d <- mget;
  do! f <- mlift (resolve_domain_filter (parse_scope domain_id));
  let entities := List.filter (fun r => requeueable r && in_domain f r) (scoped row_org org_id (rows d)) in
  let page := firstn (Z.to_nat limit) (skipn (Z.to_nat skip) (sort_by (fun a b => row_id a <=? row_id b) entities)) in
  let ids := map row_id page in
  run! mmodify (with_rows (update_where (in_ids ids) requeue));
  run! commit;
  mret ids.

Definition QUEUERS : list string := ["super_admin"; "admin"; "editor"].
Definition queue_scope (tenants : Tenants) (user : User) : res (option Z) :=
  let? user := require_role QUEUERS user in resolve_request_org_id tenants user true true.
(** Queued and skipped. *)
Definition enrich_bulk_by_ids (tenants : Tenants) (ids : list Z) (force : bool) (user : User) : M (QDb F) (Z * Z) :=
  do! org_id <- mlift (queue_scope tenants user);
  do! d <- mget;
  let entities := List.filter (in_ids ids) (scoped row_org org_id (rows d)) in
  let skip r := negb force && has_status COMPLETED r in
  let queued := List.filter (fun r => negb (skip r)) entities in
  run! mmodify (with_rows (update_where (in_ids (map row_id queued)) requeue));
  run! commit;
  mret (Z.of_nat (List.length queued), count_where skip entities).
Definition enrich_bulk_queue (tenants : Tenants) (skip limit : Z) (domain_id : option string) (user : User) : M (QDb F) (list Z) :=
  do! org_id <- mlift (queue_scope tenants user);
  trigger_enrichment_bulk skip limit org_id domain_id.
(** Total, pending, processing, completed, failed. *)
Definition enrich_progress (tenants : Tenants) (ids : list Z) (user : User) : M (QDb F) (Z * Z * Z * Z * Z) :=
  do! org_id <- mlift (resolve_request_org_id tenants user true true);
  do! d <- mget;
  let l := List.filter (in_ids ids) (scoped row_org org_id (rows d)) in
  let other r := negb (bool_decide (status r ∈ map JStr [NONE; PENDING; PROCESSING; COMPLETED; FAILED])) && negb (bool_decide (status r = JNull)) in
  mret (Z.of_nat (List.length ids), count_where (fun r => has_status PENDING r || other r) l, count_where (has_status PROCESSING) l,
        count_where (has_status COMPLETED) l, count_where (has_status FAILED) l).

(** * The scheduler *)
Context (fdiv fmul : F -> F -> F) (flt : F -> F -> bool) (of_Z : Z -> F) (default_min_pct : F).

(** [source <> 'graph_materializer'], which a NULL does not pass. *)
Definition not_derived (r : Row) : bool := match text "source" r with Some s => negb (bool_decide (s = "graph_materializer")) | None => false end.
(** [entity_base_q] *)
Definition entity_base (scope : string) (org_id : option Z) d : res (list Row) :=
  let? f := resolve_domain_filter (parse_scope (Some scope)) in
  let l := List.filter (fun r => not_derived r && in_domain f r) (rows d) in
  Ok (match org_id with Some _ => scoped row_org org_id l | None => l end).
Definition count_total (scope : string) (org_id : option Z) d : res Z :=
  let? l := entity_base scope org_id d in Ok (Z.of_nat (List.length l)).
Definition count_by_status (scope s : string) (org_id : option Z) d : res Z :=
  let? l := entity_base scope org_id d in Ok (count_where (has_status s) l).
Definition count_enriched (scope : string) (org_id : option Z) d : res Z := count_by_status scope COMPLETED org_id d.

Definition domain_text (domain : string) : string := ("domain:" ++ domain)%string.
Definition min_pct (p : option (Policy F)) : F := match p with Some p => po_min_pct p | None => default_min_pct end.
Definition DEFAULT_MAX_BUDGET_PER_RUN : Z := 100.
Definition budget (p : option (Policy F)) : Z := match p with Some p => po_budget p | None => DEFAULT_MAX_BUDGET_PER_RUN end.
Record Staleness := mkStaleness { sr_total : Z; sr_enriched : Z; sr_stale : Z; sr_pct : F; sr_is_stale : bool }.
Definition eligible (domain : string) d : res (list Row) :=
  let? f := resolve_domain_filter (parse_scope (Some (domain_text domain))) in
  Ok (List.filter (fun r => not_derived r && requeueable r && in_domain f r) (rows d)).
Definition check_domain (domain : string) (p : option (Policy F)) d : res Staleness :=
  let scope := domain_text domain in
  let? total := count_total scope None d in
  let? done := count_enriched scope None d in
  if total =? 0 then Ok (mkStaleness 0 0 0 (of_Z 0) false)
  else
    let pct := fmul (fdiv (of_Z done) (of_Z total)) (of_Z 100) in
    let? stale := eligible domain d in
    Ok (mkStaleness total done (Z.of_nat (List.length stale)) pct (flt pct (min_pct p))).

(** What is queued, and the durable jobs that are enqueued for it: the entities
    and organisations handed to [enqueue_occurrence]. *)
Definition requeue_domain (mode : string) (others : QDb F -> QDb F) (domain : string) (p : option (Policy F))
    : M (QDb F) (Z * list (Z * option Z)) :=
  do! d <- mget;
  do! l <- mlift (eligible domain d);
  let l := firstn (Z.to_nat (budget p)) l in
  let ids := map row_id l in
  match ids with
  | [] => mret (0, [])
  | _ =>
      let jobs := if should_enqueue mode then map (fun r => (row_id r, row_org r)) l else [] in
      let n := Z.of_nat (List.length ids) in
      if negb (should_run_inprocess mode) then mret (n, jobs)
      else
        run! interfere others;
        do! d <- mget;
        let q r := in_ids ids r && requeueable r in
        run! mmodify (with_rows (update_where q (set_status PENDING)));
        run! commit;
        let rowcount := count_where q (rows d) in
        mret (if rowcount =? 0 then n else rowcount, jobs)
  end.
Definition record_run (domain triggered_by : string) (queued now : Z) : M (QDb F) SchedulerRun :=
  do! d <- mget;
  let r := mkRun (run_seq d + 1) domain triggered_by queued now in
  run! mmodify (fun d => mkQ (rows d) (corels d) (scrapers d) (policies d) (runs d ++ [r]) (run_seq d + 1));
  run! commit;
  mret r.

(** Domains checked, stale domains, records queued. *)
Fixpoint run_policies (mode : string) (now : Z) (ps : list (Policy F)) (acc : Z * Z * Z) : M (QDb F) (Z * Z * Z) :=
  match ps with
  | [] => mret acc
  | p :: ps =>
      do! acc <- mtry
        (do! d <- mget;
         do! report <- mlift (check_domain (po_domain p) (Some p) d);
         let '(checked, stale, total) := acc in
         if (sr_total report =? 0) || negb (sr_is_stale report) then mret (checked + 1, stale, total)
         else
           do! queued <- requeue_domain mode (fun d => d) (po_domain p) (Some p);
           do! _ <- record_run (po_domain p) "scheduler" queued.1 now;
           mret (checked + 1, stale + 1, total + queued.1))
        (fun _ => mret acc);
      run_policies mode now ps acc
  end.
Definition run_once (mode : string) (now : Z) : M (QDb F) (Z * Z * Z) :=
  do! d <- mget;
  run_policies mode now (List.filter po_enabled (policies d)) (0, 0, 0).

(** ** The endpoints *)
Definition SCHEDULE_ADMINS : list string := ["super_admin"; "admin"].
Definition policy_of (domain : string) d : option (Policy F) := List.find (fun p => bool_decide (po_domain p = domain)) (policies d).
Definition unknown_domain (domain : string) : exn := HTTPException 404 ("Domain '" ++ domain ++ "' not found").
(** [known]: the domains of the schema registry. *)
Definition trigger_domain (known : list string) (mode domain : string) (now : Z) (user : User) : M (QDb F) (Z * SchedulerRun) :=
  do! _ <- mlift (require_role SCHEDULE_ADMINS user);
  if negb (bool_decide (domain ∈ known)) then mraise (unknown_domain domain)
  else
    do! d <- mget;
    do! queued <- requeue_domain mode (fun d => d) domain (policy_of domain d);
    do! r <- record_run domain "manual" queued.1 now;
    mret (queued.1, r).
Record PolicyUpdate := mkPolicyUpdate { pu_enabled : option bool; pu_min_pct : option F; pu_budget : option Z; pu_staleness : option Z }.
Definition or_dflt {A} (o : option A) (dflt : A) : A := match o with Some a => a | None => dflt end.
(** Bounds of the payload. *)
Definition valid_policy_update (u : PolicyUpdate) : bool :=
  let within lo hi o := match o with Some n => (lo <=? n) && (n <=? hi) | None => true end in
  match pu_min_pct u with Some f => negb (flt f (of_Z 0)) && negb (flt (of_Z 100) f) | None => true end
  && within 1 10000 (pu_budget u) && within 1 3650 (pu_staleness u).
Definition upsert_policy (domain : string) (u : PolicyUpdate) (now : Z) (user : User) : M (QDb F) (Policy F) :=
  do! _ <- mlift (require_role SCHEDULE_ADMINS user);
  if negb (valid_policy_update u) then mraise (HTTPException 422 "Unprocessable Entity")
  else
    do! d <- mget;
    match policy_of domain d with
    | None =>
        let p := mkPolicy domain (or_dflt (pu_enabled u) true) (or_dflt (pu_min_pct u) default_min_pct) (or_dflt (pu_budget u) 100)
                   (or_dflt (pu_staleness u) 30) now in
        run! mmodify (fun d => mkQ (rows d) (corels d) (scrapers d) (policies d ++ [p]) (runs d) (run_seq d));
        run! commit;
        mret p
    | Some p0 =>
        let p := mkPolicy (po_domain p0) (or_dflt (pu_enabled u) (po_enabled p0)) (or_dflt (pu_min_pct u) (po_min_pct p0))
                   (or_dflt (pu_budget u) (po_budget p0)) (or_dflt (pu_staleness u) (po_staleness p0)) now in
        run! mmodify (fun d => mkQ (rows d) (corels d) (scrapers d)
                        (update_where (fun p => bool_decide (po_domain p = domain)) (fun _ => p) (policies d)) (runs d) (run_seq d));
        run! commit;
        mret p
    end.
End queue.
