(* ===== verification/EnrichmentClaims.v ===== *)
(** * What the enrichment of a record guarantees

    The cascade asks exactly the providers up to the first that answers, with
    the breakers in the way; every record ends completed or failed, unless the
    database refuses what is written, and a match keeps what it does not write.
    On concrete records: where the worker parts from what it says. *)
From stdpp Require Import sets.
From S2P Require Import Prelude PyStr PyJson PyValue TenantAccess DomainScope Entities CircuitBreaker UnionFind Coauthor Enrichment.
From Stdlib Require Import Ascii String DecimalString DecimalZ.

Local Open Scope string_scope.
Local Open Scope list_scope.
Local Open Scope Z_scope.
Local Open Scope py_scope.

(** * Prefixes *)
(** [l] up to and with its first element of [p]. *)
Fixpoint upto {A} (p : A -> bool) (l : list A) : list A :=
  match l with [] => [] | a :: l => if p a then [a] else a :: upto p l end.

Lemma in_upto {A} (p : A -> bool) l a : In a (upto p l) -> In a l.
Proof. induction l as [|b l IH]; simpl; [done|]. destruct (p b); intros [->|H]; simpl in *; tauto. Qed.

Lemma breaker_of_set {X} name b (x : Ext X) (n : X) other :
  breaker_of other (mkExt (dict_set name b (breakers x)) n) = if bool_decide (other = name) then b else breaker_of other x.
Proof.
  unfold Enrichment.breaker_of. cbn [breakers]. case_bool_decide as E; [subst; by rewrite dict_get_set_eq|by rewrite dict_get_set_ne].
Qed.

(** * The cascade *)
Section cascade.
Context {X : Type} (present is_active : string -> bool) (search_by_title : string -> string -> X -> res (list EnrichedRecord) * X)
  (clock : string -> Z * Z * Z) (title : string) (answer : string -> res (list EnrichedRecord)).
Local Notation usable := (usable present is_active).

(** A provider's breaker turns the call away. *)
Definition refused (x : Ext X) (name : string) : bool := rejects (provider_config name) (clock name).1.1 (breaker_of name x).
(** A provider ends the cascade: with a record, or with an exception. *)
Definition decisive (x : Ext X) (name : string) : bool :=
  negb (refused x name) && match answer name with Ok [] => false | _ => true end.
Definition found_by (name : string) : Found :=
  match answer name with Ok (e :: _) => Match e name | Ok [] => NoMatch | Raise e => Broke e end.
Definition breaker_after (x : Ext X) (name : string) : Breaker :=
  let '(t, wall, t_fail) := clock name in
  (call (provider_config name) (fun u : unit => (answer name, u)) t wall t_fail (breaker_of name x) tt).1.2.

Context (pure : forall name n, search_by_title name title n = (answer name, n))
  (no_forgery : forall name e, answer name = Raise e -> exn_name e <> "CircuitOpenError").

Lemma asked name x :
  let '(t, wall, t_fail) := clock name in
  call (provider_config name) (search_by_title name title) t wall t_fail (breaker_of name x) (net x) =
  ((if refused x name then Raise (CircuitOpenError (cb_name (provider_config name))) else answer name), breaker_after x name, net x).
Proof.
  unfold breaker_after, refused. destruct (clock name) as [[t wall] t_fail]. cbn [fst]. unfold call. rewrite enter_spec.
  destruct (rejects _ _ _); [done|]. rewrite pure. by destruct (answer name).
Qed.

(** The state after [name] is asked. *)
Definition after_asking (x0 x : Ext X) (name : string) : Ext X := mkExt (dict_set name (breaker_after x0 name) (breakers x)) (net x).
Lemma breaker_after_asking x0 x name go n :
  (if bool_decide (n ∈ go) then breaker_after x0 n else breaker_of n (after_asking x0 x name)) =
  (if bool_decide (n ∈ name :: go) then breaker_after x0 n else breaker_of n x).
Proof.
  unfold after_asking. rewrite breaker_of_set. destruct (decide (n = name)) as [->|Hne].
  - rewrite (bool_decide_true (name = name)), (bool_decide_true (name ∈ name :: go)) by set_solver. by case_bool_decide.
  - rewrite (bool_decide_false (n = name)) by done. case_bool_decide; case_bool_decide; set_solver.
Qed.
Lemma cascade_step x0 x name names attempts opens :
  usable name = true -> breaker_of name x = breaker_of name x0 ->
  cascade present is_active search_by_title clock title (name :: names) attempts opens x =
  if decisive x0 name then mkCascade (found_by name) (attempts ++ [name]) opens (after_asking x0 x name)
  else cascade present is_active search_by_title clock title names (attempts ++ [name])
         (if refused x0 name then S opens else opens) (after_asking x0 x name).
Proof.
  intros Hu Hb. cbn [cascade]. rewrite Hu. cbn [negb]. pose proof (asked name x) as Hc.
  assert (Hr : refused x name = refused x0 name) by (unfold refused; by rewrite Hb).
  assert (Ha : breaker_after x name = breaker_after x0 name) by (unfold breaker_after; by rewrite Hb).
  rewrite Hr, Ha in Hc. unfold decisive, found_by, after_asking. pose proof (no_forgery name) as Hf.
  destruct (clock name) as [[t wall] t_fail]. rewrite Hc.
  destruct (refused x0 name); cbn [negb andb exn_name CircuitOpenError]; [by rewrite bool_decide_true|].
  destruct (answer name) as [[|e l]|e]; [done|done|]. by rewrite bool_decide_false by by apply Hf.
Qed.
Lemma cascade_run x0 names : forall attempts opens x,
  NoDup names -> (forall n, In n names -> breaker_of n x = breaker_of n x0) ->
  let c := cascade present is_active search_by_title clock title names attempts opens x in
  let go := upto (decisive x0) (List.filter usable names) in
  ca_found c = match List.find (decisive x0) (List.filter usable names) with Some n => found_by n | None => NoMatch end /\
  ca_attempts c = attempts ++ go /\
  ca_opens c = (opens + List.length (List.filter (refused x0) go))%nat /\
  net (ca_ext c) = net x /\
  forall n, breaker_of n (ca_ext c) = if bool_decide (n ∈ go) then breaker_after x0 n else breaker_of n x.
Proof.
  induction names as [|name names IH]; intros attempts opens x Hnd Hx; cbv zeta.
  { cbn. split; [done|]. split; [by rewrite app_nil_r|]. split; [lia|]. split; [done|]. intros n. by rewrite bool_decide_false by set_solver. }
  apply NoDup_cons in Hnd as [Hn Hnd]. rewrite list_elem_of_In in Hn. cbn [List.filter].
  destruct (usable name) eqn:Hu.
  2:{ cbn [cascade]. rewrite Hu. apply IH; [done|]. intros; apply Hx; by right. }
  rewrite (cascade_step x0) by first [done|apply Hx; by left]. cbn [upto List.find].
  destruct (decisive x0 name) eqn:Hd.
  - cbn [ca_found ca_attempts ca_opens ca_ext]. repeat split.
    + cbn [List.filter]. unfold decisive in Hd. destruct (refused x0 name); [done|]. cbn. lia.
    + intros n. rewrite <- breaker_after_asking. by rewrite bool_decide_false by set_solver.
  - destruct (IH (attempts ++ [name]) (if refused x0 name then S opens else opens) (after_asking x0 x name) Hnd) as (H1 & H2 & H3 & H4 & H5).
    { intros n Hi. unfold after_asking. rewrite breaker_of_set, bool_decide_false; [apply Hx; by right|]. by intros ->. }
    repeat split; [exact H1| |  |exact H4|].
    + rewrite H2, <- app_assoc. done.
    + rewrite H3. cbn [List.filter]. destruct (refused x0 name); cbn; lia.
    + intros n. rewrite H5. apply breaker_after_asking.
Qed.

(** C17: The cascade asks the active providers in order up to the first that
    answers with a record or with an exception, and no further: that one decides
    the outcome, those before it answered with nothing or were turned away by
    their circuit breaker (and only these count as open), and only the breakers
    of those that were asked change, each as one call leaves it. *)
Theorem cascade_first_answer x names :
  NoDup names ->
  let c := cascade present is_active search_by_title clock title names [] 0 x in
  let go := upto (decisive x) (List.filter usable names) in
  ca_found c = match List.find (decisive x) (List.filter usable names) with Some n => found_by n | None => NoMatch end /\
  ca_attempts c = go /\
  ca_opens c = List.length (List.filter (refused x) go) /\
  net (ca_ext c) = net x /\
  forall n, breaker_of n (ca_ext c) = if bool_decide (n ∈ go) then breaker_after x n else breaker_of n x.
Proof. intros Hnd. apply (cascade_run x names [] 0 x Hnd). done. Qed.
End cascade.

(** * One record *)
Section record.
Context {X : Type} (loads : string -> option json) (dumps : bool -> json -> string)
  (present is_active : string -> bool) (search_by_title : string -> string -> X -> res (list EnrichedRecord) * X)
  (fetch_source_metrics : string -> res (option Journal)) (fetch_apc : string -> res json)
  (database : Database)
  (extract_country : string -> option string) (profile : Row -> option json)
  (setattr : string -> option (res bool)) (scrape : Scraper -> string -> res (list (string * string))).
Local Notation usable := (usable present is_active).
Local Notation cascade := (cascade present is_active search_by_title).
Local Notation attrs_of := (attrs_of loads).
Local Notation set_failed := (set_enrichment_failed loads dumps).
Local Notation apply_match := (apply_match loads dumps fetch_source_metrics fetch_apc database extract_country profile).
Local Notation conclude := (conclude loads dumps present is_active fetch_source_metrics fetch_apc database extract_country profile setattr scrape).
Local Notation enrich_single_record := (enrich_single_record loads dumps present is_active search_by_title fetch_source_metrics fetch_apc
  database extract_country profile setattr scrape).

(** ** Columns *)
Lemma col_set k k' v r : col k (set k' v r) = if bool_decide (k = k') then v else col k r.
Proof.
  unfold col, set, get_key. cbn [row_cols]. case_bool_decide as E; [subst; by rewrite dict_get_set_eq|by rewrite dict_get_set_ne].
Qed.
Lemma col_set_ne k k' v r : k <> k' -> col k (set k' v r) = col k r.
Proof. intros E. by rewrite col_set, bool_decide_false. Qed.
Lemma col_set_eq k v r : col k (set k v r) = v.
Proof. by rewrite col_set, bool_decide_true. Qed.

(** ** What a computation on a record may change *)
Definition others_of (w : Work) : list CoRel := List.filter (fun c => negb (cr_entity c =? row_id (row w))) (rels w).
Record same_work (w w' : Work) : Prop := {
  sw_id : row_id (row w') = row_id (row w);
  sw_org : row_org (row w') = row_org (row w);
  sw_rels : others_of w' = others_of w }.
#[local] Instance same_work_preorder : PreOrder same_work.
Proof.
  split; [by intros w|]. intros a b c [H1 H2 H3] [H4 H5 H6]. constructor; congruence.
Qed.

(** [runs R c]: every outcome of [c] is related to where it started. *)
Definition runs {A} (R : Work -> Work -> Prop) (c : M Work A) : Prop := forall s, R (sess_db s) (sess_db (snd (c s))).
Lemma runs_bind {A B} (R : Work -> Work -> Prop) `{!PreOrder R} (c : M Work A) (k : A -> M Work B) :
  runs R c -> (forall a, runs R (k a)) -> runs R (mbind c k).
Proof.
  intros Hc Hk s. unfold mbind. specialize (Hc s). destruct (c s) as [[a|e] s']; [|done]. etransitivity; [exact Hc|apply Hk].
Qed.
Lemma runs_try {A} (R : Work -> Work -> Prop) `{!PreOrder R} (c : M Work A) (h : exn -> M Work A) :
  runs R c -> (forall e, runs R (h e)) -> runs R (mtry c h).
Proof.
  intros Hc Hh s. unfold mtry. specialize (Hc s). destruct (c s) as [[a|e] s']; [done|]. etransitivity; [exact Hc|apply Hh].
Qed.
Lemma runs_mono {A} (R R' : Work -> Work -> Prop) (c : M Work A) : (forall w w', R w w' -> R' w w') -> runs R c -> runs R' c.
Proof. intros H Hc s. apply H, Hc. Qed.
Lemma runs_modify (R : Work -> Work -> Prop) f : (forall w, R w (f w)) -> runs R (mmodify f).
Proof. intros H s. apply H. Qed.
Lemma runs_idle {A} (R : Work -> Work -> Prop) `{!PreOrder R} (c : M Work A) : (forall s, snd (c s) = s) -> runs R c.
Proof. intros H s. by rewrite H. Qed.
Ltac walk :=
  repeat match goal with
  | |- runs _ (mbind _ _) => apply runs_bind; [typeclasses eauto| |intros ?]
  | |- runs _ (mtry _ _) => apply runs_try; [typeclasses eauto| |intros ?]
  | |- runs _ (match ?x with _ => _ end) => destruct x
  | |- runs _ (mmodify _) => apply runs_modify; intros ?
  | |- runs _ (mret _) => apply runs_idle; [typeclasses eauto|done]
  | |- runs _ (mraise _) => apply runs_idle; [typeclasses eauto|done]
  | |- runs _ (mlift _) => apply runs_idle; [typeclasses eauto|done]
  | |- runs _ mget => apply runs_idle; [typeclasses eauto|done]
  end.

(** ** Identity *)
Lemma same_break w : same_work w (break_session w).
Proof. done. Qed.
Lemma same_on_row f w : (forall r, row_id (f r) = row_id r /\ row_org (f r) = row_org r) -> same_work w (on_row f w).
Proof. intros H. destruct (H (row w)) as [H1 H2]. constructor; [done|done|]. unfold others_of, on_row. cbn. by rewrite H1. Qed.
Lemma same_set k v w : same_work w (on_row (set k v) w).
Proof. by apply same_on_row. Qed.
Lemma clear_ids r : row_id (clear_enrichment_failure loads dumps r) = row_id r /\ row_org (clear_enrichment_failure loads dumps r) = row_org r.
Proof. unfold clear_enrichment_failure. by repeat case_match. Qed.
Lemma failed_ids at_ code ev att ex reason r :
  row_id (set_failed at_ code ev att ex reason r) = row_id r /\ row_org (set_failed at_ code ev att ex reason r) = row_org r.
Proof. unfold set_enrichment_failed. by destruct reason. Qed.
Lemma classify_ids r : row_id (classify loads dumps profile r) = row_id r /\ row_org (classify loads dumps profile r) = row_org r.
Proof. unfold classify. by repeat case_match. Qed.
Lemma same_rels w names :
  same_work w (with_rels (extract_coauthor_edges (row_id (row w)) names (row_org (row w))) w).
Proof.
  constructor; [done|done|]. unfold others_of, extract_coauthor_edges. cbn. destruct (coauthor_pairs names) as [|p ps]; [done|].
  destruct (existsb _ _).
  - unfold update_where. induction (rels w) as [|c l IH]; [done|]. cbn. destruct (Z.eqb_spec (cr_entity c) (row_id (row w))) as [E|E]; cbn.
    + case_bool_decide; cbn; rewrite ?E, Z.eqb_refl; apply IH.
    + rewrite (proj2 (Z.eqb_neq _ _) E). cbn. by rewrite IH.
  - rewrite List.filter_app. cbn. rewrite Z.eqb_refl. cbn. by rewrite app_nil_r.
Qed.
#[local] Hint Resolve same_set same_rels same_break clear_ids failed_ids classify_ids : record.
Lemma same_apply e source : runs same_work (apply_match e source).
Proof.
  unfold Enrichment.apply_match, journal_step, journal_issn, upsert_journal_metric, extract_and_cache_country, persist_coauthor_edges, set_col, set_status. cbv zeta. walk;
    eauto using same_on_row with record.
Qed.

(** ** The session *)
(** The session breaks only when the database refuses a flush; the id and the
    organisation are left to the scrapers. *)
Definition flush_refused : Prop :=
  (exists w e, written database w = Raise e) \/ exists j o apc e, refuses_metric database j o apc = Some e.
Definition steady (w w' : Work) : Prop := moved w' = moved w /\ (broken w' = true -> broken w = true \/ flush_refused).
#[local] Instance steady_preorder : PreOrder steady.
Proof. split; [by intros w; split; [|left]|]. intros a b c [H1 H2] [H3 H4]. split; [congruence|]. intros H. destruct (H4 H) as [?|?]; [by apply H2|by right]. Qed.
Lemma steady_on_row f w : steady w (on_row f w).
Proof. by split; [|left]. Qed.
Lemma steady_upsert j o apc : runs steady (upsert_journal_metric database j o apc).
Proof.
  intros s. unfold upsert_journal_metric. destruct (negb _); [reflexivity|]. rewrite run_get.
  destruct (written _ _) as [r|e] eqn:E; [destruct (refuses_metric _ _ _ _) as [e|] eqn:E'; [|reflexivity]|]; cbn;
    (split; [done|]); intros _; right; [right|left]; eauto.
Qed.
Lemma steady_apply e source : runs steady (apply_match e source).
Proof.
  unfold Enrichment.apply_match, journal_step, journal_issn, extract_and_cache_country, persist_coauthor_edges, set_col. cbv zeta. walk;
    first [apply steady_on_row|apply steady_upsert|by split; [|left]].
Qed.

(** ** Scrapers *)
(** What the assignments of a scraper's fields leave alone. *)
Definition assigned (w w' : Work) : Prop :=
  row_id (row w') = row_id (row w) /\ row_org (row w') = row_org (row w) /\ rels w' = rels w /\ broken w' = broken w.
#[local] Instance assigned_preorder : PreOrder assigned.
Proof. split; [by intros w|]. intros a b c (? & ? & ? & ?) (? & ? & ? & ?). unfold assigned. split_and!; congruence. Qed.
Lemma assign_fields_run fields : runs assigned (assign_fields setattr fields).
Proof. induction fields as [|[k v] fields IH]; cbn [assign_fields]; unfold set_col; walk; first [exact IH|done]. Qed.
Lemma assign_fields_moved fields : Forall (fun kv : string * string => kv.1 ∉ IDENTITY) fields ->
  runs (fun w w' => moved w' = moved w) (assign_fields setattr fields).
Proof.
  induction 1 as [|[k v] fields Hk _ IH]; cbn [assign_fields]; [done|]. cbn in Hk. rewrite (bool_decide_eq_false_2 _ Hk). unfold set_col.
  assert (PreOrder (fun w w' : Work => moved w' = moved w)) by (split; [done|by intros a b c -> ->]). walk; first [exact IH|done].
Qed.
(** No scraper's configuration names the id or the organisation. *)
Definition identity_kept : Prop := forall c label fields, scrape c label = Ok fields -> Forall (fun kv : string * string => kv.1 ∉ IDENTITY) fields.
(** What the scrapers leave: [b] when one answered. *)
Definition scraped (configs : list Scraper) (b : bool) (w w' : Work) : Prop :=
  assigned w w' /\ (identity_kept -> moved w' = moved w) /\
  if b then has_status COMPLETED (row w') = true /\ exists c, In c configs /\ col "enrichment_source" (row w') = JStr (sc_name c) else w' = w.
(** One of the scrapers answered with fields. *)
Definition scraper_answered (configs : list Scraper) : Prop := exists c label fields, In c configs /\ scrape c label = Ok fields /\ fields <> [].
Definition scraper_run (configs : list Scraper) (s : Session Work) (out : res bool * Session Work) : Prop :=
  (out.2 = s \/ scraper_answered configs) /\
  match out with
  | (Ok b, s') => scraped configs b (sess_db s) (sess_db s')
  | (Raise _, s') => assigned (sess_db s) (sess_db s') /\ (identity_kept -> moved (sess_db s') = moved (sess_db s))
  end.
(** The outcome of the scrapers, with the state they leave: an answer, none with
    nothing changed, or an exception, maybe amid the assignments. *)
Lemma scrapers_run t label configs s : scraper_run configs s (try_scrapers setattr scrape t label configs s).
Proof.
  induction configs as [|c configs IH]; [by split; [left|]|]. cbn [try_scrapers].
  assert (Hmore : scraper_run (c :: configs) s (try_scrapers setattr scrape t label configs s)).
  { destruct IH as [Hs IH]. split; [destruct Hs as [?|(c' & l & f & ? & ?)]; [by left|right; exists c', l, f; split; [by right|done]]|].
    destruct (try_scrapers _ _ t label configs s) as [[b|e] s']; [|exact IH]. destruct IH as (H1 & H2 & H3). split; [done|]. split; [done|].
    destruct b; [|done]. destruct H3 as (H3 & c' & Hc & H4). split; [done|]. exists c'. split; [by right|done]. }
  unfold call. rewrite enter_spec. replace (rejects _ _ _) with false by done.
  destruct (scrape c label) as [fields|e] eqn:Es; [|destruct (bool_decide _); [done|by split; [left|]]]. destruct fields as [|f fields]; [done|].
  assert (Hans : scraper_answered (c :: configs)) by (exists c, label, (f :: fields); split; [by left|done]).
  assert (Hm : identity_kept -> moved (sess_db (snd (assign_fields setattr (f :: fields) s))) = moved (sess_db s)).
  { intros Hid. by apply (assign_fields_moved (f :: fields)), (Hid c label). }
  pose proof (assign_fields_run (f :: fields) s) as Ha. unfold mbind at 1.
  destruct (assign_fields _ (f :: fields) s) as [[u|e] s']; cbn [snd] in *; (split; [by right|]); [|done]. unfold set_col.
  split; [done|]. split; [done|]. split.
  - unfold has_status, status, set_status. apply bool_decide_eq_true. cbn. apply col_set_eq.
  - exists c. split; [by left|]. cbn. unfold set_status. rewrite col_set_ne by done. apply col_set_eq.
Qed.
Lemma scraping_run t configs s :
  scraper_run (scraper_configs (row_org (row (sess_db s))) configs) s (enrich_with_web_scrapers setattr scrape t configs s).
Proof.
  unfold enrich_with_web_scrapers. rewrite run_get. destruct (text _ _) as [label|]; [destruct (truthy label); [apply scrapers_run|]|]; by split; [left|].
Qed.

(** ** Columns that stay *)
Definition cols_kept (cs : list string) (w w' : Work) : Prop := forall k, k ∉ cs -> col k (row w') = col k (row w).
#[local] Instance cols_kept_preorder cs : PreOrder (cols_kept cs).
Proof. split; [by intros w|]. intros a b c H1 H2 k Hk. rewrite H2, H1 by done. done. Qed.
Lemma kept_on_row cs f w : (forall k r, k ∉ cs -> col k (f r) = col k r) -> cols_kept cs w (on_row f w).
Proof. intros H k Hk. by apply H. Qed.
Lemma kept_set (cs : list string) k v r k' : k ∈ cs -> k' ∉ cs -> col k' (set k v r) = col k' r.
Proof. intros H H'. apply col_set_ne. by intros ->. Qed.
Lemma kept_clear (cs : list string) k r : "attributes_json" ∈ cs -> k ∉ cs -> col k (clear_enrichment_failure loads dumps r) = col k r.
Proof. intros H Hk. unfold clear_enrichment_failure, set_attrs. repeat case_match; try done; by apply (kept_set cs). Qed.
Lemma kept_classify (cs : list string) k r : "attributes_json" ∈ cs -> k ∉ cs -> col k (classify loads dumps profile r) = col k r.
Proof. intros H Hk. unfold classify, set_attrs. repeat case_match; try done; by apply (kept_set cs). Qed.
Lemma kept_failed (cs : list string) at_ code ev att ex reason k r :
  "attributes_json" ∈ cs -> "enrichment_status" ∈ cs -> "enrichment_failure_reason" ∈ cs -> k ∉ cs ->
  col k (set_failed at_ code ev att ex reason r) = col k r.
Proof.
  intros H1 H2 H3 Hk. unfold set_enrichment_failed, set_attrs, set_status. destruct reason; rewrite ?(kept_set cs) by done; done.
Qed.
Lemma cols_kept_mono cs cs' w w' : cols_kept cs w w' -> (forall k, k ∈ cs -> k ∈ cs') -> cols_kept cs' w w'.
Proof. intros H Hs k Hk. apply H. intros Hi. by apply Hk, Hs. Qed.

(** What is written after the status: attributes and ISSN. *)
Definition TAIL : list string := ["attributes_json"; "enrichment_issn_l"].
Definition matched (e : EnrichedRecord) (source : string) (r : Row) : Row :=
  clear_enrichment_failure loads dumps
    (set_status COMPLETED (set "enrichment_source" (JStr source)
      (set "enrichment_concepts" (if non_empty (ed_concepts e) then JStr (join ", " (ed_concepts e)) else JNull)
        (set "enrichment_work_type" (opt_str (ed_work_type e))
          (set "enrichment_citation_count" (JInt (ed_citations e)) (set "enrichment_doi" (opt_str (ed_doi e)) r)))))).
Ltac column := by apply (bool_decide_unpack _).
Lemma apply_kept e source s : cols_kept TAIL (on_row (matched e source) (sess_db s)) (sess_db (snd (apply_match e source s))).
Proof.
  unfold Enrichment.apply_match, set_col at 1 2 3 4 5. rewrite !run_modify.
  match goal with |- cols_kept _ _ (sess_db (snd (?c ?s1))) => assert (H : runs (cols_kept TAIL) c); [|exact (H s1)] end.
  unfold journal_step, journal_issn, upsert_journal_metric, extract_and_cache_country, persist_coauthor_edges, set_col. cbv zeta. walk; try (apply kept_on_row; intros k r Hk);
    first [by apply (kept_set TAIL); [column|] | by apply (kept_classify TAIL); [column|] | done].
Qed.
Lemma matched_status e source r : has_status COMPLETED (matched e source r) = true /\ col "enrichment_source" (matched e source r) = JStr source.
Proof.
  unfold has_status, status, matched. split; [apply bool_decide_eq_true|]; rewrite (kept_clear ["attributes_json"]) by column; unfold set_status.
  - apply col_set_eq.
  - rewrite col_set_ne by done. apply col_set_eq.
Qed.
Lemma cascade_source clock title names : forall attempts opens x e source,
  ca_found (cascade clock title names attempts opens x) = Match e source -> In source names /\ usable source = true.
Proof.
  induction names as [|name names IH]; intros attempts opens x e source; cbn [Enrichment.cascade]; [done|].
  assert (Hr : forall a o x', ca_found (cascade clock title names a o x') = Match e source -> In source (name :: names) /\ usable source = true).
  { intros a o x' H. apply IH in H as [H1 H2]. split; [by right|done]. }
  destruct (usable name) eqn:Hu; cbn [negb]; [|apply Hr]. destruct (clock name) as [[t wall] t_fail].
  destruct (call _ _ _ _ _ _ _) as [[r b] n]. destruct r as [[|e' l]|ex]; [apply Hr| |].
  - intros [= -> ->]. split; [by left|done].
  - destruct (bool_decide _); [apply Hr|done].
Qed.

(** ** How a record ends *)
Definition FAILURE_CODES : list string := ["missing_title"; "no_provider_match"; "data_error"; "unexpected_error"].
Definition failure_recorded (r : Row) : Prop :=
  exists m failure code, col "attributes_json" r = JStr (dumps false (JObj m)) /\ dict_get "enrichment_failure" m = Some (JObj failure) /\
    dict_get "code" failure = Some (JStr code) /\ code ∈ FAILURE_CODES.
Definition answered (names : list string) (configs : list Scraper) (org : option Z) (r : Row) : Prop :=
  exists source, col "enrichment_source" r = JStr source /\
    ((In source names /\ usable source = true) \/ exists c, In c (scraper_configs org configs) /\ sc_name c = source).
Definition ended (names : list string) (configs : list Scraper) (org : option Z) (r : Row) : Prop :=
  (has_status COMPLETED r = true /\ answered names configs org r) \/ (has_status FAILED r = true /\ failure_recorded r).

Lemma failed_ended at_ code ev att ex reason names configs org r :
  code ∈ FAILURE_CODES -> ended names configs org (set_failed at_ code ev att ex reason r).
Proof.
  intros Hc. right. unfold set_enrichment_failed, set_attrs, set_status, has_status, status.
  set (f := JObj (("code", JStr code) :: _)). set (m := dict_set "enrichment_failure" f (attrs_of r)).
  assert (H : forall r', col "enrichment_status" r' = JStr FAILED -> col "attributes_json" r' = JStr (dumps false (JObj m)) ->
    bool_decide (col "enrichment_status" r' = JStr FAILED) = true /\ failure_recorded r').
  { intros r' H1 H2. split; [by apply bool_decide_eq_true|]. 
    assert (exists fl, f = JObj fl /\ dict_get "code" fl = Some (JStr code)) as (fl & Ef & Ecode) by (eexists; split; reflexivity).
    exists m, fl, code. split; [done|]. rewrite <- Ef. split; [apply dict_get_set_eq|by split]. }
  destruct reason; apply H; rewrite ?(col_set_ne _ "enrichment_failure_reason") by done; rewrite ?col_set_eq by done; try done;
    rewrite col_set_ne by done; apply col_set_eq.
Qed.
(** What a record's computation leaves in memory, before the commit. *)
Definition concluded (w w' : Work) : Prop :=
  same_work w w' /\ (identity_kept -> moved w' = moved w) /\ (broken w' = true -> broken w = true \/ flush_refused).
Lemma concluded_trans a b c : concluded a b -> concluded b c -> concluded a c.
Proof.
  intros (H1 & H2 & H3) (H4 & H5 & H6). split; [by etransitivity|]. split; [intros H; by rewrite H5, H2|].
  intros H. destruct (H6 H) as [?|?]; [by apply H3|by right].
Qed.
Lemma concluded_assigned w w' : assigned w w' -> (identity_kept -> moved w' = moved w) -> concluded w w'.
Proof.
  intros (H1 & H2 & H3 & H4) Hm. split; [constructor; [done|done|unfold others_of; by rewrite H1, H3]|]. split; [done|]. rewrite H4. by left.
Qed.
Lemma concluded_row f w : (forall r, row_id (f r) = row_id r /\ row_org (f r) = row_org r) -> concluded w (on_row f w).
Proof. intros H. split; [by apply same_on_row|]. split; [done|by left]. Qed.
Lemma conclude_ends k names configs title (c : CascadeRun (X := X)) w :
  (forall e source, ca_found c = Match e source -> In source names /\ usable source = true) ->
  let w' := sess_db (snd (conclude k names configs title c (clean w))) in
  concluded w w' /\ ended names configs (row_org (row w)) (row w').
Proof.
  intros Hc. unfold Enrichment.conclude.
  match goal with |- context [mtry ?c0 ?h0] => set (body := c0); set (handler := h0) end.
  assert (Hh : forall x s, concluded (sess_db s) (sess_db (snd (handler x s))) /\ forall org, ended names configs org (row (sess_db (snd (handler x s))))).
  { intros x s. unfold handler. destruct (is_data_error x); (split; [apply concluded_row; intros; apply failed_ids|]);
      intros org; apply failed_ended; by apply (bool_decide_unpack _). }
  assert (Hb : concluded w (sess_db (snd (body (clean w)))) /\ (is_ok (fst (body (clean w))) = true -> ended names configs (row_org (row w)) (row (sess_db (snd (body (clean w))))))).
  { unfold body. destruct (ca_found c) as [e source| |x] eqn:Hf.
    - pose proof (same_apply e source (clean w)) as H1. pose proof (steady_apply e source (clean w)) as [H2 H3].
      split; [by split; [|split]|]. intros _. left. pose proof (apply_kept e source (clean w)) as Hk.
      destruct (matched_status e source (row w)) as [Hst Hsrc].
      unfold has_status, status in *. rewrite Hk by column. split; [exact Hst|]. exists source. rewrite Hk by column. split; [exact Hsrc|]. left. by apply (Hc e source).
    - destruct (scraping_run (of_scraper k) configs (clean w)) as [_ Hs].
      destruct (enrich_with_web_scrapers setattr scrape (of_scraper k) configs (clean w)) as [[[]|x] s'] eqn:E.
      + rewrite (run_ok _ _ _ _ _ E). destruct Hs as (Ha & Hm & Hst & sc & Hin & Hsrc). split; [by apply concluded_assigned|]. intros _. left. split; [exact Hst|].
        exists (sc_name sc). split; [exact Hsrc|]. right. by exists sc.
      + rewrite (run_ok _ _ _ _ _ E). destruct Hs as (_ & _ & Hs). unfold set_col. rewrite run_modify. rewrite Hs. unfold fail_with. split.
        * eapply concluded_trans; apply concluded_row; [done|]. intros; apply failed_ids.
        * intros _. apply failed_ended. by apply (bool_decide_unpack _).
      + rewrite (run_fails _ _ _ _ _ E). split; [apply concluded_assigned; apply Hs|done].
    - split; [split; [reflexivity|split; [done|by left]]|done]. }
  cbv zeta. unfold mtry. destruct (body (clean w)) as [[u|x] s'] eqn:E; cbn in Hb |- *.
  - destruct Hb as [H1 H2]. split; [exact H1|by apply H2].
  - destruct Hb as [H1 _]. destruct (Hh x s') as [H2 H3]. split; [by eapply concluded_trans|apply H3].
Qed.

(** ** The commit *)
(** What the database refused: the write of the record, or an earlier flush. *)
Definition refusal (e : exn) : Prop := (exists w, written database w = Raise e) \/ e = PendingRollbackError /\ flush_refused.
Lemma moves_cols l : forall r r', moves database r l = Ok r' -> row_cols r' = row_cols r.
Proof.
  induction l as [|[k v] l IH]; intros r r'; cbn [moves]; [by intros [= ->]|]. unfold move at 1. cbn [fst snd].
  destruct (int_of_text database v) as [n|]; [|done]. cbn [res_bind]. intros H. apply IH in H as ->. by destruct (bool_decide _).
Qed.
Lemma commit_outcome w :
  match commit_work database w with
  | Ok w' => row_cols (row w') = row_cols (row w) /\ rels w' = rels w /\ (moved w = [] -> row w' = row w)
  | Raise e => (exists w, written database w = Raise e) \/ e = PendingRollbackError /\ broken w = true
  end.
Proof.
  unfold commit_work. destruct (broken w); [by right|]. destruct (written database w) as [r|e] eqn:E; [|left; by exists w].
  cbn [res_bind start row rels]. unfold written in E. destruct (moves _ _ _) as [r'|] eqn:Em; [|done]. cbn [res_bind] in E.
  destruct (refuses _ _ _); [done|]. injection E as ->. split; [by eapply moves_cols|]. split; [done|].
  intros Hm. rewrite Hm in Em. by injection Em.
Qed.
Lemma col_ext k r r' : row_cols r' = row_cols r -> col k r' = col k r.
Proof. unfold col. by intros ->. Qed.
Lemma ended_ext names configs org r r' : row_cols r' = row_cols r -> ended names configs org r -> ended names configs org r'.
Proof.
  intros E. unfold ended, has_status, status. rewrite !(col_ext _ _ _ E).
  intros [[H1 (source & H2)]|[H1 (m & f & c & H2)]]; [left|right]; (split; [done|]).
  - exists source. by rewrite (col_ext _ _ _ E).
  - exists m, f, c. by rewrite (col_ext _ _ _ E).
Qed.
(** The coauthor rows of other records. *)
Definition coauthors_of_others (r : Row) (l : list CoRel) : list CoRel := List.filter (fun c => negb (cr_entity c =? row_id r)) l.
Definition outcome (names : list string) (configs : list Scraper) (r : Row) (l : list CoRel) (out : res (Work * list AfterStep)) : Prop :=
  match out with
  | Ok (w', steps) =>
      ended names configs (row_org r) (row w') /\ coauthors_of_others r (rels w') = coauthors_of_others r l /\
      (identity_kept -> row_id (row w') = row_id r /\ row_org (row w') = row_org r) /\
      (has_status PROCESSING r = true -> steps = after_enrichment_commit (row w'))
  | Raise e => refusal e
  end.
Lemma committed_outcome names configs r l w (steps : Work -> list AfterStep) :
  concluded (start r l) w -> ended names configs (row_org r) (row w) ->
  (forall w', has_status PROCESSING r = true -> ended names configs (row_org r) (row w') -> steps w' = after_enrichment_commit (row w')) ->
  outcome names configs r l (let? w' := commit_work database w in Ok (w', steps w')).
Proof.
  intros ([H1 H2 H3] & Hm & Hb) He Hs. pose proof (commit_outcome w) as Hc. destruct (commit_work database w) as [w'|e]; cbn [res_bind outcome].
  - destruct Hc as (Hcols & Hrels & Hrow). assert (He' : ended names configs (row_org r) (row w')) by by apply (ended_ext _ _ _ (row w)).
    split; [done|]. split; [|split; [intros Hid; by rewrite Hrow by by apply Hm|by intros Hp; apply Hs]].
    rewrite Hrels. unfold coauthors_of_others. cbn in *. unfold others_of in H3. by rewrite H1 in H3.
  - destruct Hc as [Hc|[-> Hbr]]; [by left|]. right. split; [done|]. by destruct (Hb Hbr).
Qed.
Lemma enrich_outcome k names configs x r l : outcome names configs r l (enrich_single_record k names configs x (start r l)).2.
Proof.
  unfold Enrichment.enrich_single_record. destruct (negb _); cbn [snd].
  - apply committed_outcome; [apply concluded_row; intros; apply failed_ids|apply failed_ended; by apply (bool_decide_unpack _)|done].
  - set (title := match text _ _ with Some s => s | None => _ end). set (c := cascade _ _ _ _ _ _).
    destruct (conclude_ends k names configs title c (start r l) (cascade_source _ _ _ _ _ _)) as [H1 H2].
    apply (committed_outcome names configs r l _ (fun w' => if negb (bool_decide (status r = status (row w'))) || has_status COMPLETED (row w') then after_enrichment_commit (row w') else []));
      [exact H1|exact H2|].
    intros w' Hp He. unfold has_status in Hp. apply bool_decide_eq_true in Hp.
    case_bool_decide as E; [|done]. exfalso. change (status (row (start r l))) with (status r) in E.
    unfold ended, has_status in He. rewrite <- E, Hp in He. by destruct He as [[? _]|[? _]].
Qed.

(** C18: Enriching a record ends it, whatever its title, its attributes, the
    providers, the scrapers and the journal service do: completed, with the name
    of a provider of the cascade or of an active scraper of its tenant as source,
    or failed, with a failure record of a known code in its attributes. The
    coauthor rows of every other record stay, and so do its identity and its
    organisation as long as no scraper is set to write them; a record that was
    being processed is announced downstream. The one way out is the database
    refusing what is to be written (at the commit or at the flush of the journal's
    metrics): then the call raises. *)
Theorem enrichment_outcome k names configs x r l :
  match (enrich_single_record k names configs x (start r l)).2 with
  | Ok (w', steps) =>
      ended names configs (row_org r) (row w') /\ coauthors_of_others r (rels w') = coauthors_of_others r l /\
      (identity_kept -> row_id (row w') = row_id r /\ row_org (row w') = row_org r) /\
      (has_status PROCESSING r = true -> steps = after_enrichment_commit (row w'))
  | Raise e => refusal e
  end.
Proof. apply (enrich_outcome k names configs x r l). Qed.

(** ** What a record keeps *)
(** The columns and the attributes that belong to enrichment. *)
Definition WRITTEN : list string :=
  ["enrichment_doi"; "enrichment_citation_count"; "enrichment_work_type"; "enrichment_concepts"; "enrichment_source"; "enrichment_status";
   "enrichment_issn_l"; "enrichment_failure_reason"; "attributes_json"].
Definition OWN : list string :=
  ["enrichment_authors"; "enrichment_author_orcids"; "enrichment_concept_ids"; "affiliation"; "affiliations"; "canonical_affiliations";
   "author_affiliations"; "funding"; "tldr"; "mesh_terms"; "influential_citation_count"; "references_count"; "license"; "venue"; "journal";
   "issn_l"; "extracted_country"; "epistemic_profile"; "enrichment_failure"].
Definition obj (v : json) : list (string * json) := match v with JObj m => m | _ => [] end.
Definition wf_record (e : EnrichedRecord) : Prop := Forall wf_json (ed_canonical_affiliations e) /\ Forall wf_json (ed_author_affiliations e).
Definition plain (r : Row) : Prop := forall k, wf_json (col k r).
(** No attribute of somebody else is touched, and columns stay JSON values. *)
Definition keeps (w w' : Work) : Prop :=
  plain (row w) -> plain (row w') /\ cols_kept WRITTEN w w' /\
  forall k, k ∉ OWN -> dict_get k (attrs_of (row w')) = dict_get k (attrs_of (row w)).
#[local] Instance keeps_preorder : PreOrder keeps.
Proof.
  split; [by intros w H|]. intros a b c H1 H2 Ha. destruct (H1 Ha) as (Hb & H3 & H4). destruct (H2 Hb) as (Hc & H5 & H6).
  split; [done|]. split; [by etransitivity|]. intros k Hk. rewrite H6 by done. by apply H4.
Qed.

Section json_laws.
Context (Hround : forall b v, wf_json v -> loads (dumps b v) = Some v) (Htext : forall b v, truthy (dumps b v) = true)
  (Hwf : forall s v, loads s = Some v -> wf_json v) (Hempty : loads "{}" = Some (JObj []))
  (Hprofile : forall r p, profile r = Some p -> wf_json p)
  (Hsearch : forall name t n l, fst (search_by_title name t n) = Ok l -> Forall wf_record l).

Lemma wf_empty : wf_json (JObj []).
Proof. constructor; constructor. Qed.
Lemma wf_opt_str o : wf_json (opt_str o).
Proof. destruct o; constructor. Qed.
Lemma wf_jarr l : wf_json (jarr l).
Proof. apply wf_strings. Qed.
Lemma wf_opts l : wf_json (JArr (map opt_str l)).
Proof. constructor. apply Forall_forall. intros v (o & -> & _)%list_elem_of_fmap. apply wf_opt_str. Qed.
Lemma wf_jint o : wf_json (jint o).
Proof. destruct o; constructor. Qed.
#[local] Hint Resolve wf_empty wf_opt_str wf_jarr wf_opts wf_jint wf_dict_set wf_dict_pop : pyjson.

Lemma attrs_of_set k v r : k <> "attributes_json" -> attrs_of (set k v r) = attrs_of r.
Proof. intros Hk. unfold Enrichment.attrs_of, attributes_text, text. by rewrite col_set_ne. Qed.
Lemma attrs_of_written b v r : wf_json v -> attrs_of (set "attributes_json" (JStr (dumps b v)) r) = obj v.
Proof. intros Hv. unfold Enrichment.attrs_of, attributes_text, text. rewrite col_set_eq, Htext, Hround by done. done. Qed.
Lemma attrs_of_obj r v : loads (attributes_text r) = Some v -> attrs_of r = obj v.
Proof. unfold Enrichment.attrs_of. by intros ->. Qed.
Lemma wf_row_attrs r : wf_json (JObj (attrs_of r)).
Proof. unfold Enrichment.attrs_of. destruct (loads (attributes_text r)) as [v|] eqn:E; [|apply wf_empty]. apply Hwf in E. destruct v; first [exact E|apply wf_empty]. Qed.
Lemma plain_set k v r : wf_json v -> plain r -> plain (set k v r).
Proof. intros Hv H k'. rewrite col_set. by case_bool_decide. Qed.
Lemma keeps_set k v w : k ∈ WRITTEN -> k <> "attributes_json" -> wf_json v -> keeps w (on_row (set k v) w).
Proof.
  intros Hk Hne Hv Hp. split; [by apply plain_set|]. split; [apply kept_on_row; intros; by apply (kept_set WRITTEN)|].
  intros k' _. cbn. by rewrite attrs_of_set.
Qed.
Lemma keeps_write b v w : wf_json v -> (forall k, k ∉ OWN -> dict_get k (obj v) = dict_get k (attrs_of (row w))) ->
  keeps w (on_row (set "attributes_json" (JStr (dumps b v))) w).
Proof.
  intros Hv Hk Hp. split; [apply plain_set; [constructor|done]|]. split; [apply kept_on_row; intros; by apply (kept_set WRITTEN); [column|]|].
  intros k Hn. cbn. rewrite attrs_of_written by done. by apply Hk.
Qed.
Lemma get_set_own k k' (v : json) m : k' ∈ OWN -> k ∉ OWN -> dict_get k (dict_set k' v m) = dict_get k m.
Proof. intros H H'. apply dict_get_set_ne. by intros ->. Qed.

(** *** Each write *)
Lemma keeps_clear w : keeps w (on_row (clear_enrichment_failure loads dumps) w).
Proof.
  destruct w as [r l mv br]. unfold clear_enrichment_failure, on_row. cbn [row rels moved broken].
  destruct (dict_get _ _) as [v|]; [|reflexivity]. destruct v; try reflexivity;
    (apply (keeps_write false _ (mkWork r l mv br)); [apply wf_dict_pop, wf_row_attrs|]; intros k Hk; apply dict_get_pop_ne; intros ->; apply Hk; column).
Qed.
Lemma keeps_classify w : keeps w (on_row (classify loads dumps profile) w).
Proof.
  destruct w as [r l mv br]. unfold classify, on_row. cbn [row rels moved broken]. destruct (profile r) as [p|] eqn:Ep; [|reflexivity]. apply Hprofile in Ep.
  destruct (loads (attributes_text r)) as [v|] eqn:E.
  - pose proof (Hwf _ _ E) as Hv. assert (H : forall m, wf_json (JObj m) -> (forall k, dict_get k m = dict_get k (attrs_of r)) ->
      keeps (mkWork r l mv br) (mkWork (set_attrs dumps (dict_set "epistemic_profile" p m) r) l mv br)).
    { intros m Hm Hg. apply (keeps_write false _ (mkWork r l mv br)); [auto with pyjson|]. intros k Hk. rewrite <- Hg. apply get_set_own; [column|done]. }
    unfold py_or. destruct (py_true v) eqn:Et.
    + destruct v; try reflexivity. apply H; [done|]. by rewrite (attrs_of_obj _ _ E).
    + apply H; [auto with pyjson|]. intros k. rewrite (attrs_of_obj _ _ E). destruct v; try done. by destruct m.
  - apply (keeps_write false (JObj (dict_set "epistemic_profile" p [])) (mkWork r l mv br)); [apply wf_dict_set; [done|apply wf_empty]|].
    intros k Hk. cbn [obj row]. rewrite get_set_own by (done || column). unfold Enrichment.attrs_of. by rewrite E.
Qed.
Lemma wf_message_ref key params : wf_json (JObj params) -> wf_json (message_ref key params).
Proof. intros H. constructor; [column|]. repeat (apply Forall_cons; split; cbn [snd]); try apply Forall_nil; done || constructor. Qed.
Lemma wf_texts l : NoDup (dict_keys l) -> Forall (fun kv => exists t, kv.2 = JStr t) l -> wf_json (JObj l).
Proof. intros H1 H2. constructor; [done|]. eapply Forall_impl; [exact H2|]. intros kv (t & ->). constructor. Qed.
Ltac texts := apply wf_message_ref, wf_texts; [column|repeat (apply Forall_cons; split; [by eexists|]); by apply Forall_nil].
Lemma wf_recommendations code : wf_json (JArr (recommendations code)).
Proof.
  assert (H : forall c n, wf_json (JArr (map (fun i => message_ref (RECOMMENDATION ++ c ++ "." ++ str_of_Z i) []) (map Z.of_nat (seq 0 n))))).
  { intros c n. constructor. apply Forall_forall. intros v (i & -> & _)%list_elem_of_fmap. by repeat constructor; set_solver. }
  unfold recommendations. repeat case_bool_decide; apply H.
Qed.
Lemma keeps_failed at_ code ev att ex reason w : wf_json ev -> keeps w (on_row (set_failed at_ code ev att ex reason) w).
Proof.
  intros Hev Hp. set (f := JObj (("code", JStr code) :: ("evidence", ev) :: ("recommendations", JArr (recommendations code)) :: ("provider_attempts", jarr att) ::
    ("exception_type", opt_str ex) :: ("record_snapshot", JObj [("primary_label", col "primary_label" (row w)); ("canonical_id", col "canonical_id" (row w));
                               ("enrichment_doi", col "enrichment_doi" (row w)); ("domain", col "domain" (row w))]) :: [("failed_at", JStr at_)])).
  assert (Hf : wf_json f).
  { constructor; [column|]. repeat (apply Forall_cons; split; cbn [snd]); try apply Forall_nil; auto using wf_recommendations with pyjson; try constructor.
    - column.
    - repeat (apply Forall_cons; split; cbn [snd]); try apply Forall_nil; auto. }
  set (w1 := on_row (set "attributes_json" (JStr (dumps false (JObj (dict_set "enrichment_failure" f (attrs_of (row w))))))) w).
  assert (H1 : keeps w w1).
  { apply keeps_write; [apply wf_dict_set; [done|apply wf_row_attrs]|]. intros k Hk. apply get_set_own; [column|done]. }
  assert (H2 : keeps w1 (on_row (set_status FAILED) w1)) by (apply keeps_set; [column|done|constructor]).
  assert (H : keeps w (on_row (set_failed at_ code ev att ex reason) w)); [|by apply H].
  etransitivity; [exact H1|]. etransitivity; [exact H2|]. destruct reason as [t|]; [|reflexivity].
  apply (keeps_set "enrichment_failure_reason" (JStr t) (on_row (set_status FAILED) w1)); [column|done|constructor].
Qed.

(** *** The attributes of a match *)
Lemma match_attributes_own e : Forall (fun a => a.1.2 ∈ OWN) (match_attributes e).
Proof. unfold match_attributes. repeat (apply Forall_cons; split; [column|]). apply Forall_nil. done. Qed.
Lemma match_attributes_wf e : wf_record e -> Forall (fun a => wf_json a.2) (match_attributes e).
Proof.
  intros [H1 H2]. unfold match_attributes. repeat (apply Forall_cons; split; cbn [snd]); try apply Forall_nil;
    auto using wf_jarr, wf_opts, wf_opt_str, wf_jint with pyjson.
Qed.
(** A value carries the attributes of [r]. *)
Definition carries (r : Row) (v : json) : Prop := wf_json v /\ forall k, k ∉ OWN -> dict_get k (obj v) = dict_get k (attrs_of r).
Lemma carries_put r c k v a a' : carries r a -> k ∈ OWN -> wf_json v -> put c k v a = Ok a' -> carries r a'.
Proof.
  intros [Ha Hg] Hk Hv. unfold put. destruct c; [|by intros [= <-]]. destruct a; try done. intros [= <-].
  split; [by apply wf_dict_set|]. intros k' Hk'. cbn [obj]. rewrite get_set_own by done. by apply Hg.
Qed.
Lemma carries_put_all r l : Forall (fun a => a.1.2 ∈ OWN) l -> Forall (fun a => wf_json a.2) l ->
  forall a a', carries r a -> put_all l a = Ok a' -> carries r a'.
Proof.
  induction l as [|[[c k] v] l IH]; intros H1 H2 a a' Ha; cbn [put_all]; [by intros [= <-]|].
  apply Forall_cons in H1 as [H1 H1']. apply Forall_cons in H2 as [H2 H2'].
  destruct (put c k v a) as [a1|x] eqn:E; cbn [res_bind]; [|done]. intros Hp. apply (IH H1' H2' a1 a'); [|done]. by apply (carries_put r c k v a a1).
Qed.
Lemma carries_after r k v a : carries r a -> k <> "attributes_json" -> carries (set k v r) a.
Proof. intros [H1 H2] Hk. split; [done|]. by rewrite attrs_of_set. Qed.
(** The journal's metrics leave the record. *)
Lemma journal_issn_row org e : runs (fun w w' => row w' = row w) (journal_issn fetch_source_metrics fetch_apc database org e).
Proof.
  assert (PreOrder (fun w w' : Work => row w' = row w)) by (split; [done|by intros a b c -> ->]).
  unfold journal_issn, upsert_journal_metric. cbv zeta. walk; done.
Qed.
Lemma keeps_same_row w w' : row w' = row w -> keeps w w'.
Proof. intros E Hp. rewrite E. split; [done|]. split; [by intros k _; rewrite E|done]. Qed.
Lemma journal_step_run e a s : carries (row (sess_db s)) a ->
  exists a' s', journal_step fetch_source_metrics fetch_apc database e a s = (Ok a', s') /\
    keeps (sess_db s) (sess_db s') /\ carries (row (sess_db s')) a'.
Proof.
  intros Ha. unfold journal_step. rewrite run_get. unfold mtry, mbind at 1. pose proof (journal_issn_row (row_org (row (sess_db s))) e s) as Hr.
  destruct (journal_issn _ _ _ _ e s) as [[[i|]|x] s1]; cbn [snd] in Hr.
  - assert (Ha1 : carries (row (sess_db s1)) a) by by rewrite Hr. destruct (put true "issn_l" (JStr i) a) as [a1|x] eqn:E.
    + rewrite run_lift_ok. unfold set_col. rewrite run_modify. eexists _, _. split; [reflexivity|]. cbn [sess_db]. split.
      * etransitivity; [by apply keeps_same_row|]. apply keeps_set; [column|done|constructor].
      * apply carries_after; [|done]. by apply (carries_put _ true "issn_l" (JStr i) a); [|column|constructor|].
    + rewrite run_lift_raise. eexists _, _. split; [reflexivity|]. split; [by apply keeps_same_row|done].
  - eexists _, _. split; [reflexivity|]. split; [by apply keeps_same_row|by rewrite Hr].
  - eexists _, _. split; [reflexivity|]. split; [by apply keeps_same_row|by rewrite Hr].
Qed.
Lemma keeps_country : runs keeps (extract_and_cache_country loads dumps extract_country).
Proof.
  intros s. unfold extract_and_cache_country. rewrite run_get. destruct (loads (attributes_text (row (sess_db s)))) as [v|] eqn:E; [|reflexivity].
  pose proof (Hwf _ _ E) as Hv. pose proof (attrs_of_obj _ _ E) as Ho. cbv zeta.
  assert (H : forall k, dict_get k (obj (py_or v (JObj []))) = dict_get k (attrs_of (row (sess_db s)))).
  { intros k. rewrite Ho. unfold py_or. destruct (py_true v) eqn:Et; [done|]. destruct v; try done. by destruct m. }
  assert (Hv' : wf_json (py_or v (JObj []))) by (unfold py_or; destruct (py_true v); [done|apply wf_empty]).
  destruct (get_or _ _ _) as [cached|x]; [rewrite run_lift_ok|reflexivity]. destruct (py_true cached); [reflexivity|].
  destruct (py_or v (JObj [])) as [| | | | |m]; try reflexivity. destruct (first_true _) as [a|]; [|reflexivity].
  destruct (extract_country _) as [code|]; [|reflexivity]. destruct (truthy code); [|reflexivity].
  apply (keeps_write true _ (sess_db s)); [apply wf_dict_set; [constructor|done]|]. intros k Hk. rewrite <- H. apply get_set_own; [column|done].
Qed.
Lemma keeps_rels w f : keeps w (with_rels f w).
Proof. by apply keeps_same_row. Qed.
Lemma keeps_apply e source : wf_record e -> runs keeps (apply_match e source).
Proof.
  intros He s. unfold Enrichment.apply_match, set_col at 1 2 3 4 5. rewrite !run_modify, run_get. cbn [sess_db].
  match goal with |- keeps _ (sess_db (snd (mbind _ _ (mkSession ?w _)))) => set (w1 := w) end.
  assert (H1 : keeps (sess_db s) w1).
  { unfold w1, set_status. etransitivity; [|apply keeps_clear].
    repeat (etransitivity; [|apply keeps_set; [column|done|]]); try reflexivity; try apply wf_opt_str; try constructor.
    destruct (non_empty _); constructor. }
  etransitivity; [exact H1|]. set (parsed := match text "attributes_json" (row w1) with Some s0 => _ | None => Ok (JObj []) end).
  assert (Hc : forall v, parsed = Ok v -> carries (row w1) v).
  { unfold parsed. intros v. destruct (text _ _) as [t|] eqn:Et; [destruct (truthy t) eqn:Htt; [destruct (loads t) as [u|] eqn:El|]|]; intros [= <-].
    - split; [by apply (Hwf t)|]. intros k _. f_equal. symmetry. apply attrs_of_obj. unfold attributes_text. by rewrite Et, Htt.
    - split; [apply wf_empty|]. intros k _. f_equal. symmetry. apply attrs_of_obj. unfold attributes_text. by rewrite Et, Htt.
    - split; [apply wf_empty|]. intros k _. f_equal. symmetry. apply attrs_of_obj. unfold attributes_text. by rewrite Et. }
  destruct parsed as [v|x]; [rewrite run_lift_ok|reflexivity]. specialize (Hc v eq_refl).
  destruct (put_all (match_attributes e) v) as [a|x] eqn:Ea; [rewrite run_lift_ok|reflexivity].
  apply (carries_put_all _ _ (match_attributes_own e) (match_attributes_wf e He) v a Hc) in Ea.
  match goal with |- keeps _ (sess_db (snd (mbind _ _ ?s1))) => destruct (journal_step_run e a s1 Ea) as (a' & s' & Ej & Hk & [Hw Hg]) end.
  rewrite (run_ok _ _ _ _ _ Ej). unfold set_col. rewrite run_modify. etransitivity; [exact Hk|].
  match goal with |- keeps _ (sess_db (snd (?c ?s2))) =>
    assert (H2 : keeps (sess_db s') (sess_db s2)) by (apply keeps_write; [exact Hw|exact Hg]); assert (H3 : runs keeps c); [|etransitivity; [exact H2|exact (H3 s2)]] end.
  apply runs_bind; [typeclasses eauto|apply keeps_country|]. intros _. unfold persist_coauthor_edges.
  walk; [apply keeps_rels|apply keeps_classify].
Qed.
Lemma cascade_record clock title names : forall attempts opens x e source,
  ca_found (cascade clock title names attempts opens x) = Match e source -> wf_record e.
Proof.
  induction names as [|name names IH]; intros attempts opens x e source; cbn [Enrichment.cascade]; [done|].
  destruct (usable name); cbn [negb]; [|apply IH]. destruct (clock name) as [[t wall] t_fail].
  destruct (call _ _ _ _ _ _ _) as [[r b] n] eqn:E. destruct r as [[|e' l]|ex]; [apply IH| |].
  - intros [= -> ->]. unfold call in E. destruct (enter _ _ _ _) as [[u|ex] b']; [|done].
    pose proof (Hsearch source title (net x)) as Hs. destruct (search_by_title source title (net x)) as [[r|ex] n']; [|done]. simplify_eq.
    specialize (Hs _ eq_refl). by apply Forall_cons in Hs as [? _].
  - destruct (bool_decide _); [apply IH|done].
Qed.

(** Enriching a record keeps what is not enrichment's: every column outside
    the enrichment's own and every attribute outside the keys it writes are as
    before, on every outcome (a match, a failure half way through its writes, an
    exception of a provider), unless a web scraper of the tenant answered, whose
    configuration names the fields it sets. *)
Theorem enrichment_keeps_attributes k names configs x r l w' steps :
  plain r -> (enrich_single_record k names configs x (start r l)).2 = Ok (w', steps) ->
  (cols_kept WRITTEN (start r l) w' /\ forall k, k ∉ OWN -> dict_get k (attrs_of (row w')) = dict_get k (attrs_of r)) \/
  scraper_answered (scraper_configs (row_org r) configs).
Proof.
  intros Hp. set (w := start r l).
  assert (Hend : forall w1 w2, keeps w w1 -> row_cols (row w2) = row_cols (row w1) ->
    cols_kept WRITTEN w w2 /\ forall k, k ∉ OWN -> dict_get k (attrs_of (row w2)) = dict_get k (attrs_of r)).
  { intros w1 w2 H E. destruct (H Hp) as (_ & H1 & H2). split; [intros c Hc; rewrite (col_ext _ _ _ E); by apply H1|].
    intros c Hc. rewrite <- H2 by done. f_equal. unfold Enrichment.attrs_of, attributes_text, text. by rewrite (col_ext _ _ _ E). }
  assert (Hcommit : forall w1 steps', keeps w w1 -> (let? w2 := commit_work database w1 in Ok (w2, steps' w2)) = Ok (w', steps) ->
    (cols_kept WRITTEN w w' /\ forall k, k ∉ OWN -> dict_get k (attrs_of (row w')) = dict_get k (attrs_of r)) \/ scraper_answered (scraper_configs (row_org r) configs)).
  { intros w1 steps' H. pose proof (commit_outcome w1) as Hc. destruct (commit_work database w1) as [w2|]; [|done]. cbn [res_bind].
    intros [= <- _]. destruct Hc as (E & _). left. by apply (Hend w1). }
  unfold Enrichment.enrich_single_record. destruct (negb _); cbn [snd].
  { apply (Hcommit _ (fun w' => after_enrichment_commit (row w'))). apply keeps_failed; texts. }
  set (title := match text _ _ with Some s => s | None => _ end). set (c := cascade _ _ _ _ _ _).
  set (last := fun w' : Work => if negb (bool_decide (status (row w) = status (row w'))) || has_status COMPLETED (row w') then after_enrichment_commit (row w') else []).
  enough (H : keeps w (sess_db (snd (conclude k names configs title c (clean w)))) \/ scraper_answered (scraper_configs (row_org r) configs))
    by (destruct H as [H|H]; [by apply (Hcommit _ last)|by right]).
  unfold Enrichment.conclude. match goal with |- context [mtry ?c0 ?h0] => set (body := c0); set (handler := h0) end.
  assert (Hh : forall x s, keeps (sess_db s) (sess_db (snd (handler x s)))).
  { intros e s. unfold handler. destruct (is_data_error e); apply keeps_failed; texts. }
  unfold mtry. unfold body. destruct (ca_found c) as [e source| |ex] eqn:Hf.
  - left. apply cascade_record in Hf. pose proof (keeps_apply e source Hf (clean w)) as H.
    destruct (apply_match e source (clean w)) as [[u|ex] s']; [exact H|]. etransitivity; [exact H|apply Hh].
  - destruct (scraping_run (of_scraper k) configs (clean w)) as [[Hs|Hs] Hrun]; [left|by right].
    destruct (enrich_with_web_scrapers setattr scrape (of_scraper k) configs (clean w)) as [[[]|ex] s'] eqn:E; cbn [snd] in Hs; subst s'.
    + rewrite (run_ok _ _ _ _ _ E). reflexivity.
    + rewrite (run_ok _ _ _ _ _ E). unfold set_col. rewrite run_modify. cbn [fail_with mmodify snd sess_db].
      etransitivity; [apply (keeps_set "enrichment_source" (JStr "None")); [column|done|constructor]|]. apply keeps_failed. texts.
    + rewrite (run_fails _ _ _ _ _ E). exact (Hh ex (clean w)).
  - left. exact (Hh ex (clean w)).
Qed.
End json_laws.
End record.

(** * On concrete records *)
Definition ada : EnrichedRecord :=
  mkEnriched (Some "10.1/ada") ["Ada Lovelace"; "Charles Babbage"] [None; None] 42 ["Computing"] [] ["London University"] [] [] None (Some 3) None None None
    None (Some "Memoirs") None (Some "article").
Definition no_profile (r : Row) : option json := None.
Definition no_source_metrics (s : string) : res (option Journal) := Ok None.
Definition no_apc (s : string) : res json := Ok JNull.
(** A database that takes everything, the integers it reads being decimal. *)
Definition willing : Database := mkDatabase (fun _ _ => None) (fun _ _ _ => None) (fun s => option_map Z.of_int (NilZero.int_of_string s)).
Definition no_country (s : string) : option string := None.
Definition every (s : string) : bool := true.
Definition std_dumps (_ : bool) : json -> string := dumps false.
(** A silent source, one with a record, one that breaks. *)
Definition sources (name : string) : res (list EnrichedRecord) :=
  if bool_decide (name = "openalex") then Ok [ada]
  else if bool_decide (name = "wos") then Raise (Exn "RuntimeError" "invalid key")
  else Ok [].
Definition ask (name title : string) (u : unit) : res (list EnrichedRecord) * unit := (sources name, u).
Definition noon : Clock := mkClock (fun _ => (100, 100, 100)) 100 "2026-01-01T12:00:00+00:00".
Definition open_breaker : Breaker := mkBreaker OPEN 3 0 90 90.
Definition scopus_down : Ext unit := mkExt [("scopus", open_breaker)] tt.
Definition ex_row (cols : list (string * json)) : Row :=
  mkRow 5 (Some 7) ([("primary_label", JStr "Notes"); ("domain", JStr "science"); ("enrichment_status", JStr "processing")] ++ cols).
Definition no_scraping (c : Scraper) (s : string) : res (list (string * string)) := Ok [].
(** Every attribute named is a column. *)
Definition any_column (k : string) : option (res bool) := Some (Ok true).
Definition ex_run scrape (names : list string) (configs : list Scraper) (cols : list (string * json)) : res (Work * list AfterStep) :=
  (enrich_single_record loads std_dumps every every ask no_source_metrics no_apc willing no_country no_profile any_column scrape
     noon names configs scopus_down (start (ex_row cols) [])).2.
Definition ex_enrich_with scrape (names : list string) (configs : list Scraper) (cols : list (string * json)) : Row :=
  match ex_run scrape names configs cols with Ok (w, _) => row w | Raise _ => ex_row cols end.
Definition ex_enrich : list string -> list Scraper -> list (string * json) -> Row := ex_enrich_with no_scraping.

Lemma cascade_first_answer_witness :
  let c := cascade every every ask (of_provider noon) "Notes" ["scopus"; "dblp"; "openalex"; "wos"] [] 0 scopus_down in
  ca_found c = Match ada "openalex" /\ ca_attempts c = ["scopus"; "dblp"; "openalex"] /\ ca_opens c = 1%nat.
Proof.
  destruct (cascade_first_answer every every ask (of_provider noon) "Notes" sources ltac:(done)
    ltac:(intros name e; unfold sources; repeat case_bool_decide; intros [= <-]; discriminate)
    scopus_down ["scopus"; "dblp"; "openalex"; "wos"] ltac:(by apply (bool_decide_unpack _))) as (H1 & H2 & H3 & _).
  cbv zeta. rewrite H1, H2, H3. by vm_compute.
Defined.

Lemma std_truthy b v : truthy (std_dumps b v) = true.
Proof. unfold std_dumps. pose proof (need_bound false v) as [H _]. destruct (dumps false v); [cbn in H; lia|done]. Qed.
Lemma enrichment_keeps_attributes_witness :
  let r := ex_enrich ["openalex"] [] [("notes", JStr "keep"); ("attributes_json", JStr (dumps false (JObj [("year", JInt 1843); ("venue", JStr "old")])))] in
  col "notes" r = JStr "keep" /\ dict_get "year" (attrs_of loads r) = Some (JInt 1843).
Proof.
  set (cols := [("notes", JStr "keep"); ("attributes_json", JStr (dumps false (JObj [("year", JInt 1843); ("venue", JStr "old")])))]).
  assert (E : exists o, ex_run no_scraping ["openalex"] [] cols = Ok o) by (vm_compute; by eexists). destruct E as ([w' steps] & E).
  unfold ex_enrich, ex_enrich_with. rewrite E.
  destruct (enrichment_keeps_attributes loads std_dumps every every ask no_source_metrics no_apc willing no_country no_profile any_column no_scraping
    (fun _ => loads_dumps false) std_truthy loads_wf ltac:(done) ltac:(done)
    ltac:(intros name t n l; unfold ask, sources; cbn [fst]; repeat case_bool_decide; intros [= <-]; repeat constructor)
    noon ["openalex"] [] scopus_down (ex_row cols) [] w' steps) as [[H1 H2]|(c & ? & ? & [] & _)].
  - intros k. unfold col, get_key. cbn. repeat (case_decide; [constructor|]). constructor.
  - exact E.
  - split; [etransitivity; [apply (H1 "notes"); by apply (bool_decide_unpack _)|reflexivity]|]. etransitivity; [apply (H2 "year"); by apply (bool_decide_unpack _)|reflexivity].
Defined.

(** ** Where the worker parts from what it says *)
(** A match never clears [enrichment_failure_reason]: the completed record, and
    the lifecycle event taken from it, still carry the reason of an earlier
    failure. *)
Lemma failure_reason_survives_success :
  let r := ex_enrich ["openalex"] [] [("enrichment_failure_reason", JStr "no_match")] in
  has_status COMPLETED r = true /\ col "enrichment_failure_reason" r = JStr "no_match".
Proof. by vm_compute. Qed.

(** An exception of one provider ends the cascade: the next one, which has the
    record, is never asked, and the reason says that all sources failed. *)
Lemma one_exception_ends_the_cascade :
  let r := ex_enrich ["wos"; "openalex"] [] [] in
  has_status FAILED r = true /\ col "enrichment_failure_reason" r = JStr "all_sources_failed" /\
  ca_attempts (cascade every every ask (of_provider noon) "Notes" ["wos"; "openalex"] [] 0 scopus_down) = ["wos"] /\
  has_status COMPLETED (ex_enrich ["openalex"] [] []) = true.
Proof. by vm_compute. Qed.

(** Attributes that do not parse fail a record after its match is written: the
    failed record keeps the identifier, the citations and the source of the
    match, the reason blames the provider, and the text of its attributes is
    replaced. *)
Lemma failed_record_keeps_match :
  let r := ex_enrich ["openalex"] [] [("attributes_json", JStr "not json")] in
  has_status FAILED r = true /\ col "enrichment_doi" r = JStr "10.1/ada" /\ col "enrichment_source" r = JStr "openalex" /\
  col "enrichment_failure_reason" r = JStr "api_error" /\ dict_keys (attrs_of loads r) = ["enrichment_failure"].
Proof. by vm_compute. Qed.

(** A scraper's answer leaves the failure record of an earlier attempt, and may
    set any column its configuration names. *)
Definition ex_scraper : Scraper := mkScraper 3 (Some 7) true "portal".
Definition fills (fields : list (string * string)) (c : Scraper) (s : string) : res (list (string * string)) := Ok fields.
Lemma scraped_record_keeps_failure :
  let r := ex_enrich_with (fills [("validation_status", "valid")]) ["dblp"] [ex_scraper]
    [("attributes_json", JStr (dumps false (JObj [("enrichment_failure", JObj [("code", JStr "no_provider_match")])])))] in
  has_status COMPLETED r = true /\ col "enrichment_source" r = JStr "portal" /\ col "validation_status" r = JStr "valid" /\
  dict_keys (attrs_of loads r) = ["enrichment_failure"].
Proof. by vm_compute. Qed.

(** The fields may be the id and the organisation: what a site answers moves the
    record to another tenant, under another id. *)
Lemma scraper_moves_record :
  let r := ex_enrich_with (fills [("org_id", "8"); ("id", "6")]) ["dblp"] [ex_scraper] [] in
  row_id r = 6 /\ row_org r = Some 8 /\ has_status COMPLETED r = true.
Proof. by vm_compute. Qed.

(** A text the database cannot read as an integer makes the commit raise, and the
    record stays as it was claimed: so does a refused row of the journal's metrics,
    whose step is documented never to abort the enrichment. *)
Definition journal : Journal := mkJournal (Some "1234-5678") (Some "S1") (Some "Memoirs") false.
Definition in_journal : EnrichedRecord :=
  mkEnriched (Some "10.1/ada") ["Ada Lovelace"] [None] 42 ["Computing"] [] [] [] [] None (Some 3) None None None None (Some "Memoirs") (Some journal) (Some "article").
Definition grumpy : Database :=
  mkDatabase (fun _ _ => None) (fun _ _ _ => Some (Exn "DataError" "journal_metrics")) (int_of_text willing).
Lemma refused_journal_loses_match :
  is_ok (ex_run (fills [("org_id", "acme")]) ["dblp"] [ex_scraper] []) = false /\
  (enrich_single_record loads std_dumps every every (fun _ _ u => (Ok [in_journal], u)) no_source_metrics no_apc grumpy no_country no_profile any_column
     no_scraping noon ["openalex"] [] scopus_down (start (ex_row []) [])).2 = Raise PendingRollbackError.
Proof. by vm_compute. Qed.

(** The breaker of a scraper is made anew for every record, so its threshold of
    three failures is never reached: however often the scraper failed, the next
    record calls it again. *)
Lemma scraper_breaker_never_opens c t label (scrape : Scraper -> string -> res (list (string * string))) setattr (s : Session Work) e :
  scrape c label = Raise e -> exn_name e = "ScrapeError" ->
  rejects (scraper_breaker c) t new_breaker = false /\ try_scrapers setattr scrape t label [c] s = (Ok false, s).
Proof.
  intros H He. split; [done|]. cbn [try_scrapers]. unfold call. rewrite enter_spec. replace (rejects _ _ _) with false by done.
  rewrite H, He. by rewrite bool_decide_true by by apply (bool_decide_unpack _).
Qed.
