(* ===== verification/EnrichmentQueueClaims.v ===== *)
(** * What the enrichment queue guarantees

    One worker per record under any interleaving of workers, requests for a page
    and the scheduler, and one more for each write of a record from outside the
    queue; a queue left alone drains and announces itself once; what the
    scheduler queues and what it reports. On concrete queues: where the requests
    and the worker part from what they say. *)
From stdpp Require Import sets.
From S2P Require Import Prelude PyStr PyJson PyValue TenantAccess JobsApi DateTime JobMigration DomainScope Entities CircuitBreaker UnionFind Coauthor Enrichment EnrichmentClaims EnrichmentQueue.
From Stdlib Require Import Ascii String.

Local Open Scope string_scope.
Local Open Scope list_scope.
Local Open Scope Z_scope.
Local Open Scope py_scope.

(** * Tables changed row by row *)
Lemma Forall2_update_where {A : Type} (P : A -> A -> Prop) (p : A -> bool) (f : A -> A) l :
  (forall r, In r l -> P r (if p r then f r else r)) -> Forall2 P l (update_where p f l).
Proof.
  intros H. unfold update_where. induction l as [|a l IH]; [constructor|]. cbn. constructor; [apply H; by left|].
  apply IH. intros r Hr. apply H. by right.
Qed.
Lemma Forall2_diag_in {A : Type} (P : A -> A -> Prop) l : (forall r, In r l -> P r r) -> Forall2 P l l.
Proof. induction l as [|a l IH]; intros H; constructor; [apply H; by left|]. apply IH. intros r Hr. apply H. by right. Qed.
Lemma Forall2_trans_with {A : Type} (P Q R : A -> A -> Prop) l1 l2 l3 :
  (forall a b c, P a b -> Q b c -> R a c) -> Forall2 P l1 l2 -> Forall2 Q l2 l3 -> Forall2 R l1 l3.
Proof. intros H H1. revert l3. induction H1; intros l3 H2; inversion H2; subst; constructor; eauto. Qed.
Lemma Forall2_map_eq {A B : Type} (P : A -> A -> Prop) (k : A -> B) l l' :
  (forall a b, P a b -> k b = k a) -> Forall2 P l l' -> map k l' = map k l.
Proof. intros H. induction 1; cbn; [done|]. f_equal; auto. Qed.
Lemma Forall2_in_l {A : Type} (P : A -> A -> Prop) l l' a : Forall2 P l l' -> In a l -> exists b, In b l' /\ P a b.
Proof. induction 1 as [|x y l l' H HF IH]; [done|]. intros [->|Hi]; [exists y; split; [by left|done]|]. destruct (IH Hi) as (b & Hb & HP). exists b. split; [by right|done]. Qed.

Lemma try_handled {D A : Type} (c : M D A) h s e s1 a s2 : c s = (Raise e, s1) -> h e s1 = (Ok a, s2) -> mtry c h s = (Ok a, s2).
Proof. intros H1 H2. by rewrite (try_fails _ _ _ _ _ H1). Qed.

(** * Rows *)
Lemma has_status_set s s' r : has_status s (set_status s' r) = bool_decide (s' = s).
Proof. unfold has_status, status, set_status. rewrite col_set_eq. apply bool_decide_ext. split; [by intros [= ->]|by intros ->]. Qed.
Lemma status_unique s s' r : has_status s r = true -> has_status s' r = bool_decide (s = s').
Proof.
  unfold has_status. intros ->%bool_decide_eq_true. apply bool_decide_ext. split; [by intros [= ->]|by intros ->].
Qed.
Definition same_ids (r r' : Row) : Prop := row_id r' = row_id r /\ row_org r' = row_org r.

Section queue.
Context {F X : Type} (loads : string -> option json) (dumps : bool -> json -> string)
  (present is_active : string -> bool) (search_by_title : string -> string -> X -> res (list EnrichedRecord) * X)
  (fetch_source_metrics : string -> res (option Journal)) (fetch_apc : string -> res json)
  (database : Database)
  (extract_country : string -> option string) (profile : Row -> option json)
  (setattr : string -> option (res bool)) (scrape : Scraper -> string -> res (list (string * string)))
  (fdiv fmul : F -> F -> F) (flt : F -> F -> bool) (of_Z : Z -> F) (default_min_pct : F).
Implicit Types d : QDb F.
Local Notation requeue := (requeue loads dumps).
Local Notation ended := (ended dumps present is_active).
Local Notation enrich_row := (enrich_row loads dumps present is_active search_by_title fetch_source_metrics fetch_apc database
  extract_country profile setattr scrape).
Local Notation enriched := (enriched loads dumps present is_active search_by_title fetch_source_metrics fetch_apc database
  extract_country profile setattr scrape).
Local Notation worker_tick := (worker_tick loads dumps present is_active search_by_title fetch_source_metrics fetch_apc database
  extract_country profile setattr scrape).

(** A record is queued, from none or failed; or it stays. *)
Definition queued (r r' : Row) : Prop :=
  r' = r \/ requeueable r = true /\ same_ids r r' /\ has_status PENDING r' = true /\
            forall k, k ∉ ["enrichment_status"; "attributes_json"] -> col k r' = col k r.
Lemma pending_not_requeueable r : has_status PENDING r = true -> requeueable r = false.
Proof. intros H. unfold requeueable. by rewrite !(status_unique _ _ _ H). Qed.
Lemma queued_trans a b c : queued a b -> queued b c -> queued a c.
Proof.
  intros [->|(H1 & H2 & H3 & H4)]; [done|]. intros [->|(H5 & _)]; [by right|]. by rewrite (pending_not_requeueable _ H3) in H5.
Qed.
(** What a request makes of a record it queues. *)
Definition set_pending (r r' : Row) : Prop :=
  same_ids r r' /\ has_status PENDING r' = true /\ forall k, k ∉ ["enrichment_status"; "attributes_json"] -> col k r' = col k r.
Lemma requeue_pending r : set_pending r (requeue r).
Proof.
  unfold EnrichmentQueue.requeue.
  assert (Hk : forall k r', k <> "attributes_json" -> col k (clear_enrichment_failure loads dumps r') = col k r').
  { intros k r' Hk. apply (kept_clear loads dumps ["attributes_json"]); [by apply (bool_decide_unpack _)|by intros ?%list_elem_of_singleton]. }
  split; [unfold same_ids; apply (clear_ids loads dumps (set_status PENDING r))|].
  split.
  - unfold has_status, status. rewrite Hk by done. apply bool_decide_eq_true. apply col_set_eq.
  - intros k Hn. rewrite Hk; [apply col_set_ne|]; intros ->; apply Hn; by apply (bool_decide_unpack _).
Qed.
Lemma queued_requeue r : requeueable r = true -> queued r (requeue r).
Proof. intros H. right. split; [done|apply requeue_pending]. Qed.
Lemma queued_status r : requeueable r = true -> queued r (set_status PENDING r).
Proof.
  intros H. right. split; [done|]. split; [done|]. split; [by rewrite has_status_set|]. intros k Hn. apply col_set_ne. intros ->. apply Hn. by apply (bool_decide_unpack _).
Qed.
Lemma queued_ids l l' : Forall2 queued l l' -> map row_id l' = map row_id l.
Proof. apply Forall2_map_eq. by intros a b [->|(_ & [H _] & _)]. Qed.
(** * Requests and the scheduler *)
Lemma queued_where d (p : Row -> bool) (f : Row -> Row) :
  (forall r, In r (rows d) -> p r = true -> queued r (f r)) -> Forall2 queued (rows d) (rows (with_rows (update_where p f) d)).
Proof. intros H. apply Forall2_update_where. intros r Hr. destruct (p r) eqn:E; [by apply H|by left]. Qed.
Lemma in_ids_filtered (p : Row -> bool) l sub r :
  NoDup (map row_id l) -> In r l -> (forall x, In x sub -> In x l /\ p x = true) -> in_ids (map row_id sub) r = true -> p r = true.
Proof.
  intros Hnd Hr Hs Hi. unfold in_ids in Hi. apply bool_decide_eq_true in Hi. apply list_elem_of_In, in_map_iff in Hi as (x & E & Hx).
  destruct (Hs x Hx) as [Hx' Hp]. by rewrite (NoDup_map_inj row_id l r x).
Qed.
(** A computation that only queues records of [d0]. *)
Definition queues d0 d : Prop := Forall2 queued (rows d0) (rows d).
Lemma queues_refl d : queues d d.
Proof. apply Forall2_diag_in. by left. Qed.
Lemma queues_trans d1 d2 d3 : queues d1 d2 -> queues d2 d3 -> queues d1 d3.
Proof. apply Forall2_trans_with, queued_trans. Qed.
Lemma scoped_in (org : option Z) l r : In r (scoped row_org org l) -> In r l.
Proof. rewrite scoped_filter. by intros [? _]%filter_In. Qed.
Lemma page_in {A : Type} (le : A -> A -> bool) n m l x : In x (firstn n (skipn m (sort_by le l))) -> In x l.
Proof.
  intros H. apply (sort_by_in le). rewrite <- (firstn_skipn m (sort_by le l)). apply in_app_iff. right.
  rewrite <- (firstn_skipn n (skipn m _)). apply in_app_iff. by left.
Qed.
Lemma queues_ids d0 d : queues d0 d -> NoDup (map row_id (rows d0)) -> NoDup (map row_id (rows d)).
Proof. intros H. by rewrite (queued_ids _ _ H). Qed.
Lemma trigger_queues d skip limit org dom : NoDup (map row_id (rows d)) ->
  queues d (sess_base (snd (trigger_enrichment_bulk loads dumps skip limit org dom (clean d)))).
Proof.
  intros Hnd. unfold trigger_enrichment_bulk, clean. rewrite run_get. destruct (resolve_domain_filter _) as [f|x]; [rewrite run_lift_ok|apply queues_refl].
  cbv zeta. set (page := firstn _ _). mrun. cbn [mret snd sess_base]. apply queued_where. intros r Hr Hi. apply queued_requeue.
  apply (in_ids_filtered requeueable (rows d) page r); [done|done| |done].
  intros x Hx%page_in%filter_In. destruct Hx as [Hx [Hq _]%andb_prop]. split; [by apply scoped_in in Hx|done].
Qed.

(** *** One domain *)
Definition eligible_rows (f : option (option string -> bool)) d : list Row :=
  List.filter (fun r => not_derived r && requeueable r && in_domain f r) (rows d).
Definition domain_filter (domain : string) : res (option (option string -> bool)) := resolve_domain_filter (parse_scope (Some (domain_text domain))).
Definition picked (domain : string) (p : option (Policy F)) d : list Row :=
  match domain_filter domain with Ok f => firstn (Z.to_nat (budget p)) (eligible_rows f d) | Raise _ => [] end.
Definition picked_ids (domain : string) (p : option (Policy F)) d : list Z := map row_id (picked domain p d).
Lemma picked_in domain p d r : In r (picked domain p d) -> In r (rows d) /\ not_derived r = true /\ requeueable r = true /\
  exists f, domain_filter domain = Ok f /\ in_domain f r = true.
Proof.
  unfold picked. destruct (domain_filter domain) as [f|x] eqn:E; [|done]. intros H.
  assert (H' : In r (eligible_rows f d)) by (rewrite <- (firstn_skipn (Z.to_nat (budget p)) (eligible_rows f d)); apply in_app_iff; by left).
  apply filter_In in H' as [H1 [[H2 H3]%andb_prop H4]%andb_prop]. split_and!; [done..|]. by exists f.
Qed.
Lemma picked_length domain p d : List.length (picked_ids domain p d) = List.length (picked domain p d).
Proof. apply List.length_map. Qed.
Lemma NoDup_firstn {A : Type} n (l : list A) : NoDup l -> NoDup (firstn n l).
Proof. intros H. rewrite <- (firstn_skipn n l) in H. by apply NoDup_app in H as [? _]. Qed.
Lemma picked_nodup domain p d : NoDup (map row_id (rows d)) -> NoDup (picked_ids domain p d).
Proof.
  intros H. unfold picked_ids, picked. destruct (domain_filter domain) as [f|x]; [|constructor].
  rewrite <- firstn_map. apply NoDup_firstn. by apply NoDup_map_filter.
Qed.
Definition take_pending (domain : string) (p : option (Policy F)) d : QDb F :=
  with_rows (update_where (fun r => in_ids (picked_ids domain p d) r && requeueable r) (set_status PENDING)) d.

(** In a table with unique ids, the rows of [sub] are found by their ids. *)
Lemma count_in_ids (q : Row -> bool) l sub :
  NoDup (map row_id l) -> NoDup (map row_id sub) -> (forall x, In x sub -> In x l /\ q x = true) ->
  count_where (fun r => in_ids (map row_id sub) r && q r) l = Z.of_nat (List.length sub).
Proof.
  intros Hl Hs Hin. unfold count_where. f_equal. apply Permutation_length. apply NoDup_Permutation.
  - apply (NoDup_fmap_1 row_id). by apply NoDup_map_filter.
  - by apply (NoDup_fmap_1 row_id).
  - intros x. rewrite !list_elem_of_In, filter_In. split.
    + intros [Hx [Hi Hq]%andb_prop]. unfold in_ids in Hi. apply bool_decide_eq_true, list_elem_of_In, in_map_iff in Hi as (y & E & Hy).
      destruct (Hin y Hy) as [Hy' _]. by rewrite <- (NoDup_map_inj row_id l y x).
    + intros Hx. destruct (Hin x Hx) as [Hx' Hq]. split; [done|]. rewrite Hq, andb_true_r. unfold in_ids. apply bool_decide_eq_true, list_elem_of_In.
      by apply in_map.
Qed.
Lemma requeue_run mode domain p d f :
  NoDup (map row_id (rows d)) -> domain_filter domain = Ok f ->
  exists jobs, requeue_domain mode (fun d => d) domain p (clean d) =
    (Ok (Z.of_nat (List.length (picked domain p d)), jobs), clean (if should_run_inprocess mode then take_pending domain p d else d)).
Proof.
  intros Hnd Hf. unfold requeue_domain, clean at 1. rewrite run_get. unfold eligible. fold (domain_filter domain). rewrite Hf. cbn [res_bind].
  rewrite run_lift_ok. cbn [sess_db]. fold (eligible_rows f d). cbv zeta.
  assert (Hp : picked domain p d = firstn (Z.to_nat (budget p)) (eligible_rows f d)) by (unfold picked; by rewrite Hf).
  rewrite <- Hp. fold (picked_ids domain p d). destruct (picked_ids domain p d) as [|i ids] eqn:E.
  - exists []. assert (picked domain p d = []) as -> by (unfold picked_ids in E; by destruct (picked domain p d)).
    unfold take_pending. rewrite E. destruct (should_run_inprocess mode); [|done]. unfold clean, mret. f_equal.
    unfold with_rows. rewrite update_where_id by done. by destruct d.
  - rewrite <- E, picked_length. destruct (negb (should_run_inprocess mode)) eqn:En.
    + apply negb_true_iff in En. rewrite En. by eexists.
    + apply negb_false_iff in En. rewrite En. mrun. fold (take_pending domain p d).
      unfold picked_ids. rewrite count_in_ids; [|done|by apply picked_nodup|]. 
      2:{ by intros x (H1 & _ & H2 & _)%picked_in. }
      eexists. unfold mret. by destruct (Z.of_nat _ =? 0).
Qed.
(** *** A run over the policies *)
(** A record queued by the scheduler: for one of the policies' domains. *)
Definition scheduled (ps : list (Policy F)) (r r' : Row) : Prop :=
  r' = r \/ r' = set_status PENDING r /\ requeueable r = true /\ not_derived r = true /\
            exists p f, In p ps /\ domain_filter (po_domain p) = Ok f /\ in_domain f r = true.
Lemma scheduled_trans p ps a b c : scheduled [p] a b -> scheduled ps b c -> scheduled (p :: ps) a c.
Proof.
  intros [->|(-> & H1 & H2 & q & f & [<-|[]] & H3 & H4)] Hb.
  - destruct Hb as [->|(-> & H1 & H2 & q & f & Hq & H3 & H4)]; [by left|]. right. split_and!; [done..|]. exists q, f. split; [by right|done].
  - right. destruct Hb as [->|(_ & H5 & _)].
    + split_and!; [done..|]. exists p, f. split; [by left|done].
    + rewrite pending_not_requeueable in H5; [done|]. by rewrite has_status_set.
Qed.
Lemma scheduled_more p ps a b : scheduled ps a b -> scheduled (p :: ps) a b.
Proof. intros H. apply (scheduled_trans p ps a a b); [by left|done]. Qed.
Lemma count_where_update {A : Type} (P q : A -> bool) (f : A -> A) l :
  (forall r, q r = true -> P (f r) = true /\ P r = false) -> count_where P (update_where q f l) = count_where P l + count_where q l.
Proof.
  intros H. induction l as [|r l IH]; [done|]. unfold update_where in *. cbn [map]. rewrite !count_where_cons, IH.
  destruct (q r) eqn:E; [destruct (H r E) as [-> ->]|]; lia.
Qed.
Definition total_budget (ps : list (Policy F)) : Z := fold_right (fun p n => Z.max 0 (po_budget p) + n) 0 ps.
Definition reported (l : list SchedulerRun) : Z := fold_right (fun r n => ru_queued r + n) 0 l.
Lemma picked_bound domain p d : 0 <= Z.of_nat (List.length (picked domain (Some p) d)) <= Z.max 0 (po_budget p).
Proof.
  unfold picked. cbn [budget]. destruct (domain_filter domain) as [f|x]; cbn; [|lia].
  pose proof (firstn_le_length (Z.to_nat (po_budget p)) (eligible_rows f d)). lia.
Qed.

Record run_effect (mode : string) (ps : list (Policy F)) (acc acc' : Z * Z * Z) d d' : Prop := {
  re_checked : acc.1.1 <= acc'.1.1 <= acc.1.1 + Z.of_nat (List.length ps);
  re_stale : acc.1.2 <= acc'.1.2 <= acc.1.2 + (acc'.1.1 - acc.1.1);
  re_total : acc.2 <= acc'.2 <= acc.2 + total_budget ps;
  re_rows : Forall2 (scheduled ps) (rows d) (rows d');
  re_count : count_where (has_status PENDING) (rows d') =
             count_where (has_status PENDING) (rows d) + (if should_run_inprocess mode then acc'.2 - acc.2 else 0);
  re_runs : exists l, runs d' = runs d ++ l /\ Z.of_nat (List.length l) = acc'.1.2 - acc.1.2 /\ reported l = acc'.2 - acc.2 /\
              Forall (fun r => ru_triggered_by r = "scheduler") l }.
Lemma effect_none mode ps acc d : run_effect mode ps acc acc d d.
Proof.
  assert (0 <= total_budget ps) by (unfold total_budget; induction ps; cbn [fold_right]; lia).
  constructor; [lia|lia|lia| | |].
  - apply Forall2_diag_in. by left.
  - destruct (should_run_inprocess mode); lia.
  - exists []. rewrite app_nil_r. split_and!; [done|cbn; lia|cbn; lia|constructor].
Qed.
Lemma reported_app l l' : reported (l ++ l') = reported l + reported l'.
Proof. unfold reported. induction l as [|r l IH]; cbn [app fold_right]; lia. Qed.
Lemma effect_cons mode p ps a1 a2 a3 d1 d2 d3 :
  run_effect mode [p] a1 a2 d1 d2 -> run_effect mode ps a2 a3 d2 d3 -> run_effect mode (p :: ps) a1 a3 d1 d3.
Proof.
  intros [H1 H2 H3 H4 H5 (l & H6 & H7 & H8 & H9)] [G1 G2 G3 G4 G5 (l' & G6 & G7 & G8 & G9)]. unfold total_budget in *. cbn [List.length fold_right] in *.
  constructor; [cbn [List.length]; lia|lia|unfold total_budget; cbn [fold_right]; lia| | |].
  - eapply Forall2_trans_with; [apply (scheduled_trans p ps)|exact H4|exact G4].
  - rewrite G5, H5. destruct (should_run_inprocess mode); lia.
  - exists (l ++ l'). rewrite G6, H6, <- app_assoc, length_app, reported_app. split_and!; [done|lia|lia|by apply Forall_app].
Qed.
Local Notation check := (check_domain fdiv fmul flt of_Z default_min_pct).
Local Notation policies_run := (run_policies fdiv fmul flt of_Z default_min_pct).
Lemma check_filter domain p d report : check domain p d = Ok report -> exists f, domain_filter domain = Ok f.
Proof.
  unfold check_domain, count_total, entity_base. fold (domain_filter domain). destruct (domain_filter domain) as [f|x]; [by exists f|done].
Qed.
Lemma take_pending_scheduled p d f : NoDup (map row_id (rows d)) -> domain_filter (po_domain p) = Ok f ->
  Forall2 (scheduled [p]) (rows d) (rows (take_pending (po_domain p) (Some p) d)).
Proof.
  intros Hnd Hf. apply Forall2_update_where. intros r Hr. destruct (in_ids _ r && requeueable r) eqn:E; [|by left].
  apply andb_prop in E as [Hi Hq]. right. split; [done|]. split; [done|].
  assert (H : not_derived r && in_domain f r = true).
  { apply (in_ids_filtered (fun r => not_derived r && in_domain f r) (rows d) (picked (po_domain p) (Some p) d) r); [done|done| |exact Hi].
    intros x (H1 & H2 & _ & f' & H3 & H4)%picked_in. split; [done|]. rewrite Hf in H3. injection H3 as <-. by rewrite H2. }
  apply andb_prop in H as [H1 H2]. split; [done|]. exists p, f. split; [by left|done].
Qed.
Lemma take_pending_count domain p d : NoDup (map row_id (rows d)) ->
  count_where (has_status PENDING) (rows (take_pending domain p d)) =
  count_where (has_status PENDING) (rows d) + Z.of_nat (List.length (picked domain p d)).
Proof.
  intros Hnd. cbn [take_pending with_rows rows]. unfold take_pending, with_rows. cbn [rows]. rewrite count_where_update.
  - f_equal. unfold picked_ids. apply count_in_ids; [done|by apply picked_nodup|]. by intros x (H1 & _ & H2 & _)%picked_in.
  - intros r [_ Hq]%andb_prop. rewrite has_status_set. split; [done|]. destruct (has_status PENDING r) eqn:E; [|done].
    by rewrite (pending_not_requeueable _ E) in Hq.
Qed.
(** One policy: its outcome, and that the table's ids stay. *)
Lemma policy_step mode now p acc d : NoDup (map row_id (rows d)) ->
  exists acc' d', (forall ps, policies_run mode now (p :: ps) acc (clean d) = policies_run mode now ps acc' (clean d')) /\ run_effect mode [p] acc acc' d d'.
Proof.
  intros Hnd. destruct acc as [[checked stale] total]. cbn [run_policies].
  pose proof (picked_bound (po_domain p) p d) as Hb.
  destruct (check (po_domain p) (Some p) d) as [report|x] eqn:Ec.
  2:{ exists (checked, stale, total), d. split; [|apply effect_none]. intros ps. unfold clean. eapply run_ok. eapply try_handled; [|done]. rewrite run_get. cbn [sess_db]. rewrite Ec.
      apply run_lift_raise. }
  destruct (check_filter _ _ _ _ Ec) as (f & Hf). destruct (requeue_run mode (po_domain p) (Some p) d f Hnd Hf) as (jobs & Hq).
  destruct ((sr_total report =? 0) || negb (sr_is_stale report)) eqn:Et.
  { exists (checked + 1, stale, total), d. split.
    - intros ps. eapply run_ok. eapply try_ok. unfold clean. rewrite run_get. cbn [sess_db]. rewrite Ec, run_lift_ok, Et. done.
    - destruct (effect_none mode [p] (checked, stale, total) d) as [H1 H2 H3 H4 H5 H6]. cbn [fst snd] in *. constructor; cbn [fst snd]; try assumption; cbn; lia. }
  set (n := Z.of_nat (List.length (picked (po_domain p) (Some p) d))) in *.
  set (d1 := if should_run_inprocess mode then take_pending (po_domain p) (Some p) d else d) in *.
  set (ru := mkRun (run_seq d1 + 1) (po_domain p) "scheduler" n now).
  exists (checked + 1, stale + 1, total + n), (mkQ (rows d1) (corels d1) (scrapers d1) (policies d1) (runs d1 ++ [ru]) (run_seq d1 + 1)). split.
  - intros ps. eapply run_ok. eapply try_ok. unfold clean at 1. rewrite run_get. cbn [sess_db]. rewrite Ec, run_lift_ok, Et.
    fold (clean d). rewrite (run_ok _ _ _ _ _ Hq). unfold record_run, clean. mrun. done.
  - constructor; cbn [fst snd rows runs List.length total_budget fold_right]; [lia|lia|lia| | |].
    + unfold d1. destruct (should_run_inprocess mode); [by apply (take_pending_scheduled p d f)|].
      apply Forall2_diag_in. by left.
    + unfold d1. destruct (should_run_inprocess mode); [rewrite take_pending_count by done; fold n|]; lia.
    + exists [ru]. replace (runs d1) with (runs d) by (unfold d1; by destruct (should_run_inprocess mode)).
      split_and!; [done|cbn; lia|cbn; lia|by repeat constructor].
Qed.
Lemma scheduled_ids ps l l' : Forall2 (scheduled ps) l l' -> map row_id l' = map row_id l.
Proof. apply Forall2_map_eq. by intros a b [->|(-> & _)]. Qed.
Lemma policies_effect mode now ps : forall acc d, NoDup (map row_id (rows d)) ->
  exists acc' d', policies_run mode now ps acc (clean d) = (Ok acc', clean d') /\ run_effect mode ps acc acc' d d'.
Proof.
  induction ps as [|p ps IH]; intros acc d Hnd; [exists acc, d; split; [done|apply effect_none]|].
  destruct (policy_step mode now p acc d Hnd) as (a1 & d1 & Hs & He).
  destruct (IH a1 d1) as (a2 & d2 & Hr & He'); [by rewrite (scheduled_ids _ _ _ (re_rows _ _ _ _ _ _ He))|].
  exists a2, d2. split; [by rewrite Hs|]. by apply (effect_cons mode p ps acc a1 a2 d d1 d2).
Qed.

(** C21: A run of the scheduler always ends with its counts, whatever a domain's
    check does: it takes at most the budgets of the enabled policies, only
    records that are not derived, were never enriched or failed, and lie in the
    domain of an enabled policy, and changes nothing of them but the status; the
    number it reports is, when the work runs in this process, the number of
    records that became pending (none otherwise), and the log has one run per
    stale domain with that number shared out among them. *)
Theorem scheduler_run_exact mode now d : NoDup (map row_id (rows d)) ->
  let ps := List.filter po_enabled (policies d) in
  exists checked stale total d', run_once fdiv fmul flt of_Z default_min_pct mode now (clean d) = (Ok (checked, stale, total), clean d') /\
    0 <= stale <= checked /\ checked <= Z.of_nat (List.length ps) /\ 0 <= total <= total_budget ps /\
    Forall2 (scheduled ps) (rows d) (rows d') /\
    count_where (has_status PENDING) (rows d') = count_where (has_status PENDING) (rows d) + (if should_run_inprocess mode then total else 0) /\
    exists l, runs d' = runs d ++ l /\ Z.of_nat (List.length l) = stale /\ reported l = total /\ Forall (fun r => ru_triggered_by r = "scheduler") l.
Proof.
  intros Hnd ps. unfold run_once, clean at 1. rewrite run_get. cbn [sess_db].
  destruct (policies_effect mode now ps (0, 0, 0) d Hnd) as ([[checked stale] total] & d' & Hr & [H1 H2 H3 H4 H5 (l & H6 & H7 & H8 & H9)]).
  cbn [fst snd] in *. exists checked, stale, total, d'. split; [exact Hr|]. split_and!; try lia; [exact H4|by rewrite H5, Z.sub_0_r|].
  exists l. split_and!; [done|lia|lia|done].
Qed.
(** * Workers *)
Lemma claim_update_run i d :
  claim_update i (clean d) =
  (Ok (if count_where (takeable i) (rows d) =? 0 then None else Some i), clean (with_rows (update_where (takeable i) (set_status PROCESSING)) d)).
Proof. unfold claim_update, clean. mrun. done. Qed.
Lemma atomic_claim_parts others d :
  atomic_claim_next others (clean d) =
  match candidate d with None => (Ok None, clean d) | Some i => claim_update i (clean (others d)) end.
Proof. unfold atomic_claim_next, clean. rewrite run_get. cbn [sess_db]. destruct (candidate d); [by rewrite run_interfere|done]. Qed.

Local Notation refusal := (refusal database).
(** No scraper is set to write a record's id or organisation. *)
Context (kept : identity_kept scrape).
Lemma enriched_ids k names x r d :
  match (enriched k names x r d).2 with
  | Ok (w, _) => row_id (row w) = row_id r /\ row_org (row w) = row_org r /\ ended names (scrapers d) (row_org r) (row w)
  | Raise e => refusal e
  end.
Proof.
  unfold EnrichmentQueue.enriched.
  pose proof (enrich_outcome loads dumps present is_active search_by_title fetch_source_metrics fetch_apc database extract_country profile
    setattr scrape k names (scrapers d) x r (corels d)) as H.
  destruct (snd _) as [[w steps]|e]; [|exact H]. destruct H as (H1 & _ & H2 & _). destruct (H2 kept) as [H3 H4]. done.
Qed.
Lemma enrich_row_rows k names i x d : NoDup (map row_id (rows d)) ->
  match (enrich_row k names i x d).2 with
  | Ok d' =>
      scrapers d' = scrapers d /\
      Forall2 (fun r r' => if by_id i r then same_ids r r' /\ ended names (scrapers d) (row_org r) r' else r' = r) (rows d) (rows d')
  | Raise e => refusal e
  end.
Proof.
  intros Hnd. unfold EnrichmentQueue.enrich_row. destruct (List.find (by_id i) (rows d)) as [r|] eqn:E.
  - pose proof (enriched_ids k names x r d) as H. destruct (enriched k names x r d) as [x' [[w steps]|e]]; cbn [fst snd res_bind] in *; [|exact H].
    apply find_some in E as [Hr Hi]. split; [done|]. cbn [stored rows]. apply Forall2_update_where. intros r' Hr'. destruct (by_id i r') eqn:Ei; [|done].
    unfold by_id in *. assert (r' = r) as -> by (apply (NoDup_map_inj row_id (rows d)); [done..|lia]). by destruct H as (H1 & H2 & H3).
  - cbn [snd]. split; [done|]. apply Forall2_diag_in. intros r Hr. by rewrite (find_none _ _ E r Hr).
Qed.
Lemma enriched_rows_ids i names configs l l' :
  Forall2 (fun r r' => if by_id i r then same_ids r r' /\ ended names configs (row_org r) r' else r' = r) l l' -> map row_id l' = map row_id l.
Proof. apply Forall2_map_eq. intros a b. by destruct (by_id i a); [intros [[? _] _]|intros ->]. Qed.

(** ** Interleavings *)
(** Each worker reads a candidate and takes it with a later update; what happens
    in between is up to the schedule. A holder enriches its record and lets go,
    also when the enrichment raises. Beside the queue's own steps (a page queued
    by a request, a run of the scheduler) there are the writes that do not ask
    whether a record is held: a request by ids, the reset at the start of another
    process, and any write of one record by the rest of the program (enriched on
    request or by a durable job, scraped, merged, edited). *)
Record Fleet := mkFleet { fl_db : QDb F; fl_ext : Ext X; fl_candidates : list (Z * Z); fl_held : list (Z * Z) }.
Inductive FleetStep :=
  | Read (w : Z) | Take (w : Z) | Finish (k : Clock) (names : list string) (w : Z)
  | Trigger (skip limit : Z) (org : option Z) (dom : option string) | Schedule (mode : string) (now : Z)
  | ById (tenants : Tenants) (ids : list Z) (force : bool) (user : User) | Startup | Outside (i : Z) (f : list (string * json) -> list (string * json)).
Definition with_fleet_db d (s : Fleet) : Fleet := mkFleet d (fl_ext s) (fl_candidates s) (fl_held s).
Definition fleet_step (s : Fleet) (e : FleetStep) : Fleet :=
  match e with
  | Read w =>
      match dict_get w (fl_held s), candidate (fl_db s) with
      | None, Some i => mkFleet (fl_db s) (fl_ext s) (dict_set w i (fl_candidates s)) (fl_held s)
      | _, _ => s
      end
  | Take w =>
      match dict_get w (fl_candidates s) with
      | None => s
      | Some i =>
          let '(r, sess) := claim_update i (clean (fl_db s)) in
          mkFleet (sess_base sess) (fl_ext s) (dict_pop w (fl_candidates s))
            (match r with Ok (Some i) => fl_held s ++ [(w, i)] | _ => fl_held s end)
      end
  | Finish k names w =>
      match dict_get w (fl_held s) with
      | None => s
      | Some i =>
          let '(x, d) := enrich_row k names i (fl_ext s) (fl_db s) in
          mkFleet (match d with Ok d => d | Raise _ => fl_db s end) x (fl_candidates s) (dict_pop w (fl_held s))
      end
  | Trigger skip limit org dom => with_fleet_db (sess_base (snd (trigger_enrichment_bulk loads dumps skip limit org dom (clean (fl_db s))))) s
  | Schedule mode now => with_fleet_db (sess_base (snd (run_once fdiv fmul flt of_Z default_min_pct mode now (clean (fl_db s))))) s
  | ById tenants ids force user => with_fleet_db (sess_base (snd (enrich_bulk_by_ids loads dumps tenants ids force user (clean (fl_db s))))) s
  | Startup => with_fleet_db (sess_base (snd (reset_stale_processing_records (clean (fl_db s))))) s
  | Outside i f => with_fleet_db (with_rows (update_where (by_id i) (fun r => mkRow (row_id r) (row_org r) (f (row_cols r)))) (fl_db s)) s
  end.
Definition fleet (steps : list FleetStep) (s : Fleet) : Fleet := fold_left fleet_step steps s.

Definition processing (i : Z) (l : list Row) : Prop := exists r, In r l /\ row_id r = i /\ has_status PROCESSING r = true.
Definition holders (i : Z) (s : Fleet) : Z := count_where (fun h => h.2 =? i) (fl_held s).
(** The step may take record [i] out of a worker's hands. *)
Definition disturbs (i : Z) (e : FleetStep) : bool :=
  match e with ById _ ids _ _ => bool_decide (i ∈ ids) | Startup => true | Outside j _ => j =? i | _ => false end.
(** At most one holder beside the disturbances [q]; one more than them only while
    the record is processing. *)
Record held_ok (q : Z -> Z) (s : Fleet) : Prop := {
  ho_ids : NoDup (map row_id (rows (fl_db s)));
  ho_held : forall i, holders i s <= q i \/ holders i s <= q i + 1 /\ processing i (rows (fl_db s)) }.

(** A change of the table that leaves the records being processed. *)
Lemma held_ok_db q q' s d : held_ok q s -> (forall i, q i <= q' i) -> map row_id (rows d) = map row_id (rows (fl_db s)) ->
  Forall2 (fun r r' => q' (row_id r) = q (row_id r) -> has_status PROCESSING r = true -> r' = r) (rows (fl_db s)) (rows d) ->
  held_ok q' (with_fleet_db d s).
Proof.
  intros [H1 H2] Hq Hi Hf. constructor; cbn; [by rewrite Hi|]. intros i. specialize (Hq i). change (holders i (with_fleet_db d s)) with (holders i s).
  destruct (H2 i) as [H|[H (r & Hr & E & Hp)]]; [left; lia|]. destruct (decide (q' i = q i)) as [Eq|Ne]; [|left; lia]. right. split; [lia|].
  destruct (Forall2_in_l _ _ _ r Hf Hr) as (r' & Hr' & Hk). rewrite (Hk ltac:(by rewrite E) Hp) in Hr'. by exists r.
Qed.
Lemma held_ok_quiet q s d : held_ok q s -> map row_id (rows d) = map row_id (rows (fl_db s)) ->
  Forall2 (fun r r' => has_status PROCESSING r = true -> r' = r) (rows (fl_db s)) (rows d) -> held_ok q (with_fleet_db d s).
Proof. intros H Hi Hf. apply (held_ok_db q q); [done|done|done|]. eapply Forall2_impl; [exact Hf|]. auto. Qed.
Lemma requeueable_not_processing r : requeueable r = true -> has_status PROCESSING r = true -> False.
Proof. intros H Hp. unfold requeueable in H. by rewrite !(status_unique _ _ _ Hp) in H. Qed.
Lemma held_ok_trigger q s skip limit org dom : held_ok q s -> held_ok q (fleet_step s (Trigger skip limit org dom)).
Proof.
  intros H. pose proof (trigger_queues (fl_db s) skip limit org dom (ho_ids _ _ H)) as Hq. apply held_ok_quiet; [done|by apply queued_ids|].
  eapply Forall2_impl; [exact Hq|]. intros r r' [->|(Hr & _)] Hp; [done|]. by destruct (requeueable_not_processing r).
Qed.
Lemma held_ok_schedule q s mode now : held_ok q s -> held_ok q (fleet_step s (Schedule mode now)).
Proof.
  intros H. cbn [fleet_step]. unfold run_once, clean at 1. rewrite run_get. cbn [sess_db].
  destruct (policies_effect mode now (List.filter po_enabled (policies (fl_db s))) (0, 0, 0) (fl_db s) (ho_ids _ _ H)) as (acc & d' & Hr & He).
  fold (clean (fl_db s)). rewrite Hr. cbn [snd clean sess_base]. pose proof (re_rows _ _ _ _ _ _ He) as Hq.
  apply held_ok_quiet; [done|by eapply scheduled_ids|].
  eapply Forall2_impl; [exact Hq|]. intros r r' [->|(_ & Hr' & _)] Hp; [done|]. by destruct (requeueable_not_processing r).
Qed.
(** A write that only concerns the records it disturbs. *)
Definition one_if (b : bool) : Z := if b then 1 else 0.
Definition more (q : Z -> Z) (e : FleetStep) (i : Z) : Z := q i + one_if (disturbs i e).
Lemma held_ok_disturbed q s e (p : Row -> bool) (f : Row -> Row) :
  held_ok q s -> fleet_step s e = with_fleet_db (with_rows (update_where p f) (fl_db s)) s -> (forall r, row_id (f r) = row_id r) ->
  (forall r, p r = true -> disturbs (row_id r) e = true) -> held_ok (more q e) (fleet_step s e).
Proof.
  intros H -> Hf Hp. apply (held_ok_db q); [done| |by apply update_where_map|].
  - intros i. unfold more. destruct (disturbs i e); cbn; lia.
  - apply Forall2_update_where. intros r _. destruct (p r) eqn:E; [|done]. intros Hq. exfalso. unfold more in Hq. rewrite (Hp r E) in Hq. cbn in Hq. lia.
Qed.
Lemma held_ok_byid q s tenants ids force user : held_ok q s -> held_ok (more q (ById tenants ids force user)) (fleet_step s (ById tenants ids force user)).
Proof.
  intros H. assert (Hstay : held_ok (more q (ById tenants ids force user)) (with_fleet_db (fl_db s) s)).
  { apply (held_ok_db q); [done| |done|by apply Forall2_diag_in]. intros i. unfold more. destruct (disturbs i _); cbn; lia. }
  destruct (queue_scope tenants user) as [org|e] eqn:E.
  - set (entities := List.filter (in_ids ids) (scoped row_org org (rows (fl_db s)))).
    set (queued := List.filter (fun r => negb (negb force && has_status COMPLETED r)) entities).
    apply (held_ok_disturbed q s _ (in_ids (map row_id queued)) requeue); [done| | |].
    + cbn [fleet_step]. unfold enrich_bulk_by_ids. rewrite E, run_lift_ok. unfold clean. mrun. done.
    + intros r. apply requeue_pending.
    + intros r Hi. cbn [disturbs]. apply bool_decide_eq_true. unfold in_ids in Hi. apply bool_decide_eq_true, list_elem_of_In, in_map_iff in Hi as (x & Ex & Hx).
      apply filter_In in Hx as [[_ Hx]%filter_In _]. unfold in_ids in Hx. apply bool_decide_eq_true in Hx. by rewrite <- Ex.
  - cbn [fleet_step]. unfold enrich_bulk_by_ids. rewrite E, run_lift_raise. exact Hstay.
Qed.
Lemma held_ok_startup q s : held_ok q s -> held_ok (more q Startup) (fleet_step s Startup).
Proof. intros H. by apply (held_ok_disturbed q s _ (has_status PROCESSING) (set_status PENDING)). Qed.
Lemma held_ok_outside q s i f : held_ok q s -> held_ok (more q (Outside i f)) (fleet_step s (Outside i f)).
Proof.
  intros H. eapply held_ok_disturbed; [done|reflexivity|done|]. intros r Hr. cbn [disturbs]. unfold by_id in Hr. lia.
Qed.
Lemma take_rows i d : Forall2 (fun r r' => has_status PROCESSING r = true -> r' = r) (rows d) (rows (with_rows (update_where (takeable i) (set_status PROCESSING)) d)).
Proof.
  apply Forall2_update_where. intros r Hr. destruct (takeable i r) eqn:E; [|done]. intros Hp. unfold takeable in E.
  apply andb_prop in E as [_ E]. by rewrite (status_unique _ _ _ Hp) in E.
Qed.
Lemma count_where_witness {A : Type} (p : A -> bool) l : count_where p l <> 0 -> exists r, In r l /\ p r = true.
Proof.
  intros H. destruct (List.filter p l) as [|r rest] eqn:E; [by unfold count_where in H; rewrite E in H|].
  exists r. apply filter_In. rewrite E. by left.
Qed.
Lemma held_ok_take q s w : held_ok q s -> held_ok q (fleet_step s (Take w)).
Proof.
  intros H. cbn [fleet_step]. destruct (dict_get w (fl_candidates s)) as [i|]; [|done]. rewrite claim_update_run. cbn [clean sess_base].
  set (d := with_rows _ _). assert (Hd : held_ok q (with_fleet_db d s)).
  { apply held_ok_quiet; [done| |apply take_rows]. by apply update_where_map. }
  destruct (Z.eqb_spec (count_where (takeable i) (rows (fl_db s))) 0) as [Ec|Ec]; [by destruct Hd|].
  apply count_where_witness in Ec as (r & Hr & Ht). unfold takeable, by_id in Ht. apply andb_prop in Ht as [Hi Hp]. apply Z.eqb_eq in Hi.
  destruct Hd as [H1 H2]. constructor; cbn [fl_db fl_held] in *; [exact H1|]. intros j. specialize (H2 j). unfold holders in *. cbn [fl_held with_fleet_db] in *.
  rewrite count_where_app, count_where_cons. change (count_where _ []) with 0. cbn [snd]. destruct (Z.eqb_spec i j) as [->|Ne]; [|by rewrite !Z.add_0_r].
  right. split.
  - destruct (ho_held _ _ H j) as [Hl|[_ (r' & Hr' & E & Hp')]]; [unfold holders in Hl; lia|].
    rewrite (NoDup_map_inj row_id (rows (fl_db s)) r' r) in Hp' by (done || lia || exact (ho_ids _ _ H)). by rewrite (status_unique _ _ _ Hp) in Hp'.
  - exists (set_status PROCESSING r). split; [|split; [done|by rewrite has_status_set]].
    pose proof (update_where_in (takeable j) (set_status PROCESSING) (rows (fl_db s)) r Hr) as Hin.
    unfold takeable at 1, by_id in Hin. by rewrite (proj2 (Z.eqb_eq _ _) Hi), Hp in Hin.
Qed.
Lemma count_pop (w i : Z) (l : list (Z * Z)) j : dict_get w l = Some i ->
  count_where (fun h => h.2 =? j) (dict_pop w l) <= count_where (fun h => h.2 =? j) l - one_if (i =? j).
Proof.
  unfold dict_pop. induction l as [|[w' i'] l IH]; [done|]. cbn [dict_get List.filter]. intros H.
  assert (Hle : forall l', count_where (fun h : Z * Z => h.2 =? j) (List.filter (fun kv => negb (bool_decide (kv.1 = w))) l') <= count_where (fun h => h.2 =? j) l').
  { induction l' as [|x l' IHl]; [done|]. cbn [List.filter]. destruct (negb _); rewrite ?count_where_cons; [lia|]. destruct (x.2 =? j); lia. }
  case_decide as E; cbn [fst snd].
  - injection H as <-. rewrite (bool_decide_eq_true_2 (w' = w)) by congruence. cbn [negb]. rewrite count_where_cons. cbn [snd]. specialize (Hle l). destruct (i' =? j); cbn; lia.
  - rewrite (bool_decide_eq_false_2 (w' = w)) by congruence. cbn [negb]. rewrite !count_where_cons. cbn [snd]. specialize (IH H). lia.
Qed.
Lemma held_ok_finish q s k names w : held_ok q s -> held_ok q (fleet_step s (Finish k names w)).
Proof.
  intros H. cbn [fleet_step]. destruct (dict_get w (fl_held s)) as [i|] eqn:E; [|done].
  pose proof (enrich_row_rows k names i (fl_ext s) (fl_db s) (ho_ids _ _ H)) as Hf. destruct (enrich_row k names i (fl_ext s) (fl_db s)) as [x out]. cbn [snd] in Hf.
  set (d := match out with Ok d => d | Raise _ => fl_db s end).
  assert (Hd : map row_id (rows d) = map row_id (rows (fl_db s)) /\ Forall2 (fun r r' => row_id r <> i -> r' = r) (rows (fl_db s)) (rows d)).
  { unfold d. destruct out as [d'|e]; [|by split; [|apply Forall2_diag_in]]. destruct Hf as [_ Hf]. split; [by eapply enriched_rows_ids|].
    eapply Forall2_impl; [exact Hf|]. intros r r' Hr Hne. unfold by_id in Hr. by rewrite (proj2 (Z.eqb_neq _ _) Hne) in Hr. }
  destruct Hd as [Hi Hrows], H as [H1 H2]. constructor; cbn [fl_db fl_held]; [by rewrite Hi|]. intros j. specialize (H2 j).
  pose proof (count_pop w i (fl_held s) j E) as Hc. unfold holders in *. cbn [fl_held]. destruct (Z.eqb_spec i j) as [->|Ne]; cbn [one_if] in Hc.
  - left. destruct H2 as [?|[? _]]; lia.
  - destruct H2 as [?|[? (r & Hr & Er & Hp)]]; [left; lia|]. right. split; [lia|].
    destruct (Forall2_in_l _ _ _ r Hrows Hr) as (r' & Hr' & Hk). rewrite Hk in Hr' by congruence. by exists r.
Qed.
Lemma held_ok_step q s e : held_ok q s -> held_ok (more q e) (fleet_step s e).
Proof.
  intros H. assert (Hquiet : (forall i, disturbs i e = false) -> held_ok q (fleet_step s e) -> held_ok (more q e) (fleet_step s e)).
  { intros Hd [H1 H2]. constructor; [done|]. intros i. unfold more. rewrite Hd. cbn. rewrite Z.add_0_r. apply H2. }
  destruct e as [w|w|k names w|skip limit org dom|mode now|tenants ids force user| |i f].
  - apply Hquiet; [done|]. cbn [fleet_step]. destruct (dict_get w (fl_held s)), (candidate (fl_db s)); by destruct H.
  - apply Hquiet; [done|]. by apply held_ok_take.
  - apply Hquiet; [done|]. by apply held_ok_finish.
  - apply Hquiet; [done|]. by apply held_ok_trigger.
  - apply Hquiet; [done|]. by apply held_ok_schedule.
  - by apply held_ok_byid.
  - by apply held_ok_startup.
  - by apply held_ok_outside.
Qed.
Lemma held_ok_fleet steps : forall q s, held_ok q s ->
  held_ok (fun i => q i + count_where (disturbs i) steps) (fleet steps s).
Proof.
  induction steps as [|e steps IH]; intros q s H; cbn [fleet fold_left].
  - destruct H as [H1 H2]. constructor; [done|]. intros i. change (count_where (disturbs i) []) with 0. rewrite Z.add_0_r. apply H2.
  - destruct (IH _ _ (held_ok_step q s e H)) as [H1 H2]. constructor; [exact H1|]. intros i. specialize (H2 i). cbn beta in H2 |- *.
    rewrite count_where_cons. unfold more, one_if in H2. by replace (q i + ((if disturbs i e then 1 else 0) + count_where (disturbs i) steps))
      with (q i + (if disturbs i e then 1 else 0) + count_where (disturbs i) steps) by lia.
Qed.


(** ** The queue left alone *)
(** The records a drained queue leaves: a pending one is ended, or, where the
    database refused to store that, it stays claimed with nothing else written. *)
Definition ended_or_stuck (names : list string) (configs : list Scraper) (r r' : Row) : Prop :=
  same_ids r r' /\ ended names configs (row_org r) r' \/ r' = set_status PROCESSING r /\ exists e, refusal e.
Definition drained (names : list string) (configs : list Scraper) (r r' : Row) : Prop :=
  if has_status PENDING r then ended_or_stuck names configs r r' else r' = r.
Definition alone (names : list string) (s : WorkerState (F := F) (X := X)) (k : Clock) : WorkerState := worker_tick k names (fun d => d) s.
Lemma ended_status names configs org r st : ended names configs org r -> st <> COMPLETED -> st <> FAILED -> has_status st r = false.
Proof. intros [[H _]|[H _]] H1 H2; rewrite (status_unique _ _ _ H); by apply bool_decide_eq_false_2. Qed.
(** The record of a turn, and the rest of the table; [b]: it ended. *)
Definition turned (b : bool) (i : Z) (names : list string) (configs : list Scraper) (r r' : Row) : Prop :=
  if by_id i r
  then has_status PENDING r = true /\
       if b then same_ids r r' /\ ended names configs (row_org r) r' else r' = set_status PROCESSING r /\ exists e, refusal e
  else r' = r.
Lemma turn names s k i : NoDup (map row_id (rows (wk_db s))) -> candidate (wk_db s) = Some i ->
  let s' := alone names s k in
  exists b, wk_processed s' = wk_processed s + one_if b /\ wk_emitted s' = wk_emitted s /\ scrapers (wk_db s') = scrapers (wk_db s) /\
    Forall2 (turned b i names (scrapers (wk_db s))) (rows (wk_db s)) (rows (wk_db s')) /\ count_where (by_id i) (rows (wk_db s)) = 1.
Proof.
  intros Hnd Hc. unfold alone, EnrichmentQueue.worker_tick. rewrite atomic_claim_parts, Hc, claim_update_run.
  unfold candidate in Hc. destruct (List.find _ _) as [r|] eqn:Ef; [|done]. injection Hc as Hc. apply find_some in Ef as [Hr Hp].
  assert (Hone : forall r', In r' (rows (wk_db s)) -> by_id i r' = true -> r' = r).
  { intros r' Hr' Hi. unfold by_id in Hi. apply (NoDup_map_inj row_id (rows (wk_db s))); [done..|lia]. }
  assert (Hcount : count_where (by_id i) (rows (wk_db s)) = 1).
  { apply (count_where_unique row_id _ _ r); [done|done|unfold by_id; lia|]. intros y Hy. unfold by_id in Hy. lia. }
  destruct (Z.eqb_spec (count_where (takeable i) (rows (wk_db s))) 0) as [E|_].
  { exfalso. apply count_where_0 with (x := r) in E; [|done]. unfold takeable, by_id in E. by rewrite Hp, Hc, Z.eqb_refl in E. }
  cbn [clean sess_base]. set (d1 := with_rows _ _). assert (Hnd1 : NoDup (map row_id (rows d1))) by (unfold d1, with_rows; cbn [rows]; by rewrite update_where_map).
  assert (Htake : Forall2 (fun a b => In a (rows (wk_db s)) /\ b = if by_id i a then set_status PROCESSING a else a) (rows (wk_db s)) (rows d1)).
  { apply Forall2_update_where. intros a Ha. split; [done|]. unfold takeable. destruct (by_id i a) eqn:Ei; [|done]. rewrite (Hone a Ha Ei), Hp. done. }
  pose proof (enrich_row_rows k names i (wk_ext s) d1 Hnd1) as Hf.
  destruct (enrich_row k names i (wk_ext s) d1) as [x [d2|e]]; cbn [fst snd wk_db wk_processed wk_emitted next_batch_state] in *.
  - destruct Hf as [Hs Hf]. exists true. split_and!; [done|done|exact Hs| |exact Hcount].
    eapply Forall2_trans_with; [|exact Htake|exact Hf]. intros a b c [Ha ->] H. unfold turned. destruct (by_id i a) eqn:Ei.
    + pose proof (Hone a Ha Ei) as ->. replace (by_id i (set_status PROCESSING r)) with true in H by (symmetry; exact Ei). split; [done|exact H].
    + by rewrite Ei in H.
  - exists false. split_and!; [cbn; lia|done|done| |exact Hcount]. eapply Forall2_impl; [exact Htake|]. intros a b [Ha ->]. unfold turned.
    destruct (by_id i a) eqn:Ei; [|done]. rewrite (Hone a Ha Ei). split; [done|]. split; [done|]. by exists e.
Qed.
Lemma turned_count b i names configs l l' : Forall2 (turned b i names configs) l l' ->
  count_where (has_status PENDING) l = count_where (has_status PENDING) l' + count_where (by_id i) l /\
  count_where (has_status PROCESSING) l' = count_where (has_status PROCESSING) l + (1 - one_if b) * count_where (by_id i) l.
Proof.
  induction 1 as [|r r' l l' H HF [IH1 IH2]]; [by destruct b|]. rewrite !count_where_cons, IH1, IH2. unfold turned in H. destruct (by_id i r); [|subst r'; lia].
  destruct H as [Hp H]. rewrite Hp, (status_unique _ PROCESSING _ Hp). change (bool_decide (PENDING = PROCESSING)) with false. destruct b; cbn [one_if].
  - destruct H as [_ He]. rewrite (ended_status _ _ _ _ PENDING He) by done. rewrite (ended_status _ _ _ _ PROCESSING He) by done. lia.
  - destruct H as [-> _]. rewrite !has_status_set. change (bool_decide (PROCESSING = PENDING)) with false. change (bool_decide (PROCESSING = PROCESSING)) with true. lia.
Qed.
Lemma turned_ids b i names configs l l' : Forall2 (turned b i names configs) l l' -> map row_id l' = map row_id l.
Proof. apply Forall2_map_eq. intros r r'. unfold turned. destruct (by_id i r); [|by intros ->]. by destruct b; [intros (_ & [? _] & _)|intros (_ & -> & _)]. Qed.
Lemma turned_drained bt i names configs a b c : turned bt i names configs a b -> drained names configs b c -> drained names configs a c.
Proof.
  unfold turned, drained, ended_or_stuck. destruct (by_id i a); [|by intros ->]. intros (-> & H). destruct bt.
  - destruct H as [Hs He]. rewrite (ended_status _ _ _ _ PENDING He) by done. intros ->. by left.
  - destruct H as [-> He]. rewrite has_status_set. intros ->. by right.
Qed.
(** How many records the database refused to see ended. *)
Definition stuck (s s' : WorkerState (F := F) (X := X)) : Z :=
  count_where (has_status PROCESSING) (rows (wk_db s')) - count_where (has_status PROCESSING) (rows (wk_db s)).
Lemma drain names : forall ks s, NoDup (map row_id (rows (wk_db s))) -> Z.of_nat (List.length ks) = count_where (has_status PENDING) (rows (wk_db s)) ->
  let s' := fold_left (alone names) ks s in
  Forall2 (drained names (scrapers (wk_db s))) (rows (wk_db s)) (rows (wk_db s')) /\ candidate (wk_db s') = None /\
  wk_processed s' = wk_processed s + Z.of_nat (List.length ks) - stuck s s' /\ 0 <= stuck s s' <= Z.of_nat (List.length ks) /\ wk_emitted s' = wk_emitted s.
Proof.
  induction ks as [|k ks IH]; intros s Hnd Hl; cbn [fold_left List.length] in *.
  - symmetry in Hl. unfold stuck. split; [|split; [|split; [lia|split; [lia|done]]]].
    + apply Forall2_diag_in. intros r Hr. unfold drained. by rewrite (proj1 (count_where_0 _ _) Hl r Hr).
    + unfold candidate. destruct (List.find _ _) as [r|] eqn:E; [|done]. apply find_some in E as [Hr Hp].
      by rewrite (proj1 (count_where_0 _ _) Hl r Hr) in Hp.
  - destruct (candidate (wk_db s)) as [i|] eqn:Hc.
    2:{ exfalso. unfold candidate in Hc. destruct (List.find _ _) eqn:E; [done|].
        assert (H0 : count_where (has_status PENDING) (rows (wk_db s)) = 0) by (apply count_where_0; intros r Hr; by apply (find_none _ _ E)). lia. }
    destruct (turn names s k i Hnd Hc) as (b & H1 & H2 & H3 & H4 & H5). destruct (turned_count _ _ _ _ _ _ H4) as [Hcp Hcs].
    destruct (IH (alone names s k)) as (G1 & G2 & G3 & G4 & G5).
    + by rewrite (turned_ids _ _ _ _ _ _ H4).
    + lia.
    + cbv zeta in *. unfold stuck in *. rewrite H5 in Hcs. split; [|split; [done|split; [|split; [|congruence]]]].
      * eapply Forall2_trans_with; [apply (turned_drained b i)|exact H4|]. by rewrite <- H3.
      * destruct b; cbn [one_if] in *; lia.
      * destruct b; cbn [one_if] in *; lia.
Qed.


(** * Requests of users *)
Inductive QRequest := ByIds (ids : list Z) (force : bool) | Page (skip limit : Z) (dom : option string).
(** The answer: how many were queued, and how many left out as completed. *)
Definition request (tenants : Tenants) (user : User) (q : QRequest) : M (QDb F) (Z * Z) :=
  match q with
  | ByIds ids force => enrich_bulk_by_ids loads dumps tenants ids force user
  | Page skip limit dom => do! l <- enrich_bulk_queue loads dumps tenants skip limit dom user; mret (Z.of_nat (List.length l), 0)
  end.
(** Whom a request may queue: visible to its user, and not completed unless
    forced; a page only takes what was never enriched or failed. *)
Definition may_queue (org : option Z) (q : QRequest) (r : Row) : bool :=
  in_scope org (row_org r) &&
  match q with ByIds ids force => in_ids ids r && (force || negb (has_status COMPLETED r)) | Page _ _ _ => requeueable r end.
Lemma queued_exactly (may : Row -> bool) (sub : list Row) d :
  NoDup (map row_id (rows d)) -> (forall x, In x sub -> In x (rows d) /\ may x = true) ->
  Forall2 (fun r r' => r' = r \/ may r = true /\ set_pending r r') (rows d)
    (rows (with_rows (update_where (in_ids (map row_id sub)) requeue) d)).
Proof.
  intros Hnd Hs. apply Forall2_update_where. intros r Hr. destruct (in_ids _ r) eqn:E; [|by left]. right.
  split; [by apply (in_ids_filtered may (rows d) sub)|apply requeue_pending].
Qed.
Lemma count_filter {A : Type} (p : A -> bool) l : count_where p l + count_where (fun x => negb (p x)) l = Z.of_nat (List.length l).
Proof. induction l as [|x l IH]; [done|]. rewrite !count_where_cons. cbn [List.length]. destruct (p x); cbn [negb]; lia. Qed.

(** A request to enrich queues only records its user may see: whoever is not
    an editor or administrator of a known tenant gets an error and changes
    nothing; otherwise every record outside the user's organisation, and every
    completed one unless forced, stays as it is, a queued one keeps all but its
    status and its failure, and queued and skipped add up to the visible records
    that were asked for. *)
Theorem requests_confined tenants user q d : NoDup (map row_id (rows d)) ->
  match queue_scope tenants user with
  | Raise e => request tenants user q (clean d) = (Raise e, clean d)
  | Ok org =>
      let s := snd (request tenants user q (clean d)) in
      Forall2 (fun r r' => r' = r \/ may_queue org q r = true /\ set_pending r r') (rows d) (rows (sess_base s)) /\
      match q with
      | ByIds ids force => exists n m, fst (request tenants user q (clean d)) = Ok (n, m) /\
          n + m = count_where (fun r => in_scope org (row_org r) && in_ids ids r) (rows d)
      | Page _ _ _ => True
      end
  end.
Proof.
  intros Hnd. destruct q as [ids force|skip limit dom]; cbn [request]; unfold enrich_bulk_by_ids, enrich_bulk_queue.
  - destruct (queue_scope tenants user) as [org|e]; [|by rewrite run_lift_raise]. rewrite run_lift_ok. unfold clean at 1 2. mrun. cbn [mret fst snd sess_base]. split.
    + apply queued_exactly; [done|]. intros x [[Hx Hi]%filter_In Hk]%filter_In. rewrite scoped_filter in Hx. apply filter_In in Hx as [Hx Hsc].
      split; [done|]. unfold may_queue. rewrite Hsc, Hi. cbn [andb]. by destruct force, (has_status COMPLETED x).
    + eexists _, _. split; [reflexivity|]. rewrite Z.add_comm. change (Z.of_nat (List.length (List.filter ?p ?l))) with (count_where p l).
      rewrite count_filter. rewrite scoped_filter, filter_filter. done.
  - destruct (queue_scope tenants user) as [org|e]; [|done]. split; [|done]. unfold mbind at 1. rewrite run_lift_ok.
    unfold trigger_enrichment_bulk, clean. rewrite run_get. destruct (resolve_domain_filter _) as [f|x]; [rewrite run_lift_ok|by apply Forall2_diag_in; left].
    cbv zeta. set (page := firstn _ _). mrun. cbn [mret snd sess_base]. apply queued_exactly; [done|].
    intros x Hx%page_in%filter_In. destruct Hx as [Hx [Hq _]%andb_prop]. rewrite scoped_filter in Hx. apply filter_In in Hx as [Hx Hsc].
    split; [done|]. unfold may_queue. by rewrite Hsc, Hq.
Qed.
End queue.

(** * On concrete queues *)
Definition q_row (i org : Z) (st : string) : Row :=
  mkRow i (Some org) [("primary_label", JStr "Notes"); ("domain", JStr "science"); ("source", JStr "upload"); ("enrichment_status", JStr st)].
Definition q_db (rs : list Row) (ps : list (Policy Z)) : QDb Z := mkQ rs [] [] ps [] 0.
Definition statuses (d : QDb Z) : list (Z * json) := map (fun r => (row_id r, status r)) (rows d).
Definition q_tenants : Tenants := mkTenants [mkOrg 7 "acme" "Acme" None (Some true)] [mkMember 7 3].
Definition q_editor : User := mkUser 3 "editor" (Some 7).
Definition q_admin : User := mkUser 4 "admin" (Some 7).
Definition sciences (n : Z) : Policy Z := mkPolicy "science" true 80 n 30 0.
(** Percentages in integers. *)
Definition zdiv (a b : Z) : Z := a * 1000 / b.
Definition zmul (a b : Z) : Z := a * b / 1000.
Definition q_once (mode : string) (d : QDb Z) : res (Z * Z * Z) * Session (QDb Z) := run_once zdiv zmul Z.ltb (fun z => z) 80 mode 5 (clean d).
(** A worker with one source, which has the record or not. *)
Definition q_tick (source : string) (others : QDb Z -> QDb Z) (s : WorkerState (F := Z) (X := unit)) : WorkerState :=
  worker_tick loads std_dumps every every ask no_source_metrics no_apc willing no_country no_profile any_column no_scraping noon [source] others s.
Definition q_start (d : QDb Z) : WorkerState (F := Z) (X := unit) := mkWorker d scopus_down 0 [].
Definition q_fleet : list FleetStep -> QDb Z -> Fleet (F := Z) (X := unit) := fun steps d =>
  fleet loads std_dumps every every ask no_source_metrics no_apc willing no_country no_profile any_column no_scraping zdiv zmul Z.ltb (fun z => z) 80
    steps (mkFleet d scopus_down [] []).

Definition busy : QDb Z := q_db [q_row 1 7 "failed"; q_row 2 7 "none"; q_row 3 8 "none"; q_row 4 7 "completed"] [sciences 2].
Lemma scheduler_run_exact_witness :
  exists d', q_once "off" busy = (Ok (1, 1, 2), clean d') /\ count_where (has_status PENDING) (rows d') = 2.
Proof.
  destruct (scheduler_run_exact zdiv zmul Z.ltb (fun z => z) 80 "off" 5 busy ltac:(by apply (bool_decide_unpack _)))
    as (c & st & n & d' & H & _ & _ & _ & _ & Hc & _).
  assert (E : fst (q_once "off" busy) = Ok (1, 1, 2)) by (vm_compute; reflexivity).
  unfold q_once in *. rewrite H in E. cbn [fst] in E. injection E as -> -> ->. exists d'. split; [exact H|exact Hc].
Defined.
Definition race : list FleetStep := [Trigger 0 10 (Some 7) None; Read 1; Read 2; Take 2; Take 1; Schedule "off" 9; Read 1; Take 1].
Lemma nothing_moved : identity_kept no_scraping.
Proof. intros c label fields [= <-]. constructor. Qed.
Lemma race_result : fl_held (q_fleet race busy) = [(2, 1); (1, 2)] /\ count_where (disturbs 1) race = 0.
Proof. vm_compute. done. Qed.
Definition q_pending : QDb Z := q_db [q_row 1 7 "pending"; q_row 2 7 "none"; q_row 3 8 "pending"] [].
Lemma pending_drained : stuck (q_start q_pending) (fold_left (fun s _ => q_tick "openalex" (fun d => d) s) [tt; tt; tt] (q_start q_pending)) = 0.
Proof. vm_compute. done. Qed.
Lemma requests_confined_witness :
  let s := request loads std_dumps q_tenants q_editor (ByIds [1; 2; 3; 4] false) (clean busy) in
  fst s = Ok (2, 1) /\ statuses (sess_base (snd s)) = [(1, JStr "pending"); (2, JStr "pending"); (3, JStr "none"); (4, JStr "completed")].
Proof.
  pose proof (requests_confined loads std_dumps q_tenants q_editor (ByIds [1; 2; 3; 4] false) busy ltac:(by apply (bool_decide_unpack _))) as H.
  destruct (queue_scope q_tenants q_editor) as [org|e] eqn:E; [|vm_compute in E; discriminate E].
  destruct H as [_ (n & m & H & _)]. cbv zeta. split; [|vm_compute; reflexivity].
  rewrite H. assert (E' : fst (request loads std_dumps q_tenants q_editor (ByIds [1; 2; 3; 4] false) (clean busy)) = Ok (2, 1)) by (vm_compute; reflexivity).
  by rewrite <- H, E'.
Defined.

(** ** Where the queue parts from what it says *)
(** A claim that loses its record to another worker counts as an empty queue:
    the batch is announced while records are pending. *)
Definition rival (i : Z) (d : QDb Z) : QDb Z := sess_base (snd (claim_update i (clean d))).
Lemma lost_claim_announces_batch :
  let s := q_tick "openalex" (fun d => d) (q_start (q_db [q_row 1 7 "pending"; q_row 2 7 "pending"; q_row 3 7 "pending"] [])) in
  let s' := q_tick "openalex" (rival 2) s in
  wk_emitted s' = [1] /\ candidate (wk_db s') = Some 3 /\
  wk_emitted (fold_left (fun s _ => q_tick "openalex" (fun d => d) s) [tt; tt] s') = [1; 1].
Proof. by vm_compute. Qed.

(** A request by ids takes a record out of a worker's hands: it resets what is
    being processed, unforced, and two workers end up with the record. *)
Lemma requeue_by_ids_doubles_work :
  let s := q_fleet [Read 1; Take 1; ById q_tenants [1] false q_editor; Read 2; Take 2] (q_db [q_row 1 7 "pending"] []) in
  statuses (fl_db s) = [(1, JStr "processing")] /\ fl_held s = [(1, 1); (2, 1)] /\ holders 1 s = 2.
Proof. by vm_compute. Qed.

(** A record whose outcome the database refuses is in no worker's hands and still
    processing: nothing but a start of the process or a request by ids queues it
    again. *)
Definition grumpy_tick (s : WorkerState (F := Z) (X := unit)) : WorkerState :=
  worker_tick loads std_dumps every every (fun _ _ u => (Ok [in_journal], u)) no_source_metrics no_apc grumpy no_country no_profile any_column no_scraping
    noon ["openalex"] (fun d => d) s.
Lemma refused_record_stays_processing :
  let s := fold_left (fun s _ => grumpy_tick s) [tt; tt] (q_start (q_db [q_row 1 7 "pending"; q_row 2 7 "none"] [sciences 5])) in
  statuses (wk_db s) = [(1, JStr "processing"); (2, JStr "none")] /\ wk_emitted s = [] /\
  exists r, q_once "off" (wk_db s) = (Ok (1, 1, 1), clean r) /\ statuses r = [(1, JStr "processing"); (2, JStr "pending")].
Proof. vm_compute. split; [done|]. split; [done|]. eexists. split; reflexivity. Qed.

(** The budget is spent on the same records for ever: failed records are
    eligible again and nothing orders or ages them, so with a budget of one a
    record that no source knows keeps the next one from ever being tried. *)
Definition night (s : WorkerState (F := Z) (X := unit)) : WorkerState :=
  let d := sess_base (snd (q_once "off" (wk_db s))) in
  q_tick "dblp" (fun d => d) (q_tick "dblp" (fun d => d) (mkWorker d (wk_ext s) (wk_processed s) (wk_emitted s))).
Lemma scheduler_starves :
  let s := fold_left (fun s _ => night s) [tt; tt; tt; tt; tt] (q_start (q_db [q_row 1 7 "failed"; q_row 2 7 "none"] [sciences 1])) in
  statuses (wk_db s) = [(1, JStr "failed"); (2, JStr "none")] /\ wk_emitted s = [1; 1; 1; 1; 1] /\
  map (fun r => ru_queued r) (runs (wk_db s)) = [1; 1; 1; 1; 1].
Proof. by vm_compute. Qed.

(** The number of records actually queued: when others took all of them, the
    update changes none and the size of the request is reported. *)
Definition all_taken (d : QDb Z) : QDb Z := with_rows (map (set_status PROCESSING)) d.
Lemma lost_requeue_over_reports :
  exists d, requeue_domain "off" all_taken "science" (Some (sciences 5)) (clean busy) = (Ok (3, []), clean d) /\
    count_where (has_status PENDING) (rows d) = 0.
Proof. eexists. split; [vm_compute; reflexivity|reflexivity]. Qed.

(** The manual trigger of a domain queues every tenant's records: here the
    administrator of one organisation spends its budget on another's. *)
Lemma trigger_domain_crosses_tenants :
  exists (r : Z * SchedulerRun) (d : QDb Z), trigger_domain ["science"] "off" "science" 5 q_admin (clean (q_db [q_row 3 8 "failed"; q_row 2 7 "completed"] [])) = (Ok r, clean d) /\
    r.1 = 1 /\ statuses d = [(3, JStr "pending"); (2, JStr "completed")].
Proof. eexists _, _. split; [vm_compute; reflexivity|by vm_compute]. Qed.

(** When only durable jobs drive enrichment the record stays as it was, so every
    tick of the scheduler enqueues another job for it. *)
Lemma durable_mode_enqueues_again :
  let once d := requeue_domain "queue" (fun d => d) "science" (Some (sciences 1)) (clean d) in
  once busy = (Ok (1, [(1, Some 7)]), clean busy).
Proof. by vm_compute. Qed.
