(* ===== verification/EnrichmentViews.v ===== *)
(** * Reading the enrichment's state
      (src/backend/routers/enrichment_schedule.py, routers/entities.py,
      services/assistant_actions.py)

    The scheduler's state and runs, the staleness of a domain, the outcomes per
    source, the statistics of the dashboard, and the enrichment of one record on
    request. Means and percentages are floats: they are left to [round1], a
    parameter. *)
From stdpp Require Import sets.
From S2P Require Import Prelude PyStr PyJson PyValue TenantAccess JobsApi DateTime JobMigration DomainScope Entities CircuitBreaker UnionFind Coauthor Enrichment EnrichmentClaims EnrichmentQueue EnrichmentQueueClaims.
From Stdlib Require Import Ascii String.

Local Open Scope string_scope.
Local Open Scope list_scope.
Local Open Scope Z_scope.
Local Open Scope py_scope.

(** * Sums *)
Definition zsum (l : list Z) : Z := foldr Z.add 0 l.
Definition size {A : Type} (l : list A) : Z := Z.of_nat (List.length l).

Section views.
Context {F : Type} (fdiv fmul : F -> F -> F) (flt : F -> F -> bool) (of_Z : Z -> F) (default_min_pct : F) (round1 : F -> F).
Implicit Types d : QDb F.

(** * The scheduler *)
Definition newest_first (l : list SchedulerRun) : list SchedulerRun := sort_by (fun a b => ru_at b <=? ru_at a) l.
Definition runs_of (domain : string) d : list SchedulerRun := List.filter (fun r => bool_decide (ru_domain r = domain)) (runs d).
(** The runs at the latest start of their domain. *)
Definition latest_runs d : list SchedulerRun :=
  List.filter (fun r => forallb (fun r' => ru_at r' <=? ru_at r) (runs_of (ru_domain r) d)) (runs d).
Record SchedulerState := mkSchedulerState { st_enabled : bool; st_interval : Z; st_last : option Z; st_next : option Z; st_domains : Z; st_queued : Z }.
Definition get_scheduler_state (running : bool) (interval : Z) (last next : option Z) d : SchedulerState :=
  mkSchedulerState running interval last next (count_where po_enabled (policies d)) (zsum (map ru_queued (latest_runs d))).
Definition get_domain_staleness (known : list string) (domain : string) d : res (option (Policy F) * Staleness (F := F) * option SchedulerRun) :=
  if negb (bool_decide (domain ∈ known)) then Raise (unknown_domain domain)
  else
    let p := policy_of domain d in
    let? report := check_domain fdiv fmul flt of_Z default_min_pct domain p d in
    Ok (p, report, hd_error (newest_first (runs_of domain d))).
Definition get_domain_runs (domain : string) (limit : Z) d : list SchedulerRun := firstn (Z.to_nat limit) (newest_first (runs_of domain d)).

(** * Outcomes per source *)
Definition reason_key (v : json) : string := match v with JStr s => if truthy s then s else "unknown" | _ => "unknown" end.
Record SourceStats := mkSourceStats { ss_source : json; ss_total : Z; ss_enriched : Z; ss_failed : Z; ss_reasons : list (string * Z) }.
Definition source_entry (source : json) (l : list Row) : SourceStats :=
  let failed := List.filter (has_status FAILED) l in
  mkSourceStats source (size l) (count_where (has_status COMPLETED) l) (size failed)
    (fold_left (fun m g => dict_set (reason_key g.1) (size g.2) m) (group_by (col "enrichment_failure_reason") failed) []).
Definition get_sources_stats (domain : option string) d : list SourceStats :=
  let l := match domain with
           | Some dom => if truthy dom then List.filter (fun r => bool_decide (col "domain" r = JStr dom)) (rows d) else rows d
           | None => rows d end in
  map (fun g => source_entry g.1 g.2) (group_by (col "enrichment_source") l).

(** * The dashboard *)
Definition concepts_of (r : Row) : list string :=
  match text "enrichment_concepts" r with
  | Some s => if truthy s then List.filter truthy (map strip (split_on "," s)) else []
  | None => []
  end.
Definition concept_freq (l : list Row) : list (string * Z) :=
  fold_left (fun m c => dict_set c (match dict_get c m with Some n => n | None => 0 end + 1) m) (flat_map concepts_of l) [].
Definition top_concepts (freq : list (string * Z)) : list (string * Z) := firstn 20 (sort_by (fun a b => b.2 <=? a.2) freq).
Definition citation_values (l : list Row) : list Z :=
  omap (fun r => if has_status COMPLETED r then match col "enrichment_citation_count" r with JInt z => if 0 <? z then Some z else None | _ => None end else None) l.
Definition bucket (v : Z) : string :=
  if v =? 0 then "0" else if v <=? 10 then "1-10" else if v <=? 50 then "11-50" else if v <=? 200 then "51-200" else "200+".
Definition BUCKETS : list (string * Z) := [("0", 0); ("1-10", 0); ("11-50", 0); ("51-200", 0); ("200+", 0)].
Definition distribution (l : list Z) : list (string * Z) :=
  fold_left (fun m v => dict_set (bucket v) (match dict_get (bucket v) m with Some n => n | None => 0 end + 1) m) l BUCKETS.
Definition status_key (v : json) : string := match v with JStr s => if truthy s then s else NONE | _ => NONE end.
Definition status_breakdown (l : list Row) : list (string * Z) :=
  fold_left (fun m g => dict_set (status_key g.1) (size g.2) m) (group_by status l) [].
Definition of_status (s : string) (m : list (string * Z)) : Z := match dict_get s m with Some n => n | None => 0 end.
Record Stats := mkStats {
  es_total : Z; es_enriched : Z; es_pending : Z; es_failed : Z; es_none : Z; es_coverage : F; es_concepts : list (string * Z);
  es_average : F; es_max : Z; es_citations : Z; es_distribution : list (string * Z) }.
Definition get_enrichment_stats (tenants : Tenants) (domain_id : string) (user : User) d : res Stats :=
  let? org_id := resolve_request_org_id tenants user true true in
  let? l := entity_base domain_id org_id d in
  let? total := count_total domain_id org_id d in
  let counts := status_breakdown l in
  let values := citation_values l in
  let enriched := of_status COMPLETED counts in
  Ok (mkStats total enriched (of_status PENDING counts) (of_status FAILED counts) (of_status NONE counts)
        (if 0 <? total then round1 (fmul (fdiv (of_Z enriched) (of_Z total)) (of_Z 100)) else of_Z 0)
        (top_concepts (concept_freq l))
        (match values with [] => of_Z 0 | _ => round1 (fdiv (of_Z (zsum values)) (of_Z (size values))) end)
        (match values with [] => 0 | v :: vs => fold_left Z.max vs v end) (zsum values) (distribution values)).
End views.

(** * One record on request *)
Section single.
Context {F X : Type} (loads : string -> option json) (dumps : bool -> json -> string)
  (present is_active : string -> bool) (search_by_title : string -> string -> X -> res (list EnrichedRecord) * X)
  (fetch_source_metrics : string -> res (option Journal)) (fetch_apc : string -> res json)
  (database : Database)
  (extract_country : string -> option string) (profile : Row -> option json)
  (setattr : string -> option (res bool)) (scrape : Scraper -> string -> res (list (string * string))).
(** [enabled]: the switch of the action in the assistant's configuration. *)
Definition require_assistant_action (enabled : bool) (allowed : list string) (action_id : string) (user : User) : res unit :=
  if negb enabled then Raise (HTTPException 403 ("Assistant action '" ++ action_id ++ "' is disabled"))
  else if negb (bool_decide (role user ∈ allowed))
       then Raise (HTTPException 403 ("Role '" ++ role user ++ "' is not allowed to execute assistant action '" ++ action_id ++ "'"))
       else Ok tt.
Definition enrich_single_entity (enabled : bool) (tenants : Tenants) (k : Clock) (names : list string) (i : Z) (user : User) (x : Ext X) (d : QDb F)
    : res unit * Ext X * QDb F :=
  let target :=
    let? user := require_role QUEUERS user in
    let? _ := require_assistant_action enabled QUEUERS "entity-enrich-current" user in
    let? org_id := resolve_request_org_id tenants user true true in
    match List.find (by_id i) (scoped row_org org_id (rows d)) with
    | None => Raise (HTTPException 404 "Entity not found")
    | Some r => Ok r
    end in
  match target with
  | Raise e => (Raise e, x, d)
  | Ok _ =>
      match enrich_row loads dumps present is_active search_by_title fetch_source_metrics fetch_apc database extract_country profile setattr scrape
              k names i x d with
      | (x, Ok d) => (Ok tt, x, d)
      | (x, Raise e) => (Raise e, x, d)
      end
  end.
End single.

(** * Counting *)
Definition at_key (k : string) (m : list (string * Z)) : Z := match dict_get k m with Some n => n | None => 0 end.
Lemma tally {A : Type} (key : A -> string) l : forall m k,
  at_key k (fold_left (fun m v => dict_set (key v) (at_key (key v) m + 1) m) l m) = at_key k m + count_where (fun v => bool_decide (key v = k)) l.
Proof.
  induction l as [|v l IH]; intros m k; cbn [fold_left]; [unfold count_where; cbn; lia|]. rewrite IH, count_where_cons. unfold at_key at 1.
  destruct (decide (key v = k)) as [->|E].
  - rewrite dict_get_set_eq, bool_decide_true by done. lia.
  - rewrite dict_get_set_ne, bool_decide_false by congruence. fold (at_key k m). lia.
Qed.
(** The dashboard counts what there is: concepts by their mentions, citations by
    their interval. *)
Lemma concept_freq_exact l c : at_key c (concept_freq l) = count_where (fun v => bool_decide (v = c)) (flat_map concepts_of l).
Proof. unfold concept_freq. by rewrite (tally (fun c => c)). Qed.
Lemma distribution_exact l k : at_key k (distribution l) = count_where (fun v => bool_decide (bucket v = k)) l.
Proof.
  unfold distribution. rewrite (tally bucket). assert (at_key k BUCKETS = 0) as ->; [|lia]. unfold at_key, BUCKETS.
  cbn [dict_get]. by repeat case_decide.
Qed.
(** A top concept has at least as many mentions as any that is left out. *)
Lemma top_concepts_top freq a b : In a (top_concepts freq) -> In b freq -> ~ In b (top_concepts freq) -> b.2 <= a.2.
Proof.
  intros Ha Hb Hn. set (le := fun a b : string * Z => b.2 <=? a.2). unfold top_concepts in *. fold le in Ha, Hn.
  assert (Hs : StronglySorted (fun x y => le x y = true) (sort_by le freq)).
  { apply sort_by_sorted; unfold le; [intros x y; lia|intros x y z; lia]. }
  apply (sort_by_in le) in Hb. rewrite <- (firstn_skipn 20 (sort_by le freq)) in Hs, Hb. apply in_app_iff in Hb as [Hb|Hb]; [done|].
  apply StronglySorted_app_1_elem_of with (x1 := a) (x2 := b) in Hs; [unfold le in Hs; lia|by apply list_elem_of_In|by apply list_elem_of_In].
Qed.

(** * Groups *)
Lemma sizes_set {A K : Type} `{EqDecision K} (k : K) (v : list A) (g : list (K * list A)) :
  zsum (map (fun g => size g.2) (dict_set k v g)) =
  zsum (map (fun g => size g.2) g) - size (match dict_get k g with Some l => l | None => [] end) + size v.
Proof.
  induction g as [|[k' m] g IH]; [cbn; unfold size; cbn; lia|]. cbn [dict_set dict_get]. destruct (decide (k = k')) as [->|E]; cbn [map zsum foldr snd] in *; [lia|].
  unfold zsum in *. rewrite IH. lia.
Qed.
Lemma group_sizes {A K : Type} `{EqDecision K} (key : A -> K) l : zsum (map (fun g => size g.2) (group_by key l)) = size l.
Proof.
  induction l as [|x l IH] using rev_ind; [done|]. assert (group_by key (l ++ [x]) = group_add (key x) x (group_by key l)) as ->.
  { unfold group_by. by rewrite fold_left_app. }
  unfold group_add. rewrite sizes_set, IH. unfold size. rewrite !length_app. cbn [List.length]. lia.
Qed.
(** Every record of the request is in one source's total, and a source's
    completed and failed records are disjoint. *)
Lemma sources_stats_partition {F} domain (d : QDb F) :
  zsum (map ss_total (get_sources_stats domain d)) =
  size (match domain with Some dom => if truthy dom then List.filter (fun r => bool_decide (col "domain" r = JStr dom)) (rows d) else rows d | None => rows d end) /\
  Forall (fun e => 0 <= ss_enriched e + ss_failed e <= ss_total e) (get_sources_stats domain d).
Proof.
  unfold get_sources_stats. set (l := match domain with Some dom => _ | None => _ end). split.
  - rewrite map_map. cbn [source_entry ss_total]. apply group_sizes.
  - apply Forall_forall. intros e (g & -> & _)%list_elem_of_fmap. cbn [source_entry ss_enriched ss_failed ss_total].
    generalize (g.2). intros l'. unfold size. split; [unfold count_where; lia|]. change (Z.of_nat (List.length (List.filter ?p ?x))) with (count_where p x).
    induction l' as [|r l' IH]; [done|]. rewrite !count_where_cons. cbn [List.length]. destruct (has_status COMPLETED r) eqn:E; [rewrite (status_unique _ FAILED _ E), bool_decide_false by done|destruct (has_status FAILED r)]; lia.
Qed.

(** * On concrete tables *)
(** Only citations above zero are counted, so the interval of zero is empty,
    however many completed records have none. *)
Lemma uncited_interval_is_empty l : at_key "0" (distribution (citation_values l)) = 0.
Proof.
  rewrite distribution_exact. apply count_where_0. intros v Hv. unfold citation_values in Hv. apply list_elem_of_In, list_elem_of_omap in Hv as (r & _ & H).
  apply bool_decide_eq_false. repeat case_match; simplify_eq. intros H. unfold bucket in H.
  destruct (Z.eqb_spec v 0) as [->|_]; [done|]. by repeat destruct (_ <=? _).
Qed.
(** A reader of one organisation sees the outcomes of all of them, and those of
    records without a reason replace those of reason unknown. *)
Lemma source_stats_cross_tenants :
  map (fun e => (ss_total e, ss_failed e)) (get_sources_stats None busy) = [(4, 1)].
Proof. by vm_compute. Qed.
Lemma unknown_reasons_collide :
  let failed reason := mkRow 1 (Some 7) [("enrichment_status", JStr "failed"); ("enrichment_failure_reason", reason)] in
  map (fun e => (ss_failed e, ss_reasons e)) (get_sources_stats None (q_db [failed JNull; failed (JStr "unknown"); failed JNull] [])) = [(3, [("unknown", 1)])].
Proof. by vm_compute. Qed.

(** The endpoint for one record does not look at its status: a record in a
    worker's hands is enriched a second time, and the worker then writes it
    again. *)
Lemma request_enriches_held_record :
  let s := q_fleet [Read 1; Take 1] (q_db [q_row 1 7 "pending"] []) in
  let '(r, _, d) := enrich_single_entity loads std_dumps every every ask no_source_metrics no_apc willing no_country no_profile any_column no_scraping
    true q_tenants noon ["openalex"] 1 q_editor scopus_down (fl_db s) in
  fl_held s = [(1, 1)] /\ statuses (fl_db s) = [(1, JStr "processing")] /\ r = Ok tt /\ statuses d = [(1, JStr "completed")].
Proof. by vm_compute. Qed.
