(* ===== verification/AuditTrail.v ===== *)
(** * The audit trail and the notification centre
      (src/backend/audit.py, read_audit.py, routers/deps.py,
      routers/notifications.py, routers/audit_log.py)

    Which requests leave a row and what it says, the log's queries, and the
    notification centre, which reads the same log with a read mark per user.
    Times are integers; a route is the template that matched. [json_dumps] and
    [normalise] (the ipaddress module) are parameters. Icons are left out. *)
From S2P Require Import Prelude PyStr PyJson Auth TenantAccess JobsApi NameKey Transform UnionFind.
From Stdlib Require Import Ascii String.

Local Open Scope string_scope.
Local Open Scope list_scope.
Local Open Scope Z_scope.
Local Open Scope py_scope.

(** * Rows *)
Record AuditRow := mkAuditRow {
  al_id : Z; al_action : option string; al_type : option string; al_entity : option Z; al_user : option Z; al_username : option string;
  al_session : option string; al_key : option Z; al_endpoint : option string; al_method : option string; al_status : option Z;
  al_ip : option string; al_details : option string; al_created : option Z }.

(** * Which reads are audited (read_audit.py) *)
Definition EXPORT : string := "EXPORT".
Definition READ : string := "READ".
Definition BULK_LIMIT : Z := 500.
Definition EXPORT_ROUTES : list string :=
  ["/audit-log/export"; "/cube/export/{domain_id}"; "/export"; "/export/graph"; "/exports/sales-deck"; "/exports/sales-deck/data";
   "/exports/{entity_id}/jsonld"; "/field-correspondence-rules/review-export.csv"].
Definition AUDIT_LOG_PREFIX : string := "/audit-log".
(** A query: the pairs of the request line; the last value of a name counts. *)
Definition Query : Type := list (string * string).
Definition query_get (name : string) (q : Query) : option string := option_map snd (List.find (fun kv => bool_decide (kv.1 = name)) (rev q)).
Definition query_keys (q : Query) : list string := sort_by str_le (first_seen (map fst q)).
(** [int(text)]: blanks around, a sign, digits with single underscores between. *)
Definition digit_value (c : ascii) : Z := Z.of_N (code c) - 48.
Fixpoint int_body (acc : Z) (after_digit : bool) (l : list ascii) : option Z :=
  match l with
  | [] => if after_digit then Some acc else None
  | c :: l =>
      if is_digit c then int_body (acc * 10 + digit_value c) true l
      else if bool_decide (c = "_"%char) && after_digit then int_body acc false l
      else None
  end.
Definition int_of_text (s : string) : option Z :=
  let l := chars (strip s) in
  if INT_MAX_DIGITS <? Z.of_nat (List.length (List.filter is_digit l)) then None
  else match l with
       | "-"%char :: l => option_map Z.opp (int_body 0 false l)
       | "+"%char :: l => int_body 0 false l
       | _ => int_body 0 false l
       end.
Definition int_param (query : Query) (name : string) : option Z :=
  match query_get name query with None => None | Some raw => int_of_text raw end.
Definition read_audit_class (method route : string) (query : Query) (principal : option Principal) : option string :=
  if negb (bool_decide (upper method ∈ ["GET"; "HEAD"])) then None
  else match principal with
       | None => None
       | Some p =>
           if bool_decide (route ∈ EXPORT_ROUTES) then Some EXPORT
           else if bool_decide (route = AUDIT_LOG_PREFIX) || startswith route (AUDIT_LOG_PREFIX ++ "/") then Some READ
           else if match p_api_key_id p with Some _ => true | None => false end then Some READ
           else
             let skip := int_param query "skip" in
             let limit := int_param query "limit" in
             if match skip with Some n => 0 <? n | None => false end || match limit with Some n => BULK_LIMIT <? n | None => false end
             then Some READ else None
       end.
Definition read_details (query : Query) : json :=
  JObj (("query_keys", JArr (map JStr (query_keys query)))
        :: flat_map (fun name => match int_param query name with Some n => [(name, JInt n)] | None => [] end) ["limit"; "skip"]).

(** * The middleware (audit.py) *)
Definition MUTATING_METHODS : list string := ["POST"; "PUT"; "PATCH"; "DELETE"].
Definition AUDITED_AUTH_PREFIXES : list string := ["/auth/sessions"].
Definition SKIP_PREFIXES : list string := ["/auth/"; "/health"; "/docs"; "/openapi"; "/redoc"; "/notifications/center"].
Definition RESOURCE_MAP : list (string * string) :=
  [("entities", "entity"); ("rules", "rule"); ("reports", "report"); ("exports", "export"); ("artifacts", "artifact"); ("context", "context");
   ("stores", "store"); ("ai-integrations", "ai_integration"); ("authority", "authority"); ("harmonization", "harmonization");
   ("disambiguation", "disambiguation"); ("domains", "domain"); ("users", "user"); ("auth", "session"); ("annotations", "annotation");
   ("rag", "rag"); ("demo", "demo"); ("branding", "branding"); ("cube", "olap"); ("analyzers", "analyzer"); ("webhooks", "webhook");
   ("notifications", "notification"); ("enrich", "enrichment"); ("upload", "ingest"); ("import-export", "ingest")].
Definition ACTION_MAP : list (string * string) := [("POST", "CREATE"); ("PUT", "UPDATE"); ("PATCH", "UPDATE"); ("DELETE", "DELETE")].
Definition resource_type (path : string) : string :=
  match List.filter truthy (split_on "/" (strip_chars "/" path)) with
  | [] => "unknown"
  | p :: _ => match dict_get p RESOURCE_MAP with Some t => t | None => p end
  end.
(** The first match of a slash, digits and then a slash or the end. *)
Definition id_ends (l : list ascii) : bool :=
  match l with
  | [] => true
  | c :: l => bool_decide (c = "/"%char) || ((code c =? 10)%N && match l with [] => true | _ => false end)
  end.
Fixpoint resource_id_at (l : list ascii) : option string :=
  match l with
  | [] => None
  | c :: l' =>
      let ds := take_while is_digit l' in
      if bool_decide (c = "/"%char) && match ds with [] => false | _ => true end && id_ends (drop_while is_digit l')
      then Some (of_chars ds) else resource_id_at l'
  end.
Definition resource_id (path : string) : option string := resource_id_at (chars path).

Record Request := mkRequest {
  rq_method : string; rq_path : string; rq_route : option string; rq_query : Query; rq_principal : option Principal; rq_client : option string }.
Definition exempt (path : string) : bool := existsb (startswith path) SKIP_PREFIXES && negb (existsb (startswith path) AUDITED_AUTH_PREFIXES).
Definition route_template (r : Request) : string := match rq_route r with Some t => if truthy t then t else rq_path r | None => rq_path r end.
(** The action, the endpoint and the details of the row, if there is one. *)
Definition audited (r : Request) : option (string * string * option json) :=
  if exempt (rq_path r) then None
  else if bool_decide (rq_method r ∈ MUTATING_METHODS)
  then Some (match dict_get (rq_method r) ACTION_MAP with Some a => a | None => rq_method r end, rq_path r, None)
  else match read_audit_class (rq_method r) (route_template r) (rq_query r) (rq_principal r) with
       | None => None
       | Some c => Some (c, route_template r, Some (read_details (rq_query r)))
       end.

Section middleware.
Context (json_dumps : json -> string) (username_of : Z -> option string).
Definition next_id (log : list AuditRow) : Z := 1 + fold_right Z.max 0 (map al_id log).
Definition entry (now : Z) (r : Request) (status : Z) (a : string * string * option json) (log : list AuditRow) : option AuditRow :=
  let '(action, endpoint, details) := a in
  match match resource_id (rq_path r) with None => Some None | Some t => option_map Some (int_of_text t) end with
  | None => None
  | Some rid =>
      Some (mkAuditRow (next_id log) (Some action) (Some (resource_type (rq_path r))) rid (option_map p_user_id (rq_principal r))
              (match rq_principal r with Some p => username_of (p_user_id p) | None => None end)
              (match rq_principal r with Some p => p_session_id p | None => None end)
              (match rq_principal r with Some p => p_api_key_id p | None => None end)
              (Some endpoint) (Some (rq_method r)) (Some status) (rq_client r) (option_map json_dumps details) (Some now))
  end.
(** [stored]: the database takes the row. *)
Definition write_entry (now : Z) (stored : bool) (r : Request) (status : Z) (a : string * string * option json) (log : list AuditRow) : list AuditRow :=
  match entry now r status a log with Some row => if stored then log ++ [row] else log | None => log end.
(** [response]: the status, or the exception that the application let through. *)
Definition audit_dispatch (now : Z) (stored : bool) (r : Request) (response : res Z) (log : list AuditRow) : res Z * list AuditRow :=
  match response with
  | Raise e => (Raise e, log)
  | Ok status =>
      (Ok status, match audited r with None => log | Some a => write_entry now stored r status a log end)
  end.
(** [_audit] of routers/deps.py. *)
Definition audit_action (now : Z) (action : string) (user entity : option Z) (entity_type : option string) (details : list (string * json))
    (log : list AuditRow) : list AuditRow :=
  log ++ [mkAuditRow (next_id log) (Some action) entity_type entity user None None None None None None None
            (match details with [] => None | _ => Some (json_dumps (JObj details)) end) (Some now)].
End middleware.

(** * Queries of the log (routers/audit_log.py) *)
Section queries.
Context (normalise : string -> option string).
Definition session_filter (value : option string) : option string :=
  match value with None => None | Some s => let s := strip s in if truthy s then Some s else None end.
Definition normalise_ip (value : option string) : res (option string) :=
  match value with
  | None => Ok None
  | Some s =>
      if negb (truthy (strip s)) then Ok None
      else match normalise (strip s) with Some ip => Ok (Some ip) | None => Raise (HTTPException 422 "Not an IP address") end
  end.
Record AuditFilter := mkAuditFilter {
  f_action : option string; f_resource : option string; f_username : option string; f_from : option Z; f_to : option Z; f_ip : option string; f_session : option string }.
Definition given (o : option string) (p : string -> bool) : bool := match o with Some s => if truthy s then p s else true | None => true end.
Definition equals (o : option string) (s : string) : bool := bool_decide (o = Some s).
Definition matches (f : AuditFilter) (r : AuditRow) : bool :=
  given (f_action f) (fun a => match al_action r with Some b => bool_decide (lower b = lower a) | None => false end)
  && given (f_resource f) (equals (al_type r)) && given (f_username f) (equals (al_username r))
  && given (f_ip f) (equals (al_ip r)) && given (f_session f) (equals (al_session r))
  && match f_from f with Some t => match al_created r with Some c => t <=? c | None => false end | None => true end
  && match f_to f with Some t => match al_created r with Some c => c <=? t | None => false end | None => true end.
Definition newest (l : list AuditRow) : list AuditRow :=
  sort_by (fun a b => match al_created a, al_created b with Some x, Some y => y <=? x | Some _, None => true | None, Some _ => false | None, None => true end) l.
Definition AUDITORS : list string := ["super_admin"; "admin"].
Definition checked_filter (f : AuditFilter) : res AuditFilter :=
  let? ip := normalise_ip (f_ip f) in
  Ok (mkAuditFilter (f_action f) (f_resource f) (f_username f) (f_from f) (f_to f) ip (session_filter (f_session f))).
Definition list_audit_log (f : AuditFilter) (skip limit : Z) (user : User) (log : list AuditRow) : res (Z * list AuditRow) :=
  let? _ := require_role AUDITORS user in
  let? f := checked_filter f in
  let rows := List.filter (matches f) log in
  Ok (Z.of_nat (List.length rows), firstn (Z.to_nat limit) (skipn (Z.to_nat skip) (newest rows))).
Definition export_audit_log (f : AuditFilter) (user : User) (log : list AuditRow) : res (list AuditRow) :=
  let? _ := require_role AUDITORS user in
  let? f := checked_filter f in
  Ok (firstn 10000 (newest (List.filter (matches f) log))).
(** A group of rows by a column; the order of the groups is the database's. *)
Definition counted {K} `{EqDecision K} (key : AuditRow -> K) (log : list AuditRow) : list (K * Z) :=
  map (fun k => (k, count_where (fun r => bool_decide (key r = k)) log)) (first_seen (map key log)).
Record AuditStats := mkAuditStats {
  as_total : Z; as_action : list (option string * Z); as_resource : list (option string * Z); as_users : list (string * Z); as_days : list (Z * Z) }.
Definition day_of (t : Z) : Z := t / 86400.
Definition audit_stats (now : Z) (ip session : option string) (user : User) (log : list AuditRow) : res AuditStats :=
  let? _ := require_role AUDITORS user in
  let? f := checked_filter (mkAuditFilter None None None None None ip session) in
  let rows := List.filter (matches f) log in
  let recent := List.filter (fun r => match al_created r with Some c => (day_of now - 6) * 86400 <=? c | None => false end) rows in
  Ok (mkAuditStats (Z.of_nat (List.length rows)) (counted al_action rows) (counted al_type rows)
        (map (fun uc => (match uc.1 with Some n => if truthy n then n else "anonymous" | None => "anonymous" end, uc.2))
           (firstn 10 (sort_by (fun a b => b.2 <=? a.2) (counted al_username rows))))
        (sort_by (fun a b => a.1 <=? b.1) (flat_map (fun dc => match dc.1 with Some d => [(d, dc.2)] | None => [] end)
           (counted (fun r => option_map day_of (al_created r)) recent)))).
End queries.

(** [_serialize] of the log: the entity and the details as they are shown. *)
Definition shown_entity (r : AuditRow) : option string :=
  match al_entity r with Some n => if n =? 0 then None else Some (str_of_Z n) | None => None end.
Definition shown_details (r : AuditRow) : option json :=
  match al_details r with
  | Some d => if truthy d then Some (match loads d with Some v => v | None => JObj [("raw", JStr d)] end) else None
  | None => None
  end.
(** [/audit/feed] of routers/webhooks.py: no role is asked for. *)
Definition get_audit_feed (limit : Z) (action : option string) (log : list AuditRow) : list AuditRow :=
  firstn (Z.to_nat limit) (newest (List.filter (fun r => given action (equals (al_action r))) log)).
(** What the assistant of the page reports of itself. *)
Record AssistantAction := mkAssistant {
  aa_href : option string; aa_route : option string; aa_api_path : option string; aa_method : option string; aa_status_code : option Z;
  aa_details : list (string * json) }.
Definition first_given (l : list (option string)) (default : string) : string :=
  match List.find (fun o => match o with Some s => truthy s | None => false end) l with Some (Some s) => s | _ => default end.
Definition record_assistant_action (now : Z) (user : Z) (username : string) (client : option string) (p : AssistantAction) (log : list AuditRow) : list AuditRow :=
  log ++ [mkAuditRow (next_id log) (Some "ASSISTANT_ACTION") (Some "assistant_action") None (Some user) (Some username) None None
            (Some (first_given [aa_api_path p; aa_href p; aa_route p] "/assistant")) (Some (upper (first_given [aa_method p] "ASSISTANT")))
            (aa_status_code p) client (Some (dumps false (JObj (aa_details p)))) (Some now)].

(** * The notification centre (routers/notifications.py) *)
Record Center := mkCenter { cn_log : list AuditRow; cn_states : list (Z * option Z); cn_reads : list (Z * Z) }.
(** [user_notification_states] by user; [user_notification_reads] as pairs of a
    user and an entry. *)
Definition with_log (f : list AuditRow -> list AuditRow) (c : Center) : Center := mkCenter (f (cn_log c)) (cn_states c) (cn_reads c).
Definition get_user_state (u : Z) : M Center (option Z) :=
  do! c <- mget;
  match dict_get u (cn_states c) with
  | Some last => mret last
  | None =>
      run! mmodify (fun c => mkCenter (cn_log c) (dict_set u None (cn_states c)) (cn_reads c));
      run! commit;
      mret None
  end.
Definition read_by (u : Z) (c : Center) (e : AuditRow) : bool := bool_decide ((u, al_id e) ∈ cn_reads c).
Definition by_time (last : option Z) (e : AuditRow) : bool :=
  match last, al_created e with Some t, Some c => c <=? t | _, _ => false end.
(** [is_read] of an entry. *)
Definition is_read (u : Z) (last : option Z) (c : Center) (e : AuditRow) : bool := read_by u c e || by_time last e.
(** The two filters of the unread query. *)
Definition unread (u : Z) (last : option Z) (c : Center) (e : AuditRow) : bool :=
  negb (read_by u c e) && match last with None => true | Some t => match al_created e with Some x => t <? x | None => false end end.
Record Feed := mkFeed { fd_total : Z; fd_unread : Z; fd_last : option Z; fd_items : list (AuditRow * bool) }.
Definition of_action (action : option string) (e : AuditRow) : bool := given action (equals (al_action e)).
Definition get_notification_center (skip limit : Z) (action : option string) (user : User) : M Center Feed :=
  do! last <- get_user_state (user_id user);
  do! c <- mget;
  let q := List.filter (of_action action) (cn_log c) in
  mret (mkFeed (Z.of_nat (List.length q)) (count_where (unread (user_id user) last c) q) last
          (map (fun e => (e, is_read (user_id user) last c e)) (firstn (Z.to_nat limit) (skipn (Z.to_nat skip) (newest q))))).
Definition get_unread_count (user : User) : M Center Z :=
  do! last <- get_user_state (user_id user);
  do! c <- mget;
  mret (count_where (unread (user_id user) last c) (cn_log c)).
Definition mark_all_read (now : Z) (user : User) : M Center Z :=
  do! _ <- get_user_state (user_id user);
  run! mmodify (fun c => mkCenter (cn_log c) (dict_set (user_id user) (Some now) (cn_states c))
                           (List.filter (fun p => negb (p.1 =? user_id user)) (cn_reads c)));
  run! commit;
  mret now.
(** Whether it was read already. *)
Definition mark_notification_read (entry_id : Z) (user : User) : M Center bool :=
  do! c <- mget;
  match List.find (fun e => al_id e =? entry_id) (cn_log c) with
  | None => mraise (HTTPException 404 "Notification not found")
  | Some e =>
      do! last <- get_user_state (user_id user);
      if by_time last e then mret true
      else
        do! c <- mget;
        if bool_decide ((user_id user, entry_id) ∈ cn_reads c) then mret false
        else
          run! mmodify (fun c => mkCenter (cn_log c) (cn_states c) (cn_reads c ++ [(user_id user, entry_id)]));
          run! commit;
          mret false
  end.

(** ** How an entry is shown *)
Definition ACTION_LABELS : list (string * string) :=
  [("upload", "File uploaded"); ("entity.update", "Entity updated"); ("entity.delete", "Entity deleted"); ("entity.bulk_delete", "Entities bulk-deleted");
   ("harmonization.apply", "Harmonization applied"); ("authority.confirm", "Authority record confirmed"); ("authority.reject", "Authority record rejected");
   ("entity.merge", "Entities merged"); ("pull", "Store pull completed"); ("scheduled_pull", "Scheduled import completed")].
Definition RESOURCE_LABELS : list (string * string) :=
  [("entity", "Entity"); ("rule", "Rule"); ("report", "Report"); ("export", "Export"); ("artifact", "Artifact"); ("context", "Context snapshot");
   ("store", "Store connection"); ("ai_integration", "AI integration"); ("authority", "Authority record"); ("harmonization", "Harmonization workflow");
   ("disambiguation", "Disambiguation record"); ("domain", "Domain"); ("user", "User"); ("annotation", "Annotation"); ("rag", "RAG configuration");
   ("demo", "Demo asset"); ("branding", "Branding setting"); ("olap", "OLAP view"); ("analyzer", "Analyzer result"); ("webhook", "Webhook");
   ("notification", "Notification setting"); ("enrichment", "Enrichment job"); ("ingest", "Import job")].
Definition GENERIC_ACTION_LABELS : list (string * string) := [("CREATE", "created"); ("UPDATE", "updated"); ("DELETE", "deleted")].
Definition ACTION_HREF : list (string * option string) :=
  [("upload", Some "/import-export"); ("entity.update", Some "/entities/{entity_id}"); ("entity.delete", None); ("entity.bulk_delete", Some "/");
   ("harmonization.apply", Some "/harmonization"); ("authority.confirm", Some "/authority"); ("authority.reject", Some "/authority");
   ("entity.merge", Some "/entities/{entity_id}")].
(** [str.title]: a letter after a letter is lower case, another is upper case. *)
Fixpoint title_chars (after_letter : bool) (l : list ascii) : list ascii :=
  match l with [] => [] | c :: l => (if after_letter then lower_char c else upper_char c) :: title_chars (is_alpha c) l end.
Definition title (s : string) : string := on_chars (title_chars false) s.
Definition build_href (action : string) (entity : option Z) : option string :=
  match dict_get action ACTION_HREF with
  | Some (Some template) =>
      Some (replace_all "{entity_id}" (match entity with Some n => if n =? 0 then "" else str_of_Z n | None => "" end) template)
  | _ => None
  end.
Definition humanize_action_label (action entity_type : option string) : string :=
  match action with
  | None => ""
  | Some a =>
      if negb (truthy a) then ""
      else match dict_get a ACTION_LABELS with
           | Some l => l
           | None =>
               match dict_get (upper a) GENERIC_ACTION_LABELS with
               | Some verb =>
                   ((match dict_get (match entity_type with Some t => t | None => "" end) RESOURCE_LABELS with Some l => l | None => "Record" end)
                    ++ " " ++ verb)%string
               | None => title (strip (replace_all "." " " (replace_all "_" " " a)))
               end
           end
  end.
