(* ===== verification/AuditClaims.v ===== *)
(** * What the audit trail and the notification centre guarantee

    A request leaves at most one row, which names who acted and never the values
    of a query; what a user has read stays read, and the badge counts what the
    feed shows as unread. On concrete logs: where they part from what they say. *)
From S2P Require Import Prelude PyStr PyJson Auth TenantAccess JobsApi NameKey Transform UnionFind AuditTrail.
From Stdlib Require Import Ascii String.

Local Open Scope string_scope.
Local Open Scope list_scope.
Local Open Scope Z_scope.
Local Open Scope py_scope.

(** * The middleware *)
Section middleware.
Context (json_dumps : json -> string) (username_of : Z -> option string).
Local Notation dispatch := (audit_dispatch json_dumps username_of).

(** What a row says of its request. *)
Record names_request (now : Z) (r : Request) (status : Z) (row : AuditRow) : Prop := {
  nr_user : al_user row = option_map p_user_id (rq_principal r);
  nr_session : al_session row = match rq_principal r with Some p => p_session_id p | None => None end;
  nr_key : al_key row = match rq_principal r with Some p => p_api_key_id p | None => None end;
  nr_method : al_method row = Some (rq_method r);
  nr_status : al_status row = Some status;
  nr_client : al_ip row = rq_client r;
  nr_type : al_type row = Some (resource_type (rq_path r));
  nr_created : al_created row = Some now }.
(** An identifier in the path that a number can be made of. *)
Definition readable_id (path : string) : Prop := match resource_id path with Some t => int_of_text t <> None | None => True end.

Lemma entry_names now r status a log row : entry json_dumps username_of now r status a log = Some row -> names_request now r status row /\
  al_action row = Some a.1.1 /\ al_endpoint row = Some a.1.2 /\ al_details row = option_map json_dumps a.2.
Proof. destruct a as [[action endpoint] details]. unfold entry. destruct (match resource_id _ with Some t => _ | None => _ end); [|done]. intros [= <-]. done. Qed.
Lemma entry_some now r status a log : readable_id (rq_path r) -> exists row, entry json_dumps username_of now r status a log = Some row.
Proof.
  destruct a as [[action endpoint] details]. unfold readable_id, entry. destruct (resource_id _) as [t|]; [|by eexists].
  destruct (int_of_text t); [by eexists|done].
Qed.

(** C30: Auditing never changes the answer of a request and never touches a row
    of the log: it adds at most one, which names the principal that
    authentication accepted (its user, and its session or its key), the method,
    the status and the client. A mutating request that is answered, whatever the
    status, on a path that is not exempt adds one, with the path as endpoint and
    no details, when the database takes it; a read adds one exactly when it has
    an audit class, under that class and its route template. *)
Theorem audit_trail_exact now stored r response log :
  readable_id (rq_path r) ->
  let log' := snd (dispatch now stored r response log) in
  fst (dispatch now stored r response log) = response /\
  (exists rows, log' = log ++ rows /\ (List.length rows <= 1)%nat /\
     forall row, In row rows -> exists status, response = Ok status /\ names_request now r status row) /\
  (forall status, response = Ok status -> stored = true -> exempt (rq_path r) = false -> rq_method r ∈ MUTATING_METHODS ->
     exists row, log' = log ++ [row] /\ al_endpoint row = Some (rq_path r) /\ al_details row = None) /\
  (forall status, response = Ok status -> stored = true -> exempt (rq_path r) = false -> rq_method r ∉ MUTATING_METHODS ->
     match read_audit_class (rq_method r) (route_template r) (rq_query r) (rq_principal r) with
     | None => log' = log
     | Some c => exists row, log' = log ++ [row] /\ al_action row = Some c /\ al_endpoint row = Some (route_template r)
     end).
Proof.
  intros Hid. cbv zeta. destruct response as [status|e]; cbn [audit_dispatch fst snd].
  2:{ split; [done|]. split; [|by split]. exists []. rewrite app_nil_r. split; [done|]. split; [cbn; lia|done]. }
  assert (Hw : forall a, exists row, entry json_dumps username_of now r status a log = Some row /\
    write_entry json_dumps username_of now stored r status a log = if stored then log ++ [row] else log).
  { intros a. destruct (entry_some now r status a log Hid) as (row & Hr). exists row. split; [done|]. unfold write_entry. by rewrite Hr. }
  split; [done|]. split; [|split].
  - destruct (audited r) as [a|].
    + destruct (Hw a) as (row & Hr & ->). apply entry_names in Hr as [Hn _]. destruct stored.
      * exists [row]. split; [done|]. split; [done|]. intros row' [<-|[]]. by exists status.
      * exists []. rewrite app_nil_r. split; [done|]. split; [cbn; lia|done].
    + exists []. rewrite app_nil_r. split; [done|]. split; [cbn; lia|done].
  - intros s _ -> He Hm. unfold audited. rewrite He, bool_decide_true by done.
    match goal with |- context [write_entry _ _ _ _ _ _ ?a _] => destruct (Hw a) as (row & Hr & ->); apply entry_names in Hr as (_ & _ & H1 & H2) end.
    by exists row.
  - intros s _ -> He Hm. unfold audited. rewrite He, bool_decide_false by done. destruct (read_audit_class _ _ _ _) as [c|]; [|done].
    destruct (Hw (c, route_template r, Some (read_details (rq_query r)))) as (row & Hr & ->). apply entry_names in Hr as (_ & H1 & H2 & _). by exists row.
Qed.

(** Two requests alike but for what their query parameters hold. *)
Record same_but_values (r r' : Request) : Prop := {
  sv_method : rq_method r' = rq_method r; sv_path : rq_path r' = rq_path r; sv_route : rq_route r' = rq_route r;
  sv_principal : rq_principal r' = rq_principal r; sv_client : rq_client r' = rq_client r;
  sv_keys : query_keys (rq_query r') = query_keys (rq_query r);
  sv_limit : int_param (rq_query r') "limit" = int_param (rq_query r) "limit";
  sv_skip : int_param (rq_query r') "skip" = int_param (rq_query r) "skip" }.

(** The trail holds nothing of what people searched for: two requests whose
    queries have the same parameter names and the same paging numbers leave the
    same row, or none, whatever the values of their parameters are. *)
Theorem query_values_hidden now stored r r' response log :
  same_but_values r r' -> dispatch now stored r' response log = dispatch now stored r response log.
Proof.
  intros [H1 H2 H3 H4 H5 H6 H7 H8]. destruct r as [m p rt q pr cl], r' as [m' p' rt' q' pr' cl'].
  cbn [rq_method rq_path rq_route rq_query rq_principal rq_client] in *. subst.
  assert (Hd : read_details q' = read_details q) by (unfold read_details; cbn [flat_map]; by rewrite H6, H7, H8).
  assert (Hc : forall m route pr, read_audit_class m route q' pr = read_audit_class m route q pr).
  { intros. unfold read_audit_class. by rewrite H7, H8. }
  assert (Ha : audited (mkRequest m p rt q' pr cl) = audited (mkRequest m p rt q pr cl)).
  { unfold audited, route_template. cbn. by rewrite Hc, Hd. }
  unfold audit_dispatch. rewrite Ha. done.
Qed.
End middleware.

(** * The notification centre *)
Inductive CenterCall :=
  | Append (row : AuditRow) | Show (skip limit : Z) (action : option string) (user : User) | Badge (user : User)
  | ReadAll (now : Z) (user : User) | ReadOne (i : Z) (user : User).
Definition committed {A : Type} (m : M Center A) (c : Center) : Center := sess_base (snd (m (clean c))).
Definition center_call (c : Center) (e : CenterCall) : Center :=
  match e with
  | Append row => with_log (fun l => l ++ [row]) c
  | Show skip limit action user => committed (get_notification_center skip limit action user) c
  | Badge user => committed (get_unread_count user) c
  | ReadAll now user => committed (mark_all_read now user) c
  | ReadOne i user => committed (mark_notification_read i user) c
  end.
Definition center_history (cs : list CenterCall) (c : Center) : Center := fold_left center_call cs c.
(** The clock of a request that reads everything is past the entries. *)
Definition dated (l : list AuditRow) : Prop := Forall (fun e => al_created e <> None) l.
Definition timely (c : Center) (e : CenterCall) : Prop :=
  match e with
  | ReadAll now _ => Forall (fun e => match al_created e with Some t => t <= now | None => False end) (cn_log c)
  | Append row => al_created row <> None
  | _ => True
  end.
Fixpoint well_timed (cs : list CenterCall) (c : Center) : Prop :=
  match cs with [] => True | e :: cs => timely c e /\ well_timed cs (center_call c e) end.

Definition last_read (u : Z) (c : Center) : option Z := match dict_get u (cn_states c) with Some l => l | None => None end.
Definition read_now (u : Z) (c : Center) (e : AuditRow) : bool := is_read u (last_read u c) c e.
(** The user's state is made when it is first asked for. *)
Definition ensured (u : Z) (c : Center) : Center :=
  match dict_get u (cn_states c) with Some _ => c | None => mkCenter (cn_log c) (dict_set u None (cn_states c)) (cn_reads c) end.
Lemma user_state_run u c : get_user_state u (clean c) = (Ok (last_read u c), clean (ensured u c)).
Proof. unfold get_user_state, clean, last_read, ensured. rewrite run_get. cbn [sess_db]. destruct (dict_get u (cn_states c)); [done|]. mrun. done. Qed.
Lemma last_read_ensured u v c : last_read v (ensured u c) = last_read v c.
Proof.
  unfold last_read, ensured. destruct (dict_get u (cn_states c)) eqn:E; [done|]. cbn [cn_states].
  destruct (decide (v = u)) as [->|Hn]; [by rewrite dict_get_set_eq, E|by rewrite dict_get_set_ne].
Qed.
Lemma read_now_ensured u v c e : read_now v (ensured u c) e = read_now v c e.
Proof.
  unfold read_now. rewrite last_read_ensured. unfold is_read, read_by. unfold ensured. by destruct (dict_get u (cn_states c)).
Qed.
Lemma log_ensured u c : cn_log (ensured u c) = cn_log c.
Proof. unfold ensured. by destruct (dict_get u (cn_states c)). Qed.

Lemma show_run skip limit action user c :
  let q := List.filter (of_action action) (cn_log c) in
  get_notification_center skip limit action user (clean c) =
  (Ok (mkFeed (Z.of_nat (List.length q)) (count_where (unread (user_id user) (last_read (user_id user) c) (ensured (user_id user) c)) q)
         (last_read (user_id user) c)
         (map (fun e => (e, is_read (user_id user) (last_read (user_id user) c) (ensured (user_id user) c) e))
            (firstn (Z.to_nat limit) (skipn (Z.to_nat skip) (newest q))))),
   clean (ensured (user_id user) c)).
Proof.
  cbv zeta. unfold get_notification_center. rewrite (run_ok _ _ _ _ _ (user_state_run (user_id user) c)). unfold clean. rewrite run_get.
  cbn [sess_db]. by rewrite log_ensured.
Qed.
Lemma badge_run user c :
  get_unread_count user (clean c) =
  (Ok (count_where (unread (user_id user) (last_read (user_id user) c) (ensured (user_id user) c)) (cn_log c)), clean (ensured (user_id user) c)).
Proof.
  unfold get_unread_count. rewrite (run_ok _ _ _ _ _ (user_state_run (user_id user) c)). unfold clean. rewrite run_get. cbn [sess_db]. by rewrite log_ensured.
Qed.
Lemma read_all_run now user c :
  mark_all_read now user (clean c) =
  (Ok now, clean (mkCenter (cn_log c) (dict_set (user_id user) (Some now) (cn_states (ensured (user_id user) c)))
                   (List.filter (fun p => negb (p.1 =? user_id user)) (cn_reads c)))).
Proof.
  unfold mark_all_read. rewrite (run_ok _ _ _ _ _ (user_state_run (user_id user) c)). unfold clean. mrun. rewrite log_ensured.
  unfold ensured. by destruct (dict_get _ _).
Qed.
(** Marking one entry: nothing, or the user's state, or one more pair. *)
Lemma read_one_run i user c : exists r c', mark_notification_read i user (clean c) = (r, clean c') /\
  (c' = c \/ exists l, c' = mkCenter (cn_log c) (cn_states (ensured (user_id user) c)) (cn_reads c ++ l)).
Proof.
  unfold mark_notification_read, clean at 1. rewrite run_get. cbn [sess_db]. destruct (List.find _ _) as [e|]; [|by eexists _, c; split; [done|left]].
  assert (H0 : ensured (user_id user) c = mkCenter (cn_log c) (cn_states (ensured (user_id user) c)) (cn_reads c ++ [])).
  { rewrite app_nil_r. unfold ensured. destruct (dict_get _ _); [by destruct c|done]. }
  fold (clean c). rewrite (run_ok _ _ _ _ _ (user_state_run (user_id user) c)).
  destruct (by_time _ _); [by eexists _, _; split; [done|right; exists []]|].
  unfold clean. rewrite run_get. cbn [sess_db]. destruct (bool_decide _); [by eexists _, _; split; [done|right; exists []]|].
  mrun. eexists _, _. split; [done|]. right. exists [(user_id user, i)]. rewrite log_ensured. f_equal. unfold ensured. by destruct (dict_get _ _).
Qed.
Lemma read_one_committed i user c :
  committed (mark_notification_read i user) c = c \/
  exists l, committed (mark_notification_read i user) c = mkCenter (cn_log c) (cn_states (ensured (user_id user) c)) (cn_reads c ++ l).
Proof. unfold committed. by destruct (read_one_run i user c) as (r & c' & -> & H). Qed.
Lemma read_now_more u c l e st : (forall v, last_read v (mkCenter (cn_log c) st (cn_reads c ++ l)) = last_read v c) ->
  read_now u c e = true -> read_now u (mkCenter (cn_log c) st (cn_reads c ++ l)) e = true.
Proof.
  intros Hs. unfold read_now. rewrite Hs. unfold is_read, read_by. cbn [cn_reads]. intros [H|H]%orb_true_iff; apply orb_true_iff; [left|by right].
  apply bool_decide_eq_true in H. apply bool_decide_eq_true. apply elem_of_app. by left.
Qed.

(** For a dated entry the two filters of the unread query say that it is not read. *)
Lemma unread_not_read u c e : al_created e <> None -> unread u (last_read u c) c e = negb (read_now u c e).
Proof.
  intros Hd. unfold unread, read_now, is_read, by_time. rewrite negb_orb. f_equal. destruct (last_read u c) as [t|]; [|done].
  destruct (al_created e) as [x|]; [|done]. by rewrite Z.ltb_antisym.
Qed.
Lemma unread_ensured u v last c e : unread v last (ensured u c) e = unread v last c e.
Proof. unfold unread, read_by, ensured. by destruct (dict_get _ _). Qed.
Lemma count_where_ext {A : Type} (p q : A -> bool) l : (forall x, In x l -> p x = q x) -> count_where p l = count_where q l.
Proof. intros H. unfold count_where. by rewrite (filter_ext_in p q). Qed.
Lemma count_unread u c l : (forall e, In e l -> al_created e <> None) ->
  count_where (unread u (last_read u c) (ensured u c)) l = count_where (fun e => negb (read_now u c e)) l.
Proof. intros H. apply count_where_ext. intros e He. rewrite unread_ensured. apply unread_not_read. by apply H. Qed.
Lemma log_of_call c call : cn_log (center_call c call) = cn_log c ++ match call with Append row => [row] | _ => [] end.
Proof.
  destruct call as [row|skip limit action user|user|now user|i user]; cbn [center_call]; [done|..]; rewrite app_nil_r.
  - unfold committed. rewrite show_run. apply log_ensured.
  - unfold committed. rewrite badge_run. apply log_ensured.
  - unfold committed. by rewrite read_all_run.
  - by destruct (read_one_committed i user c) as [->|(l & ->)].
Qed.
Lemma call_dated c call : timely c call -> dated (cn_log c) -> dated (cn_log (center_call c call)).
Proof. intros Ht Hd. rewrite log_of_call. apply Forall_app. split; [done|]. destruct call; try constructor; [exact Ht|constructor]. Qed.

Lemma call_keeps u c e call : timely c call -> In e (cn_log c) -> read_now u c e = true ->
  read_now u (center_call c call) e = true /\ In e (cn_log (center_call c call)).
Proof.
  intros Ht Hin Hr. destruct call as [row|skip limit action user|user|now user|i user]; cbn [center_call].
  - split; [exact Hr|]. cbn. apply in_app_iff. by left.
  - unfold committed. rewrite show_run. cbn [snd clean sess_base]. by rewrite read_now_ensured, log_ensured.
  - unfold committed. rewrite badge_run. cbn [snd clean sess_base]. by rewrite read_now_ensured, log_ensured.
  - unfold committed. rewrite read_all_run. cbn [snd clean sess_base cn_log]. split; [|done]. unfold read_now, last_read. cbn [cn_states].
    destruct (decide (u = user_id user)) as [->|Hne].
    + rewrite dict_get_set_eq. unfold is_read. apply orb_true_iff. right. unfold by_time. cbn [timely] in Ht. rewrite Forall_forall in Ht.
      specialize (Ht e ltac:(by apply list_elem_of_In)). destruct (al_created e); [lia|done].
    + rewrite dict_get_set_ne by done. pose proof (last_read_ensured (user_id user) u c) as Hl. unfold last_read in Hl. rewrite Hl. fold (last_read u c).
      unfold read_now, is_read in Hr |- *. apply orb_true_iff in Hr as [Hr|Hr]; apply orb_true_iff; [left|by right].
      unfold read_by in *. apply bool_decide_eq_true in Hr. apply bool_decide_eq_true. cbn [cn_reads].
      apply list_elem_of_In in Hr. apply list_elem_of_In, filter_In. split; [done|]. cbn. by rewrite (proj2 (Z.eqb_neq _ _)).
  - destruct (read_one_committed i user c) as [->|(l & ->)]; [done|]. split; [|done]. apply read_now_more; [|done].
    intros v. unfold last_read. cbn [cn_states]. apply (last_read_ensured (user_id user) v c).
Qed.

(** What a user has read stays read, whatever any user does with the centre
    afterwards and whatever is logged (a request that marks everything read must
    not run behind the clock of the entries). And the badge is honest: at any
    time it is the number of entries that the full feed shows as unread, the
    same for the feed of one action. *)
Theorem read_stays_read cs c0 u :
  dated (cn_log c0) -> well_timed cs c0 ->
  let c := center_history cs c0 in
  (forall e, In e (cn_log c0) -> read_now u c0 e = true -> In e (cn_log c) /\ read_now u c e = true) /\
  (forall skip limit action user, user_id user = u -> exists f,
     fst (get_notification_center skip limit action user (clean c)) = Ok f /\
     fd_unread f = count_where (fun e => negb (read_now u c e)) (List.filter (of_action action) (cn_log c)) /\
     Forall (fun it => it.2 = read_now u c it.1) (fd_items f) /\
     fst (get_unread_count user (clean c)) = Ok (count_where (fun e => negb (read_now u c e)) (cn_log c))).
Proof.
  cbv zeta. revert c0. induction cs as [|call cs IH]; intros c0 Hd Ht.
  - split; [done|]. intros skip limit action user <-. rewrite show_run, badge_run. eexists. split; [reflexivity|]. cbn [fd_unread fd_items fst].
    assert (Hl : forall e, In e (cn_log c0) -> al_created e <> None).
    { intros e He. unfold dated in Hd. rewrite Forall_forall in Hd. by apply Hd, list_elem_of_In. }
    split; [apply count_unread; intros e [He _]%filter_In; by apply Hl|]. split; [|by rewrite count_unread].
    apply Forall_forall. intros it (e & -> & _)%list_elem_of_fmap. cbn. unfold read_now, is_read, read_by, ensured. by destruct (dict_get _ _).
  - destruct Ht as [Ht Hts]. destruct (IH (center_call c0 call)) as [H1 H2]; [by apply call_dated|done|]. split; [|exact H2].
    intros e He Hr. destruct (call_keeps u c0 e call Ht He Hr) as [H3 H4]. by apply H1.
Qed.

(** * The counters of the log: every row is in exactly one group *)
Lemma counted_total {K} `{EqDecision K} (key : AuditRow -> K) l :
  fold_right Z.add 0 (map snd (counted key l)) = Z.of_nat (List.length l).
Proof.
  unfold counted. rewrite map_map. apply counted_over; [apply first_seen_NoDup|].
  intros r Hr. apply first_seen_in, list_elem_of_In, in_map_iff. by exists r.
Qed.
Lemma stats_add_up normalise now ip session user log st :
  audit_stats normalise now ip session user log = Ok st ->
  fold_right Z.add 0 (map snd (as_action st)) = as_total st /\ fold_right Z.add 0 (map snd (as_resource st)) = as_total st.
Proof.
  unfold audit_stats. destruct (require_role _ _); [|done]. cbn [res_bind]. destruct (checked_filter _ _); [|done]. cbn [res_bind].
  intros [= <-]. cbn [as_action as_resource as_total]. by rewrite !counted_total.
Qed.

(** * On concrete requests and logs *)
Definition std_json (v : json) : string := dumps false v.
Definition user_names (u : Z) : option string := if u =? 3 then Some "eva" else None.
Definition with_key : Principal := mkPrincipal 3 None (Some 12).
Definition with_session : Principal := mkPrincipal 3 (Some "s1") None.
Definition at_noon := audit_dispatch std_json user_names 1200 true.
Definition shown (r : AuditRow) : option string * option string * option Z * option string * option Z * option string :=
  (al_action r, al_type r, al_entity r, al_endpoint r, al_status r, al_details r).
Definition removal : Request := mkRequest "DELETE" "/entities/42/" (Some "/entities/{entity_id}") [] (Some with_key) (Some "10.0.0.9").
Lemma audit_trail_exact_witness :
  exists row, at_noon removal (Ok 204) [] = (Ok 204, [row]) /\ al_key row = Some 12 /\
    shown row = (Some "DELETE", Some "entity", Some 42, Some "/entities/42/", Some 204, None).
Proof.
  assert (Hid : readable_id (rq_path removal)) by (vm_compute; discriminate).
  destruct (audit_trail_exact std_json user_names 1200 true removal (Ok 204) [] Hid) as (H1 & _ & H2 & _).
  destruct (H2 204 eq_refl eq_refl eq_refl ltac:(by apply (bool_decide_unpack _))) as (row & H & _).
  exists row. split; [unfold at_noon; destruct (audit_dispatch _ _ _ _ _ _ _) as [a b]; cbn [fst snd] in *; by rewrite H1, H|].
  assert (E : snd (at_noon removal (Ok 204) []) = [row]) by exact H. vm_compute in E. injection E as <-. split; reflexivity.
Defined.
Definition search (term : string) : Request :=
  mkRequest "GET" "/entities" (Some "/entities") [("q", term); ("limit", "501"); ("skip", "0")] (Some with_session) None.
Lemma query_values_hidden_witness :
  at_noon (search "Ada Lovelace") (Ok 200) [] = at_noon (search "Noether") (Ok 200) [] /\
  map (fun r => al_details r) (snd (at_noon (search "Noether") (Ok 200) [])) =
    [Some (std_json (JObj [("query_keys", JArr [JStr "limit"; JStr "q"; JStr "skip"]); ("limit", JInt 501); ("skip", JInt 0)]))].
Proof. split; [by apply (query_values_hidden std_json user_names 1200 true (search "Noether") (search "Ada Lovelace") (Ok 200) [])|vm_compute; reflexivity]. Defined.

Definition logged (i u t : Z) : AuditRow :=
  mkAuditRow i (Some "entity.delete") (Some "entity") (Some 5) (Some u) None None None None None None None None (Some t).
Definition eva : User := mkUser 3 "viewer" (Some 7).
Definition bob : User := mkUser 4 "editor" (Some 7).
Definition ex_center : Center := mkCenter [logged 1 9 10; logged 2 9 20] [] [].
Definition ex_center_calls : list CenterCall := [ReadOne 2 eva; Append (logged 3 9 30); ReadAll 40 bob; ReadOne 1 bob; Append (logged 4 9 50)].
Lemma read_stays_read_witness :
  let c := center_history (ReadOne 1 eva :: ex_center_calls) ex_center in
  fst (get_unread_count eva (clean c)) = Ok 2 /\ fst (get_unread_count bob (clean c)) = Ok 1 /\ read_now 3 c (logged 1 9 10) = true.
Proof.
  set (c1 := center_call ex_center (ReadOne 1 eva)).
  destruct (read_stays_read ex_center_calls c1 3) as [H _].
  - by repeat constructor.
  - vm_compute. repeat (split; try done); repeat constructor; discriminate.
  - split; [vm_compute; reflexivity|]. split; [vm_compute; reflexivity|].
    destruct (H (logged 1 9 10)) as [_ Hr]; [by left|vm_compute; reflexivity|exact Hr].
Defined.

(** ** Where they part from what they say *)
(** The centre shows the log of the whole platform: neither the organisation nor
    the role of the reader matters. *)
Lemma center_ignores_organisation skip limit action user user' c : user_id user = user_id user' ->
  get_notification_center skip limit action user (clean c) = get_notification_center skip limit action user' (clean c).
Proof. intros E. unfold get_notification_center. by rewrite E. Qed.
Lemma viewer_sees_other_tenants :
  match fst (get_notification_center 0 50 None eva (clean ex_center)) with Ok f => map (fun it => al_user it.1) (fd_items f) = [Some 9; Some 9] | _ => False end.
Proof. by vm_compute. Qed.
(** A row is promised for every successful mutating request: a refused one leaves
    one too, and one that fails with an exception of the application none. *)
Lemma refused_request_is_logged :
  map shown (snd (at_noon removal (Ok 403) [])) = [(Some "DELETE", Some "entity", Some 42, Some "/entities/42/", Some 403, None)] /\
  snd (at_noon removal (Raise (Exn "RuntimeError" "after its commit")) []) = [].
Proof. by vm_compute. Qed.
(** Paging is recognised by the names skip and limit: a sweep by page and size
    is not audited. *)
Lemma sweep_by_page_is_not_audited :
  read_audit_class "GET" "/webhooks/{webhook_id}/deliveries" [("page", "40"); ("size", "100")] (Some with_session) = None /\
  read_audit_class "GET" "/entities" [("skip", "100"); ("limit", "20")] (Some with_session) = Some READ.
Proof. by vm_compute. Qed.
