(* ===== verification/Notifications.v ===== *)
(** * Outbound notifications
      (src/backend/notifications/emit.py, alert_sender.py, email_sender.py,
      routers/alert_channels.py, routers/webhooks.py, routers/deps.py,
      routers/notifications.py, encryption.py)

    The taxonomy of events, the three outbound sinks (webhooks, alert channels,
    mail) as functions from the database to the database and the messages that
    leave, and the endpoints that configure them. [net]: the outside of the
    senders ([Network]): the status a server answers a message with, if any, what
    can be read of the answer, how long it took, and whether the database takes a
    row that records it; [smtp]: whether a mail is taken. Fernet, HMAC and the
    form encoding are parameters. An em dash is written as a hyphen,
    the ellipsis as a full stop. *)
From S2P Require Import Prelude PyStr PyJson PyValue TenantAccess JobsApi Entities Transform AuditTrail.
From Stdlib Require Import Ascii String.

Local Open Scope string_scope.
Local Open Scope list_scope.
Local Open Scope Z_scope.
Local Open Scope py_scope.

(** * Events *)
Definition ALL_EVENTS : list (string * string * string) :=
  [("entities.imported", "Entities imported", "New entities added from file upload or store pull");
   ("enrichment.completed", "Enrichment completed", "Background enrichment pass finished for a domain");
   ("harmonization.applied", "Harmonization applied", "Harmonization rules applied to the dataset");
   ("quality.low", "Low quality alert", "Domain avg quality score drops below threshold");
   ("report.sent", "Report delivered", "Scheduled report successfully sent by email");
   ("report.failed", "Report delivery failed", "Scheduled report email delivery failed");
   ("import.scheduled", "Scheduled import done", "Scheduled store import completed");
   ("ops.check_failed", "Operational check failed", "Operational checks detected a degraded or critical runtime state");
   ("disambiguation.resolved", "Disambiguation resolved", "AI disambiguation resolved entity clusters")].
Definition ALL_EVENT_IDS : list string := map (fun e => e.1.1) ALL_EVENTS.
Definition ACTION_TO_ALERT_EVENT : list (string * string) :=
  [("upload", "entities.imported"); ("pull", "entities.imported"); ("scheduled_pull", "import.scheduled"); ("harmonization.apply", "harmonization.applied")].
Inductive Toggle := NotifyOnAuthorityConfirm | NotifyOnEnrichmentBatch.
Definition email_toggle_for (action : string) : option Toggle :=
  if bool_decide (action = "authority.confirm") then Some NotifyOnAuthorityConfirm
  else if bool_decide (action = "enrichment.completed") then Some NotifyOnEnrichmentBatch else None.
Definition resolve_alert_event (action : string) : option string :=
  match dict_get action ACTION_TO_ALERT_EVENT with
  | Some e => Some e
  | None => if bool_decide (action ∈ ALL_EVENT_IDS) then Some action else None
  end.
Definition EVENT_LABELS : list (string * string) := map (fun e => (e.1.1, e.1.2)) ALL_EVENTS.
Definition alert_message_for (action : string) : string :=
  let event := match resolve_alert_event action with Some e => e | None => action end in
  match dict_get event EVENT_LABELS with Some l => l | None => title (replace_all "_" " " (replace_all "." " " event)) end.
Definition nl : string := String (ascii_of_N 10) "".
Definition build_email_message (action : string) (payload : list (string * json)) : string * string :=
  let headline := alert_message_for action in
  (("UKIP: " ++ headline)%string, join nl ([headline; ""] ++ map (fun kv => ("- " ++ kv.1 ++ ": " ++ py_str kv.2)%string) payload)).

(** * Rows and messages *)
Record Channel := mkChannel {
  ac_id : Z; ac_org : option Z; ac_name : string; ac_type : string; ac_url : string; ac_events : string; ac_active : bool;
  ac_last : option Z; ac_status : option string; ac_total : Z }.
Record Webhook := mkHook {
  wh_id : Z; wh_url : string; wh_events : string; wh_secret : option string; wh_active : bool; wh_last : option Z; wh_status : option Z }.
Record Delivery := mkDelivery {
  dl_hook : Z; dl_event : string; dl_url : string; dl_status : Z; dl_body : option string; dl_latency : Z; dl_error : option string;
  dl_success : bool; dl_at : Z }.
Record Settings := mkSettings {
  se_host : option string; se_port : option Z; se_user : option string; se_password : string; se_from : option string; se_to : option string;
  se_enabled : option bool; se_on_batch : option bool; se_on_confirm : option bool }.
Record NDb := mkN { nchannels : list Channel; hooks : list Webhook; deliveries : list Delivery; settings : option Settings; channel_seq : Z; hook_seq : Z }.
Inductive Message :=
  | Post (url : string) (headers : list (string * string)) (body : string)
  | Form (url body : string)
  | Mail (to : string) (from : option string) (subject body : string).

(** [answer]: the status a server answers with, [None] when there is none;
    [preview]: the first 500 bytes of the answer, decoded, [None] when reading
    them fails; [problem]: the text of the exception; [took]: milliseconds;
    [storable]: whether the database takes the row at the commit (it holds what a
    server chose to answer: a null character in it is refused). *)
Record Network := mkNetwork {
  answer :> Message -> option Z; preview : Message -> option string; problem : Message -> string; took : Message -> Z;
  storable : Delivery -> bool }.

Definition channel_model : Model Channel := mkModel "AlertChannel" ac_id (Some ac_org).
Definition with_channels (f : list Channel -> list Channel) (d : NDb) : NDb := mkN (f (nchannels d)) (hooks d) (deliveries d) (settings d) (channel_seq d) (hook_seq d).
Definition with_hooks (f : list Webhook -> list Webhook) (d : NDb) : NDb := mkN (nchannels d) (f (hooks d)) (deliveries d) (settings d) (channel_seq d) (hook_seq d).
Definition add_delivery (x : Delivery) (d : NDb) : NDb := mkN (nchannels d) (hooks d) (deliveries d ++ [x]) (settings d) (channel_seq d) (hook_seq d).

(** [x in v] on a decoded value. *)
Definition py_in (x : string) (v : json) : res bool :=
  match v with
  | JArr l => Ok (existsb (fun y => bool_decide (y = JStr x)) l)
  | JObj m => Ok (bool_decide (x ∈ dict_keys m))
  | JStr s => Ok (contains x s)
  | _ => Raise (Exn "TypeError" ("argument of type '" ++ type_name v ++ "' is not iterable"))
  end.
(** [json.loads(events or "[]")], an empty list when it does not parse. *)
Definition events_of (events : string) : json := match loads (if truthy events then events else "[]") with Some v => v | None => JArr [] end.
Definition ok_status (status : Z) : bool := (200 <=? status) && (status <? 300).

Section sending.
Context (net : Network) (smtp : Settings -> Message -> bool) (decrypt encrypt : string -> string)
  (hmac_sha256 : string -> string -> string) (urlencode : list (string * string) -> string).

(** * Alert channels (alert_sender.py) *)
Definition PUSHOVER_API : string := "https://api.pushover.net/1/messages.json".
Definition PUSHOVER_MESSAGE_LIMIT : nat := 1024.
Definition PUSHOVER_PRIORITIES : list (string * (Z * option (Z * Z))) :=
  [("page", (2, Some (60, 3600))); ("test", (2, Some (30, 60))); ("urgent", (1, None)); ("info", (0, None))].
Definition SEVERITY_PREFIX : list (string * string) := [("page", "[PAGE] "); ("urgent", "[URGENT] ")].
Definition USER_AGENT : string * string := ("User-Agent", "UKIP-Alerts/1.0").
Definition pushover_credentials (decrypted : string) : option (string * string) :=
  match loads decrypted with
  | Some (JObj m) =>
      match dict_get "token" m, dict_get "user" m with
      | Some (JStr t), Some (JStr u) => if truthy t && truthy u then Some (t, u) else None
      | _, _ => None
      end
  | _ => None
  end.
Definition detail (k : string) (details : list (string * json)) : json := match dict_get k details with Some v => v | None => JNull end.
Definition ELLIPSIS : string := ".".
Definition clip (body : string) : string :=
  if (PUSHOVER_MESSAGE_LIMIT <? String.length body)%nat then (take_str (PUSHOVER_MESSAGE_LIMIT - 1) body ++ ELLIPSIS)%string else body.
Definition build_pushover_fields (token user event message : string) (details : list (string * json)) : list (string * string) :=
  let severity := if py_true (detail "severity" details) then py_str (detail "severity" details) else "info" in
  let '(priority, repeat) := match dict_get severity PUSHOVER_PRIORITIES with Some p => p | None => (0, None) end in
  let lines := message :: map (fun kv => (kv.1 ++ ": " ++ py_str kv.2)%string) (List.filter (fun kv => negb (bool_decide (kv.1 = "severity"))) details) in
  [("token", token); ("user", user); ("title", ("UKIP - " ++ event)%string); ("message", clip (join nl lines)); ("priority", str_of_Z priority)]
  ++ match repeat with Some (retry, expire) => [("retry", str_of_Z retry); ("expire", str_of_Z expire)] | None => [] end.
Definition text_block (ty text : string) : json := JObj [("type", JStr ty); ("text", JStr text)].
Definition build_slack_payload (event message : string) (details : list (string * json)) : json :=
  let head := (":bell: *UKIP - " ++ message ++ "*")%string in
  JObj [("text", JStr head);
        ("blocks", JArr ([JObj [("type", JStr "section"); ("text", text_block "mrkdwn" head)]]
           ++ match details with
              | [] => []
              | _ => [JObj [("type", JStr "section"); ("fields", JArr (map (fun kv => text_block "mrkdwn" ("*" ++ kv.1 ++ "*" ++ nl ++ py_str kv.2)) details))]]
              end
           ++ [JObj [("type", JStr "context"); ("elements", JArr [text_block "mrkdwn" ("Event: `" ++ event ++ "`")])]]))].
Definition build_teams_payload (event message : string) (details : list (string * json)) : json :=
  JObj [("@type", JStr "MessageCard"); ("@context", JStr "https://schema.org/extensions"); ("themeColor", JStr "6366f1"); ("summary", JStr message);
        ("sections", JArr [JObj [("activityTitle", JStr ("UKIP - " ++ message)); ("activitySubtitle", JStr ("Event: " ++ event));
                                 ("facts", JArr (map (fun kv => JObj [("name", JStr kv.1); ("value", JStr (py_str kv.2))]) details)); ("markdown", JBool true)]])].
Definition build_discord_payload (event message : string) (details : list (string * json)) : json :=
  JObj [("embeds", JArr [JObj [("title", JStr ("UKIP - " ++ message)); ("color", JInt 6514417);
                               ("fields", JArr (map (fun kv => JObj [("name", JStr kv.1); ("value", JStr (py_str kv.2)); ("inline", JBool true)]) details));
                               ("footer", JObj [("text", JStr ("Event: " ++ event))])]])].
Definition build_generic_payload (event message : string) (details : list (string * json)) : json :=
  JObj [("event", JStr event); ("message", JStr message); ("details", JObj details)].
Definition build_payload (channel_type event message : string) (details : list (string * json)) : json :=
  if bool_decide (channel_type = "slack") then build_slack_payload event message details
  else if bool_decide (channel_type = "teams") then build_teams_payload event message details
  else if bool_decide (channel_type = "discord") then build_discord_payload event message details
  else build_generic_payload event message details.
(** What is sent, if anything. *)
Definition alert_of (channel_type encrypted event message : string) (details : list (string * json)) : option Message :=
  let url := if truthy encrypted then decrypt encrypted else "" in
  if negb (truthy url) then None
  else if bool_decide (channel_type = "pushover") then
    match pushover_credentials url with
    | None => None
    | Some (t, u) => Some (Form PUSHOVER_API (urlencode (build_pushover_fields t u event message details)))
    end
  else
    let message := ((match dict_get (py_str (detail "severity" details)) SEVERITY_PREFIX with Some p => p | None => "" end) ++ message)%string in
    Some (Post url [("Content-Type", "application/json"); USER_AGENT] (dumps false (build_payload channel_type event message details))).
(** [urlopen]: the status, unless the server cannot be reached or answers
    outside 2xx, which the library turns into an exception. *)
Definition urlopen (m : Message) : option Z := match net m with Some s => if ok_status s then Some s else None | None => None end.
Definition answered (m : Message) : bool := match urlopen m with Some s => ok_status s | None => false end.
Definition fire_alert (channel_type encrypted event message : string) (details : list (string * json)) : bool * list Message :=
  match alert_of channel_type encrypted event message details with Some m => (answered m, [m]) | None => (false, []) end.
Definition fired (now : Z) (ok : bool) (c : Channel) : Channel :=
  mkChannel (ac_id c) (ac_org c) (ac_name c) (ac_type c) (ac_url c) (ac_events c) (ac_active c) (Some now) (Some (if ok then "ok" else "error")) (ac_total c + 1).
Fixpoint fire_channels (now : Z) (event message : string) (details : list (string * json)) (cs : list Channel) : res (list Channel) * list Message :=
  match cs with
  | [] => (Ok [], [])
  | c :: cs =>
      let rest := fire_channels now event message details cs in
      if negb (ac_active c) then (let? l := rest.1 in Ok (c :: l), rest.2)
      else
        match py_in event (events_of (ac_events c)) with
        | Raise e => (Raise e, [])
        | Ok false => (let? l := rest.1 in Ok (c :: l), rest.2)
        | Ok true =>
            let '(ok, out) := fire_alert (ac_type c) (ac_url c) event message details in
            (let? l := rest.1 in Ok (fired now ok c :: l), out ++ rest.2)
        end
  end.
Definition dispatch_event (now : Z) (event message : string) (details : list (string * json)) (d : NDb) : res NDb * list Message :=
  let '(r, out) := fire_channels now event message details (nchannels d) in
  (let? l := r in Ok (with_channels (fun _ => l) d), out).
Definition resolve_and_dispatch (now : Z) (action : string) (payload : list (string * json)) (message : string) (d : NDb) : NDb * list Message :=
  match resolve_alert_event action with
  | None => (d, [])
  | Some event => let '(r, out) := dispatch_event now event message payload d in (match r with Ok d' => d' | Raise _ => d end, out)
  end.

(** * Mail (email_sender.py) *)
Definition opt_str (o : option string) : string := match o with Some s => s | None => "" end.
Definition mail_from (s : Settings) : option string := if truthy (opt_str (se_from s)) then se_from s else se_user s.
Definition is_true (o : option bool) : bool := match o with Some b => b | None => false end.
Definition send_plain_email (s : Settings) (to_address subject body : string) : bool * list Message :=
  if negb (is_true (se_enabled s)) then (false, [])
  else if negb (truthy to_address) || negb (truthy (opt_str (se_host s))) then (false, [])
  else let m := Mail to_address (mail_from s) subject body in (smtp s m, if smtp s m then [m] else []).
Definition send_notification (s : Settings) (subject body : string) : bool * list Message :=
  if negb (truthy (opt_str (se_to s))) then (false, []) else send_plain_email s (opt_str (se_to s)) subject body.
Definition toggle_of (t : Toggle) (s : Settings) : option bool :=
  match t with NotifyOnAuthorityConfirm => se_on_confirm s | NotifyOnEnrichmentBatch => se_on_batch s end.
Definition run_email_dispatch (action : string) (payload : list (string * json)) (d : NDb) : list Message :=
  match email_toggle_for action with
  | None => []
  | Some t =>
      match settings d with
      | None => []
      | Some s =>
          if negb (is_true (se_enabled s)) || negb (is_true (toggle_of t s)) then []
          else let '(subject, body) := build_email_message action payload in (send_notification s subject body).2
      end
  end.

(** * Webhooks (routers/deps.py) *)
Fixpoint any_subscribed (action : string) (hs : list Webhook) : res bool :=
  match hs with
  | [] => Ok false
  | h :: hs =>
      if negb (wh_active h) then any_subscribed action hs
      else let? b := py_in action (events_of (wh_events h)) in if b then Ok true else any_subscribed action hs
  end.
Definition has_subscribers (action : string) (d : NDb) : res bool := any_subscribed action (hooks d).
(** [urllib.request.Request(url)]: the address without blanks, brackets and
    fragment needs a scheme, one character or more before the first colon, no
    slash among them. *)
Definition unwrap (url : string) : string :=
  let u := strip url in
  let u := if startswith u "<" && endswith u ">" then strip (of_chars (removelast (tail (chars u)))) else u in
  if startswith u "URL:" then strip (drop_str 4 u) else u.
Definition splittag (url : string) : string :=
  match rev (split_on "#" url) with [] | [_] => url | _ :: before => join "#" (rev before) end.
Definition has_scheme (url : string) : bool :=
  let l := chars (splittag (unwrap url)) in
  let scheme := take_while (fun c => negb (bool_decide (c = "/"%char)) && negb (bool_decide (c = ":"%char))) l in
  match scheme, drop_while (fun c => negb (bool_decide (c = "/"%char)) && negb (bool_decide (c = ":"%char))) l with
  | _ :: _, ":"%char :: _ => true
  | _, _ => false
  end.
Definition urllib_request (url : string) : res unit := if has_scheme url then Ok tt else Raise (Exn "ValueError" ("unknown url type: '" ++ unwrap url ++ "'")).
Definition hook_body (action : string) (payload : list (string * json)) : string := dumps false (JObj [("event", JStr action); ("data", JObj payload)]).
Definition hook_message (h : Webhook) (action : string) (payload : list (string * json)) : Message :=
  let body := hook_body action payload in
  Post (wh_url h) ([("Content-Type", "application/json"); ("X-UKIP-Event", action)]
    ++ match wh_secret h with Some s => if truthy s then [("X-UKIP-Signature", ("sha256=" ++ hmac_sha256 s body)%string)] else [] | None => [] end) body.
Definition hook_status (m : Message) : Z := match urlopen m with Some s => s | None => 0 end.
Definition triggered (now status : Z) (h : Webhook) : Webhook :=
  mkHook (wh_id h) (wh_url h) (wh_events h) (wh_secret h) (wh_active h) (Some now) (Some status).
(** What is kept of the answer: its first bytes, or why there is none. *)
Definition kept_answer (m : Message) : option string * option string :=
  let failed := (None, Some (take_str 500 (problem net m))) in
  match urlopen m with
  | Some _ => match preview net m with Some text => (Some text, None) | None => failed end
  | None => failed
  end.
Definition delivery_of (now : Z) (action : string) (payload : list (string * json)) (h : Webhook) : Delivery :=
  let m := hook_message h action payload in
  let status := hook_status m in
  let '(body, error) := kept_answer m in
  mkDelivery (wh_id h) action (wh_url h) status body (took net m) error (ok_status status) now.
Fixpoint deliver_all (now : Z) (action : string) (payload : list (string * json)) (hs : list Webhook) : res (list Webhook * list Delivery) * list Message :=
  match hs with
  | [] => (Ok ([], []), [])
  | h :: hs =>
      let rest := deliver_all now action payload hs in
      let skipped := (let? r := rest.1 in Ok (h :: r.1, r.2), rest.2) in
      if negb (wh_active h) then skipped
      else
        match py_in action (events_of (wh_events h)) with
        | Raise e => (Raise e, [])
        | Ok false => skipped
        | Ok true =>
            match urllib_request (wh_url h) with
            | Raise e => (Raise e, [])
            | Ok _ =>
                let m := hook_message h action payload in
                (let? r := rest.1 in Ok (triggered now (hook_status m) h :: r.1, delivery_of now action payload h :: r.2), m :: rest.2)
            end
        end
  end.
(** The worker: nothing is stored when it raises or when the commit refuses a row. *)
Definition worker (now : Z) (action : string) (payload : list (string * json)) (d : NDb) : NDb * list Message :=
  let '(r, out) := deliver_all now action payload (hooks d) in
  (match r with
   | Ok (hs, ds) =>
       if forallb (storable net) ds then mkN (nchannels d) hs (deliveries d ++ ds) (settings d) (channel_seq d) (hook_seq d) else d
   | Raise _ => d
   end, out).
Definition dispatch_webhook (now : Z) (action : string) (payload : list (string * json)) (d : NDb) : NDb * list Message :=
  match has_subscribers action d with Ok false => (d, []) | _ => worker now action payload d end.
Definition dispatch_webhook_sync (now : Z) (action : string) (payload : list (string * json)) (h : Webhook) (d : NDb) : res (Delivery * NDb) * list Message :=
  match urllib_request (wh_url h) with
  | Raise e => (Raise e, [])
  | Ok _ =>
      let m := hook_message h action payload in
      let x := delivery_of now action payload h in
      (if storable net x then Ok (x, add_delivery x (with_hooks (map (fun h' => if wh_id h' =? wh_id h then triggered now (hook_status m) h' else h')) d))
       else Raise (Exn "DataError" "webhook_deliveries"), [m])
  end.

(** * One event to every outbound sink (emit.py): three workers, in the order
      they are started *)
Definition emit_outbound (now : Z) (action : string) (payload : list (string * json)) (alert_message : option string) (d : NDb) : NDb * list Message :=
  let '(d1, posted) := dispatch_webhook now action payload d in
  let message := match alert_message with Some m => if truthy m then m else alert_message_for action | None => alert_message_for action end in
  let '(d2, alerted) := resolve_and_dispatch now action payload message d1 in
  (d2, posted ++ alerted ++ run_email_dispatch action payload d2).

(** * The endpoints of the alert channels (routers/alert_channels.py) *)
Definition ADMINS : list string := ["super_admin"; "admin"].
Definition VALID_TYPES : list string := ["slack"; "teams"; "discord"; "webhook"; "pushover"].
Definition key_char (c : ascii) : bool := ((48 <=? code c) && (code c <=? 57) || (65 <=? code c) && (code c <=? 90) || (97 <=? code c) && (code c <=? 122))%N.
(** [re.match] of thirty letters and digits and the end of the text, or a last
    line feed. *)
Definition pushover_key (s : string) : bool :=
  let l := chars s in
  forallb key_char (firstn 30 l) && (Nat.eqb (List.length l) 30 || bool_decide (skipn 30 l = chars nl)).
Definition given_str (o : option string) : bool := truthy (opt_str o).
Definition pushover_destination (token user : option string) : res string :=
  if negb (given_str token) || negb (given_str user) then Raise (HTTPException 422 "Pushover needs pushover_token and pushover_user")
  else if negb (pushover_key (opt_str token)) || negb (pushover_key (opt_str user))
  then Raise (HTTPException 422 "Pushover token and user key are 30 letters and digits, as Pushover issues them")
  else Ok (encrypt (dumps false (JObj [("token", JStr (opt_str token)); ("user", JStr (opt_str user))]))).
Definition optional {A} (p : A -> bool) (o : option A) : bool := match o with Some x => p x | None => true end.
Definition len_between (lo hi : nat) (s : string) : bool := (lo <=? String.length s)%nat && (String.length s <=? hi)%nat.
Record ChannelCreate := mkCC { cc_name : string; cc_type : string; cc_url : option string; cc_token : option string; cc_user : option string; cc_events : list string }.
Record ChannelUpdate := mkCU {
  cu_name : option string; cu_type : option string; cu_url : option string; cu_token : option string; cu_user : option string;
  cu_events : option (list string); cu_active : option bool }.
(** What the request schemas let through. *)
Definition valid_create (p : ChannelCreate) : bool :=
  len_between 1 200 (cc_name p) && bool_decide (cc_type p ∈ VALID_TYPES) && optional (len_between 10 2000) (cc_url p)
  && optional (len_between 0 64) (cc_token p) && optional (len_between 0 64) (cc_user p)
  && (bool_decide (cc_type p = "pushover") || given_str (cc_url p)).
Definition valid_update (p : ChannelUpdate) : bool :=
  optional (len_between 1 200) (cu_name p) && optional (fun t => bool_decide (t ∈ VALID_TYPES)) (cu_type p) && optional (len_between 10 2000) (cu_url p)
  && optional (len_between 0 64) (cu_token p) && optional (len_between 0 64) (cu_user p).
Definition unknown_events (events : list string) : list string := List.filter (fun e => negb (bool_decide (e ∈ ALL_EVENT_IDS))) events.
Definition dump_events (events : list string) : string := dumps false (JArr (map JStr events)).
Definition check_events (suffix : string) (events : list string) : res unit :=
  match unknown_events events with [] => Ok tt | l => Raise (HTTPException 422 ("Unknown events: " ++ py_str (JArr (map JStr l)) ++ suffix)) end.
Definition VALID_SUFFIX : string := (". Valid: " ++ py_str (JArr (map JStr (sort_by str_le ALL_EVENT_IDS))))%string.
Record ChannelView := mkCV { cv_id : Z; cv_name : string; cv_type : string; cv_events : json; cv_active : bool; cv_last : option Z; cv_status : option string; cv_total : Z }.
Definition serialize_channel (c : Channel) : res ChannelView :=
  let view v := mkCV (ac_id c) (ac_name c) (ac_type c) v (ac_active c) (ac_last c) (ac_status c) (ac_total c) in
  if truthy (ac_events c) then match loads (ac_events c) with Some v => Ok (view v) | None => Raise (Exn "JSONDecodeError" (ac_events c)) end
  else Ok (view (JArr [])).
Definition serialize_all (l : list Channel) : res (list ChannelView) :=
  fold_right (fun c acc => let? v := serialize_channel c in let? vs := acc in Ok (v :: vs)) (Ok []) l.

Section channel_endpoints.
Context (t : Tenants) (u : User).
Definition find_channel (id : Z) (d : NDb) : res Channel :=
  let? org_id := resolve_request_org_id t u true true in
  let? found := get_scoped_record channel_model (nchannels d) id org_id in
  match found with Some c => Ok c | None => Raise (HTTPException 404 "Alert channel not found") end.
Definition new_channel (p : ChannelCreate) (d : NDb) : res Channel :=
  let? _ := require_role ADMINS u in
  let? _ := check_events VALID_SUFFIX (cc_events p) in
  let? org_id := resolve_request_org_id t u true true in
  let? destination := if bool_decide (cc_type p = "pushover") then pushover_destination (cc_token p) (cc_user p) else Ok (encrypt (opt_str (cc_url p))) in
  Ok (mkChannel (channel_seq d) (persisted_org_id org_id) (strip (cc_name p)) (cc_type p) destination (dump_events (cc_events p)) true None None 0).
Definition create_alert_channel (p : ChannelCreate) (d : NDb) : res ChannelView * NDb :=
  match new_channel p d with
  | Raise e => (Raise e, d)
  | Ok c => (serialize_channel c, mkN (nchannels d ++ [c]) (hooks d) (deliveries d) (settings d) (channel_seq d + 1) (hook_seq d))
  end.
Definition list_alert_channels (d : NDb) : res (list ChannelView) :=
  let? _ := require_role ADMINS u in
  let? org_id := resolve_request_org_id t u true true in
  let? rows := scope_query_to_org channel_model (nchannels d) org_id in
  serialize_all (sort_by (fun a b => ac_id b <=? ac_id a) rows).
Definition get_alert_channel (id : Z) (d : NDb) : res ChannelView :=
  let? _ := require_role ADMINS u in let? c := find_channel id d in serialize_channel c.
Definition put_channel (c : Channel) : NDb -> NDb := with_channels (map (fun c' => if ac_id c' =? ac_id c then c else c')).
Definition new_destination (p : ChannelUpdate) (new_type : string) (c : Channel) : res string :=
  if bool_decide (new_type = "pushover") then
    if match cu_token p, cu_user p with None, None => negb (bool_decide (ac_type c = "pushover")) | _, _ => true end
    then pushover_destination (cu_token p) (cu_user p) else Ok (ac_url c)
  else match cu_url p with
       | Some url => Ok (encrypt url)
       | None => if bool_decide (ac_type c = "pushover") then Raise (HTTPException 422 "webhook_url is required for this channel type") else Ok (ac_url c)
       end.
Definition updated_channel (id : Z) (p : ChannelUpdate) (d : NDb) : res Channel :=
  let? _ := require_role ADMINS u in
  let? c := find_channel id d in
  let name := match cu_name p with Some n => strip n | None => ac_name c end in
  let new_type := match cu_type p with Some ty => ty | None => ac_type c end in
  let? url := new_destination p new_type c in
  let? events := match cu_events p with Some es => let? _ := check_events "" es in Ok (dump_events es) | None => Ok (ac_events c) end in
  let active := match cu_active p with Some b => b | None => ac_active c end in
  Ok (mkChannel (ac_id c) (ac_org c) name new_type url events active (ac_last c) (ac_status c) (ac_total c)).
Definition update_alert_channel (id : Z) (p : ChannelUpdate) (d : NDb) : res ChannelView * NDb :=
  match updated_channel id p d with Raise e => (Raise e, d) | Ok c => (serialize_channel c, put_channel c d) end.
Definition delete_alert_channel (id : Z) (d : NDb) : res NDb :=
  let? _ := require_role ADMINS u in
  let? c := find_channel id d in
  Ok (with_channels (List.filter (fun c' => negb (ac_id c' =? ac_id c))) d).
Definition test_alert_channel (id : Z) (d : NDb) : res bool * list Message :=
  match let? _ := require_role ADMINS u in find_channel id d with
  | Raise e => (Raise e, [])
  | Ok c =>
      let details := [("channel", JStr (ac_name c)); ("type", JStr (ac_type c)); ("status", JStr "This is a test message")]
                     ++ (if bool_decide (ac_type c = "pushover") then [("severity", JStr "test")] else []) in
      let '(ok, out) := fire_alert (ac_type c) (ac_url c) "test" "UKIP Alert Channel Test" details in (Ok ok, out)
  end.
End channel_endpoints.

(** * The endpoints of the webhooks (routers/webhooks.py) *)
Record HookCreate := mkHC { hc_url : string; hc_events : list string; hc_secret : option string }.
Record HookUpdate := mkHU { hu_url : option string; hu_events : option (list string); hu_secret : option string; hu_active : option bool }.
Definition count_between {A} (lo hi : nat) (l : list A) : bool := (lo <=? List.length l)%nat && (List.length l <=? hi)%nat.
Definition valid_hook_create (p : HookCreate) : bool :=
  len_between 8 2048 (hc_url p) && count_between 1 20 (hc_events p) && optional (len_between 0 256) (hc_secret p).
Definition valid_hook_update (p : HookUpdate) : bool :=
  optional (len_between 8 2048) (hu_url p) && optional (count_between 1 20) (hu_events p) && optional (len_between 0 256) (hu_secret p).
Record HookView := mkHV { hv_id : Z; hv_url : string; hv_events : json; hv_active : bool; hv_last : option Z; hv_status : option Z }.
Definition serialize_webhook (h : Webhook) : HookView := mkHV (wh_id h) (wh_url h) (events_of (wh_events h)) (wh_active h) (wh_last h) (wh_status h).
Section hook_endpoints.
Context (u : User).
Definition get_hook (id : Z) (d : NDb) : res Webhook :=
  let? _ := require_role ADMINS u in
  match List.find (fun h => wh_id h =? id) (hooks d) with Some h => Ok h | None => Raise (HTTPException 404 "Webhook not found") end.
Definition create_webhook (p : HookCreate) (d : NDb) : res (HookView * NDb) :=
  let? _ := require_role ADMINS u in
  let h := mkHook (hook_seq d) (hc_url p) (dump_events (hc_events p)) (hc_secret p) true None None in
  Ok (serialize_webhook h, mkN (nchannels d) (hooks d ++ [h]) (deliveries d) (settings d) (channel_seq d) (hook_seq d + 1)).
Definition list_webhooks (d : NDb) : res (list HookView) :=
  let? _ := require_role ADMINS u in Ok (map serialize_webhook (sort_by (fun a b => wh_id a <=? wh_id b) (hooks d))).
Record HookStats := mkHookStats { hs_total : Z; hs_active : Z; hs_inactive : Z; hs_failing : Z; hs_deliveries : Z }.
Definition failing (h : Webhook) : bool := wh_active h && match wh_status h with Some s => negb ((200 <=? s) && (s <=? 299)) | None => false end.
Definition webhook_stats (d : NDb) : res HookStats :=
  let? _ := require_role ADMINS u in
  let total := Z.of_nat (List.length (hooks d)) in
  let active := count_where wh_active (hooks d) in
  Ok (mkHookStats total active (total - active) (count_where failing (hooks d)) (Z.of_nat (List.length (deliveries d)))).
Definition get_webhook (id : Z) (d : NDb) : res HookView := let? h := get_hook id d in Ok (serialize_webhook h).
Definition apply_hook_update (p : HookUpdate) (h : Webhook) : Webhook :=
  mkHook (wh_id h) (match hu_url p with Some x => x | None => wh_url h end) (match hu_events p with Some es => dump_events es | None => wh_events h end)
    (match hu_secret p with Some x => Some x | None => wh_secret h end) (match hu_active p with Some b => b | None => wh_active h end) (wh_last h) (wh_status h).
Definition update_webhook (id : Z) (p : HookUpdate) (d : NDb) : res (HookView * NDb) :=
  let? h := get_hook id d in
  let h' := apply_hook_update p h in
  Ok (serialize_webhook h', with_hooks (map (fun x => if wh_id x =? id then h' else x)) d).
Definition delete_webhook (id : Z) (d : NDb) : res NDb :=
  let? _ := get_hook id d in
  Ok (mkN (nchannels d) (List.filter (fun h => negb (wh_id h =? id)) (hooks d)) (List.filter (fun x => negb (dl_hook x =? id)) (deliveries d))
        (settings d) (channel_seq d) (hook_seq d)).
Definition test_webhook (now : Z) (id : Z) (d : NDb) : res (Delivery * NDb) * list Message :=
  match get_hook id d with Raise e => (Raise e, []) | Ok h => dispatch_webhook_sync now "ping" [("message", JStr "UKIP webhook test")] h d end.
Definition list_deliveries (id page size : Z) (d : NDb) : res (Z * list Delivery) :=
  let? _ := get_hook id d in
  let q := List.filter (fun x => dl_hook x =? id) (deliveries d) in
  Ok (Z.of_nat (List.length q), firstn (Z.to_nat size) (skipn (Z.to_nat ((page - 1) * size)) (sort_by (fun a b => dl_at b <=? dl_at a) q))).
End hook_endpoints.

(** * The mail settings (routers/notifications.py): one row; a field of an update
      is absent, null or a value *)
Definition default_settings : Settings := mkSettings (Some "") (Some 587) (Some "") "" (Some "") (Some "") (Some false) (Some true) (Some true).
Definition get_or_create_settings (d : NDb) : Settings * NDb :=
  match settings d with
  | Some s => (s, d)
  | None => (default_settings, mkN (nchannels d) (hooks d) (deliveries d) (Some default_settings) (channel_seq d) (hook_seq d))
  end.
Record SettingsUpdate := mkSU {
  su_host : option (option string); su_port : option (option Z); su_user : option (option string); su_password : option (option string);
  su_from : option (option string); su_to : option (option string); su_enabled : option (option bool); su_on_batch : option (option bool);
  su_on_confirm : option (option bool) }.
Record SettingsView := mkSV {
  sv_host : string; sv_port : Z; sv_user : string; sv_from : string; sv_to : string; sv_enabled : bool; sv_on_batch : bool; sv_on_confirm : bool }.
(** The response model: no field may be null. *)
Definition settings_response (s : Settings) : res SettingsView :=
  match se_host s, se_port s, se_user s, se_from s, se_to s, se_enabled s, se_on_batch s, se_on_confirm s with
  | Some h, Some p, Some us, Some f, Some r, Some e, Some b, Some c => Ok (mkSV h p us f r e b c)
  | _, _, _, _, _, _, _, _ => Raise (Exn "ValidationError" "NotificationSettingsResponse")
  end.
Definition set_or {A} (v : option A) (old : A) : A := match v with Some x => x | None => old end.
Definition apply_settings (p : SettingsUpdate) (s : Settings) : Settings :=
  let password := match su_password p with Some (Some plain) => if truthy plain then encrypt plain else se_password s | _ => se_password s end in
  mkSettings (set_or (su_host p) (se_host s)) (set_or (su_port p) (se_port s)) (set_or (su_user p) (se_user s)) password (set_or (su_from p) (se_from s))
    (set_or (su_to p) (se_to s)) (set_or (su_enabled p) (se_enabled s)) (set_or (su_on_batch p) (se_on_batch s)) (set_or (su_on_confirm p) (se_on_confirm s)).
Definition put_settings (s : Settings) (d : NDb) : NDb := mkN (nchannels d) (hooks d) (deliveries d) (Some s) (channel_seq d) (hook_seq d).
Section settings_endpoints.
Context (u : User).
Definition get_notification_settings (d : NDb) : res SettingsView * NDb :=
  match require_role ADMINS u with
  | Raise e => (Raise e, d)
  | Ok _ => let '(s, d) := get_or_create_settings d in (settings_response s, d)
  end.
Definition update_notification_settings (p : SettingsUpdate) (d : NDb) : res SettingsView * NDb :=
  match require_role ADMINS u with
  | Raise e => (Raise e, d)
  | Ok _ =>
      let '(s, d) := get_or_create_settings d in
      let s := apply_settings p s in
      (settings_response s, put_settings s d)
  end.
Definition test_notification (d : NDb) : res bool * NDb * list Message :=
  match require_role ADMINS u with
  | Raise e => (Raise e, d, [])
  | Ok _ =>
      let '(s, d) := get_or_create_settings d in
      let '(sent, out) := send_notification s "UKIP: Test Notification"
        "This is a test email from the UKIP platform. If you received this, your SMTP settings are working correctly." in
      (Ok sent, d, out)
  end.
End settings_endpoints.
End sending.
