(* ===== verification/NotificationClaims.v ===== *)
(** * Guarantees of the outbound notifications

    [reached]: what a history of requests and emitted events leaves. Its alert
    channels subscribe to events of the catalogue, so that dispatching an event
    is a map over them; webhooks deliver one row each as long as the addresses
    have a scheme and the commit takes the rows; the three workers of an event may run in any order; the
    endpoints of the alert channels stay inside the administrator's
    organisation, the dispatch does not. *)
From stdpp Require Import list.
From S2P Require Import Prelude PyStr PyJson PyValue TenantAccess JobsApi Entities Transform AuditTrail Notifications.
From Stdlib Require Import Ascii String.

Local Open Scope string_scope.
Local Open Scope list_scope.
Local Open Scope Z_scope.
Local Open Scope py_scope.

(** * What the endpoints store *)
Lemma dump_events_loads es : loads (dump_events es) = Some (JArr (map JStr es)).
Proof. apply loads_dumps, wf_strings. Qed.
Lemma dump_events_truthy es : truthy (dump_events es) = true.
Proof. done. Qed.
Lemma dump_events_of es : events_of (dump_events es) = JArr (map JStr es).
Proof. unfold events_of. by rewrite dump_events_truthy, dump_events_loads. Qed.
Lemma existsb_strings x es : existsb (fun y => bool_decide (y = JStr x)) (map JStr es) = bool_decide (x ∈ es).
Proof.
  apply eq_iff_eq_true. rewrite existsb_exists, bool_decide_eq_true. split.
  - intros (y & Hy & E). apply bool_decide_eq_true in E as ->. apply in_map_iff in Hy as (s & [= ->] & Hs). by apply list_elem_of_In.
  - intros H. exists (JStr x). split; [apply in_map_iff; exists x; split; [done|by apply list_elem_of_In]|by apply bool_decide_eq_true].
Qed.
Lemma py_in_dumped x es : py_in x (events_of (dump_events es)) = Ok (bool_decide (x ∈ es)).
Proof. rewrite dump_events_of. cbn [py_in]. by rewrite existsb_strings. Qed.

(** The list of events a row names. *)
Definition event_names (events : string) : list string :=
  match events_of events with JArr l => flat_map (fun v => match v with JStr s => [s] | _ => [] end) l | _ => [] end.
Lemma event_names_dumped es : event_names (dump_events es) = es.
Proof. unfold event_names. rewrite dump_events_of. induction es as [|e es IH]; cbn; [done|]. by rewrite IH. Qed.
Definition stored (events : string) : Prop := exists es, events = dump_events es.
Lemma py_in_stored x events : stored events -> py_in x (events_of events) = Ok (bool_decide (x ∈ event_names events)).
Proof. intros [es ->]. by rewrite py_in_dumped, event_names_dumped. Qed.

Definition subscribed (event : string) (c : Channel) : bool := ac_active c && bool_decide (event ∈ event_names (ac_events c)).
Definition hooked (action : string) (h : Webhook) : bool := wh_active h && bool_decide (action ∈ event_names (wh_events h)).
Definition catalogued (c : Channel) : Prop := exists es, ac_events c = dump_events es /\ Forall (fun e => e ∈ ALL_EVENT_IDS) es.
Record NWf (d : NDb) : Prop := {
  nw_channels : Forall catalogued (nchannels d); nw_hooks : Forall (fun h => stored (wh_events h)) (hooks d);
  nw_ids : NoDup (map ac_id (nchannels d)); nw_seq : Forall (fun c => ac_id c < channel_seq d) (nchannels d) }.
Lemma catalogued_stored c : catalogued c -> stored (ac_events c).
Proof. intros (es & -> & _). by exists es. Qed.

Section claims.
Context (net : Network) (smtp : Settings -> Message -> bool) (decrypt encrypt : string -> string)
  (hmac_sha256 : string -> string -> string) (urlencode : list (string * string) -> string).
Local Notation fire := (fire_alert net decrypt urlencode).
Local Notation hookm := (hook_message hmac_sha256).
Local Notation hook_row := (delivery_of net hmac_sha256).
Local Notation webhook_sink := (dispatch_webhook net hmac_sha256).
Local Notation alert_sink := (resolve_and_dispatch net decrypt urlencode).
Local Notation emit := (emit_outbound net smtp decrypt hmac_sha256 urlencode).

(** * Alert channels *)
Definition shot (now : Z) (event message : string) (details : list (string * json)) (c : Channel) : Channel :=
  if subscribed event c then fired now (fire (ac_type c) (ac_url c) event message details).1 c else c.
Definition shots (event message : string) (details : list (string * json)) (c : Channel) : list Message :=
  if subscribed event c then (fire (ac_type c) (ac_url c) event message details).2 else [].
Lemma fire_channels_spec now event message details cs :
  Forall (fun c => stored (ac_events c)) cs ->
  fire_channels net decrypt urlencode now event message details cs
  = (Ok (map (shot now event message details) cs), flat_map (shots event message details) cs).
Proof.
  induction 1 as [|c cs Hc _ IH]; [done|]. cbn [fire_channels map flat_map]. rewrite IH. cbn [fst snd res_bind].
  replace (shot now event message details c) with
    (if subscribed event c then fired now (fire (ac_type c) (ac_url c) event message details).1 c else c) by done.
  replace (shots event message details c) with (if subscribed event c then (fire (ac_type c) (ac_url c) event message details).2 else []) by done.
  unfold subscribed. destruct (ac_active c); cbn [negb andb]; [|done].
  rewrite (py_in_stored _ _ Hc). destruct (bool_decide _); [|done]. by destruct (fire _ _ _ _ _).
Qed.
Lemma dispatch_event_spec now event message details d :
  NWf d ->
  dispatch_event net decrypt urlencode now event message details d
  = (Ok (with_channels (map (shot now event message details)) d), flat_map (shots event message details) (nchannels d)).
Proof.
  intros [H _ _ _]. unfold dispatch_event. rewrite fire_channels_spec; [done|]. eapply Forall_impl; [exact H|]. apply catalogued_stored.
Qed.

(** * Webhooks *)
Definition addressed (h : Webhook) : Prop := has_scheme (wh_url h) = true.
Definition hit (now : Z) (action : string) (payload : list (string * json)) (h : Webhook) : Webhook :=
  if hooked action h then triggered now (hook_status net (hookm h action payload)) h else h.
Lemma any_subscribed_spec action hs :
  Forall (fun h => stored (wh_events h)) hs -> any_subscribed action hs = Ok (existsb (hooked action) hs).
Proof.
  induction 1 as [|h hs Hh _ IH]; [done|]. cbn [any_subscribed existsb]. unfold hooked at 1. rewrite IH.
  destruct (wh_active h); cbn [negb andb orb]; [|done]. rewrite (py_in_stored _ _ Hh). cbn [res_bind]. by destruct (bool_decide _).
Qed.
Lemma deliver_all_spec now action payload hs :
  Forall (fun h => stored (wh_events h)) hs -> Forall addressed (List.filter (hooked action) hs) ->
  deliver_all net hmac_sha256 now action payload hs
  = (Ok (map (hit now action payload) hs, map (hook_row now action payload) (List.filter (hooked action) hs)),
     map (fun h => hookm h action payload) (List.filter (hooked action) hs)).
Proof.
  induction 1 as [|h hs Hh _ IH]; intros Ha; [done|]. cbn [deliver_all map List.filter] in Ha |- *.
  replace (hit now action payload h) with (if hooked action h then triggered now (hook_status net (hookm h action payload)) h else h) by done.
  destruct (hooked action h) eqn:E; unfold hooked in E; destruct (wh_active h); cbn [negb andb] in E |- *; try done.
  - inversion Ha as [|?? H1 H2]; subst. rewrite (py_in_stored _ _ Hh), E. unfold urllib_request. rewrite H1. by rewrite IH.
  - rewrite (py_in_stored _ _ Hh), E. by rewrite IH.
  - by rewrite IH.
Qed.
Lemma no_hooked now action payload hs :
  existsb (hooked action) hs = false -> map (hit now action payload) hs = hs /\ List.filter (hooked action) hs = [].
Proof.
  induction hs as [|h hs IH]; cbn [existsb map List.filter]; [done|]. intros [H1 H2]%orb_false_iff.
  destruct (IH H2) as [-> ->]. unfold hit. by rewrite H1.
Qed.

(** * Histories *)
Inductive NOp :=
  | CreateChannel (t : Tenants) (u : User) (p : ChannelCreate) | UpdateChannel (t : Tenants) (u : User) (id : Z) (p : ChannelUpdate)
  | DeleteChannel (t : Tenants) (u : User) (id : Z)
  | CreateHook (u : User) (p : HookCreate) | UpdateHook (u : User) (id : Z) (p : HookUpdate) | DeleteHook (u : User) (id : Z)
  | TestHook (u : User) (now id : Z) | ReadSettings (u : User) | WriteSettings (u : User) (p : SettingsUpdate)
  | Emit (now : Z) (action : string) (payload : list (string * json)) (message : option string).
Definition kept {A} (d : NDb) (r : res (A * NDb)) : NDb := match r with Ok x => x.2 | Raise _ => d end.
Definition nexec (op : NOp) (d : NDb) : NDb :=
  match op with
  | CreateChannel t u p => (create_alert_channel encrypt t u p d).2
  | UpdateChannel t u id p => (update_alert_channel encrypt t u id p d).2
  | DeleteChannel t u id => match delete_alert_channel t u id d with Ok d' => d' | Raise _ => d end
  | CreateHook u p => kept d (create_webhook u p d)
  | UpdateHook u id p => kept d (update_webhook u id p d)
  | DeleteHook u id => match delete_webhook u id d with Ok d' => d' | Raise _ => d end
  | TestHook u now id => kept d (test_webhook net hmac_sha256 u now id d).1
  | ReadSettings u => (get_notification_settings u d).2
  | WriteSettings u p => (update_notification_settings encrypt u p d).2
  | Emit now action payload message => (emit now action payload message d).1
  end.
Definition reached (ops : list NOp) : NDb := fold_left (fun d op => nexec op d) ops (mkN [] [] [] None 1 1).

(** ** The invariant *)
Lemma check_events_ok suffix es : check_events suffix es = Ok tt -> Forall (fun e => e ∈ ALL_EVENT_IDS) es.
Proof.
  unfold check_events, unknown_events. intros H. apply Forall_forall. intros e He.
  destruct (List.filter _ es) as [|x l] eqn:E; [|done].
  destruct (decide (e ∈ ALL_EVENT_IDS)) as [|Hn]; [done|]. exfalso.
  assert (Hi : In e (List.filter (fun e => negb (bool_decide (e ∈ ALL_EVENT_IDS))) es)).
  { apply filter_In. split; [by apply list_elem_of_In|]. by rewrite bool_decide_eq_false_2. }
  by rewrite E in Hi.
Qed.
Lemma check_events_inv suffix es r : check_events suffix es = Ok r -> Forall (fun e => e ∈ ALL_EVENT_IDS) es.
Proof. destruct r. apply check_events_ok. Qed.
Lemma find_channel_in t u id d c : find_channel t u id d = Ok c -> In c (nchannels d) /\ ac_id c = id.
Proof.
  unfold find_channel, get_scoped_record. destruct (resolve_request_org_id _ _ _ _) as [r|]; [|done]. cbn [res_bind].
  rewrite (scoped_query channel_model ac_org) by done. cbn [res_bind model_id channel_model].
  destruct (List.find _ _) as [x|] eqn:E; [|done]. intros [= ->]. apply find_some in E as [H1 H2%Z.eqb_eq].
  rewrite scoped_filter in H1. apply filter_In in H1 as [H1 _]. done.
Qed.
Lemma find_channel_scope t u id d c o :
  resolve_request_org_id t u true true = Ok (Some o) -> o <> LEGACY_GLOBAL_ORG_ID -> find_channel t u id d = Ok c -> ac_org c = Some o.
Proof.
  intros Hr Ho. unfold find_channel, get_scoped_record. rewrite Hr. cbn [res_bind].
  rewrite (scoped_query channel_model ac_org) by done. cbn [res_bind model_id channel_model].
  destruct (List.find _ _) as [x|] eqn:E; [|done]. intros [= ->]. apply find_some in E as [H1 _].
  rewrite scoped_filter in H1. apply filter_In in H1 as [_ H]. unfold in_scope, org_scope_filter, is_legacy_global_scope in H.
  rewrite bool_decide_eq_false_2 in H by congruence. cbn in H. destruct (ac_org c); [|done]. by apply Z.eqb_eq in H as ->.
Qed.
Lemma new_channel_inv t u p d c :
  new_channel encrypt t u p d = Ok c ->
  ac_id c = channel_seq d /\ catalogued c /\ exists r, resolve_request_org_id t u true true = Ok r /\ ac_org c = persisted_org_id r.
Proof.
  unfold new_channel. destruct (require_role _ _); [|done]. cbn [res_bind]. destruct (check_events _ _) eqn:E; [|done]. cbn [res_bind].
  destruct (resolve_request_org_id _ _ _ _) as [r|]; [|done]. cbn [res_bind].
  destruct (if bool_decide _ then _ else _); [|done]. cbn [res_bind]. intros [= <-]. cbn. split; [done|]. split; [|by exists r].
  exists (cc_events p). split; [done|by eapply check_events_inv].
Qed.
Lemma updated_channel_inv t u id p d c' :
  updated_channel encrypt t u id p d = Ok c' ->
  exists c, find_channel t u id d = Ok c /\ ac_id c' = ac_id c /\ ac_org c' = ac_org c /\ (catalogued c -> catalogued c').
Proof.
  unfold updated_channel. destruct (require_role _ _); [|done]. cbn [res_bind]. destruct (find_channel _ _ _ _) as [c|]; [|done]. cbn [res_bind].
  destruct (new_destination _ _ _ _); [|done]. cbn [res_bind].
  destruct (cu_events p) as [es|]; cbn [res_bind].
  - destruct (check_events _ _) eqn:E; [|done]. cbn [res_bind]. intros [= <-]. exists c. cbn. repeat split. intros _.
    exists es. split; [done|by eapply check_events_inv].
  - intros [= <-]. exists c. cbn. repeat split. intros (es & H & H'). by exists es.
Qed.
Lemma deliver_all_events now action payload hs hs' ds :
  (deliver_all net hmac_sha256 now action payload hs).1 = Ok (hs', ds) -> map wh_events hs' = map wh_events hs.
Proof.
  revert hs' ds. induction hs as [|h hs IH]; intros hs' ds; [by intros [= <- <-]|]. cbn [deliver_all].
  destruct (deliver_all net hmac_sha256 now action payload hs) as [[[hs1 ds1]|e] out]; cbn [fst snd res_bind].
  2: { destruct (wh_active h); cbn [negb]; [|done]. destruct (py_in _ _) as [[]|]; [|done|done]. by destruct (urllib_request _). }
  specialize (IH _ _ eq_refl).
  destruct (wh_active h); cbn [negb].
  - destruct (py_in _ _) as [[]|]; [|intros [= <- <-]; cbn; by rewrite IH|done].
    destruct (urllib_request _); [|done]. intros [= <- <-]. cbn. by rewrite IH.
  - intros [= <- <-]. cbn. by rewrite IH.
Qed.
Definition hooks_stored (hs : list Webhook) : Prop := Forall stored (map wh_events hs).
Lemma hooks_stored_spec hs : hooks_stored hs <-> Forall (fun h => stored (wh_events h)) hs.
Proof. unfold hooks_stored. by rewrite Forall_map. Qed.
(** What a step leaves alone of what [NWf] speaks about. *)
Lemma nwf_hooks d d' :
  NWf d -> nchannels d' = nchannels d -> channel_seq d' = channel_seq d -> hooks_stored (hooks d') -> NWf d'.
Proof. intros [] E1 E2 H. constructor; rewrite ?E1, ?E2; [done|by apply hooks_stored_spec|done|done]. Qed.
Lemma nwf_same d d' : NWf d -> nchannels d' = nchannels d -> channel_seq d' = channel_seq d -> map wh_events (hooks d') = map wh_events (hooks d) -> NWf d'.
Proof.
  intros H E1 E2 E3. eapply nwf_hooks; eauto. unfold hooks_stored. rewrite E3. by apply hooks_stored_spec, nw_hooks.
Qed.
Lemma webhook_sink_wf now action payload d : NWf d -> NWf (webhook_sink now action payload d).1.
Proof.
  intros H. unfold dispatch_webhook. assert (Hw : NWf (worker net hmac_sha256 now action payload d).1).
  { unfold worker. destruct (deliver_all _ _ _ _ _ _) as [[[hs ds]|e] out] eqn:E; cbn [fst]; [|done].
    destruct (forallb _ _); [|done]. eapply nwf_same; eauto. cbn. eapply deliver_all_events. by rewrite E. }
  by destruct (has_subscribers _ _) as [[]|].
Qed.
Lemma shot_keeps now event message details c :
  let c' := shot now event message details c in ac_id c' = ac_id c /\ ac_org c' = ac_org c /\ ac_events c' = ac_events c.
Proof. cbn zeta. unfold shot. by destruct (subscribed event c). Qed.
Lemma map_keeps {A B} (f : A -> A) (k : A -> B) l : (forall x, k (f x) = k x) -> map k (map f l) = map k l.
Proof. intros H. rewrite map_map. by apply map_ext. Qed.
Lemma nwf_shots (f : Channel -> Channel) d :
  (forall c, ac_id (f c) = ac_id c /\ ac_events (f c) = ac_events c) -> NWf d -> NWf (with_channels (map f) d).
Proof.
  intros Hf [H1 H2 H3 H4]. constructor; cbn; [|done| |].
  - apply Forall_map. eapply Forall_impl; [exact H1|]. intros c (es & E & Hes). exists es. by rewrite (proj2 (Hf c)).
  - rewrite map_keeps; [done|]. apply Hf.
  - apply Forall_map. eapply Forall_impl; [exact H4|]. intros c. cbn. by rewrite (proj1 (Hf c)).
Qed.
Lemma alert_sink_wf now action payload message d : NWf d -> NWf (alert_sink now action payload message d).1.
Proof.
  intros H. unfold resolve_and_dispatch. destruct (resolve_alert_event _) as [event|]; [|done].
  rewrite dispatch_event_spec by done. cbn [fst]. apply nwf_shots; [|done]. intros c.
  destruct (shot_keeps now event message payload c) as (? & ? & ?). by split.
Qed.
Lemma emit_wf now action payload message d : NWf d -> NWf (emit now action payload message d).1.
Proof.
  intros H. unfold emit_outbound. pose proof (webhook_sink_wf now action payload d H) as H1.
  destruct (dispatch_webhook _ _ _ _ _ _) as [d1 posted]. cbn [fst] in H1.
  pose proof (alert_sink_wf now action payload (match message with Some m => if truthy m then m else alert_message_for action | None => alert_message_for action end) d1 H1) as H2.
  by destruct (resolve_and_dispatch _ _ _ _ _ _ _ _) as [d2 alerted].
Qed.
Lemma put_channel_wf c' c d :
  NWf d -> In c (nchannels d) -> ac_id c' = ac_id c -> (catalogued c -> catalogued c') -> NWf (put_channel c' d).
Proof.
  intros [H1 H2 H3 H4] Hin Hid Hc. constructor; cbn; [|done| |].
  - apply Forall_map. apply Forall_forall. intros x Hx. destruct (ac_id x =? ac_id c'); [|by eapply Forall_forall in H1].
    apply Hc. eapply Forall_forall in H1; [exact H1|by apply list_elem_of_In].
  - rewrite map_keeps; [done|]. intros x. destruct (ac_id x =? ac_id c') eqn:E; [|done]. by apply Z.eqb_eq in E.
  - apply Forall_map. eapply Forall_impl; [exact H4|]. intros x. destruct (ac_id x =? ac_id c') eqn:E; [|done]. apply Z.eqb_eq in E. by rewrite E.
Qed.
Lemma add_channel_wf c d : NWf d -> catalogued c -> ac_id c = channel_seq d ->
  NWf (mkN (nchannels d ++ [c]) (hooks d) (deliveries d) (settings d) (channel_seq d + 1) (hook_seq d)).
Proof.
  intros [H1 H2 H3 H4] Hc Hid. rewrite Forall_forall in H4. constructor; cbn; [|done| |].
  - apply Forall_app. by repeat constructor.
  - rewrite map_app. apply NoDup_app. split; [done|]. split; [|apply NoDup_singleton]. intros x Hx Hx'.
    apply list_elem_of_singleton in Hx'. apply list_elem_of_In, in_map_iff in Hx as (y & Hy & Hin). apply list_elem_of_In, H4 in Hin. lia.
  - apply Forall_app. split; [|repeat constructor; lia]. apply Forall_forall. intros x Hx%H4. lia.
Qed.
Lemma delete_channel_wf i d : NWf d -> NWf (with_channels (List.filter (fun c' => negb (ac_id c' =? i))) d).
Proof.
  intros [H1 H2 H3 H4]. constructor; cbn; [|done|by apply NoDup_map_filter|];
    apply Forall_forall; intros x [Hx _]%list_elem_of_In%filter_In; [eapply Forall_forall in H1|eapply Forall_forall in H4]; eauto; by apply list_elem_of_In.
Qed.
Lemma hooks_after f d : hooks_stored (hooks d) -> (forall h, stored (wh_events h) -> stored (wh_events (f h))) -> hooks_stored (map f (hooks d)).
Proof. rewrite !hooks_stored_spec. intros H Hf. apply Forall_map. eapply Forall_impl; [exact H|]. exact Hf. Qed.
Lemma channel_op_wf op d :
  match op with CreateChannel _ _ _ | UpdateChannel _ _ _ _ | DeleteChannel _ _ _ => True | _ => False end -> NWf d -> NWf (nexec op d).
Proof.
  destruct op; try done; intros _ H; cbn [nexec].
  - unfold create_alert_channel. destruct (new_channel _ _ _ _ _) as [c|] eqn:E; [|done]. cbn [snd].
    apply new_channel_inv in E as (? & ? & _). by apply add_channel_wf.
  - unfold update_alert_channel. destruct (updated_channel _ _ _ _ _ _) as [c'|] eqn:E; [|done]. cbn [snd].
    apply updated_channel_inv in E as (c & Hc & ? & _ & ?). apply find_channel_in in Hc as [? _]. by eapply put_channel_wf.
  - unfold delete_alert_channel. destruct (require_role _ _); [|done]. cbn [res_bind]. destruct (find_channel _ _ _ _); [|done].
    by apply delete_channel_wf.
Qed.
Lemma get_hook_in u id d h : get_hook u id d = Ok h -> In h (hooks d).
Proof.
  unfold get_hook. destruct (require_role _ _); [|done]. cbn [res_bind]. destruct (List.find _ _) eqn:E; [|done]. intros [= ->].
  by apply find_some in E as [? _].
Qed.
Lemma stored_in d h : NWf d -> In h (hooks d) -> stored (wh_events h).
Proof. intros H Hin. pose proof (nw_hooks _ H) as Hs. eapply Forall_forall in Hs; [exact Hs|by apply list_elem_of_In]. Qed.
Lemma hook_op_wf op d :
  match op with CreateHook _ _ | UpdateHook _ _ _ | DeleteHook _ _ | TestHook _ _ _ => True | _ => False end -> NWf d -> NWf (nexec op d).
Proof.
  destruct op; try done; intros _ H; cbn [nexec]; pose proof (proj2 (hooks_stored_spec _) (nw_hooks _ H)) as Hh.
  - unfold create_webhook. destruct (require_role _ _); [|done]. cbn. eapply nwf_hooks; eauto. cbn. unfold hooks_stored in *. rewrite map_app.
    apply Forall_app. split; [done|]. repeat constructor. by eexists.
  - unfold update_webhook. destruct (get_hook _ _ _) as [h|] eqn:E; [|done]. cbn. eapply nwf_hooks; eauto. cbn. apply hooks_after; [done|].
    intros x Hx. destruct (wh_id x =? id); [|done]. cbn. destruct (hu_events p); [by eexists|]. eapply stored_in; eauto. by eapply get_hook_in.
  - unfold delete_webhook. destruct (get_hook _ _ _) as [h|] eqn:E; [|done]. cbn. eapply nwf_hooks; eauto. cbn.
    rewrite hooks_stored_spec in *. rewrite !Forall_forall in *. intros x [Hx _]%list_elem_of_In%filter_In. by apply Hh, list_elem_of_In.
  - unfold test_webhook, dispatch_webhook_sync. destruct (get_hook _ _ _) as [h|] eqn:E; [|done]. destruct (urllib_request _); [|done]. cbn.
    destruct (storable _ _); [|done]. cbn.
    eapply nwf_hooks; eauto. cbn. apply hooks_after; [done|]. intros x Hx. by destruct (wh_id x =? wh_id h).
Qed.
Lemma nexec_wf op d : NWf d -> NWf (nexec op d).
Proof.
  intros H. destruct op; try by apply channel_op_wf. all: try by apply hook_op_wf. all: cbn [nexec].
  - unfold get_notification_settings, get_or_create_settings. destruct (require_role _ _); [|done]. destruct (settings d); [done|].
    by eapply nwf_same.
  - unfold update_notification_settings, get_or_create_settings. destruct (require_role _ _); [|done]. destruct (settings d); by eapply nwf_same.
  - by apply emit_wf.
Qed.
Lemma reached_wf ops : NWf (reached ops).
Proof.
  unfold reached. assert (H : NWf (mkN [] [] [] None 1 1)) by (constructor; cbn; constructor).
  revert H. generalize (mkN [] [] [] None 1 1). induction ops as [|op ops IH]; intros d H; cbn; [done|]. by apply IH, nexec_wf.
Qed.

(** * The order of the workers *)
Inductive Sink := Webhooks | Alerts | Mails.
#[export] Instance Sink_eq_dec : EqDecision Sink.
Proof. solve_decision. Defined.
Definition run_sink (now : Z) (action : string) (payload : list (string * json)) (message : string) (x : Sink) (d : NDb) : NDb * list Message :=
  match x with
  | Webhooks => webhook_sink now action payload d
  | Alerts => alert_sink now action payload message d
  | Mails => (d, run_email_dispatch smtp action payload d)
  end.
Fixpoint run_sinks (now : Z) (action : string) (payload : list (string * json)) (message : string) (order : list Sink) (d : NDb) : NDb * list Message :=
  match order with
  | [] => (d, [])
  | x :: order =>
      let '(d, out) := run_sink now action payload message x d in
      let '(d, rest) := run_sinks now action payload message order d in (d, out ++ rest)
  end.
Definition headline (action : string) (message : option string) : string :=
  match message with Some m => if truthy m then m else alert_message_for action | None => alert_message_for action end.

Lemma webhook_sink_channels now action payload l d :
  webhook_sink now action payload (with_channels (fun _ => l) d)
  = (with_channels (fun _ => l) (webhook_sink now action payload d).1, (webhook_sink now action payload d).2).
Proof.
  unfold dispatch_webhook, has_subscribers, worker. cbn. destruct (any_subscribed _ _) as [[]|]; try done;
    destruct (deliver_all _ _ _ _ _ _) as [[[??]|?] ?]; try done; by destruct (forallb _ _).
Qed.
Lemma webhook_sink_frame now action payload d :
  nchannels (webhook_sink now action payload d).1 = nchannels d /\ settings (webhook_sink now action payload d).1 = settings d.
Proof.
  unfold dispatch_webhook, worker. destruct (has_subscribers _ _) as [[]|]; try done;
    destruct (deliver_all _ _ _ _ _ _) as [[[??]|?] ?]; try done; by destruct (forallb _ _).
Qed.
Lemma alert_sink_frame now action payload message d :
  exists l, forall d', nchannels d' = nchannels d ->
    alert_sink now action payload message d' = (with_channels (fun _ => l) d', (alert_sink now action payload message d).2).
Proof.
  unfold resolve_and_dispatch, dispatch_event. destruct (resolve_alert_event action) as [event|].
  - destruct (fire_channels net decrypt urlencode now event message payload (nchannels d)) as [[l|e] out] eqn:E.
    + exists l. intros d' Hd. by rewrite Hd, E.
    + exists (nchannels d). intros d' Hd. rewrite Hd, E. cbn. rewrite <- Hd. by destruct d'.
  - exists (nchannels d). intros d' Hd. rewrite <- Hd. by destruct d'.
Qed.
Lemma run_email_settings action payload d d' : settings d = settings d' -> run_email_dispatch smtp action payload d = run_email_dispatch smtp action payload d'.
Proof. intros H. unfold run_email_dispatch. by rewrite H. Qed.
Lemma emit_is_run now action payload message d :
  emit now action payload message d = run_sinks now action payload (headline action message) [Webhooks; Alerts; Mails] d.
Proof.
  unfold emit_outbound. cbn [run_sinks run_sink]. destruct (dispatch_webhook _ _ _ _ _ _) as [d1 posted]. fold (headline action message).
  destruct (resolve_and_dispatch _ _ _ _ _ _ _ _) as [d2 alerted]. by rewrite app_nil_r.
Qed.
(** What the three workers do to [d], whatever the order. *)
Lemma sinks_commute now action payload message d :
  exists l, let h := webhook_sink now action payload d in let a := (alert_sink now action payload message d).2 in
    let m := run_email_dispatch smtp action payload d in
    forall order, order ≡ₚ [Webhooks; Alerts; Mails] ->
      (run_sinks now action payload message order d).1 = with_channels (fun _ => l) h.1 /\
      (run_sinks now action payload message order d).2 ≡ₚ h.2 ++ a ++ m.
Proof.
  destruct (alert_sink_frame now action payload message d) as [l Ha]. exists l. cbn zeta. intros order Hp.
  pose proof (webhook_sink_frame now action payload d) as [Hc Hs]. pose proof (webhook_sink_channels now action payload l d) as Hw.
  destruct (webhook_sink now action payload d) as [d1 posted] eqn:E1. cbn [fst snd] in *.
  set (out := (alert_sink now action payload message d).2) in *. set (mail := run_email_dispatch smtp action payload d).
  assert (M1 : run_email_dispatch smtp action payload d1 = mail) by (by apply run_email_settings).
  assert (M2 : forall d0, settings d0 = settings d -> run_email_dispatch smtp action payload (with_channels (fun _ => l) d0) = mail)
    by (intros ? ?; by apply run_email_settings).
  assert (Hl : List.length order = 3%nat) by (by rewrite Hp).
  assert (Hn : NoDup order) by (rewrite Hp; by apply (bool_decide_unpack _)).
  destruct order as [|x [|y [|z [|]]]]; try done.
  destruct x, y, z; try (exfalso; apply (bool_decide_pack _) in Hn; vm_compute in Hn; exact Hn); cbn [run_sinks run_sink];
    repeat first [rewrite E1 | rewrite (Ha _ Hc) | rewrite (Ha d eq_refl) | rewrite Hw | rewrite M1 | rewrite (M2 _ Hs) | rewrite (M2 d eq_refl)];
    cbn [fst snd]; (split; [done|]); rewrite ?app_nil_r; solve_Permutation.
Qed.

(** ** Mail and Pushover *)
(** When a mail leaves, and which. *)
Lemma mail_gate action payload d m :
  In m (run_email_dispatch smtp action payload d) <->
  exists t s, email_toggle_for action = Some t /\ settings d = Some s /\ se_enabled s = Some true /\ toggle_of t s = Some true /\
    truthy (opt_str (se_to s)) = true /\ truthy (opt_str (se_host s)) = true /\ smtp s m = true /\
    m = Mail (opt_str (se_to s)) (mail_from s) (build_email_message action payload).1 (build_email_message action payload).2.
Proof.
  unfold run_email_dispatch, send_notification, send_plain_email. destruct (email_toggle_for action) as [t|]; [|split; [done|by intros (?&?&?&_)]].
  destruct (settings d) as [s|] eqn:Es; [|split; [done|by intros (?&?&_&?&_)]].
  destruct (build_email_message action payload) as [subject body]. cbn [fst snd]. split.
  - destruct (se_enabled s) as [[]|] eqn:E1; try done. destruct (toggle_of t s) as [[]|] eqn:E2; try done. cbn [is_true negb orb andb].
    destruct (truthy (opt_str (se_to s))) eqn:E3; cbn [negb orb]; [|done]. destruct (truthy (opt_str (se_host s))) eqn:E4; cbn [negb orb]; [|done].
    cbn [snd]. destruct (smtp s _) eqn:E5; [|done]. intros [<-|[]]. by exists t, s.
  - intros (t' & s' & [= <-] & [= <-] & E1 & E2 & E3 & E4 & E5 & ->). rewrite E1, E2, E3, E4. cbn. rewrite E5. by left.
Qed.
Lemma take_str_length n s : (String.length (take_str n s) <= n)%nat.
Proof. revert s. induction n as [|n IH]; intros [|c s]; cbn; try lia. specialize (IH s). lia. Qed.
Lemma append_length a b : String.length (a ++ b) = (String.length a + String.length b)%nat.
Proof. induction a as [|c a IH]; cbn; [done|]. by rewrite IH. Qed.
(** The message of a page fits the service's limit. *)
Lemma clip_fits body : (String.length (clip body) <= PUSHOVER_MESSAGE_LIMIT)%nat.
Proof.
  unfold clip. destruct (PUSHOVER_MESSAGE_LIMIT <? String.length body)%nat eqn:E; [|by apply Nat.ltb_ge in E].
  rewrite append_length. pose proof (take_str_length (PUSHOVER_MESSAGE_LIMIT - 1) body). change (String.length ELLIPSIS) with 1%nat. assert (1 <= PUSHOVER_MESSAGE_LIMIT)%nat by (unfold PUSHOVER_MESSAGE_LIMIT; lia). lia.
Qed.

(** * Properties *)

(** ** The channels of one organisation *)
Definition owned (o : Z) (c : Channel) : bool := bool_decide (ac_org c = Some o).
Lemma filter_shots o now event message details cs :
  List.filter (owned o) (map (shot now event message details) cs) = map (shot now event message details) (List.filter (owned o) cs).
Proof.
  induction cs as [|c cs IH]; cbn; [done|]. destruct (shot_keeps now event message details c) as (_ & E & _).
  assert (Eo : owned o (shot now event message details c) = owned o c) by (unfold owned; by rewrite E).
  rewrite Eo. destruct (owned o c); cbn; by rewrite IH.
Qed.
Lemma owned_shots o event message details cs :
  flat_map (shots event message details) (List.filter (owned o) cs) `sublist_of` flat_map (shots event message details) cs.
Proof.
  induction cs as [|c cs IH]; cbn; [done|]. destruct (owned o c); cbn; [by apply sublist_app|by apply sublist_inserts_l].
Qed.
Lemma only_owned_shots o event message details cs :
  Forall (fun c => subscribed event c = true -> owned o c = true) cs ->
  flat_map (shots event message details) cs = flat_map (shots event message details) (List.filter (owned o) cs).
Proof.
  induction 1 as [|c cs Hc _ IH]; [done|]. cbn. destruct (owned o c); cbn; [by rewrite IH|].
  unfold shots at 1. destruct (subscribed event c); [by specialize (Hc eq_refl)|done].
Qed.


(** ** What a delivery leaves *)
(** [answered_with m s]: the row says what the server said: the status of a
    2xx answer, zero where there was no answer. *)
Definition answered_with (m : Message) (status : Z) : Prop :=
  (forall s, net m = Some s -> ok_status s = true -> status = s) /\ (net m = None -> status = 0).
Definition recorded (now : Z) (action : string) (payload : list (string * json)) (h : Webhook) (x : Delivery) : Prop :=
  dl_hook x = wh_id h /\ dl_event x = action /\ dl_url x = wh_url h /\ dl_at x = now /\ answered_with (hookm h action payload) (dl_status x) /\
  (dl_success x = true <-> exists s, net (hookm h action payload) = Some s /\ ok_status s = true).
Definition touched (now : Z) (action : string) (payload : list (string * json)) (h h' : Webhook) : Prop :=
  if hooked action h then exists status, answered_with (hookm h action payload) status /\ h' = triggered now status h else h' = h.
Lemma hook_status_answer m : answered_with m (hook_status net m).
Proof.
  unfold hook_status, urlopen. split; [by intros s -> ->|by intros ->].
Qed.
Lemma hook_row_recorded now action payload h : recorded now action payload h (hook_row now action payload h).
Proof.
  unfold delivery_of. destruct (kept_answer _ _) as [body error]. unfold recorded. cbn. repeat split; try done; try apply hook_status_answer.
  - unfold hook_status, urlopen. destruct (net _) as [s|]; [|done]. destruct (ok_status s) eqn:E; [by exists s|done].
  - intros (s & E & Hs). unfold hook_status, urlopen. by rewrite E, Hs.
Qed.
Lemma hit_touched now action payload h : touched now action payload h (hit now action payload h).
Proof. unfold touched, hit. destruct (hooked action h); [|done]. eexists. split; [apply hook_status_answer|done]. Qed.

(** C32: After any history, an event is posted to exactly the active webhooks
    whose stored list names it, once each and in table order, provided their
    addresses have a scheme, and the check made before the worker starts changes
    nothing of this. When the commit takes the rows, each of these hooks gets one
    delivery row, a success exactly when its server answered with a 2xx status,
    and the time; row and hook carry the status of a 2xx answer, zero where there
    was no answer; every other webhook and every other table is left as it was.
    When the commit refuses a row, for what a server answered, nothing is
    recorded. *)
Theorem webhooks_delivered_once ops now action payload :
  let d := reached ops in
  let subscribers := List.filter (hooked action) (hooks d) in
  Forall addressed subscribers ->
  let r := webhook_sink now action payload d in
  r.2 = map (fun h => hookm h action payload) subscribers /\
  if forallb (storable net) (map (hook_row now action payload) subscribers) then
    exists hs ds,
      r.1 = mkN (nchannels d) hs (deliveries d ++ ds) (settings d) (channel_seq d) (hook_seq d) /\
      Forall2 (touched now action payload) (hooks d) hs /\ Forall2 (recorded now action payload) subscribers ds
  else r.1 = d.
Proof.
  cbn zeta. intros Ha. pose proof (nw_hooks _ (reached_wf ops)) as Hh. revert Ha Hh. generalize (reached ops). intros d Ha Hh.
  assert (Hrows : forall hs, Forall2 (recorded now action payload) hs (map (hook_row now action payload) hs))
    by (intros hs; apply Forall2_fmap_r, Forall_Forall2_diag, Forall_forall; intros; apply hook_row_recorded).
  assert (Hhit : Forall2 (touched now action payload) (hooks d) (map (hit now action payload) (hooks d)))
    by (apply Forall2_fmap_r, Forall_Forall2_diag, Forall_forall; intros; apply hit_touched).
  unfold dispatch_webhook, has_subscribers. rewrite any_subscribed_spec by done. destruct (existsb _ _) eqn:E.
  - unfold worker. rewrite deliver_all_spec by done. cbn [fst snd]. split; [done|]. destruct (forallb _ _); [|done]. by eexists _, _.
  - destruct (no_hooked now action payload _ E) as [E1 E2]. rewrite E1 in Hhit. rewrite E2. cbn. split; [done|].
    exists (hooks d), []. rewrite app_nil_r. split; [by destruct d|done].
Qed.

(** C33: The three workers an emitted event starts may run in any order: the
    tables end the same and the same messages leave, up to their order, as when
    they run in the order they are started. *)
Theorem workers_in_any_order now action payload message order d :
  order ≡ₚ [Webhooks; Alerts; Mails] ->
  let r := run_sinks now action payload (headline action message) order d in
  r.1 = (emit now action payload message d).1 /\ r.2 ≡ₚ (emit now action payload message d).2.
Proof.
  intros Hp. cbn zeta. rewrite emit_is_run. destruct (sinks_commute now action payload (headline action message) d) as (l & H).
  cbn zeta in H. destruct (H order Hp) as [-> ->]. destruct (H [Webhooks; Alerts; Mails] (reflexivity _)) as [-> ->]. done.
Qed.

(** ** The organisation of a channel *)
Definition foreign (o : Z) (c : Channel) : bool := negb (bool_decide (ac_org c = Some o)).
Lemma find_channel_foreign t u id d o c :
  NWf d -> resolve_request_org_id t u true true = Ok (Some o) -> o <> LEGACY_GLOBAL_ORG_ID -> In c (nchannels d) -> ac_id c = id -> foreign o c = true ->
  find_channel t u id d = Raise (HTTPException 404 "Alert channel not found").
Proof.
  intros Hwf Hr Ho Hin Hid Hf. destruct (find_channel t u id d) as [c'|e] eqn:E.
  - pose proof (find_channel_scope _ _ _ _ _ _ Hr Ho E) as Hs. apply find_channel_in in E as [Hin' Hid'].
    rewrite <- Hid' in Hid. rewrite (NoDup_map_inj ac_id _ _ _ (nw_ids _ Hwf) Hin Hin' Hid) in Hf. unfold foreign in Hf.
    by rewrite bool_decide_eq_true_2 in Hf.
  - revert E. unfold find_channel, get_scoped_record. rewrite Hr. cbn [res_bind].
    rewrite (scoped_query channel_model ac_org) by done. cbn [res_bind]. destruct (List.find _ _); [done|]. by intros [= <-].
Qed.
Lemma filter_map_same {A} (p : A -> bool) (f : A -> A) l :
  (forall x, In x l -> (p x = true -> f x = x) /\ (p x = false -> p (f x) = false)) -> List.filter p (map f l) = List.filter p l.
Proof.
  induction l as [|x l IH]; intros H; cbn; [done|]. destruct (H x (or_introl eq_refl)) as [H1 H2].
  rewrite IH by (intros y Hy; apply H; by right). destruct (p x) eqn:E; [by rewrite (H1 eq_refl), E|by rewrite (H2 eq_refl)].
Qed.
Lemma foreign_kept t u o op d :
  NWf d -> resolve_request_org_id t u true true = Ok (Some o) -> o <> LEGACY_GLOBAL_ORG_ID ->
  match op with CreateChannel t' u' _ | UpdateChannel t' u' _ _ | DeleteChannel t' u' _ => t' = t /\ u' = u | _ => False end ->
  List.filter (foreign o) (nchannels (nexec op d)) = List.filter (foreign o) (nchannels d).
Proof.
  intros Hwf Hr Ho. destruct op; try done; intros [-> ->]; cbn [nexec].
  - unfold create_alert_channel. destruct (new_channel _ _ _ _ _) as [c|] eqn:E; [|done]. cbn [snd nchannels].
    apply new_channel_inv in E as (_ & _ & r & Hr' & Hc). rewrite Hr in Hr'. injection Hr' as <-.
    rewrite List.filter_app. cbn. unfold foreign at 2. rewrite Hc. unfold persisted_org_id, is_legacy_global_scope.
    rewrite (bool_decide_eq_false_2 (Some o = Some LEGACY_GLOBAL_ORG_ID)) by congruence. rewrite bool_decide_eq_true_2 by done. apply app_nil_r.
  - unfold update_alert_channel. destruct (updated_channel _ _ _ _ _ _) as [c'|] eqn:E; [|done]. cbn [snd].
    apply updated_channel_inv in E as (c & Hc & Hid & Horg & _). pose proof (find_channel_scope _ _ _ _ _ _ Hr Ho Hc) as Hs.
    apply find_channel_in in Hc as [Hin _]. cbn. apply filter_map_same. intros x Hx. destruct (ac_id x =? ac_id c') eqn:Ex; [|done].
    apply Z.eqb_eq in Ex. rewrite Hid in Ex. rewrite (NoDup_map_inj ac_id _ _ _ (nw_ids _ Hwf) Hx Hin Ex).
    unfold foreign. rewrite Horg, Hs, bool_decide_eq_true_2 by done. by split.
  - unfold delete_alert_channel. destruct (require_role _ _); [|done]. cbn [res_bind]. destruct (find_channel _ _ _ _) as [c|] eqn:E; [|done].
    pose proof (find_channel_scope _ _ _ _ _ _ Hr Ho E) as Hs. apply find_channel_in in E as [Hin _]. cbn. rewrite filter_filter. apply filter_ext_in.
    intros x Hx. destruct (ac_id x =? ac_id c) eqn:Ex; [|done]. apply Z.eqb_eq in Ex.
    rewrite (NoDup_map_inj ac_id _ _ _ (nw_ids _ Hwf) Hx Hin Ex). unfold foreign. by rewrite Hs, bool_decide_eq_true_2.
Qed.

(** An administrator of an organisation reaches only its alert channels:
    creating, updating and deleting leave the channels of every other
    organisation (and those of none) as they are; read, update, deletion and
    test of such a channel answer that it does not exist, and the test sends
    nothing. *)
Theorem channel_endpoints_confined ops t u o :
  resolve_request_org_id t u true true = Ok (Some o) -> o <> LEGACY_GLOBAL_ORG_ID -> role u ∈ ADMINS ->
  let d := reached ops in
  (forall op, match op with CreateChannel t' u' _ | UpdateChannel t' u' _ _ | DeleteChannel t' u' _ => t' = t /\ u' = u | _ => False end ->
     List.filter (foreign o) (nchannels (nexec op d)) = List.filter (foreign o) (nchannels d)) /\
  (forall c, In c (nchannels d) -> foreign o c = true ->
     let missing {A} : res A := Raise (HTTPException 404 "Alert channel not found") in
     get_alert_channel t u (ac_id c) d = missing /\ (forall p, (update_alert_channel encrypt t u (ac_id c) p d).1 = missing) /\
     delete_alert_channel t u (ac_id c) d = missing /\ test_alert_channel net decrypt urlencode t u (ac_id c) d = (missing, [])).
Proof.
  intros Hr Ho Hrole. cbn zeta. pose proof (reached_wf ops) as Hwf. revert Hwf. generalize (reached ops). intros d Hwf. split.
  - intros op. by apply foreign_kept with (t := t) (u := u).
  - intros c Hin Hf. pose proof (find_channel_foreign t u _ d o c Hwf Hr Ho Hin eq_refl Hf) as Hn.
    unfold get_alert_channel, update_alert_channel, updated_channel, delete_alert_channel, test_alert_channel, require_role.
    rewrite (bool_decide_eq_true_2 _ Hrole). cbn [res_bind]. by rewrite Hn.
Qed.
End claims.

(** * Witnesses *)
Definition up : Network := mkNetwork (fun _ => Some 204) (fun _ => Some "") (fun _ => "") (fun _ => 12) (fun _ => true).
Definition missing : Network := mkNetwork (fun _ => Some 404) (fun _ => None) (fun _ => "HTTP Error 404: Not Found") (fun _ => 12) (fun _ => true).
Definition taken (s : Settings) (m : Message) : bool := true.
Definition plain (s : string) : string := s.
Definition no_sig (k b : string) : string := "00".
Definition no_form (l : list (string * string)) : string := "form".
Definition two_orgs : Tenants :=
  mkTenants [mkOrg 7 "a" "A" None (Some true); mkOrg 8 "b" "B" None (Some true)] [mkMember 7 1; mkMember 8 2].
Definition admin_a : User := mkUser 1 "admin" (Some 7).
Definition admin_b : User := mkUser 2 "admin" (Some 8).
Definition slack (name : string) : ChannelCreate := mkCC name "slack" (Some "https://hooks.example/x") None None ["entities.imported"].
Definition hook (url : string) : NOp := CreateHook admin_a (mkHC url ["upload"] (Some "k")).
Definition setup : list NOp := [CreateChannel two_orgs admin_a (slack "a"); CreateChannel two_orgs admin_b (slack "b"); hook "https://a.example/in"].
Local Notation at_setup := (reached up taken plain plain no_sig no_form).

Lemma setup_addressed : Forall addressed (List.filter (hooked "upload") (hooks (at_setup setup))).
Proof.
  assert (E : forallb (fun h => has_scheme (wh_url h)) (List.filter (hooked "upload") (hooks (at_setup setup))) = true) by (vm_compute; reflexivity).
  rewrite forallb_forall in E. apply Forall_forall. intros x Hx%list_elem_of_In. exact (E x Hx).
Qed.
Lemma setup_storable :
  forallb (storable up) (map (delivery_of up no_sig 5 "upload" []) (List.filter (hooked "upload") (hooks (at_setup setup)))) = true.
Proof. vm_compute. reflexivity. Qed.
Lemma setup_hooked : map wh_id (List.filter (hooked "upload") (hooks (at_setup setup))) = [1].
Proof. vm_compute. reflexivity. Qed.
Lemma webhooks_delivered_once_witness :
  List.length (dispatch_webhook up no_sig 5 "upload" [] (at_setup setup)).2 = 1%nat /\
  exists x, deliveries (dispatch_webhook up no_sig 5 "upload" [] (at_setup setup)).1 = deliveries (at_setup setup) ++ [x] /\ dl_hook x = 1.
Proof.
  destruct (webhooks_delivered_once up taken plain plain no_sig no_form setup 5 "upload" [] setup_addressed) as [Hout H].
  rewrite setup_storable in H. destruct H as (hs & ds & -> & _ & Hds). cbn [deliveries]. rewrite Hout, length_map.
  pose proof setup_hooked as Hid. destruct (List.filter _ _) as [|h [|]]; try discriminate. injection Hid as Hid. split; [done|].
  inversion Hds as [|? x ? l Hx Hl]; subst. inversion Hl; subst. exists x. split; [done|]. destruct Hx as [-> _]. exact Hid.
Defined.
Lemma workers_in_any_order_witness :
  let r := run_sinks up taken plain no_sig no_form 5 "upload" [] (headline "upload" None) [Mails; Alerts; Webhooks] (at_setup setup) in
  r.1 = (emit_outbound up taken plain no_sig no_form 5 "upload" [] None (at_setup setup)).1.
Proof.
  apply (workers_in_any_order up taken plain no_sig no_form 5 "upload" [] None [Mails; Alerts; Webhooks] (at_setup setup)).
  solve_Permutation.
Defined.
Definition channel_b : Channel :=
  mkChannel 2 (Some 8) "b" "slack" "https://hooks.example/x" (dump_events ["entities.imported"]) true None None 0.
Lemma setup_has_b : In channel_b (nchannels (at_setup setup)).
Proof. vm_compute. right. left. reflexivity. Qed.
Lemma channel_endpoints_confined_witness :
  get_alert_channel two_orgs admin_a 2 (at_setup setup) = Raise (HTTPException 404 "Alert channel not found").
Proof.
  assert (Hr : role admin_a ∈ ADMINS) by (apply list_elem_of_In; right; left; reflexivity).
  destruct (channel_endpoints_confined up taken plain plain no_sig no_form setup two_orgs admin_a 7 eq_refl ltac:(discriminate) Hr) as [_ H].
  destruct (H channel_b setup_has_b eq_refl) as [E _]. exact E.
Defined.

(** * Findings *)

(** An event carries no organisation: what one organisation's import emits is
    sent to the channels of both, with its payload. *)
Lemma events_cross_tenants :
  let d := at_setup setup in
  map ac_org (nchannels d) = [Some 7; Some 8] /\
  List.length (emit_outbound up taken plain no_sig no_form 5 "upload" [("filename", JStr "a.csv")] None d).2 = 3%nat /\
  map ac_total (nchannels (emit_outbound up taken plain no_sig no_form 5 "upload" [("filename", JStr "a.csv")] None d).1) = [1; 1].
Proof. vm_compute. repeat split. Qed.
(** A webhook address without a scheme, which the schema lets through, stops the
    worker: the hooks before it have been posted to and nothing is recorded, the
    ones after it are never reached. *)
Lemma one_address_stops_the_worker :
  let d := at_setup [hook "https://a.example/in"; hook "example.com/in"; hook "https://c.example/in"] in
  let r := dispatch_webhook up no_sig 5 "upload" [] d in
  valid_hook_create (mkHC "example.com/in" ["upload"] (Some "k")) = true /\ List.length r.2 = 1%nat /\ deliveries r.1 = [] /\
  map wh_status (hooks r.1) = [None; None; None].
Proof. vm_compute. repeat split. Qed.
(** A refused delivery is recorded as a network error. *)
Lemma refusal_recorded_as_zero now action payload h :
  dl_status (delivery_of missing no_sig now action payload h) = 0.
Proof. done. Qed.
(** A stored list that is not a list makes the dispatch raise. *)
Lemma dispatch_may_raise :
  (dispatch_event up plain no_form 5 "upload" "m" [] (mkN [mkChannel 1 None "a" "slack" "https://a.example" "5" true None None 0] [] [] None 2 1)).1
  = Raise (Exn "TypeError" "argument of type 'int' is not iterable").
Proof. vm_compute. reflexivity. Qed.
(** A key of thirty characters and a line feed passes the check of the form. *)
Lemma key_with_line_feed :
  pushover_key ("abcdefghijklmnopqrstuvwxyz0123" ++ nl)%string = true /\ String.length ("abcdefghijklmnopqrstuvwxyz0123" ++ nl) = 31%nat.
Proof. vm_compute. repeat split. Qed.
(** A null in an update is stored; from then on the settings cannot be read. *)
Lemma null_setting_is_stored :
  let p := mkSU (Some None) None None None None None None None None in
  let d := (update_notification_settings plain admin_a p (at_setup [])).2 in
  (update_notification_settings plain admin_a p (at_setup [])).1 = Raise (Exn "ValidationError" "NotificationSettingsResponse") /\
  (get_notification_settings admin_a d).1 = Raise (Exn "ValidationError" "NotificationSettingsResponse").
Proof. vm_compute. repeat split. Qed.
