(* ===== verification/EntityCatalog.v ===== *)
(** * The entity catalogue
      (src/backend/routers/entities.py, services/entity_service.py,
      services/work_type.py, quality_scorer.py)

    Quality scores, the filtered list, the facets, the grouped view and the
    endpoints that edit and delete entities. A row is that of [Enrichment]. A
    quality score is the integer of its ten-thousandths (the weights have two
    decimals and the score is rounded to four). LIKE ([ilike], a column and the
    text searched), the lower case of the database, its order on text and the
    place of NULLs in it are parameters; equal sort keys keep table order. The
    translation of failure messages in answers is left out. *)
From S2P Require Import Prelude PyStr PyJson PyValue TenantAccess JobsApi Entities Coauthor UnionFind Enrichment AuditTrail.
From Stdlib Require Import Ascii String.

Local Open Scope string_scope.
Local Open Scope list_scope.
Local Open Scope Z_scope.
Local Open Scope py_scope.

(** * Tables *)
Record AuthorityMark := mkMark { am_org : option Z; am_value : option string; am_status : string }.
Record JournalMetric := mkMetric { jm_org : option Z; jm_issn : string; jm_nif : option Z; jm_bayes : option Z }.
Record CDb := mkC {
  entities : list Row; authority : list AuthorityMark; links : list (Z * Z); journals : list JournalMetric;
  rules : list (Z * option Z); dismissals : list (Z * Z); clog : list AuditRow }.
Definition with_entities (f : list Row -> list Row) (d : CDb) : CDb :=
  mkC (f (entities d)) (authority d) (links d) (journals d) (rules d) (dismissals d) (clog d).
Definition with_clog (f : list AuditRow -> list AuditRow) (d : CDb) : CDb :=
  mkC (entities d) (authority d) (links d) (journals d) (rules d) (dismissals d) (f (clog d)).
Definition raw_entity_model : Model Row := mkModel "UniversalEntity" row_id (Some row_org).
Definition quality (r : Row) : option Z := match col "quality_score" r with JInt z => Some z | _ => None end.
Definition batch_id (r : Row) : option Z := match col "import_batch_id" r with JInt z => Some z | _ => None end.
Definition issn_l (r : Row) : option string := text "enrichment_issn_l" r.
Definition WORK_TYPE : string := "enrichment_work_type".

(** * Work types (services/work_type.py) *)
Definition CATEGORY_CODES : list string := ["article"; "book"; "thesis"; "preprint"; "dataset"; "other"; "unclassified"].
Definition RAW_TO_CODE : list (string * string) :=
  [("article", "article"); ("review", "article"); ("letter", "article"); ("editorial", "article"); ("book", "book"); ("monograph", "book");
   ("book-chapter", "book"); ("reference-entry", "book"); ("dissertation", "thesis"); ("preprint", "preprint"); ("dataset", "dataset")].
Definition KNOWN_RAWS : list string := dict_keys RAW_TO_CODE.
Definition category_for (raw : option string) : string :=
  match raw with
  | None => "unclassified"
  | Some s => match dict_get (lower (strip s)) RAW_TO_CODE with Some c => c | None => "other" end
  end.
Definition raws_of (code : string) : list string := map fst (List.filter (fun rc => bool_decide (rc.2 = code)) RAW_TO_CODE).

(** * Filters *)
Record Filters := mkFilters {
  fl_search : option string; fl_min : option Z; fl_max : option Z; fl_batch : option Z; fl_concept : option string; fl_type : option string;
  fl_domain : option string; fl_validation : option string; fl_enrichment : option string; fl_source : option string; fl_work : option string;
  fl_journal : option string }.
Definition no_filter : Filters := mkFilters None None None None None None None None None None None None.
Definition SEARCH_COLUMNS : list string := ["primary_label"; "canonical_id"; "secondary_label"; "entity_type"].
Definition NIF_BAYES_READY : string := "nif_bayes_ready".
(** The facets that are a column with its filter. *)
Definition column_filters (f : Filters) : list (string * option string) :=
  [("entity_type", fl_type f); ("domain", fl_domain f); ("validation_status", fl_validation f); ("enrichment_status", fl_enrichment f);
   ("source", fl_source f)].
Definition COLUMN_FACETS : list string := ["entity_type"; "domain"; "validation_status"; "enrichment_status"; "source"].
Definition text_is (name v : string) (r : Row) : bool := bool_decide (text name r = Some v).
Definition in_quality (f : Filters) (r : Row) : bool :=
  match fl_min f with None => true | Some m => match quality r with Some q => m <=? q | None => false end end
  && match fl_max f with None => true | Some m => match quality r with Some q => q <? m | None => false end end.
Definition by_quality (f : Filters) : bool := is_some (fl_min f) || is_some (fl_max f).

Section catalog.
Context (loads : string -> option json) (ilike : string -> string -> bool) (db_lower : string -> string)
  (label_le : string -> string -> bool) (nulls_first : bool).

(** * Quality (quality_scorer.py) *)
Definition present_text (o : option string) : bool := match o with Some s => truthy (strip s) | None => false end.
Definition has_canonical_authors (r : Row) : bool :=
  match text "attributes_json" r with
  | None => false
  | Some raw =>
      truthy raw && match loads raw with
                    | Some (JObj m) => match dict_get "canonical_authors" m with Some (JObj ca) => non_empty ca | _ => false end
                    | _ => false
                    end
  end.
Definition authority_confirmed (confirmed_labels : list string) (r : Row) : bool :=
  if text_is "entity_type" "publication" r then has_canonical_authors r
  else match text "primary_label" r with Some l => truthy l && bool_decide (l ∈ confirmed_labels) | None => false end.
(** The contribution of each dimension. *)
Definition breakdown (confirmed_labels : list string) (entities_with_rels : list Z) (r : Row) : list (string * Z) :=
  let part (name : string) (weight : Z) (ok : bool) := (name, if ok then weight else 0) in
  let completed := has_status COMPLETED r in
  [part "primary_label" 1500 (present_text (text "primary_label" r)); part "secondary_label" 1000 (present_text (text "secondary_label" r));
   part "canonical_id" 1000 (present_text (text "canonical_id" r)); part "entity_type" 500 (present_text (text "entity_type" r));
   part "enrichment_status" 2500 completed; part "enrichment_doi" 500 (completed && present_text (text "enrichment_doi" r));
   part "authority_confirmed" 2000 (authority_confirmed confirmed_labels r);
   part "relationships" 1000 (bool_decide (row_id r ∈ entities_with_rels))].
Definition score_entity (confirmed_labels : list string) (entities_with_rels : list Z) (r : Row) : Z :=
  Z.min 10000 (fold_right Z.add 0 (map snd (breakdown confirmed_labels entities_with_rels r))).
Definition confirmed_labels (d : CDb) : list string :=
  flat_map (fun a => match am_value a with Some v => if bool_decide (am_status a = "confirmed") && truthy v then [v] else [] | None => [] end) (authority d).
Definition entities_with_rels (d : CDb) : list Z := map fst (links d) ++ map snd (links d).
Definition score (d : CDb) (r : Row) : Z := score_entity (confirmed_labels d) (entities_with_rels d) r.
Definition scored (d : CDb) (r : Row) : Row := set "quality_score" (JInt (score d r)) r.
Definition compute_all (d : CDb) : CDb := with_entities (map (scored d)) d.
(** A missing score is computed. *)
Definition fill_score (d : CDb) (r : Row) : Row := match quality r with Some _ => r | None => scored d r end.
(** [ensure_quality_scores] and the rows it leaves to the request's queries; the
    request does not commit them. *)
Definition ensured (org_id : option Z) (d : CDb) : list Row :=
  map (fun r => if in_scope org_id (row_org r) then fill_score d r else r) (entities d).

(** * Selection *)
Definition matches_search (s : string) (r : Row) : bool :=
  existsb (fun name => match text name r with Some v => ilike v s | None => false end) SEARCH_COLUMNS.
(** [work_type_filter]: nothing for a code that is not known. *)
Definition work_type_filter (code : string) : option (option string -> bool) :=
  if bool_decide (code = "unclassified") then Some (fun c => negb (is_some c))
  else if bool_decide (code = "other") then Some (fun c => match c with Some s => negb (bool_decide (db_lower s ∈ KNOWN_RAWS)) | None => false end)
  else match raws_of code with
       | [] => None
       | raws => Some (fun c => match c with Some s => bool_decide (db_lower s ∈ raws) | None => false end)
       end.
(** [field]: the facet whose own filter is left out; [unknown]: what an unknown
    work type selects. *)
Definition matches (unknown : bool) (field : string) (f : Filters) (r : Row) : bool :=
  given (fl_search f) (fun s => matches_search s r) && in_quality f r
  && match fl_batch f with None => true | Some b => bool_decide (batch_id r = Some b) end
  && given (fl_concept f) (fun c => match text "enrichment_concepts" r with Some v => ilike v c | None => false end)
  && forallb (fun kv => bool_decide (kv.1 = field) || given kv.2 (fun v => text_is kv.1 v r)) (column_filters f)
  && (bool_decide (field = "work_type")
      || given (fl_work f) (fun code => match work_type_filter code with Some p => p (text WORK_TYPE r) | None => unknown end)).
(** The metrics of a row's journal, in the organisation asked for, that are ready. *)
Definition ready_metrics (org_id : option Z) (d : CDb) (r : Row) : list JournalMetric :=
  List.filter (fun j => bool_decide (issn_l r = Some (jm_issn j)) && bool_decide (jm_org j = org_id) && is_some (jm_nif j) && is_some (jm_bayes j)) (journals d).
(** A join: a row stands once for each of its metrics. *)
Definition join_ready (org_id : option Z) (d : CDb) (l : list Row) : list Row :=
  flat_map (fun r => repeat r (List.length (ready_metrics org_id d r))) l.
Definition filter_journal (signal : option string) (org_id : option Z) (d : CDb) (l : list Row) : list Row :=
  if bool_decide (signal = Some NIF_BAYES_READY) then join_ready org_id d l else l.
Definition select (unknown : bool) (field : string) (org_id : option Z) (f : Filters) (d : CDb) (rows : list Row) : list Row :=
  let l := List.filter (matches unknown field f) (scoped row_org org_id rows) in
  if bool_decide (field = "journal_metric_signal") then l else filter_journal (fl_journal f) org_id d l.

(** * The list *)
Definition opt_le {A} (le : A -> A -> bool) (a b : option A) : bool :=
  match a, b with Some x, Some y => le x y | None, None => true | None, Some _ => nulls_first | Some _, None => negb nulls_first end.
Definition ascending (column : string) (a b : Row) : bool :=
  if bool_decide (column = "quality_score") then opt_le Z.leb (quality a) (quality b)
  else if bool_decide (column = "primary_label") then opt_le label_le (text "primary_label" a) (text "primary_label" b)
  else if bool_decide (column = "enrichment_status") then opt_le label_le (text "enrichment_status" a) (text "enrichment_status" b)
  else row_id a <=? row_id b.
Definition directed (column order : string) (a b : Row) : bool :=
  if bool_decide (order = "desc") then ascending column b a else ascending column a b.
(** The ORDER BY names one column: rows with the same value come in the order in
    which this query happens to scan them, [scan]. *)
Definition sorted_rows (scan : Row -> Z) (column order : string) (l : list Row) : list Row :=
  sort_by (directed column order) (sort_by (fun a b => scan a <=? scan b) l).
Definition page {A} (skip limit : Z) (l : list A) : list A := firstn (Z.to_nat limit) (skipn (Z.to_nat skip) l).
(** The query returns an object once. *)
Definition unique_rows (l : list Row) : list Row :=
  fold_left (fun acc r => if existsb (fun x => row_id x =? row_id r) acc then acc else acc ++ [r]) l [].
(** The list takes the filters of the facets, except the batch. *)
Definition list_filters (f : Filters) : Filters :=
  mkFilters (fl_search f) (fl_min f) (fl_max f) None (fl_concept f) (fl_type f) (fl_domain f) (fl_validation f) (fl_enrichment f) (fl_source f)
    (fl_work f) (fl_journal f).
(** [scan] is that of the query of this page. *)
Definition get_list (scan : Z -> Z -> Row -> Z) (org_id : option Z) (f : Filters) (skip limit : Z) (column order : string) (d : CDb) : Z * list Row :=
  let rows := if by_quality f || bool_decide (column = "quality_score") then ensured org_id d else entities d in
  let l := select false "" org_id (list_filters f) d rows in
  (Z.of_nat (List.length l), map (fill_score d) (unique_rows (page skip limit (sorted_rows (scan skip limit) column order l)))).

(** * Facets *)
Definition by_count (l : list (string * Z)) : list (string * Z) := sort_by (fun a b => b.2 <=? a.2) l.
Definition value_counts (l : list string) : list (string * Z) :=
  map (fun v => (v, count_where (fun x => bool_decide (x = v)) l)) (first_seen l).
Definition column_values (name : string) (l : list Row) : list string :=
  flat_map (fun r => match text name r with Some v => if truthy v then [v] else [] | None => [] end) l.
Definition facet (org_id : option Z) (f : Filters) (d : CDb) (rows : list Row) (field : string) : option (list (string * Z)) :=
  let l := select true field org_id f d rows in
  if bool_decide (field = "journal_metric_signal") then
    let ready := Z.of_nat (List.length (join_ready org_id d l)) in
    Some (if ready =? 0 then [] else [(NIF_BAYES_READY, ready)])
  else if bool_decide (field = "work_type") then Some (by_count (value_counts (map (fun r => category_for (text WORK_TYPE r)) l)))
  else if bool_decide (field ∈ COLUMN_FACETS) then Some (by_count (value_counts (column_values field l)))
  else None.
Definition get_facets (org_id : option Z) (fields_raw : string) (f : Filters) (d : CDb) : list (string * list (string * Z)) :=
  let rows := if by_quality f then ensured org_id d else entities d in
  let requested := List.filter truthy (map strip (split_on "," fields_raw)) in
  fold_left (fun out field => match facet org_id f d rows field with Some counts => dict_set field counts out | None => out end) requested [].

(** * Groups of one label *)
Record Group := mkGroup { gr_label : string; gr_count : Z; gr_variants : list Row }.
Definition labels_of (l : list Row) : list string := flat_map (fun r => match text "primary_label" r with Some v => [v] | None => [] end) l.
Definition get_grouped (org_id : option Z) (skip limit : Z) (search : option string) (d : CDb) : Z * list Group :=
  let l := scoped row_org org_id (entities d) in
  let groups := by_count (List.filter (fun g => given search (fun s => ilike g.1 s)) (value_counts (labels_of l))) in
  (Z.of_nat (List.length groups),
   map (fun g => mkGroup g.1 g.2 (List.filter (text_is "primary_label" g.1) l)) (page skip limit groups)).

(** * One entity, its edits and its deletion (routers/entities.py); an answer, the
      database and the events that are emitted after the commit *)
Section endpoints.
Context (tenants : Tenants) (json_dumps : json -> string) (set_order : list string -> list string).
Definition Emitted : Type := list (string * list (string * json)).
Definition EDITORS : list string := ["super_admin"; "admin"; "editor"].
Definition reader_scope (u : User) : res (option Z) := resolve_request_org_id tenants u true true.
Definition editor_scope (u : User) : res (option Z) := let? _ := require_role EDITORS u in reader_scope u.
Definition not_found : exn := HTTPException 404 "Entity not found".
Definition scoped_entity (org_id : option Z) (id : Z) (d : CDb) : res Row :=
  let? found := get_scoped_record raw_entity_model (entities d) id org_id in
  match found with Some r => Ok r | None => Raise not_found end.
Definition get_entity (u : User) (id : Z) (d : CDb) : res Row := let? org_id := reader_scope u in scoped_entity org_id id d.
Definition audited_entity (now : Z) (action : string) (u : User) (id : option Z) (details : list (string * json)) : CDb -> CDb :=
  with_clog (audit_action json_dumps now action (Some (user_id u)) id (Some "entity") details).
Definition in_ids (ids : list Z) (r : Row) : bool := bool_decide (row_id r ∈ ids).
Definition link_dismiss (u : User) (a b : Z) (d : CDb) : res ((Z * Z) * CDb) :=
  let? org_id := reader_scope u in
  let? _ := scoped_entity org_id a d in
  let? _ := scoped_entity org_id b d in
  let pair := (Z.min a b, Z.max a b) in
  Ok (pair, if bool_decide (pair ∈ dismissals d) then d
            else mkC (entities d) (authority d) (links d) (journals d) (rules d) (dismissals d ++ [pair]) (clog d)).

(** ** Edits: the columns of [EntityBase] with what fits them *)
Inductive Kind := Text | Number.
Definition ENTITY_FIELDS : list (string * Kind) :=
  [("primary_label", Text); ("secondary_label", Text); ("canonical_id", Text); ("entity_type", Text); ("domain", Text); ("validation_status", Text);
   ("enrichment_doi", Text); ("enrichment_citation_count", Number); ("enrichment_concepts", Text); ("enrichment_source", Text);
   ("enrichment_status", Text); ("enrichment_work_type", Text); ("quality_score", Number)].
Definition fits (k : Kind) (v : json) : bool := match k, v with _, JNull => true | Text, JStr _ => true | Number, JInt _ => true | _, _ => false end.
Definition allowed (field : string) : bool := bool_decide (field ∈ dict_keys ENTITY_FIELDS).
Definition fitting (fv : string * json) : bool := match dict_get fv.1 ENTITY_FIELDS with Some k => fits k fv.2 | None => false end.
(** A request with fields that [EntityBase] does not declare: they are dropped;
    the model takes what is left of them. *)
Definition valid_update (updates : list (string * json)) : bool := forallb fitting updates.
Definition set_all (updates : list (string * json)) (r : Row) : Row := fold_left (fun r fv => set fv.1 fv.2 r) updates r.
Definition update_rows (p : Row -> bool) (updates : list (string * json)) : CDb -> CDb := with_entities (update_where p (set_all updates)).
Definition field_names (updates : list (string * json)) : json := JArr (map JStr (dict_keys updates)).
Definition update_entity (now : Z) (u : User) (id : Z) (updates : list (string * json)) (d : CDb) : res (Row * CDb) :=
  let? org_id := editor_scope u in
  let? r := scoped_entity org_id id d in
  Ok (set_all updates r,
      audited_entity now "entity.update" u (Some id) [("fields", field_names updates)] (update_rows (fun x => row_id x =? row_id r) updates d)).
(** A value that does not fit its column is refused by the database. *)
Definition update_entities_bulk (now : Z) (u : User) (ids : list Z) (updates : list (string * json)) (d : CDb) : res (Z * CDb * Emitted) :=
  let? org_id := editor_scope u in
  if negb (non_empty ids) || negb (non_empty updates) then Raise (HTTPException 422 "ids and updates are required")
  else
    match List.filter (fun f => negb (allowed f)) (dict_keys updates) with
    | [] =>
        if negb (valid_update updates) then Raise (Exn "DataError" "a value does not fit its column")
        else
          let p r := in_scope org_id (row_org r) && in_ids ids r in
          let updated := count_where p (entities d) in
          Ok (updated,
              audited_entity now "entity.bulk_update" u None
                [("ids", JArr (map JInt (firstn 20 ids))); ("fields", field_names updates); ("updated", JInt updated)] (update_rows p updates d),
              [("entity.bulk_update", [("count", JInt updated); ("fields", field_names updates)])])
    | bad => Raise (HTTPException 422 ("Invalid fields: " ++ join ", " (set_order bad) ++ ". Allowed: "
                                        ++ join ", " (sort_by str_le (dict_keys ENTITY_FIELDS))))
    end.

(** ** Deletion: the relationships of a deleted entity go with it *)
Definition delete_rows (p : Row -> bool) (d : CDb) : CDb :=
  let gone := map row_id (List.filter p (entities d)) in
  mkC (List.filter (fun r => negb (p r)) (entities d)) (authority d)
    (List.filter (fun e => negb (bool_decide (e.1 ∈ gone)) && negb (bool_decide (e.2 ∈ gone))) (links d))
    (journals d) (rules d) (dismissals d) (clog d).
Definition delete_entities_bulk (now : Z) (u : User) (ids : list Z) (d : CDb) : res (Z * CDb) :=
  let? org_id := editor_scope u in
  if negb (non_empty ids) then Raise (HTTPException 422 "ids list is empty")
  else
    let p r := in_scope org_id (row_org r) && in_ids ids r in
    let deleted := count_where p (entities d) in
    Ok (deleted, audited_entity now "entity.bulk_delete" u None [("ids", JArr (map JInt ids)); ("deleted", JInt deleted)] (delete_rows p d)).
Definition purge_all_entities (u : User) (include_rules : bool) (d : CDb) : res (Z * Z * CDb) :=
  let? org_id := editor_scope u in
  let p r := in_scope org_id (row_org r) in
  let d1 := delete_rows p d in
  let in_rules (x : Z * option Z) := in_scope org_id x.2 in
  let d2 := if include_rules then mkC (entities d1) (authority d1) (links d1) (journals d1) (List.filter (fun x => negb (in_rules x)) (rules d1)) (dismissals d1) (clog d1) else d1 in
  Ok (count_where p (entities d), if include_rules then count_where in_rules (rules d) else 0, d2).
Definition delete_entity (now : Z) (u : User) (id : Z) (d : CDb) : res (CDb * Emitted) :=
  let? org_id := editor_scope u in
  let? r := scoped_entity org_id id d in
  Ok (audited_entity now "entity.delete" u (Some id) [] (delete_rows (fun x => row_id x =? row_id r) d), [("entity.delete", [("entity_id", JInt id)])]).
End endpoints.
End catalog.
