(* ===== verification/EntityCatalogClaims.v ===== *)
(** * What the catalogue shows

    The number beside a facet value is the number of rows the list shows for it;
    the pages of the list partition what it selects, where the order has no ties; groups are exact; edits and
    deletions stay in the editor's scope. On concrete rows: where facets and list
    part, and what crosses organisations. *)
From stdpp Require Import list.
From S2P Require Import Prelude PyStr PyJson PyValue TenantAccess JobsApi Entities Coauthor UnionFind Enrichment EnrichmentClaims AuditTrail EntityCatalog.
From Stdlib Require Import Ascii String.

Local Open Scope string_scope.
Local Open Scope list_scope.
Local Open Scope Z_scope.
Local Open Scope py_scope.

(** * Lists *)
Lemma filter_repeat {A} (p : A -> bool) x n : List.filter p (repeat x n) = if p x then repeat x n else [].
Proof. induction n as [|n IH]; cbn; [by destruct (p x)|]. rewrite IH. by destruct (p x). Qed.
Lemma filter_flat_map {A B} (p : B -> bool) (f : A -> list B) l : List.filter p (flat_map f l) = flat_map (fun x => List.filter p (f x)) l.
Proof. induction l as [|x l IH]; cbn; [done|]. by rewrite List.filter_app, IH. Qed.
Lemma flat_map_filter {A B} (p : A -> bool) (f : A -> list B) l : flat_map f (List.filter p l) = flat_map (fun x => if p x then f x else []) l.
Proof. induction l as [|x l IH]; cbn; [done|]. destruct (p x); cbn; by rewrite IH. Qed.
Lemma filter_map_comm {A B} (p : B -> bool) (f : A -> B) l : List.filter p (map f l) = map f (List.filter (fun x => p (f x)) l).
Proof. induction l as [|x l IH]; cbn; [done|]. destruct (p (f x)); cbn; by rewrite IH. Qed.
Lemma count_map {A B} (p : B -> bool) (f : A -> B) l : count_where p (map f l) = count_where (fun x => p (f x)) l.
Proof. unfold count_where. by rewrite filter_map_comm, length_map. Qed.
Lemma flat_map_map {A B C} (f : A -> B) (g : B -> list C) l : flat_map g (map f l) = flat_map (fun x => g (f x)) l.
Proof. induction l as [|x l IH]; cbn; [done|]. by rewrite IH. Qed.
Lemma map_flat_map {A B C} (g : B -> C) (f : A -> list B) l : map g (flat_map f l) = flat_map (fun x => map g (f x)) l.
Proof. induction l as [|x l IH]; cbn; [done|]. by rewrite map_app, IH. Qed.
Lemma flat_map_ext_in {A B} (f g : A -> list B) l : (forall x, In x l -> f x = g x) -> flat_map f l = flat_map g l.
Proof. induction l as [|x l IH]; intros H; cbn; [done|]. rewrite (H x (or_introl eq_refl)), IH by (intros y Hy; apply H; by right). done. Qed.

(** * Counted values *)
Definition count_of (v : string) (l : list (string * Z)) : Z := match dict_get v l with Some n => n | None => 0 end.
Lemma dict_get_counts v (g : string -> Z) ks : dict_get v (map (fun k => (k, g k)) ks) = if bool_decide (v ∈ ks) then Some (g v) else None.
Proof.
  induction ks as [|k ks IH]; [done|]. cbn [map dict_get]. rewrite IH. destruct (decide (v = k)) as [->|Hn].
  - rewrite bool_decide_eq_true_2; [done|by left].
  - erewrite bool_decide_ext; [done|]. split; [by right|]. intros H. by inversion H.
Qed.
Lemma count_value_counts v l : count_of v (value_counts l) = count_where (fun x => bool_decide (x = v)) l.
Proof.
  unfold count_of, value_counts. rewrite dict_get_counts. case_bool_decide as H; [done|]. symmetry. apply count_where_0. intros x Hx.
  apply bool_decide_eq_false. intros ->. by apply H, first_seen_in, list_elem_of_In.
Qed.
Lemma value_counts_keys l : dict_keys (value_counts l) = first_seen l.
Proof. unfold value_counts, dict_keys. rewrite map_map. apply map_id. Qed.
Lemma count_by_count v l : count_of v (by_count (value_counts l)) = count_where (fun x => bool_decide (x = v)) l.
Proof.
  rewrite <- count_value_counts. unfold count_of. rewrite (dict_get_perm (by_count (value_counts l)) (value_counts l)); [done| |apply sort_by_perm].
  unfold dict_keys, by_count. rewrite sort_by_perm. fold (dict_keys (value_counts l)). rewrite value_counts_keys. apply first_seen_NoDup.
Qed.

(** * Facets and filters *)
Definition with_filter (field v : string) (f : Filters) : Filters :=
  let put (name : string) (old : option string) := if bool_decide (field = name) then Some v else old in
  mkFilters (fl_search f) (fl_min f) (fl_max f) (fl_batch f) (fl_concept f) (put "entity_type" (fl_type f)) (put "domain" (fl_domain f))
    (put "validation_status" (fl_validation f)) (put "enrichment_status" (fl_enrichment f)) (put "source" (fl_source f))
    (put "work_type" (fl_work f)) (put "journal_metric_signal" (fl_journal f)).

(** Comparisons of names, evaluated. *)
Ltac names :=
  repeat match goal with
    | |- context [bool_decide (?a = ?b :> string)] =>
        let x := eval vm_compute in (bool_decide (a = b)) in
        match x with true => change (bool_decide (a = b)) with true | false => change (bool_decide (a = b)) with false end
    end.

Section facts.
Context (loads : string -> option json) (ilike : string -> string -> bool) (db_lower : string -> string)
  (label_le : string -> string -> bool) (nulls_first : bool) (scan : Z -> Z -> Row -> Z).
Local Notation matches := (matches ilike db_lower).
Local Notation select := (select ilike db_lower).
Local Notation work_type_filter := (work_type_filter db_lower).
Definition known_work (f : Filters) : Prop := match fl_work f with Some c => truthy c = true -> is_Some (work_type_filter c) | None => True end.
Lemma given_true v p : truthy v = true -> given (Some v) p = p v.
Proof. unfold given. by intros ->. Qed.
Lemma known_work_given f b b' (r : Row) : known_work f ->
  given (fl_work f) (fun code => match work_type_filter code with Some p => p (text WORK_TYPE r) | None => b end)
  = given (fl_work f) (fun code => match work_type_filter code with Some p => p (text WORK_TYPE r) | None => b' end).
Proof. unfold known_work, given. destruct (fl_work f) as [c|]; [|done]. destruct (truthy c); [|done]. intros H. by destruct (H eq_refl) as [p ->]. Qed.
Lemma matches_column field v f r : field ∈ COLUMN_FACETS -> truthy v = true -> known_work f ->
  matches false "" (with_filter field v f) r = matches true field f r && text_is field v r.
Proof.
  intros Hf Hv Hk. unfold EntityCatalog.matches, in_quality, column_filters.
  repeat (apply elem_of_cons in Hf as [->|Hf]); [..|by apply not_elem_of_nil in Hf];
    cbn [fl_search fl_min fl_max fl_batch fl_concept fl_type fl_domain fl_validation fl_enrichment fl_source fl_work with_filter forallb fst snd];
    names; cbn [orb]; rewrite (given_true v _ Hv), (known_work_given f false true r Hk);
    repeat match goal with |- context [given ?o ?p] => destruct (given o p) end;
    match goal with |- context [text_is ?n v r] => destruct (text_is n v r) end;
    rewrite ?andb_true_r, ?andb_false_r; reflexivity.
Qed.
Lemma matches_work code p f r : work_type_filter code = Some p -> truthy code = true ->
  matches false "" (with_filter "work_type" code f) r = matches true "work_type" f r && p (text WORK_TYPE r).
Proof.
  intros Hp Hv. unfold EntityCatalog.matches, in_quality, column_filters.
  cbn [fl_search fl_min fl_max fl_batch fl_concept fl_type fl_domain fl_validation fl_enrichment fl_source fl_work with_filter forallb fst snd].
  names. cbn [orb]. rewrite (given_true code _ Hv), Hp. by rewrite ?andb_true_r.
Qed.

(** ** A facet counts what its filter selects *)
Lemma filter_journal_filter p s org_id d l : List.filter p (filter_journal s org_id d l) = filter_journal s org_id d (List.filter p l).
Proof.
  unfold filter_journal, join_ready. case_bool_decide; [|done]. rewrite filter_flat_map, flat_map_filter. apply flat_map_ext. intros r.
  apply filter_repeat.
Qed.
Lemma select_refined u field u' f f' p org_id d rows : fl_journal f' = fl_journal f -> field <> "journal_metric_signal" ->
  (forall r, In r rows -> matches u' "" f' r = matches u field f r && p r) ->
  List.filter p (select u field org_id f d rows) = select u' "" org_id f' d rows.
Proof.
  intros Hj Hne Hm. unfold EntityCatalog.select. rewrite bool_decide_eq_false_2 by done. names. rewrite Hj, filter_journal_filter, filter_filter.
  f_equal. apply filter_ext_in. intros r Hr. symmetry. apply Hm. rewrite scoped_filter in Hr. by apply filter_In in Hr as [? _].
Qed.
Lemma count_column field v l : truthy v = true ->
  count_where (fun x => bool_decide (x = v)) (column_values field l) = Z.of_nat (List.length (List.filter (text_is field v) l)).
Proof.
  intros Hv. induction l as [|r l IH]; [done|]. cbn [column_values flat_map List.filter]. rewrite count_where_app. fold (column_values field l). rewrite IH.
  unfold text_is at 2. destruct (text field r) as [x|]; [|done]. destruct (decide (x = v)) as [->|Hn].
  - rewrite Hv, bool_decide_eq_true_2 by done. unfold count_where. cbn [List.filter]. rewrite bool_decide_eq_true_2 by done. cbn [List.length]. lia.
  - rewrite (bool_decide_eq_false_2 (Some x = Some v)) by congruence. destruct (truthy x); [|done]. unfold count_where. cbn [List.filter].
    by rewrite bool_decide_eq_false_2.
Qed.
Lemma raws_of_spec w c : w ∈ raws_of c <-> dict_get w RAW_TO_CODE = Some c.
Proof.
  assert (Hnd : NoDup (dict_keys RAW_TO_CODE)) by (by apply (bool_decide_unpack _)).
  unfold raws_of. rewrite list_elem_of_In, in_map_iff. split.
  - intros ([w' c'] & <- & [H E]%filter_In). apply bool_decide_eq_true in E as <-. by apply dict_get_elem, list_elem_of_In.
  - intros H%dict_get_Some_elem. exists (w, c). split; [done|]. apply filter_In. split; [by apply list_elem_of_In|by apply bool_decide_eq_true].
Qed.
Lemma code_is_no_other w c : dict_get w RAW_TO_CODE = Some c -> c <> "other" /\ c <> "unclassified".
Proof.
  intros H%dict_get_Some_elem. assert (Ha : Forall (fun kv => kv.2 <> "other" /\ kv.2 <> "unclassified") RAW_TO_CODE) by (by apply (bool_decide_unpack _)).
  rewrite Forall_forall in Ha. exact (Ha _ H).
Qed.
Lemma category_is_filter code : code ∈ CATEGORY_CODES ->
  exists p, work_type_filter code = Some p /\
    forall raw, (forall s, raw = Some s -> db_lower s = lower (strip s)) -> p raw = bool_decide (category_for raw = code).
Proof.
  intros Hc. unfold EntityCatalog.work_type_filter. destruct (decide (code = "unclassified")) as [->|H1].
  { eexists. split; [done|]. intros [s|] _; [|done]. cbn [is_some negb category_for]. symmetry. apply bool_decide_eq_false.
    destruct (dict_get _ _) as [c|] eqn:E; [by apply code_is_no_other in E as [_ ?]|done]. }
  rewrite (bool_decide_eq_false_2 (code = "unclassified")) by done. destruct (decide (code = "other")) as [->|H2].
  { eexists. split; [done|]. intros [s|] Hl; [|done]. rewrite (Hl s eq_refl). cbn [category_for].
    destruct (dict_get (lower (strip s)) RAW_TO_CODE) as [c|] eqn:E.
    - rewrite (bool_decide_eq_true_2 (_ ∈ KNOWN_RAWS)); [|destruct (decide (lower (strip s) ∈ KNOWN_RAWS)) as [|Hn]; [done|apply dict_get_None in Hn; congruence]].
      symmetry. apply bool_decide_eq_false. by apply code_is_no_other in E as [? _].
    - apply dict_get_None in E. rewrite (bool_decide_eq_false_2 (_ ∈ KNOWN_RAWS)) by done. by rewrite bool_decide_eq_true_2. }
  rewrite (bool_decide_eq_false_2 (code = "other")) by done.
  assert (Hr : raws_of code <> []) by (repeat (apply elem_of_cons in Hc as [->|Hc]); [first [by destruct (H1 eq_refl)|by destruct (H2 eq_refl)|vm_compute; discriminate]..|by apply not_elem_of_nil in Hc]).
  destruct (raws_of code) as [|w0 ws] eqn:Er; [done|]. eexists. split; [done|]. rewrite <- Er. intros [s|] Hl.
  - rewrite (Hl s eq_refl). cbn [category_for]. apply bool_decide_ext. rewrite raws_of_spec.
    destruct (dict_get _ _) as [c|]; split; congruence.
  - cbn [category_for]. symmetry. apply bool_decide_eq_false. congruence.
Qed.

(** ** What computing a score leaves alone *)
Local Notation fill_score := (fill_score loads).
Local Notation ensured := (ensured loads).
Lemma text_fill d r k : k <> "quality_score" -> text k (fill_score d r) = text k r.
Proof.
  intros H. unfold EntityCatalog.fill_score. destruct (quality r); [done|]. unfold scored, text. by rewrite col_set_ne.
Qed.
Lemma fill_id d r : row_id (fill_score d r) = row_id r /\ row_org (fill_score d r) = row_org r /\ batch_id (fill_score d r) = batch_id r.
Proof.
  unfold EntityCatalog.fill_score. destruct (quality r); [done|]. unfold scored, batch_id. by rewrite col_set_ne.
Qed.
Lemma matches_fill u field f d r : by_quality f = false -> matches u field f (fill_score d r) = matches u field f r.
Proof.
  intros Hq. apply orb_false_iff in Hq as [H1 H2]. unfold EntityCatalog.matches, in_quality, matches_search, text_is, column_filters.
  destruct (fl_min f); [done|]. destruct (fl_max f); [done|]. cbn [existsb SEARCH_COLUMNS forallb fst snd].
  rewrite (proj2 (proj2 (fill_id d r))). unfold WORK_TYPE. by rewrite !text_fill.
Qed.
Lemma scoped_ensured org_id d : scoped row_org org_id (ensured org_id d) = map (fill_score d) (scoped row_org org_id (entities d)).
Proof.
  unfold EntityCatalog.ensured. rewrite !scoped_filter, filter_map_comm.
  rewrite (filter_ext _ (fun r => in_scope org_id (row_org r))).
  - apply map_ext_in. intros r [_ ->]%filter_In. done.
  - intros r. destruct (in_scope org_id (row_org r)) eqn:E; [|done]. by rewrite (proj1 (proj2 (fill_id d r))).
Qed.
Lemma filter_journal_fill s org_id d l : filter_journal s org_id d (map (fill_score d) l) = map (fill_score d) (filter_journal s org_id d l).
Proof.
  unfold filter_journal, join_ready. case_bool_decide; [|done]. rewrite flat_map_map, map_flat_map. apply flat_map_ext. intros r.
  unfold ready_metrics, issn_l. rewrite text_fill by done. induction (List.length _) as [|n IH]; cbn; [done|]. by rewrite IH.
Qed.
Lemma select_ensured u field org_id f d : by_quality f = false ->
  select u field org_id f d (ensured org_id d) = map (fill_score d) (select u field org_id f d (entities d)).
Proof.
  intros Hq. unfold EntityCatalog.select. rewrite scoped_ensured, filter_map_comm.
  rewrite (filter_ext _ (matches u field f)) by (intros r; by apply matches_fill).
  case_bool_decide; [done|]. apply filter_journal_fill.
Qed.

(** * Facets and list *)
Local Notation get_list := (get_list loads ilike db_lower label_le nulls_first scan).
Local Notation get_facets := (get_facets loads ilike db_lower).
Local Notation facet := (facet ilike db_lower).
(** The rows a request with [f] selects from. *)
Definition rows_for (org_id : option Z) (f : Filters) (d : CDb) : list Row := if by_quality f then ensured org_id d else entities d.
Lemma list_total org_id f skip limit column order d :
  (get_list org_id f skip limit column order d).1 = Z.of_nat (List.length (select false "" org_id (list_filters f) d (rows_for org_id f d))).
Proof.
  unfold EntityCatalog.get_list, rows_for. change (by_quality f) with (by_quality (list_filters f)). cbn [fst]. destruct (by_quality (list_filters f)) eqn:Hq; cbn [orb]; [done|].
  destruct (bool_decide _); [|done]. by rewrite select_ensured, length_map.
Qed.
Lemma facets_get_if org_id raw f d field :
  dict_get field (get_facets org_id raw f d)
  = if bool_decide (field ∈ List.filter truthy (map strip (split_on "," raw))) then facet org_id f d (rows_for org_id f d) field else None.
Proof.
  unfold EntityCatalog.get_facets. fold (rows_for org_id f d). set (rows := rows_for org_id f d).
  set (step := fun out field => match facet org_id f d rows field with Some counts => dict_set field counts out | None => out end).
  assert (Hstep : forall l out, dict_get field (fold_left step l out) =
      if bool_decide (field ∈ l) then (match facet org_id f d rows field with Some c => Some c | None => dict_get field out end) else dict_get field out).
  { induction l as [|x l IH]; intros out; cbn [fold_left]; [done|]. rewrite IH. unfold step. clear IH.
    destruct (decide (x = field)) as [->|Hn].
    - rewrite (bool_decide_eq_true_2 (field ∈ field :: l)) by by left. destruct (facet org_id f d rows field) as [c|]; [rewrite dict_get_set_eq|]; by destruct (bool_decide _).
    - rewrite (bool_decide_ext (field ∈ x :: l) (field ∈ l)) by (split; [intros Hi; inversion Hi; subst; done|by right]).
      destruct (facet org_id f d rows x) as [c|]; [|done]. by rewrite dict_get_set_ne. }
  rewrite Hstep. destruct (bool_decide _); [|done]. by destruct (facet _ _ _ _ _).
Qed.
Definition shown_count (value field : string) (facets : list (string * list (string * Z))) : Z :=
  match dict_get field facets with Some counts => count_of value counts | None => 0 end.

(** What a value of a facet may be, and the work types of the table: with no
    blanks around them, and the database's lower case that of the program. *)
Definition tidy_types (d : CDb) : Prop := forall r s, In r (entities d) -> text WORK_TYPE r = Some s -> db_lower s = lower (strip s).
Definition facet_value (d : CDb) (f : Filters) (field v : string) : Prop :=
  (field ∈ COLUMN_FACETS /\ truthy v = true /\ known_work f) \/ (field = "work_type" /\ v ∈ CATEGORY_CODES /\ tidy_types d) \/
  (field = "journal_metric_signal" /\ v = NIF_BAYES_READY /\ known_work f).
Lemma rows_for_types org_id f d r : In r (rows_for org_id f d) -> exists r', In r' (entities d) /\ text WORK_TYPE r = text WORK_TYPE r'.
Proof.
  unfold rows_for. destruct (by_quality f); [|by exists r]. intros (r' & <- & Hin)%in_map_iff. exists r'. split; [done|].
  destruct (in_scope _ _); [|done]. by apply text_fill.
Qed.
Lemma count_category code l :
  count_where (fun x => bool_decide (x = code)) (map (fun r => category_for (text WORK_TYPE r)) l)
  = Z.of_nat (List.length (List.filter (fun r => bool_decide (category_for (text WORK_TYPE r) = code)) l)).
Proof. by rewrite count_map. Qed.

Lemma matches_journal f r v : known_work f ->
  matches false "" (with_filter "journal_metric_signal" v f) r = matches true "journal_metric_signal" f r.
Proof.
  intros Hk. unfold EntityCatalog.matches, in_quality, column_filters.
  cbn [fl_search fl_min fl_max fl_batch fl_concept fl_type fl_domain fl_validation fl_enrichment fl_source fl_work with_filter forallb fst snd].
  names. cbn [orb]. by rewrite (known_work_given f false true r Hk).
Qed.
Lemma facet_signal org_id f d : known_work f ->
  match facet org_id f d (rows_for org_id f d) "journal_metric_signal" with Some counts => count_of NIF_BAYES_READY counts | None => 0 end
  = Z.of_nat (List.length (select false "" org_id (with_filter "journal_metric_signal" NIF_BAYES_READY f) d (rows_for org_id f d))).
Proof.
  intros Hk. unfold EntityCatalog.facet, EntityCatalog.select. names. cbv iota. cbn [fl_journal with_filter]. names. cbv iota. unfold filter_journal.
  rewrite bool_decide_eq_true_2 by done. rewrite (filter_ext _ _ (fun r => matches_journal f r NIF_BAYES_READY Hk)).
  set (n := List.length _). destruct (Z.of_nat n =? 0) eqn:E; [apply Z.eqb_eq in E; rewrite E; reflexivity|]. reflexivity.
Qed.
Lemma facet_selects org_id raw f d field v :
  facet_value d f field v -> field ∈ List.filter truthy (map strip (split_on "," raw)) ->
  shown_count v field (get_facets org_id raw f d)
  = Z.of_nat (List.length (select false "" org_id (with_filter field v f) d (rows_for org_id f d))).
Proof.
  intros Hv Hreq. unfold shown_count. rewrite facets_get_if, bool_decide_eq_true_2 by done.
  destruct Hv as [Hv|[Hv|(-> & -> & Hk)]]; [|  |by apply facet_signal].
  - destruct Hv as (Hf & Hv & Hk). unfold EntityCatalog.facet.
    assert (Hne : field <> "journal_metric_signal" /\ field <> "work_type") by (split; intros ->; by apply (bool_decide_pack _) in Hf).
    destruct Hne as [Hne Hne2].
    rewrite (bool_decide_eq_false_2 _ Hne), (bool_decide_eq_false_2 _ Hne2), (bool_decide_eq_true_2 _ Hf), count_by_count, count_column by done. do 2 f_equal.
    apply select_refined; [cbn; by rewrite (bool_decide_eq_false_2 _ Hne)|done|]. intros r _. by apply matches_column.
  - destruct Hv as (-> & Hc & Ht). unfold EntityCatalog.facet. names. cbv iota. rewrite count_by_count, count_category. do 2 f_equal.
    destruct (category_is_filter v Hc) as (p & Hp & Hpr). apply select_refined; [done|done|]. intros r (r' & Hr' & E)%rows_for_types.
    rewrite (matches_work v p f r Hp); [|by apply (bool_decide_unpack _); revert Hc; clear; intros Hc; repeat (apply elem_of_cons in Hc as [->|Hc]); [..|by apply not_elem_of_nil in Hc]].
    f_equal. apply Hpr. intros s Hs. rewrite E in Hs. by apply (Ht r' s Hr').
Qed.

(** What a facet shows: a value, with its count. *)
Definition entry (field v : string) : Prop :=
  (field ∈ COLUMN_FACETS /\ truthy v = true) \/ (field = "journal_metric_signal" /\ v = NIF_BAYES_READY).
Lemma facet_entries org_id f d rows field counts v n :
  facet org_id f d rows field = Some counts -> In (v, n) counts -> field <> "work_type" -> count_of v counts = n /\ entry field v.
Proof.
  unfold EntityCatalog.facet. destruct (bool_decide (field = "journal_metric_signal")) eqn:E1.
  - apply bool_decide_eq_true in E1 as ->. intros [= <-] Hin _. set (k := Z.of_nat _) in *. destruct (k =? 0); [done|]. destruct Hin as [[= <- <-]|[]].
    split; [reflexivity|by right].
  - destruct (bool_decide (field = "work_type")) eqn:E2; [by apply bool_decide_eq_true in E2|]. destruct (bool_decide (field ∈ COLUMN_FACETS)) eqn:E3; [|done].
    apply bool_decide_eq_true in E3. intros [= <-] Hin _. rewrite count_by_count. unfold by_count in Hin. apply sort_by_in in Hin. unfold value_counts in Hin.
    apply in_map_iff in Hin as (x & [= <- <-] & Hx). split; [done|]. left. split; [done|]. rewrite <- list_elem_of_In, first_seen_in, list_elem_of_In in Hx.
    unfold column_values in Hx. apply in_flat_map in Hx as (r & _ & Hr). destruct (text field r) as [s|]; [|done]. destruct (truthy s) eqn:Es; [|done]. by destruct Hr as [<-|[]].
Qed.
Lemma entry_value d f field v : known_work f -> entry field v -> facet_value d f field v.
Proof. intros Hk [[? ?]|[? ?]]; [by left|by right; right]. Qed.

(** C34: The number a facet shows beside a value is the total of the list with
    that value as the facet's filter and the other filters unchanged, whatever
    the search, quality bounds, concept, page and order: for the facets on a
    column and the journal signal as long as a work type filter names a category,
    for the work types as long as the stored ones have no blanks around them. The
    facets are asked for without a batch, which the list cannot be filtered by. *)
Theorem facet_counts_match_list org_id raw f skip limit column order d field v :
  fl_batch f = None -> facet_value d f field v -> field ∈ List.filter truthy (map strip (split_on "," raw)) ->
  shown_count v field (get_facets org_id raw f d) = (get_list org_id (with_filter field v f) skip limit column order d).1.
Proof.
  intros Hb Hv Hreq. rewrite list_total. replace (list_filters (with_filter field v f)) with (with_filter field v f) by (destruct f; cbn in *; by subst).
  change (rows_for org_id (with_filter field v f) d) with (rows_for org_id f d). by apply facet_selects.
Qed.

(** * Pages *)
Lemma chunks {A} (k n : nat) (l : list A) : flat_map (fun i => firstn k (skipn (i * k) l)) (seq 0 n) = firstn (n * k) l.
Proof.
  induction n as [|n IH]; [done|]. rewrite seq_S, flat_map_app, IH. cbn [flat_map]. rewrite app_nil_r, Nat.add_0_l.
  replace (S n * k)%nat with (n * k + k)%nat by lia. clear IH. revert l. induction (n * k)%nat as [|m IHm]; intros l; [done|].
  destruct l as [|x l]; cbn [firstn skipn plus app]; [by destruct k|]. by rewrite IHm.
Qed.
Lemma unique_rows_nodup l : NoDup (map row_id l) -> unique_rows l = l.
Proof.
  unfold unique_rows. assert (H : forall l acc, NoDup (map row_id (acc ++ l)) ->
      fold_left (fun acc r => if existsb (fun x => row_id x =? row_id r) acc then acc else acc ++ [r]) l acc = acc ++ l); [|by apply (H l [])].
  clear l. induction l as [|r l IH]; intros acc Hnd; cbn [fold_left]; [by rewrite app_nil_r|].
  replace (existsb _ acc) with false.
  - rewrite IH by (by rewrite <- (assoc_L (++))). by rewrite <- (assoc_L (++)).
  - symmetry. destruct (existsb _ acc) eqn:E; [|done]. apply existsb_exists in E as (x & Hx & Ex%Z.eqb_eq).
    rewrite map_app in Hnd. apply NoDup_app in Hnd as (_ & Hd & _). exfalso. apply (Hd (row_id r)); [|by left].
    rewrite <- Ex. by apply list_elem_of_In, in_map.
Qed.
Lemma ensured_ids org_id d : map row_id (ensured org_id d) = map row_id (entities d).
Proof.
  unfold EntityCatalog.ensured. rewrite map_map. apply map_ext. intros r. destruct (in_scope _ _); [|done]. apply fill_id.
Qed.
Lemma page_nodup {A B} (g : A -> B) skip limit l : NoDup (map g l) -> NoDup (map g (page skip limit l)).
Proof.
  intros H. unfold page. rewrite <- firstn_map, <- skipn_map. 
  rewrite <- (firstn_skipn (Z.to_nat skip) (map g l)) in H. apply NoDup_app in H as (_ & _ & H).
  rewrite <- (firstn_skipn (Z.to_nat limit) (skipn _ _)) in H. by apply NoDup_app in H as (H & _ & _).
Qed.
Local Notation directed := (directed label_le nulls_first).
Local Notation sorted_rows := (sorted_rows label_le nulls_first).
Lemma opt_le_order {A} (le : A -> A -> bool) : total_le le -> trans_le le -> total_le (opt_le nulls_first le) /\ trans_le (opt_le nulls_first le).
Proof.
  intros Htot Htr. split.
  - intros [x|] [y|]; cbn; [apply Htot| | |by left]; destruct nulls_first; first [by left|by right].
  - intros [x|] [y|] [z|]; cbn; eauto; destruct nulls_first; done.
Qed.
Lemma directed_order column order : total_le label_le -> trans_le label_le -> total_le (directed column order) /\ trans_le (directed column order).
Proof.
  intros Htot Htr.
  assert (Hz : total_le Z.leb /\ trans_le Z.leb) by (split; [intros x y; rewrite !Z.leb_le; lia|intros x y z; rewrite !Z.leb_le; lia]).
  assert (Ha : total_le (ascending label_le nulls_first column) /\ trans_le (ascending label_le nulls_first column)).
  { unfold ascending. destruct (opt_le_order label_le Htot Htr) as [T1 T2], (opt_le_order Z.leb (proj1 Hz) (proj2 Hz)) as [Q1 Q2], Hz as [Z1 Z2].
    repeat case_bool_decide; split; intros x y; first [apply T1|apply Q1|apply Z1|intros z; first [apply T2|apply Q2|apply Z2]]. }
  destruct Ha as [A1 A2]. unfold EntityCatalog.directed. split; intros x y; destruct (bool_decide (order = "desc")); [apply A1..| |]; intros z; [|apply A2].
  intros H1 H2. by apply (A2 z y x).
Qed.
(** No two of the rows have the same value of the column. *)
Definition no_ties (column : string) (l : list Row) : Prop :=
  forall a b, In a l -> In b l -> ascending label_le nulls_first column a b = true -> ascending label_le nulls_first column b a = true -> a = b.
Definition TIED_COLUMNS : list string := ["quality_score"; "primary_label"; "enrichment_status"].
Lemma no_ties_id column l : column ∉ TIED_COLUMNS -> NoDup (map row_id l) -> no_ties column l.
Proof.
  intros Hc Hnd a b Ha Hb. unfold TIED_COLUMNS in Hc. rewrite !not_elem_of_cons in Hc. destruct Hc as (H1 & H2 & H3 & _). unfold ascending. rewrite !bool_decide_eq_false_2 by done.
  rewrite !Z.leb_le. intros. apply (NoDup_map_inj row_id l); [done..|lia].
Qed.
Lemma sorted_any_scan s s' column order l : total_le label_le -> trans_le label_le -> no_ties column l ->
  sorted_rows s column order l = sorted_rows s' column order l.
Proof.
  intros Htot Htr Hn. destruct (directed_order column order Htot Htr) as [H1 H2]. unfold EntityCatalog.sorted_rows. apply sort_by_unique; [done|done|by rewrite !sort_by_perm|].
  intros x y Hx%sort_by_in Hy%sort_by_in. unfold EntityCatalog.directed. destruct (bool_decide _); intros Ha Hb; by apply Hn.
Qed.


(** * Groups *)
Lemma count_labels v l : count_where (fun x => bool_decide (x = v)) (labels_of l) = Z.of_nat (List.length (List.filter (text_is "primary_label" v) l)).
Proof.
  induction l as [|r l IH]; [done|]. cbn [labels_of flat_map List.filter]. rewrite count_where_app. fold (labels_of l). rewrite IH.
  unfold text_is at 2. destruct (text "primary_label" r) as [x|]; [|done]. unfold count_where. cbn [List.filter].
  rewrite (bool_decide_ext (Some x = Some v) (x = v)) by (split; congruence). destruct (bool_decide (x = v)); cbn [List.length]; lia.
Qed.
(** A group's count is the number of its variants, and these are all the rows
    with its label; a label has one group. *)
Lemma groups_exact org_id skip limit search d :
  let '(total, groups) := get_grouped ilike org_id skip limit search d in
  NoDup (map gr_label groups) /\ Z.of_nat (List.length groups) <= total /\
  Forall (fun g => gr_count g = Z.of_nat (List.length (gr_variants g)) /\ given search (fun s => ilike (gr_label g) s) = true /\
                   forall r, In r (gr_variants g) <-> In r (scoped row_org org_id (entities d)) /\ text "primary_label" r = Some (gr_label g)) groups.
Proof.
  unfold get_grouped. set (l := scoped row_org org_id (entities d)).
  set (gs := List.filter (fun g => given search (fun s => ilike g.1 s)) (value_counts (labels_of l))).
  assert (Hg : forall g, In g (page skip limit (by_count gs)) -> In g gs).
  { intros g H. unfold page in H. apply (sort_by_in (fun a b => b.2 <=? a.2)). rewrite <- (firstn_skipn (Z.to_nat skip) (sort_by _ _)).
    apply in_app_iff. right. rewrite <- (firstn_skipn (Z.to_nat limit) (skipn _ _)). apply in_app_iff. by left. }
  split; [|split].
  - rewrite map_map. cbn [gr_label]. apply page_nodup. unfold by_count. rewrite sort_by_perm. apply NoDup_map_filter.
    change (NoDup (dict_keys (value_counts (labels_of l)))). rewrite value_counts_keys. apply first_seen_NoDup.
  - rewrite length_map. unfold page. rewrite length_firstn, length_skipn. lia.
  - apply Forall_forall. intros g (x & <- & Hx)%list_elem_of_In%in_map_iff. apply Hg, filter_In in Hx as [Hx Hs]. cbn [gr_count gr_variants gr_label].
    unfold value_counts in Hx. apply in_map_iff in Hx as (v & <- & _). cbn [fst snd] in *. rewrite count_labels. split; [done|]. split; [done|].
    intros r. rewrite filter_In. unfold text_is. by rewrite bool_decide_eq_true.
Qed.

(** * Scores *)
(** The cap is never reached: a score is the sum of its contributions, between
    nothing and everything. *)
Lemma score_sum confirmed linked r :
  score_entity loads confirmed linked r = fold_right Z.add 0 (map snd (breakdown loads confirmed linked r)) /\
  0 <= score_entity loads confirmed linked r <= 10000.
Proof.
  unfold score_entity, breakdown. cbn [map snd fold_right].
  assert (H : forall (b : bool) w, 0 <= w -> 0 <= (if b then w else 0) <= w) by (intros [] w ?; lia).
  pose proof (H (present_text (text "primary_label" r)) 1500). pose proof (H (present_text (text "secondary_label" r)) 1000).
  pose proof (H (present_text (text "canonical_id" r)) 1000). pose proof (H (present_text (text "entity_type" r)) 500).
  pose proof (H (has_status COMPLETED r) 2500). pose proof (H (has_status COMPLETED r && present_text (text "enrichment_doi" r)) 500).
  pose proof (H (authority_confirmed loads confirmed r) 2000). pose proof (H (bool_decide (row_id r ∈ linked)) 1000). lia.
Qed.
End facts.

(** * Edits *)
Section edits.
Context (tenants : Tenants) (json_dumps : json -> string) (set_order : list string -> list string).
Inductive EOp :=
  | Update (now : Z) (u : User) (id : Z) (updates : list (string * json)) | BulkUpdate (now : Z) (u : User) (ids : list Z) (updates : list (string * json))
  | BulkDelete (now : Z) (u : User) (ids : list Z) | Purge (u : User) (include_rules : bool) | Delete (now : Z) (u : User) (id : Z).
Definition editor (op : EOp) : User :=
  match op with Update _ u _ _ | BulkUpdate _ u _ _ | BulkDelete _ u _ | Purge u _ | Delete _ u _ => u end.
Definition eexec (op : EOp) (d : CDb) : CDb :=
  match op with
  | Update now u id updates => match update_entity tenants json_dumps now u id updates d with Ok x => x.2 | Raise _ => d end
  | BulkUpdate now u ids updates => match update_entities_bulk tenants json_dumps set_order now u ids updates d with Ok x => x.1.2 | Raise _ => d end
  | BulkDelete now u ids => match delete_entities_bulk tenants json_dumps now u ids d with Ok x => x.2 | Raise _ => d end
  | Purge u include_rules => match purge_all_entities tenants u include_rules d with Ok x => x.2 | Raise _ => d end
  | Delete now u id => match delete_entity tenants json_dumps now u id d with Ok x => x.1 | Raise _ => d end
  end.
Definition outside (org_id : option Z) (r : Row) : bool := negb (in_scope org_id (row_org r)).
Lemma set_all_keeps updates r : row_id (set_all updates r) = row_id r /\ row_org (set_all updates r) = row_org r.
Proof. unfold set_all. revert r. induction updates as [|fv l IH]; intros r; cbn [fold_left]; [done|]. destruct (IH (set fv.1 fv.2 r)) as [-> ->]. by split. Qed.
Lemma scoped_entity_in org_id id d r : scoped_entity org_id id d = Ok r -> In r (entities d) /\ in_scope org_id (row_org r) = true.
Proof.
  unfold scoped_entity, get_scoped_record. rewrite (scoped_query raw_entity_model row_org) by done. cbn [res_bind].
  destruct (List.find _ _) as [x|] eqn:E; [|done]. intros [= ->]. apply find_some in E as [H _]. rewrite scoped_filter in H. by apply filter_In in H.
Qed.
(** The rows a request may touch: those in the editor's scope. *)
Definition touches_inside (org_id : option Z) (p : Row -> bool) (d : CDb) : Prop := forall r, In r (entities d) -> p r = true -> in_scope org_id (row_org r) = true.
Lemma outside_updated org_id p updates d : touches_inside org_id p d ->
  List.filter (outside org_id) (update_where p (set_all updates) (entities d)) = List.filter (outside org_id) (entities d).
Proof.
  unfold touches_inside. generalize (entities d). intros l H. induction l as [|r l IH]; [done|]. cbn [update_where map List.filter].
  fold (update_where p (set_all updates) l). rewrite IH by (intros x Hx; apply H; by right).
  destruct (p r) eqn:E; [|done]. replace (outside org_id (set_all updates r)) with false; [replace (outside org_id r) with false; [done|]|];
    unfold outside; rewrite ?(proj2 (set_all_keeps updates r)); by rewrite (H r (or_introl eq_refl) E).
Qed.
Lemma outside_deleted org_id p d : touches_inside org_id p d ->
  List.filter (outside org_id) (List.filter (fun r => negb (p r)) (entities d)) = List.filter (outside org_id) (entities d).
Proof.
  intros H. rewrite filter_filter. apply filter_ext_in. intros r Hr. destruct (p r) eqn:E; [|done]. unfold outside. by rewrite (H r Hr E).
Qed.
Lemma one_row org_id id d r : NoDup (map row_id (entities d)) -> scoped_entity org_id id d = Ok r -> touches_inside org_id (fun x => row_id x =? row_id r) d.
Proof.
  intros Hnd H x Hx E%Z.eqb_eq. apply scoped_entity_in in H as [Hin Hs]. by rewrite (NoDup_map_inj row_id _ _ _ Hnd Hx Hin E).
Qed.
Lemma selected_inside org_id ids d : touches_inside org_id (fun r => in_scope org_id (row_org r) && in_ids ids r) d.
Proof. by intros r _ [H _]%andb_prop. Qed.

Definition kept_outside (org_id : option Z) (d d' : CDb) : Prop :=
  List.filter (outside org_id) (entities d') = List.filter (outside org_id) (entities d) /\
  List.filter (fun x => negb (in_scope org_id x.2)) (rules d') = List.filter (fun x => negb (in_scope org_id x.2)) (rules d) /\
  incl (map (fun r => (row_id r, row_org r)) (entities d')) (map (fun r => (row_id r, row_org r)) (entities d)).
Lemma updated_inside org_id p updates now action u id details d : touches_inside org_id p d ->
  kept_outside org_id d (audited_entity json_dumps now action u id details (update_rows p updates d)).
Proof.
  intros H. split; [by apply outside_updated|]. split; [done|]. cbn. unfold update_where. rewrite map_map.
  intros x (r & <- & Hr)%in_map_iff. apply in_map_iff. exists r. split; [|done]. destruct (p r); [|done].
  by destruct (set_all_keeps updates r) as [-> ->].
Qed.
Lemma deleted_inside org_id p d d' : touches_inside org_id p d -> entities d' = entities (delete_rows p d) ->
  List.filter (fun x => negb (in_scope org_id x.2)) (rules d') = List.filter (fun x => negb (in_scope org_id x.2)) (rules d) -> kept_outside org_id d d'.
Proof.
  intros H E Hr. split; [rewrite E; by apply outside_deleted|]. split; [done|]. rewrite E. cbn.
  intros x (r & <- & Hx)%in_map_iff. apply filter_In in Hx as [Hx _]. apply in_map_iff. by exists r.
Qed.
(** No edit and no deletion leaves the editor's scope: after any request the
    rows outside it, and the rules outside it, are what they were; the update
    changes no row's identity or organisation. *)
Theorem edits_confined op d org_id :
  NoDup (map row_id (entities d)) -> reader_scope tenants (editor op) = Ok org_id ->
  kept_outside org_id d (eexec op d).
Proof.
  intros Hnd Hs. assert (Hrefl : kept_outside org_id d d) by (split; [done|]; split; [done|apply incl_refl]).
  destruct op; cbn [editor eexec] in *.
  - unfold update_entity, editor_scope. destruct (require_role _ _); [|exact Hrefl]. cbn [res_bind]. rewrite Hs. cbn [res_bind].
    destruct (scoped_entity _ _ _) as [r|] eqn:E; [|exact Hrefl]. cbn [res_bind snd]. apply updated_inside. by eapply one_row.
  - unfold update_entities_bulk, editor_scope. destruct (require_role _ _); [|exact Hrefl]. cbn [res_bind]. rewrite Hs. cbn [res_bind].
    destruct (_ || _); [exact Hrefl|]. destruct (List.filter _ (dict_keys _)); [|exact Hrefl]. destruct (negb _); [exact Hrefl|].
    cbn [snd fst]. apply updated_inside, selected_inside.
  - unfold delete_entities_bulk, editor_scope. destruct (require_role _ _); [|exact Hrefl]. cbn [res_bind]. rewrite Hs. cbn [res_bind].
    destruct (negb _); [exact Hrefl|]. cbn [snd]. apply (deleted_inside _ _ _ _ (selected_inside org_id ids d)); done.
  - unfold purge_all_entities, editor_scope. destruct (require_role _ _); [|exact Hrefl]. cbn [res_bind]. rewrite Hs. cbn [res_bind snd].
    apply (deleted_inside org_id (fun r => in_scope org_id (row_org r))); [by intros r _ H|by destruct include_rules|]. destruct include_rules; [|done]. cbn [rules delete_rows]. rewrite filter_filter.
    apply filter_ext. intros x. by destruct (in_scope org_id x.2).
  - unfold delete_entity, editor_scope. destruct (require_role _ _); [|exact Hrefl]. cbn [res_bind]. rewrite Hs. cbn [res_bind].
    destruct (scoped_entity _ _ _) as [r|] eqn:E; [|exact Hrefl]. cbn [res_bind fst]. apply (deleted_inside _ _ _ _ (one_row _ _ _ _ Hnd E)); done.
Qed.
End edits.

(** * On concrete tables *)
Definition plain_json (v : json) : string := dumps false v.
Definition in_text (value searched : string) : bool := contains (lower searched) (lower value).
Definition row (id org : Z) (cols : list (string * json)) : Row := mkRow id (Some org) cols.
Definition ex_rows : list Row :=
  [row 1 7 [("entity_type", JStr "publication"); (WORK_TYPE, JStr "article")]; row 2 7 [("entity_type", JStr "publication"); (WORK_TYPE, JStr "Review")];
   row 3 7 [("entity_type", JStr "author")]; row 4 8 [("entity_type", JStr "publication"); (WORK_TYPE, JStr " article")]].
Definition ex_db : CDb := mkC ex_rows [mkMark (Some 8) (Some "Ada") "confirmed"] [] [] [(1, Some 8)] [] [].
Definition by_id (skip limit : Z) (r : Row) : Z := row_id r.
Definition the_list := get_list loads in_text lower str_le true by_id.
Definition the_facets := get_facets loads in_text lower.
Definition an_editor : User := mkUser 1 "editor" (Some 7).
Definition one_org : Tenants := mkTenants [mkOrg 7 "a" "A" None (Some true)] [mkMember 7 1].

Lemma facet_counts_match_list_witness :
  shown_count "article" "work_type" (the_facets (Some 7) "entity_type, work_type" no_filter ex_db) = 2 /\
  (the_list (Some 7) (with_filter "work_type" "article" no_filter) 0 1 "id" "asc" ex_db).1 = 2 /\
  shown_count "publication" "entity_type" (the_facets (Some 7) "entity_type, work_type" no_filter ex_db)
  = (the_list (Some 7) (with_filter "entity_type" "publication" no_filter) 0 1 "id" "asc" ex_db).1.
Proof.
  split; [vm_compute; reflexivity|]. split; [vm_compute; reflexivity|].
  apply (facet_counts_match_list loads in_text lower str_le true by_id (Some 7) "entity_type, work_type" no_filter 0 1 "id" "asc" ex_db "entity_type" "publication").
  - reflexivity.
  - left. repeat split; by left.
  - apply list_elem_of_In. left. reflexivity.
Defined.
Lemma str_le_order : total_le str_le /\ trans_le str_le.
Proof. split; intros x; [intros y; apply str_le_total|intros y z; apply str_le_trans]. Qed.
Lemma edits_confined_witness :
  kept_outside (Some 7) ex_db (eexec one_org plain_json (fun l => l) (BulkDelete 5 an_editor [1; 4]) ex_db).
Proof.
  apply (edits_confined one_org plain_json (fun l => l) (BulkDelete 5 an_editor [1; 4]) ex_db (Some 7)).
  - apply (bool_decide_unpack _). reflexivity.
  - reflexivity.
Defined.

(** * Findings *)

(** A work type with a blank is counted with the articles, and listed with the
    others. *)
Lemma untidy_work_type :
  shown_count "article" "work_type" (the_facets (Some 8) "work_type" no_filter ex_db) = 1 /\
  (the_list (Some 8) (with_filter "work_type" "article" no_filter) 0 10 "id" "asc" ex_db).1 = 0 /\
  (the_list (Some 8) (with_filter "work_type" "other" no_filter) 0 10 "id" "asc" ex_db).1 = 1.
Proof. vm_compute. repeat split. Qed.
(** A work type that is no category empties the list and leaves the facets as if
    it had not been given. *)
Lemma unknown_work_type :
  shown_count "publication" "entity_type" (the_facets (Some 7) "entity_type" (with_filter "work_type" "poster" no_filter) ex_db) = 2 /\
  (the_list (Some 7) (with_filter "entity_type" "publication" (with_filter "work_type" "poster" no_filter)) 0 10 "id" "asc" ex_db).1 = 0.
Proof. vm_compute. repeat split. Qed.
(** A label one organisation has confirmed raises the score of another's entity. *)
Lemma confirmation_counts_everywhere :
  let r := row 9 7 [("primary_label", JStr "Ada")] in
  score loads ex_db r = 3500 /\ score loads (mkC ex_rows [] [] [] [] [] []) r = 1500 /\ map am_org (authority ex_db) = [Some 8].
Proof. vm_compute. repeat split. Qed.
(** In the scope of those without an organisation no journal has a metric: the
    scope's marker is compared with the column, which is null. *)
Lemma legacy_scope_has_no_metrics d r : Forall (fun j => jm_org j <> Some LEGACY_GLOBAL_ORG_ID) (journals d) ->
  ready_metrics (Some LEGACY_GLOBAL_ORG_ID) d r = [].
Proof.
  unfold ready_metrics. induction 1 as [|j l Hj _ IH]; [done|]. cbn [List.filter]. rewrite (bool_decide_eq_false_2 (jm_org j = _)) by done.
  rewrite andb_false_r. cbn [andb]. exact IH.
Qed.
(** The uniqueness of a metric does not hold where the organisation is null: the
    total then counts a row twice that a page shows once. *)
Lemma joined_rows_counted_twice :
  let d := mkC [mkRow 1 None [("enrichment_issn_l", JStr "1")]] [] []
             [mkMetric None "1" (Some 1) (Some 1); mkMetric None "1" (Some 2) (Some 2)] [] [] [] in
  let f := mkFilters None None None None None None None None None None None (Some NIF_BAYES_READY) in
  (the_list None f 0 10 "id" "asc" d).1 = 2 /\ List.length (the_list None f 0 10 "id" "asc" d).2 = 1%nat.
Proof. vm_compute. repeat split. Qed.
(** The order names one column that is not unique: where the database scans the
    table differently for two pages, a row comes twice and another never. *)
Lemma ties_move_between_pages :
  let scan (skip limit : Z) (r : Row) := if skip =? 0 then row_id r else - row_id r in
  let pages := get_list loads in_text lower str_le true scan (Some 7) (with_filter "entity_type" "publication" no_filter) in
  map row_id (pages 0 1 "enrichment_status" "asc" ex_db).2 = [1] /\ map row_id (pages 1 1 "enrichment_status" "asc" ex_db).2 = [1].
Proof. vm_compute. repeat split. Qed.
