(* ===== verification/Portals.v ===== *)
(** * Catalogue portals
      (src/backend/routers/catalogs.py)

    A portal is a saved view of the entities of a domain or of an import batch,
    which its organisation, and the public if it is public, can browse. Which
    domains exist ([domain_exists], the schema registry) is a parameter, and so
    are those of [EntityCatalog]; a saved quality is its ten-thousandths there
    too. The translation of titles is left out. *)
From S2P Require Import Prelude PyStr PyJson PyValue TenantAccess JobsApi Entities Coauthor UnionFind Enrichment AuditTrail EntityCatalog.
From Stdlib Require Import Ascii String.

Local Open Scope string_scope.
Local Open Scope list_scope.
Local Open Scope Z_scope.
Local Open Scope py_scope.

(** * Tables *)
Record Portal := mkPortal {
  pt_id : Z; pt_org : option Z; pt_batch : option Z; pt_domain : string; pt_title : string; pt_slug : string; pt_description : option string;
  pt_visibility : string; pt_label : option string; pt_context : string; pt_query : string; pt_facets : string; pt_sort : string; pt_author : Z;
  pt_created : Z; pt_updated : Z }.
Record Batch := mkBatch {
  bt_id : Z; bt_org : option Z; bt_domain : string; bt_source : string; bt_file : option string; bt_format : option string; bt_label : option string;
  bt_total : option Z; bt_hint : option string; bt_created : Z }.
Record PDb := mkP { catalog : CDb; portals : list Portal; batches : list Batch; portal_seq : Z }.
Definition portal_model : Model Portal := mkModel "CatalogPortal" pt_id (Some pt_org).
Definition batch_model : Model Batch := mkModel "ImportBatch" bt_id (Some bt_org).
Definition with_portals (f : list Portal -> list Portal) (d : PDb) : PDb := mkP (catalog d) (f (portals d)) (batches d) (portal_seq d).

(** * Slugs and facets *)
Definition slug_edge (c : ascii) : bool := ((97 <=? code c) && (code c <=? 122) || (48 <=? code c) && (code c <=? 57))%N.
Definition slug_char (c : ascii) : bool := slug_edge c || bool_decide (c = "-"%char).
(** [_SLUG_RE], on a text without blanks at its ends. *)
Definition slug_ok (s : string) : bool :=
  let l := chars s in
  (3 <=? List.length l)%nat && (List.length l <=? 120)%nat && forallb slug_char l
  && match l with c :: _ => slug_edge c | [] => false end && match rev l with c :: _ => slug_edge c | [] => false end.
Definition normalize_slug (slug : string) : res string :=
  let normalized := lower (strip slug) in
  if slug_ok normalized then Ok normalized else Raise (HTTPException 422 "slug must be 3-120 lowercase alphanumeric characters or hyphens").
Definition ALLOWED_SORTS : list string := ["id"; "quality_score"; "primary_label"; "enrichment_status"].
Definition ALLOWED_ORDERS : list string := ["asc"; "desc"].
Definition ALLOWED_FACETS : list string := ["entity_type"; "domain"; "validation_status"; "enrichment_status"; "source"; "journal_metric_signal"].
Definition normalize_featured_facets (fields : list string) : list string :=
  let normalized :=
    fold_left (fun acc x => if bool_decide (x = "domain") then acc
                            else if bool_decide (x ∈ ALLOWED_FACETS) && negb (bool_decide (x ∈ acc)) then acc ++ [x] else acc) fields [] in
  if bool_decide ("journal_metric_signal" ∈ normalized) then normalized else normalized ++ ["journal_metric_signal"].

(** * The saved view *)
Definition parse_json (raw : string) (fallback : json) : json :=
  if truthy raw then match loads raw with Some v => v | None => fallback end else fallback.
Record Defaults := mkDefaults { df_filters : Filters; df_sort : string; df_order : string }.
Definition saved_text (k : string) (m : list (string * json)) : option string := match get_key k m with JStr s => Some s | _ => None end.
Definition saved_number (k : string) (m : list (string * json)) : option Z := match get_key k m with JInt z => Some z | _ => None end.
Definition or_text (o : option string) (default : string) : string := match o with Some s => if truthy s then s else default | None => default end.
Definition portal_query_defaults (p : Portal) : Defaults :=
  let m := match parse_json (pt_query p) (JObj []) with JObj m => m | _ => [] end in
  mkDefaults
    (mkFilters (saved_text "search" m) (saved_number "min_quality" m) (saved_number "max_quality" m) None None (saved_text "ft_entity_type" m) None
       (saved_text "ft_validation_status" m) (saved_text "ft_enrichment_status" m) (saved_text "ft_source" m) None (saved_text "ft_journal_metric_signal" m))
    (or_text (saved_text "sort_by" m) (or_text (Some (pt_sort p)) "primary_label")) (or_text (saved_text "order" m) "asc").
Definition first_some {A} (a b : option A) : option A := match a with Some _ => a | None => b end.
(** A visitor's filters over the saved ones. *)
Record Asked := mkAsked { as_filters : Filters; as_sort : option string; as_order : option string }.
Definition resolve_filters (p : Portal) (a : Asked) : Defaults :=
  let d := portal_query_defaults p in
  let f := as_filters a in let g := df_filters d in
  let sort := match as_sort a with Some s => s | None => df_sort d end in
  let order := match as_order a with Some s => s | None => df_order d end in
  mkDefaults
    (mkFilters (first_some (fl_search f) (fl_search g)) (first_some (fl_min f) (fl_min g)) (first_some (fl_max f) (fl_max g)) None None
       (first_some (fl_type f) (fl_type g)) None (first_some (fl_validation f) (fl_validation g)) (first_some (fl_enrichment f) (fl_enrichment g))
       (first_some (fl_source f) (fl_source g)) None (if bool_decide (fl_journal f = Some NIF_BAYES_READY) then fl_journal f else None))
    (if bool_decide (sort ∈ ALLOWED_SORTS) then sort else "primary_label") (if bool_decide (order ∈ ALLOWED_ORDERS) then order else "asc").
Definition has_batch (p : Portal) : bool := match pt_batch p with Some b => negb (b =? 0) | None => false end.
Definition in_portal (p : Portal) (r : Row) : bool :=
  if has_batch p then bool_decide (batch_id r = pt_batch p) else text_is "domain" (pt_domain p) r.

Section portals.
Context (eloads : string -> option json) (ilike : string -> string -> bool) (db_lower : string -> string)
  (label_le : string -> string -> bool) (nulls_first : bool) (scan : Z -> Z -> Row -> Z) (tenants : Tenants) (domain_exists : string -> bool).

(** [_apply_entity_filters] *)
Definition passes (f : Filters) (r : Row) : bool :=
  given (fl_search f) (fun s => matches_search ilike s r) && in_quality f r
  && given (fl_type f) (fun v => text_is "entity_type" v r) && given (fl_validation f) (fun v => text_is "validation_status" v r)
  && given (fl_enrichment f) (fun v => text_is "enrichment_status" v r) && given (fl_source f) (fun v => text_is "source" v r).
Definition apply_entity_filters (org_id : option Z) (f : Filters) (d : CDb) (l : list Row) : list Row :=
  filter_journal (fl_journal f) org_id d (List.filter (passes f) l).
Definition portal_entity_query (p : Portal) (org_id : option Z) (f : Filters) (d : CDb) : list Row :=
  let rows := if by_quality f then ensured eloads org_id d else entities d in
  apply_entity_filters org_id f d (List.filter (in_portal p) (scoped row_org org_id rows)).

(** * Who may look *)
Definition no_portal : exn := HTTPException 404 "Catalog portal not found".
Definition get_scoped_portal (slug : string) (org_id : option Z) (d : PDb) : res Portal :=
  match List.find (fun p => bool_decide (pt_slug p = slug)) (scoped pt_org org_id (portals d)) with Some p => Ok p | None => Raise no_portal end.
Definition get_public_portal (slug : string) (d : PDb) : res Portal :=
  match List.find (fun p => bool_decide (pt_slug p = slug) && bool_decide (pt_visibility p = "public")) (portals d) with
  | Some p => Ok p
  | None => Raise no_portal
  end.
Definition resolve_portal_access (slug : string) (visitor : option User) (d : PDb) : res (Portal * option Z) :=
  let public := let? p := get_public_portal slug d in Ok (p, pt_org p) in
  match visitor with
  | None => public
  | Some u =>
      let? org_id := reader_scope tenants u in
      match get_scoped_portal slug org_id d with Ok p => Ok (p, org_id) | Raise _ => public end
  end.

(** * What is shown *)
Definition list_catalog_portals (u : User) (d : PDb) : res (list Portal) :=
  let? org_id := reader_scope tenants u in
  Ok (sort_by (fun a b => (pt_created b <? pt_created a) || (pt_created a =? pt_created b) && (pt_id b <=? pt_id a)) (scoped pt_org org_id (portals d))).
Definition newest_batches (org_id : option Z) (d : PDb) : list Batch :=
  sort_by (fun a b => (bt_created b <? bt_created a) || (bt_created a =? bt_created b) && (bt_id b <=? bt_id a)) (scoped bt_org org_id (batches d)).
Definition list_import_batches (u : User) (d : PDb) : res (list Batch) :=
  let? org_id := reader_scope tenants u in
  Ok (newest_batches org_id d).
(** ** Import candidates *)
(** What a portal can be made of: a batch, or the rows of no batch that share a
    domain, a source and a type. An average is given by the qualities it is taken
    of. *)
Record Candidate := mkCandidate {
  ca_kind : string; ca_batch : option Z; ca_domain : string; ca_source : string; ca_type : option string; ca_total : option Z; ca_qualities : list Z;
  ca_label : string; ca_ft_source : option string; ca_ft_type : option string; ca_created : option Z; ca_format : option string }.
Definition batch_candidate (b : Batch) : Candidate :=
  mkCandidate "batch" (Some (bt_id b)) (bt_domain b) (bt_source b) (bt_hint b) (bt_total b) []
    (or_text (bt_label b) (or_text (bt_file b) ("Batch #" ++ str_of_Z (bt_id b))%string)) None (bt_hint b) (Some (bt_created b)) (bt_format b).
Definition Scope : Type := option string * option string * option string.
Definition scope_key (r : Row) : Scope := (text "domain" r, text "source" r, text "entity_type" r).
Definition rows_of (k : Scope) (l : list Row) : list Row := List.filter (fun r => bool_decide (scope_key r = k)) l.
Definition rows_of_no_batch (org_id : option Z) (d : PDb) : list Row :=
  List.filter (fun r => negb (is_some (batch_id r))) (scoped row_org org_id (entities (catalog d))).
Definition qualities (l : list Row) : list Z := flat_map (fun r => match quality r with Some q => [q] | None => [] end) l.
Definition middle_dot : string := String " " (String (ascii_of_N 183) " ").
Definition scope_candidate (l : list Row) (k : Scope) : Candidate :=
  let '(domain, source, type) := k in
  let domain_id := or_text domain "default" in let source := or_text source "user" in
  let label := (domain_id ++ middle_dot ++ source)%string in
  mkCandidate "legacy_scope" None domain_id source type (Some (Z.of_nat (List.length (rows_of k l)))) (qualities (rows_of k l))
    (match type with Some t => if truthy t then (label ++ middle_dot ++ t)%string else label | None => label end) (Some source) type None None.
(** Most rows first, then by domain and source. *)
Definition scope_before (l : list Row) (a b : Scope) : bool :=
  let count k := List.length (rows_of k l) in
  let le := opt_le nulls_first label_le in
  ((count b <? count a) || (count a =? count b) && (if bool_decide (a.1.1 = b.1.1) then le a.1.2 b.1.2 else le a.1.1 b.1.1))%nat.
Definition CANDIDATES_CAP : nat := 12.
Definition list_catalog_import_candidates (u : User) (d : PDb) : res (list Candidate) :=
  let? org_id := reader_scope tenants u in
  let candidates := map batch_candidate (firstn CANDIDATES_CAP (newest_batches org_id d)) in
  let l := rows_of_no_batch org_id d in
  let rows := firstn (CANDIDATES_CAP - List.length candidates) (sort_by (scope_before l) (first_seen (map scope_key l))) in
  Ok (candidates ++ map (scope_candidate l) rows).
(** ** A portal *)
(** The totals, and the qualities an average is taken of. *)
Record Summary := mkSummary { su_total : Z; su_enriched : Z; su_qualities : list Z }.
Definition without (f : Filters) (search : option string) : Filters :=
  mkFilters search (fl_min f) None None None (fl_type f) None (fl_validation f) (fl_enrichment f) (fl_source f) None None.
Definition get_catalog_portal (slug : string) (visitor : option User) (d : PDb) : res (Portal * Summary) :=
  let? access := resolve_portal_access slug visitor d in
  let '(p, org_id) := access in
  let f := df_filters (portal_query_defaults p) in
  let l := portal_entity_query p org_id (without f (fl_search f)) (catalog d) in
  Ok (p, mkSummary (Z.of_nat (List.length l)) (count_where (text_is "enrichment_status" "completed") l)
           (qualities l)).
Record Results := mkResults { re_view : Defaults; re_total : Z; re_items : list Row; re_facets : list (string * list (string * Z)) }.
Definition featured (p : Portal) : list string :=
  normalize_featured_facets (match parse_json (pt_facets p) (JArr []) with JArr l => flat_map (fun v => match v with JStr s => [s] | _ => [] end) l | _ => [] end).
(** The filters of the facets: the batch, or the domain, is one of them. *)
Definition facet_filters (p : Portal) (f : Filters) : Filters :=
  mkFilters (fl_search f) (fl_min f) (fl_max f) (pt_batch p) None (fl_type f) (if has_batch p then None else Some (pt_domain p)) (fl_validation f)
    (fl_enrichment f) (fl_source f) None (fl_journal f).
Definition get_catalog_results (slug : string) (visitor : option User) (a : Asked) (skip limit : Z) (d : PDb) : res Results :=
  let? access := resolve_portal_access slug visitor d in
  let '(p, org_id) := access in
  let view := resolve_filters p a in
  let l := portal_entity_query p org_id (df_filters view) (catalog d) in
  Ok (mkResults view (Z.of_nat (List.length l)) (unique_rows (page skip limit (sorted_rows label_le nulls_first (scan skip limit) (df_sort view) (df_order view) l)))
        (get_facets eloads ilike db_lower org_id (join "," (featured p)) (facet_filters p (df_filters view)) (catalog d))).
Definition get_catalog_record (slug : string) (id : Z) (visitor : option User) (d : PDb) : res Row :=
  let? access := resolve_portal_access slug visitor d in
  let '(p, org_id) := access in
  match List.find (fun r => row_id r =? id) (portal_entity_query p org_id (without (df_filters (portal_query_defaults p)) None) (catalog d)) with
  | Some r => Ok r
  | None => Raise (HTTPException 404 "Catalog record not found")
  end.

(** * Making and changing a portal *)
Record PortalCreate := mkPC {
  pc_title : string; pc_slug : string; pc_description : option string; pc_batch : option Z; pc_domain : string; pc_visibility : string;
  pc_label : option string; pc_context : list (string * json); pc_filters : Filters; pc_sort : string; pc_order : string; pc_facets : list string }.
Record PortalUpdate := mkPU {
  pu_title : option string; pu_description : option string; pu_batch : option Z; pu_visibility : option string; pu_label : option string;
  pu_context : option (list (string * json)); pu_filters : Filters; pu_sort : option string; pu_order : option string; pu_facets : option (list string) }.
Definition VISIBILITIES : list string := ["private"; "org"; "public"].
Definition quality_bound (o : option Z) : bool := match o with Some q => (0 <=? q) && (q <=? 10000) | None => true end.
Definition valid_create (p : PortalCreate) : bool :=
  bool_decide (pc_visibility p ∈ VISIBILITIES) && quality_bound (fl_min (pc_filters p)) && bool_decide (pc_sort p ∈ ALLOWED_SORTS)
  && bool_decide (pc_order p ∈ ALLOWED_ORDERS).
Definition j_text (o : option string) : json := match o with Some s => JStr s | None => JNull end.
Definition j_number (o : option Z) : json := match o with Some z => JInt z | None => JNull end.
(** [json.dumps] of what a view saves. *)
Definition query_json (f : Filters) (journal : list (string * json)) (sort order : string) : string :=
  dumps false (JObj ([("search", j_text (fl_search f)); ("min_quality", j_number (fl_min f)); ("ft_entity_type", j_text (fl_type f));
                      ("ft_validation_status", j_text (fl_validation f)); ("ft_enrichment_status", j_text (fl_enrichment f)); ("ft_source", j_text (fl_source f))]
                     ++ journal ++ [("sort_by", JStr sort); ("order", JStr order)])).
Definition scoped_batch (org_id : option Z) (id : Z) (domain : string) (d : PDb) : res Z :=
  match List.find (fun b => bt_id b =? id) (scoped bt_org org_id (batches d)) with
  | None => Raise (HTTPException 404 "Import batch not found")
  | Some b => if bool_decide (bt_domain b = domain) then Ok (bt_id b) else Raise (HTTPException 422 "Import batch domain does not match portal domain")
  end.
Definition opt_batch (org_id : option Z) (o : option Z) (domain : string) (d : PDb) : res (option Z) :=
  match o with None => Ok None | Some b => let? id := scoped_batch org_id b domain d in Ok (Some id) end.
Definition create_catalog_portal (now : Z) (u : User) (p : PortalCreate) (d : PDb) : res (Portal * PDb) :=
  let? org_id := editor_scope tenants u in
  if negb (domain_exists (pc_domain p)) then Raise (HTTPException 422 "Unknown domain")
  else
    let? slug := normalize_slug (pc_slug p) in
    if existsb (fun x => bool_decide (pt_slug x = slug)) (portals d) then Raise (HTTPException 409 "Catalog portal slug already exists")
    else
      let? batch := opt_batch org_id (pc_batch p) (pc_domain p) d in
      let portal := mkPortal (portal_seq d) (persisted_org_id org_id) batch (pc_domain p) (strip (pc_title p)) slug (pc_description p) (pc_visibility p)
        (pc_label p) (dumps false (JObj (pc_context p)))
        (query_json (pc_filters p) [("ft_journal_metric_signal", JNull)] (pc_sort p) (pc_order p))
        (dumps false (JArr (map JStr (normalize_featured_facets (pc_facets p))))) (pc_sort p) (user_id u) now now in
      Ok (portal, mkP (catalog d) (portals d ++ [portal]) (batches d) (portal_seq d + 1)).
Definition set_or {A} (v : option A) (old : A) : A := match v with Some x => x | None => old end.
Definition merged_filters (f g : Filters) : Filters :=
  mkFilters (first_some (fl_search f) (fl_search g)) (first_some (fl_min f) (fl_min g)) None None None (first_some (fl_type f) (fl_type g)) None
    (first_some (fl_validation f) (fl_validation g)) (first_some (fl_enrichment f) (fl_enrichment g)) (first_some (fl_source f) (fl_source g)) None None.
Definition updated_portal (now : Z) (org_id : option Z) (u : PortalUpdate) (p : Portal) (d : PDb) : res Portal :=
  let df := portal_query_defaults p in
  let? batch := match pu_batch u with None => Ok (pt_batch p) | Some b => let? id := scoped_batch org_id b (pt_domain p) d in Ok (Some id) end in
  Ok (mkPortal (pt_id p) (pt_org p) batch (pt_domain p) (match pu_title u with Some t => strip t | None => pt_title p end) (pt_slug p)
        (first_some (pu_description u) (pt_description p)) (set_or (pu_visibility u) (pt_visibility p)) (first_some (pu_label u) (pt_label p))
        (match pu_context u with Some m => dumps false (JObj m) | None => pt_context p end)
        (query_json (merged_filters (pu_filters u) (df_filters df)) [] (set_or (pu_sort u) (df_sort df)) (set_or (pu_order u) (df_order df)))
        (match pu_facets u with Some l => dumps false (JArr (map JStr (normalize_featured_facets l))) | None => pt_facets p end)
        (set_or (pu_sort u) (pt_sort p)) (pt_author p) (pt_created p) now).
Definition update_catalog_portal (now : Z) (u : User) (slug : string) (p : PortalUpdate) (d : PDb) : res (Portal * PDb) :=
  let? org_id := editor_scope tenants u in
  let? old := get_scoped_portal slug org_id d in
  let? new := updated_portal now org_id p old d in
  Ok (new, with_portals (map (fun x => if pt_id x =? pt_id old then new else x)) d).
Definition delete_catalog_portal (u : User) (slug : string) (d : PDb) : res PDb :=
  let? org_id := editor_scope tenants u in
  let? old := get_scoped_portal slug org_id d in
  Ok (with_portals (List.filter (fun x => negb (pt_id x =? pt_id old))) d).
End portals.
