(* ===== verification/PortalClaims.v ===== *)
(** * What a portal shows, and to whom

    A portal's query is the catalogue's with the portal's batch or domain as a
    filter, so its facets count what its filters select. Who reaches a portal
    sees rows of its scope only; slugs stay unique and well formed; a saved view
    is read back as it was saved; import candidates count each row once. On
    concrete tables: what a public portal
    without an organisation shows, and which filters a visitor can lift. *)
From stdpp Require Import list.
From S2P Require Import Prelude PyStr PyJson PyValue PyStrFacts TenantAccess JobsApi Entities Coauthor UnionFind Enrichment EnrichmentClaims AuditTrail EntityCatalog EntityCatalogClaims Portals.
From Stdlib Require Import Ascii String.

Local Open Scope string_scope.
Local Open Scope list_scope.
Local Open Scope Z_scope.
Local Open Scope py_scope.

Section claims.
Context (eloads : string -> option json) (ilike : string -> string -> bool) (db_lower : string -> string)
  (label_le : string -> string -> bool) (nulls_first : bool) (scan : Z -> Z -> Row -> Z) (tenants : Tenants) (domain_exists : string -> bool).
Local Notation query := (portal_entity_query eloads ilike).
Local Notation results := (get_catalog_results eloads ilike db_lower label_le nulls_first scan tenants).
Local Notation record := (get_catalog_record eloads ilike tenants).
Local Notation access := (resolve_portal_access tenants).

(** * The portal's query is the catalogue's *)
Definition plain_view (p : Portal) (f : Filters) : Prop := truthy (pt_domain p) = true /\ pt_batch p <> Some 0 /\ fl_work f = None /\ fl_concept f = None.
Lemma given_some v p : truthy v = true -> given (Some v) p = p v.
Proof. unfold given. by intros ->. Qed.
Lemma passes_matches p f r : plain_view p f ->
  matches ilike db_lower false "" (facet_filters p f) r = in_portal p r && passes ilike f r.
Proof.
  intros (Hd & Hb & Hw & Hc). unfold matches, passes, in_portal, in_quality, column_filters, facet_filters, has_batch.
  cbn [fl_search fl_min fl_max fl_batch fl_concept fl_type fl_domain fl_validation fl_enrichment fl_source fl_work forallb fst snd given].
  destruct (pt_batch p) as [b|] eqn:Eb.
  - destruct (b =? 0) eqn:E0; [apply Z.eqb_eq in E0; congruence|]. cbn [negb]. names. cbn [given orb].
    repeat match goal with |- context [given ?o ?q] => destruct (given o q) end;
      match goal with |- context [bool_decide ?P] => destruct (bool_decide P) end; rewrite ?andb_true_r, ?andb_false_r; reflexivity.
  - names. rewrite (given_some _ _ Hd). cbn [orb].
    repeat match goal with |- context [given ?o ?q] => destruct (given o q) end;
      destruct (text_is "domain" (pt_domain p) r); rewrite ?andb_true_r, ?andb_false_r; reflexivity.
Qed.
Lemma query_is_select p org_id f d : plain_view p f ->
  query p org_id f d = select ilike db_lower false "" org_id (facet_filters p f) d (rows_for eloads org_id (facet_filters p f) d).
Proof.
  intros H. unfold portal_entity_query, apply_entity_filters, select. names. cbv iota. cbn [fl_journal facet_filters].
  change (rows_for eloads org_id (facet_filters p f) d) with (if by_quality f then ensured eloads org_id d else entities d).
  rewrite filter_filter. f_equal. apply filter_ext. intros r. by rewrite (passes_matches p f r H).
Qed.

(** * Featured facets *)
Definition shown_facet (x : string) : Prop := x ∈ ALLOWED_FACETS /\ x <> "domain".
Lemma featured_shown fields : Forall shown_facet (normalize_featured_facets fields) /\ normalize_featured_facets fields <> [].
Proof.
  unfold normalize_featured_facets. set (step := fun acc x => if bool_decide (x = "domain") then acc else if bool_decide (x ∈ ALLOWED_FACETS) && negb (bool_decide (x ∈ acc)) then acc ++ [x] else acc).
  assert (H : forall l acc, Forall shown_facet acc -> Forall shown_facet (fold_left step l acc)).
  { induction l as [|x l IH]; intros acc Ha; cbn [fold_left]; [done|]. apply IH. unfold step.
    destruct (decide (x = "domain")) as [->|Hd]; [done|]. rewrite (bool_decide_eq_false_2 _ Hd).
    destruct (bool_decide (x ∈ ALLOWED_FACETS)) eqn:E; cbn [andb]; [|done]. destruct (negb _); [|done].
    apply Forall_app. split; [done|]. apply Forall_singleton. split; [by apply bool_decide_eq_true in E|done]. }
  specialize (H fields [] ltac:(constructor)). fold step. split.
  - destruct (bool_decide _); [done|]. apply Forall_app. split; [done|]. apply Forall_singleton. split; by apply (bool_decide_unpack _).
  - destruct (bool_decide _) eqn:E; [apply bool_decide_eq_true in E|by destruct (fold_left step fields [])]. intros E'. rewrite E' in E. by apply not_elem_of_nil in E.
Qed.
Lemma requested_names fs : Forall (fun x => x ∈ ALLOWED_FACETS) fs -> fs <> [] -> List.filter truthy (map strip (split_on "," (join "," fs))) = fs.
Proof.
  intros H Hne. assert (Ha : Forall (fun x => no_char ","%char x = true /\ strip x = x /\ truthy x = true) ALLOWED_FACETS) by (by apply (bool_decide_unpack _)).
  rewrite Forall_forall in Ha. rewrite (split_join ","%char) by (done || (eapply Forall_impl; [exact H|]; intros x Hx; by apply Ha)).
  clear Hne. induction H as [|x fs Hx _ IH]; [done|]. cbn [map List.filter]. destruct (Ha x Hx) as (_ & -> & ->). by rewrite IH.
Qed.

(** ** Who gets in *)
Lemma access_spec slug visitor d p org_id : access slug visitor d = Ok (p, org_id) ->
  In p (portals d) /\ pt_slug p = slug /\
  ((pt_visibility p = "public" /\ org_id = pt_org p) \/
   exists u, visitor = Some u /\ reader_scope tenants u = Ok org_id /\ in_scope org_id (pt_org p) = true).
Proof.
  assert (Hpub : forall p org_id, (let? p := get_public_portal slug d in Ok (p, pt_org p)) = Ok (p, org_id) ->
      In p (portals d) /\ pt_slug p = slug /\ pt_visibility p = "public" /\ org_id = pt_org p).
  { intros p0 o0. unfold get_public_portal. destruct (List.find _ _) as [x|] eqn:E; [|done]. cbn [res_bind]. intros [= <- <-].
    apply find_some in E as [Hin [H1%bool_decide_eq_true H2%bool_decide_eq_true]%andb_prop]. done. }
  unfold resolve_portal_access. destruct visitor as [u|]; [|intros (?&?&?&?)%Hpub; split; [done|]; split; [done|]; by left].
  destruct (reader_scope tenants u) as [o|] eqn:Er; [|done]. cbn [res_bind].
  unfold get_scoped_portal. destruct (List.find _ _) as [x|] eqn:E.
  - intros [= <- <-]. apply find_some in E as [Hin H1%bool_decide_eq_true]. rewrite scoped_filter in Hin. apply filter_In in Hin as [Hin Hs].
    split; [done|]. split; [done|]. right. by exists u.
  - intros (?&?&?&?)%Hpub. split; [done|]. split; [done|]. by left.
Qed.
Lemma unique_rows_in l r : In r (unique_rows l) -> In r l.
Proof.
  unfold unique_rows. assert (H : forall l acc, In r (fold_left (fun acc r => if existsb (fun x => row_id x =? row_id r) acc then acc else acc ++ [r]) l acc) -> In r acc \/ In r l).
  { clear l. induction l as [|x l IH]; intros acc; cbn [fold_left]; [by left|]. intros [H|H]%IH; [|right; by right].
    destruct (existsb _ _); [by left|]. apply in_app_iff in H as [H|[<-|[]]]; [by left|right; by left]. }
  intros [[]|Hr]%H; done.
Qed.
Lemma page_in_list {A : Type} skip limit (l : list A) x : In x (page skip limit l) -> In x l.
Proof.
  intros H. unfold page in H. rewrite <- (firstn_skipn (Z.to_nat skip) l). apply in_app_iff. right.
  rewrite <- (firstn_skipn (Z.to_nat limit) (skipn _ _)). apply in_app_iff. by left.
Qed.
(** What a query may show: a row of the table in the scope and in the portal. *)
Definition within (p : Portal) (org_id : option Z) (d : CDb) (r : Row) : Prop :=
  in_scope org_id (row_org r) = true /\ in_portal p r = true /\ exists r', In r' (entities d) /\ row_id r' = row_id r /\ row_org r' = row_org r.
Lemma query_within p org_id f d r : In r (query p org_id f d) -> within p org_id d r /\ passes ilike f r = true.
Proof.
  unfold portal_entity_query, apply_entity_filters. intros H.
  assert (H' : In r (List.filter (passes ilike f) (List.filter (in_portal p) (scoped row_org org_id (if by_quality f then ensured eloads org_id d else entities d))))).
  { unfold filter_journal in H. case_bool_decide; [|done]. unfold join_ready in H. apply in_flat_map in H as (x & Hx & Hr). by apply repeat_spec in Hr as ->. }
  clear H. rewrite scoped_filter in H'. apply filter_In in H' as [H' Hp]. apply filter_In in H' as [H' Hin]. apply filter_In in H' as [H' Hs].
  split; [|done]. split; [done|]. split; [done|]. destruct (by_quality f); [|by exists r].
  apply in_map_iff in H' as (r' & <- & Hr'). exists r'. split; [done|]. destruct (in_scope _ _); [|done]. by destruct (fill_id eloads d r') as (-> & -> & _).
Qed.

(** * Saved views *)
Definition saved (f : Filters) : Filters := without f (fl_search f).
Definition view_journal (j : list (string * json)) : Prop := j = [] \/ j = [("ft_journal_metric_signal", JNull)].
Lemma saved_defaults p f j sort order : pt_query p = query_json f j sort order -> view_journal j ->
  portal_query_defaults p
  = mkDefaults (saved f) (or_text (Some sort) (or_text (Some (pt_sort p)) "primary_label")) (or_text (Some order) "asc").
Proof.
  intros Hp Hj. unfold portal_query_defaults. rewrite Hp. unfold parse_json, query_json.
  replace (truthy (dumps false _)) with true by (destruct Hj as [-> | ->]; reflexivity).
  rewrite loads_dumps.
  2: { constructor; [destruct Hj as [-> | ->]; by apply (bool_decide_unpack _)|].
       destruct f as [[] [] ? ? ? [] ? [] [] [] ? ?], Hj as [-> | ->]; cbn; repeat constructor. }
  destruct f as [[] [] ? ? ? [] ? [] [] [] ? ?], Hj as [-> | ->]; reflexivity.
Qed.
Lemma or_text_given s o : truthy s = true -> or_text (Some s) o = s.
Proof. unfold or_text. by intros ->. Qed.
Lemma or_text_truthy o s : truthy s = true -> truthy (or_text o s) = true.
Proof. intros H. destruct o as [t|]; [|done]. cbn. by destruct (truthy t) eqn:E. Qed.
Lemma defaults_truthy p : truthy (df_sort (portal_query_defaults p)) = true /\ truthy (df_order (portal_query_defaults p)) = true.
Proof. unfold portal_query_defaults. cbn [df_sort df_order]. split; repeat apply or_text_truthy; done. Qed.
Definition valid_update (c : PortalUpdate) : bool :=
  match pu_sort c with Some s => bool_decide (s ∈ ALLOWED_SORTS) | None => true end && match pu_order c with Some s => bool_decide (s ∈ ALLOWED_ORDERS) | None => true end.
Lemma allowed_truthy s : s ∈ ALLOWED_SORTS ++ ALLOWED_ORDERS -> truthy s = true.
Proof.
  assert (H : Forall (fun s => truthy s = true) (ALLOWED_SORTS ++ ALLOWED_ORDERS)) by (by apply (bool_decide_unpack _)).
  rewrite Forall_forall in H. apply H.
Qed.
Lemma updated_query now org_id c p d new : updated_portal now org_id c p d = Ok new ->
  pt_query new = query_json (merged_filters (pu_filters c) (df_filters (portal_query_defaults p))) []
                   (set_or (pu_sort c) (df_sort (portal_query_defaults p))) (set_or (pu_order c) (df_order (portal_query_defaults p))).
Proof.
  unfold updated_portal. intros H. destruct (match pu_batch c with Some _ => _ | None => _ end); [|done]. cbn [res_bind] in H. by injection H as <-.
Qed.
Lemma updated_view now org_id c p d new : updated_portal now org_id c p d = Ok new -> valid_update c = true ->
  portal_query_defaults new = mkDefaults (saved (merged_filters (pu_filters c) (df_filters (portal_query_defaults p))))
                                (set_or (pu_sort c) (df_sort (portal_query_defaults p))) (set_or (pu_order c) (df_order (portal_query_defaults p))).
Proof.
  intros H [Hs Ho]%andb_prop. destruct (defaults_truthy p) as [Ds Do].
  erewrite (saved_defaults new _ []); [|by eapply updated_query|by left]. rewrite !or_text_given; [done|..].
  - destruct (pu_order c); [|done]. apply allowed_truthy, elem_of_app. right. by apply bool_decide_eq_true in Ho.
  - destruct (pu_sort c); [|done]. apply allowed_truthy, elem_of_app. left. by apply bool_decide_eq_true in Hs.
Qed.

(** * Histories *)
Inductive POp :=
  | Create (now : Z) (u : User) (p : PortalCreate) | Change (now : Z) (u : User) (slug : string) (p : PortalUpdate) | Remove (u : User) (slug : string).
Definition pexec (op : POp) (d : PDb) : PDb :=
  match op with
  | Create now u p => match create_catalog_portal tenants domain_exists now u p d with Ok x => x.2 | Raise _ => d end
  | Change now u slug p => match update_catalog_portal tenants now u slug p d with Ok x => x.2 | Raise _ => d end
  | Remove u slug => match delete_catalog_portal tenants u slug d with Ok d' => d' | Raise _ => d end
  end.
Definition reached (c : CDb) (bs : list Batch) (ops : list POp) : PDb := fold_left (fun d op => pexec op d) ops (mkP c [] bs 1).
Record PortalWf (bs : list Batch) (p : Portal) : Prop := {
  pw_slug : slug_ok (pt_slug p) = true; pw_domain : domain_exists (pt_domain p) = true;
  pw_batch : forall b, pt_batch p = Some b -> exists x, In x bs /\ bt_id x = b /\ bt_domain x = pt_domain p;
  pw_org : pt_org p <> Some LEGACY_GLOBAL_ORG_ID;
  pw_max : fl_max (df_filters (portal_query_defaults p)) = None }.
Record PWf (d : PDb) : Prop := {
  pf_rows : Forall (PortalWf (batches d)) (portals d); pf_slugs : NoDup (map pt_slug (portals d)); pf_ids : NoDup (map pt_id (portals d));
  pf_seq : Forall (fun p => pt_id p < portal_seq d) (portals d) }.
Lemma scoped_batch_in org_id id domain d b : scoped_batch org_id id domain d = Ok b -> exists x, In x (batches d) /\ bt_id x = b /\ bt_domain x = domain.
Proof.
  unfold scoped_batch. destruct (List.find _ _) as [x|] eqn:E; [|done]. case_bool_decide as Hd; [|done]. intros [= <-].
  apply find_some in E as [H _]. rewrite scoped_filter in H. apply filter_In in H as [H _]. by exists x.
Qed.
Lemma scoped_portal_in slug org_id d p : get_scoped_portal slug org_id d = Ok p -> In p (portals d) /\ pt_slug p = slug /\ in_scope org_id (pt_org p) = true.
Proof.
  unfold get_scoped_portal. destruct (List.find _ _) as [x|] eqn:E; [|done]. intros [= ->]. apply find_some in E as [H H1%bool_decide_eq_true].
  rewrite scoped_filter in H. by apply filter_In in H as [? ?].
Qed.
Lemma persisted_not_legacy org_id : persisted_org_id org_id <> Some LEGACY_GLOBAL_ORG_ID.
Proof. unfold persisted_org_id, is_legacy_global_scope. by case_bool_decide. Qed.
Lemma created_inv now u p d portal d' : create_catalog_portal tenants domain_exists now u p d = Ok (portal, d') ->
  d' = mkP (catalog d) (portals d ++ [portal]) (batches d) (portal_seq d + 1) /\ PortalWf (batches d) portal /\ pt_id portal = portal_seq d /\
  pt_slug portal ∉ map pt_slug (portals d) /\ pt_query portal = query_json (pc_filters p) [("ft_journal_metric_signal", JNull)] (pc_sort p) (pc_order p).
Proof.
  unfold create_catalog_portal. destruct (editor_scope _ _) as [o|]; [|done]. cbn [res_bind]. destruct (domain_exists _) eqn:Ed; [|done]. cbn [negb].
  unfold normalize_slug. destruct (slug_ok _) eqn:Es; [|done]. cbn [res_bind]. destruct (existsb _ _) eqn:Ex; [done|].
  destruct (opt_batch _ _ _ _) as [b|] eqn:Eb; [|done]. cbn [res_bind]. intros [= <- <-]. split; [done|]. split; [|split; [done|split; [|done]]].
  - constructor; [done|done| |cbn; by apply persisted_not_legacy|by erewrite saved_defaults; [|reflexivity|by right]]. cbn. intros b' ->. unfold opt_batch in Eb. destruct (pc_batch p); [|done].
    destruct (scoped_batch _ _ _ _) eqn:E; [|done]. cbn [res_bind] in Eb. injection Eb as <-. by eapply scoped_batch_in.
  - cbn. intros H%list_elem_of_In%in_map_iff. destruct H as (x & Hx & Hin). apply not_true_iff_false in Ex. apply Ex, existsb_exists. exists x.
    split; [done|]. by apply bool_decide_eq_true.
Qed.
Lemma changed_inv now org_id u p d new : updated_portal now org_id u p d = Ok new -> PortalWf (batches d) p ->
  PortalWf (batches d) new /\ pt_id new = pt_id p /\ pt_slug new = pt_slug p /\ pt_org new = pt_org p.
Proof.
  intros H Hp. pose proof (updated_query _ _ _ _ _ _ H) as Hq. assert (Hm : fl_max (df_filters (portal_query_defaults new)) = None) by (by erewrite saved_defaults; [|exact Hq|by left]).
  clear Hq. unfold updated_portal in H. destruct (pu_batch u) as [b|].
  - destruct (scoped_batch _ _ _ _) as [i|] eqn:E; [|done]. cbn [res_bind] in H. injection H as <-. split; [|done].
    constructor; try apply Hp; [|exact Hm]. cbn. intros b' [= <-]. by eapply scoped_batch_in.
  - cbn [res_bind] in H. injection H as <-. split; [|done]. constructor; try apply Hp. exact Hm.
Qed.
Lemma pexec_wf op d : PWf d -> PWf (pexec op d).
Proof.
  intros H. destruct op as [now u p|now u slug p|u slug]; cbn [pexec].
  - destruct (create_catalog_portal _ _ _ _ _ _) as [[portal d']|] eqn:E; [|done]. cbn [snd]. apply created_inv in E as (-> & Hw & Hid & Hs & _).
    destruct H as [H1 H2 H3 H4]. rewrite Forall_forall in H4. constructor; cbn.
    + apply Forall_app. split; [done|]. by apply Forall_singleton.
    + rewrite map_app. apply NoDup_app. split; [done|]. split; [|apply NoDup_singleton]. intros x Hx Hx'. apply list_elem_of_singleton in Hx' as ->. done.
    + rewrite map_app. apply NoDup_app. split; [done|]. split; [|apply NoDup_singleton]. intros x Hx Hx'. apply list_elem_of_singleton in Hx' as ->.
      apply list_elem_of_In, in_map_iff in Hx as (y & Hy & Hin). apply list_elem_of_In, H4 in Hin. cbn in *. lia.
    + apply Forall_app. split; [|apply Forall_singleton; lia]. apply Forall_forall. intros x Hx%H4. lia.
  - unfold update_catalog_portal. destruct (editor_scope _ _) as [o|]; [|done]. cbn [res_bind]. destruct (get_scoped_portal _ _ _) as [old|] eqn:E; [|done]. cbn [res_bind].
    destruct (updated_portal _ _ _ _ _) as [new|] eqn:En; [|done]. cbn [res_bind snd]. apply scoped_portal_in in E as (Hin & _ & _).
    destruct H as [H1 H2 H3 H4]. assert (Hold : PortalWf (batches d) old) by (eapply Forall_forall in H1; [exact H1|by apply list_elem_of_In]).
    apply changed_inv in En as (Hw & Hid & Hs & _); [|done].
    assert (Hk : forall (B : Type) (k : Portal -> B), k new = k old -> map k (map (fun x => if pt_id x =? pt_id old then new else x) (portals d)) = map k (portals d)).
    { intros B k Hk. rewrite map_map. apply map_ext_in. intros x Hx. destruct (pt_id x =? pt_id old) eqn:Ex; [|done]. apply Z.eqb_eq in Ex.
      by rewrite (NoDup_map_inj pt_id _ _ _ H3 Hx Hin Ex). }
    constructor; cbn; [|by rewrite Hk|by rewrite Hk|].
    + apply Forall_map. eapply Forall_impl; [exact H1|]. intros x Hx. by destruct (_ =? _).
    + apply Forall_map. eapply Forall_impl; [exact H4|]. intros x Hx. cbn. destruct (pt_id x =? pt_id old) eqn:Ex; [|done]. apply Z.eqb_eq in Ex. rewrite Hid, <- Ex. exact Hx.
  - unfold delete_catalog_portal. destruct (editor_scope _ _) as [o|]; [|done]. cbn [res_bind]. destruct (get_scoped_portal _ _ _) as [old|]; [|done]. cbn [res_bind].
    destruct H as [H1 H2 H3 H4]. rewrite !Forall_forall in *. constructor; cbn; [|by apply NoDup_map_filter|by apply NoDup_map_filter|];
      apply Forall_forall; intros x [Hx _]%list_elem_of_In%filter_In; [apply H1|apply H4]; by apply list_elem_of_In.
Qed.
Lemma pexec_keeps op d : batches (pexec op d) = batches d /\ catalog (pexec op d) = catalog d.
Proof.
  destruct op as [now u p|now u slug p|u slug]; cbn [pexec].
  - destruct (create_catalog_portal _ _ _ _ _ _) as [[portal d']|] eqn:E; [|done]. by apply created_inv in E as (-> & _).
  - unfold update_catalog_portal. destruct (editor_scope _ _); [|done]. cbn [res_bind]. destruct (get_scoped_portal _ _ _); [|done]. cbn [res_bind].
    by destruct (updated_portal _ _ _ _ _).
  - unfold delete_catalog_portal. destruct (editor_scope _ _); [|done]. cbn [res_bind]. by destruct (get_scoped_portal _ _ _).
Qed.
Lemma reached_pwf c bs ops : PWf (reached c bs ops) /\ batches (reached c bs ops) = bs /\ catalog (reached c bs ops) = c.
Proof.
  unfold reached. assert (H : forall ops d, PWf d -> PWf (fold_left (fun d op => pexec op d) ops d) /\
      batches (fold_left (fun d op => pexec op d) ops d) = batches d /\ catalog (fold_left (fun d op => pexec op d) ops d) = catalog d).
  { clear. induction ops as [|op ops IH]; intros d Hd; cbn [fold_left]; [done|].
    destruct (IH _ (pexec_wf op d Hd)) as (H1 & -> & ->). destruct (pexec_keeps op d) as [-> ->]. done. }
  apply H. constructor; constructor.
Qed.

Lemma access_unique slug visitor d p org_id q : PWf d -> access slug visitor d = Ok (p, org_id) -> In q (portals d) -> pt_slug q = slug -> q = p.
Proof. intros H (Hin & Hs & _)%access_spec Hq Hs'. eapply (NoDup_map_inj pt_slug); [apply H|done|done|congruence]. Qed.

Lemma reached_portal c bs ops p : In p (portals (reached c bs ops)) -> PortalWf bs p.
Proof.
  destruct (reached_pwf c bs ops) as (H & Hb & _). intros Hp%list_elem_of_In. pose proof (pf_rows _ H) as Hr. rewrite Hb, Forall_forall in Hr. by apply Hr.
Qed.

(** * Who sees what *)
Definition public_view (p : Portal) (org_id : option Z) : Prop := pt_visibility p = "public" /\ org_id = pt_org p.
Definition own_view (visitor : option User) (p : Portal) (org_id : option Z) : Prop :=
  exists u, visitor = Some u /\ reader_scope tenants u = Ok org_id /\ in_scope org_id (pt_org p) = true.
(** A row an endpoint of the portal shows. *)
Definition shown (slug : string) (visitor : option User) (d : PDb) (r : Row) : Prop :=
  (exists a skip limit res, results slug visitor a skip limit d = Ok res /\ In r (re_items res)) \/ exists id, record slug id visitor d = Ok r.
Lemma results_inv slug visitor a skip limit d res : results slug visitor a skip limit d = Ok res ->
  exists p org_id, access slug visitor d = Ok (p, org_id) /\
    let view := resolve_filters p a in let l := query p org_id (df_filters view) (catalog d) in
    re_view res = view /\ re_total res = Z.of_nat (List.length l) /\
    re_items res = unique_rows (page skip limit (sorted_rows label_le nulls_first (scan skip limit) (df_sort view) (df_order view) l)) /\
    re_facets res = get_facets eloads ilike db_lower org_id (join "," (featured p)) (facet_filters p (df_filters view)) (catalog d).
Proof.
  unfold get_catalog_results. destruct (access slug visitor d) as [[p org_id]|]; [|done]. cbn [res_bind]. intros [= <-]. by exists p, org_id.
Qed.
Lemma items_in s skip limit column order (l : list Row) r : In r (unique_rows (page skip limit (sorted_rows label_le nulls_first s column order l))) -> In r l.
Proof. intros H%unique_rows_in%page_in_list. unfold sorted_rows in H. by apply sort_by_in, sort_by_in in H. Qed.
Lemma record_inv slug id visitor d r : record slug id visitor d = Ok r ->
  exists p org_id, access slug visitor d = Ok (p, org_id) /\ In r (query p org_id (without (df_filters (portal_query_defaults p)) None) (catalog d)).
Proof.
  unfold get_catalog_record. destruct (access slug visitor d) as [[p org_id]|]; [|done]. cbn [res_bind].
  destruct (List.find _ _) as [x|] eqn:E; [|done]. intros [= ->]. apply find_some in E as [H _]. by exists p, org_id.
Qed.

(** C36: After any portals have been made, changed and removed, as long as every
    public portal has an organisation, whatever a page of a portal or its record
    endpoint shows, to a visitor with or without an account, is a row of the
    portal's batch or domain: a row of the organisation of a public portal, or
    else a row in the scope of a visitor whose scope has the portal; and the slug
    names that portal alone. *)
Theorem portal_confined c bs ops slug visitor r :
  Forall (fun p => pt_visibility p = "public" -> is_Some (pt_org p)) (portals (reached c bs ops)) ->
  shown slug visitor (reached c bs ops) r ->
  exists p org_id, In p (portals (reached c bs ops)) /\ (forall q, In q (portals (reached c bs ops)) -> pt_slug q = slug -> q = p) /\
    within p org_id c r /\ ((public_view p org_id /\ row_org r = pt_org p) \/ (own_view visitor p org_id /\ in_scope org_id (row_org r) = true)).
Proof.
  destruct (reached_pwf c bs ops) as (Hwf & _ & Hc). intros Howned Hr.
  assert (H : exists p org_id f, access slug visitor (reached c bs ops) = Ok (p, org_id) /\ In r (query p org_id f (catalog (reached c bs ops)))).
  { destruct Hr as [(a & skip & limit & res & (p & o & Ha & _ & _ & Hi & _)%results_inv & Hin)|(id & (p & o & Ha & Hin)%record_inv)]; exists p, o; eexists; split; [done| |done|done].
    rewrite Hi in Hin. by apply items_in in Hin. }
  destruct H as (p & o & f & Ha & [Hq _]%query_within). rewrite Hc in Hq. exists p, o. pose proof Ha as (Hp & _ & Hv)%access_spec. split; [done|]. split; [|split; [done|]].
  - intros q. by apply (access_unique slug visitor _ p o).
  - pose proof Hq as (Hs & _). destruct Hv as [[Hpub Ho]|Hown]; [left|by right]. split; [done|]. subst o. rewrite Forall_forall in Howned.
    destruct (Howned p ltac:(by apply list_elem_of_In) Hpub) as [o Eo]. pose proof (pw_org _ _ (reached_portal c bs ops p Hp)) as Hleg. rewrite Eo in *.
    unfold in_scope, org_scope_filter, is_legacy_global_scope in Hs. rewrite bool_decide_eq_false_2 in Hs by done. unfold col_eq in Hs.
    destruct (row_org r) as [x|]; [|done]. apply Z.eqb_eq in Hs. congruence.
Qed.
(** Where the visitor may see no portal of the name, every endpoint answers that
    there is none. *)
Lemma hidden_portal slug visitor d :
  (forall u, visitor = Some u -> exists o, reader_scope tenants u = Ok o) ->
  (forall p o, In p (portals d) -> pt_slug p = slug -> ~ (public_view p o \/ own_view visitor p o)) ->
  access slug visitor d = Raise no_portal.
Proof.
  intros Hs Hp. destruct (access slug visitor d) as [[p o]|e] eqn:E; [by apply access_spec in E as (Hin & Hsl & Hv); destruct (Hp p o Hin Hsl)|].
  revert E. unfold resolve_portal_access, get_public_portal. destruct visitor as [u|].
  - destruct (Hs u eq_refl) as [o ->]. cbn [res_bind]. destruct (get_scoped_portal _ _ _); [done|]. by destruct (List.find _ _); [|intros [= <-]].
  - by destruct (List.find _ _); [|intros [= <-]].
Qed.

(** * What is listed can be opened *)
Definition nothing : Asked := mkAsked no_filter None None.
Lemma query_nodup p org_id f d : NoDup (map row_id (entities d)) -> fl_journal f <> Some NIF_BAYES_READY -> NoDup (map row_id (query p org_id f d)).
Proof.
  intros Hnd Hj. unfold portal_entity_query, apply_entity_filters, filter_journal. rewrite bool_decide_eq_false_2 by done.
  apply NoDup_map_filter, NoDup_map_filter. rewrite scoped_filter. apply NoDup_map_filter. destruct (by_quality f); [by rewrite ensured_ids|done].
Qed.
Lemma saved_opens p org_id d r : fl_max (df_filters (portal_query_defaults p)) = None ->
  In r (query p org_id (df_filters (resolve_filters p nothing)) d) -> In r (query p org_id (without (df_filters (portal_query_defaults p)) None) d).
Proof.
  intros Hm. replace (df_filters (resolve_filters p nothing)) with (saved (df_filters (portal_query_defaults p))).
  2: { unfold resolve_filters, saved, without. cbn [df_filters as_filters nothing no_filter first_some fl_search fl_min fl_max fl_type fl_validation fl_enrichment fl_source fl_journal].
       by rewrite Hm. }
  set (g := df_filters (portal_query_defaults p)) in *.
  unfold portal_entity_query, apply_entity_filters, filter_journal, by_quality. cbn [saved without fl_journal fl_min fl_max]. 
  rewrite bool_decide_eq_false_2 by done. rewrite !filter_In. intros [Hr Hp]. split; [exact Hr|]. revert Hp.
  unfold passes, in_quality. cbn [saved fl_search fl_min fl_max fl_type fl_validation fl_enrichment fl_source without given].
  rewrite !andb_true_iff. naive_solver.
Qed.
(** C38: Every record a portal lists under its saved view can be opened at its
    own address by the same visitor, and is the row that was listed. *)
Theorem listed_records_open c bs ops slug visitor skip limit res r :
  NoDup (map row_id (entities c)) ->
  results slug visitor nothing skip limit (reached c bs ops) = Ok res -> In r (re_items res) ->
  record slug (row_id r) visitor (reached c bs ops) = Ok r.
Proof.
  intros Hnd (p & o & Ha & _ & _ & Hi & _)%results_inv Hin. destruct (reached_pwf c bs ops) as (Hwf & _ & Hc). rewrite Hi in Hin. apply items_in in Hin.
  apply saved_opens in Hin.
  2: { apply access_spec in Ha as [Hp _]. by destruct (reached_portal c bs ops p Hp). }
  unfold get_catalog_record. rewrite Ha. cbn [res_bind].
  rewrite (find_unique row_id _ _ r); [done| |done|by apply Z.eqb_eq|by intros y ?%Z.eqb_eq].
  apply query_nodup; [by rewrite Hc|done].
Qed.

(** * Facets *)
Definition VIEW_FACETS : list string := ["entity_type"; "validation_status"; "enrichment_status"; "source"; "journal_metric_signal"].
(** [a'] is the request [a] with a value of a facet picked, in any order. *)
Definition picks (field v : string) (a a' : Asked) : Prop := as_filters a' = with_filter field v (as_filters a).
Lemma pick_resolves field v p a a' : field ∈ VIEW_FACETS -> (field = "journal_metric_signal" -> v = NIF_BAYES_READY) -> picks field v a a' ->
  facet_filters p (df_filters (resolve_filters p a')) = with_filter field v (facet_filters p (df_filters (resolve_filters p a))).
Proof.
  intros Hf Hj Hp. destruct a as [f s o], a' as [f' s' o']. unfold picks in Hp. cbn [as_filters] in Hp. subst f'. unfold resolve_filters, facet_filters, with_filter. cbn [as_filters df_filters].
  repeat (apply elem_of_cons in Hf as [->|Hf]); [..|by apply not_elem_of_nil in Hf]; cbn [fl_type fl_domain fl_validation fl_enrichment fl_source fl_work fl_journal]; names; cbv iota; [reflexivity..|].
  rewrite (Hj eq_refl). reflexivity.
Qed.
Lemma resolved_plain c bs ops p a : domain_exists "" = false -> ~ In 0 (map bt_id bs) -> In p (portals (reached c bs ops)) ->
  plain_view p (df_filters (resolve_filters p a)).
Proof.
  intros Hd Hb [_ Hdom Hbat _ _]%reached_portal. split; [|split; [|done]].
  - unfold truthy. case_bool_decide as E; [|done]. rewrite E in Hdom. congruence.
  - intros E. destruct (Hbat 0 E) as (x & Hx & Hi & _). apply Hb. rewrite <- Hi. by apply in_map.
Qed.
Lemma shown_requested org_id p f d field : is_Some (dict_get field (get_facets eloads ilike db_lower org_id (join "," (featured p)) f d)) ->
  field ∈ List.filter truthy (map strip (split_on "," (join "," (featured p)))) /\ field ∈ VIEW_FACETS.
Proof.
  rewrite facets_get_if. case_bool_decide as H; [|by intros [? ?]]. intros _. split; [done|]. destruct (featured_shown (match parse_json (pt_facets p) (JArr []) with JArr l => flat_map (fun v => match v with JStr s => [s] | _ => [] end) l | _ => [] end)) as [Hs Hne].
  fold (featured p) in Hs, Hne. rewrite requested_names in H; [|eapply Forall_impl; [exact Hs|]; by intros x [? _]|done].
  rewrite Forall_forall in Hs. destruct (Hs field H) as [Ha Hd]. unfold ALLOWED_FACETS in Ha.
  repeat (apply elem_of_cons in Ha as [->|Ha]); [..|by apply not_elem_of_nil in Ha]; try done; by apply (bool_decide_unpack _).
Qed.
(** C37: Every number a portal shows beside a value of a facet, the journal signal
    included, is the total it shows to the same visitor who picks that value and
    leaves the other filters as they are, whatever the page and the order of
    either request. *)
Theorem portal_facets_match c bs ops slug visitor a a' skip limit skip' limit' res field counts v n :
  domain_exists "" = false -> ~ In 0 (map bt_id bs) ->
  results slug visitor a skip limit (reached c bs ops) = Ok res ->
  dict_get field (re_facets res) = Some counts -> In (v, n) counts -> picks field v a a' ->
  exists res', results slug visitor a' skip' limit' (reached c bs ops) = Ok res' /\ re_total res' = n.
Proof.
  intros Hd Hb (p & o & Ha & _ & _ & _ & Hfac)%results_inv Hf Hin Hpick. pose proof Ha as Ha'. apply access_spec in Ha' as [Hp _].
  unfold get_catalog_results. rewrite Ha. cbn [res_bind]. eexists. split; [done|]. cbn [re_total]. rewrite Hfac in Hf.
  destruct (shown_requested _ _ _ _ _ (mk_is_Some _ _ Hf)) as [Hreq Hview]. pose proof Hf as Hf'. rewrite facets_get_if, bool_decide_eq_true_2 in Hf' by done.
  assert (Hw : field <> "work_type") by (intros ->; by apply (bool_decide_pack _) in Hview).
  destruct (facet_entries _ _ _ _ _ _ _ _ _ _ Hf' Hin Hw) as [Hn Hv].
  rewrite query_is_select by (by eapply resolved_plain). assert (Hj : field = "journal_metric_signal" -> v = NIF_BAYES_READY).
  { intros ->. destruct Hv as [[Hv _]|[_ Hv]]; [by apply (bool_decide_pack _) in Hv|done]. }
  rewrite (pick_resolves field v p a) by done.
  set (f := facet_filters p (df_filters (resolve_filters p a))) in *. change (rows_for eloads o (with_filter field v f) (catalog (reached c bs ops))) with (rows_for eloads o f (catalog (reached c bs ops))).
  rewrite <- (facet_selects eloads ilike db_lower o (join "," (featured p)) f (catalog (reached c bs ops)) field v); [|by apply entry_value|done].
  unfold shown_count. by rewrite Hf, Hn.
Qed.

(** * The life of a view *)
Lemma scoped_found p org_id d : PWf d -> In p (portals d) -> in_scope org_id (pt_org p) = true -> get_scoped_portal (pt_slug p) org_id d = Ok p.
Proof.
  intros H Hp Hs. unfold get_scoped_portal. rewrite (find_unique pt_slug _ _ p); [done| | |by apply bool_decide_eq_true|by intros y ?%bool_decide_eq_true].
  - rewrite scoped_filter. apply NoDup_map_filter, H.
  - rewrite scoped_filter. by apply filter_In.
Qed.
Lemma own_access u org_id p d : PWf d -> reader_scope tenants u = Ok org_id -> In p (portals d) -> in_scope org_id (pt_org p) = true ->
  access (pt_slug p) (Some u) d = Ok (p, org_id).
Proof. intros H Hu Hp Hs. unfold resolve_portal_access. rewrite Hu. cbn [res_bind]. by rewrite scoped_found. Qed.
Lemma editor_reader u org_id : editor_scope tenants u = Ok org_id -> reader_scope tenants u = Ok org_id.
Proof. unfold editor_scope. by destruct (require_role _ _). Qed.
Lemma create_found now u p d portal d' : PWf d -> create_catalog_portal tenants domain_exists now u p d = Ok (portal, d') ->
  PWf d' /\ In portal (portals d') /\ exists org_id, access (pt_slug portal) (Some u) d' = Ok (portal, org_id).
Proof.
  intros H E. pose proof (pexec_wf (Create now u p) d H) as Hwf. cbn [pexec] in Hwf. rewrite E in Hwf. cbn [snd] in Hwf. split; [done|].
  pose proof E as (-> & _)%created_inv. assert (Hin : In portal (portals d ++ [portal])) by (apply in_app_iff; right; by left). split; [done|].
  unfold create_catalog_portal in E. destruct (editor_scope tenants u) as [o|] eqn:Eu; [|done]. apply editor_reader in Eu. exists o. apply own_access; [done|done|done|].
  cbn [res_bind] in E. destruct (negb _); [done|]. destruct (normalize_slug _); [|done]. cbn [res_bind] in E. destruct (existsb _ _); [done|].
  destruct (opt_batch _ _ _ _); [|done]. cbn [res_bind] in E. injection E as <-. apply in_scope_persisted.
Qed.
Lemma update_found now u slug c d new d' : PWf d -> update_catalog_portal tenants now u slug c d = Ok (new, d') ->
  exists org_id old, In old (portals d) /\ pt_slug old = slug /\ updated_portal now org_id c old d = Ok new /\ access slug (Some u) d' = Ok (new, org_id).
Proof.
  intros H E. pose proof (pexec_wf (Change now u slug c) d H) as Hwf. cbn [pexec] in Hwf. rewrite E in Hwf. cbn [snd] in Hwf.
  unfold update_catalog_portal in E. destruct (editor_scope tenants u) as [o|] eqn:Eu; [|done]. apply editor_reader in Eu. cbn [res_bind] in E.
  destruct (get_scoped_portal slug o d) as [old|] eqn:Eo; [|done]. cbn [res_bind] in E. apply scoped_portal_in in Eo as (Hin & Hs & Ho).
  destruct (updated_portal now o c old d) as [n|] eqn:En; [|done]. cbn [res_bind] in E. injection E as -> <-. exists o, old.
  split; [done|]. split; [done|]. split; [done|]. pose proof (pf_rows _ H) as Hr. rewrite Forall_forall in Hr.
  destruct (changed_inv _ _ _ _ _ _ En (Hr old ltac:(by apply list_elem_of_In))) as (_ & _ & Hn & Horg).
  rewrite <- Hs, <- Hn. apply own_access; [done|done| |by rewrite Horg]. cbn. apply in_map_iff. exists old. by rewrite Z.eqb_refl.
Qed.
(** C39: A view is read as it was saved: after any history, the editor who makes
    a portal finds it under its slug with the filters, sort and order given, and
    any editor who changes it finds those the change gives and, of the others,
    the ones it had. *)
Theorem saved_view c bs ops now u p portal d' :
  valid_create p = true -> create_catalog_portal tenants domain_exists now u p (reached c bs ops) = Ok (portal, d') ->
  portal_query_defaults portal = mkDefaults (saved (pc_filters p)) (pc_sort p) (pc_order p) /\
  (exists org_id, access (pt_slug portal) (Some u) d' = Ok (portal, org_id)) /\
  forall now2 u2 change new d2, valid_update change = true -> update_catalog_portal tenants now2 u2 (pt_slug portal) change d' = Ok (new, d2) ->
    portal_query_defaults new
    = mkDefaults (saved (merged_filters (pu_filters change) (pc_filters p))) (set_or (pu_sort change) (pc_sort p)) (set_or (pu_order change) (pc_order p)) /\
    exists org_id, access (pt_slug portal) (Some u2) d2 = Ok (new, org_id).
Proof.
  intros Hv E. destruct (reached_pwf c bs ops) as (Hwf & _). destruct (create_found _ _ _ _ _ _ Hwf E) as (Hwf' & Hin & Hacc).
  assert (Hdef : portal_query_defaults portal = mkDefaults (saved (pc_filters p)) (pc_sort p) (pc_order p)).
  { pose proof E as (_ & _ & _ & _ & Hq)%created_inv. erewrite saved_defaults; [|exact Hq|by right]. unfold valid_create in Hv. rewrite !andb_true_iff, !bool_decide_eq_true in Hv.
    destruct Hv as [[_ Hs] Ho]. rewrite !or_text_given; [done|apply allowed_truthy, elem_of_app; by right|apply allowed_truthy, elem_of_app; by left]. }
  split; [done|]. split; [done|]. intros now2 u2 change new d2 Hc Eu. destruct (update_found _ _ _ _ _ _ _ Hwf' Eu) as (o & old & Hold & Hs & En & Ha).
  assert (old = portal) as -> by (eapply (NoDup_map_inj pt_slug); [apply Hwf'|done..]).
  split; [|by exists o]. rewrite (updated_view _ _ _ _ _ _ En Hc), Hdef. reflexivity.
Qed.

(** * Import candidates *)
(** At most twelve candidates come, batches first; of the rows of no batch, each
    group names a domain, a source and a type once and counts their rows, and if
    there is room for all of them their totals are all those rows. *)
Lemma candidates_exact u d org_id l :
  reader_scope tenants u = Ok org_id -> list_catalog_import_candidates label_le nulls_first tenants u d = Ok l ->
  exists bs ks, l = map batch_candidate bs ++ map (scope_candidate (rows_of_no_batch org_id d)) ks /\
    bs = firstn CANDIDATES_CAP (newest_batches org_id d) /\ (List.length l <= CANDIDATES_CAP)%nat /\ NoDup ks /\
    Forall (fun k => exists r, In r (rows_of_no_batch org_id d) /\ scope_key r = k) ks /\
    ((List.length l < CANDIDATES_CAP)%nat ->
     fold_right Z.add 0 (map (fun k => Z.of_nat (List.length (rows_of k (rows_of_no_batch org_id d)))) ks) = Z.of_nat (List.length (rows_of_no_batch org_id d))).
Proof.
  unfold list_catalog_import_candidates. intros ->. cbn [res_bind]. intros [= <-]. set (bs := firstn CANDIDATES_CAP (newest_batches org_id d)).
  set (rows := rows_of_no_batch org_id d). set (all := sort_by _ (first_seen (map scope_key rows))). rewrite length_map.
  assert (Hlen : (List.length bs <= CANDIDATES_CAP)%nat) by (unfold bs; rewrite length_firstn; lia).
  assert (Hall : NoDup all) by (unfold all; rewrite sort_by_perm; apply first_seen_NoDup).
  assert (Hin : forall k, k ∈ all <-> exists r, In r rows /\ scope_key r = k).
  { intros k. unfold all. rewrite sort_by_perm, first_seen_in, list_elem_of_In, in_map_iff. naive_solver. }
  exists bs, (firstn (CANDIDATES_CAP - List.length bs) all). split; [done|]. split; [done|]. rewrite length_app, !length_map, length_firstn.
  split; [lia|]. split; [|split].
  - rewrite <- (firstn_skipn (CANDIDATES_CAP - List.length bs) all) in Hall. by apply NoDup_app in Hall as (? & _).
  - apply Forall_forall. intros k Hk. apply Hin. rewrite <- (firstn_skipn (CANDIDATES_CAP - List.length bs) all). apply elem_of_app. by left.
  - intros Hl. rewrite firstn_all2 by lia. apply (counted_over scope_key); [done|]. intros r Hr. apply Hin. by exists r.
Qed.
End claims.

(** * On concrete tables *)
Definition science (s : string) : bool := bool_decide (s = "science").
Definition paper (id org : Z) (status : string) : Row := row id org [("domain", JStr "science"); ("entity_type", JStr "publication"); ("enrichment_status", JStr status)].
Definition ex_catalog : CDb := mkC [paper 1 7 "completed"; paper 2 7 "pending"; row 3 7 [("domain", JStr "arts")]; paper 4 8 "completed"] [] [] [] [] [] [].
Definition only_type (t : string) : Filters := mkFilters None None None None None (Some t) None None None None None None.
Definition ex_portal (visibility : string) (filters : Filters) : PortalCreate :=
  mkPC " Our papers " "Our-Papers" None None "science" visibility None [] filters "id" "desc" ["enrichment_status"; "domain"; "enrichment_status"].
Definition ex_ops : list POp := [Create 10 an_editor (ex_portal "public" (only_type "publication"))].
Definition ex_reached : PDb := reached one_org science ex_catalog [mkBatch 1 (Some 7) "science" "upload" (Some "papers.csv") None None (Some 3) None 1] ex_ops.
Definition ex_results (visitor : option User) (a : Asked) (d : PDb) : res Results := get_catalog_results loads in_text lower str_le true by_id one_org "our-papers" visitor a 0 10 d.
Definition ids_of (r : res Results) : list Z := match r with Ok x => map row_id (re_items x) | Raise _ => [] end.
Lemma anonymous_results : exists res, ex_results None nothing ex_reached = Ok res /\ re_items res = [paper 2 7 "pending"; paper 1 7 "completed"] /\ re_total res = 2 /\
  dict_get "enrichment_status" (re_facets res) = Some [("completed", 1); ("pending", 1)].
Proof. eexists. split; [vm_compute; reflexivity|]. vm_compute. repeat split. Qed.
Lemma portal_confined_witness :
  exists r p org_id, In p (portals ex_reached) /\ (forall q, In q (portals ex_reached) -> pt_slug q = "our-papers" -> q = p) /\
    within p org_id ex_catalog r /\ ((public_view p org_id /\ row_org r = pt_org p) \/ (own_view one_org None p org_id /\ in_scope org_id (row_org r) = true)).
Proof.
  destruct anonymous_results as (res & Hr & Hi & _). exists (paper 2 7 "pending").
  apply (portal_confined loads in_text lower str_le true by_id one_org science ex_catalog [mkBatch 1 (Some 7) "science" "upload" (Some "papers.csv") None None (Some 3) None 1] ex_ops "our-papers" None).
  - apply Forall_singleton. intros _. eexists. reflexivity.
  - left. exists nothing, 0, 10, res. split; [exact Hr|]. rewrite Hi. by left.
Defined.
Lemma listed_records_open_witness :
  get_catalog_record loads in_text one_org "our-papers" 2 None ex_reached = Ok (paper 2 7 "pending").
Proof.
  destruct anonymous_results as (res & Hr & Hi & _).
  apply (listed_records_open loads in_text lower str_le true by_id one_org science ex_catalog [mkBatch 1 (Some 7) "science" "upload" (Some "papers.csv") None None (Some 3) None 1] ex_ops "our-papers" None 0 10 res (paper 2 7 "pending")).
  - apply (bool_decide_unpack _). reflexivity.
  - exact Hr.
  - rewrite Hi. by left.
Defined.
Definition only_completed : Asked := mkAsked (with_filter "enrichment_status" "completed" no_filter) (Some "id") (Some "desc").
Lemma portal_facets_match_witness :
  exists res', ex_results None only_completed ex_reached = Ok res' /\ re_total res' = 1.
Proof.
  destruct anonymous_results as (res & Hr & _ & _ & Hf).
  apply (portal_facets_match loads in_text lower str_le true by_id one_org science ex_catalog [mkBatch 1 (Some 7) "science" "upload" (Some "papers.csv") None None (Some 3) None 1] ex_ops "our-papers" None
           nothing only_completed 0 10 0 10 res "enrichment_status" [("completed", 1); ("pending", 1)] "completed" 1).
  - reflexivity.
  - intros [H|[]]. discriminate.
  - exact Hr.
  - exact Hf.
  - by left.
  - reflexivity.
Defined.
Definition ex_created : res (Portal * PDb) := create_catalog_portal one_org science 10 an_editor (ex_portal "org" (only_type "publication")) (reached one_org science ex_catalog [] []).
Lemma created_ok : exists portal d', ex_created = Ok (portal, d') /\ pt_slug portal = "our-papers" /\ pt_org portal = Some 7.
Proof. do 2 eexists. split; [vm_compute; reflexivity|]. by split. Qed.
Lemma saved_view_witness :
  exists portal, portal_query_defaults portal = mkDefaults (saved (only_type "publication")) "id" "desc" /\ pt_slug portal = "our-papers".
Proof.
  destruct created_ok as (portal & d' & E & Hs & _). exists portal. split; [|exact Hs].
  exact (proj1 (saved_view one_org science ex_catalog [] [] 10 an_editor (ex_portal "org" (only_type "publication")) portal d' eq_refl E)).
Defined.

(** * Findings *)

(** A public portal without an organisation shows anyone the records of every
    organisation. *)
Definition a_global_editor : User := mkUser 2 "editor" None.
Lemma global_portal_shows_all :
  let d := reached one_org science ex_catalog [] [Create 10 a_global_editor (ex_portal "public" no_filter)] in
  map pt_org (portals d) = [None] /\ ids_of (ex_results None nothing d) = [4; 2; 1].
Proof. vm_compute. repeat split. Qed.
(** A visitor can lift the saved filters by giving empty ones; what is then
    listed cannot be opened. *)
Lemma visitor_lifts_saved_filters :
  let f := mkFilters None None None None None None None None (Some "completed") None None None in
  let d := reached one_org science ex_catalog [] [Create 10 an_editor (ex_portal "public" f)] in
  let lifted := mkAsked (mkFilters None None None None None None None None (Some "") None None None) None None in
  ids_of (ex_results None nothing d) = [1] /\ ids_of (ex_results None lifted d) = [2; 1] /\
  get_catalog_record loads in_text one_org "our-papers" 2 None d = Raise (HTTPException 404 "Catalog record not found").
Proof. vm_compute. repeat split. Qed.
(** A private portal is shown to every member of its organisation, as one of the
    organisation is: only "public" is told apart. *)
Lemma private_is_organisation :
  let orgs := mkTenants (organizations one_org) [mkMember 7 1; mkMember 7 3] in
  let d v := reached orgs science ex_catalog [] [Create 10 an_editor (ex_portal v no_filter)] in
  let another := mkUser 3 "viewer" (Some 7) in
  ids_of (get_catalog_results loads in_text lower str_le true by_id orgs "our-papers" (Some another) nothing 0 10 (d "private")) = [2; 1] /\ ids_of (get_catalog_results loads in_text lower str_le true by_id orgs "our-papers" (Some another) nothing 0 10 (d "org")) = [2; 1].
Proof. vm_compute. repeat split. Qed.
